(* ===== verification/_CoqProject ===== *)
-Q . S2P
Prelude.v
Footprint.v
Chan.v
Pcf.v
Task.v
Heap.v
Bay.v
Mux.v
Sort.v
Prv.v
Dispatch.v
Network.v
Thread.v
Loom.v
Event.v
Cstr.v
EvSpec.v
EvSpecCorrect.v
EvSignature.v
EvLists.v
EvPrint.v
OvniModel.v
OvniCorrect.v
Coherence.v
Model.v
Emu.v
OvniDemo.v
Table.v
Mpi.v
Tampi.v
Nodes.v
Kernel.v
TaskModel.v
Nosv.v
Nanos6.v
Openmp.v
Declared.v
EvTools.v
Hooks.v
Roster.v
Nesting.v
TaskView.v
TaskCorrect.v
Rt.v
RtCorrect.v
Stream.v
RoundTrip.v
MaxHeap.v
MaxHeapCorrect.v
Player.v
PlayerCorrect.v
Ovnisort.v
OvnisortCorrect.v
Recorder.v
System.v
Tree.v
SystemCorrect.v
ConnectCorrect.v
Offsets.v
Ready.v
Json.v
Track.v
ModelThread.v
Mark.v
Hwc.v
Breakdown.v
Specs.v
Setups.v
Registry.v
Effect.v
Flow.v
FlowHooks.v
Views.v
Wiring.v
Connecting.v
Running.v
ModelConnect.v
Creating.v
Starting.v
Emulation.v
