(* ===== verification/Prelude.v ===== *)
(** * The ovni runtime and emulator, verified: root of the development

    ovni traces programs.  The runtime library (src/rt/ovni.c) writes the
    events of each thread to a stream; the emulator (src/emu) reads the streams
    of all threads in order of time, rebuilds what every thread and CPU was
    doing at every moment, and writes it as Paraver traces.

    ** Parts and how they interact

    - Prelude: outcomes of C functions (success, error, abort, undefined
      behaviour, fuel), the state monad the model is written in, and the shared
      lemmas and tactics: [keeps] (a property holds on every outcome),
      [keeps_ok] (after a success), [nofuel], [safely].
    - Chan (value.h, chan.c): values and channels over any memory of channels,
      the class [ChanMem].  Bay (bay.c) implements it: a channel that becomes
      dirty is listed, and [bay_propagate] runs the callbacks of the dirty
      channels, their emission, and flushes them.  The bay sees its clients
      through the class [BayCallbacks]; Dispatch ties them to Mux (mux.c), Sort
      (sort.c) and Prv (pv/prv.c).  Network has a concrete network and the
      witnesses of these parts.
    - Heap: the records of every object of the emulator and the memory they
      live in; a pointer is the key of a store.
    - Thread (thread.c, cpu.c) and Loom (loom.c, proc.c): threads, CPUs,
      processes and looms, their channels and the loading of their metadata.
    - Event (emu_ev.c and the accessors of rt/ovni.c): events as bytes.
    - OvniModel (ovni/event.c, ovni/mark.c): the events that move threads.
      OvniCorrect is its refinement of an abstract machine of threads and CPUs.
    - Pcf, Task (task.c, body.c): tasks, bodies and body stacks.  TaskModel,
      Nosv, Nanos6 and Openmp are the events of the three task models.
    - Table, Mpi, Tampi, Nodes, Kernel: the events that come from tables.
    - Model (model.c, version.h): the registry of models.  Emu (emu.c): one
      step of the emulator, against the interface [EventHook] of a model, which
      Emu and Hooks implement for every model.  Coherence: propagation keeps
      the system consistent.  Nesting: what runs leave on the stacks, against
      the interfaces [StackEffect] and [StackFrame].  TaskView: what the task
      models show, and TaskCorrect: the events of nOS-V and Nanos6 keep it.
      OvniDemo evaluates a small system.
    - Rt (rt/ovni.c), RtCorrect: the buffer of a thread and its flushes.  Stream
      (stream.c): the reader.  RoundTrip: what is written is read back.
    - MaxHeap (include/heap.h), MaxHeapCorrect: the heap of the player, pointer
      by pointer.  Player (player.c), PlayerCorrect: the merge of the streams.
    - Recorder (recorder.c, pvt.c, prf.c, pcf.c): Paraver traces by name.  System
      (system.c, clkoff.c): from the metadata of the streams to the looms,
      processes, threads and CPUs, their order, indices and clock offsets, and
      the rows of the traces.  Tree: objects and their children, from both
      sides.  SystemCorrect and ConnectCorrect: the invariant of that
      construction, which ends in a coherent system.  Offsets: clock offsets.
      Ready: the properties of the set-up and of runs that start with it.
    - Json: the accessors of the metadata.  Track (track.c): the multiplexers
      that show a channel while a thread is in some state or on a CPU, and
      [emu], the memory of the emulator with what the models hang on its
      objects.  ModelThread (model_thread.c, model_cpu.c, model_pvt.c): the
      channels, tracks, types and rows that a model declares in tables, which
      Specs holds for every model.  Mark (ovni/mark.c), Hwc (nosv/hwc.c) and
      Breakdown (the breakdown.c of three models): the same for user marks,
      hardware counters and the breakdown of CPUs.  Setups (models.c, the
      setup.c of every model, emu.c): the list of the nine models with their
      hooks, and the emulator from [emu_init] to [emu_finish]; the model of the
      FPGA, which connects on its first event, included.
    - Cstr: what the code uses of the strings of C.  EvSpec (ev_spec.c,
      model_evspec.c): the little languages of event signatures and
      descriptions, and the printer; EvSpecCorrect, EvSignature and EvPrint are
      their theorems, EvLists the declarations of the nine models, Declared what
      every hook accepts, EvTools the text of ovnievents and ovnidump, Registry
      the models once registered.
    - Ovnisort (ovnisort.c), OvnisortCorrect: the tool that sorts the streams.
    - The path to the theorem on whole emulations: Effect (what a callback of the
      bay may change), Flow and FlowHooks (between events every multiplexer of a
      track is settled or waits for a callback that will settle it), Views (what
      a settled track shows), Roster (events change no identity of threads and
      CPUs), Footprint (steps that use resources of their own), Wiring,
      Connecting and ModelConnect (the connection of each model builds its own
      multiplexers, into a settled network), Running (the steps of the emulator,
      the late connection of the FPGA included), Creating (each
      model creates its own channels and tracks), Starting (the system before
      the models), Emulation (all together).

    ** What the theorems show

    - Channels and network: operations refine an abstract channel and keep it
      well formed; a propagation that succeeds leaves the network settled
      (every multiplexer and sorter shows its function of its inputs), and its
      loops end; a multiplexer follows its select; sorted outputs are sorted;
      a row of the trace shows its channel and time never goes back.
    - Tasks: the invariant of bodies and stacks on every outcome, the life of a
      body, the uniqueness of the running body; every thread of a process of
      nOS-V or Nanos6 shows the body on top of its stack, or nulls.
    - The whole emulator: from any trace that is set up and connected with success,
      after any events, each track of each model shows the channel it is for,
      while the thread is in the states of the track or runs on the CPU.
    - The emulator step: whatever models are registered, a run keeps threads, CPUs
      and channels consistent and follows the abstract machine; the row of a
      CPU shows its one running thread; states nest like brackets; the tables
      of the models pair every entry with an exit.
    - Set-up: every stream of a thread finds its thread, process and loom; the
      global lists number every object once; streams get the clock offset of
      their host; every row has its name; the system is coherent, so that what
      holds of runs from a coherent system holds from the streams on.  With FPGA
      accelerators the set-up never succeeds.
    - Runtime and streams: the buffer is never overrun, what the calls of a
      thread logged is what the emulator reads; one theorem shows how a jumbo event that
      fills the buffer makes the flush events nest and time go back.
    - Player: every record of the trace is delivered once, in order of time.
    - Sorting tool: it refines an abstract tool on lists of records, and sorts a
      trace whose marked regions only are out of order.
    - Event descriptions: the printer prints exactly the text of the description,
      in its buffer; signatures and integer arguments are read back; the
      declarations of all models compile and print; and what the emulator
      accepts is declared and printed by that declaration.  One theorem shows
      that the printer does not check the payload of the event.

    ** Fuel and bounds

    Loops whose length the data give are Fixpoints on lists.  The others take
    fuel: the cursor loops of the bay (C2 shows that the fuel of its statement
    is enough), [ovni_ev_add] (two levels: RtCorrect shows that the flush
    events never flush again, except after a jumbo event), the heap (64 levels
    for an insertion, since the size has 64 bits, and the size of the trace for
    a removal, both shown sufficient in MaxHeapCorrect).  Events, sizes, clocks
    and hashes are at their machine width; indices and counters of objects in
    memory are integers without overflow.  The ring of the sorting tool is
    scanned with its size as fuel and regions with their bytes.

    ** Not modelled

    The JSON parser and the macros of lists and hash tables are third-party
    code, which the definitions use by their contract.  Input and output
    (opening files, directories, the moving of finished traces), the options and
    the terminal output of the command line tools and the statistics of
    ovniemu and ovnitop are no part of the state that the theorems are about.
    ovnisync computes clock offsets over MPI with floating-point statistics.  The
    text of the configuration files of Paraver (cfg.c, cfg_file.c) and its
    palette are constants that are copied. *)

From Stdlib Require Export ZArith Lia Permutation Sorted.
From stdpp Require Export base gmap strings list numbers option countable.

#[global] Open Scope Z_scope.

(** ** Outcomes and the state monad

    A C function of the emulator returns 0 on success and -1 on error, and on
    either path may have changed the heap; [die] aborts the process; a
    dangling or NULL dereference and an out-of-bounds access are undefined
    behaviour.  [Fuel] marks a loop whose fuel was not enough: theorems show
    that it is never produced. *)

Inductive outcome (A : Type) :=
| Ok (a : A)
| Err
| Die
| Ub
| Fuel.
Arguments Ok {A} a.
Arguments Err {A}.
Arguments Die {A}.
Arguments Ub {A}.
Arguments Fuel {A}.

Definition M (S A : Type) := S -> outcome A * S.

Definition mret {S A} (a : A) : M S A := fun s => (Ok a, s).
Definition mfail {S A} : M S A := fun s => (Err, s).
Definition mdie {S A} : M S A := fun s => (Die, s).
Definition mub {S A} : M S A := fun s => (Ub, s).
Definition mfuel {S A} : M S A := fun s => (Fuel, s).
Definition mget {S} : M S S := fun s => (Ok s, s).
Definition mput {S} (s : S) : M S unit := fun _ => (Ok tt, s).
Definition mmod {S} (f : S -> S) : M S unit := fun s => (Ok tt, f s).

Definition mbind {S A B} (m : M S A) (k : A -> M S B) : M S B := fun s =>
  match m s with
  | (Ok a, s') => k a s'
  | (Err, s') => (Err, s')
  | (Die, s') => (Die, s')
  | (Ub, s') => (Ub, s')
  | (Fuel, s') => (Fuel, s')
  end.

Declare Scope m_scope.
Delimit Scope m_scope with m.
#[global] Open Scope m_scope.
Notation "'let*' x := m 'in' k" := (mbind m (fun x => k))
  (at level 10, x name, m at level 200, k at level 200) : m_scope.
Notation "m ;;; k" := (mbind m (fun _ => k))
  (at level 100, right associativity) : m_scope.

(** A guard of the code: [if (!b) return -1]. *)
Definition require {S} (b : bool) : M S unit := if b then mret tt else mfail.

(** Dereference of a pointer or table entry that the code does not test. *)
Definition deref {S A} (o : option A) : M S A :=
  match o with Some a => mret a | None => mub end.

(** Look-up whose NULL result the code reports as an error. *)
Definition found {S A} (o : option A) : M S A :=
  match o with Some a => mret a | None => mfail end.

(** A loop over the elements of a list that stops at the first error. *)
Fixpoint for_each {S A} (body : A -> M S unit) (l : list A) : M S unit :=
  match l with
  | [] => mret tt
  | x :: l' => body x ;;; for_each body l'
  end.

(** ** Running a computation *)

Section Monad.
Context {S A B : Type}.

Lemma mbind_Ok (m : M S A) (k : A -> M S B) s b s2 :
mbind m k s = (Ok b, s2) <->
exists a s1, m s = (Ok a, s1) /\ k a s1 = (Ok b, s2).
Proof.
unfold mbind. destruct (m s) as [[a| | | |] s1]; split;
try (intros (? & ? & ? & ?); congruence); try congruence; eauto.
Qed.

Lemma mbind_run (m : M S A) (k : A -> M S B) s a s1 :
m s = (Ok a, s1) -> mbind m k s = k a s1.
Proof. unfold mbind. by intros ->. Qed.

Lemma mbind_cases (m : M S A) (k : A -> M S B) s :
(exists a s1, m s = (Ok a, s1) /\ mbind m k s = k a s1) \/
((mbind m k s).2 = (m s).2 /\ (forall b, (mbind m k s).1 <> Ok b) /\
 ((mbind m k s).1 = Fuel -> (m s).1 = Fuel) /\ ((mbind m k s).1 = Ub -> (m s).1 = Ub)).
Proof. unfold mbind. destruct (m s) as [[a| | | |] s1]; simpl; [left; by eauto|right; by split_and!..]. Qed.

Lemma require_Ok b (s s' : S) u :
require b s = (Ok u, s') <-> b = true /\ s' = s.
Proof.
unfold require, mret, mfail. destruct b, u; split; naive_solver.
Qed.

Lemma deref_Ok (o : option A) (s s' : S) a :
deref o s = (Ok a, s') <-> o = Some a /\ s' = s.
Proof. unfold deref, mret, mub. destruct o; split; naive_solver. Qed.

Lemma found_Ok (o : option A) (s s' : S) a :
found o s = (Ok a, s') <-> o = Some a /\ s' = s.
Proof. unfold found, mret, mfail. destruct o; split; naive_solver. Qed.
End Monad.

Lemma run_eta {S A} (m : outcome A * S) a : m.1 = Ok a -> m = (Ok a, m.2).
Proof. destruct m. simpl. by intros ->. Qed.

Lemma for_each_app {S A} (body : A -> M S unit) l l' s :
  for_each body (l ++ l') s = (for_each body l ;;; for_each body l') s.
Proof.
  revert s. induction l as [|x l IH]; intros s; simpl; [done|].
  unfold mbind in *. destruct (body x s) as [[[]| | | |] s1]; [apply IH|done..].
Qed.

Lemma mbind_require {S A} b (k : unit -> M S A) s :
  mbind (require b) k s = if b then k tt s else (Err, s).
Proof. by destruct b. Qed.

Lemma require_run {S} b (s : S) : require b s = (if b then Ok tt else Err, s).
Proof. by destruct b. Qed.

(** Invert a successful run, step by step. *)
Ltac minv1 H :=
  lazymatch type of H with
  | mbind _ _ _ = (Ok _, _) =>
      let a := fresh "a" in let s := fresh "s" in let E := fresh "E" in
      apply mbind_Ok in H; destruct H as (a & s & E & H); minv1 E; try minv1 H
  | require _ _ = (Ok _, _) =>
      apply require_Ok in H; destruct H as [H ->]
  | deref _ _ = (Ok _, _) => apply deref_Ok in H; destruct H as [H ->]
  | found _ _ = (Ok _, _) => apply found_Ok in H; destruct H as [H ->]
  | mret _ _ = (Ok _, _) => first [injection H as <- <- | injection H as <-]
  | mfail _ = (Ok _, _) => discriminate H
  | mdie _ = (Ok _, _) => discriminate H
  | mub _ = (Ok _, _) => discriminate H
  | mfuel _ = (Ok _, _) => discriminate H
  | mget _ = (Ok _, _) => first [injection H as <- <- | injection H as <-]
  | mput _ _ = (Ok _, _) => first [injection H as <- <- | injection H as <-]
  | mmod _ _ = (Ok _, _) => first [injection H as <- <- | injection H as <-]
  | _ => idtac
  end.
Ltac minv H := minv1 H; simplify_eq/=.

(** ** Preservation on every outcome

    [keeps P m]: whatever [m] returns, error included, it leaves [P] true. *)

Definition keeps {S A} (P : S -> Prop) (m : M S A) : Prop :=
  forall s, P s -> P (m s).2.

(** [safe m s]: [m] started in [s] does not end in undefined behaviour and
    does not run out of fuel. *)
Definition safe {S A} (m : M S A) (s : S) : Prop :=
  match (m s).1 with Ub | Fuel => False | _ => True end.

(** Partial correctness on success, from a precondition. *)
Definition triple {S A} (P : S -> Prop) (m : M S A) (Q : A -> S -> Prop) : Prop :=
  forall s, P s -> match m s with (Ok a, s') => Q a s' | _ => True end.

Create HintDb ovni.

Section Keeps.
Context {S A B : Type} (P : S -> Prop).

Lemma keeps_ret (a : A) : keeps P (mret a).
Proof. by intros s. Qed.
Lemma keeps_fail : keeps P (mfail : M S A).
Proof. by intros s. Qed.
Lemma keeps_die : keeps P (mdie : M S A).
Proof. by intros s. Qed.
Lemma keeps_ub : keeps P (mub : M S A).
Proof. by intros s. Qed.
Lemma keeps_fuel : keeps P (mfuel : M S A).
Proof. by intros s. Qed.
Lemma keeps_get : keeps P mget.
Proof. by intros s. Qed.
Lemma keeps_require b : keeps P (require b).
Proof. intros s. by destruct b. Qed.
Lemma keeps_deref (o : option A) : keeps P (deref o).
Proof. intros s. by destruct o. Qed.
Lemma keeps_found (o : option A) : keeps P (found o).
Proof. intros s. by destruct o. Qed.
Lemma keeps_bind (m : M S A) (k : A -> M S B) :
keeps P m -> (forall a, keeps P (k a)) -> keeps P (mbind m k).
Proof.
intros Hm Hk s Hs. specialize (Hm s Hs). unfold mbind.
destruct (m s) as [[a| | | |] s1]; simpl in *; try done. by apply Hk.
Qed.
Lemma keeps_if (b : bool) (m1 m2 : M S A) :
keeps P m1 -> keeps P m2 -> keeps P (if b then m1 else m2).
Proof. by destruct b. Qed.
End Keeps.
#[export] Hint Resolve keeps_ret keeps_fail keeps_die keeps_ub keeps_fuel keeps_get
  keeps_require keeps_deref keeps_found keeps_if : ovni.
#[export] Hint Extern 2 (keeps _ (mbind _ _)) => (apply keeps_bind; [|intros ?]) : ovni.

(** ** Preservation on success

    [keeps_ok P m]: [m] leaves [P] true when it succeeds.  Handlers abandon
    their work half way on an error, which ends the emulation. *)

Definition keeps_ok {S A} (P : S -> Prop) (m : M S A) : Prop :=
  forall s a s', P s -> m s = (Ok a, s') -> P s'.

(** A computation that only reads. *)
Definition quiet {S A} (m : M S A) : Prop := forall s, (m s).2 = s.

Section KeepsOk.
Context {S A B : Type} (P : S -> Prop).

Lemma keeps_ok_of_keeps (m : M S A) : keeps P m -> keeps_ok P m.
Proof. intros K s a s' Hs E. specialize (K s Hs). by rewrite E in K. Qed.
Lemma keeps_ok_quiet (m : M S A) : quiet m -> keeps_ok P m.
Proof. intros K s a s' Hs E. specialize (K s). rewrite E in K. simpl in K. by subst. Qed.
Lemma keeps_ok_bind (m : M S A) (k : A -> M S B) :
keeps_ok P m -> (forall a, keeps_ok P (k a)) -> keeps_ok P (mbind m k).
Proof.
intros Hm Hk s b s2 Hs E. apply mbind_Ok in E as (a & s1 & E1 & E2). eapply Hk; [|exact E2].
by eapply Hm.
Qed.
Lemma keeps_ok_if (b : bool) (m1 m2 : M S A) : keeps_ok P m1 -> keeps_ok P m2 -> keeps_ok P (if b then m1 else m2).
Proof. by destruct b. Qed.
Lemma keeps_ok_mod (f : S -> S) : (forall s, P s -> P (f s)) -> keeps_ok P (mmod f).
Proof. intros Hf s a s' Hs [= _ <-]. auto. Qed.
End KeepsOk.

Lemma for_each_keeps_ok {S A} (P : S -> Prop) (body : A -> M S unit) l :
  (forall x, keeps_ok P (body x)) -> keeps_ok P (for_each body l).
Proof.
  intros Hb. induction l as [|x l IH]; simpl; [by apply keeps_ok_quiet|]. by apply keeps_ok_bind.
Qed.

Section Quiet.
Context {S A B : Type}.
Lemma quiet_ret (a : A) : quiet (mret a : M S A). Proof. done. Qed.
Lemma quiet_fail : quiet (mfail : M S A). Proof. done. Qed.
Lemma quiet_die : quiet (mdie : M S A). Proof. done. Qed.
Lemma quiet_ub : quiet (mub : M S A). Proof. done. Qed.
Lemma quiet_fuel : quiet (mfuel : M S A). Proof. done. Qed.
Lemma quiet_get : quiet (mget : M S S). Proof. done. Qed.
Lemma quiet_require b : quiet (require b : M S unit). Proof. by destruct b. Qed.
Lemma quiet_deref (o : option A) : quiet (deref o : M S A). Proof. by destruct o. Qed.
Lemma quiet_found (o : option A) : quiet (found o : M S A). Proof. by destruct o. Qed.
Lemma quiet_bind (m : M S A) (k : A -> M S B) : quiet m -> (forall a, quiet (k a)) -> quiet (mbind m k).
Proof.
intros Hm Hk s. specialize (Hm s). unfold mbind. destruct (m s) as [[a| | | |] s1]; simpl in *; subst; try done.
apply Hk.
Qed.
Lemma quiet_Ok (m : M S A) s a s' : quiet m -> m s = (Ok a, s') -> s' = s.
Proof. intros Hq E. specialize (Hq s). by rewrite E in Hq. Qed.
End Quiet.
#[export] Hint Resolve quiet_ret quiet_fail quiet_die quiet_ub quiet_fuel quiet_get quiet_require quiet_deref
  quiet_found : ovni.

Ltac quiet_tac :=
  repeat first
    [ lazymatch goal with |- quiet (mbind _ _) => apply quiet_bind; [|intros ?] end
    | progress eauto 3 with ovni
    | lazymatch goal with |- quiet (match _ with _ => _ end) => case_match end
    | lazymatch goal with |- quiet (if _ then _ else _) => case_match end ].

(** ** Computations that never run out of fuel *)

Definition nofuel {S A} (m : M S A) : Prop := forall s, (m s).1 <> Fuel.

Section Nofuel.
Context {S A B : Type}.

Lemma nofuel_ret (a : A) : nofuel (mret a : M S A).
Proof. done. Qed.
Lemma nofuel_fail : nofuel (mfail : M S A).
Proof. done. Qed.
Lemma nofuel_die : nofuel (mdie : M S A).
Proof. done. Qed.
Lemma nofuel_ub : nofuel (mub : M S A).
Proof. done. Qed.
Lemma nofuel_get : nofuel (mget : M S S).
Proof. done. Qed.
Lemma nofuel_mod f : nofuel (mmod f : M S unit).
Proof. done. Qed.
Lemma nofuel_put (s : S) : nofuel (mput s).
Proof. done. Qed.
Lemma nofuel_require b : nofuel (require b : M S unit).
Proof. by destruct b. Qed.
Lemma nofuel_deref (o : option A) : nofuel (deref o : M S A).
Proof. by destruct o. Qed.
Lemma nofuel_found (o : option A) : nofuel (found o : M S A).
Proof. by destruct o. Qed.
Lemma nofuel_bind (m : M S A) (k : A -> M S B) :
nofuel m -> (forall a, nofuel (k a)) -> nofuel (mbind m k).
Proof.
intros Hm Hk s. specialize (Hm s). unfold mbind. destruct (m s) as [[a| | | |] s1]; simpl in *; try done.
apply Hk.
Qed.
Lemma nofuel_if (b : bool) (m1 m2 : M S A) : nofuel m1 -> nofuel m2 -> nofuel (if b then m1 else m2).
Proof. by destruct b. Qed.
End Nofuel.
#[export] Hint Resolve nofuel_ret nofuel_fail nofuel_die nofuel_ub nofuel_get nofuel_mod nofuel_put
  nofuel_require nofuel_deref nofuel_found nofuel_if : ovni.
#[export] Hint Extern 2 (nofuel (mbind _ _)) => (apply nofuel_bind; [|intros ?]) : ovni.

Ltac nofuel_tac :=
  repeat first
    [ lazymatch goal with |- nofuel (mbind _ _) => apply nofuel_bind; [|intros ?] end
    | progress eauto 3 with ovni
    | lazymatch goal with |- nofuel (match _ with _ => _ end) => case_match end
    | lazymatch goal with |- nofuel (if _ then _ else _) => case_match end ].

(** ** Total correctness up to [die]

    [safely m s Q]: [m] started in [s] aborts the process or ends with success
    in a state that satisfies [Q]; it does not fail, is not undefined and has
    fuel enough. *)

Definition safely {S A} (m : M S A) (s : S) (Q : A -> S -> Prop) : Prop :=
  match m s with
  | (Ok a, s') => Q a s'
  | (Die, _) => True
  | _ => False
  end.

Section Safely.
Context {S A B : Type}.
Implicit Types s : S.

Lemma safely_ret (a : A) s Q : Q a s -> safely (mret a) s Q.
Proof. done. Qed.
Lemma safely_die s (Q : A -> S -> Prop) : safely mdie s Q.
Proof. done. Qed.
Lemma safely_get s (Q : S -> S -> Prop) : Q s s -> safely mget s Q.
Proof. done. Qed.
Lemma safely_mod f s (Q : unit -> S -> Prop) : Q tt (f s) -> safely (mmod f) s Q.
Proof. done. Qed.
Lemma safely_run (m : M S A) s a s' (Q : A -> S -> Prop) : m s = (Ok a, s') -> Q a s' -> safely m s Q.
Proof. unfold safely. by intros ->. Qed.
Lemma safely_bind (m : M S A) (k : A -> M S B) s Q :
  safely m s (fun a s' => safely (k a) s' Q) -> safely (mbind m k) s Q.
Proof. unfold safely, mbind. by destruct (m s) as [[a| | | |] s1]. Qed.
Lemma safely_mono (m : M S A) s (Q Q' : A -> S -> Prop) :
  safely m s Q -> (forall a s', Q a s' -> Q' a s') -> safely m s Q'.
Proof. unfold safely. destruct (m s) as [[a| | | |] s1]; auto. Qed.
Lemma safely_if (b : bool) (m1 m2 : M S A) s Q :
  (b = true -> safely m1 s Q) -> (b = false -> safely m2 s Q) -> safely (if b then m1 else m2) s Q.
Proof. destruct b; auto. Qed.
Lemma safely_Ok (m : M S A) s a s' (Q : A -> S -> Prop) : safely m s Q -> m s = (Ok a, s') -> Q a s'.
Proof. unfold safely. intros Hs E. by rewrite E in Hs. Qed.
End Safely.

(** Step over a call with a known result, or one with a specification. *)
Ltac safe_run E := apply safely_bind; eapply safely_run; [exact E|].
Ltac safe_call L := apply safely_bind; eapply safely_mono; [apply L|].

(** Split a goal about a sequence of steps into one goal per step. *)
Ltac kbind :=
  repeat lazymatch goal with |- keeps _ (mbind _ _) => apply keeps_bind; [|intros ?] end.

Lemma elem_of_tail {A} (x : A) l : x ∈ tail l -> x ∈ l.
Proof. destruct l; [done|]. intros. by right. Qed.

(** ** Sorting

    [HASH_SORT] and [DL_SORT] are stable merge sorts with a comparison of the
    program: the result of a stable sort is this insertion sort's. *)

Section SortBy.
Context {A : Type} (le : A -> A -> bool).

Fixpoint insert_by (x : A) (l : list A) : list A :=
match l with
| [] => [x]
| y :: l' => if le x y then x :: l else y :: insert_by x l'
end.

Definition sort_by (l : list A) : list A := foldr insert_by [] l.

Lemma insert_by_perm x l : insert_by x l ≡ₚ x :: l.
Proof.
induction l as [|y l IH]; simpl; [done|]. case_match; [done|]. rewrite IH. by constructor.
Qed.

Lemma sort_by_perm l : sort_by l ≡ₚ l.
Proof. induction l as [|x l IH]; simpl; [done|]. by rewrite insert_by_perm, IH. Qed.

Hypothesis le_total : forall x y, le x y = false -> le y x = true.
Hypothesis le_trans : forall x y z, le x y = true -> le y z = true -> le x z = true.

Lemma insert_by_sorted x l : StronglySorted (fun a b => le a b = true) l ->
StronglySorted (fun a b => le a b = true) (insert_by x l).
Proof.
induction 1 as [|y l Hs IH Hy]; simpl; [by repeat constructor|]. case_match eqn:E.
- repeat constructor; [done..|]. eapply list.Forall_impl; [done|]. simpl. eauto.
- constructor; [done|]. rewrite insert_by_perm. constructor; [by apply le_total|done].
Qed.

Lemma sort_by_sorted l : StronglySorted (fun a b => le a b = true) (sort_by l).
Proof. induction l; simpl; [constructor|by apply insert_by_sorted]. Qed.
End SortBy.

(** The integer comparisons [by_pid], [by_tid], ... of the code, as "not after". *)
Definition by_key {A} (key : A -> Z) (x y : A) : bool := key x <=? key y.

Lemma sort_by_key_sorted {A} (key : A -> Z) l :
  StronglySorted (fun a b => key a <= key b) (sort_by (by_key key) l).
Proof.
  assert (StronglySorted (fun a b => by_key key a b = true) (sort_by (by_key key) l)) as S.
  { apply sort_by_sorted; unfold by_key; intros *; rewrite ?Z.leb_le, ?Z.leb_gt; lia. }
  induction S as [|x l' ? IH Hx]; constructor; [done|].
  eapply list.Forall_impl; [done|]. intros y. apply Z.leb_le.
Qed.

(** ** Hash tables with an order

    A uthash table is also a list, in order of insertion until it is sorted. *)

Section Assoc.
Context {K V : Type} `{EqDecision K}.

Fixpoint assoc (k : K) (l : list (K * V)) : option V :=
match l with
| [] => None
| (k', v) :: l' => if decide (k = k') then Some v else assoc k l'
end.

Lemma assoc_elem k v l : assoc k l = Some v -> (k, v) ∈ l.
Proof.
induction l as [|[k' v'] l IH]; simpl; [done|]. case_decide; [intros [= ->]; subst; by left|].
intros. right. auto.
Qed.

Lemma assoc_None k l : assoc k l = None <-> k ∉ l.*1.
Proof.
induction l as [|[k' v'] l IH]; simpl; [set_solver|].
case_decide; subst; [split; [done|set_solver]|]. rewrite IH. set_solver.
Qed.

Lemma elem_assoc k v l : NoDup l.*1 -> (k, v) ∈ l -> assoc k l = Some v.
Proof.
induction l as [|[k' v'] l IH]; simpl; [set_solver|]. intros [Hk Hn]%list.NoDup_cons.
intros [[= -> ->]|Hin]%elem_of_cons; [by rewrite decide_True|].
rewrite decide_False; [auto|]. intros ->. apply Hk. apply list_elem_of_fmap. by exists (k', v).
Qed.

Lemma assoc_perm k l l' : NoDup l.*1 -> l ≡ₚ l' -> assoc k l = assoc k l'.
Proof.
intros Hn Hp. assert (NoDup l'.*1) as Hn' by by rewrite <- Hp.
destruct (assoc k l) as [v|] eqn:E.
- symmetry. apply elem_assoc; [done|]. rewrite <- Hp. by apply assoc_elem.
- symmetry. apply assoc_None. rewrite <- Hp. by apply assoc_None.
Qed.
End Assoc.

(** ** Machine integers *)

Definition wrapu (w z : Z) : Z := z mod 2 ^ w.
Definition wraps (w z : Z) : Z := (z + 2 ^ (w - 1)) mod 2 ^ w - 2 ^ (w - 1).
Definition u8 := wrapu 8.
Definition u32 := wrapu 32.
Definition u64 := wrapu 64.
Definition i32 := wraps 32.
Definition i64 := wraps 64.

Definition in_u (w z : Z) : Prop := 0 <= z < 2 ^ w.
Definition in_s (w z : Z) : Prop := - 2 ^ (w - 1) <= z < 2 ^ (w - 1).

Lemma wrapu_id w z : in_u w z -> wrapu w z = z.
Proof. unfold in_u, wrapu. intros. apply Z.mod_small. lia. Qed.

Lemma wrapu_range w z : 0 <= w -> in_u w (wrapu w z).
Proof. intros. apply Z.mod_pos_bound. apply Z.pow_pos_nonneg; lia. Qed.

Lemma wraps_id w z : 1 <= w -> in_s w z -> wraps w z = z.
Proof.
  unfold in_s, wraps. intros Hw H.
  assert (2 ^ w = 2 * 2 ^ (w - 1)) as E.
  { replace w with (1 + (w - 1)) at 1 by lia. by rewrite Z.pow_add_r by lia. }
  rewrite Z.mod_small; lia.
Qed.

Lemma wraps_range w z : 1 <= w -> in_s w (wraps w z).
Proof.
  unfold in_s, wraps. intros Hw.
  assert (2 ^ w = 2 * 2 ^ (w - 1)) as E.
  { replace w with (1 + (w - 1)) at 1 by lia. by rewrite Z.pow_add_r by lia. }
  assert (0 < 2 ^ (w - 1)) by (apply Z.pow_pos_nonneg; lia).
  pose proof (Z.mod_pos_bound (z + 2 ^ (w - 1)) (2 ^ w)). lia.
Qed.

(** C truth of an [int]. *)
Definition c_true (z : Z) : bool := negb (z =? 0).
