(* ===== verification/Footprint.v ===== *)
(** * Footprints: what a computation takes and touches

    The set-up of the emulator builds many objects of the same kind in nested
    loops.  A footprint says which objects an operation needs to be still free
    ([N]) and which it may change ([T]); the others stay as they are.  Loops over
    objects with disjoint footprints then need no invariant of their own. *)

From S2P Require Import Prelude.

(** The objects [R] of a state: which are free, and which two states have in
    common. *)
Class Resources (S R : Type) := {
  fresh : R -> S -> Prop;
  same : R -> S -> S -> Prop;
  same_refl : forall r s, same r s s;
  same_trans : forall r s1 s2 s3, same r s1 s2 -> same r s2 s3 -> same r s1 s3;
  same_fresh : forall r s s', same r s s' -> fresh r s -> fresh r s'
}.

Section Uses.
Context {S R : Type} `{Resources S R}.
Variable Inv : S -> Prop.
Implicit Types (N T : R -> Prop) (Q : S -> Prop).

(** [op] needs the objects [N], changes at most [T], keeps the invariant and
    leaves [Q]. *)
Definition uses {A} N T (op : M S A) Q : Prop := forall s a s',
  Inv s -> (forall r, N r -> fresh r s) -> op s = (Ok a, s') -> Inv s' /\ (forall r, ~ T r -> same r s s') /\ Q s'.

(** [Q] is about the objects [D] only. *)
Definition local D Q : Prop := forall s s', Inv s' -> (forall r, D r -> same r s s') -> Q s -> Q s'.

Definition nothing : R -> Prop := fun _ => False.
Definition always : S -> Prop := fun _ => True.

Lemma local_mono D D' Q : (forall r, D r -> D' r) -> local D Q -> local D' Q.
Proof. intros HD HQ s s' Hs' Hsame. apply HQ; auto. Qed.

Lemma uses_mono {A} N N' T T' (op : M S A) Q Q' :
  uses N T op Q -> (forall r, N r -> N' r) -> (forall r, T r -> T' r) -> (forall s, Inv s -> Q s -> Q' s) -> uses N' T' op Q'.
Proof.
  intros Hu HN HT HQ s a s' Hs Hf E. destruct (Hu s a s' Hs) as (? & Hsame & ?); [by auto|done|].
  split_and!; [done| |by apply HQ]. intros r Hr. apply Hsame. auto.
Qed.

(** A step that only reads. *)
Lemma uses_read {A B} (X : A -> Prop) N T (m : M S A) (k : A -> M S B) Q :
  (forall s a s', Inv s -> m s = (Ok a, s') -> s' = s /\ X a) -> (forall a, X a -> uses N T (k a) Q) -> uses N T (mbind m k) Q.
Proof.
  intros Hm Hk s b s' Hs Hf E. apply mbind_Ok in E as (a & s1 & E1 & E). destruct (Hm s a s1 Hs E1) as [-> HX].
  by apply (Hk a HX s b s').
Qed.

Lemma uses_ret {A} (a : A) : uses nothing nothing (mret a) always.
Proof. intros s b s' Hs _ [= _ <-]. split_and!; [done| |done]. intros r _. apply same_refl. Qed.

(** Two steps: what the second needs the first does not touch. *)
Lemma uses_seq {A B} D N1 T1 Q1 N2 T2 Q2 (m : M S A) (k : A -> M S B) :
  uses N1 T1 m Q1 -> (forall a, uses N2 T2 (k a) Q2) -> (forall r, N2 r -> ~ T1 r) -> local D Q1 -> (forall r, D r -> ~ T2 r) ->
  uses (fun r => N1 r \/ N2 r) (fun r => T1 r \/ T2 r) (mbind m k) (fun s => Q1 s /\ Q2 s).
Proof.
  intros Hm Hk Hd HQ HD s b s' Hs Hf E. apply mbind_Ok in E as (a & s1 & E1 & E).
  destruct (Hm s a s1 Hs) as (Hs1 & S1 & HQ1); [by auto|done|].
  destruct (Hk a s1 b s' Hs1) as (Hs2 & S2 & HQ2); [|done|].
  { intros r Hr. eapply same_fresh; [apply S1; by apply Hd|]. auto. }
  split_and!; [done| |by eapply HQ; eauto|done]. intros r Hr. eapply same_trans; [apply S1|apply S2]; tauto.
Qed.

(** A first step that leaves nothing of interest. *)
Lemma uses_first {A B} N1 T1 N2 N T Q (m : M S A) (k : A -> M S B) :
  uses N1 T1 m always -> (forall a, uses N2 T (k a) Q) ->
  (forall r, N1 r -> N r) -> (forall r, N2 r -> N r) -> (forall r, T1 r -> T r) -> (forall r, N2 r -> ~ T1 r) ->
  uses N T (mbind m k) Q.
Proof.
  intros Hm Hk H1 H2 HT Hd. eapply uses_mono; [apply (uses_seq nothing N1 T1 always N2 T Q m k Hm Hk Hd)|..]; [done|done|..].
  - intros r [|]; auto.
  - intros r [|]; auto.
  - by intros s _ [_ ?].
Qed.

(** A second step that needs nothing of its own. *)
Lemma uses_then {A B} N T Q (m : M S A) (k : A -> M S B) :
  uses N T m always -> (forall a, uses nothing T (k a) Q) -> uses N T (mbind m k) Q.
Proof. intros Hm Hk. by apply (uses_first N T nothing). Qed.

(** A second step that keeps what the first left. *)
Lemma uses_kept {A B} N T Q (m : M S A) (k : A -> M S B) :
  uses N T m Q -> (forall a, uses nothing T (k a) always) ->
  (forall a s b s', Inv s -> Q s -> k a s = (Ok b, s') -> Q s') -> uses N T (mbind m k) Q.
Proof.
  intros Hm Hk HQ s b s' Hs Hf E. apply mbind_Ok in E as (a & s1 & E1 & E). destruct (Hm s a s1 Hs Hf E1) as (Hs1 & S1 & HQ1).
  destruct (Hk a s1 b s' Hs1 ltac:(done) E) as (Hs2 & S2 & _). split_and!; [done| |exact (HQ a s1 b s' Hs1 HQ1 E)].
  intros r Hr. eapply same_trans; [by apply S1|by apply S2].
Qed.

Lemma uses_if {A} (b : bool) N T (m1 m2 : M S A) Q : uses N T m1 Q -> uses N T m2 Q -> uses N T (if b then m1 else m2) Q.
Proof. by destruct b. Qed.

Lemma uses_fails {A} N T (m : M S A) Q : (forall s a s', m s <> (Ok a, s')) -> uses N T m Q.
Proof. intros Hm s a s' _ _ E. by apply Hm in E. Qed.

Lemma uses_ext {A} N T (op op' : M S A) Q : (forall s, op s = op' s) -> uses N T op Q -> uses N T op' Q.
Proof. intros He Hu s a s' Hs Hf E. rewrite <- He in E. by eapply Hu. Qed.

(** A loop over objects with disjoint footprints. *)
Lemma uses_for_each {A} (N T : A -> R -> Prop) (Q : A -> S -> Prop) (f : A -> M S unit) l :
  NoDup l -> (forall a, a ∈ l -> uses (N a) (T a) (f a) (Q a)) ->
  (forall a r, N a r -> T a r) -> (forall a b r, a ∈ l -> b ∈ l -> T a r -> T b r -> a = b) ->
  (forall a, a ∈ l -> local (T a) (Q a)) ->
  uses (fun r => exists a, a ∈ l /\ N a r) (fun r => exists a, a ∈ l /\ T a r) (for_each f l) (fun s => forall a, a ∈ l -> Q a s).
Proof.
  intros Hn Hu HN Hd HQ. induction l as [|x l IH]; simpl.
  { eapply uses_mono; [apply uses_ret|done|done|]. intros s _ _ a Ha. by apply elem_of_nil in Ha. }
  apply list.NoDup_cons in Hn as [Hx Hn]. assert (forall y, y ∈ l -> y ∈ x :: l) as Hin by (intros y ?; by right).
  assert (x ∈ x :: l) as Hx0 by by left. eapply uses_mono.
  { apply (uses_seq (T x) (N x) (T x) (Q x) (fun r => exists a, a ∈ l /\ N a r) (fun r => exists a, a ∈ l /\ T a r)
      (fun s => forall a, a ∈ l -> Q a s)); [by auto| | |by auto|].
    - intros _. apply IH; eauto.
    - intros r (a & Ha & Hr) Hxr. apply Hx. by rewrite (Hd x a r) by auto.
    - intros r Hxr (a & Ha & Hr). apply Hx. by rewrite (Hd x a r) by auto. }
  - intros r [Hr|(a & Ha & Hr)]; eauto.
  - intros r [Hr|(a & Ha & Hr)]; eauto.
  - intros s _ [H1 H2] a [->|Ha]%elem_of_cons; auto.
Qed.
End Uses.
