(* ===== verification/Chan.v ===== *)
(** * Values and channels (src/emu/value.h, chan.h, chan.c)

    A channel holds the value that one row of the Paraver trace shows.  It is
    either [CHAN_SINGLE] (one value) or [CHAN_STACK] (a bounded stack whose top
    is the value); once written it is dirty until it is flushed, and its dirty
    callback tells the patch bay about it.  The memory that holds the channels
    and the callback are an interface, [ChanMem], so the operations and their
    theorems do not depend on the patch bay, which implements it in Bay.v. *)

From S2P Require Import Prelude.

(** ** Data values (value.h) *)

Inductive value_type := VALUE_NULL | VALUE_INT64 | VALUE_DOUBLE.

#[export] Instance value_type_eq_dec : EqDecision value_type.
Proof. solve_decision. Defined.

(** [struct value]: the type and the 64 bits of the union. *)
Record value := mk_value { v_type : value_type; v_i : Z }.

#[export] Instance value_eq_dec : EqDecision value.
Proof. solve_decision. Defined.

(** [memcmp] of the two fields (the struct has no padding). *)
Definition value_is_equal (a b : value) : bool := bool_decide (a = b).

Definition value_int64 (i : Z) : value := mk_value VALUE_INT64 i.
Definition value_null : value := mk_value VALUE_NULL 0.
Definition value_is_null (a : value) : bool := bool_decide (v_type a = VALUE_NULL).

Lemma value_is_equal_true a b : value_is_equal a b = true <-> a = b.
Proof. apply bool_decide_eq_true. Qed.
Lemma value_is_equal_refl a : value_is_equal a a = true.
Proof. by apply value_is_equal_true. Qed.

(** ** Addresses of channels

    Channels are embedded in other structures; an address says in which one
    and at which index, as [&th->chan[TH_CHAN_STATE]] does. *)

Inductive owner :=
| OwnThread (th : nat)               (* struct thread *)
| OwnCpu (cpu : nat)                 (* struct cpu *)
| OwnModel (model : nat) (th : nat)  (* struct model_thread of a thread *)
| OwnMark (th : nat)                 (* mark.channels of struct ovni_thread *)
| OwnHwc (th : nat)                  (* hwc.chan of struct nosv_thread *)
| OwnTrack (n : nat)                 (* struct track *)
| OwnSort (n : nat)                  (* struct sort, its outputs *)
| OwnOther (n : nat).

Record addr := Addr { a_own : owner; a_idx : nat }.

#[export] Instance owner_eq_dec : EqDecision owner.
Proof. solve_decision. Defined.
#[export] Instance addr_eq_dec : EqDecision addr.
Proof. solve_decision. Defined.

#[export] Instance owner_countable : Countable owner.
Proof.
  refine (inj_countable'
    (fun o => match o with
              | OwnThread n => (0, n, 0) | OwnCpu n => (1, n, 0)
              | OwnModel m n => (2, m, n) | OwnTrack n => (3, n, 0)
              | OwnSort n => (4, n, 0) | OwnOther n => (5, n, 0)
              | OwnMark n => (6, n, 0) | OwnHwc n => (7, n, 0) end)%nat
    (fun '(k, m, n) => match k with
              | 0 => OwnThread m | 1 => OwnCpu m | 2 => OwnModel m n
              | 3 => OwnTrack m | 4 => OwnSort m | 5 => OwnOther m | 6 => OwnMark m | _ => OwnHwc m end)%nat _).
  by intros [].
Defined.

#[export] Instance addr_countable : Countable addr.
Proof.
  refine (inj_countable' (fun a => (a_own a, a_idx a)) (fun p => Addr p.1 p.2) _).
  by intros [].
Defined.

(** ** Channels (chan.h) *)

Definition MAX_CHAN_STACK : Z := 512.
Definition MAX_CHAN_NAME : Z := 512.

Inductive chan_type := CHAN_SINGLE | CHAN_STACK.
Inductive chan_prop := CHAN_DIRTY_WRITE | CHAN_ALLOW_DUP | CHAN_IGNORE_DUP.

#[export] Instance chan_type_eq_dec : EqDecision chan_type.
Proof. solve_decision. Defined.

(** The union [chan_data] is one of [c_value] and [c_stack], as [c_type] says
    ([c_type] never changes after [chan_init]); the stack is listed from its
    top, its length is [stack->n].  The dirty callback is always
    [cb_chan_is_dirty] of the patch bay: only its argument is kept, [None]
    when [dirty_cb] is NULL. *)
Record chan := mk_chan {
  c_is_dirty : bool;
  c_dirty_write : Z; c_allow_dup : Z; c_ignore_dup : Z;
  c_dirty_arg : option string;
  c_last_value : value;
  c_type : chan_type;
  c_value : value;
  c_stack : list value;
  c_name : string
}.

#[export] Instance chan_eq_dec : EqDecision chan.
Proof. solve_decision. Defined.

Definition with_dirty (b : bool) (c : chan) : chan :=
  mk_chan b (c_dirty_write c) (c_allow_dup c) (c_ignore_dup c) (c_dirty_arg c)
    (c_last_value c) (c_type c) (c_value c) (c_stack c) (c_name c).
Definition with_last (v : value) (c : chan) : chan :=
  mk_chan (c_is_dirty c) (c_dirty_write c) (c_allow_dup c) (c_ignore_dup c) (c_dirty_arg c)
    v (c_type c) (c_value c) (c_stack c) (c_name c).
Definition with_value (v : value) (c : chan) : chan :=
  mk_chan (c_is_dirty c) (c_dirty_write c) (c_allow_dup c) (c_ignore_dup c) (c_dirty_arg c)
    (c_last_value c) (c_type c) v (c_stack c) (c_name c).
Definition with_stack (l : list value) (c : chan) : chan :=
  mk_chan (c_is_dirty c) (c_dirty_write c) (c_allow_dup c) (c_ignore_dup c) (c_dirty_arg c)
    (c_last_value c) (c_type c) (c_value c) l (c_name c).

Definition chan_set_dirty_cb (arg : option string) (c : chan) : chan :=
  mk_chan (c_is_dirty c) (c_dirty_write c) (c_allow_dup c) (c_ignore_dup c) arg
    (c_last_value c) (c_type c) (c_value c) (c_stack c) (c_name c).

Definition chan_prop_set (p : chan_prop) (x : Z) (c : chan) : chan :=
  mk_chan (c_is_dirty c)
    (if p is CHAN_DIRTY_WRITE then x else c_dirty_write c)
    (if p is CHAN_ALLOW_DUP then x else c_allow_dup c)
    (if p is CHAN_IGNORE_DUP then x else c_ignore_dup c)
    (c_dirty_arg c) (c_last_value c) (c_type c) (c_value c) (c_stack c) (c_name c).

Definition chan_prop_get (c : chan) (p : chan_prop) : Z :=
  match p with
  | CHAN_DIRTY_WRITE => c_dirty_write c
  | CHAN_ALLOW_DUP => c_allow_dup c
  | CHAN_IGNORE_DUP => c_ignore_dup c
  end.

(** [chan_init]: the zeroed channel with its formatted name; it dies when the
    name does not fit in [MAX_CHAN_NAME] bytes with its nil. *)
Definition chan_init (type : chan_type) (name : string) : outcome chan :=
  if MAX_CHAN_NAME <=? Z.of_nat (String.length name) then Die
  else Ok (mk_chan false 0 0 0 None value_null type value_null [] name).

Definition chan_get_type (c : chan) : chan_type := c_type c.

(** [chan_read], and its twin [get_value] in chan.c. *)
Definition chan_read (c : chan) : value :=
  match c_type c with
  | CHAN_SINGLE => c_value c
  | CHAN_STACK => match c_stack c with v :: _ => v | [] => value_null end
  end.
Definition get_value (c : chan) : value :=
  match c_type c with
  | CHAN_SINGLE => c_value c
  | CHAN_STACK => match c_stack c with v :: _ => v | [] => value_null end
  end.

(** ** The memory the channels live in *)

Class ChanMem (W : Type) := {
  cm_get : addr -> W -> option chan;
  cm_put : addr -> chan -> W -> W;
  cm_dirty_cb : string -> addr -> M W unit
}.

(** What the operations need of it: the cells are independent, and the dirty
    callback does not touch the channels. *)
Class ChanMemLaws (W : Type) `{ChanMem W} := {
  cm_get_put : forall a c w, cm_get a (cm_put a c w) = Some c;
  cm_get_put_ne : forall a b c w, a <> b -> cm_get b (cm_put a c w) = cm_get b w;
  cm_put_get : forall a c w, cm_get a w = Some c -> cm_put a c w = w;
  cm_cb_get : forall arg a b w, cm_get b (cm_dirty_cb arg a w).2 = cm_get b w
}.

Section Ops.
Context {W : Type} `{ChanMem W}.

Definition load (a : addr) : M W chan :=
  let* w := mget in deref (cm_get a w).
Definition store (a : addr) (c : chan) : M W unit := mmod (cm_put a c).

Definition set_dirty (a : addr) : M W unit :=
  let* c := load a in
  if c_is_dirty c then
    if c_true (c_dirty_write c) then mret tt else mfail
  else
    store a (with_dirty true c) ;;;
    match c_dirty_arg c with
    | None => mret tt
    | Some arg => cm_dirty_cb arg a
    end.

(** The duplicate test of [chan_set] and [chan_push]: [Some r] returns [r]. *)
Definition dup_check (c : chan) (v : value) : option (outcome unit) :=
  if negb (c_true (c_allow_dup c)) then
    if value_is_equal (c_last_value c) v then
      if c_true (c_ignore_dup c) then Some (Ok tt) else Some Err
    else None
  else None.

Definition chan_set (a : addr) (v : value) : M W unit :=
  let* c := load a in
  if negb (bool_decide (c_type c = CHAN_SINGLE)) then mfail else
  if c_is_dirty c && negb (c_true (c_dirty_write c)) then mfail else
  match dup_check c v with
  | Some r => fun w => (r, w)
  | None =>
      store a (with_value v c) ;;;
      set_dirty a
  end.

Definition chan_push (a : addr) (v : value) : M W unit :=
  let* c := load a in
  if negb (bool_decide (c_type c = CHAN_STACK)) then mfail else
  if c_is_dirty c && negb (c_true (c_dirty_write c)) then mfail else
  match dup_check c v with
  | Some r => fun w => (r, w)
  | None =>
      if MAX_CHAN_STACK <=? Z.of_nat (length (c_stack c)) then mfail else
      store a (with_stack (v :: c_stack c) c) ;;;
      set_dirty a
  end.

Definition chan_pop (a : addr) (evalue : value) : M W unit :=
  let* c := load a in
  if negb (bool_decide (c_type c = CHAN_STACK)) then mfail else
  if c_is_dirty c && negb (c_true (c_dirty_write c)) then mfail else
  match c_stack c with
  | [] => mfail
  | v :: rest =>
      if negb (value_is_equal v evalue) then mfail else
      store a (with_stack rest c) ;;;
      set_dirty a
  end.

Definition chan_flush (a : addr) : M W unit :=
  let* c := load a in
  if negb (c_is_dirty c) then mfail else
  store a (with_dirty false (with_last (get_value c) c)).

Definition chan_dirty (a : addr) : M W unit :=
  let* c := load a in
  if c_is_dirty c then mret tt else set_dirty a.
End Ops.

(** ** What the operations guarantee *)

(** A channel is well formed when its stack is within its array and, unless it
    is dirty, [last_value] is the value it reads. *)
Definition chan_wf (c : chan) : Prop :=
  Z.of_nat (length (c_stack c)) <= MAX_CHAN_STACK /\
  (c_is_dirty c = false -> c_last_value c = chan_read c).

Definition all_chans {W} `{ChanMem W} (P : chan -> Prop) (w : W) : Prop :=
  forall a c, cm_get a w = Some c -> P c.

(** [w'] differs from [w] at most in channel [a], which now holds [c]. *)
Definition chan_becomes {W} `{ChanMem W} (a : addr) (c : chan) (w w' : W) : Prop :=
  cm_get a w' = Some c /\ forall b, b <> a -> cm_get b w' = cm_get b w.

Lemma chan_read_get_value c : get_value c = chan_read c.
Proof. done. Qed.

Lemma chan_read_dirty b c : chan_read (with_dirty b c) = chan_read c.
Proof. done. Qed.

Lemma chan_init_wf ty name c : chan_init ty name = Ok c -> chan_wf c.
Proof.
  unfold chan_init. case_match; [done|]. intros [= <-].
  split; simpl; [unfold MAX_CHAN_STACK; lia|]. by destruct ty.
Qed.

Lemma chan_wf_written c : Z.of_nat (length (c_stack c)) <= MAX_CHAN_STACK ->
  c_is_dirty c = true -> chan_wf c.
Proof. split; [done|]. congruence. Qed.

Lemma dup_check_None c v : dup_check c v = None <->
  c_true (c_allow_dup c) = true \/ c_last_value c <> v.
Proof.
  unfold dup_check, value_is_equal. destruct (c_true (c_allow_dup c)); simpl; [naive_solver|].
  case_bool_decide; destruct (c_true (c_ignore_dup c)); naive_solver.
Qed.

Lemma dup_check_Ok c v u : dup_check c v = Some (Ok u) ->
  c_true (c_ignore_dup c) = true /\ c_last_value c = v.
Proof.
  unfold dup_check, value_is_equal. destruct (c_true (c_allow_dup c)); simpl; [done|].
  case_bool_decide; destruct (c_true (c_ignore_dup c)); naive_solver.
Qed.

Section Laws.
Context {W : Type} `{ChanMemLaws W}.
Implicit Types (a b : addr) (c : chan) (v : value) (w : W).

Lemma load_Ok a w c w' : load a w = (Ok c, w') <-> cm_get a w = Some c /\ w' = w.
Proof. unfold load, mbind, mget, deref, mret, mub. destruct (cm_get a w); naive_solver. Qed.

Lemma chan_becomes_trans a c1 c2 w1 w2 w3 :
  chan_becomes a c1 w1 w2 -> chan_becomes a c2 w2 w3 -> chan_becomes a c2 w1 w3.
Proof. intros [_ F1] [? F2]. split; [done|]. intros b ?. by rewrite F2, F1. Qed.

Lemma store_becomes a c w : chan_becomes a c w (cm_put a c w).
Proof. split; [apply cm_get_put|]. intros. by apply cm_get_put_ne. Qed.

(** [set_dirty] on a stored channel that may be written. *)
Lemma set_dirty_becomes a c w :
  cm_get a w = Some c -> c_is_dirty c && negb (c_true (c_dirty_write c)) = false ->
  chan_becomes a (with_dirty true c) w (set_dirty a w).2.
Proof.
  intros Hc Hw. unfold set_dirty. rewrite (mbind_run _ _ _ c w) by by apply load_Ok.
  destruct (c_is_dirty c) eqn:Hd; simpl in Hw.
  - apply negb_false_iff in Hw. rewrite Hw. split; simpl; [|done].
    rewrite Hc. f_equal. unfold with_dirty. rewrite <- Hd. by destruct c.
  - unfold store. rewrite (mbind_run _ _ _ tt (cm_put a (with_dirty true c) w)) by done.
    destruct (c_dirty_arg c) as [arg|]; [|apply store_becomes].
    destruct (store_becomes a (with_dirty true c) w) as [G F].
    split; [by rewrite cm_cb_get|]. intros b ?. rewrite cm_cb_get. by apply F.
Qed.

(** The common tail of the three write operations. *)
Lemma write_becomes a c c' w :
  cm_get a w = Some c ->
  c_is_dirty c && negb (c_true (c_dirty_write c)) = false ->
  c_is_dirty c' = c_is_dirty c -> c_dirty_write c' = c_dirty_write c ->
  chan_becomes a (with_dirty true c') w ((store a c' ;;; set_dirty a) w).2.
Proof.
  intros Hc Hw Hd Hdw. unfold store. rewrite (mbind_run _ _ _ tt (cm_put a c' w)) by done.
  eapply chan_becomes_trans; [apply store_becomes|].
  apply set_dirty_becomes; [apply cm_get_put|]. by rewrite Hd, Hdw.
Qed.

End Laws.

(** ** The abstract channel

    The write operations as one alphabet, and their abstract effect on the one
    channel they address: a step exists only when the channel may be written
    and the operation is legal. *)

Inductive chan_op := OpSet (v : value) | OpPush (v : value) | OpPop (v : value) | OpDirty.

Definition run_op {W} `{ChanMem W} (op : chan_op) (a : addr) : M W unit :=
  match op with
  | OpSet v => chan_set a v
  | OpPush v => chan_push a v
  | OpPop v => chan_pop a v
  | OpDirty => chan_dirty a
  end.

Definition writable (c : chan) : Prop := c_is_dirty c = true -> c_true (c_dirty_write c) = true.

Inductive chan_step : chan_op -> chan -> chan -> Prop :=
| step_set v c :
    c_type c = CHAN_SINGLE -> writable c -> dup_check c v = None ->
    chan_step (OpSet v) c (with_dirty true (with_value v c))
| step_push v c :
    c_type c = CHAN_STACK -> writable c -> dup_check c v = None ->
    Z.of_nat (length (c_stack c)) < MAX_CHAN_STACK ->
    chan_step (OpPush v) c (with_dirty true (with_stack (v :: c_stack c) c))
| step_pop v l c :
    c_type c = CHAN_STACK -> writable c -> c_stack c = v :: l ->
    chan_step (OpPop v) c (with_dirty true (with_stack l c))
| step_dirty c :
    c_is_dirty c = false -> chan_step OpDirty c (with_dirty true c).

(** The cases in which an operation reports success and does nothing. *)
Definition op_skipped (op : chan_op) (c : chan) : Prop :=
  match op with
  | OpSet v | OpPush v => c_true (c_ignore_dup c) = true /\ c_last_value c = v
  | OpPop _ => False
  | OpDirty => c_is_dirty c = true
  end.

Section Refinement.
Context {W : Type} `{ChanMemLaws W}.

Lemma writable_dec c : c_is_dirty c && negb (c_true (c_dirty_write c)) = false <-> writable c.
Proof. unfold writable. destruct (c_is_dirty c), (c_true (c_dirty_write c)); naive_solver. Qed.

(** The fields an operation never changes. *)
Definition same_meta (c c' : chan) : Prop :=
  c_is_dirty c' = c_is_dirty c /\ c_dirty_write c' = c_dirty_write c /\
  c_allow_dup c' = c_allow_dup c /\ c_ignore_dup c' = c_ignore_dup c /\
  c_dirty_arg c' = c_dirty_arg c /\ c_last_value c' = c_last_value c /\
  c_type c' = c_type c /\ c_name c' = c_name c.

(** The shape every operation has: an early return that changes nothing, or
    one store followed by [set_dirty]. *)
Lemma run_op_shape op a w :
  (exists r, run_op op a w = (r, w) /\
     (r = Ok tt -> exists c, cm_get a w = Some c /\ op_skipped op c)) \/
  (exists c c', cm_get a w = Some c /\ writable c /\ same_meta c c' /\
     chan_step op c (with_dirty true c') /\
     run_op op a w = (store a c' ;;; set_dirty a) w).
Proof.
  assert (forall (k : chan -> M W unit) c, cm_get a w = Some c -> mbind (load a) k w = k c w) as Hl.
  { intros k c Hc. eapply mbind_run. by apply load_Ok. }
  assert (forall v c r, op = OpSet v \/ op = OpPush v -> cm_get a w = Some c ->
    dup_check c v = Some r -> r = Ok tt -> exists c, cm_get a w = Some c /\ op_skipped op c) as Hdup.
  { intros v c r Hop Hc Hd ->. exists c. split; [done|]. apply dup_check_Ok in Hd.
    by destruct Hop as [-> | ->]. }
  destruct (cm_get a w) as [c|] eqn:Hc; last first.
  { left. destruct op; unfold run_op, chan_set, chan_push, chan_pop, chan_dirty, load, mbind, mget;
      rewrite Hc; by eexists. }
  destruct op; unfold run_op, chan_set, chan_push, chan_pop, chan_dirty; rewrite (Hl _ c) by done.
  - case_bool_decide; simpl; [|left; by eexists].
    destruct (c_is_dirty c && _) eqn:Hw; [left; by eexists|]. apply writable_dec in Hw.
    destruct (dup_check c v) eqn:Hd; [left; eexists; split; eauto|].
    right. exists c, (with_value v c). split_and!; try done. by constructor.
  - case_bool_decide; simpl; [|left; by eexists].
    destruct (c_is_dirty c && _) eqn:Hw; [left; by eexists|]. apply writable_dec in Hw.
    destruct (dup_check c v) eqn:Hd; [left; eexists; split; eauto|].
    case_match eqn:Hs; [left; by eexists|]. apply Z.leb_gt in Hs.
    right. exists c, (with_stack (v :: c_stack c) c). split_and!; try done. by constructor.
  - case_bool_decide; simpl; [|left; by eexists].
    destruct (c_is_dirty c && _) eqn:Hw; [left; by eexists|]. apply writable_dec in Hw.
    destruct (c_stack c) as [|v' l] eqn:Hs; [left; by eexists|].
    destruct (value_is_equal v' v) eqn:He; simpl; [|left; by eexists].
    apply value_is_equal_true in He as ->.
    right. exists c, (with_stack l c). split_and!; try done. by constructor.
  - destruct (c_is_dirty c) eqn:Hd.
    { left. eexists. split; [done|]. eauto. }
    right. exists c, c. unfold writable. rewrite Hd. split_and!; try done; [by constructor|].
    unfold store, mbind, mmod. by rewrite cm_put_get.
Qed.

(** The concrete operation makes the abstract step or, when it fails early or
    skips a duplicate, changes nothing. *)
Lemma run_op_refines op a w :
  ((run_op op a w).2 = w /\
     ((run_op op a w).1 = Ok tt -> exists c, cm_get a w = Some c /\ op_skipped op c)) \/
  (exists c c', cm_get a w = Some c /\ chan_step op c c' /\
     chan_becomes a c' w (run_op op a w).2).
Proof.
  destruct (run_op_shape op a w) as [(r & -> & Hr) | (c & c' & Hc & Hw & Hm & Hs & ->)]; [by left|].
  right. exists c, (with_dirty true c'). split_and!; [done..|].
  destruct Hm as (? & ? & _). eapply write_becomes; try done. by apply writable_dec.
Qed.

Lemma run_op_Ok op a w w' : run_op op a w = (Ok tt, w') ->
  exists c, cm_get a w = Some c /\
    ((w' = w /\ op_skipped op c) \/
     (exists c', chan_step op c c' /\ chan_becomes a c' w w')).
Proof.
  intros E. pose proof (run_op_refines op a w) as R. rewrite E in R. simpl in R.
  destruct R as [[-> Hs] | (c & c' & ? & ? & ?)]; [|by eauto 10].
  destruct (Hs eq_refl) as (c & ? & ?). eauto.
Qed.

Lemma chan_step_writable op c c' : chan_step op c c' -> op <> OpDirty -> writable c.
Proof. by destruct 1. Qed.

Lemma chan_step_wf op c c' : chan_step op c c' -> chan_wf c -> chan_wf c'.
Proof.
  intros Hs [Hl _]. apply chan_wf_written; [|by destruct Hs].
  destruct Hs as [| | ? ? ? ? ? E |]; simpl in *; try lia. rewrite E in Hl. simpl in Hl. lia.
Qed.

Lemma run_op_keeps_wf op a : keeps (all_chans chan_wf) (run_op op a : M W unit).
Proof.
  intros w Hw. destruct (run_op_refines op a w) as [[-> _] | (c & c' & Hc & Hs & Ha & Hb)]; [done|].
  intros b cb Hg. destruct (decide (b = a)) as [->|]; [|rewrite Hb in Hg by done; eauto].
  rewrite Ha in Hg. injection Hg as <-. eauto using chan_step_wf.
Qed.

Lemma chan_flush_Ok a w w' : chan_flush a w = (Ok tt, w') <->
  exists c, cm_get a w = Some c /\ c_is_dirty c = true /\
            w' = cm_put a (with_dirty false (with_last (chan_read c) c)) w.
Proof.
  unfold chan_flush. rewrite mbind_Ok. setoid_rewrite load_Ok. split.
  - intros (c & ? & [? ->] & E). destruct (c_is_dirty c) eqn:?; simpl in E; [|done].
    injection E as <-. eauto.
  - intros (c & ? & Hd & ->). exists c, w. by rewrite Hd.
Qed.

Lemma chan_flush_keeps_wf a : keeps (all_chans chan_wf) (chan_flush a : M W unit).
Proof.
  intros w Hw. unfold chan_flush, load, mbind, mget, deref.
  destruct (cm_get a w) as [c|] eqn:Hc; simpl; [|done].
  destruct (c_is_dirty c); simpl; [|done].
  intros b cb. destruct (decide (b = a)) as [->|]; [|rewrite cm_get_put_ne by done; eauto].
  rewrite cm_get_put. intros [= <-]. split; [|done]. by destruct (Hw _ _ Hc).
Qed.
End Refinement.

(** A bare memory of channels, without a patch bay: the callback succeeds and
    records nothing.  It is the simplest implementation of the interface. *)
#[local] Instance bare_mem : ChanMem (gmap addr chan) := {
  cm_get a w := w !! a;
  cm_put a c w := <[a := c]> w;
  cm_dirty_cb _ _ := mret tt
}.
#[local] Instance bare_laws : ChanMemLaws (gmap addr chan).
Proof.
  split; simpl; intros.
  - apply lookup_insert_eq.
  - by apply lookup_insert_ne.
  - by apply insert_id.
  - done.
Qed.

Lemma chan_set_shows {W} `{ChanMemLaws W} a v (w w' : W) c :
  cm_get a w = Some c -> chan_wf c ->
  ~ (c_true (c_dirty_write c) = true /\ c_true (c_ignore_dup c) = true) ->
  chan_set a v w = (Ok tt, w') ->
  (exists c', cm_get a w' = Some c' /\ chan_read c' = v) /\
  (forall b, b <> a -> cm_get b w' = cm_get b w).
Proof.
  intros Hc [_ Hwf] Hp E. pose proof E as E'.
  apply (run_op_Ok (OpSet v)) in E as (c0 & Hc0 & R). simplify_eq.
  unfold chan_set in E'. minv E'. apply load_Ok in E as [? ->]. simplify_eq.
  case_bool_decide as Hty; simpl in E'; [|by minv E'].
  destruct (c_is_dirty c && _) eqn:Hw in E'; [by minv E'|]. apply writable_dec in Hw.
  destruct R as [[-> [Hi Hl]] | (c' & Hstep & Ha & Hb)].
  - split; [|done]. exists c. split; [done|]. rewrite <- Hwf; [done|].
    destruct (c_is_dirty c) eqn:Hd; [|done]. exfalso. by apply Hp; auto.
  - split; [|done]. exists c'. split; [done|]. inversion Hstep; subst; simplify_eq.
    unfold chan_read; simpl. by rewrite Hty.
Qed.

(** ** Properties *)

(** C3. Refinement of the abstract channel: on every outcome (duplicate
    errors, full stack, mismatched pop, failing callback) an operation on a
    channel either changes nothing, and then reports success only for an
    ignored duplicate or an already dirty channel, or it makes exactly the
    abstract step on that channel and leaves every other channel alone. *)
Theorem chan_op_refines {W} `{ChanMemLaws W} op a (w : W) :
  let '(r, w') := run_op op a w in
  (w' = w /\ (r = Ok tt -> exists c, cm_get a w = Some c /\ op_skipped op c)) \/
  (exists c c', cm_get a w = Some c /\ chan_step op c c' /\ chan_becomes a c' w w').
Proof. pose proof (run_op_refines op a w) as R. by destruct (run_op op a w). Qed.

(** Well-formedness is an invariant of the channels: no operation, on any
    outcome, lets a stack grow beyond [MAX_CHAN_STACK] or leaves a clean
    channel whose [last_value] is not the value it reads. *)
Theorem chan_ops_keep_wf {W} `{ChanMemLaws W} (op : chan_op) (a : addr) (w : W) :
  all_chans chan_wf w ->
  all_chans chan_wf (run_op op a w).2 /\ all_chans chan_wf (chan_flush a w).2.
Proof. intros Hw. split; [by apply run_op_keeps_wf|by apply chan_flush_keeps_wf]. Qed.

Definition demo_chan : chan := mk_chan false 0 0 0 None value_null CHAN_STACK value_null [] "demo".
Definition demo_addr : addr := Addr (OwnOther 0) 0.
Definition demo_mem : gmap addr chan := {[ demo_addr := demo_chan ]}.

Lemma demo_mem_wf : all_chans chan_wf demo_mem.
Proof.
  intros a c. unfold demo_mem, cm_get; simpl. rewrite lookup_singleton. case_decide; [|done].
  intros [= <-]. split; [by vm_compute|done].
Qed.

Lemma chan_ops_keep_wf_witness :
  all_chans chan_wf (run_op (OpPush (value_int64 7)) demo_addr demo_mem).2.
Proof. exact (proj1 (chan_ops_keep_wf (OpPush (value_int64 7)) demo_addr demo_mem demo_mem_wf)). Defined.

(** Writing is observable: a successful [chan_set] on a well-formed channel
    that does not combine [CHAN_DIRTY_WRITE] with [CHAN_IGNORE_DUP] makes the
    channel read the value, also when a duplicate was ignored, and no other
    channel changes. *)
Theorem chan_set_read {W} `{ChanMemLaws W} a v (w w' : W) c :
  cm_get a w = Some c -> chan_wf c ->
  ~ (c_true (c_dirty_write c) = true /\ c_true (c_ignore_dup c) = true) ->
  chan_set a v w = (Ok tt, w') ->
  (exists c', cm_get a w' = Some c' /\ chan_read c' = v) /\
  (forall b, b <> a -> cm_get b w' = cm_get b w).
Proof. apply chan_set_shows. Qed.

Definition demo_single : chan := mk_chan false 0 0 1 None value_null CHAN_SINGLE value_null [] "single".

Lemma chan_set_read_witness :
  exists w', chan_set demo_addr (value_int64 5) ({[ demo_addr := demo_single ]} : gmap addr chan)
               = (Ok tt, w')
  /\ exists c', cm_get demo_addr w' = Some c' /\ chan_read c' = value_int64 5.
Proof.
  eexists. split; [reflexivity|].
  refine (proj1 (chan_set_read demo_addr (value_int64 5)
    ({[ demo_addr := demo_single ]} : gmap addr chan) _ demo_single _ _ _ _)).
  - reflexivity.
  - split; [by vm_compute|done].
  - intros [E _]. discriminate E.
  - reflexivity.
Defined.

(** Push and pop are inverse: after a push that was not an ignored
    duplicate, a flush, and a pop of the same value, the channel holds the
    stack it had, in whatever way its callback reacts; between the two it
    reads the pushed value. *)
Theorem chan_push_pop {W} `{ChanMemLaws W} a v (w w1 w2 w3 : W) c :
  cm_get a w = Some c -> c_true (c_ignore_dup c) = false ->
  chan_push a v w = (Ok tt, w1) -> chan_flush a w1 = (Ok tt, w2) ->
  chan_pop a v w2 = (Ok tt, w3) ->
  (exists c2, cm_get a w2 = Some c2 /\ chan_read c2 = v /\ c_stack c2 = v :: c_stack c) /\
  (exists c3, cm_get a w3 = Some c3 /\ c_stack c3 = c_stack c) /\
  (forall b, b <> a -> cm_get b w3 = cm_get b w).
Proof.
  intros Hc Hi E1 E2 E3.
  apply (run_op_Ok (OpPush v)) in E1 as (c0 & Hc0 & [[_ [? _]] | (c1 & Hstep & Ha1 & Hb1)]);
    [congruence|].
  apply chan_flush_Ok in E2 as (c1' & Hc1' & _ & ->). simplify_eq.
  apply (run_op_Ok (OpPop v)) in E3 as (c2 & Hc2 & [[_ []] | (c3 & Hstep3 & Ha3 & Hb3)]).
  rewrite cm_get_put in Hc2. injection Hc2 as <-.
  inversion Hstep as [|? ? Hty| |]; subst. inversion Hstep3 as [| |? ? ? ? ? Hst|]; subst.
  simpl in Hst. simplify_eq. split_and!.
  - eexists. rewrite cm_get_put. split; [done|]. split; [|done].
    unfold chan_read; simpl. by rewrite Hty.
  - eexists. by split; [done|].
  - intros b Hb. rewrite Hb3, cm_get_put_ne by done. by apply Hb1.
Qed.

Lemma chan_push_pop_witness :
  exists w1 w2 w3, chan_push demo_addr (value_int64 7) demo_mem = (Ok tt, w1) /\
    chan_flush demo_addr w1 = (Ok tt, w2) /\ chan_pop demo_addr (value_int64 7) w2 = (Ok tt, w3) /\
    exists c3, cm_get demo_addr w3 = Some c3 /\ c_stack c3 = [].
Proof.
  do 3 eexists. do 3 (split; [reflexivity|]).
  exact (proj1 (proj2 (chan_push_pop demo_addr (value_int64 7) demo_mem _ _ _ demo_chan
    eq_refl eq_refl eq_refl eq_refl eq_refl))).
Defined.

Lemma chan_op_refines_witness :
  chan_step (OpPush (value_int64 7)) demo_chan
    (with_dirty true (with_stack [value_int64 7] demo_chan)) /\
  let '(r, w') := run_op (OpPush (value_int64 7)) demo_addr demo_mem in
  (w' = demo_mem /\ (r = Ok tt -> exists c, cm_get demo_addr demo_mem = Some c /\
     op_skipped (OpPush (value_int64 7)) c)) \/
  (exists c c', cm_get demo_addr demo_mem = Some c /\ chan_step (OpPush (value_int64 7)) c c' /\
     chan_becomes demo_addr c' demo_mem w').
Proof.
  split; [|exact (chan_op_refines (OpPush (value_int64 7)) demo_addr demo_mem)].
  apply (step_push (value_int64 7) demo_chan); [reflexivity|intros E; discriminate E|reflexivity|vm_compute; reflexivity].
Defined.
