(* ===== verification/Pcf.v ===== *)
(** * Paraver configuration (src/emu/pv/pcf.c)

    The event types of a trace and the label of each of their values, in the
    order they were added, which is the order of the file. *)

From stdpp Require Import pretty.
From S2P Require Import Prelude.

Definition MAX_PCF_LABEL : Z := 512.
Definition PCF_RESERVED : Z := 1000.

Record pcf_value := mk_pcf_value { pv_value : Z; pv_label : string }.
Record pcf_type := mk_pcf_type {
  pt_id : Z; pt_label : string; pt_nvalues : Z; pt_values : list pcf_value
}.
Record pcf := mk_pcf { pcf_types : list pcf_type }.

Definition pcf_open : pcf := mk_pcf [].

Fixpoint find_key {A} (key : A -> Z) (k : Z) (l : list A) : option A :=
  match l with
  | [] => None
  | x :: l' => if key x =? k then Some x else find_key key k l'
  end.

Definition pcf_find_type (p : pcf) (id : Z) : option pcf_type := find_key pt_id id (pcf_types p).
Definition pcf_find_value (t : pcf_type) (v : Z) : option pcf_value := find_key pv_value v (pt_values t).

(** [snprintf] into a label of [MAX_PCF_LABEL] bytes fits. *)
Definition label_fits (label : string) : bool := Z.of_nat (String.length label) <? MAX_PCF_LABEL.

Definition pcf_add_type (id : Z) (label : string) : M pcf pcf_type :=
  let* p := mget in
  match pcf_find_type p id with
  | Some _ => mfail
  | None =>
      require (label_fits label) ;;;
      let t := mk_pcf_type id label 0 [] in
      mput (mk_pcf (pcf_types p ++ [t])) ;;;
      mret t
  end.

Definition pcf_add_value (value : Z) (label : string) : M pcf_type pcf_value :=
  let* t := mget in
  match pcf_find_value t value with
  | Some _ => mfail
  | None =>
      require (label_fits label) ;;;
      let v := mk_pcf_value value label in
      mput (mk_pcf_type (pt_id t) (pt_label t) (pt_nvalues t + 1) (pt_values t ++ [v])) ;;;
      mret v
  end.

(** ** Properties *)

Lemma find_key_None {A} (key : A -> Z) k l : find_key key k l = None <-> k ∉ (key <$> l).
Proof.
  induction l as [|x l IH]; simpl; [split; [intros _; apply not_elem_of_nil|done]|].
  rewrite not_elem_of_cons. destruct (Z.eqb_spec (key x) k); [naive_solver|]. rewrite IH. naive_solver.
Qed.

Lemma find_key_Some {A} (key : A -> Z) k l x : find_key key k l = Some x -> key x = k /\ x ∈ l.
Proof.
  induction l as [|y l IH]; simpl; [done|]. destruct (Z.eqb_spec (key y) k).
  - intros [= ->]. split; [done|by left].
  - intros Hx. destruct (IH Hx). split; [done|by right].
Qed.

Lemma find_key_snoc {A} (key : A -> Z) k l x :
  find_key key k (l ++ [x]) = match find_key key k l with
                              | Some y => Some y
                              | None => if key x =? k then Some x else None
                              end.
Proof. induction l as [|y l IH]; simpl; [done|]. by destruct (key y =? k). Qed.

Definition pcf_type_wf (t : pcf_type) : Prop :=
  NoDup (pv_value <$> pt_values t) /\ pt_nvalues t = Z.of_nat (length (pt_values t)) /\
  Forall (fun v => label_fits (pv_label v) = true) (pt_values t).

(** Adding a value fails for a repeated value or a label that does not fit,
    changing nothing; otherwise the value is appended with its label, every
    other value keeps its own, and values stay unique and counted. *)
Theorem pcf_add_value_spec t v label : pcf_type_wf t ->
  let '(r, t') := pcf_add_value v label t in
  (r = Err /\ t' = t /\ (v ∈ (pv_value <$> pt_values t) \/ label_fits label = false)) \/
  (r = Ok (mk_pcf_value v label) /\ pcf_type_wf t' /\ v ∉ (pv_value <$> pt_values t) /\
   pt_values t' = pt_values t ++ [mk_pcf_value v label] /\
   pcf_find_value t' v = Some (mk_pcf_value v label) /\
   forall w, w <> v -> pcf_find_value t' w = pcf_find_value t w).
Proof.
  intros (Hnd & Hn & Hf). unfold pcf_add_value, mbind, mget. simpl.
  destruct (pcf_find_value t v) as [x|] eqn:E.
  { left. split_and!; try done. left. apply find_key_Some in E as [<- Hx].
    by apply list_elem_of_fmap_2. }
  pose proof E as E'. apply find_key_None in E'.
  destruct (label_fits label) eqn:Hl; simpl; [|left; split_and!; [done|done|by right]].
  right. split; [done|]. split_and!; try done; unfold pcf_find_value; simpl.
  - split_and!; simpl.
    + rewrite fmap_app. apply list.NoDup_app. split_and!; [done| |apply NoDup_singleton].
      intros x Hx ->%list_elem_of_singleton. done.
    + rewrite length_app. simpl. lia.
    + apply Forall_app. split; [done|]. by apply Forall_singleton.
  - rewrite find_key_snoc. unfold pcf_find_value in E. rewrite E. simpl. by rewrite Z.eqb_refl.
  - intros w Hw. rewrite find_key_snoc. simpl. rewrite (proj2 (Z.eqb_neq _ _)) by done.
    by destruct (find_key pv_value w (pt_values t)).
Qed.

Lemma pcf_add_value_spec_witness : pcf_type_wf (mk_pcf_type 7 "t" 0 []) /\
  pcf_add_value 5 "five" (mk_pcf_type 7 "t" 0 []) =
    (Ok (mk_pcf_value 5 "five"), mk_pcf_type 7 "t" 1 [mk_pcf_value 5 "five"]) /\
  pcf_type_wf (mk_pcf_type 7 "t" 1 [mk_pcf_value 5 "five"]).
Proof.
  assert (pcf_type_wf (mk_pcf_type 7 "t" 0 [])) as Hw by (split_and!; [constructor|reflexivity|constructor]).
  split; [exact Hw|]. split; [reflexivity|].
  destruct (pcf_add_value_spec (mk_pcf_type 7 "t" 0 []) 5 "five" Hw) as [(E & _)|(_ & H & _)];
    [discriminate E|exact H].
Defined.
