(* ===== verification/Task.v ===== *)
(** * Tasks and their bodies (src/emu/task.c, src/emu/body.c)

    A task has a type and one or more bodies; a body is created, runs, may
    pause and resume, and dies, on the stack of one thread.  The memory holds
    the task tables of a process, the bodies by task and body identifier, and
    the body stack of every thread with its top first.  [HASH_VALUE] of
    uthash.h (Jenkins' hash) gives the colour of a task type. *)

From stdpp Require Import pretty.
From S2P Require Import Prelude Pcf.

(** ** Data *)

Definition BODY_FLAG_PAUSE : Z := 1.
Definition BODY_FLAG_RESURRECT : Z := 2.
Definition BODY_FLAG_RELAX_NESTING : Z := 4.

Definition TASK_FLAG_PARALLEL : Z := 1.
Definition TASK_FLAG_RESURRECT : Z := 2.
Definition TASK_FLAG_PAUSE : Z := 4.
Definition TASK_FLAG_RELAX_NESTING : Z := 8.

Inductive body_state := BODY_ST_CREATED | BODY_ST_RUNNING | BODY_ST_PAUSED | BODY_ST_DEAD.

#[export] Instance body_state_eq_dec : EqDecision body_state.
Proof. solve_decision. Defined.

(** A body is addressed by its task and its identifier within the task. *)
Definition bref : Type := Z * Z.

Record body := mk_body {
  body_flags : Z;
  body_st : body_state;
  body_stack : option nat;      (* the thread whose stack holds it *)
  body_iteration : Z
}.

Record task_type := mk_task_type { tt_id : Z; tt_gid : Z; tt_label : string }.
Record task := mk_task { task_type_id : Z; task_flags : Z; task_nbodies : Z }.

Record tasks := mk_tasks {
  ts_types : list task_type;             (* hash table, in insertion order *)
  ts_tasks : gmap Z task;
  ts_bodies : gmap bref body;
  ts_stacks : gmap nat (list bref)
}.

Definition set_ts_types f (m : tasks) := mk_tasks (f (ts_types m)) (ts_tasks m) (ts_bodies m) (ts_stacks m).
Definition set_ts_tasks f (m : tasks) := mk_tasks (ts_types m) (f (ts_tasks m)) (ts_bodies m) (ts_stacks m).
Definition set_ts_bodies f (m : tasks) := mk_tasks (ts_types m) (ts_tasks m) (f (ts_bodies m)) (ts_stacks m).
Definition set_ts_stacks f (m : tasks) := mk_tasks (ts_types m) (ts_tasks m) (ts_bodies m) (f (ts_stacks m)).

Definition stack_of (m : tasks) (s : nat) : list bref := default [] (ts_stacks m !! s).

Definition with_state (st : body_state) (b : body) : body :=
  mk_body (body_flags b) st (body_stack b) (body_iteration b).
Definition has_flag (flags bit : Z) : bool := c_true (Z.land flags bit).

(** ** Bodies (body.c) *)

Definition body_find (k : bref) (m : tasks) : option body := ts_bodies m !! k.
Definition put_body (k : bref) (b : body) : M tasks unit := mmod (set_ts_bodies <[k := b]>).

Definition body_can_resurrect (b : body) : bool := has_flag (body_flags b) BODY_FLAG_RESURRECT.
Definition body_can_pause (b : body) : bool := has_flag (body_flags b) BODY_FLAG_PAUSE.

(** [body_create] for task [t.1], which the caller has found. *)
Definition body_create (k : bref) (flags : Z) : M tasks unit :=
  require (negb (k.2 =? 0)) ;;;
  let* m := mget in
  match body_find k m with
  | Some _ => mfail
  | None => put_body k (mk_body flags BODY_ST_CREATED None 0)
  end.

Definition body_get_top (s : nat) (m : tasks) : option bref := head (stack_of m s).

Definition body_get_running (s : nat) (m : tasks) : option bref :=
  match body_get_top s m with
  | Some k =>
      match body_find k m with
      | Some b => if bool_decide (body_st b = BODY_ST_RUNNING) then Some k else None
      | None => None
      end
  | None => None
  end.

Definition load_body (k : bref) : M tasks body := let* m := mget in deref (body_find k m).

Definition body_execute (s : nat) (k : bref) : M tasks unit :=
  let* b := load_body k in
  (if bool_decide (body_st b = BODY_ST_DEAD) then
     require (body_can_resurrect b) ;;;
     put_body k (mk_body (body_flags b) BODY_ST_CREATED (body_stack b) (body_iteration b + 1))
   else mret tt) ;;;
  let* b := load_body k in
  require (negb (bool_decide (body_st b = BODY_ST_PAUSED))) ;;;
  require (bool_decide (body_st b = BODY_ST_CREATED)) ;;;
  require (bool_decide (body_stack b = None)) ;;;
  let* m := mget in
  (match body_get_running s m with
   | Some top =>
       let* tb := load_body top in
       require (has_flag (body_flags tb) BODY_FLAG_RELAX_NESTING)
   | None => mret tt
   end) ;;;
  put_body k (mk_body (body_flags b) BODY_ST_RUNNING (Some s) (body_iteration b)) ;;;
  mmod (set_ts_stacks (fun st => <[s := k :: default [] (st !! s)]> st)).

(** The tests that pause, resume and end share. *)
Definition on_top (s : nat) (k : bref) (b : body) : M tasks unit :=
  require (negb (bool_decide (body_stack b = None))) ;;;
  require (bool_decide (body_stack b = Some s)) ;;;
  let* m := mget in
  require (bool_decide (body_get_top s m = Some k)).

Definition body_pause (s : nat) (k : bref) : M tasks unit :=
  let* b := load_body k in
  require (body_can_pause b) ;;;
  require (bool_decide (body_st b = BODY_ST_RUNNING)) ;;;
  on_top s k b ;;;
  put_body k (with_state BODY_ST_PAUSED b).

Definition body_resume (s : nat) (k : bref) : M tasks unit :=
  let* b := load_body k in
  require (bool_decide (body_st b = BODY_ST_PAUSED)) ;;;
  on_top s k b ;;;
  put_body k (with_state BODY_ST_RUNNING b).

Definition body_end (s : nat) (k : bref) : M tasks unit :=
  let* b := load_body k in
  require (bool_decide (body_st b = BODY_ST_RUNNING)) ;;;
  on_top s k b ;;;
  mmod (set_ts_stacks (fun st => <[s := tail (default [] (st !! s))]> st)) ;;;
  put_body k (mk_body (body_flags b) BODY_ST_DEAD None (body_iteration b)).

(** ** Tasks (task.c) *)

Definition task_find (m : tasks) (id : Z) : option task := ts_tasks m !! id.
Definition task_type_find (m : tasks) (id : Z) : option task_type := find_key tt_id id (ts_types m).

Definition task_create (type_id task_id flags : Z) : M tasks unit :=
  let* m := mget in
  match task_find m task_id with
  | Some _ => mfail
  | None =>
      let* _ := found (task_type_find m type_id) in
      mmod (set_ts_tasks <[task_id := mk_task type_id flags 0]>)
  end.

Definition task_is_parallel (t : task) : bool := has_flag (task_flags t) TASK_FLAG_PARALLEL.

Definition create_body (id : Z) (t : task) (body_id : Z) : M tasks unit :=
  if negb (task_is_parallel t) && (0 <? task_nbodies t) then mfail else
  let flags := 0 in
  let flags := if has_flag (task_flags t) TASK_FLAG_RELAX_NESTING
               then Z.lor flags BODY_FLAG_RELAX_NESTING else flags in
  let flags := if has_flag (task_flags t) TASK_FLAG_RESURRECT
               then Z.lor flags BODY_FLAG_RESURRECT else flags in
  let flags := if has_flag (task_flags t) TASK_FLAG_PAUSE
               then Z.lor flags BODY_FLAG_PAUSE else flags in
  body_create (id, body_id) flags ;;;
  mmod (set_ts_tasks (alter (fun t => mk_task (task_type_id t) (task_flags t) (task_nbodies t + 1)) id)).

(** The task of these four is the one the caller looked up: [None] is NULL. *)
Definition task_execute (s : nat) (id : Z) (body_id : Z) : M tasks unit :=
  let* m := mget in
  let* t := found (task_find m id) in
  (match body_find (id, body_id) m with
   | None => create_body id t body_id
   | Some _ => mret tt
   end) ;;;
  body_execute s (id, body_id).

Definition task_body_op (op : nat -> bref -> M tasks unit) (s : nat) (id body_id : Z) : M tasks unit :=
  let* m := mget in
  let* _ := found (task_find m id) in
  let* _ := found (body_find (id, body_id) m) in
  op s (id, body_id).
Definition task_pause : nat -> Z -> Z -> M tasks unit := task_body_op body_pause.
Definition task_resume : nat -> Z -> Z -> M tasks unit := task_body_op body_resume.
Definition task_end : nat -> Z -> Z -> M tasks unit := task_body_op body_end.

Definition task_get_running (s : nat) (m : tasks) : option bref := body_get_running s m.
Definition task_get_top (s : nat) (m : tasks) : option bref := body_get_top s m.

(** ** Task types and their colours *)

(** [HASH_JEN_MIX]: every assignment on 32-bit unsigned integers. *)
Definition jen_mix (p : Z * Z * Z) : Z * Z * Z :=
  let '(a, b, c) := p in
  let a := u32 (a - b) in let a := u32 (a - c) in let a := Z.lxor a (Z.shiftr c 13) in
  let b := u32 (b - c) in let b := u32 (b - a) in let b := Z.lxor b (u32 (Z.shiftl a 8)) in
  let c := u32 (c - a) in let c := u32 (c - b) in let c := Z.lxor c (Z.shiftr b 13) in
  let a := u32 (a - b) in let a := u32 (a - c) in let a := Z.lxor a (Z.shiftr c 12) in
  let b := u32 (b - c) in let b := u32 (b - a) in let b := Z.lxor b (u32 (Z.shiftl a 16)) in
  let c := u32 (c - a) in let c := u32 (c - b) in let c := Z.lxor c (Z.shiftr b 5) in
  let a := u32 (a - b) in let a := u32 (a - c) in let a := Z.lxor a (Z.shiftr c 3) in
  let b := u32 (b - c) in let b := u32 (b - a) in let b := Z.lxor b (u32 (Z.shiftl a 10)) in
  let c := u32 (c - a) in let c := u32 (c - b) in let c := Z.lxor c (Z.shiftr b 15) in
  (a, b, c).

(** Four bytes, lowest first. *)
Definition word4 (b0 b1 b2 b3 : Z) : Z :=
  u32 (b0 + u32 (Z.shiftl b1 8) + u32 (Z.shiftl b2 16) + u32 (Z.shiftl b3 24)).

(** [HASH_JEN]: whole blocks of twelve bytes, then the [switch] on the rest,
    whose fall-through adds the bytes that are there. *)
Fixpoint jen_blocks (key : list Z) (keylen : Z) (p : Z * Z * Z) : Z :=
  let '(i, j, hashv) := p in
  match key with
  | b0 :: b1 :: b2 :: b3 :: b4 :: b5 :: b6 :: b7 :: b8 :: b9 :: b10 :: b11 :: rest =>
      jen_blocks rest keylen
        (jen_mix (u32 (i + word4 b0 b1 b2 b3), u32 (j + word4 b4 b5 b6 b7), u32 (hashv + word4 b8 b9 b10 b11)))
  | _ =>
      let at_ n := nth n key 0 in
      let hashv := u32 (hashv + keylen) in
      let hashv := u32 (hashv + word4 0 (at_ 8%nat) (at_ 9%nat) (at_ 10%nat)) in
      let j := u32 (j + word4 (at_ 4%nat) (at_ 5%nat) (at_ 6%nat) (at_ 7%nat)) in
      let i := u32 (i + word4 (at_ 0%nat) (at_ 1%nat) (at_ 2%nat) (at_ 3%nat)) in
      (jen_mix (i, j, hashv)).2
  end.
Definition HASH_JEN (key : list Z) : Z :=
  jen_blocks key (u32 (Z.of_nat (length key))) (0x9e3779b9, 0x9e3779b9, 0xfeedbeef).

Definition string_bytes (s : string) : list Z :=
  map (fun c => Z.of_nat (Ascii.nat_of_ascii c)) (String.list_ascii_of_string s).

Definition task_get_type_gid (label : string) : Z :=
  let gid := HASH_JEN (string_bytes label) in
  let gid := u32 (gid + 666) in
  let gid := Z.land gid 0x7FFFFFFF in
  if gid <? PCF_RESERVED then u32 (gid + PCF_RESERVED) else gid.

Definition task_type_label (type_id : Z) (label : string) : string :=
  match label with
  | EmptyString => ("(unlabeled task type " +:+ pretty type_id +:+ ")")%string
  | _ => label
  end.

Definition task_type_create (type_id : Z) (label : string) : M tasks unit :=
  let* m := mget in
  match find_key tt_id type_id (ts_types m) with
  | Some _ => mfail
  | None =>
      require (negb (type_id =? 0)) ;;;
      let l := task_type_label type_id label in
      require (label_fits l) ;;;
      mmod (set_ts_types (fun ts => ts ++ [mk_task_type type_id (task_get_type_gid l) l]))
  end.

(** [ok] is [ret == 0]: a collision is reported and the value is added anyway,
    which fails. *)
Fixpoint task_create_pcf_types (ok : bool) (types : list task_type) : M pcf_type unit :=
  match types with
  | [] => require ok
  | ty :: rest =>
      let* p := mget in
      let gid := i32 (tt_gid ty) in
      match pcf_find_value p gid with
      | Some v =>
          if String.eqb (pv_label v) (tt_label ty) then task_create_pcf_types ok rest
          else
            let* _ := pcf_add_value gid (tt_label ty) in
            task_create_pcf_types false rest
      | None =>
          let* _ := pcf_add_value gid (tt_label ty) in
          task_create_pcf_types ok rest
      end
  end.

(** ** Type identifiers *)

(** Whatever the label, the colour identifier of a task type is a
    non-negative [int] that no reserved Paraver value uses. *)
Theorem task_get_type_gid_bounds label :
  PCF_RESERVED <= task_get_type_gid label < 2 ^ 31.
Proof.
  unfold task_get_type_gid, PCF_RESERVED. set (g := u32 (HASH_JEN (string_bytes label) + 666)).
  change 0x7FFFFFFF with (Z.ones 31). rewrite Z.land_ones by lia.
  pose proof (Z.mod_pos_bound g (2 ^ 31) ltac:(lia)) as Hm.
  destruct (Z.ltb_spec (g mod 2 ^ 31) 1000) as [Hlt|Hge]; [|lia].
  unfold u32. rewrite wrapu_id; [lia|]. unfold in_u. lia.
Qed.

(** ** Reading the operations *)

(** Reviving a dead body, the one effect a failing execution may have. *)
Definition revived (b : body) : body :=
  mk_body (body_flags b) BODY_ST_CREATED (body_stack b) (body_iteration b + 1).

(** What may run on top of stack [s]. *)
Definition may_nest (m : tasks) (s : nat) : Prop :=
  forall k b, body_get_top s m = Some k -> body_find k m = Some b -> body_st b = BODY_ST_RUNNING ->
    has_flag (body_flags b) BODY_FLAG_RELAX_NESTING = true.

Definition executed (s : nat) (k : bref) (b : body) (m : tasks) : tasks :=
  set_ts_stacks (fun st => <[s := k :: default [] (st !! s)]> st)
    (set_ts_bodies <[k := mk_body (body_flags b) BODY_ST_RUNNING (Some s) (body_iteration b)]> m).

Lemma load_body_run k b m : body_find k m = Some b -> load_body k m = (Ok b, m).
Proof. intros Hb. unfold load_body, mbind, mget. by rewrite Hb. Qed.

Lemma set_bodies_twice k x y m :
  set_ts_bodies <[k := y]> (set_ts_bodies <[k := x]> m) = set_ts_bodies <[k := y]> m.
Proof. unfold set_ts_bodies; simpl. by rewrite insert_insert_eq. Qed.

(** The second half of [body_execute], on a body that is not dead. *)
Definition start_body (s : nat) (k : bref) : M tasks unit :=
  let* b := load_body k in
  require (negb (bool_decide (body_st b = BODY_ST_PAUSED))) ;;;
  require (bool_decide (body_st b = BODY_ST_CREATED)) ;;;
  require (bool_decide (body_stack b = None)) ;;;
  let* m := mget in
  (match body_get_running s m with
   | Some top =>
       let* tb := load_body top in
       require (has_flag (body_flags tb) BODY_FLAG_RELAX_NESTING)
   | None => mret tt
   end) ;;;
  put_body k (mk_body (body_flags b) BODY_ST_RUNNING (Some s) (body_iteration b)) ;;;
  mmod (set_ts_stacks (fun st => <[s := k :: default [] (st !! s)]> st)).

Lemma start_body_cases s k b m : body_find k m = Some b ->
  (start_body s k m = (Err, m)) \/
  (start_body s k m = (Ok tt, executed s k b m) /\ body_st b = BODY_ST_CREATED /\
   body_stack b = None /\ may_nest m s).
Proof.
  intros Hb. unfold start_body. rewrite (mbind_run _ _ _ _ _ (load_body_run k b m Hb)).
  rewrite mbind_require. case_bool_decide as H1; cbn [negb]; [by left|].
  rewrite mbind_require. case_bool_decide as H2; [|by left].
  rewrite mbind_require. case_bool_decide as H3; [|by left].
  rewrite (mbind_run _ _ _ m m) by done.
  destruct (body_get_running s m) as [top|] eqn:Hr.
  - unfold body_get_running in Hr. destruct (body_get_top s m) as [k'|] eqn:Ht; [|done].
    destruct (body_find k' m) as [tb|] eqn:Htb; [|done]. case_bool_decide as Hrun; [|done].
    injection Hr as ->.
    assert ((let* tb := load_body top in require (has_flag (body_flags tb) BODY_FLAG_RELAX_NESTING)) m =
      (if has_flag (body_flags tb) BODY_FLAG_RELAX_NESTING then Ok tt else Err, m)) as Hnest.
    { rewrite (mbind_run _ _ _ _ _ (load_body_run _ _ _ Htb)). apply require_run. }
    destruct (has_flag (body_flags tb) BODY_FLAG_RELAX_NESTING) eqn:Hfl.
    + right. rewrite (mbind_run _ _ _ _ _ Hnest). split_and!; [done|done|done|].
      intros k2 b2 Hk2 Hb2 _. congruence.
    + left. unfold mbind at 1. by rewrite Hnest.
  - right. split_and!; [done|done|done|]. intros k2 b2 Hk2 Hb2 Hrun. exfalso.
    unfold body_get_running in Hr. rewrite Hk2, Hb2 in Hr. by rewrite bool_decide_true in Hr.
Qed.

Lemma body_execute_cases s k b m : body_find k m = Some b ->
  (body_execute s k m = (Err, m)) \/
  (body_st b = BODY_ST_DEAD /\ body_can_resurrect b = true /\
     body_execute s k m = (Err, set_ts_bodies <[k := revived b]> m)) \/
  (exists b1, body_execute s k m = (Ok tt, executed s k b1 m) /\
     body_stack b = None /\
     ((body_st b = BODY_ST_CREATED /\ b1 = b) \/
      (body_st b = BODY_ST_DEAD /\ body_can_resurrect b = true /\ b1 = revived b)) /\
     may_nest (set_ts_bodies <[k := b1]> m) s).
Proof.
  intros Hb. change (body_execute s k) with
    (let* b := load_body k in
     (if bool_decide (body_st b = BODY_ST_DEAD) then
        require (body_can_resurrect b) ;;; put_body k (revived b)
      else mret tt) ;;; start_body s k).
  rewrite (mbind_run _ _ _ _ _ (load_body_run k b m Hb)). case_bool_decide as Hd.
  - destruct (body_can_resurrect b) eqn:Hr; [|by left].
    rewrite (mbind_run _ _ _ tt (set_ts_bodies <[k := revived b]> m)) by done.
    assert (body_find k (set_ts_bodies <[k := revived b]> m) = Some (revived b)) as Hb1
      by apply lookup_insert_eq.
    destruct (start_body_cases s k (revived b) _ Hb1) as [E|(E & _ & Hs & Hn)]; rewrite E; right; [by left|right].
    exists (revived b). split_and!; [|done|by right|done].
    unfold executed. by rewrite set_bodies_twice.
  - rewrite (mbind_run _ _ _ tt m) by done.
    destruct (start_body_cases s k b m Hb) as [E|(E & Hc & Hs & Hn)]; [by left|]. right; right.
    exists b. split_and!; [done|done|by left|].
    replace (set_ts_bodies <[k := b]> m) with m; [done|].
    destruct m; unfold set_ts_bodies; simpl in *. by rewrite insert_id.
Qed.

Lemma on_top_cases s k b m :
  (on_top s k b m = (Err, m)) \/
  (on_top s k b m = (Ok tt, m) /\ body_stack b = Some s /\ body_get_top s m = Some k).
Proof.
  unfold on_top, mbind, mget. rewrite !require_run.
  repeat case_bool_decide; simpl; try (by left); by right.
Qed.

(** ** The invariant *)

Definition on_stack (st : body_state) : Prop := st = BODY_ST_RUNNING \/ st = BODY_ST_PAUSED.

(** Bodies are on exactly the stack they name, once, while they run or are
    paused, and on none otherwise; below the top of a stack only bodies that
    relax nesting may still be running; a body belongs to a task, only bodies
    that may pause are paused and only those that may run again have been run
    twice; a task that is not parallel has at most one body. *)
Record tasks_inv (m : tasks) : Prop := {
  ti_stack : forall s k, k ∈ stack_of m s -> exists b, body_find k m = Some b /\
    body_stack b = Some s /\ on_stack (body_st b);
  ti_body : forall k b, body_find k m = Some b ->
    (on_stack (body_st b) /\ exists s, body_stack b = Some s /\ k ∈ stack_of m s) \/
    (~ on_stack (body_st b) /\ body_stack b = None);
  ti_nodup : forall s, NoDup (stack_of m s);
  ti_top : forall s k b, k ∈ tail (stack_of m s) -> body_find k m = Some b ->
    body_st b = BODY_ST_RUNNING -> has_flag (body_flags b) BODY_FLAG_RELAX_NESTING = true;
  ti_flags : forall k b, body_find k m = Some b -> k.2 <> 0 /\ 0 <= body_iteration b /\
    (body_st b = BODY_ST_PAUSED -> body_can_pause b = true) /\
    (body_can_resurrect b = false -> body_iteration b = 0) /\
    exists t, task_find m k.1 = Some t /\ 0 < task_nbodies t;
  ti_single : forall id t b1 b2 x1 x2, task_find m id = Some t -> task_is_parallel t = false ->
    body_find (id, b1) m = Some x1 -> body_find (id, b2) m = Some x2 -> b1 = b2;
  ti_count : forall id t, task_find m id = Some t -> 0 <= task_nbodies t
}.

Definition empty_tasks : tasks := mk_tasks [] ∅ ∅ ∅.

Lemma empty_tasks_inv : tasks_inv empty_tasks.
Proof.
  assert (forall s, stack_of empty_tasks s = []) as Hs by done.
  split; try done.
  - intros s k. rewrite Hs. by intros ?%elem_of_nil.
  - intros s. rewrite Hs. constructor.
Qed.

Lemma stack_of_set s s' l m :
  stack_of (set_ts_stacks (fun st => <[s := l st]> st) m) s' =
    if decide (s = s') then l (ts_stacks m) else stack_of m s'.
Proof. unfold stack_of; simpl. rewrite lookup_insert. by case_decide. Qed.

Lemma body_find_put k k' b m :
  body_find k' (set_ts_bodies <[k := b]> m) = if decide (k = k') then Some b else body_find k' m.
Proof. unfold body_find; simpl. rewrite lookup_insert. by repeat case_decide. Qed.

(** Changing one body in place: same flags and stack, on the stack as before. *)
Lemma change_body_inv m k b b' : tasks_inv m -> body_find k m = Some b ->
  body_flags b' = body_flags b -> body_stack b' = body_stack b ->
  (on_stack (body_st b') <-> on_stack (body_st b)) ->
  0 <= body_iteration b' -> (body_can_resurrect b' = false -> body_iteration b' = 0) ->
  (body_st b' = BODY_ST_PAUSED -> body_can_pause b' = true) ->
  (body_st b' = BODY_ST_RUNNING -> forall s, body_stack b = Some s ->
     body_st b = BODY_ST_RUNNING \/ body_get_top s m = Some k) ->
  tasks_inv (set_ts_bodies <[k := b']> m).
Proof.
  intros HI Hb Hfl Hst Hon Hit Hres Hpau Hrun.
  split.
  - intros s k' Hk'. rewrite body_find_put. destruct (ti_stack _ HI s k' Hk') as (b0 & Hb0 & Hs0 & Ho0).
    case_decide; [|by eauto]. subst. simplify_eq. exists b'. rewrite Hst. split_and!; [done|done|by apply Hon].
  - intros k' b0. rewrite body_find_put. case_decide; [|by apply (ti_body _ HI)]. intros [= <-]. subst.
    destruct (ti_body _ HI k' b Hb) as [(Ho & s & Hs & Hin)|(Ho & Hs)]; rewrite Hst, Hon; [left|right]; eauto.
  - apply (ti_nodup _ HI).
  - intros s k' b0 Hk'. rewrite body_find_put. case_decide; [|by apply (ti_top _ HI s)].
    intros [= <-] Hr. subst. rewrite Hfl.
    assert (k' ∈ stack_of m s) as Hin by by apply elem_of_tail.
    destruct (ti_stack _ HI s k' Hin) as (b1 & Hb1 & Hs1 & _). simplify_eq.
    destruct (Hrun Hr s Hs1) as [Hr0|Htop]; [by apply (ti_top _ HI s k')|]. exfalso.
    pose proof (ti_nodup _ HI s) as Hnd. unfold body_get_top in Htop.
    unfold stack_of in *. simpl in Hk'. destruct (default [] (ts_stacks m !! s)) as [|x l]; simpl in *; [done|].
    injection Htop as ->. by apply list.NoDup_cons in Hnd as [? _].
  - intros k' b0. rewrite body_find_put. case_decide; [|by apply (ti_flags _ HI)]. intros [= <-]. subst.
    destruct (ti_flags _ HI k' b Hb) as (? & _ & _ & _ & ?). by split_and!.
  - intros id t b1 b2 x1 x2 Ht Hp. rewrite !body_find_put.
    assert (forall bb x, (if decide (k = (id, bb)) then Some b' else body_find (id, bb) m) = Some x ->
      exists y, body_find (id, bb) m = Some y) as Hex.
    { intros bb x. case_decide; [subst; by eauto|by eauto]. }
    intros H1 H2. destruct (Hex _ _ H1), (Hex _ _ H2). by eapply (ti_single _ HI id t).
  - apply (ti_count _ HI).
Qed.

(** Starting a body that is on no stack. *)
Lemma executed_inv s k b m : tasks_inv m -> body_find k m = Some b ->
  body_stack b = None -> may_nest m s -> tasks_inv (executed s k b m).
Proof.
  intros HI Hb Hs Hn. unfold executed.
  set (b' := mk_body (body_flags b) BODY_ST_RUNNING (Some s) (body_iteration b)).
  set (m1 := set_ts_bodies <[k := b']> m).
  assert (forall s', stack_of (set_ts_stacks (fun st => <[s := k :: default [] (st !! s)]> st) m1) s' =
    if decide (s = s') then k :: stack_of m s else stack_of m s') as Hst.
  { intros s'. exact (stack_of_set s s' (fun st => k :: default [] (st !! s)) m1). }
  assert (forall s', k ∉ stack_of m s') as Hfree.
  { intros s' Hin. destruct (ti_stack _ HI s' k Hin) as (b0 & Hb0 & Hs0 & _). congruence. }
  assert (forall k', body_find k' (set_ts_stacks (fun st => <[s := k :: default [] (st !! s)]> st) m1) =
    if decide (k = k') then Some b' else body_find k' m) as Hfind by (intros k'; apply body_find_put).
  split.
  - intros s' k'. rewrite Hst, Hfind. intros Hin. destruct (decide (k = k')) as [<-|Hk].
    + exists b'. destruct (decide (s = s')) as [<-|]; [split_and!; [done|done|by left]|]. by destruct (Hfree s').
    + destruct (decide (s = s')) as [<-|]; [|by apply (ti_stack _ HI)]. apply elem_of_cons in Hin as [->|Hin]; [done|].
      by apply (ti_stack _ HI).
  - intros k' b0. rewrite Hfind. case_decide as Hk.
    + intros [= <-]. subst k'. left. split; [by left|]. exists s. split; [done|].
      rewrite Hst, decide_True by done. by left.
    + intros Hb0. destruct (ti_body _ HI k' b0 Hb0) as [(? & s' & ? & ?)|]; [left|by right].
      split; [done|]. exists s'. split; [done|]. rewrite Hst. case_decide; [|done]. subst. by right.
  - intros s'. rewrite Hst. case_decide; [|apply (ti_nodup _ HI)]. apply list.NoDup_cons.
    split; [apply Hfree|apply (ti_nodup _ HI)].
  - intros s' k' b0. rewrite Hst, Hfind. destruct (decide (s = s')) as [<-|Hss]; simpl; intros Hin.
    + destruct (decide (k = k')) as [<-|Hk]; [by destruct (Hfree s)|]. intros Hb0 Hr.
      destruct (stack_of m s) as [|x l] eqn:El; [by apply elem_of_nil in Hin|].
      apply elem_of_cons in Hin as [->|Hin].
      * apply (Hn x b0); [|done|done]. unfold body_get_top. by rewrite El.
      * apply (ti_top _ HI s k' b0); [by rewrite El|done|done].
    + destruct (decide (k = k')) as [<-|Hk]; [|by apply (ti_top _ HI s')]. by destruct (Hfree s'); apply elem_of_tail.
  - intros k' b0. rewrite Hfind. case_decide; [|by apply (ti_flags _ HI)]. intros [= <-]. subst.
    destruct (ti_flags _ HI k' b Hb) as (? & ? & _ & ? & ?). by split_and!.
  - intros id t b1 b2 x1 x2 Ht Hp. rewrite !Hfind.
    assert (forall bb x, (if decide (k = (id, bb)) then Some b' else body_find (id, bb) m) = Some x ->
      exists y, body_find (id, bb) m = Some y) as Hex.
    { intros bb x. case_decide; [subst; by eauto|by eauto]. }
    intros H1 H2. destruct (Hex _ _ H1), (Hex _ _ H2). by eapply (ti_single _ HI id t).
  - apply (ti_count _ HI).
Qed.

(** Ending the body on top of its stack. *)
Definition ended (s : nat) (k : bref) (b : body) (m : tasks) : tasks :=
  set_ts_bodies <[k := mk_body (body_flags b) BODY_ST_DEAD None (body_iteration b)]>
    (set_ts_stacks (fun st => <[s := tail (default [] (st !! s))]> st) m).

Lemma ended_inv s k b m : tasks_inv m -> body_find k m = Some b -> body_stack b = Some s ->
  body_get_top s m = Some k -> tasks_inv (ended s k b m).
Proof.
  intros HI Hb Hs Htop. unfold ended.
  set (b' := mk_body (body_flags b) BODY_ST_DEAD None (body_iteration b)).
  set (m1 := set_ts_stacks _ m).
  assert (forall s', stack_of (set_ts_bodies <[k := b']> m1) s' =
    if decide (s = s') then tail (stack_of m s) else stack_of m s') as Hst.
  { intros s'. exact (stack_of_set s s' (fun st => tail (default [] (st !! s))) m). }
  assert (forall k', body_find k' (set_ts_bodies <[k := b']> m1) =
    if decide (k = k') then Some b' else body_find k' m) as Hfind by (intros k'; exact (body_find_put k k' b' m1)).
  unfold body_get_top in Htop. destruct (stack_of m s) as [|x l] eqn:El; [done|]. injection Htop as ->.
  pose proof (ti_nodup _ HI s) as Hnd. rewrite El in Hnd. apply list.NoDup_cons in Hnd as [Hkl Hnd].
  assert (forall s' k', k' ∈ stack_of (set_ts_bodies <[k := b']> m1) s' -> k' ∈ stack_of m s' /\ k' <> k) as Hsub.
  { intros s' k'. rewrite Hst. case_decide as Hss; simpl.
    - subst s'. intros Hin. split; [rewrite El; by right|]. by intros ->.
    - intros Hin. split; [done|]. intros ->. destruct (ti_stack _ HI s' k Hin) as (b0 & Hb0 & Hs0 & _). congruence. }
  split.
  - intros s' k' Hin. destruct (Hsub s' k' Hin) as [Hin' Hne]. rewrite Hfind, decide_False by done.
    by apply (ti_stack _ HI).
  - intros k' b0. rewrite Hfind. case_decide as Hk.
    + intros [= <-]. right. split; [by intros []|done].
    + intros Hb0. destruct (ti_body _ HI k' b0 Hb0) as [(? & s' & ? & Hin)|]; [left|by right].
      split; [done|]. exists s'. split; [done|]. rewrite Hst. case_decide; [|done]. subst s'.
      rewrite El in Hin. apply elem_of_cons in Hin as [->|?]; [done|done].
  - intros s'. rewrite Hst. case_decide; [done|apply (ti_nodup _ HI)].
  - intros s' k' b0 Hin. pose proof (Hsub s' k' (elem_of_tail _ _ Hin)) as [_ Hne].
    rewrite Hfind, decide_False by done. rewrite Hst in Hin. case_decide as Hss; simpl in Hin.
    + subst s'. apply (ti_top _ HI s). rewrite El. simpl. by apply elem_of_tail.
    + by apply (ti_top _ HI s').
  - intros k' b0. rewrite Hfind. case_decide; [|by apply (ti_flags _ HI)]. intros [= <-]. subst.
    destruct (ti_flags _ HI k' b Hb) as (? & ? & _ & ? & ?). by split_and!.
  - intros id t b1 b2 x1 x2 Ht Hp. rewrite !Hfind.
    assert (forall bb x, (if decide (k = (id, bb)) then Some b' else body_find (id, bb) m) = Some x ->
      exists y, body_find (id, bb) m = Some y) as Hex.
    { intros bb x0. case_decide; [subst; by eauto|by eauto]. }
    intros H1 H2. destruct (Hex _ _ H1), (Hex _ _ H2). by eapply (ti_single _ HI id t).
  - apply (ti_count _ HI).
Qed.

(** Creating a body for a task that has room for it. *)
Definition body_created (id bid flags : Z) (m : tasks) : tasks :=
  set_ts_tasks (alter (fun t => mk_task (task_type_id t) (task_flags t) (task_nbodies t + 1)) id)
    (set_ts_bodies <[(id, bid) := mk_body flags BODY_ST_CREATED None 0]> m).

Lemma body_created_inv id bid flags t m : tasks_inv m -> task_find m id = Some t ->
  body_find (id, bid) m = None -> bid <> 0 ->
  (task_is_parallel t = true \/ task_nbodies t <= 0) ->
  tasks_inv (body_created id bid flags m).
Proof.
  intros HI Ht Hb Hne Hpar. unfold body_created.
  set (b' := mk_body flags BODY_ST_CREATED None 0). set (m1 := set_ts_bodies _ m). set (m2 := set_ts_tasks _ m1).
  assert (forall k', body_find k' m2 = if decide ((id, bid) = k') then Some b' else body_find k' m) as Hfind
    by (intros k'; exact (body_find_put (id, bid) k' b' m)).
  assert (forall id' t', task_find m2 id' = Some t' -> exists t0, task_find m id' = Some t0 /\
    task_is_parallel t' = task_is_parallel t0 /\
    task_nbodies t' = if decide (id = id') then task_nbodies t0 + 1 else task_nbodies t0) as Htask.
  { intros id' t'. unfold task_find; simpl. rewrite lookup_alter. case_decide; [subst|by eauto].
    unfold task_find in Ht. rewrite Ht. intros [= <-]. by exists t. }
  assert (forall id' t0, task_find m id' = Some t0 -> 0 < task_nbodies t0 ->
    exists t', task_find m2 id' = Some t' /\ 0 < task_nbodies t') as Hfwd.
  { intros id' t0 H0 Hp. unfold task_find; simpl. rewrite lookup_alter. case_decide; [subst|by eauto].
    unfold task_find in H0. rewrite H0. eexists. split; [done|]. simpl. lia. }
  split.
  - intros s k' Hin. destruct (ti_stack _ HI s k' Hin) as (b0 & ? & ? & ?). exists b0.
    rewrite Hfind, decide_False; [done|]. intros <-. congruence.
  - intros k' b0. rewrite Hfind. case_decide; [|by apply (ti_body _ HI)].
    intros [= <-]. right. split; [by intros []|done].
  - apply (ti_nodup _ HI).
  - intros s k' b0 Hin. rewrite Hfind. case_decide; [by intros [= <-]|by apply (ti_top _ HI s)].
  - intros k' b0. rewrite Hfind. case_decide as Hk.
    + intros [= <-]. subst. simpl. split_and!; try done. unfold task_find; simpl.
      rewrite lookup_alter_eq. unfold task_find in Ht. rewrite Ht. eexists. split; [done|]. simpl.
      pose proof (ti_count _ HI id t Ht). lia.
    + intros Hb0. destruct (ti_flags _ HI k' b0 Hb0) as (? & ? & ? & ? & t0 & Ht0 & Hp). split_and!; try done.
      by apply (Hfwd k'.1 t0).
  - intros id' t' b1 b2 x1 x2 Ht' Hp'. destruct (Htask id' t' Ht') as (t0 & Ht0 & Ep & _). rewrite Ep in Hp'.
    assert (id' = id -> forall bb x, body_find (id, bb) m = Some x -> False) as Hnone.
    { intros -> bb x Hx. assert (t0 = t) as -> by congruence.
      destruct (ti_flags _ HI _ _ Hx) as (_ & _ & _ & _ & t1 & Ht1 & Hpos). simpl in Ht1.
      assert (t1 = t) as -> by congruence. destruct Hpar; [congruence|lia]. }
    rewrite !Hfind. repeat case_decide; intros; simplify_eq; try done.
    + by destruct (Hnone eq_refl b2 x2).
    + by destruct (Hnone eq_refl b1 x1).
    + by eapply (ti_single _ HI id' t0).
  - intros id' t' Ht'. destruct (Htask id' t' Ht') as (t0 & Ht0 & _ & ->).
    pose proof (ti_count _ HI id' t0 Ht0). case_decide; lia.
Qed.

(** ** The operations as a whole *)

Inductive task_op :=
| OpType (type_id : Z) (label : string)
| OpCreate (type_id task_id flags : Z)
| OpExecute (s : nat) (task_id body_id : Z)
| OpPause (s : nat) (task_id body_id : Z)
| OpResume (s : nat) (task_id body_id : Z)
| OpEnd (s : nat) (task_id body_id : Z).

Definition run_task_op (op : task_op) : M tasks unit :=
  match op with
  | OpType ty label => task_type_create ty label
  | OpCreate ty id flags => task_create ty id flags
  | OpExecute s id b => task_execute s id b
  | OpPause s id b => task_pause s id b
  | OpResume s id b => task_resume s id b
  | OpEnd s id b => task_end s id b
  end.

(** The life of a body: [None] before it is created. *)
Inductive body_step : option body -> option body -> Prop :=
| bs_create flags : body_step None (Some (mk_body flags BODY_ST_CREATED None 0))
| bs_start b s : body_st b = BODY_ST_CREATED -> body_stack b = None ->
    body_step (Some b) (Some (mk_body (body_flags b) BODY_ST_RUNNING (Some s) (body_iteration b)))
| bs_pause b : body_st b = BODY_ST_RUNNING -> body_can_pause b = true ->
    body_step (Some b) (Some (with_state BODY_ST_PAUSED b))
| bs_resume b : body_st b = BODY_ST_PAUSED -> body_step (Some b) (Some (with_state BODY_ST_RUNNING b))
| bs_end b : body_st b = BODY_ST_RUNNING ->
    body_step (Some b) (Some (mk_body (body_flags b) BODY_ST_DEAD None (body_iteration b)))
| bs_revive b : body_st b = BODY_ST_DEAD -> body_can_resurrect b = true ->
    body_step (Some b) (Some (revived b)).

(** What an operation on body [k] and stack [s] may change. *)
Definition body_effect (s : nat) (k : bref) (m m' : tasks) : Prop :=
  (forall k', k' <> k -> body_find k' m' = body_find k' m) /\
  rtc body_step (body_find k m) (body_find k m') /\
  (forall s', s' <> s -> stack_of m' s' = stack_of m s').

Lemma body_effect_refl s k m : body_effect s k m m.
Proof. by split_and!. Qed.

Lemma body_effect_trans s k m1 m2 m3 : body_effect s k m1 m2 -> body_effect s k m2 m3 -> body_effect s k m1 m3.
Proof.
  intros (F1 & R1 & S1) (F2 & R2 & S2). split_and!.
  - intros k' Hk'. by rewrite F2, F1.
  - by etransitivity.
  - intros s' Hs'. by rewrite S2, S1.
Qed.

Lemma body_effect_put s k b b' m : body_find k m = Some b -> body_step (Some b) (Some b') ->
  body_effect s k m (set_ts_bodies <[k := b']> m).
Proof.
  intros Hb Hst. split_and!.
  - intros k' Hk'. rewrite body_find_put. by rewrite decide_False.
  - rewrite body_find_put, decide_True, Hb by done. by apply rtc_once.
  - done.
Qed.

Lemma body_effect_stack s k m f :
  body_effect s k m (set_ts_stacks (fun st => <[s := f st]> st) m).
Proof.
  split_and!; [done|done|]. intros s' Hs'. rewrite stack_of_set. by rewrite decide_False.
Qed.

Definition op_result (s : nat) (k : bref) (m : tasks) (r : outcome unit * tasks) : Prop :=
  tasks_inv r.2 /\ body_effect s k m r.2.

Lemma body_execute_result s k b m : tasks_inv m -> body_find k m = Some b ->
  op_result s k m (body_execute s k m).
Proof.
  intros HI Hb. destruct (ti_flags _ HI k b Hb) as (_ & Hit & _ & _ & _).
  assert (body_st b = BODY_ST_DEAD -> body_can_resurrect b = true ->
    tasks_inv (set_ts_bodies <[k := revived b]> m) /\ body_effect s k m (set_ts_bodies <[k := revived b]> m)) as Hrev.
  { intros Hd Hr. split; [|apply (body_effect_put s k b); [done|by apply bs_revive]].
    apply (change_body_inv m k b); try done; simpl.
    - rewrite Hd. split; by intros [].
    - lia.
    - unfold body_can_resurrect in *; simpl. congruence. }
  destruct (body_execute_cases s k b m Hb) as [->|[(Hd & Hr & ->)|(b1 & -> & Hs & Hst & Hn)]].
  - split; [done|apply body_effect_refl].
  - by apply Hrev.
  - assert (tasks_inv (set_ts_bodies <[k := b1]> m) /\ body_effect s k m (set_ts_bodies <[k := b1]> m) /\
      body_stack b1 = None /\ body_st b1 = BODY_ST_CREATED) as (HI1 & He1 & Hs1 & Hc1).
    { destruct Hst as [[Hc ->]|(Hd & Hr & ->)].
      - replace (set_ts_bodies <[k := b]> m) with m; [split_and!; [done|apply body_effect_refl|done|done]|].
        destruct m; unfold set_ts_bodies; simpl in *. by rewrite insert_id.
      - destruct (Hrev Hd Hr). by split_and!. }
    assert (body_find k (set_ts_bodies <[k := b1]> m) = Some b1) as Hb1
      by (by rewrite body_find_put, decide_True).
    assert (executed s k b1 m = executed s k b1 (set_ts_bodies <[k := b1]> m)) as ->.
    { unfold executed. by rewrite set_bodies_twice. }
    split; [by apply executed_inv|]. eapply body_effect_trans; [exact He1|].
    eapply body_effect_trans; [|apply body_effect_stack].
    apply (body_effect_put s k b1); [done|]. by apply bs_start.
Qed.

(** The three operations on a running or paused body share their shape. *)
Lemma body_pause_result s k b m : tasks_inv m -> body_find k m = Some b ->
  op_result s k m (body_pause s k m).
Proof.
  intros HI Hb. destruct (ti_flags _ HI k b Hb) as (_ & Hit & Hp & Hr & _).
  assert (op_result s k m (Err, m)) as Hsame by (split; [done|apply body_effect_refl]).
  unfold body_pause. rewrite (mbind_run _ _ _ _ _ (load_body_run k b m Hb)).
  rewrite mbind_require. destruct (body_can_pause b) eqn:Hcan; [|done].
  rewrite mbind_require. case_bool_decide as Hrun; [|done].
  destruct (on_top_cases s k b m) as [E|(E & Hs & Ht)]; [unfold mbind; by rewrite E|].
  rewrite (mbind_run _ _ _ _ _ E). split.
  - apply (change_body_inv m k b); try done; simpl. rewrite Hrun. split; intros _; [by left|by right].
  - by apply (body_effect_put s k b); [|apply bs_pause].
Qed.

Lemma body_resume_result s k b m : tasks_inv m -> body_find k m = Some b ->
  op_result s k m (body_resume s k m).
Proof.
  intros HI Hb. destruct (ti_flags _ HI k b Hb) as (_ & Hit & Hp & Hr & _).
  assert (op_result s k m (Err, m)) as Hsame by (split; [done|apply body_effect_refl]).
  unfold body_resume. rewrite (mbind_run _ _ _ _ _ (load_body_run k b m Hb)).
  rewrite mbind_require. case_bool_decide as Hpa; [|done].
  destruct (on_top_cases s k b m) as [E|(E & Hs & Ht)]; [unfold mbind; by rewrite E|].
  rewrite (mbind_run _ _ _ _ _ E). split.
  - apply (change_body_inv m k b); try done; simpl.
    + rewrite Hpa. split; intros _; [by right|by left].
    + intros _ s' Hs'. right. congruence.
  - by apply (body_effect_put s k b); [|apply bs_resume].
Qed.

Lemma body_end_result s k b m : tasks_inv m -> body_find k m = Some b ->
  op_result s k m (body_end s k m).
Proof.
  intros HI Hb.
  assert (op_result s k m (Err, m)) as Hsame by (split; [done|apply body_effect_refl]).
  unfold body_end. rewrite (mbind_run _ _ _ _ _ (load_body_run k b m Hb)).
  rewrite mbind_require. case_bool_decide as Hrun; [|done].
  destruct (on_top_cases s k b m) as [E|(E & Hs & Ht)]; [unfold mbind; by rewrite E|].
  rewrite (mbind_run _ _ _ _ _ E). split.
  - by apply (ended_inv s k b m).
  - simpl. eapply body_effect_trans; [apply (body_effect_stack s k m)|].
    by apply (body_effect_put s k b); [|apply bs_end].
Qed.

Lemma task_execute_result s id bid m : tasks_inv m ->
  op_result s (id, bid) m (task_execute s id bid m).
Proof.
  intros HI. assert (op_result s (id, bid) m (Err, m)) as Hsame by (split; [done|apply body_effect_refl]).
  unfold task_execute. rewrite (mbind_run _ _ _ m m) by done.
  destruct (task_find m id) as [t|] eqn:Ht; [|done]. rewrite (mbind_run _ _ _ t m) by done.
  destruct (body_find (id, bid) m) as [b|] eqn:Hb.
  { rewrite (mbind_run _ _ _ tt m) by done. by apply (body_execute_result s (id, bid) b). }
  destruct (negb (task_is_parallel t) && (0 <? task_nbodies t)) eqn:Hroom.
  { unfold create_body, mbind. by rewrite Hroom. }
  destruct (Z.eqb_spec bid 0) as [->|Hne].
  { unfold create_body, mbind, body_create. by rewrite Hroom. }
  assert (exists flags, create_body id t bid m = (Ok tt, body_created id bid flags m)) as [flags E].
  { unfold create_body, body_create, body_created. rewrite Hroom. eexists.
    unfold mbind, mget. rewrite !require_run. simpl. rewrite (proj2 (Z.eqb_neq _ _)) by done. simpl.
    rewrite Hb. reflexivity. }
  rewrite (mbind_run _ _ _ _ _ E).
  assert (tasks_inv (body_created id bid flags m)) as HI1.
  { apply (body_created_inv id bid flags t m); try done.
    apply andb_false_iff in Hroom as [Hr|Hr]; [left; by destruct (task_is_parallel t)|right].
    by apply Z.ltb_ge in Hr. }
  set (b := mk_body flags BODY_ST_CREATED None 0).
  assert (body_find (id, bid) (body_created id bid flags m) = Some b) as Hb1.
  { unfold body_created. etransitivity; [apply body_find_put|]. by rewrite decide_True. }
  destruct (body_execute_result s (id, bid) b _ HI1 Hb1) as [HI2 He2]. split; [done|].
  eapply body_effect_trans; [|exact He2]. split_and!.
  - intros k' Hk'. unfold body_created. etransitivity; [apply body_find_put|]. by rewrite decide_False.
  - rewrite Hb, Hb1. apply rtc_once. constructor.
  - done.
Qed.

Lemma task_body_op_result op s id bid m :
  (forall k b, body_find k m = Some b -> op_result s k m (op s k m)) -> tasks_inv m ->
  op_result s (id, bid) m (task_body_op op s id bid m).
Proof.
  intros Hop HI. assert (op_result s (id, bid) m (Err, m)) as Hsame by (split; [done|apply body_effect_refl]).
  unfold task_body_op. rewrite (mbind_run _ _ _ m m) by done.
  destruct (task_find m id) as [t|]; [|done]. rewrite (mbind_run _ _ _ t m) by done.
  destruct (body_find (id, bid) m) as [b|] eqn:Hb; [|done]. rewrite (mbind_run _ _ _ b m) by done.
  by apply (Hop _ b).
Qed.

Lemma task_create_result ty id flags m : tasks_inv m ->
  tasks_inv (task_create ty id flags m).2 /\ ts_bodies (task_create ty id flags m).2 = ts_bodies m /\
  ts_stacks (task_create ty id flags m).2 = ts_stacks m.
Proof.
  intros HI. unfold task_create. rewrite (mbind_run _ _ _ m m) by done.
  destruct (task_find m id) as [t|] eqn:Ht; [done|].
  destruct (task_type_find m ty) as [tty|]; [|done]. rewrite (mbind_run _ _ _ tty m) by done.
  split; [|done]. unfold mmod; simpl.
  assert (forall id' t', task_find (set_ts_tasks <[id := mk_task ty flags 0]> m) id' = Some t' ->
    (id' = id /\ t' = mk_task ty flags 0) \/ (id' <> id /\ task_find m id' = Some t')) as Hcases.
  { intros id' t'. unfold task_find; simpl. rewrite lookup_insert. case_decide; [intros [= <-]|]; naive_solver. }
  split; try apply HI.
  - intros k b Hb. destruct (ti_flags _ HI k b Hb) as (? & ? & ? & ? & t & Ht' & ?). split_and!; try done.
    exists t. split; [|done]. unfold task_find; simpl. rewrite lookup_insert_ne; [done|]. intros ->.
    unfold task_find in *. congruence.
  - intros id' t b1 b2 x1 x2 Ht' Hp H1 H2. destruct (Hcases id' t Ht') as [[-> ->]|[? Ht0]].
    + destruct (ti_flags _ HI _ _ H1) as (_ & _ & _ & _ & t0 & Ht0 & _). simpl in Ht0. congruence.
    + by eapply (ti_single _ HI id' t).
  - intros id' t Ht'. destruct (Hcases id' t Ht') as [[-> ->]|[? Ht0]]; simpl; [lia|by apply (ti_count _ HI id')].
Qed.

Lemma task_type_create_result ty label m : tasks_inv m ->
  tasks_inv (task_type_create ty label m).2 /\ ts_bodies (task_type_create ty label m).2 = ts_bodies m /\
  ts_stacks (task_type_create ty label m).2 = ts_stacks m.
Proof.
  intros HI. unfold task_type_create. rewrite (mbind_run _ _ _ m m) by done.
  destruct (find_key tt_id ty (ts_types m)); [done|]. rewrite mbind_require. case_match; [|done].
  rewrite mbind_require. case_match; [|done]. split; [|done]. by destruct HI; split.
Qed.

Lemma run_task_op_inv op m : tasks_inv m -> tasks_inv (run_task_op op m).2.
Proof.
  intros HI. destruct op; simpl.
  - by apply task_type_create_result.
  - by apply task_create_result.
  - by apply task_execute_result.
  - apply task_body_op_result; [|done]. intros. by eapply body_pause_result.
  - apply task_body_op_result; [|done]. intros. by eapply body_resume_result.
  - apply task_body_op_result; [|done]. intros. by eapply body_end_result.
Qed.

(** The body and the stack an operation may touch. *)
Definition op_target (op : task_op) : option (nat * bref) :=
  match op with
  | OpType _ _ | OpCreate _ _ _ => None
  | OpExecute s id b | OpPause s id b | OpResume s id b | OpEnd s id b => Some (s, (id, b))
  end.

Lemma run_task_op_life op m : tasks_inv m ->
  let m' := (run_task_op op m).2 in
  (forall k, (forall s, op_target op <> Some (s, k)) -> body_find k m' = body_find k m) /\
  (forall k, rtc body_step (body_find k m) (body_find k m')) /\
  (forall s, (forall k, op_target op <> Some (s, k)) -> stack_of m' s = stack_of m s).
Proof.
  intros HI.
  assert (forall s k r, op_target op = Some (s, k) -> op_result s k m r ->
    (forall k', (forall s', op_target op <> Some (s', k')) -> body_find k' r.2 = body_find k' m) /\
    (forall k', rtc body_step (body_find k' m) (body_find k' r.2)) /\
    (forall s', (forall k', op_target op <> Some (s', k')) -> stack_of r.2 s' = stack_of m s')) as Hbody.
  { intros s k r Ht [_ (F & R & S)]. rewrite Ht. split_and!.
    - intros k' Hk'. apply F. intros ->. by apply (Hk' s).
    - intros k'. destruct (decide (k' = k)) as [->|Hne]; [done|]. by rewrite F.
    - intros s' Hs'. apply S. intros ->. by apply (Hs' k). }
  destruct op; simpl in *.
  - destruct (task_type_create_result type_id label m HI) as (_ & Eb & Es).
    unfold body_find, stack_of. rewrite Eb, Es. by split_and!.
  - destruct (task_create_result type_id task_id flags m HI) as (_ & Eb & Es).
    unfold body_find, stack_of. rewrite Eb, Es. by split_and!.
  - eapply Hbody; [done|]. by apply task_execute_result.
  - eapply Hbody; [done|]. apply task_body_op_result; [|done]. intros. by eapply body_pause_result.
  - eapply Hbody; [done|]. apply task_body_op_result; [|done]. intros. by eapply body_resume_result.
  - eapply Hbody; [done|]. apply task_body_op_result; [|done]. intros. by eapply body_end_result.
Qed.

(** C9. No operation on tasks, whatever its arguments and outcome, breaks the
    invariant: stacks and bodies agree, only bodies that relax nesting run below
    a top, and a task that is not parallel never has two bodies. *)
Theorem task_ops_keep_inv op m : tasks_inv m -> tasks_inv (run_task_op op m).2.
Proof. apply run_task_op_inv. Qed.

(** C10. Refinement of the life of a body: on every outcome an operation moves
    at most its own body, along created, running, paused and dead, and changes
    at most its own stack. *)
Theorem task_ops_follow_life op m : tasks_inv m ->
  let m' := (run_task_op op m).2 in
  (forall k, (forall s, op_target op <> Some (s, k)) -> body_find k m' = body_find k m) /\
  (forall k, rtc body_step (body_find k m) (body_find k m')) /\
  (forall s, (forall k, op_target op <> Some (s, k)) -> stack_of m' s = stack_of m s).
Proof. apply run_task_op_life. Qed.

(** C11. Without relaxed nesting a stack has at most one running body, and it is
    the one [body_get_running] finds at its top. *)
Theorem running_body_unique m s k b : tasks_inv m ->
  body_find k m = Some b -> body_stack b = Some s -> body_st b = BODY_ST_RUNNING ->
  has_flag (body_flags b) BODY_FLAG_RELAX_NESTING = false ->
  body_get_running s m = Some k.
Proof.
  intros HI Hb Hs Hr Hf. destruct (ti_body _ HI k b Hb) as [(_ & s' & Hs' & Hin)|[Ho _]]; [|by destruct Ho; left].
  assert (s' = s) as -> by congruence. unfold body_get_running, body_get_top.
  pose proof (ti_top _ HI s k b) as Htop. destruct (stack_of m s) as [|x l] eqn:El; [by apply elem_of_nil in Hin|].
  apply elem_of_cons in Hin as [->|Hin].
  - simpl. rewrite Hb. by rewrite bool_decide_true.
  - specialize (Htop Hin Hb Hr). congruence.
Qed.

(** A successful execution leaves the body on top of its stack, running. *)
Lemma task_execute_run s id bid m m1 : task_execute s id bid m = (Ok tt, m1) ->
  exists b, body_find (id, bid) m1 = Some b /\ body_st b = BODY_ST_RUNNING /\ body_stack b = Some s /\
    stack_of m1 s = (id, bid) :: stack_of m s /\ is_Some (task_find m1 id).
Proof.
  intros E.
  assert (exists b m0, body_find (id, bid) m0 = Some b /\ is_Some (task_find m0 id) /\
    stack_of m0 s = stack_of m s /\ body_execute s (id, bid) m0 = (Ok tt, m1)) as (b & m0 & Hb & Ht & Hst & E1).
  { unfold task_execute in E. rewrite (mbind_run _ _ _ m m) in E by done.
    destruct (task_find m id) as [t|] eqn:Ht; [|done]. rewrite (mbind_run _ _ _ t m) in E by done.
    destruct (body_find (id, bid) m) as [b|] eqn:Hb.
    - exists b, m. split_and!; [done|by eexists|done|exact E].
    - apply mbind_Ok in E as ([] & m0 & E0 & E). unfold create_body in E0.
      destruct (_ && _) in E0; [done|]. apply mbind_Ok in E0 as ([] & m' & E0 & E2). injection E2 as <-.
      unfold body_create in E0. rewrite mbind_require in E0. case_match; [|done].
      rewrite (mbind_run _ _ _ m m), Hb in E0 by done. injection E0 as <-.
      match type of E with body_execute _ _ ?mm = _ => eexists _, mm end.
      split_and!; [etransitivity; [apply body_find_put|by rewrite decide_True]| |done|exact E].
      unfold task_find; simpl. rewrite lookup_alter_eq. unfold task_find in Ht. rewrite Ht. by eexists. }
  destruct (body_execute_cases s (id, bid) b m0 Hb) as [E2|[(_ & _ & E2)|(b1 & E2 & _ & _ & _)]];
    rewrite E2 in E1; simplify_eq.
  eexists. split_and!; [etransitivity; [apply body_find_put|by rewrite decide_True]|done|done| |done].
  etransitivity; [apply (stack_of_set s s (fun st => (id, bid) :: default [] (st !! s)))|].
  rewrite decide_True by done. change ((id, bid) :: stack_of m0 s = (id, bid) :: stack_of m s). by rewrite Hst.
Qed.

(** C12. Running a body to its end gives the stack back: after a successful
    execution the body is the running one, and ending it then succeeds and
    leaves the stack as it was before. *)
Theorem task_execute_end s id bid m m1 : tasks_inv m ->
  task_execute s id bid m = (Ok tt, m1) ->
  task_get_running s m1 = Some (id, bid) /\
  exists m2, task_end s id bid m1 = (Ok tt, m2) /\ stack_of m2 s = stack_of m s /\
    exists b, body_find (id, bid) m2 = Some b /\ body_st b = BODY_ST_DEAD.
Proof.
  intros HI E. set (k := (id, bid)).
  destruct (task_execute_run s id bid m m1 E) as (rb & Hb1 & Hrun & Hstk & Hs1 & Ht). fold k in Hb1, Hs1.
  assert (body_get_top s m1 = Some k) as Htop by (unfold body_get_top; by rewrite Hs1).
  split.
  { unfold task_get_running, body_get_running. rewrite Htop, Hb1. by rewrite bool_decide_true. }
  exists (ended s k rb m1). split_and!.
  - unfold task_end, task_body_op. rewrite (mbind_run _ _ _ m1 m1) by done.
    destruct Ht as [t Ht1]. rewrite Ht1, (mbind_run _ _ _ t m1) by done.
    fold k. rewrite Hb1, (mbind_run _ _ _ rb m1) by done. unfold body_end.
    rewrite (mbind_run _ _ _ _ _ (load_body_run k rb m1 Hb1)). rewrite mbind_require.
    rewrite bool_decide_true by done.
    assert (on_top s k rb m1 = (Ok tt, m1)) as Eon.
    { unfold on_top. unfold mbind, mget. rewrite !require_run, Hstk. simpl. by rewrite !bool_decide_true. }
    by rewrite (mbind_run _ _ _ _ _ Eon).
  - etransitivity; [apply (stack_of_set s s (fun st => tail (default [] (st !! s))) m1)|].
    rewrite decide_True by done. change (tail (stack_of m1 s) = stack_of m s). by rewrite Hs1.
  - eexists. split; [etransitivity; [apply body_find_put|by rewrite decide_True]|done].
Qed.

(** ** Evaluated examples *)

Definition demo_tasks1 : tasks := (run_task_op (OpType 1 "main") empty_tasks).2.
Definition demo_tasks : tasks := (run_task_op (OpCreate 1 10 TASK_FLAG_PAUSE) demo_tasks1).2.

Lemma demo_tasks_inv : tasks_inv demo_tasks.
Proof.
  apply task_create_result. unfold demo_tasks1. apply task_type_create_result, empty_tasks_inv.
Qed.

Lemma task_ops_keep_inv_witness : tasks_inv (run_task_op (OpExecute 0 10 1) demo_tasks).2 /\
  (run_task_op (OpExecute 0 10 1) demo_tasks).1 = Ok tt.
Proof.
  split; [exact (task_ops_keep_inv (OpExecute 0 10 1) demo_tasks demo_tasks_inv)|vm_compute; reflexivity].
Defined.

Lemma task_ops_follow_life_witness :
  let m' := (run_task_op (OpExecute 0 10 1) demo_tasks).2 in
  rtc body_step (body_find (10, 1) demo_tasks) (body_find (10, 1) m') /\
  stack_of m' 0 = [(10, 1)].
Proof.
  split; [|vm_compute; reflexivity].
  exact (proj1 (proj2 (task_ops_follow_life (OpExecute 0 10 1) demo_tasks demo_tasks_inv)) (10, 1)).
Defined.

Lemma running_body_unique_witness :
  body_get_running 0 (run_task_op (OpExecute 0 10 1) demo_tasks).2 = Some (10, 1).
Proof.
  apply (running_body_unique (run_task_op (OpExecute 0 10 1) demo_tasks).2 0 (10, 1)
    (mk_body BODY_FLAG_PAUSE BODY_ST_RUNNING (Some 0%nat) 0));
    [|vm_compute; reflexivity..].
  apply (task_execute_result 0 10 1), demo_tasks_inv.
Defined.

Lemma task_execute_end_witness : exists m1 m2,
  task_execute 0 10 1 demo_tasks = (Ok tt, m1) /\ task_end 0 10 1 m1 = (Ok tt, m2) /\ stack_of m2 0 = [].
Proof.
  exists (task_execute 0 10 1 demo_tasks).2.
  destruct (task_execute_end 0 10 1 demo_tasks (task_execute 0 10 1 demo_tasks).2 demo_tasks_inv)
    as (_ & m2 & E & Hs & _); [vm_compute; reflexivity|].
  exists m2. split; [vm_compute; reflexivity|]. split; [exact E|]. rewrite Hs. vm_compute. reflexivity.
Defined.
