(* ===== verification/Heap.v ===== *)
(** * The emulator's memory

    One record holds the objects the emulator keeps and shares by pointer:
    channels, the patch bay with its callbacks, multiplexers, sorters,
    Paraver streams, threads, CPUs and processes.  A pointer to an object is
    the key under which its store holds it (channels: [addr]; the channel of
    the bay: its unique name).  The C structures are the records below; a
    field the modelled code never reads is left out. *)

From S2P Require Import Prelude Chan Pcf Task.

(** ** Patch bay (bay.h) *)

Inductive bay_cb_type := BAY_CB_DIRTY | BAY_CB_EMIT.
Inductive bay_state := BAY_UKNOWN | BAY_READY | BAY_PROPAGATING | BAY_EMITTING | BAY_FLUSHING.

#[export] Instance bay_cb_type_eq_dec : EqDecision bay_cb_type.
Proof. solve_decision. Defined.
#[export] Instance bay_state_eq_dec : EqDecision bay_state.
Proof. solve_decision. Defined.

(** The callback functions of the program, with their argument: the callbacks
    of the bay are one of these pairs. *)
Inductive bay_cb_func :=
| FnSelect (mux : nat)                (* cb_select of mux.c *)
| FnInput (mux : nat) (index : Z)     (* cb_input of mux.c, a mux_input *)
| FnSort (sort : nat) (index : Z)     (* sort_cb_input of sort.c, a sort_input *)
| FnPrv (prv : nat) (id : Z).         (* cb_prv of prv.c, a prv_chan *)

#[export] Instance bay_cb_func_eq_dec : EqDecision bay_cb_func.
Proof. solve_decision. Defined.

Record bay_cb := mk_bay_cb {
  cb_func : bay_cb_func;
  cb_bchan : string;
  cb_enabled : bool;
  cb_type : bay_cb_type
}.

Record bay_chan := mk_bay_chan {
  bc_chan : addr;
  bc_ncb_dirty : Z; bc_ncb_emit : Z;            (* ncallbacks[] *)
  bc_cb_dirty : list nat; bc_cb_emit : list nat; (* cb[], in list order *)
  bc_is_dirty : bool
}.

Record bay := mk_bay {
  b_state : bay_state;
  b_channels : gmap string bay_chan;
  b_dirty : list string            (* the dirty list, in order *)
}.

(** ** Multiplexers (mux.h) *)

(** The select functions a mux may carry: those of thread.c, and those of the
    breakdown views of nosv and nanos6 (with the constant each compares with)
    and openmp (with the indices of its two inputs). *)
Inductive mux_select_func :=
| SelThreadActive
| SelThreadRunning
| SelTr (task_body : Z)
| SelIdle (progressing : Z)
| SelMux0 (label subsystem : Z).

Record mux_input := mk_mux_input {
  mi_index : Z;
  mi_chan : option addr;
  mi_selected : bool;
  mi_output : option addr;
  mi_cb : option nat
}.
Definition mux_input_zero : mux_input := mk_mux_input 0 None false None None.

Record mux := mk_mux {
  m_ninputs : Z;
  m_selected : Z;
  m_inputs : list mux_input;
  m_select_func : option mux_select_func;
  m_select : addr;
  m_output : addr;
  m_def : value
}.

(** ** Sorters (sort.h): output [i] is the channel [Addr (OwnSort s) i] *)

Record sort_input := mk_sort_input { si_index : Z; si_chan : option addr }.

Record sort := mk_sort {
  s_n : Z;
  s_inputs : list sort_input;
  s_values : list Z;
  s_sorted : list Z;
  s_copied : bool
}.

(** ** Paraver streams (pv/prv.h): [p_lines] are the lines written so far *)

Record prv_line := mk_prv_line {
  pl_row : Z; pl_time : Z; pl_type : Z; pl_value : Z
}.

Record prv_chan := mk_prv_chan {
  rc_chan : addr;
  rc_row_base1 : Z;
  rc_type : Z;
  rc_flags : Z;
  rc_last_value_set : bool;
  rc_last_value : value
}.

Record prv := mk_prv {
  p_time : Z;
  p_nrows : Z;
  p_channels : gmap Z prv_chan;
  p_lines : list prv_line
}.

(** ** Threads, CPUs, processes and looms *)

Inductive thread_state :=
| TH_ST_UNKNOWN | TH_ST_RUNNING | TH_ST_PAUSED | TH_ST_DEAD | TH_ST_COOLING | TH_ST_WARMING.

#[export] Instance thread_state_eq_dec : EqDecision thread_state.
Proof. solve_decision. Defined.

(** Values of the C enumerators. *)
Definition thread_state_Z (st : thread_state) : Z :=
  match st with
  | TH_ST_UNKNOWN => 0 | TH_ST_RUNNING => 1 | TH_ST_PAUSED => 2
  | TH_ST_DEAD => 3 | TH_ST_COOLING => 4 | TH_ST_WARMING => 5
  end.

Definition TH_CHAN_CPU : nat := 0.
Definition TH_CHAN_TID : nat := 1.
Definition TH_CHAN_STATE : nat := 2.

Record thread := mk_thread {
  t_gindex : Z;
  t_tid : Z;
  t_proc : nat;
  t_state : thread_state;
  t_is_running : bool;
  t_is_active : bool;
  t_is_out_of_cpu : bool;
  t_cpu : option nat;
  t_has_meta : bool;               (* meta != NULL *)
  t_is_init : bool
}.

Definition CPU_CHAN_NRUN : nat := 0.
Definition CPU_CHAN_PID : nat := 1.
Definition CPU_CHAN_TID : nat := 2.
Definition CPU_CHAN_THRUN : nat := 3.
Definition CPU_CHAN_THACT : nat := 4.

Record cpu := mk_cpu {
  cpu_gindex : Z;
  cpu_loom : option nat;
  cpu_index : Z;
  cpu_phyid : Z;
  cpu_is_virtual : bool;
  cpu_is_init : bool;
  cpu_nthreads : Z;
  cpu_nth_running : Z;
  cpu_nth_active : Z;
  cpu_threads : list nat;          (* list of threads assigned, in order *)
  cpu_th_running : option nat;
  cpu_th_active : option nat
}.

Record proc := mk_proc {
  proc_gindex : Z;
  proc_is_init : bool;
  proc_pid : Z;
  proc_appid : Z;
  proc_rank : Z;
  proc_nranks : Z;
  proc_nthreads : Z;
  proc_threads : list (Z * nat);   (* hash table by tid, in list order *)
  proc_loom : nat
}.

Record loom := mk_loom {
  loom_gindex : Z;
  loom_is_init : bool;
  loom_name : string;
  loom_hostname : string;
  loom_ncpus : Z;
  loom_rank_enabled : bool;
  loom_rank_min : Z;
  loom_clock_offset : Z;
  loom_cpus : list (Z * nat);      (* hash table by phyid, in list order *)
  loom_cpus_array : option (list (option nat));   (* NULL until populated *)
  loom_vcpu : nat;
  loom_nprocs : Z;
  loom_procs : list (Z * nat)      (* hash table by pid, in list order *)
}.

(** ** The ovni model (ovni/ovni_priv.h, ovni/mark.h) *)

(** [struct ovni_thread], less its channels; [burst_time] holds the [nbursts]
    entries in use. *)
Record ovni_thread := mk_ovni_thread {
  nbursts : Z;
  burst_time : list Z;
  flush_start : Z
}.

Record mark_type := mk_mark_type {
  mk_type : Z;
  mk_prvtype : Z;
  mk_index : Z;
  mk_ctype : chan_type;
  mk_labels : list (Z * string);
  mk_title : string
}.

(** [struct ovni_mark_emu]. *)
Record ovni_mark_emu := mk_ovni_mark_emu {
  mark_types : list mark_type;     (* hash table by type, in list order *)
  mark_ntypes : Z
}.

(** ** Hardware counters of the nOS-V model (nosv/hwc.h) *)

(** [values] has no length of its own: [n] entries, allocated in [hwc_create]. *)
Record nosv_hwc_emu := mk_nosv_hwc_emu {
  hwc_name : list (option string);
  hwc_n : Z;
  hwc_values : list Z
}.

(** ** The heap *)

Record heap := mk_heap {
  h_chan : gmap addr chan;
  h_bay : bay;
  h_cb : gmap nat bay_cb;
  h_mux : gmap nat mux;
  h_sort : gmap nat sort;
  h_prv : gmap nat prv;
  h_thread : gmap nat thread;
  h_cpu : gmap nat cpu;
  h_proc : gmap nat proc;
  h_loom : gmap nat loom;
  h_ovni : gmap nat ovni_thread;   (* EXT(thread, 'O') *)
  h_mark : ovni_mark_emu;          (* EXT(emu, 'O')->mark *)
  h_tasks : gmap (Z * nat) tasks;  (* EXT(proc, model)->task_info, and the task
                                      stacks of its threads, EXT(thread, model) *)
  h_hwc : nosv_hwc_emu             (* EXT(emu, 'V')->hwc *)
}.

Definition set_h_chan f (h : heap) : heap :=
  mk_heap (f (h_chan h)) (h_bay h) (h_cb h) (h_mux h) (h_sort h) (h_prv h)
    (h_thread h) (h_cpu h) (h_proc h) (h_loom h) (h_ovni h) (h_mark h) (h_tasks h) (h_hwc h).
Definition set_h_bay f (h : heap) : heap :=
  mk_heap (h_chan h) (f (h_bay h)) (h_cb h) (h_mux h) (h_sort h) (h_prv h)
    (h_thread h) (h_cpu h) (h_proc h) (h_loom h) (h_ovni h) (h_mark h) (h_tasks h) (h_hwc h).
Definition set_h_cb f (h : heap) : heap :=
  mk_heap (h_chan h) (h_bay h) (f (h_cb h)) (h_mux h) (h_sort h) (h_prv h)
    (h_thread h) (h_cpu h) (h_proc h) (h_loom h) (h_ovni h) (h_mark h) (h_tasks h) (h_hwc h).
Definition set_h_mux f (h : heap) : heap :=
  mk_heap (h_chan h) (h_bay h) (h_cb h) (f (h_mux h)) (h_sort h) (h_prv h)
    (h_thread h) (h_cpu h) (h_proc h) (h_loom h) (h_ovni h) (h_mark h) (h_tasks h) (h_hwc h).
Definition set_h_sort f (h : heap) : heap :=
  mk_heap (h_chan h) (h_bay h) (h_cb h) (h_mux h) (f (h_sort h)) (h_prv h)
    (h_thread h) (h_cpu h) (h_proc h) (h_loom h) (h_ovni h) (h_mark h) (h_tasks h) (h_hwc h).
Definition set_h_prv f (h : heap) : heap :=
  mk_heap (h_chan h) (h_bay h) (h_cb h) (h_mux h) (h_sort h) (f (h_prv h))
    (h_thread h) (h_cpu h) (h_proc h) (h_loom h) (h_ovni h) (h_mark h) (h_tasks h) (h_hwc h).
Definition set_h_thread f (h : heap) : heap :=
  mk_heap (h_chan h) (h_bay h) (h_cb h) (h_mux h) (h_sort h) (h_prv h)
    (f (h_thread h)) (h_cpu h) (h_proc h) (h_loom h) (h_ovni h) (h_mark h) (h_tasks h) (h_hwc h).
Definition set_h_cpu f (h : heap) : heap :=
  mk_heap (h_chan h) (h_bay h) (h_cb h) (h_mux h) (h_sort h) (h_prv h)
    (h_thread h) (f (h_cpu h)) (h_proc h) (h_loom h) (h_ovni h) (h_mark h) (h_tasks h) (h_hwc h).
Definition set_h_proc f (h : heap) : heap :=
  mk_heap (h_chan h) (h_bay h) (h_cb h) (h_mux h) (h_sort h) (h_prv h)
    (h_thread h) (h_cpu h) (f (h_proc h)) (h_loom h) (h_ovni h) (h_mark h) (h_tasks h) (h_hwc h).
Definition set_h_loom f (h : heap) : heap :=
  mk_heap (h_chan h) (h_bay h) (h_cb h) (h_mux h) (h_sort h) (h_prv h)
    (h_thread h) (h_cpu h) (h_proc h) (f (h_loom h)) (h_ovni h) (h_mark h) (h_tasks h) (h_hwc h).
Definition set_h_ovni f (h : heap) : heap :=
  mk_heap (h_chan h) (h_bay h) (h_cb h) (h_mux h) (h_sort h) (h_prv h)
    (h_thread h) (h_cpu h) (h_proc h) (h_loom h) (f (h_ovni h)) (h_mark h) (h_tasks h) (h_hwc h).
Definition set_h_mark f (h : heap) : heap :=
  mk_heap (h_chan h) (h_bay h) (h_cb h) (h_mux h) (h_sort h) (h_prv h)
    (h_thread h) (h_cpu h) (h_proc h) (h_loom h) (h_ovni h) (f (h_mark h)) (h_tasks h) (h_hwc h).

Definition set_h_tasks f (h : heap) : heap :=
  mk_heap (h_chan h) (h_bay h) (h_cb h) (h_mux h) (h_sort h) (h_prv h)
    (h_thread h) (h_cpu h) (h_proc h) (h_loom h) (h_ovni h) (h_mark h) (f (h_tasks h)) (h_hwc h).
Definition set_h_hwc f (h : heap) : heap :=
  mk_heap (h_chan h) (h_bay h) (h_cb h) (h_mux h) (h_sort h) (h_prv h)
    (h_thread h) (h_cpu h) (h_proc h) (h_loom h) (h_ovni h) (h_mark h) (h_tasks h) (f (h_hwc h)).

Definition set_b_state st (b : bay) : bay := mk_bay st (b_channels b) (b_dirty b).
Definition set_b_channels f (b : bay) : bay := mk_bay (b_state b) (f (b_channels b)) (b_dirty b).
Definition set_b_dirty f (b : bay) : bay := mk_bay (b_state b) (b_channels b) (f (b_dirty b)).

Definition empty_bay : bay := mk_bay BAY_READY ∅ [].
Definition empty_heap : heap :=
  mk_heap ∅ empty_bay ∅ ∅ ∅ ∅ ∅ ∅ ∅ ∅ ∅ (mk_ovni_mark_emu [] 0) ∅ (mk_nosv_hwc_emu [] 0 []).

(** The callback list of a bay channel for one phase. *)
Definition bc_cbs (ty : bay_cb_type) (b : bay_chan) : list nat :=
  match ty with BAY_CB_DIRTY => bc_cb_dirty b | BAY_CB_EMIT => bc_cb_emit b end.

Definition set_bc_cbs (ty : bay_cb_type) (f : list nat -> list nat) (b : bay_chan) : bay_chan :=
  match ty with
  | BAY_CB_DIRTY => mk_bay_chan (bc_chan b) (bc_ncb_dirty b + 1) (bc_ncb_emit b)
                      (f (bc_cb_dirty b)) (bc_cb_emit b) (bc_is_dirty b)
  | BAY_CB_EMIT => mk_bay_chan (bc_chan b) (bc_ncb_dirty b) (bc_ncb_emit b + 1)
                      (bc_cb_dirty b) (f (bc_cb_emit b)) (bc_is_dirty b)
  end.

(** ** Field updates *)

Definition set_loom_gindex x (r : loom) : loom :=
  mk_loom x (loom_is_init r) (loom_name r) (loom_hostname r) (loom_ncpus r) (loom_rank_enabled r)
    (loom_rank_min r) (loom_clock_offset r) (loom_cpus r) (loom_cpus_array r) (loom_vcpu r)
    (loom_nprocs r) (loom_procs r).
Definition set_loom_is_init x (r : loom) : loom :=
  mk_loom (loom_gindex r) x (loom_name r) (loom_hostname r) (loom_ncpus r) (loom_rank_enabled r)
    (loom_rank_min r) (loom_clock_offset r) (loom_cpus r) (loom_cpus_array r) (loom_vcpu r)
    (loom_nprocs r) (loom_procs r).
Definition set_loom_ncpus x (r : loom) : loom :=
  mk_loom (loom_gindex r) (loom_is_init r) (loom_name r) (loom_hostname r) x (loom_rank_enabled r)
    (loom_rank_min r) (loom_clock_offset r) (loom_cpus r) (loom_cpus_array r) (loom_vcpu r)
    (loom_nprocs r) (loom_procs r).
Definition set_loom_rank_enabled x (r : loom) : loom :=
  mk_loom (loom_gindex r) (loom_is_init r) (loom_name r) (loom_hostname r) (loom_ncpus r) x
    (loom_rank_min r) (loom_clock_offset r) (loom_cpus r) (loom_cpus_array r) (loom_vcpu r)
    (loom_nprocs r) (loom_procs r).
Definition set_loom_rank_min x (r : loom) : loom :=
  mk_loom (loom_gindex r) (loom_is_init r) (loom_name r) (loom_hostname r) (loom_ncpus r)
    (loom_rank_enabled r) x (loom_clock_offset r) (loom_cpus r) (loom_cpus_array r) (loom_vcpu r)
    (loom_nprocs r) (loom_procs r).
Definition set_loom_clock_offset x (r : loom) : loom :=
  mk_loom (loom_gindex r) (loom_is_init r) (loom_name r) (loom_hostname r) (loom_ncpus r)
    (loom_rank_enabled r) (loom_rank_min r) x (loom_cpus r) (loom_cpus_array r) (loom_vcpu r)
    (loom_nprocs r) (loom_procs r).
Definition set_loom_cpus x (r : loom) : loom :=
  mk_loom (loom_gindex r) (loom_is_init r) (loom_name r) (loom_hostname r) (loom_ncpus r)
    (loom_rank_enabled r) (loom_rank_min r) (loom_clock_offset r) x (loom_cpus_array r) (loom_vcpu r)
    (loom_nprocs r) (loom_procs r).
Definition set_loom_cpus_array x (r : loom) : loom :=
  mk_loom (loom_gindex r) (loom_is_init r) (loom_name r) (loom_hostname r) (loom_ncpus r)
    (loom_rank_enabled r) (loom_rank_min r) (loom_clock_offset r) (loom_cpus r) x (loom_vcpu r)
    (loom_nprocs r) (loom_procs r).
Definition set_loom_nprocs x (r : loom) : loom :=
  mk_loom (loom_gindex r) (loom_is_init r) (loom_name r) (loom_hostname r) (loom_ncpus r)
    (loom_rank_enabled r) (loom_rank_min r) (loom_clock_offset r) (loom_cpus r) (loom_cpus_array r)
    (loom_vcpu r) x (loom_procs r).
Definition set_loom_procs x (r : loom) : loom :=
  mk_loom (loom_gindex r) (loom_is_init r) (loom_name r) (loom_hostname r) (loom_ncpus r)
    (loom_rank_enabled r) (loom_rank_min r) (loom_clock_offset r) (loom_cpus r) (loom_cpus_array r)
    (loom_vcpu r) (loom_nprocs r) x.
Definition set_proc_gindex x (r : proc) : proc :=
  mk_proc x (proc_is_init r) (proc_pid r) (proc_appid r) (proc_rank r) (proc_nranks r) (proc_nthreads r)
    (proc_threads r) (proc_loom r).
Definition set_proc_is_init x (r : proc) : proc :=
  mk_proc (proc_gindex r) x (proc_pid r) (proc_appid r) (proc_rank r) (proc_nranks r) (proc_nthreads r)
    (proc_threads r) (proc_loom r).
Definition set_proc_appid x (r : proc) : proc :=
  mk_proc (proc_gindex r) (proc_is_init r) (proc_pid r) x (proc_rank r) (proc_nranks r)
    (proc_nthreads r) (proc_threads r) (proc_loom r).
Definition set_proc_rank x (r : proc) : proc :=
  mk_proc (proc_gindex r) (proc_is_init r) (proc_pid r) (proc_appid r) x (proc_nranks r)
    (proc_nthreads r) (proc_threads r) (proc_loom r).
Definition set_proc_nranks x (r : proc) : proc :=
  mk_proc (proc_gindex r) (proc_is_init r) (proc_pid r) (proc_appid r) (proc_rank r) x (proc_nthreads r)
    (proc_threads r) (proc_loom r).
Definition set_proc_nthreads x (r : proc) : proc :=
  mk_proc (proc_gindex r) (proc_is_init r) (proc_pid r) (proc_appid r) (proc_rank r) (proc_nranks r) x
    (proc_threads r) (proc_loom r).
Definition set_proc_threads x (r : proc) : proc :=
  mk_proc (proc_gindex r) (proc_is_init r) (proc_pid r) (proc_appid r) (proc_rank r) (proc_nranks r)
    (proc_nthreads r) x (proc_loom r).
Definition set_proc_loom x (r : proc) : proc :=
  mk_proc (proc_gindex r) (proc_is_init r) (proc_pid r) (proc_appid r) (proc_rank r) (proc_nranks r)
    (proc_nthreads r) (proc_threads r) x.
Definition set_t_gindex x (r : thread) : thread :=
  mk_thread x (t_tid r) (t_proc r) (t_state r) (t_is_running r) (t_is_active r) (t_is_out_of_cpu r)
    (t_cpu r) (t_has_meta r) (t_is_init r).
Definition set_t_proc x (r : thread) : thread :=
  mk_thread (t_gindex r) (t_tid r) x (t_state r) (t_is_running r) (t_is_active r) (t_is_out_of_cpu r)
    (t_cpu r) (t_has_meta r) (t_is_init r).
Definition set_t_is_out_of_cpu x (r : thread) : thread :=
  mk_thread (t_gindex r) (t_tid r) (t_proc r) (t_state r) (t_is_running r) (t_is_active r) x
    (t_cpu r) (t_has_meta r) (t_is_init r).
Definition set_t_has_meta x (r : thread) : thread :=
  mk_thread (t_gindex r) (t_tid r) (t_proc r) (t_state r) (t_is_running r) (t_is_active r)
    (t_is_out_of_cpu r) (t_cpu r) x (t_is_init r).
Definition set_t_is_init x (r : thread) : thread :=
  mk_thread (t_gindex r) (t_tid r) (t_proc r) (t_state r) (t_is_running r) (t_is_active r)
    (t_is_out_of_cpu r) (t_cpu r) (t_has_meta r) x.
Definition set_cpu_gindex x (r : cpu) : cpu :=
  mk_cpu x (cpu_loom r) (cpu_index r) (cpu_phyid r) (cpu_is_virtual r) (cpu_is_init r) (cpu_nthreads r)
    (cpu_nth_running r) (cpu_nth_active r) (cpu_threads r) (cpu_th_running r) (cpu_th_active r).
Definition set_cpu_loom x (r : cpu) : cpu :=
  mk_cpu (cpu_gindex r) x (cpu_index r) (cpu_phyid r) (cpu_is_virtual r) (cpu_is_init r)
    (cpu_nthreads r) (cpu_nth_running r) (cpu_nth_active r) (cpu_threads r) (cpu_th_running r)
    (cpu_th_active r).
Definition set_cpu_is_init x (r : cpu) : cpu :=
  mk_cpu (cpu_gindex r) (cpu_loom r) (cpu_index r) (cpu_phyid r) (cpu_is_virtual r) x (cpu_nthreads r)
    (cpu_nth_running r) (cpu_nth_active r) (cpu_threads r) (cpu_th_running r) (cpu_th_active r).
