(* ===== verification/Bay.v ===== *)
(** * The patch bay (src/emu/bay.c)

    Channels are registered in the bay under their unique name; the bay hears
    of every channel that becomes dirty and, once per event, [bay_propagate]
    runs the dirty callbacks of the dirty channels (which may make further
    channels dirty), then their emit callbacks, then flushes them.

    The bay implements the channel memory of Chan.v.  The callbacks it runs
    belong to its clients (mux.c, sort.c, prv.c): it sees them through the
    interface [BayCallbacks], and the theorems about propagation hold for any
    clients that satisfy [BayCallbackLaws]. *)

From S2P Require Import Prelude Chan Heap.

(** ** Operations *)

Definition find_bay_chan (name : string) (h : heap) : option bay_chan :=
  b_channels (h_bay h) !! name.

Definition bay_find (name : string) (h : heap) : option addr :=
  bc_chan <$> find_bay_chan name h.

(** [cb_chan_is_dirty], called from the channel when it becomes dirty; [arg]
    is the bay channel. *)
Definition cb_chan_is_dirty (arg : string) (a : addr) : M heap unit :=
  let* h := mget in
  let* bchan := deref (find_bay_chan arg h) in
  let b := h_bay h in
  if negb (bool_decide (b_state b = BAY_READY)) && negb (bool_decide (b_state b = BAY_PROPAGATING))
  then mfail else
  if bc_is_dirty bchan then mfail else
  mmod (set_h_bay (set_b_dirty (fun l => l ++ [arg]))).

#[export] Instance heap_chan_mem : ChanMem heap := {
  cm_get a h := h_chan h !! a;
  cm_put a c := set_h_chan <[a := c]>;
  cm_dirty_cb := cb_chan_is_dirty
}.

Definition put_bchan (name : string) (b : bay_chan) : heap -> heap :=
  set_h_bay (set_b_channels <[name := b]>).

Definition bay_init (h : heap) : heap := set_h_bay (fun _ => mk_bay BAY_READY ∅ []) h.

Definition bay_register (a : addr) : M heap unit :=
  let* c := load a in
  let* h := mget in
  match find_bay_chan (c_name c) h with
  | Some _ => mfail
  | None =>
      store a (chan_set_dirty_cb (Some (c_name c)) c) ;;;
      mmod (put_bchan (c_name c) (mk_bay_chan a 0 0 [] [] false))
  end.

Definition put_cb (id : nat) (cb : bay_cb) : heap -> heap := set_h_cb <[id := cb]>.

Definition bay_enable_cb (id : nat) : M heap unit :=
  let* h := mget in
  let* cb := deref (h_cb h !! id) in
  if cb_enabled cb then mret tt else
  mmod (put_cb id (mk_bay_cb (cb_func cb) (cb_bchan cb) true (cb_type cb))) ;;;
  let* bchan := deref (find_bay_chan (cb_bchan cb) h) in
  if bc_is_dirty bchan then mdie else
  mmod (put_bchan (cb_bchan cb) (set_bc_cbs (cb_type cb) (fun l => l ++ [id]) bchan)).

Definition bay_disable_cb (id : nat) : M heap unit :=
  let* h := mget in
  let* cb := deref (h_cb h !! id) in
  if negb (cb_enabled cb) then mret tt else
  mmod (put_cb id (mk_bay_cb (cb_func cb) (cb_bchan cb) false (cb_type cb))) ;;;
  let* bchan := deref (find_bay_chan (cb_bchan cb) h) in
  if bc_is_dirty bchan then mdie else
  mmod (put_bchan (cb_bchan cb)
    (set_bc_cbs (cb_type cb) (List.filter (fun x => negb (Nat.eqb x id))) bchan)).

(** Callbacks are never freed: the new one takes the next free key. *)
Definition bay_add_cb (type : bay_cb_type) (a : addr) (func : option bay_cb_func)
    (enabled : bool) : M heap nat :=
  let* f := found func in
  let* c := load a in
  let* h := mget in
  let* bchan := found (find_bay_chan (c_name c) h) in
  let id := size (h_cb h) in
  mmod (put_cb id (mk_bay_cb f (c_name c) false type)) ;;;
  (if enabled then bay_enable_cb id else mret tt) ;;;
  mret id.

(** What the bay asks of its clients: how a callback runs on its channel. *)
Class BayCallbacks := { cb_call : bay_cb_func -> addr -> M heap unit }.

(** The elements after the first occurrence of [x]: where [x->next] leads. *)
Fixpoint after {A} `{EqDecision A} (x : A) (l : list A) : list A :=
  match l with
  | [] => []
  | y :: l' => if decide (x = y) then l' else after x l'
  end.

Section Propagate.
Context `{BayCallbacks}.

(** The [DL_FOREACH] of [propagate_chan]: [cur] is the list cursor; the list
    is read again after each callback, which may have changed it. *)
Fixpoint foreach_cb (fuel : nat) (name : string) (type : bay_cb_type) (cur : option nat)
    : M heap unit :=
  match cur with
  | None => mret tt
  | Some id =>
      match fuel with
      | O => mfuel
      | S fuel' =>
          let* h := mget in
          let* cb := deref (h_cb h !! id) in
          let* bchan := deref (find_bay_chan name h) in
          cb_call (cb_func cb) (bc_chan bchan) ;;;
          let* h' := mget in
          let* bchan' := deref (find_bay_chan name h') in
          foreach_cb fuel' name type (head (after id (bc_cbs type bchan')))
      end
  end.

Definition propagate_chan (fuel : nat) (name : string) (type : bay_cb_type) : M heap unit :=
  let* h := mget in
  let* bchan := deref (find_bay_chan name h) in
  foreach_cb fuel name type (head (bc_cbs type bchan)).

(** [DL_FOREACH] over the dirty list from position [i]: the list only grows
    at its end while it is walked. *)
Fixpoint foreach_dirty (fuel : nat) (body : string -> M heap unit) (i : nat) : M heap unit :=
  let* h := mget in
  match b_dirty (h_bay h) !! i with
  | None => mret tt
  | Some name =>
      match fuel with
      | O => mfuel
      | S fuel' => body name ;;; foreach_dirty fuel' body (S i)
      end
  end.

Definition flush_bchan (name : string) : M heap unit :=
  let* h := mget in
  let* bchan := deref (find_bay_chan name h) in
  chan_flush (bc_chan bchan) ;;;
  mmod (put_bchan name (mk_bay_chan (bc_chan bchan) (bc_ncb_dirty bchan) (bc_ncb_emit bchan)
    (bc_cb_dirty bchan) (bc_cb_emit bchan) false)).

Definition bay_propagate (fuel : nat) : M heap unit :=
  mmod (set_h_bay (set_b_state BAY_PROPAGATING)) ;;;
  foreach_dirty fuel (fun n => propagate_chan fuel n BAY_CB_DIRTY) 0 ;;;
  mmod (set_h_bay (set_b_state BAY_EMITTING)) ;;;
  foreach_dirty fuel (fun n => propagate_chan fuel n BAY_CB_EMIT) 0 ;;;
  mmod (set_h_bay (set_b_state BAY_FLUSHING)) ;;;
  foreach_dirty fuel flush_bchan 0 ;;;
  mmod (set_h_bay (fun b => set_b_state BAY_READY (set_b_dirty (fun _ => []) b))).
End Propagate.

(** ** The invariant of the bay *)

#[export] Instance heap_chan_laws : ChanMemLaws heap.
Proof.
  split; simpl.
  - intros. apply lookup_insert_eq.
  - intros. by apply lookup_insert_ne.
  - intros a c [] E; simpl in *. unfold set_h_chan; simpl. by rewrite insert_id.
  - intros. unfold cb_chan_is_dirty, mbind, mget, deref, mret, mub, mfail, mmod.
    repeat (case_match; simplify_eq/=; try done).
Qed.

(** Registered channels and bay channels point at each other; the dirty list
    holds exactly the registered channels that are dirty, once each; the
    callback lists hold exactly the enabled callbacks. *)
Record bay_inv (h : heap) : Prop := {
  bi_reg : forall name b, find_bay_chan name h = Some b ->
    bc_is_dirty b = false /\
    exists c, h_chan h !! bc_chan b = Some c /\ c_name c = name /\ c_dirty_arg c = Some name;
  bi_arg : forall a c name, h_chan h !! a = Some c -> c_dirty_arg c = Some name ->
    exists b, find_bay_chan name h = Some b /\ bc_chan b = a;
  bi_nodup : NoDup (b_dirty (h_bay h));
  bi_dirty : forall name, name ∈ b_dirty (h_bay h) <->
    exists b c, find_bay_chan name h = Some b /\ h_chan h !! bc_chan b = Some c /\
                c_is_dirty c = true;
  bi_cbs : forall name b ty id, find_bay_chan name h = Some b -> id ∈ bc_cbs ty b ->
    exists cb, h_cb h !! id = Some cb /\ cb_bchan cb = name /\ cb_type cb = ty /\
               cb_enabled cb = true;
  bi_cbs_nodup : forall name b ty, find_bay_chan name h = Some b -> NoDup (bc_cbs ty b);
  bi_cb : forall id cb, h_cb h !! id = Some cb -> (id < size (h_cb h))%nat /\
    exists b, find_bay_chan (cb_bchan cb) h = Some b /\
              (cb_enabled cb = true -> id ∈ bc_cbs (cb_type cb) b)
}.

(** Channels may become dirty in these states only. *)
Definition accepting (h : heap) : Prop :=
  b_state (h_bay h) = BAY_READY \/ b_state (h_bay h) = BAY_PROPAGATING.

(** What a write to channel [a] does to the heap. *)
Definition heap_written (a : addr) (c' : chan) (new : list string) (h : heap) : heap :=
  set_h_bay (set_b_dirty (fun l => l ++ new)) (set_h_chan <[a := with_dirty true c']> h).

Definition newly_dirty (c : chan) : list string :=
  if c_is_dirty c then [] else match c_dirty_arg c with Some n => [n] | None => [] end.

Lemma set_b_dirty_nil (h : heap) : set_h_bay (set_b_dirty (fun l => l ++ [])) h = h.
Proof. destruct h as [? [] ? ? ? ? ? ? ? ?]. unfold set_h_bay, set_b_dirty; simpl. by rewrite app_nil_r. Qed.

Lemma with_dirty_id c : c_is_dirty c = true -> with_dirty true c = c.
Proof. destruct c; simpl. by intros ->. Qed.

(** In an accepting state the write itself cannot fail. *)
Lemma heap_write_run a c c' h :
  bay_inv h -> accepting h -> h_chan h !! a = Some c -> writable c -> same_meta c c' ->
  (store a c' ;;; set_dirty a) h = (Ok tt, heap_written a c' (newly_dirty c) h).
Proof.
  intros HI HA Hc Hw (Hd & Hdw & _ & _ & Harg & _ & _ & Hn).
  unfold store. rewrite (mbind_run _ _ _ tt (set_h_chan <[a:=c']> h)) by done.
  unfold set_dirty. rewrite (mbind_run _ _ _ c' (set_h_chan <[a:=c']> h)).
  2:{ apply load_Ok. split; [|done]. apply lookup_insert_eq. }
  rewrite Hd, Hdw, Harg. unfold heap_written, newly_dirty.
  destruct (c_is_dirty c) eqn:Hcd.
  - rewrite (Hw Hcd). rewrite set_b_dirty_nil, with_dirty_id by congruence. done.
  - unfold store. rewrite (mbind_run _ _ _ tt (set_h_chan <[a:=with_dirty true c']> h)).
    2:{ destruct h. unfold mmod, cm_put, heap_chan_mem, set_h_chan; simpl.
        by rewrite insert_insert_eq. }
    destruct (c_dirty_arg c) as [name|] eqn:Hname; [|by rewrite set_b_dirty_nil].
    destruct (bi_arg h HI a c name Hc Hname) as (b & Hb & Hba).
    destruct (bi_reg h HI name b Hb) as [Hclean _].
    simpl. unfold cb_chan_is_dirty, mbind, mget, deref.
    change (find_bay_chan name (set_h_chan <[a:=with_dirty true c']> h)) with (find_bay_chan name h).
    rewrite Hb; simpl. rewrite Hclean. by destruct HA as [-> | ->].
Qed.

(** Two registered names with the same channel are the same name. *)
Lemma bay_inv_inj h n1 n2 b1 b2 : bay_inv h ->
  find_bay_chan n1 h = Some b1 -> find_bay_chan n2 h = Some b2 -> bc_chan b1 = bc_chan b2 -> n1 = n2.
Proof.
  intros HI H1 H2 E. destruct (bi_reg h HI n1 b1 H1) as (_ & c1 & Hc1 & <- & _).
  destruct (bi_reg h HI n2 b2 H2) as (_ & c2 & Hc2 & <- & _). congruence.
Qed.

Lemma bay_inv_written a c c' h :
  bay_inv h -> h_chan h !! a = Some c -> same_meta c c' ->
  bay_inv (heap_written a c' (newly_dirty c) h).
Proof.
  intros HI Hc (Hd & Hdw & _ & _ & Harg & _ & _ & Hn).
  assert (forall b cb, h_chan (heap_written a c' (newly_dirty c) h) !! b = Some cb ->
    exists cb0, h_chan h !! b = Some cb0 /\ c_name cb = c_name cb0 /\ c_dirty_arg cb = c_dirty_arg cb0 /\
      (c_is_dirty cb = true <-> c_is_dirty cb0 = true \/ b = a)) as Hold.
  { intros b cb. simpl. rewrite lookup_insert. case_decide as E.
    - subst. intros [= <-]. exists c. rewrite Hc; simpl. naive_solver.
    - intros Hb. exists cb. naive_solver. }
  assert (forall b cb0, h_chan h !! b = Some cb0 -> exists cb,
    h_chan (heap_written a c' (newly_dirty c) h) !! b = Some cb) as Hnew.
  { intros b cb0 Hb. simpl. rewrite lookup_insert. case_decide; eauto. }
  split; simpl.
  - intros name b Hb. destruct (bi_reg h HI name b Hb) as (? & cb0 & Hcb0 & <- & Ha).
    split; [done|]. destruct (Hnew _ _ Hcb0) as [cb Hcb].
    destruct (Hold _ _ Hcb) as (cb1 & Hcb1 & E1 & E2 & _).
    exists cb. split; [done|]. split; congruence.
  - intros b cb name Hb Ha. destruct (Hold _ _ Hb) as (cb0 & ? & _ & E & _).
    rewrite E in Ha. by eapply (bi_arg h HI).
  - unfold newly_dirty. destruct (c_is_dirty c) eqn:Hcd; [rewrite app_nil_r; apply bi_nodup, HI|].
    destruct (c_dirty_arg c) as [name|] eqn:Hname; [|rewrite app_nil_r; apply bi_nodup, HI].
    apply list.NoDup_app. split_and!; [apply bi_nodup, HI| |apply NoDup_singleton].
    intros n Hin Hin2. apply list_elem_of_singleton in Hin2 as ->.
    apply (bi_dirty h HI) in Hin as (b & cb & Hb & Hcb & Hcbd).
    destruct (bi_arg h HI a c name Hc Hname) as (b' & Hb' & Hb'a). simplify_eq. congruence.
  - intros name. rewrite elem_of_app, (bi_dirty h HI). split.
    + intros [(b & cb0 & Hb & Hcb0 & Hcbd) | Hin].
      * destruct (Hnew _ _ Hcb0) as [cb Hcb]. destruct (Hold _ _ Hcb) as (? & ? & _ & _ & E).
        simplify_eq. exists b, cb. split_and!; try done. apply E. by left.
      * unfold newly_dirty in Hin. destruct (c_is_dirty c) eqn:Hcd; [by apply elem_of_nil in Hin|].
        destruct (c_dirty_arg c) as [n|] eqn:Hname; [|by apply elem_of_nil in Hin].
        apply list_elem_of_singleton in Hin as ->.
        destruct (bi_arg h HI a c n Hc Hname) as (b & Hb & <-).
        exists b, (with_dirty true c'). split_and!; try done. simpl. apply lookup_insert_eq.
    + intros (b & cb & Hb & Hcb & Hcbd). destruct (Hold _ _ Hcb) as (cb0 & Hcb0 & _ & _ & E).
      apply E in Hcbd. destruct Hcbd as [Hcbd | Hba]; [left; eauto 10|].
      destruct (bi_reg h HI name b Hb) as (_ & c1 & Hc1 & _ & Harg1). subst a.
      assert (c1 = c) as -> by congruence.
      destruct (c_is_dirty c) eqn:Hcd; [left; eauto 10|]. right. unfold newly_dirty.
      rewrite Hcd, Harg1. by apply list_elem_of_singleton.
  - apply (bi_cbs h HI).
  - apply (bi_cbs_nodup h HI).
  - apply (bi_cb h HI).
Qed.

(** A channel operation in an accepting bay: an early return, or a write that
    succeeds and keeps the invariant. *)
Lemma run_op_heap op a h : bay_inv h -> accepting h ->
  (exists r, run_op op a h = (r, h) /\
     (r = Ok tt -> exists c, h_chan h !! a = Some c /\ op_skipped op c)) \/
  (exists c c', h_chan h !! a = Some c /\ writable c /\ same_meta c c' /\
     chan_step op c (with_dirty true c') /\
     run_op op a h = (Ok tt, heap_written a c' (newly_dirty c) h) /\
     bay_inv (heap_written a c' (newly_dirty c) h)).
Proof.
  intros HI HA. destruct (run_op_shape op a h) as [?|(c & c' & Hc & Hw & Hm & Hs & E)]; [by left|].
  right. exists c, c'. split_and!; try done; [|by apply bay_inv_written].
  rewrite E. by apply heap_write_run.
Qed.

(** The channels that muxes and sorters write: a set never fails on them. *)
Definition settable (c : chan) : Prop :=
  c_type c = CHAN_SINGLE /\ c_true (c_dirty_write c) = true /\ c_true (c_allow_dup c) = true.

Lemma chan_set_forced a v c h : bay_inv h -> accepting h -> h_chan h !! a = Some c -> settable c ->
  chan_set a v h = (Ok tt, heap_written a (with_value v c) (newly_dirty c) h) /\
  bay_inv (heap_written a (with_value v c) (newly_dirty c) h).
Proof.
  intros HI HA Hc (Hty & Hdw & Had). split; [|by apply bay_inv_written].
  unfold chan_set. rewrite (mbind_run _ _ _ c h) by by apply load_Ok.
  rewrite bool_decide_true by done. rewrite Hdw, andb_false_r. unfold dup_check. rewrite Had.
  apply heap_write_run; [done|done|done|by intros ?|by split_and!].
Qed.

Lemma heap_written_chan a b c' new h :
  h_chan (heap_written a c' new h) !! b = if decide (a = b) then Some (with_dirty true c') else h_chan h !! b.
Proof. simpl. rewrite lookup_insert. repeat case_decide; done. Qed.

(** ** Enabling and disabling callbacks *)

(** Callback [id] becomes enabled or not, and [f] its list. *)
Definition toggle (id : nat) (cb : bay_cb) (e : bool) (f : list nat -> list nat) (b : bay_chan)
    (h : heap) : heap :=
  put_bchan (cb_bchan cb) (set_bc_cbs (cb_type cb) f b)
    (put_cb id (mk_bay_cb (cb_func cb) (cb_bchan cb) e (cb_type cb)) h).

Definition toggles (id : nat) (e : bool) (f : list nat -> list nat) (l : list nat) : Prop :=
  NoDup (f l) /\ forall x, x ∈ f l <-> (x ∈ l /\ x <> id) \/ (e = true /\ x = id).

Lemma bc_cbs_set ty f b ty' :
  bc_cbs ty' (set_bc_cbs ty f b) = if decide (ty' = ty) then f (bc_cbs ty b) else bc_cbs ty' b.
Proof. by destruct ty, ty'. Qed.

Lemma set_bc_cbs_meta ty f b : bc_chan (set_bc_cbs ty f b) = bc_chan b /\
  bc_is_dirty (set_bc_cbs ty f b) = bc_is_dirty b.
Proof. by destruct ty. Qed.

Lemma find_toggle id cb e f b h name :
  find_bay_chan name (toggle id cb e f b h) =
    if decide (cb_bchan cb = name) then Some (set_bc_cbs (cb_type cb) f b) else find_bay_chan name h.
Proof.
  unfold toggle, put_bchan, find_bay_chan; simpl. rewrite lookup_insert. by repeat case_decide.
Qed.

(** Every bay channel survives a toggle, with one list changed. *)
Lemma find_toggle_inv id cb e f b h name b' :
  find_bay_chan (cb_bchan cb) h = Some b ->
  find_bay_chan name (toggle id cb e f b h) = Some b' ->
  exists b0, find_bay_chan name h = Some b0 /\ bc_chan b' = bc_chan b0 /\
    bc_is_dirty b' = bc_is_dirty b0 /\
    forall ty, bc_cbs ty b' = if decide (name = cb_bchan cb /\ ty = cb_type cb)
                              then f (bc_cbs ty b0) else bc_cbs ty b0.
Proof.
  intros Hb. rewrite find_toggle. case_decide as E.
  - intros [= <-]. subst name. exists b. destruct (set_bc_cbs_meta (cb_type cb) f b).
    split_and!; try done. intros ty. rewrite bc_cbs_set.
    repeat case_decide; naive_solver.
  - intros Hb'. exists b'. split_and!; try done. intros ty. rewrite decide_False; naive_solver.
Qed.

Lemma toggle_inv id cb e f b h :
  bay_inv h -> h_cb h !! id = Some cb -> find_bay_chan (cb_bchan cb) h = Some b ->
  toggles id e f (bc_cbs (cb_type cb) b) -> bay_inv (toggle id cb e f b h).
Proof.
  intros HI Hcb Hb [Hnd Hin].
  assert (forall name b0, find_bay_chan name h = Some b0 -> exists b',
    find_bay_chan name (toggle id cb e f b h) = Some b' /\ bc_chan b' = bc_chan b0) as Hfwd.
  { intros name b0 Hb0. rewrite find_toggle. case_decide; [|by eauto].
    eexists. split; [done|]. subst. simplify_eq. apply set_bc_cbs_meta. }
  split.
  - intros name b' Hb'. destruct (find_toggle_inv _ _ _ _ _ _ _ _ Hb Hb') as (b0 & Hb0 & -> & -> & _).
    by apply (bi_reg h HI).
  - intros a c name Hc Ha. destruct (bi_arg h HI a c name Hc Ha) as (b0 & Hb0 & <-).
    apply Hfwd, Hb0.
  - apply (bi_nodup h HI).
  - intros name. etransitivity; [apply (bi_dirty h HI)|]. split.
    + intros (b0 & c & Hb0 & Hc & Hd). destruct (Hfwd name b0 Hb0) as (b' & Hb' & E).
      exists b', c. by rewrite E.
    + intros (b' & c & Hb' & Hc & Hd).
      destruct (find_toggle_inv _ _ _ _ _ _ _ _ Hb Hb') as (b0 & Hb0 & E & _).
      exists b0, c. by rewrite <- E.
  - intros name b' ty i Hb' Hi.
    destruct (find_toggle_inv _ _ _ _ _ _ _ _ Hb Hb') as (b0 & Hb0 & _ & _ & El).
    rewrite El in Hi. simpl. rewrite lookup_insert. destruct (decide (id = i)) as [Ei|Ei]; [subst i|].
    + eexists. split; [done|]. simpl. case_decide as En.
      * destruct En as [-> ->]. simplify_eq. apply Hin in Hi as [[]|[]]; done.
      * destruct (bi_cbs h HI name b0 ty id Hb0 Hi) as (cb' & ? & ? & ? & ?). naive_solver.
    + apply (bi_cbs h HI name b0 ty i Hb0). case_decide as En; [|done].
      destruct En as [-> ->]. simplify_eq. apply Hin in Hi. naive_solver.
  - intros name b' ty Hb'.
    destruct (find_toggle_inv _ _ _ _ _ _ _ _ Hb Hb') as (b0 & Hb0 & _ & _ & ->).
    case_decide as En; [destruct En as [-> ->]; by simplify_eq|]. by apply (bi_cbs_nodup h HI name).
  - intros i cb'. simpl. rewrite lookup_insert, map_size_insert_Some by eauto.
    destruct (decide (id = i)) as [Ei|Ei].
    + intros [= <-]. subst i. split; [apply (bi_cb h HI id cb Hcb)|]. simpl.
      rewrite find_toggle, decide_True by done. eexists. split; [done|]. intros ->.
      rewrite bc_cbs_set, decide_True by done. apply Hin. by right.
    + intros Hcb'. destruct (bi_cb h HI i cb' Hcb') as (? & b0 & Hb0 & He). split; [done|].
      destruct (Hfwd _ _ Hb0) as (b' & Hb' & _). exists b'. split; [done|]. intros Hen.
      destruct (find_toggle_inv _ _ _ _ _ _ _ _ Hb Hb') as (b1 & Hb1 & _ & _ & ->).
      simplify_eq. case_decide as En; [|by apply He]. destruct En as [En1 En2].
      rewrite En1 in Hb0. simplify_eq. rewrite En2. apply Hin. left. split; [|done].
      rewrite <- En2. by apply He.
Qed.

Definition enable_list (id : nat) (l : list nat) : list nat := l ++ [id].
Definition disable_list (id : nat) : list nat -> list nat := List.filter (fun x => negb (Nat.eqb x id)).

Lemma elem_of_disable id l x : x ∈ disable_list id l <-> x ∈ l /\ x <> id.
Proof.
  unfold disable_list. rewrite !list_elem_of_In, List.filter_In, negb_true_iff, Nat.eqb_neq. done.
Qed.

Lemma NoDup_disable id l : NoDup l -> NoDup (disable_list id l).
Proof. rewrite !NoDup_ListNoDup. apply List.NoDup_filter. Qed.

Lemma bay_enable_run id cb h : bay_inv h -> h_cb h !! id = Some cb ->
  (cb_enabled cb = true /\ bay_enable_cb id h = (Ok tt, h)) \/
  (cb_enabled cb = false /\ exists b, find_bay_chan (cb_bchan cb) h = Some b /\
     bay_enable_cb id h = (Ok tt, toggle id cb true (enable_list id) b h) /\
     id ∉ bc_cbs (cb_type cb) b /\ bay_inv (toggle id cb true (enable_list id) b h)).
Proof.
  intros HI Hcb. destruct (bi_cb h HI id cb Hcb) as (_ & b & Hb & _).
  destruct (bi_reg h HI _ b Hb) as [Hd _].
  unfold bay_enable_cb, mbind, mget, deref. rewrite Hcb. simpl.
  destruct (cb_enabled cb) eqn:He; simpl; [by left|]. right. split; [done|]. exists b.
  assert (id ∉ bc_cbs (cb_type cb) b) as Hn.
  { intros Hi. destruct (bi_cbs h HI _ b _ id Hb Hi) as (? & ? & ? & ? & ?). simplify_eq. congruence. }
  rewrite Hb. simpl. rewrite Hd. split_and!; try done. apply toggle_inv; try done. split.
  - apply list.NoDup_app. split_and!; [by apply (bi_cbs_nodup h HI (cb_bchan cb) b)| |apply NoDup_singleton].
    intros x Hx ->%list_elem_of_singleton. done.
  - intros x. unfold enable_list. rewrite elem_of_app, list_elem_of_singleton.
    split; [|naive_solver]. intros [Hx|]; [|by right]. left. split; [done|]. by intros ->.
Qed.

Lemma bay_disable_run id cb h : bay_inv h -> h_cb h !! id = Some cb ->
  (cb_enabled cb = false /\ bay_disable_cb id h = (Ok tt, h)) \/
  (cb_enabled cb = true /\ exists b, find_bay_chan (cb_bchan cb) h = Some b /\
     bay_disable_cb id h = (Ok tt, toggle id cb false (disable_list id) b h) /\
     bay_inv (toggle id cb false (disable_list id) b h)).
Proof.
  intros HI Hcb. destruct (bi_cb h HI id cb Hcb) as (_ & b & Hb & _).
  destruct (bi_reg h HI _ b Hb) as [Hd _].
  unfold bay_disable_cb, mbind, mget, deref. rewrite Hcb. simpl.
  destruct (cb_enabled cb) eqn:He; simpl; [|by left]. right. split; [done|]. exists b.
  rewrite Hb. simpl. rewrite Hd. split_and!; try done. apply toggle_inv; try done. split.
  - by apply NoDup_disable, (bi_cbs_nodup h HI (cb_bchan cb) b).
  - intros x. rewrite elem_of_disable. naive_solver.
Qed.

Lemma disable_list_notin id l : id ∉ l -> disable_list id l = l.
Proof.
  induction l as [|x l IH]; simpl; [done|]. intros [? ?]%not_elem_of_cons.
  rewrite (proj2 (Nat.eqb_neq x id)) by done. simpl. by rewrite IH.
Qed.

Lemma find_toggle_fwd id cb e f b h name b0 :
  find_bay_chan (cb_bchan cb) h = Some b -> find_bay_chan name h = Some b0 ->
  exists b', find_bay_chan name (toggle id cb e f b h) = Some b' /\ bc_chan b' = bc_chan b0 /\
    forall ty, bc_cbs ty b' = if decide (name = cb_bchan cb /\ ty = cb_type cb)
                              then f (bc_cbs ty b0) else bc_cbs ty b0.
Proof.
  intros Hb Hb0. destruct (find_bay_chan name (toggle id cb e f b h)) as [b'|] eqn:Hb'.
  - destruct (find_toggle_inv _ _ _ _ _ _ _ _ Hb Hb') as (b1 & Hb1 & E & _ & El).
    simplify_eq. by exists b'.
  - rewrite find_toggle in Hb'. by case_decide; simplify_eq.
Qed.

(** The callback lists after disabling and after enabling a callback. *)
Lemma disable_lists id h h' name b : bay_inv h -> bay_disable_cb id h = (Ok tt, h') ->
  find_bay_chan name h = Some b -> exists b', find_bay_chan name h' = Some b' /\
    bc_chan b' = bc_chan b /\ forall ty, bc_cbs ty b' = disable_list id (bc_cbs ty b).
Proof.
  intros HI E Hb. destruct (h_cb h !! id) as [cb|] eqn:Hcb.
  2:{ unfold bay_disable_cb, mbind, mget, deref in E. by rewrite Hcb in E. }
  assert (forall ty, cb_enabled cb = false \/ cb_bchan cb <> name \/ cb_type cb <> ty ->
    bc_cbs ty b = disable_list id (bc_cbs ty b)) as Hid.
  { intros ty Hne. symmetry. apply disable_list_notin. intros Hi.
    destruct (bi_cbs h HI name b ty id Hb Hi) as (cb' & ? & ? & ? & ?).
    assert (cb' = cb) as -> by congruence. destruct Hne as [?|[?|?]]; congruence. }
  destruct (bay_disable_run id cb h HI Hcb) as [(Hen & E')|(Hen & b0 & Hb0 & E' & _)];
    rewrite E' in E; injection E as <-.
  - exists b. split_and!; try done. intros ty. apply Hid. by left.
  - destruct (find_toggle_fwd id cb false (disable_list id) b0 h name b Hb0 Hb) as (b' & Hb' & ? & El).
    exists b'. split_and!; try done. intros ty. rewrite El. destruct (decide (name = cb_bchan cb /\ ty = cb_type cb)) as [Ec|Ec]; [done|].
    apply Hid. right.
    destruct (decide (cb_bchan cb = name)) as [Eb|]; [right; intros Et; by apply Ec|by left].
Qed.

Lemma enable_lists id h h' name b : bay_inv h -> bay_enable_cb id h = (Ok tt, h') ->
  find_bay_chan name h = Some b -> exists b', find_bay_chan name h' = Some b' /\
    bc_chan b' = bc_chan b /\
    forall ty, bc_cbs ty b' = bc_cbs ty b \/ bc_cbs ty b' = bc_cbs ty b ++ [id].
Proof.
  intros HI E Hb. destruct (h_cb h !! id) as [cb|] eqn:Hcb.
  2:{ unfold bay_enable_cb, mbind, mget, deref in E. by rewrite Hcb in E. }
  destruct (bay_enable_run id cb h HI Hcb) as [(Hen & E')|(Hen & b0 & Hb0 & E' & _)];
    rewrite E' in E; injection E as <-.
  - exists b. split_and!; try done. intros ty. by left.
  - destruct (find_toggle_fwd id cb true (enable_list id) b0 h name b Hb0 Hb) as (b' & Hb' & ? & El).
    exists b'. split_and!; try done. intros ty. rewrite El.
    destruct (decide (name = cb_bchan cb /\ ty = cb_type cb)); [by right|by left].
Qed.

(** ** Registering channels and callbacks *)

Lemma bay_register_inv a c h h' : bay_inv h -> h_chan h !! a = Some c ->
  c_is_dirty c = false -> c_dirty_arg c = None ->
  bay_register a h = (Ok tt, h') ->
  bay_inv h' /\ find_bay_chan (c_name c) h' = Some (mk_bay_chan a 0 0 [] [] false).
Proof.
  intros HI Hc Hd Ha E. unfold bay_register in E.
  rewrite (mbind_run _ _ _ c h) in E by by apply load_Ok. rewrite (mbind_run _ _ _ h h) in E by done.
  destruct (find_bay_chan (c_name c) h) eqn:Hf; [done|]. injection E as <-.
  set (c' := chan_set_dirty_cb (Some (c_name c)) c). set (nb := mk_bay_chan a 0 0 [] [] false).
  assert (forall n b, find_bay_chan n h = Some b -> bc_chan b <> a /\ n <> c_name c) as Hother.
  { intros n b Hb. split; [|by intros ->; congruence]. intros <-.
    destruct (bi_reg h HI n b Hb) as (_ & c0 & Hc0 & _ & Ha0). simplify_eq. }
  split; [|unfold find_bay_chan, put_bchan; simpl; apply lookup_insert_eq].
  split; unfold find_bay_chan, put_bchan; simpl.
  - intros n b. rewrite lookup_insert. case_decide as En.
    + intros [= <-]. split; [done|]. exists c'. simpl. rewrite lookup_insert_eq. by subst.
    + intros Hb. destruct (bi_reg h HI n b Hb) as (? & c0 & ? & ? & ?). split; [done|]. exists c0.
      destruct (Hother n b Hb). by rewrite lookup_insert_ne.
  - intros b cb n. rewrite lookup_insert. case_decide as En.
    + intros [= <-] [= <-]. exists nb. rewrite lookup_insert_eq. by subst.
    + intros Hb Hn. destruct (bi_arg h HI b cb n Hb Hn) as (b0 & Hb0 & <-). exists b0.
      destruct (Hother n b0 Hb0). by rewrite lookup_insert_ne.
  - apply (bi_nodup h HI).
  - intros n. etransitivity; [apply (bi_dirty h HI)|]. split.
    + intros (b & c0 & Hb & Hc0 & Hd0). destruct (Hother n b Hb). exists b, c0.
      by rewrite !lookup_insert_ne.
    + intros (b & c0 & Hb & Hc0 & Hd0). rewrite lookup_insert in Hb. case_decide as En.
      * injection Hb as <-. simpl in Hc0. rewrite lookup_insert_eq in Hc0. injection Hc0 as <-.
        simpl in Hd0. congruence.
      * destruct (Hother n b Hb). rewrite lookup_insert_ne in Hc0 by done. by exists b, c0.
  - intros n b ty id. rewrite lookup_insert. case_decide as En.
    + intros [= <-] Hin. by destruct ty; apply elem_of_nil in Hin.
    + by apply (bi_cbs h HI).
  - intros n b ty. rewrite lookup_insert. case_decide as En.
    + intros [= <-]. destruct ty; constructor.
    + by apply (bi_cbs_nodup h HI).
  - intros id cb Hcb. destruct (bi_cb h HI id cb Hcb) as (? & b & Hb & He). split; [done|].
    destruct (Hother _ b Hb). exists b. by rewrite lookup_insert_ne.
Qed.

Lemma bay_add_cb_inv ty a f en h h' id : bay_inv h -> bay_add_cb ty a f en h = (Ok id, h') ->
  bay_inv h' /\ h_chan h' = h_chan h /\ h_mux h' = h_mux h /\ h_sort h' = h_sort h /\ h_prv h' = h_prv h /\
  (exists g n, f = Some g /\ h_cb h !! id = None /\ h_cb h' = <[id := mk_bay_cb g n en ty]> (h_cb h)) /\
  bc_chan <$> b_channels (h_bay h') = bc_chan <$> b_channels (h_bay h) /\
  b_dirty (h_bay h') = b_dirty (h_bay h) /\ b_state (h_bay h') = b_state (h_bay h).
Proof.
  intros HI E. unfold bay_add_cb in E.
  apply mbind_Ok in E as (g & s & E1 & E). apply found_Ok in E1 as [-> ->].
  apply mbind_Ok in E as (c & s & E1 & E). apply load_Ok in E1 as [Hc ->].
  apply mbind_Ok in E as (h0 & s & E1 & E). injection E1 as <- <-.
  apply mbind_Ok in E as (b & s & E1 & E). apply found_Ok in E1 as [Hb ->].
  apply mbind_Ok in E as ([] & s & E1 & E). injection E1 as <-.
  apply mbind_Ok in E as ([] & s & E1 & E). injection E as <- ->.
  set (id := size (h_cb h)) in *. set (cb := mk_bay_cb g (c_name c) false ty) in *.
  assert (h_cb h !! id = None) as Hfresh.
  { destruct (h_cb h !! id) as [cb0|] eqn:E; [|done]. destruct (bi_cb h HI id cb0 E). unfold id in *. lia. }
  assert (bay_inv (put_cb id cb h)) as HI1.
  { split; simpl; try apply HI.
    - intros n b' ty' i Hb' Hi. destruct (bi_cbs h HI n b' ty' i Hb' Hi) as (cb' & Hcb' & ?).
      exists cb'. rewrite lookup_insert_ne; [done|]. congruence.
    - intros i cb'. rewrite map_size_insert_None, lookup_insert by done. case_decide.
      + intros [= <-]. unfold id in *. split; [lia|]. exists b. by split; [|].
      + intros Hcb'. destruct (bi_cb h HI i cb' Hcb') as (? & b' & ? & ?). split; [lia|]. by exists b'. }
  destruct en.
  - destruct (bay_enable_run id cb (put_cb id cb h) HI1) as [(He & _)|(_ & b0 & Hb0 & E2 & _ & HI2)];
      [apply lookup_insert_eq|done|].
    rewrite E2 in E1. injection E1 as <-. split_and!; try done.
    + exists g, (c_name c). split_and!; try done. simpl. apply insert_insert_eq.
    + simpl. rewrite fmap_insert, (proj1 (set_bc_cbs_meta _ _ _)). apply insert_id.
      unfold find_bay_chan in Hb0. simpl in Hb0. by rewrite lookup_fmap, Hb0.
  - injection E1 as <-. split_and!; try done. by exists g, (c_name c).
Qed.

Lemma bay_init_inv h : (forall a c, h_chan h !! a = Some c -> c_dirty_arg c = None) -> h_cb h = ∅ ->
  bay_inv (bay_init h).
Proof.
  intros Hc Hcb. split; unfold find_bay_chan; simpl; try done.
  - intros a c n Ha Hn. rewrite (Hc a c Ha) in Hn. done.
  - constructor.
  - intros n. split; [by intros ?%elem_of_nil|by intros (? & ? & ? & _)].
  - rewrite Hcb. done.
Qed.

(** ** What clients promise *)

(** The change a dirty callback may make to the bay. *)
Record prop_step (h h' : heap) : Prop := {
  ps_state : b_state (h_bay h') = b_state (h_bay h);
  ps_dirty : exists l, b_dirty (h_bay h') = b_dirty (h_bay h) ++ l;
  ps_chans : bc_chan <$> b_channels (h_bay h') = bc_chan <$> b_channels (h_bay h);
  ps_funcs : cb_func <$> h_cb h' = cb_func <$> h_cb h;
  ps_types : cb_type <$> h_cb h' = cb_type <$> h_cb h;
  ps_bchans : cb_bchan <$> h_cb h' = cb_bchan <$> h_cb h
}.

Lemma prop_step_refl h : prop_step h h.
Proof. split; try done. exists []. by rewrite app_nil_r. Qed.

Lemma prop_step_trans h1 h2 h3 : prop_step h1 h2 -> prop_step h2 h3 -> prop_step h1 h3.
Proof.
  intros [? [l1 E1] ? ? ? ?] [? [l2 E2] ? ? ? ?]. split; try congruence.
  exists (l1 ++ l2). by rewrite E2, E1, app_assoc.
Qed.

(** Entering another phase does not matter to what a phase changes. *)
Lemma prop_step_states h h1 h2 st st' : prop_step (set_h_bay (set_b_state st) h) h1 ->
  prop_step (set_h_bay (set_b_state st') h1) h2 -> prop_step (set_h_bay (set_b_state st') h) h2.
Proof.
  intros [? [l1 E1] ? ? ? ?] [? [l2 E2] ? ? ? ?]. simpl in *. split; simpl; try congruence.
  exists (l1 ++ l2). by rewrite E2, E1, app_assoc.
Qed.

Lemma prop_step_written a c' new h : prop_step h (heap_written a c' new h).
Proof. split; try done. by exists new. Qed.

Lemma prop_step_toggle id cb e f b h : h_cb h !! id = Some cb ->
  find_bay_chan (cb_bchan cb) h = Some b -> prop_step h (toggle id cb e f b h).
Proof.
  intros Hcb Hb. split; simpl; try done.
  - exists []. by rewrite app_nil_r.
  - rewrite fmap_insert, (proj1 (set_bc_cbs_meta _ _ _)). apply insert_id.
    unfold find_bay_chan in Hb. by rewrite lookup_fmap, Hb.
  - rewrite fmap_insert. apply insert_id. by rewrite lookup_fmap, Hcb.
  - rewrite fmap_insert. apply insert_id. by rewrite lookup_fmap, Hcb.
  - rewrite fmap_insert. apply insert_id. by rewrite lookup_fmap, Hcb.
Qed.

(** Callback [id] runs [f] when channel [a] is dirty. *)
Definition cb_on (h : heap) (id : nat) (f : bay_cb_func) (a : addr) : Prop :=
  exists cb b, h_cb h !! id = Some cb /\ cb_func cb = f /\ cb_type cb = BAY_CB_DIRTY /\
    find_bay_chan (cb_bchan cb) h = Some b /\ bc_chan b = a.

Lemma fmap_eq_lookup {K A B} `{Countable K} (f : A -> B) (m1 m2 : gmap K A) k x :
  f <$> m2 = f <$> m1 -> m1 !! k = Some x -> exists y, m2 !! k = Some y /\ f y = f x.
Proof.
  intros E Hx. assert ((f <$> m2) !! k = Some (f x)) as Hy by (by rewrite E, lookup_fmap, Hx).
  rewrite lookup_fmap in Hy. apply fmap_Some in Hy as (y & ? & ?). by exists y.
Qed.

Lemma cb_on_step h h' id f a : prop_step h h' -> cb_on h id f a -> cb_on h' id f a.
Proof.
  intros HP (cb & b & Hcb & <- & Hty & Hb & <-).
  destruct (fmap_eq_lookup _ _ _ _ _ (ps_funcs _ _ HP) Hcb) as (cb' & Hcb' & Ef).
  destruct (fmap_eq_lookup _ _ _ _ _ (ps_types _ _ HP) Hcb) as (? & ? & Et).
  destruct (fmap_eq_lookup _ _ _ _ _ (ps_bchans _ _ HP) Hcb) as (? & ? & Eb). simplify_eq.
  destruct (fmap_eq_lookup _ _ _ _ _ (ps_chans _ _ HP) Hb) as (b' & Hb' & Ec).
  exists cb', b'. split_and!; try done; [congruence|]. unfold find_bay_chan. by rewrite Eb.
Qed.

Definition set_enabled (e : bool) (cb : bay_cb) : bay_cb :=
  mk_bay_cb (cb_func cb) (cb_bchan cb) e (cb_type cb).

(** Only the enabling of callback [id] changes, to [e]. *)
Record enabling (id : nat) (cb : bay_cb) (e : bool) (h h' : heap) : Prop := {
  en_inv : bay_inv h';
  en_step : prop_step h h';
  en_chan : h_chan h' = h_chan h;
  en_mux : h_mux h' = h_mux h;
  en_cb : h_cb h' = <[id := set_enabled e cb]> (h_cb h)
}.

Lemma enabling_refl id cb h : bay_inv h -> h_cb h !! id = Some cb ->
  enabling id cb (cb_enabled cb) h h.
Proof.
  intros HI Hcb. split; try done; [apply prop_step_refl|]. symmetry. apply insert_id.
  rewrite Hcb. by destruct cb.
Qed.

Lemma bay_disable_frame id cb h : bay_inv h -> h_cb h !! id = Some cb ->
  exists h', bay_disable_cb id h = (Ok tt, h') /\ enabling id cb false h h'.
Proof.
  intros HI Hcb. destruct (bay_disable_run id cb h HI Hcb) as [(He & ->)|(_ & b & Hb & -> & HI')].
  - exists h. split; [done|]. rewrite <- He. by apply enabling_refl.
  - eexists. split; [done|]. split; try done. by apply prop_step_toggle.
Qed.

Lemma bay_enable_frame id cb h : bay_inv h -> h_cb h !! id = Some cb ->
  exists h', bay_enable_cb id h = (Ok tt, h') /\ enabling id cb true h h'.
Proof.
  intros HI Hcb. destruct (bay_enable_run id cb h HI Hcb) as [(He & ->)|(_ & b & Hb & -> & _ & HI')].
  - exists h. split; [done|]. rewrite <- He. by apply enabling_refl.
  - eexists. split; [done|]. split; try done. by apply prop_step_toggle.
Qed.

Lemma prop_step_mux f h : prop_step h (set_h_mux f h).
Proof. split; try done. exists []. by rewrite app_nil_r. Qed.

Lemma bay_inv_mux f h : bay_inv h -> bay_inv (set_h_mux f h).
Proof. by intros []; split. Qed.

(** A heap a dirty callback may reach from [h0]. *)
Definition stepping (h0 h : heap) : Prop :=
  bay_inv h /\ b_state (h_bay h) = BAY_PROPAGATING /\ prop_step h0 h.

Section Stepping.
(** [Q]: a client's invariant that does not see channels nor the bay. *)
Context (Q : heap -> Prop) (h0 : heap).
Hypothesis Q_bay : forall f h, Q h -> Q (set_h_bay f h).
Hypothesis Q_chan : forall f h, Q h -> Q (set_h_chan f h).
Hypothesis Q_cb : forall id cb e h, h_cb h !! id = Some cb -> Q h ->
  Q (put_cb id (mk_bay_cb (cb_func cb) (cb_bchan cb) e (cb_type cb)) h).

Definition stepping_with (h : heap) : Prop := stepping h0 h /\ Q h.

Lemma stepping_accepting h : stepping_with h -> accepting h.
Proof. intros ((_ & ? & _) & _). by right. Qed.

Lemma keeps_load a : keeps stepping_with (load a).
Proof. intros h Hh. unfold load, mbind, mget, deref. by destruct (cm_get a h). Qed.

Lemma keeps_run_op op a : keeps stepping_with (run_op op a).
Proof.
  intros h Hh. pose proof (stepping_accepting h Hh) as HA. destruct Hh as ((HB & HS & HP) & HQ).
  destruct (run_op_heap op a h HB HA) as [(r & -> & _)|(c & c' & _ & _ & _ & _ & -> & HB')]; simpl.
  { by split. }
  split; [split_and!; [done|done|]|].
  - eapply prop_step_trans; [done|apply prop_step_written].
  - by apply Q_bay, Q_chan.
Qed.

Lemma stepping_toggle h id cb e f b : stepping_with h -> h_cb h !! id = Some cb ->
  find_bay_chan (cb_bchan cb) h = Some b -> bay_inv (toggle id cb e f b h) ->
  stepping_with (toggle id cb e f b h).
Proof.
  intros ((HB & HS & HP) & HQ) Hcb Hb HB'. split; [split_and!; [done|done|]|].
  - eapply prop_step_trans; [done|by apply prop_step_toggle].
  - by apply Q_bay, Q_cb.
Qed.

Lemma keeps_enable id : keeps stepping_with (bay_enable_cb id).
Proof.
  intros h Hh. pose proof Hh as ((HB & _) & _). destruct (h_cb h !! id) as [cb|] eqn:Hcb.
  - destruct (bay_enable_run id cb h HB Hcb) as [(_ & ->)|(_ & b & Hb & -> & _ & HB')]; [done|].
    by apply stepping_toggle.
  - unfold bay_enable_cb, mbind, mget, deref. by rewrite Hcb.
Qed.

Lemma keeps_disable id : keeps stepping_with (bay_disable_cb id).
Proof.
  intros h Hh. pose proof Hh as ((HB & _) & _). destruct (h_cb h !! id) as [cb|] eqn:Hcb.
  - destruct (bay_disable_run id cb h HB Hcb) as [(_ & ->)|(_ & b & Hb & -> & HB')]; [done|].
    by apply stepping_toggle.
  - unfold bay_disable_cb, mbind, mget, deref. by rewrite Hcb.
Qed.
End Stepping.
#[export] Hint Resolve keeps_load keeps_run_op keeps_enable keeps_disable : ovni.

(** The sum of the weights of a list of callbacks. *)
Definition weight_of (w : bay_cb_func -> nat) (fs : gmap nat bay_cb_func) (id : nat) : nat :=
  match fs !! id with Some f => w f | None => 0%nat end.

Fixpoint wsum (w : bay_cb_func -> nat) (fs : gmap nat bay_cb_func) (l : list nat) : nat :=
  match l with [] => 0%nat | id :: l' => (weight_of w fs id + wsum w fs l')%nat end.

Class BayCallbackLaws `{BayCallbacks} := {
  (** the client's own invariant, on its structures and callbacks *)
  cb_inv : heap -> Prop;
  cb_inv_state : forall h st, cb_inv h -> cb_inv (set_h_bay (set_b_state st) h);
  cb_inv_dirty : forall h f, cb_inv h -> cb_inv (set_h_bay (set_b_dirty f) h);
  cb_inv_chan : forall h f, cb_inv h -> cb_inv (set_h_chan f h);
  (** emit callbacks leave channels and bay alone *)
  cb_emits : bay_cb_func -> Prop;
  cb_inv_emits : forall h id cb, cb_inv h -> h_cb h !! id = Some cb ->
    cb_type cb = BAY_CB_EMIT -> cb_emits (cb_func cb);
  cb_emit_frame : forall f a h, cb_emits f -> cb_inv h ->
    let h' := (cb_call f a h).2 in
    h_chan h' = h_chan h /\ h_bay h' = h_bay h /\ h_cb h' = h_cb h /\ cb_inv h';
  (** dirty callbacks keep the invariants and only add to the dirty list *)
  cb_dirty_step : forall h id cb a, bay_inv h -> cb_inv h ->
    b_state (h_bay h) = BAY_PROPAGATING -> h_cb h !! id = Some cb -> cb_enabled cb = true ->
    cb_type cb = BAY_CB_DIRTY ->
    let h' := (cb_call (cb_func cb) a h).2 in
    bay_inv h' /\ cb_inv h' /\ prop_step h h';
  (** every callback has a weight; running one leaves less weight behind it *)
  cb_weight : bay_cb_func -> nat;
  cb_weight_pos : forall f, (0 < cb_weight f)%nat;
  cb_dirty_weight : forall h h' id cb a name b b', bay_inv h -> cb_inv h ->
    b_state (h_bay h) = BAY_PROPAGATING -> h_cb h !! id = Some cb -> cb_enabled cb = true ->
    cb_type cb = BAY_CB_DIRTY -> cb_call (cb_func cb) a h = (Ok tt, h') ->
    find_bay_chan name h = Some b -> find_bay_chan name h' = Some b' ->
    id ∈ bc_cbs BAY_CB_DIRTY b -> 
    (wsum cb_weight (cb_func <$> h_cb h) (after id (bc_cbs BAY_CB_DIRTY b')) <
     cb_weight (cb_func cb) + wsum cb_weight (cb_func <$> h_cb h) (after id (bc_cbs BAY_CB_DIRTY b)))%nat;
  cb_no_fuel : forall f a h, (cb_call f a h).1 <> Fuel
}.

(** ** Lists and weights *)

Lemma after_cons {A} `{EqDecision A} (x : A) l : after x (x :: l) = l.
Proof. simpl. by rewrite decide_True. Qed.

Lemma after_sub {A} `{EqDecision A} (x y : A) l : y ∈ after x l -> y ∈ l.
Proof.
  induction l as [|z l IH]; simpl; [done|]. case_decide; intros; right; [done|by apply IH].
Qed.

Lemma wsum_app w fs l1 l2 : wsum w fs (l1 ++ l2) = (wsum w fs l1 + wsum w fs l2)%nat.
Proof. induction l1; simpl; lia. Qed.

Lemma weight_of_cb w (cbs : gmap nat bay_cb) id cb : cbs !! id = Some cb ->
  weight_of w (cb_func <$> cbs) id = w (cb_func cb).
Proof. intros Hcb. unfold weight_of. by rewrite lookup_fmap, Hcb. Qed.

Lemma after_disable id x l : x <> id -> x ∈ l ->
  after x (disable_list id l) = disable_list id (after x l).
Proof.
  intros Hne. induction l as [|y l IH]; [by intros ?%elem_of_nil|]. intros Hx. simpl.
  destruct (Nat.eqb_spec y id) as [->|Hy]; simpl.
  - rewrite decide_False by done. apply IH. set_solver.
  - destruct (decide (x = y)) as [->|]; simpl; [by rewrite ?decide_True|].
    apply IH. set_solver.
Qed.

Lemma after_app_in (x : nat) l k : x ∈ l -> after x (l ++ k) = after x l ++ k.
Proof.
  induction l as [|y l IH]; [by intros ?%elem_of_nil|]. intros Hx. simpl.
  case_decide; [done|]. apply IH. set_solver.
Qed.

Lemma wsum_disable w fs id l : (wsum w fs (disable_list id l) <= wsum w fs l)%nat.
Proof. induction l as [|y l IH]; simpl; [done|]. destruct (negb _); simpl; lia. Qed.

(** The weight of all callbacks: the bound on the work of one list. *)
Definition wtotal (w : bay_cb_func -> nat) (fs : gmap nat bay_cb_func) : nat :=
  map_fold (fun _ f acc => w f + acc)%nat 0%nat fs.

Lemma wtotal_delete w fs id f : fs !! id = Some f ->
  wtotal w fs = (w f + wtotal w (delete id fs))%nat.
Proof.
  intros Hf. unfold wtotal. rewrite <- (insert_delete_id fs id f) at 1 by done.
  rewrite map_fold_insert_L; [done| |by apply lookup_delete_eq]. intros. lia.
Qed.

Lemma wsum_delete w fs id l : id ∉ l -> wsum w (delete id fs) l = wsum w fs l.
Proof.
  induction l as [|y l IH]; simpl; [done|]. intros Hn. apply not_elem_of_cons in Hn as [? ?].
  rewrite IH by done. unfold weight_of. by rewrite lookup_delete_ne.
Qed.

Lemma wsum_le_total w fs l : NoDup l -> (wsum w fs l <= wtotal w fs)%nat.
Proof.
  intros Hl. revert fs. induction Hl as [|id l Hid Hl IH]; intros fs; simpl; [lia|].
  unfold weight_of. destruct (fs !! id) as [f|] eqn:Hf; [|apply IH].
  rewrite (wtotal_delete w fs id f Hf). specialize (IH (delete id fs)).
  rewrite wsum_delete in IH by done. lia.
Qed.

Lemma wsum_head_after w fs id l : head l = Some id -> wsum w fs l = (weight_of w fs id + wsum w fs (after id l))%nat.
Proof. destruct l as [|x l]; simpl; [done|]. intros [= ->]. by rewrite decide_True. Qed.

Lemma head_elem {A} (x : A) l : head l = Some x -> x ∈ l.
Proof. destruct l as [|y l]; simpl; [done|]. intros [= ->]. by left. Qed.

Lemma after_step {A} `{EqDecision A} (x y : A) l r : NoDup l -> after x l = y :: r -> after y l = r.
Proof.
  induction 1 as [|z l Hz Hl IH]; simpl; [done|]. case_decide as E1.
  - intros ->. rewrite decide_False; [by apply after_cons|].
    intros ->. apply Hz. by left.
  - intros E. rewrite decide_False; [by apply IH|]. intros <-.
    apply Hz, (after_sub x). rewrite E. by left.
Qed.

Section PropagateFacts.
Context `{BayCallbackLaws}.

(** What is still to run from a cursor. *)
Definition work (h : heap) (cur : option nat) (l : list nat) : nat :=
  match cur with
  | None => 0%nat
  | Some id => (weight_of cb_weight (cb_func <$> h_cb h) id +
                wsum cb_weight (cb_func <$> h_cb h) (after id l))%nat
  end.

Lemma prop_step_find h h' name b : prop_step h h' -> find_bay_chan name h = Some b ->
  exists b', find_bay_chan name h' = Some b' /\ bc_chan b' = bc_chan b.
Proof.
  intros HP Hb. pose proof (ps_chans _ _ HP) as E.
  assert ((bc_chan <$> b_channels (h_bay h')) !! name = Some (bc_chan b)) as E2.
  { rewrite E, lookup_fmap. unfold find_bay_chan in Hb. by rewrite Hb. }
  rewrite lookup_fmap in E2. apply fmap_Some in E2 as (b' & ? & ?). eauto.
Qed.

Definition in_state (st : bay_state) (h : heap) : Prop :=
  bay_inv h /\ cb_inv h /\ b_state (h_bay h) = st.

(** What the loops of a phase need from its callbacks. *)
Definition phase_law (ty : bay_cb_type) (st : bay_state) : Prop :=
  forall h id cb a, in_state st h -> h_cb h !! id = Some cb -> cb_enabled cb = true ->
  cb_type cb = ty ->
  let r := cb_call (cb_func cb) a h in
  in_state st r.2 /\ prop_step h r.2 /\
  forall name b b', r.1 = Ok tt -> find_bay_chan name h = Some b ->
    find_bay_chan name r.2 = Some b' -> id ∈ bc_cbs ty b ->
    (wsum cb_weight (cb_func <$> h_cb h) (after id (bc_cbs ty b')) <
     cb_weight (cb_func cb) + wsum cb_weight (cb_func <$> h_cb h) (after id (bc_cbs ty b)))%nat.

Lemma dirty_law : phase_law BAY_CB_DIRTY BAY_PROPAGATING.
Proof.
  intros h id cb a (HB & HC & HS) Hcb Hen Hty.
  destruct (cb_dirty_step h id cb a HB HC HS Hcb Hen Hty) as (? & ? & HP).
  split_and!; try done; [split_and!; try done; by rewrite (ps_state _ _ HP)|].
  intros name b b' Hr Hb Hb' Hin.
  apply (cb_dirty_weight h (cb_call (cb_func cb) a h).2 id cb a name b b'); try done.
  rewrite <- Hr. apply surjective_pairing.
Qed.

Lemma bay_inv_ext h h' : h_chan h' = h_chan h -> h_bay h' = h_bay h -> h_cb h' = h_cb h ->
  bay_inv h -> bay_inv h'.
Proof.
  intros E1 E2 E3 [? ? ? ? ? ? ?]. unfold find_bay_chan in *.
  split; unfold find_bay_chan; rewrite ?E1, ?E2, ?E3; done.
Qed.

Lemma emit_law : phase_law BAY_CB_EMIT BAY_EMITTING.
Proof.
  intros h id cb a (HB & HC & HS) Hcb Hen Hty.
  destruct (cb_emit_frame (cb_func cb) a h) as (E1 & E2 & E3 & HC'); [|done|].
  { eapply cb_inv_emits; eauto. }
  split_and!.
  - split_and!; [by eapply bay_inv_ext|done|by rewrite E2].
  - split; rewrite ?E2, ?E3; try done. exists []. by rewrite app_nil_r.
  - intros name b b' _ Hb Hb' _. unfold find_bay_chan in *. rewrite E2 in Hb'. simplify_eq.
    pose proof (cb_weight_pos (cb_func cb)). lia.
Qed.

Lemma work_head_after h id l : NoDup l ->
  work h (head (after id l)) l = wsum cb_weight (cb_func <$> h_cb h) (after id l).
Proof.
  intros Hl. unfold work. destruct (after id l) as [|y r] eqn:E; simpl; [done|].
  by rewrite (after_step _ _ _ _ Hl E).
Qed.

Lemma foreach_cb_phase ty st fuel name cur h b : phase_law ty st ->
  in_state st h -> find_bay_chan name h = Some b ->
  (forall id, cur = Some id -> id ∈ bc_cbs ty b) ->
  let r := foreach_cb fuel name ty cur h in
  in_state st r.2 /\ prop_step h r.2 /\
  ((work h cur (bc_cbs ty b) <= fuel)%nat -> r.1 <> Fuel).
Proof.
  intros HL. revert cur h b. induction fuel as [|fuel IH]; intros [id|] h b HP Hb Hin; cbn [foreach_cb];
    try (split_and!; try done; apply prop_step_refl).
  { split_and!; [done|apply prop_step_refl|]. intros Hw.
    destruct (bi_cbs h (proj1 HP) name b ty id Hb (Hin _ eq_refl)) as (cb & Hcb & _).
    unfold work in Hw. rewrite (weight_of_cb _ _ _ _ Hcb) in Hw.
    pose proof (cb_weight_pos (cb_func cb)). lia. }
  pose proof HP as (HB & HC & HS). specialize (Hin _ eq_refl).
  destruct (bi_cbs h HB name b ty id Hb Hin) as (cb & Hcb & Hbc & Hty & Hen).
  destruct (HL h id cb (bc_chan b) HP Hcb Hen Hty) as (HP' & HS' & HW).
  rewrite (mbind_run _ _ _ h h) by done.
  rewrite (mbind_run _ _ _ cb h) by by apply deref_Ok.
  rewrite (mbind_run _ _ _ b h) by by apply deref_Ok.
  pose proof (cb_no_fuel (cb_func cb) (bc_chan b) h) as Hnf.
  destruct (mbind_cases (cb_call (cb_func cb) (bc_chan b))
    (fun _ => let* h' := mget in let* bchan' := deref (find_bay_chan name h') in
      foreach_cb fuel name ty (head (after id (bc_cbs ty bchan')))) h)
    as [([] & h1 & E & ->) | (-> & _ & HF & _)]; [|by eauto 10].
  rewrite E in HP', HS', HW. simpl in HP', HS', HW.
  destruct (prop_step_find _ _ _ _ HS' Hb) as (b1 & Hb1 & _).
  rewrite (mbind_run _ _ _ h1 h1) by done.
  rewrite (mbind_run _ _ _ b1 h1) by by apply deref_Ok.
  assert (NoDup (bc_cbs ty b1)) as Hnd by apply (bi_cbs_nodup h1 (proj1 HP') name b1 ty Hb1).
  destruct (IH (head (after id (bc_cbs ty b1))) h1 b1 HP' Hb1) as (HP2 & HS2 & Hfuel).
  { intros i Hi. apply (after_sub id), head_elem, Hi. }
  split_and!; [done|by eapply prop_step_trans|]. intros Hw. apply Hfuel.
  rewrite (work_head_after h1) by done. rewrite (ps_funcs _ _ HS').
  specialize (HW name b b1 eq_refl Hb Hb1 Hin). unfold work in Hw.
  rewrite (weight_of_cb _ _ _ _ Hcb) in Hw. lia.
Qed.

Lemma propagate_chan_phase ty st fuel name h : phase_law ty st ->
  in_state st h -> name ∈ b_dirty (h_bay h) ->
  let r := propagate_chan fuel name ty h in
  in_state st r.2 /\ prop_step h r.2 /\
  ((wtotal cb_weight (cb_func <$> h_cb h) <= fuel)%nat -> r.1 <> Fuel).
Proof.
  intros HL HP Hn. pose proof HP as (HB & HC & HS).
  apply (bi_dirty h HB) in Hn as (b & c & Hb & _).
  unfold propagate_chan. rewrite (mbind_run _ _ _ h h) by done.
  rewrite (mbind_run _ _ _ b h) by by apply deref_Ok.
  destruct (foreach_cb_phase ty st fuel name (head (bc_cbs ty b)) h b) as (? & ? & Hf); try done.
  { intros id. by apply head_elem. }
  split_and!; [done..|]. intros Hw. apply Hf.
  pose proof (bi_cbs_nodup h HB name b ty Hb) as Hnd.
  pose proof (wsum_le_total cb_weight (cb_func <$> h_cb h) _ Hnd) as Hle.
  unfold work. destruct (bc_cbs ty b) as [|id l]; simpl in *; [lia|].
  rewrite decide_True by done. lia.
Qed.

(** The dirty list never holds more than the registered channels. *)
Lemma dirty_length h : bay_inv h -> (length (b_dirty (h_bay h)) <= size (b_channels (h_bay h)))%nat.
Proof.
  intros HB. rewrite <- (size_list_to_set (C:=gset string) (b_dirty (h_bay h))) by apply bi_nodup, HB.
  rewrite <- size_dom. apply subseteq_size. intros n Hn.
  apply elem_of_list_to_set, (bi_dirty h HB) in Hn as (b & c & Hb & _).
  apply elem_of_dom. by exists b.
Qed.

Lemma prop_step_size h h' : prop_step h h' ->
  size (b_channels (h_bay h')) = size (b_channels (h_bay h)).
Proof.
  intros HP. rewrite <- (map_size_fmap bc_chan (b_channels (h_bay h'))), (ps_chans _ _ HP).
  apply map_size_fmap.
Qed.

(** A phase: it keeps the invariants and, with one unit of fuel per
    registered channel and per unit of callback weight, it ends. *)
Lemma phase_loop ty st fuel cfuel i h : phase_law ty st ->
  in_state st h ->
  let r := foreach_dirty fuel (fun n => propagate_chan cfuel n ty) i h in
  in_state st r.2 /\ prop_step h r.2 /\
  ((size (b_channels (h_bay h)) <= fuel + i)%nat ->
   (wtotal cb_weight (cb_func <$> h_cb h) <= cfuel)%nat -> r.1 <> Fuel).
Proof.
  intros HL. revert i h. induction fuel as [|fuel IH]; intros i h HP; simpl.
  - rewrite (mbind_run _ _ _ h h) by done.
    destruct (b_dirty (h_bay h) !! i) eqn:Hi; simpl; (split_and!; [done|apply prop_step_refl|]); [|done].
    intros Hs. apply lookup_lt_Some in Hi. pose proof (dirty_length h (proj1 HP)). lia.
  - rewrite (mbind_run _ _ _ h h) by done.
    destruct (b_dirty (h_bay h) !! i) as [name|] eqn:Hi; simpl;
      [|split_and!; [done|apply prop_step_refl|done]].
    assert (name ∈ b_dirty (h_bay h)) as Hn by (apply list_elem_of_lookup; eauto).
    destruct (propagate_chan_phase ty st cfuel name h HL HP Hn) as (HP1 & HS1 & Hf1).
    destruct (mbind_cases (propagate_chan cfuel name ty)
      (fun _ => foreach_dirty fuel (fun n => propagate_chan cfuel n ty) (S i)) h)
      as [([] & h1 & E & ->) | (-> & _ & HF & _)]; [|split_and!; [done|done|intros _ Hw Hx; by apply (Hf1 Hw), HF]].
    rewrite E in HP1, HS1. simpl in HP1, HS1.
    destruct (IH (S i) h1 HP1) as (HP2 & HS2 & Hf2).
    split_and!; [done|by eapply prop_step_trans|]. intros Hs Hw. apply Hf2.
    + rewrite (prop_step_size _ _ HS1). lia.
    + by rewrite (ps_funcs _ _ HS1).
Qed.

(** *** Flushing *)

Definition flush_chan (c : chan) : chan := with_dirty false (with_last (get_value c) c).

(** Channel [c] once the bay channels [l] have been flushed. *)
Definition flushed (l : list string) (c : chan) : chan :=
  match c_dirty_arg c with
  | Some n => if decide (n ∈ l) then flush_chan c else c
  | None => c
  end.

Definition flush_heap (l : list string) (h : heap) : heap := set_h_chan (fmap (flushed l)) h.

Lemma flushed_meta l c : c_name (flushed l c) = c_name c /\ c_dirty_arg (flushed l c) = c_dirty_arg c.
Proof. unfold flushed. repeat case_match; done. Qed.

Lemma put_bchan_id name b h : find_bay_chan name h = Some b -> put_bchan name b h = h.
Proof.
  unfold find_bay_chan, put_bchan, set_h_bay, set_b_channels.
  destruct h as [? [? ? ?] ? ? ? ? ? ? ? ?]; simpl. intros. by rewrite insert_id.
Qed.

Lemma flush_step h0 i name :
  bay_inv h0 -> b_dirty (h_bay h0) !! i = Some name ->
  flush_bchan name (flush_heap (take i (b_dirty (h_bay h0))) h0) =
    (Ok tt, flush_heap (take (S i) (b_dirty (h_bay h0))) h0).
Proof.
  intros HB Hi. set (l := b_dirty (h_bay h0)) in *.
  assert (name ∉ take i l) as Hni.
  { intros Hin. apply list_elem_of_lookup in Hin as [j Hj].
    apply lookup_take_Some in Hj as [Hj ?].
    pose proof (NoDup_lookup l i j name (bi_nodup h0 HB) Hi Hj). lia. }
  assert (name ∈ l) as Hin by (apply list_elem_of_lookup; eauto).
  apply (bi_dirty h0 HB) in Hin as (b & c & Hb & Hc & Hd).
  destruct (bi_reg h0 HB name b Hb) as (Hcl & c' & Hc' & Hn & Ha).
  assert (c' = c) as -> by congruence.
  unfold flush_bchan. rewrite (mbind_run _ _ _ (flush_heap (take i l) h0) (flush_heap (take i l) h0)) by done.
  rewrite (mbind_run _ _ _ b (flush_heap (take i l) h0)) by by apply deref_Ok.
  assert (flushed (take i l) c = c) as Hfc by (unfold flushed; rewrite Ha; by rewrite decide_False).
  rewrite (mbind_run _ _ _ tt (set_h_chan <[bc_chan b := flush_chan c]> (flush_heap (take i l) h0))).
  2:{ apply chan_flush_Ok. exists c. simpl. rewrite lookup_fmap, Hc. simpl. by rewrite Hfc. }
  unfold mmod. f_equal.
  match goal with |- put_bchan name ?x _ = _ => assert (x = b) as -> by (rewrite <- Hcl; by destruct b) end.
  rewrite put_bchan_id by done.
  unfold flush_heap, set_h_chan; simpl. f_equal. apply map_eq. intros a. rewrite lookup_insert.
  case_decide as E.
  - subst a. rewrite lookup_fmap, Hc. simpl. f_equal. unfold flushed. rewrite Ha.
    rewrite decide_True; [done|]. rewrite (take_S_r _ _ name) by done. apply elem_of_app. right. by left.
  - rewrite !lookup_fmap. destruct (h_chan h0 !! a) as [ca|] eqn:Hca; simpl; [|done]. f_equal.
    unfold flushed. destruct (c_dirty_arg ca) as [n|] eqn:Hna; [|done].
    rewrite (take_S_r _ _ name) by done.
    assert (n <> name) as Hne.
    { intros ->. destruct (bi_arg h0 HB a ca name Hca Hna) as (b2 & Hb2 & <-). by simplify_eq. }
    destruct (decide (n ∈ take i l)) as [Hx|Hx]; [rewrite decide_True; set_solver|].
    rewrite decide_False; set_solver.
Qed.

Lemma flush_loop h0 fuel i :
  bay_inv h0 -> (length (b_dirty (h_bay h0)) <= fuel + i)%nat ->
  foreach_dirty fuel flush_bchan i (flush_heap (take i (b_dirty (h_bay h0))) h0) =
    (Ok tt, flush_heap (b_dirty (h_bay h0)) h0).
Proof.
  intros HB. revert i. induction fuel as [|fuel IH]; intros i Hl; cbn [foreach_dirty];
    rewrite (mbind_run _ _ _ (flush_heap (take i (b_dirty (h_bay h0))) h0)
      (flush_heap (take i (b_dirty (h_bay h0))) h0)) by done;
    change (h_bay (flush_heap (take i (b_dirty (h_bay h0))) h0)) with (h_bay h0).
  - rewrite lookup_ge_None_2 by lia. by rewrite take_ge by lia.
  - destruct (b_dirty (h_bay h0) !! i) as [name|] eqn:Hi.
    + rewrite (mbind_run _ _ _ _ _ (flush_step h0 i name HB Hi)). apply IH. lia.
    + apply lookup_ge_None_1 in Hi. by rewrite take_ge by lia.
Qed.

(** From the start: it flushes every dirty channel or runs out of fuel. *)
Lemma flush_loop_any h0 fuel : bay_inv h0 ->
  foreach_dirty fuel flush_bchan 0 h0 = (Ok tt, flush_heap (b_dirty (h_bay h0)) h0) \/
  ((foreach_dirty fuel flush_bchan 0 h0).1 = Fuel /\ (fuel < length (b_dirty (h_bay h0)))%nat).
Proof.
  intros HB.
  assert (flush_heap (take 0 (b_dirty (h_bay h0))) h0 = h0) as E0.
  { unfold flush_heap, set_h_chan. simpl. destruct h0; simpl. f_equal.
    rewrite <- (map_fmap_id h_chan) at 2. apply map_fmap_ext. intros a c _.
    unfold flushed. by destruct (c_dirty_arg c). }
  destruct (decide (length (b_dirty (h_bay h0)) <= fuel + 0)%nat) as [Hl|Hl].
  { left. rewrite <- E0 at 1. by apply flush_loop. }
  right. split; [|lia].
  enough (forall k, (fuel + k < length (b_dirty (h_bay h0)))%nat ->
    (foreach_dirty fuel flush_bchan k (flush_heap (take k (b_dirty (h_bay h0))) h0)).1 = Fuel) as Hk.
  { rewrite <- E0 at 1. apply Hk. lia. }
  clear Hl E0. induction fuel as [|fuel IH]; intros k Hk; cbn [foreach_dirty];
    rewrite (mbind_run _ _ _ (flush_heap (take k (b_dirty (h_bay h0))) h0)
      (flush_heap (take k (b_dirty (h_bay h0))) h0)) by done;
    change (h_bay (flush_heap (take k (b_dirty (h_bay h0))) h0)) with (h_bay h0);
    (destruct (lookup_lt_is_Some_2 (b_dirty (h_bay h0)) k) as [name Hi]; [lia|]); rewrite Hi.
  - done.
  - rewrite (mbind_run _ _ _ _ _ (flush_step h0 k name HB Hi)). apply IH. lia.
Qed.

Lemma find_flush_heap l h name : find_bay_chan name (flush_heap l h) = find_bay_chan name h.
Proof. done. Qed.

(** The bay once the flushed list is emptied. *)
Definition settled (h : heap) : heap :=
  set_h_bay (fun b => set_b_state BAY_READY (set_b_dirty (fun _ => []) b))
    (flush_heap (b_dirty (h_bay h)) h).

Lemma settled_chan h name b : bay_inv h -> find_bay_chan name h = Some b ->
  exists c, h_chan h !! bc_chan b = Some c /\
    h_chan (settled h) !! bc_chan b = Some (if c_is_dirty c then flush_chan c else c).
Proof.
  intros HB Hb. destruct (bi_reg h HB name b Hb) as (_ & c & Hc & _ & Ha).
  exists c. split; [done|]. simpl. rewrite lookup_fmap, Hc. simpl. f_equal.
  unfold flushed. rewrite Ha. destruct (decide (name ∈ b_dirty (h_bay h))) as [Hin|Hin].
  - apply (bi_dirty h HB) in Hin as (b' & c' & ? & ? & Hd). simplify_eq. by rewrite Hd.
  - destruct (c_is_dirty c) eqn:Hd; [|done]. exfalso. apply Hin, (bi_dirty h HB). eauto 10.
Qed.

Lemma settled_inv h : bay_inv h -> bay_inv (settled h).
Proof.
  intros HB. split.
  - intros name b Hb. change (find_bay_chan name h = Some b) in Hb.
    destruct (bi_reg h HB name b Hb) as (? & c & Hc & <- & Ha). split; [done|].
    exists (flushed (b_dirty (h_bay h)) c). destruct (flushed_meta (b_dirty (h_bay h)) c) as [? ?].
    split; [simpl; by rewrite lookup_fmap, Hc|]. split; congruence.
  - intros a c name Hc Ha. simpl in Hc. rewrite lookup_fmap in Hc.
    apply fmap_Some in Hc as (c0 & Hc0 & ->). destruct (flushed_meta (b_dirty (h_bay h)) c0) as [_ E].
    rewrite E in Ha. by apply (bi_arg h HB a c0).
  - constructor.
  - intros name. split; [intros Hin; by apply elem_of_nil in Hin|]. intros (b & c & Hb & Hc & Hd).
    destruct (settled_chan h name b HB Hb) as (c0 & _ & Hc0). rewrite Hc in Hc0. injection Hc0 as ->.
    destruct (c_is_dirty c0) eqn:E; simpl in Hd; congruence.
  - apply (bi_cbs h HB).
  - apply (bi_cbs_nodup h HB).
  - apply (bi_cb h HB).
Qed.

(** The whole of [bay_propagate], phase by phase: if the first two phases
    succeed the result is the settled heap, and enough fuel excludes [Fuel]. *)
Lemma bay_propagate_phases fuel h :
  bay_inv h -> cb_inv h ->
  let r := bay_propagate fuel h in
  (r.1 = Ok tt -> exists h2, bay_inv h2 /\ cb_inv h2 /\
     prop_step (set_h_bay (set_b_state BAY_EMITTING) h) h2 /\ r.2 = settled h2) /\
  ((size (b_channels (h_bay h)) <= fuel)%nat ->
   (wtotal cb_weight (cb_func <$> h_cb h) <= fuel)%nat -> r.1 <> Fuel).
Proof.
  intros HB HC.
  assert (forall st h, bay_inv h -> cb_inv h -> in_state st (set_h_bay (set_b_state st) h)) as Hst.
  { intros st h' HB' HC'. split_and!; [|by apply cb_inv_state|done]. by destruct HB'; split. }
  unfold bay_propagate. set (h1 := set_h_bay (set_b_state BAY_PROPAGATING) h).
  rewrite (mbind_run _ _ _ tt h1) by done.
  destruct (phase_loop BAY_CB_DIRTY BAY_PROPAGATING fuel fuel 0 h1 dirty_law (Hst _ _ HB HC))
    as ((HB1 & HC1 & _) & HS1 & HF1).
  destruct (mbind_cases (foreach_dirty fuel (fun n => propagate_chan fuel n BAY_CB_DIRTY) 0)
    (fun _ => mmod (set_h_bay (set_b_state BAY_EMITTING)) ;;;
       foreach_dirty fuel (fun n => propagate_chan fuel n BAY_CB_EMIT) 0 ;;;
       mmod (set_h_bay (set_b_state BAY_FLUSHING)) ;;;
       foreach_dirty fuel flush_bchan 0 ;;;
       mmod (set_h_bay (fun b => set_b_state BAY_READY (set_b_dirty (fun _ => []) b)))) h1)
    as [([] & h2 & E1 & ->) | (_ & Hno & HF & _)].
  2:{ split; [by intros ?%Hno|]. intros Hs Hw Hx. apply HF1; [simpl; lia|done|auto]. }
  rewrite E1 in HB1, HC1, HS1. simpl in HB1, HC1, HS1.
  set (h3 := set_h_bay (set_b_state BAY_EMITTING) h2). rewrite (mbind_run _ _ _ tt h3) by done.
  destruct (phase_loop BAY_CB_EMIT BAY_EMITTING fuel fuel 0 h3 emit_law (Hst _ _ HB1 HC1))
    as ((HB2 & HC2 & _) & HS2 & HF2).
  destruct (mbind_cases (foreach_dirty fuel (fun n => propagate_chan fuel n BAY_CB_EMIT) 0)
    (fun _ => mmod (set_h_bay (set_b_state BAY_FLUSHING)) ;;;
       foreach_dirty fuel flush_bchan 0 ;;;
       mmod (set_h_bay (fun b => set_b_state BAY_READY (set_b_dirty (fun _ => []) b)))) h3)
    as [([] & h4 & E2 & ->) | (_ & Hno & HF & _)].
  2:{ split; [by intros ?%Hno|]. intros Hs Hw Hx. apply HF2; [| |auto].
      - simpl. rewrite (prop_step_size _ _ HS1). simpl. lia.
      - simpl. by rewrite (ps_funcs _ _ HS1). }
  rewrite E2 in HB2, HC2, HS2. simpl in HB2, HC2, HS2.
  set (h5 := set_h_bay (set_b_state BAY_FLUSHING) h4). rewrite (mbind_run _ _ _ tt h5) by done.
  assert (bay_inv h5) as HB5 by (by destruct HB2; split).
  destruct (flush_loop_any h5 fuel HB5) as [E|[E Hlen]].
  - rewrite (mbind_run _ _ _ _ _ E). split; [|done]. intros _. exists h4.
    split_and!; [done|done| |done]. by eapply prop_step_states.
  - destruct (mbind_cases (foreach_dirty fuel flush_bchan 0)
      (fun _ => mmod (set_h_bay (fun b => set_b_state BAY_READY (set_b_dirty (fun _ => []) b)))) h5)
      as [([] & h6 & E6 & _)|(_ & Hno & _ & _)]; [by rewrite E6 in E|].
    split; [by intros ?%Hno|]. intros Hs _. exfalso.
    pose proof (dirty_length h4 HB2) as Hdl.
    rewrite (prop_step_size _ _ HS2) in Hdl. simpl in Hdl.
    rewrite (prop_step_size _ _ HS1) in Hdl. simpl in Hdl, Hlen. lia.
Qed.

(** What a finished propagation leaves: a clean bay in its ready state, where
    every channel that was dirty has been flushed. *)
Definition propagated (h h' : heap) : Prop :=
  bay_inv h' /\ cb_inv h' /\ b_state (h_bay h') = BAY_READY /\ b_dirty (h_bay h') = [] /\
  bc_chan <$> b_channels (h_bay h') = bc_chan <$> b_channels (h_bay h) /\
  (forall name b, find_bay_chan name h' = Some b ->
     exists c, h_chan h' !! bc_chan b = Some c /\ c_is_dirty c = false /\
       (name ∈ b_dirty (h_bay h) -> c_last_value c = chan_read c)).

Lemma bay_propagate_ends fuel h :
  bay_inv h -> cb_inv h ->
  (size (b_channels (h_bay h)) <= fuel)%nat ->
  (wtotal cb_weight (cb_func <$> h_cb h) <= fuel)%nat ->
  (bay_propagate fuel h).1 <> Fuel /\
  ((bay_propagate fuel h).1 = Ok tt -> propagated h (bay_propagate fuel h).2).
Proof.
  intros HB HC Hs Hw. destruct (bay_propagate_phases fuel h HB HC) as [HOk HF].
  split; [by apply HF|]. intros E. destruct (HOk E) as (h2 & HB2 & HC2 & HS & ->).
  split_and!; try done.
  - by apply settled_inv.
  - exact (cb_inv_state _ BAY_READY (cb_inv_dirty _ (fun _ => []) (cb_inv_chan _ _ HC2))).
  - apply (ps_chans _ _ HS).
  - intros name b Hb. destruct (settled_chan h2 name b HB2 Hb) as (c & Hc & Hc').
    eexists. split; [exact Hc'|]. destruct (c_is_dirty c) eqn:Hd; [done|]. split; [done|].
    intros Hin. exfalso. destruct (ps_dirty _ _ HS) as [l El]. simpl in El.
    assert (name ∈ b_dirty (h_bay h2)) as Hin2 by (rewrite El; set_solver).
    apply (bi_dirty h2 HB2) in Hin2 as (b' & c' & Hb' & ? & ?).
    change (find_bay_chan name h2 = Some b) in Hb. simplify_eq. congruence.
Qed.
End PropagateFacts.
