(* ===== verification/Mux.v ===== *)
(** * Multiplexers (src/emu/mux.c and the select functions)

    A mux copies one of its inputs, chosen by the value of its select channel,
    to its output.  The dirty callback of the selected input is the only one of
    its inputs that is enabled, so a change of another input is not seen. *)

From S2P Require Import Prelude Chan Heap Bay.

Definition load_mux (m : nat) : M heap mux := let* h := mget in deref (h_mux h !! m).
Definition upd_mux (m : nat) (f : mux -> mux) : M heap unit := mmod (set_h_mux (alter f m)).

(** [&mux->inputs[index]]; [None] when it is outside the array. *)
Definition mux_get_input (mx : mux) (index : Z) : option mux_input :=
  if index <? 0 then None else m_inputs mx !! Z.to_nat index.

Definition set_selected (x : Z) (mx : mux) : mux :=
  mk_mux (m_ninputs mx) x (m_inputs mx) (m_select_func mx) (m_select mx) (m_output mx) (m_def mx).
Definition set_input (index : Z) (f : mux_input -> mux_input) (mx : mux) : mux :=
  mk_mux (m_ninputs mx) (m_selected mx) (alter f (Z.to_nat index) (m_inputs mx))
    (m_select_func mx) (m_select mx) (m_output mx) (m_def mx).
Definition input_select (b : bool) (i : mux_input) : mux_input :=
  mk_mux_input (mi_index i) (mi_chan i) b (mi_output i) (mi_cb i).

(** ** Selecting: the index of the input, [None] for NULL *)

Definition default_select (mx : mux) (key : value) : M heap (option Z) :=
  match v_type key with
  | VALUE_NULL => mret None
  | VALUE_INT64 =>
      let index := v_i key in
      if (index <? 0) || (m_ninputs mx <=? index) then mfail else mret (Some index)
  | VALUE_DOUBLE => mfail
  end.

(** The cast to the enumeration keeps the low 32 bits. *)
Definition thread_select_active (mx : mux) (v : value) : M heap (option Z) :=
  match v_type v with
  | VALUE_NULL => mret None
  | VALUE_DOUBLE => mfail
  | VALUE_INT64 =>
      let state := u32 (v_i v) in
      if negb (m_ninputs mx =? 1) then mfail else
      if (state =? thread_state_Z TH_ST_RUNNING) || (state =? thread_state_Z TH_ST_COOLING) ||
         (state =? thread_state_Z TH_ST_WARMING)
      then mret (Some 0) else mret None
  end.

Definition thread_select_running (mx : mux) (v : value) : M heap (option Z) :=
  match v_type v with
  | VALUE_NULL => mret None
  | VALUE_DOUBLE => mfail
  | VALUE_INT64 =>
      let state := u32 (v_i v) in
      if negb (m_ninputs mx =? 1) then mfail else
      if state =? thread_state_Z TH_ST_RUNNING then mret (Some 0) else mret None
  end.

Definition read_input (mx : mux) (index : Z) : M heap value :=
  let* input := deref (mux_get_input mx index) in
  let* a := deref (mi_chan input) in
  let* c := load a in
  mret (chan_read c).

Definition is_int64 (v : value) (x : Z) : bool :=
  bool_decide (v_type v = VALUE_INT64) && (v_i v =? x).

Definition select_tr (task_body : Z) (mx : mux) (v : value) : M heap (option Z) :=
  let* in_body :=
    (if is_int64 v task_body then
       let* tt := read_input mx 1 in mret (negb (value_is_null tt))
     else mret false) in
  if in_body then mret (Some 1) else
  let* ss := read_input mx 0 in
  if value_is_null ss then mret None else mret (Some 0).

Definition select_idle (progressing : Z) (mx : mux) (v : value) : M heap (option Z) :=
  if is_int64 v progressing then mret (Some 0) else mret (Some 1).

Definition select_mux0 (label subsystem : Z) (mx : mux) (v : value) : M heap (option Z) :=
  if negb (value_is_null v) then mret (Some label) else mret (Some subsystem).

Definition select_input (mx : mux) (key : value) : M heap (option Z) :=
  match m_select_func mx with
  | None => default_select mx key
  | Some SelThreadActive => thread_select_active mx key
  | Some SelThreadRunning => thread_select_running mx key
  | Some (SelTr b) => select_tr b mx key
  | Some (SelIdle p) => select_idle p mx key
  | Some (SelMux0 l s) => select_mux0 l s mx key
  end.

(** ** Callbacks *)

Definition cb_select (m : nat) (sel_chan : addr) : M heap unit :=
  let* mx := load_mux m in
  let* sel := load sel_chan in
  let sel_value := chan_read sel in
  (if 0 <=? m_selected mx then
     let* old_input := deref (mux_get_input mx (m_selected mx)) in
     let* cb := deref (mi_cb old_input) in
     bay_disable_cb cb ;;;
     upd_mux m (fun x => set_selected (-1) (set_input (m_selected mx) (input_select false) x))
   else mret tt) ;;;
  let* mx := load_mux m in
  let* input := select_input mx sel_value in
  (match input with
   | Some i =>
       let* inp := deref (mux_get_input mx i) in
       let* cb := deref (mi_cb inp) in
       bay_enable_cb cb ;;;
       upd_mux m (fun x => set_selected (mi_index inp) (set_input i (input_select true) x))
   | None => mret tt
   end) ;;;
  let* out_value :=
    (match input with
     | Some i => read_input mx i
     | None => mret (m_def mx)
     end) in
  chan_set (m_output mx) out_value.

Definition cb_input (m : nat) (index : Z) (in_chan : addr) : M heap unit :=
  let* mx := load_mux m in
  let* input := deref (mux_get_input mx index) in
  let* c := load in_chan in
  let out_value := chan_read c in
  let* output := deref (mi_output input) in
  chan_set output out_value.

(** ** Construction *)

(** [mux_init]: the struct [m] is a fresh one; [calloc] is assumed to succeed. *)
Definition mux_init (m : nat) (select output : addr) (func : option mux_select_func)
    (ninputs : Z) : M heap unit :=
  let* oc := load output in
  if negb (bool_decide (chan_get_type oc = CHAN_SINGLE)) then mfail else
  if bool_decide (select = output) then mfail else
  let* sc := load select in
  let* h := mget in
  let* _ := found (bay_find (c_name sc) h) in
  let* _ := found (bay_find (c_name oc) h) in
  store output (chan_prop_set CHAN_ALLOW_DUP 1 (chan_prop_set CHAN_DIRTY_WRITE 1 oc)) ;;;
  mmod (set_h_mux <[m := mk_mux ninputs 0 (replicate (Z.to_nat ninputs) mux_input_zero)
          func select output value_null]>) ;;;
  let* _ := bay_add_cb BAY_CB_DIRTY select (Some (FnSelect m)) true in
  mret tt.

Definition mux_set_input (m : nat) (index : Z) (a : addr) : M heap unit :=
  let* mx := load_mux m in
  if bool_decide (a = m_output mx) then mfail else
  let* input := deref (mux_get_input mx index) in
  match mi_chan input with
  | Some _ => mfail
  | None =>
      upd_mux m (set_input index (fun i =>
        mk_mux_input index (Some a) (mi_selected i) (Some (m_output mx)) (mi_cb i))) ;;;
      (* on failure the callback stays NULL, as it was *)
      let* cb := bay_add_cb BAY_CB_DIRTY a (Some (FnInput m index)) false in
      upd_mux m (set_input index (fun i =>
        mk_mux_input (mi_index i) (mi_chan i) (mi_selected i) (mi_output i) (Some cb)))
  end.

Definition mux_set_default (m : nat) (def : value) : M heap unit :=
  upd_mux m (fun mx => mk_mux (m_ninputs mx) (m_selected mx) (m_inputs mx)
    (m_select_func mx) (m_select mx) (m_output mx) def).

(** ** A connected mux *)

(** Every input has its channel and a callback of its own on it. *)
Record mux_conn (m : nat) (mx : mux) (h : heap) : Prop := {
  mc_len : Z.of_nat (length (m_inputs mx)) = m_ninputs mx;
  mc_sel : m_selected mx < m_ninputs mx;
  mc_input : forall i inp, m_inputs mx !! i = Some inp ->
    mi_index inp = Z.of_nat i /\ mi_output inp = Some (m_output mx) /\
    exists a id, mi_chan inp = Some a /\ mi_cb inp = Some id /\
      cb_on h id (FnInput m (Z.of_nat i)) a
}.

(** At most the callback of input [sel] is enabled, and it is if [strict]. *)
Definition enabled_only (mx : mux) (sel : Z) (strict : bool) (h : heap) : Prop :=
  forall i inp id cb, m_inputs mx !! i = Some inp -> mi_cb inp = Some id -> h_cb h !! id = Some cb ->
    (cb_enabled cb = true -> sel = Z.of_nat i) /\
    (strict = true -> sel = Z.of_nat i -> cb_enabled cb = true).

(** The fields of a mux that selecting never changes. *)
Definition same_conn (mx mx' : mux) : Prop :=
  m_ninputs mx' = m_ninputs mx /\ m_select_func mx' = m_select_func mx /\
  m_output mx' = m_output mx /\ m_def mx' = m_def mx /\
  (fun i => (mi_index i, mi_chan i, mi_output i, mi_cb i)) <$> m_inputs mx' =
  (fun i => (mi_index i, mi_chan i, mi_output i, mi_cb i)) <$> m_inputs mx.

Lemma same_conn_trans m1 m2 m3 : same_conn m1 m2 -> same_conn m2 m3 -> same_conn m1 m3.
Proof. intros (? & ? & ? & ? & ?) (? & ? & ? & ? & ?). split_and!; congruence. Qed.

Lemma same_conn_lookup mx mx' i inp : same_conn mx mx' -> m_inputs mx !! i = Some inp ->
  exists inp', m_inputs mx' !! i = Some inp' /\ mi_index inp' = mi_index inp /\
    mi_chan inp' = mi_chan inp /\ mi_output inp' = mi_output inp /\ mi_cb inp' = mi_cb inp.
Proof.
  intros (_ & _ & _ & _ & E) Hi. apply (f_equal (.!! i)) in E. rewrite !list_lookup_fmap, Hi in E.
  destruct (m_inputs mx' !! i) as [inp'|]; simplify_eq/=. exists inp'. naive_solver.
Qed.

Lemma same_conn_sym mx mx' : same_conn mx mx' -> same_conn mx' mx.
Proof. intros (? & ? & ? & ? & ?). by split_and!. Qed.

Lemma same_conn_select mx x i b : same_conn mx (set_selected x (set_input i (input_select b) mx)).
Proof.
  split_and!; try done. simpl. apply list_eq. intros j. rewrite !list_lookup_fmap, list_lookup_alter.
  case_decide; [subst|done]. by destruct (m_inputs mx !! _).
Qed.

Lemma mux_conn_step m mx mx' h h' : mux_conn m mx h -> same_conn mx mx' -> prop_step h h' ->
  m_selected mx' < m_ninputs mx -> mux_conn m mx' h'.
Proof.
  intros HC HS HP Hsel. pose proof HS as (En & _ & Eo & _ & E). split.
  - rewrite En, <- (mc_len _ _ _ HC). apply (f_equal length) in E. by rewrite !length_fmap in E; rewrite E.
  - by rewrite En.
  - intros i inp Hi. destruct (same_conn_lookup _ _ _ _ (same_conn_sym _ _ HS) Hi)
      as (inp0 & Hi0 & <- & <- & <- & <-). rewrite Eo.
    destruct (mc_input _ _ _ HC i inp0 Hi0) as (? & ? & a & id & ? & ? & ?). split_and!; try done.
    exists a, id. split_and!; try done. by eapply cb_on_step.
Qed.

Lemma mux_get_input_nth mx (i : nat) : mux_get_input mx (Z.of_nat i) = m_inputs mx !! i.
Proof. unfold mux_get_input. rewrite (proj2 (Z.ltb_ge _ _)) by lia. by rewrite Nat2Z.id. Qed.

(** Inputs of one mux have different callbacks. *)
Lemma mux_conn_inj m mx h i j inpi inpj id : mux_conn m mx h ->
  m_inputs mx !! i = Some inpi -> m_inputs mx !! j = Some inpj ->
  mi_cb inpi = Some id -> mi_cb inpj = Some id -> i = j.
Proof.
  intros HC Hi Hj Ei Ej. destruct (mc_input _ _ _ HC i _ Hi) as (_ & _ & a & id1 & _ & E1 & cb1 & b1 & H1 & F1 & _).
  destruct (mc_input _ _ _ HC j _ Hj) as (_ & _ & a2 & id2 & _ & E2 & cb2 & b2 & H2 & F2 & _).
  simplify_eq. rewrite F1 in F2. injection F2. lia.
Qed.

(** ** The select functions *)

(** Two readers agree: same result, and neither changes its state. *)
Definition agree {A} (m m' : M heap A) (h h' : heap) : Prop :=
  (m h).1 = (m' h').1 /\ (m h).2 = h /\ (m' h').2 = h'.

Section Agree.
Context {A B : Type} (h h' : heap).

Lemma agree_same (r : outcome A) (m m' : M heap A) :
  m h = (r, h) -> m' h' = (r, h') -> agree m m' h h'.
Proof. intros E E'. unfold agree. by rewrite E, E'. Qed.

Lemma agree_bind (m m' : M heap A) (k k' : A -> M heap B) :
  agree m m' h h' -> (forall a, agree (k a) (k' a) h h') -> agree (mbind m k) (mbind m' k') h h'.
Proof.
  intros (E & S & S') Hk. unfold agree, mbind.
  destruct (m h) as [r s], (m' h') as [r' s']; simpl in *; subst.
  destruct r' as [a| | | |]; try done. apply Hk.
Qed.

Lemma agree_if (b : bool) (m1 m1' m2 m2' : M heap A) :
  agree m1 m1' h h' -> agree m2 m2' h h' -> agree (if b then m1 else m2) (if b then m1' else m2') h h'.
Proof. by destruct b. Qed.
End Agree.

Section Select.
Context (mx mx' : mux) (h h' : heap).
Hypothesis HS : same_conn mx mx'.
Hypothesis Hh : h_chan h' = h_chan h.

Lemma read_input_agree i : agree (read_input mx i) (read_input mx' i) h h'.
Proof.
  assert (option_map mi_chan (mux_get_input mx' i) = option_map mi_chan (mux_get_input mx i)) as E.
  { unfold mux_get_input. case_match; [done|].
    destruct (m_inputs mx !! Z.to_nat i) as [inp|] eqn:Hi.
    - destruct (same_conn_lookup _ _ _ _ HS Hi) as (inp' & -> & _ & Ea & _). simpl. by rewrite Ea.
    - destruct (m_inputs mx' !! Z.to_nat i) eqn:Hi'; [|done].
      destruct (same_conn_lookup _ _ _ _ (same_conn_sym _ _ HS) Hi') as (? & ? & _). congruence. }
  unfold read_input. unfold agree, mbind, deref, mret, mub, load, mbind, mget. simpl.
  destruct (mux_get_input mx i) as [inp|], (mux_get_input mx' i) as [inp'|]; try done; injection E as E; rewrite E.
  destruct (mi_chan inp) as [a|]; [|done]. simpl. rewrite Hh. by destruct (h_chan h !! a).
Qed.

(** Selecting depends on the connections and the channels only, and writes nothing. *)
Lemma select_input_agree v : agree (select_input mx v) (select_input mx' v) h h'.
Proof.
  pose proof HS as (En & Ef & _). unfold select_input. rewrite Ef.
  assert (forall r : outcome (option Z), agree (fun s => (r, s)) (fun s => (r, s)) h h') as Hr by done.
  destruct (m_select_func mx) as [[]|].
  - unfold thread_select_active. rewrite En. repeat (case_match; try apply Hr).
  - unfold thread_select_running. rewrite En. repeat (case_match; try apply Hr).
  - unfold select_tr. apply agree_bind.
    + apply agree_if; [|done]. apply agree_bind; [apply read_input_agree|done].
    + intros []; [apply Hr|]. apply agree_bind; [apply read_input_agree|]. intros ss.
      by apply agree_if.
  - unfold select_idle. case_match; apply Hr.
  - unfold select_mux0. case_match; apply Hr.
  - unfold default_select. rewrite En. repeat (case_match; try apply Hr).
Qed.
End Select.

(** ** The select callback *)

Lemma load_mux_run m mx h : h_mux h !! m = Some mx -> load_mux m h = (Ok mx, h).
Proof. intros Hm. unfold load_mux, mbind, mget. by rewrite Hm. Qed.

Lemma upd_mux_run m f h : upd_mux m f h = (Ok tt, set_h_mux (alter f m) h).
Proof. done. Qed.

(** Changing the enabling of input [i] of a mux, then its [selected] fields. *)
Lemma enabling_conn m mx h h' i inp id cb e sel b :
  mux_conn m mx h -> m_inputs mx !! i = Some inp -> mi_cb inp = Some id -> h_cb h !! id = Some cb ->
  enabling id cb e h h' -> sel < m_ninputs mx ->
  let mx' := set_selected sel (set_input (Z.of_nat i) (input_select b) mx) in
  let h2 := set_h_mux (alter (fun _ => mx') m) h' in
  mux_conn m mx' h2 /\
  (forall j inp' id' cb', m_inputs mx' !! j = Some inp' -> mi_cb inp' = Some id' ->
     h_cb h2 !! id' = Some cb' ->
     if decide (j = i) then cb_enabled cb' = e
     else exists inp0, m_inputs mx !! j = Some inp0 /\ mi_cb inp0 = Some id' /\ h_cb h !! id' = Some cb').
Proof.
  intros HC Hi Hid Hcb [HI HP Hch Hmx Hcbs] Hsel mx' h2.
  pose proof (same_conn_select mx sel (Z.of_nat i) b) as HS. split.
  - eapply mux_conn_step; [exact HC|exact HS| |done]. eapply prop_step_trans; [exact HP|apply prop_step_mux].
  - intros j inp' id' cb' Hj Hid' Hcb'.
    destruct (same_conn_lookup _ _ _ _ (same_conn_sym _ _ HS) Hj) as (inp0 & Hj0 & _ & _ & _ & Eid).
    rewrite Hid' in Eid. simpl in Hcb'. rewrite Hcbs, lookup_insert in Hcb'.
    destruct (decide (j = i)) as [->|Hne].
    + assert (id' = id) as -> by congruence. rewrite decide_True in Hcb' by done. by injection Hcb' as <-.
    + exists inp0. split_and!; try done. case_decide as E; [|done]. subst.
      by destruct (Hne (mux_conn_inj m mx h _ _ _ _ _ HC Hj0 Hi Eid Hid)).
Qed.

Definition deselect (m : nat) (mx : mux) : M heap unit :=
  if 0 <=? m_selected mx then
    let* old_input := deref (mux_get_input mx (m_selected mx)) in
    let* cb := deref (mi_cb old_input) in
    bay_disable_cb cb ;;;
    upd_mux m (fun x => set_selected (-1) (set_input (m_selected mx) (input_select false) x))
  else mret tt.

Lemma alter_known f m mx h : h_mux h !! m = Some mx ->
  set_h_mux (alter f m) h = set_h_mux (alter (fun _ => f mx) m) h.
Proof.
  intros Hk. unfold set_h_mux. f_equal. apply map_eq. intros j. rewrite !lookup_alter.
  case_decide; [|done]. subst. by rewrite Hk.
Qed.

Lemma deselect_run m mx h : bay_inv h -> h_mux h !! m = Some mx -> mux_conn m mx h ->
  enabled_only mx (m_selected mx) false h ->
  exists h1 mx1, deselect m mx h = (Ok tt, h1) /\ bay_inv h1 /\ prop_step h h1 /\
    h_chan h1 = h_chan h /\ h_mux h1 !! m = Some mx1 /\ same_conn mx mx1 /\ m_selected mx1 < 0 /\
    mux_conn m mx1 h1 /\ enabled_only mx1 (-1) true h1.
Proof.
  intros HI Hm HC HE. unfold deselect. destruct (Z.leb_spec 0 (m_selected mx)) as [Hs|Hs].
  - pose proof (mc_sel _ _ _ HC) as Hlt. rewrite <- (mc_len _ _ _ HC) in Hlt.
    destruct (lookup_lt_is_Some_2 (m_inputs mx) (Z.to_nat (m_selected mx))) as [inp Hi]; [lia|].
    destruct (mc_input _ _ _ HC _ _ Hi) as (_ & _ & a & id & _ & Hid & Hon).
    destruct Hon as (cb & b & Hcb & _).
    assert (mux_get_input mx (m_selected mx) = Some inp) as Hget.
    { unfold mux_get_input. by rewrite (proj2 (Z.ltb_ge _ _)) by lia. }
    rewrite Hget, (mbind_run _ _ _ inp h) by done. rewrite Hid, (mbind_run _ _ _ id h) by done.
    destruct (bay_disable_frame id cb h HI Hcb) as (h' & E & Hen).
    rewrite (mbind_run _ _ _ _ _ E), upd_mux_run.
    rewrite (alter_known _ m mx) by (by rewrite (en_mux _ _ _ _ _ Hen)).
    destruct (enabling_conn m mx h h' _ inp id cb false (-1) false HC Hi Hid Hcb Hen) as [HC' HE'].
    { rewrite <- (mc_len _ _ _ HC). lia. }
    rewrite Z2Nat.id in HC', HE' by lia.
    do 2 eexists. split; [done|]. split_and!.
    + apply bay_inv_mux, Hen.
    + eapply prop_step_trans; [apply Hen|apply prop_step_mux].
    + apply Hen.
    + simpl. rewrite lookup_alter_eq, (en_mux _ _ _ _ _ Hen), Hm. done.
    + apply same_conn_select.
    + simpl. lia.
    + exact HC'.
    + intros j inp' id' cb' Hj Hid' Hcb'. split; [|lia]. intros Hen'. exfalso.
      specialize (HE' j inp' id' cb' Hj Hid' Hcb'). case_decide as Ej; [congruence|].
      destruct HE' as (inp0 & Hj0 & Hid0 & Hcb0).
      destruct (HE j inp0 id' cb' Hj0 Hid0 Hcb0) as [Hx _]. specialize (Hx Hen'). lia.
  - exists h, mx. split_and!; try done; [apply prop_step_refl|].
    intros j inp' id' cb' Hj Hid' Hcb'. split; [|lia]. intros Hen'.
    destruct (HE j inp' id' cb' Hj Hid' Hcb') as [Hx _]. specialize (Hx Hen'). lia.
Qed.

Definition reselect (m : nat) (mx : mux) (input : option Z) : M heap unit :=
  match input with
  | Some i =>
      let* inp := deref (mux_get_input mx i) in
      let* cb := deref (mi_cb inp) in
      bay_enable_cb cb ;;;
      upd_mux m (fun x => set_selected (mi_index inp) (set_input i (input_select true) x))
  | None => mret tt
  end.

Definition res_index (res : option Z) : Z := match res with Some i => i | None => -1 end.

Definition valid_res (mx : mux) (res : option Z) : Prop :=
  match res with Some i => 0 <= i < m_ninputs mx | None => True end.

Lemma reselect_run m mx h res : bay_inv h -> h_mux h !! m = Some mx -> mux_conn m mx h ->
  enabled_only mx (-1) true h -> valid_res mx res ->
  exists h1 mx1, reselect m mx res h = (Ok tt, h1) /\ bay_inv h1 /\ prop_step h h1 /\
    h_chan h1 = h_chan h /\ h_mux h1 !! m = Some mx1 /\ same_conn mx mx1 /\
    (m_selected mx1 = match res with Some i => i | None => m_selected mx end) /\
    mux_conn m mx1 h1 /\ enabled_only mx1 (res_index res) true h1.
Proof.
  intros HI Hm HC HE Hv. destruct res as [i|]; simpl.
  2:{ exists h, mx. split_and!; try done. apply prop_step_refl. }
  simpl in Hv. rewrite <- (mc_len _ _ _ HC) in Hv.
  destruct (lookup_lt_is_Some_2 (m_inputs mx) (Z.to_nat i)) as [inp Hi]; [lia|].
  destruct (mc_input _ _ _ HC _ _ Hi) as (Hix & _ & a & id & _ & Hid & Hon).
  destruct Hon as (cb & b & Hcb & _).
  assert (mux_get_input mx i = Some inp) as Hget.
  { unfold mux_get_input. by rewrite (proj2 (Z.ltb_ge _ _)) by lia. }
  rewrite Hget, (mbind_run _ _ _ inp h) by done. rewrite Hid, (mbind_run _ _ _ id h) by done.
  destruct (bay_enable_frame id cb h HI Hcb) as (h' & E & Hen).
  rewrite (mbind_run _ _ _ _ _ E), upd_mux_run.
  rewrite (alter_known _ m mx) by (by rewrite (en_mux _ _ _ _ _ Hen)).
  rewrite Z2Nat.id in Hix by lia. rewrite Hix.
  destruct (enabling_conn m mx h h' _ inp id cb true i true HC Hi Hid Hcb Hen) as [HC' HE'].
  { rewrite <- (mc_len _ _ _ HC). lia. }
  rewrite Z2Nat.id in HC', HE' by lia.
  do 2 eexists. split; [done|]. split_and!.
  - apply bay_inv_mux, Hen.
  - eapply prop_step_trans; [apply Hen|apply prop_step_mux].
  - apply Hen.
  - simpl. rewrite lookup_alter_eq, (en_mux _ _ _ _ _ Hen), Hm. done.
  - apply same_conn_select.
  - done.
  - exact HC'.
  - intros j inp' id' cb' Hj Hid' Hcb'. specialize (HE' j inp' id' cb' Hj Hid' Hcb').
    case_decide as Ej; [subst; split; [lia|done]|].
    destruct HE' as (inp0 & Hj0 & Hid0 & Hcb0). split; [|lia]. intros Hen'.
    destruct (HE j inp0 id' cb' Hj0 Hid0 Hcb0) as [Hx _]. specialize (Hx Hen'). lia.
Qed.

(** The value a mux gives for a selection: of the input, or the default. *)
Definition shown_value (mx : mux) (res : option Z) : M heap value :=
  match res with Some i => read_input mx i | None => mret (m_def mx) end.

Lemma shown_value_agree mx mx' h h' res : same_conn mx mx' -> h_chan h' = h_chan h ->
  agree (shown_value mx res) (shown_value mx' res) h h'.
Proof.
  intros HS Hh. destruct res; [by apply read_input_agree|].
  pose proof HS as (_ & _ & _ & Ed & _). simpl. unfold agree, mret. by rewrite Ed.
Qed.

Lemma agree_Ok {A} (m m' : M heap A) h h' a : agree m m' h h' -> (m h).1 = Ok a -> m' h' = (Ok a, h').
Proof. intros (E & _ & S) H. destruct (m' h'); simpl in *. congruence. Qed.

(** A mux that is connected, and of whose input callbacks at most the selected
    one is enabled. *)
Definition mux_wf (m : nat) (mx : mux) (h : heap) : Prop :=
  h_mux h !! m = Some mx /\ mux_conn m mx h /\ enabled_only mx (m_selected mx) false h.

(** The whole callback, from a well-formed mux. *)
Lemma cb_select_run m mx a c h res ov oc :
  bay_inv h -> accepting h -> mux_wf m mx h ->
  h_chan h !! a = Some c -> h_chan h !! m_output mx = Some oc -> settable oc ->
  (select_input mx (chan_read c) h).1 = Ok res -> valid_res mx res ->
  (shown_value mx res h).1 = Ok ov ->
  exists h' mx', cb_select m a h = (Ok tt, h') /\ bay_inv h' /\ accepting h' /\ prop_step h h' /\
    mux_wf m mx' h' /\ same_conn mx mx' /\ enabled_only mx' (res_index res) true h' /\
    (exists oc', h_chan h' !! m_output mx = Some oc' /\ chan_read oc' = ov) /\
    (forall b, b <> m_output mx -> h_chan h' !! b = h_chan h !! b).
Proof.
  intros HI HA (Hm & HC & HE) Hc Hoc Hset Hsel Hv Hov.
  unfold cb_select. rewrite (mbind_run _ _ _ _ _ (load_mux_run m mx h Hm)).
  rewrite (mbind_run _ _ _ c h) by by apply load_Ok. fold (deselect m mx).
  destruct (deselect_run m mx h HI Hm HC HE) as
    (h1 & mx1 & E1 & HI1 & HP1 & Hch1 & Hm1 & HS1 & Hs1 & HC1 & HE1).
  rewrite (mbind_run _ _ _ _ _ E1), (mbind_run _ _ _ _ _ (load_mux_run m mx1 h1 Hm1)).
  pose proof (agree_Ok _ _ _ _ _ (select_input_agree mx mx1 h h1 HS1 Hch1 (chan_read c)) Hsel) as E2.
  rewrite (mbind_run _ _ _ _ _ E2). fold (reselect m mx1 res) (shown_value mx1 res).
  pose proof HS1 as (En1 & _ & Eo1 & _).
  destruct (reselect_run m mx1 h1 res HI1 Hm1 HC1 HE1) as
    (h2 & mx2 & E3 & HI2 & HP2 & Hch2 & Hm2 & HS2 & Hs2 & HC2 & HE2).
  { destruct res; simpl in *; [by rewrite En1|done]. }
  rewrite (mbind_run _ _ _ _ _ E3).
  assert (h_chan h2 = h_chan h) as Hch by congruence.
  pose proof (agree_Ok _ _ _ _ _ (shown_value_agree mx mx1 h h2 res HS1 Hch) Hov) as E4.
  rewrite (mbind_run _ _ _ _ _ E4), Eo1.
  assert (accepting h2) as HA2.
  { unfold accepting. by rewrite (ps_state _ _ HP2), (ps_state _ _ HP1). }
  destruct (chan_set_forced (m_output mx) ov oc h2 HI2 HA2) as [E5 HI3]; [by rewrite Hch|done|].
  rewrite E5. exists (heap_written (m_output mx) (with_value ov oc) (newly_dirty oc) h2), mx2.
  assert (m_selected mx2 < m_ninputs mx1) as Hlt.
  { destruct HS2 as (<- & _). apply (mc_sel _ _ _ HC2). }
  unfold mux_wf. split_and!; try done.
  - eapply prop_step_trans; [exact HP1|]. eapply prop_step_trans; [exact HP2|apply prop_step_written].
  - eapply mux_conn_step; [exact HC1|exact HS2| |done].
    eapply prop_step_trans; [exact HP2|apply prop_step_written].
  - intros j inp id cb Hj Hid Hcb. split; [|done]. intros Hen.
    destruct (HE2 j inp id cb Hj Hid Hcb) as [Hx _]. specialize (Hx Hen).
    destruct res; simpl in *; [lia|lia].
  - by eapply same_conn_trans.
  - exists (with_dirty true (with_value ov oc)). rewrite heap_written_chan, decide_True by done.
    split; [done|]. unfold chan_read; simpl. by destruct Hset as (-> & _).
  - intros b Hb. rewrite heap_written_chan, decide_False by done. by rewrite Hch.
Qed.

(** C4. When the select channel changes, the mux ends with exactly the callback of
    the chosen input enabled (none when nothing is chosen), and the output
    shows the value of that input, or the default value; no other channel is
    written and the bay stays consistent. *)
Theorem cb_select_correct m mx a c h res ov oc :
  bay_inv h -> accepting h -> mux_wf m mx h ->
  h_chan h !! a = Some c -> h_chan h !! m_output mx = Some oc -> settable oc ->
  (select_input mx (chan_read c) h).1 = Ok res -> valid_res mx res ->
  (shown_value mx res h).1 = Ok ov ->
  exists h' mx', cb_select m a h = (Ok tt, h') /\ bay_inv h' /\ accepting h' /\ prop_step h h' /\
    mux_wf m mx' h' /\ same_conn mx mx' /\ enabled_only mx' (res_index res) true h' /\
    (exists oc', h_chan h' !! m_output mx = Some oc' /\ chan_read oc' = ov) /\
    (forall b, b <> m_output mx -> h_chan h' !! b = h_chan h !! b).
Proof. apply cb_select_run. Qed.

(** When a connected input changes, the output takes its value; the
    connections and the enabled callbacks stay. *)
Theorem cb_input_correct m mx i inp a c oc h :
  bay_inv h -> accepting h -> mux_wf m mx h ->
  m_inputs mx !! i = Some inp -> mi_chan inp = Some a ->
  h_chan h !! a = Some c -> h_chan h !! m_output mx = Some oc -> settable oc ->
  exists h', cb_input m (Z.of_nat i) a h = (Ok tt, h') /\ bay_inv h' /\ accepting h' /\
    prop_step h h' /\ mux_wf m mx h' /\
    (exists oc', h_chan h' !! m_output mx = Some oc' /\ chan_read oc' = chan_read c) /\
    (forall b, b <> m_output mx -> h_chan h' !! b = h_chan h !! b).
Proof.
  intros HI HA (Hm & HC & HE) Hi Ha Hc Hoc Hset.
  destruct (mc_input _ _ _ HC i inp Hi) as (_ & Ho & _).
  unfold cb_input. rewrite (mbind_run _ _ _ _ _ (load_mux_run m mx h Hm)).
  rewrite mux_get_input_nth, Hi, (mbind_run _ _ _ inp h) by done.
  rewrite (mbind_run _ _ _ c h) by by apply load_Ok.
  rewrite Ho, (mbind_run _ _ _ (m_output mx) h) by done.
  destruct (chan_set_forced (m_output mx) (chan_read c) oc h HI HA Hoc Hset) as [-> HI'].
  eexists. split; [done|]. unfold mux_wf. split_and!; try done.
  - apply prop_step_written.
  - eapply mux_conn_step; [exact HC|done|apply prop_step_written|apply (mc_sel _ _ _ HC)].
  - exists (with_dirty true (with_value (chan_read c) oc)).
    rewrite heap_written_chan, decide_True by done. split; [done|].
    unfold chan_read; simpl. by destruct Hset as (-> & _).
  - intros b Hb. by rewrite heap_written_chan, decide_False by done.
Qed.

(** ** The select functions of the tracking modes *)

Definition is_running_state (st : thread_state) : bool := bool_decide (st = TH_ST_RUNNING).
Definition is_active_state (st : thread_state) : bool :=
  bool_decide (st = TH_ST_RUNNING \/ st = TH_ST_COOLING \/ st = TH_ST_WARMING).

Lemma select_running_spec mx st h : m_select_func mx = Some SelThreadRunning -> m_ninputs mx = 1 ->
  select_input mx (value_int64 (thread_state_Z st)) h =
    (Ok (if is_running_state st then Some 0 else None), h).
Proof. intros Ef En. unfold select_input, thread_select_running. rewrite Ef, En. by destruct st. Qed.

Lemma select_active_spec mx st h : m_select_func mx = Some SelThreadActive -> m_ninputs mx = 1 ->
  select_input mx (value_int64 (thread_state_Z st)) h =
    (Ok (if is_active_state st then Some 0 else None), h).
Proof. intros Ef En. unfold select_input, thread_select_active. rewrite Ef, En. by destruct st. Qed.

(** C7. The tracks follow the thread: after a change of the thread state the
    running (active) track shows the tracked channel when the thread is running
    (running, cooling or warming), and null otherwise. *)
Theorem track_mux_follows m mx a c st h inp b ic oc (active : bool) :
  bay_inv h -> accepting h -> mux_wf m mx h ->
  m_select_func mx = Some (if active then SelThreadActive else SelThreadRunning) ->
  m_ninputs mx = 1 -> m_def mx = value_null ->
  m_inputs mx = [inp] -> mi_chan inp = Some b -> h_chan h !! b = Some ic ->
  h_chan h !! a = Some c -> chan_read c = value_int64 (thread_state_Z st) ->
  h_chan h !! m_output mx = Some oc -> settable oc ->
  exists h' oc', cb_select m a h = (Ok tt, h') /\ h_chan h' !! m_output mx = Some oc' /\
    chan_read oc' =
      (if (if active then is_active_state st else is_running_state st) then chan_read ic else value_null) /\
    (forall x, x <> m_output mx -> h_chan h' !! x = h_chan h !! x).
Proof.
  intros HI HA HW Ef En Ed Hin Hb Hic Hc Hst Hoc Hset.
  set (on := if active then is_active_state st else is_running_state st).
  assert (select_input mx (chan_read c) h = (Ok (if on then Some 0 else None), h)) as Hsel.
  { rewrite Hst. unfold on. destruct active; [by apply select_active_spec|by apply select_running_spec]. }
  assert ((shown_value mx (if on then Some 0 else None) h).1 = Ok (if on then chan_read ic else value_null)) as Hov.
  { destruct on; simpl; [|by rewrite Ed]. unfold read_input, mux_get_input. simpl. rewrite Hin. simpl.
    unfold mbind, deref, mret. rewrite Hb. unfold load, mbind, mget. simpl. by rewrite Hic. }
  destruct (cb_select_run m mx a c h (if on then Some 0 else None) (if on then chan_read ic else value_null) oc)
    as (h' & mx' & E & _ & _ & _ & _ & _ & _ & (oc' & Hoc' & Hr) & Hfr); try done.
  - by rewrite Hsel.
  - destruct on; simpl; [lia|done].
  - exists h', oc'. by split_and!.
Qed.
