(* ===== verification/Sort.v ===== *)
(** * The sort module (src/emu/sort.c)

    A sorter keeps its outputs equal to its input values in ascending order:
    the breakdown views draw them.  [sort_replace] updates the sorted array in
    place in one pass; here it runs on the array as a state, every access
    checked against its bounds. *)

From stdpp Require Import pretty sorting list.
From S2P Require Import Prelude Chan Heap Bay.

(** ** The array *)

Definition rd (i : Z) : M (list Z) Z :=
  let* arr := mget in
  if i <? 0 then mub else deref (arr !! Z.to_nat i).

Definition wr (i x : Z) : M (list Z) unit :=
  let* arr := mget in
  if (i <? 0) || (Z.of_nat (length arr) <=? i) then mub else
  mput (<[Z.to_nat i := x]> arr).

(** [for (; arr[i] < old; i++);] *)
Fixpoint skip_lt (fuel : nat) (old i : Z) : M (list Z) Z :=
  let* x := rd i in
  if x <? old then
    match fuel with O => mfuel | S fuel' => skip_lt fuel' old (i + 1) end
  else mret i.

(** [for (; i < n - 1 && arr[i + 1] <= new; i++) arr[i] = arr[i + 1];] *)
Fixpoint shift_left (fuel : nat) (n new i : Z) : M (list Z) Z :=
  if i <? n - 1 then
    let* x := rd (i + 1) in
    if x <=? new then
      match fuel with
      | O => mfuel
      | S fuel' => wr i x ;;; shift_left fuel' n new (i + 1)
      end
    else mret i
  else mret i.

(** [for (; i > 0 && arr[i - 1] > new; i--) arr[i] = arr[i - 1];] *)
Fixpoint shift_right (fuel : nat) (new i : Z) : M (list Z) Z :=
  if 0 <? i then
    let* x := rd (i - 1) in
    if new <? x then
      match fuel with
      | O => mfuel
      | S fuel' => wr i x ;;; shift_right fuel' new (i - 1)
      end
    else mret i
  else mret i.

Definition sort_replace (n old new : Z) : M (list Z) unit :=
  let* arr := mget in
  let fuel := length arr in
  if old =? new then mdie else
  if old <? new then
    let m := n / 2 in
    let* x := rd m in
    let i := if x <? old then m else 0 in
    let* i := skip_lt fuel old i in
    let* i := shift_left fuel n new i in
    wr i new
  else
    let* i := skip_lt fuel old 0 in
    let* i := shift_right fuel new i in
    wr i new.

(** [qsort] with [cmp_int64]: the standard library's sort by its contract,
    here insertion sort. *)
Definition cmp_int64 (a b : Z) : Z := if a <? b then -1 else if b <? a then 1 else 0.

Fixpoint insert_sorted (x : Z) (l : list Z) : list Z :=
  match l with
  | [] => [x]
  | y :: l' => if cmp_int64 x y <=? 0 then x :: l else y :: insert_sorted x l'
  end.
Definition qsort (l : list Z) : list Z := foldr insert_sorted [] l.

(** ** The callback *)

Definition load_sort (s : nat) : M heap sort := let* h := mget in deref (h_sort h !! s).
Definition store_sort (s : nat) (x : sort) : M heap unit := mmod (set_h_sort <[s := x]>).

Definition sort_get_output (s : nat) (index : Z) : addr := Addr (OwnSort s) (Z.to_nat index).

(** Run a computation on the [sorted] array of [s]. *)
Definition on_sorted (s : nat) (m : M (list Z) unit) : M heap unit :=
  let* st := load_sort s in
  fun h => let '(r, arr) := m (s_sorted st) in
    (r, set_h_sort <[s := mk_sort (s_n st) (s_inputs st) (s_values st) arr (s_copied st)]> h).

(** The output loop, from index [i]. *)
Fixpoint write_outputs (s : nat) (sorted : list Z) (i : nat) : M heap unit :=
  match sorted with
  | [] => mret tt
  | x :: rest =>
      let out := sort_get_output s (Z.of_nat i) in
      let val := value_int64 x in
      let* c := load out in
      (if value_is_equal (chan_read c) val then mret tt else chan_set out val) ;;;
      write_outputs s rest (S i)
  end.

Definition sort_cb_input (s : nat) (index : Z) (in_chan : addr) : M heap unit :=
  let* c := load in_chan in
  let cur := chan_read c in
  let new := if bool_decide (v_type cur = VALUE_INT64) then v_i cur else 0 in
  let* st := load_sort s in
  let* old := deref (if index <? 0 then None else s_values st !! Z.to_nat index) in
  if old =? new then mret tt else
  let values := <[Z.to_nat index := new]> (s_values st) in
  store_sort s (mk_sort (s_n st) (s_inputs st) values (s_sorted st) (s_copied st)) ;;;
  (if s_copied st then on_sorted s (sort_replace (s_n st) old new)
   else store_sort s (mk_sort (s_n st) (s_inputs st) values (qsort values) true)) ;;;
  let* st := load_sort s in
  write_outputs s (s_sorted st) 0.

(** ** Construction *)

Definition sort_out_name (name : string) (i : nat) : string :=
  (name +:+ ".out" +:+ pretty (Z.of_nat i))%string.

(** [k] outputs are left, the next is output [i]. *)
Fixpoint init_outputs (s : nat) (name : string) (k i : nat) : M heap unit :=
  match k with
  | O => mret tt
  | S k' =>
      let out := sort_get_output s (Z.of_nat i) in
      match chan_init CHAN_SINGLE (sort_out_name name i) with
      | Ok c =>
          store out (chan_prop_set CHAN_ALLOW_DUP 1 (chan_prop_set CHAN_DIRTY_WRITE 1 c)) ;;;
          bay_register out ;;;
          init_outputs s name k' (S i)
      | _ => mdie
      end
  end.

Definition sort_init (s : nat) (n : Z) (name : string) : M heap unit :=
  store_sort s (mk_sort n (replicate (Z.to_nat n) (mk_sort_input 0 None))
    (replicate (Z.to_nat n) 0) (replicate (Z.to_nat n) 0) false) ;;;
  init_outputs s name (Z.to_nat n) 0.

Definition sort_set_input (s : nat) (index : Z) (a : addr) : M heap unit :=
  let* st := load_sort s in
  let* input := deref (if index <? 0 then None else s_inputs st !! Z.to_nat index) in
  match si_chan input with
  | Some _ => mfail
  | None =>
      store_sort s (mk_sort (s_n st)
        (<[Z.to_nat index := mk_sort_input index (Some a)]> (s_inputs st))
        (s_values st) (s_sorted st) (s_copied st)) ;;;
      let* _ := bay_add_cb BAY_CB_DIRTY a (Some (FnSort s index)) true in
      mret tt
  end.

(** ** [sort_replace] is a correct in-place update *)

Lemma rd_app l1 x l2 : rd (Z.of_nat (length l1)) (l1 ++ x :: l2) = (Ok x, l1 ++ x :: l2).
Proof.
  unfold rd, mbind, mget. rewrite (proj2 (Z.ltb_ge _ _)) by lia.
  rewrite Nat2Z.id, list_lookup_middle by done. done.
Qed.

Lemma rd_at i l1 x l2 : i = Z.of_nat (length l1) -> rd i (l1 ++ x :: l2) = (Ok x, l1 ++ x :: l2).
Proof. intros ->. apply rd_app. Qed.

Lemma wr_at i l1 x y l2 : i = Z.of_nat (length l1) -> wr i y (l1 ++ x :: l2) = (Ok tt, l1 ++ y :: l2).
Proof.
  intros ->. unfold wr, mbind, mget, mput.
  rewrite (proj2 (Z.ltb_ge _ _)), (proj2 (Z.leb_gt _ _)) by (rewrite ?length_app; simpl; lia).
  simpl. rewrite Nat2Z.id. f_equal. by rewrite insert_app_r_alt, Nat.sub_diag by done.
Qed.

Lemma skip_lt_run fuel old A1 A2 x B :
  Forall (fun y => y < old) A2 -> old <= x -> (length A2 <= fuel)%nat ->
  skip_lt fuel old (Z.of_nat (length A1)) (A1 ++ A2 ++ x :: B) =
    (Ok (Z.of_nat (length (A1 ++ A2))), A1 ++ A2 ++ x :: B).
Proof.
  intros HA Hx. revert fuel A1. induction HA as [|y A2 Hy HA IH]; intros fuel A1 Hf.
  - rewrite app_nil_r. simpl. destruct fuel; simpl;
      rewrite (mbind_run _ _ _ _ _ (rd_app A1 x B)), (proj2 (Z.ltb_ge _ _)); done.
  - destruct fuel as [|fuel]; simpl in Hf; [lia|]. simpl.
    rewrite (mbind_run _ _ _ _ _ (rd_app A1 y (A2 ++ x :: B))), (proj2 (Z.ltb_lt _ _)) by done.
    specialize (IH fuel (A1 ++ [y])). rewrite <- !app_assoc, length_app in IH. simpl in IH.
    rewrite <- IH by lia. f_equal. lia.
Qed.

Lemma shift_left_run fuel n new A x B1 B2 :
  n = Z.of_nat (length (A ++ x :: B1 ++ B2)) ->
  Forall (fun y => y <= new) B1 -> match B2 with [] => True | y :: _ => new < y end ->
  (length B1 <= fuel)%nat ->
  exists z, shift_left fuel n new (Z.of_nat (length A)) (A ++ x :: B1 ++ B2) =
    (Ok (Z.of_nat (length (A ++ B1))), (A ++ B1) ++ z :: B2).
Proof.
  intros Hn HB. revert fuel A x Hn. induction HB as [|y B1 Hy HB IH]; intros fuel A x Hn H2 Hf.
  - exists x. rewrite app_nil_r. simpl in Hn.
    change ([] ++ B2) with B2.
    rewrite length_app in Hn; simpl in Hn.
    destruct fuel; simpl; (destruct (Z.ltb_spec (Z.of_nat (length A)) (n - 1)) as [Hi|Hi]; [|done]);
      (destruct B2 as [|y B2]; [simpl in *; lia|]);
      rewrite (cons_middle x A (y :: B2)), app_assoc;
      rewrite (mbind_run _ _ _ _ _ (rd_at (Z.of_nat (length A) + 1) (A ++ [x]) y B2 ltac:(rewrite length_app; simpl; lia)));
      rewrite (proj2 (Z.leb_gt _ _)) by done; done.
  - destruct fuel as [|fuel]; simpl in Hf; [lia|]. simpl.
    rewrite (proj2 (Z.ltb_lt _ _)) by (rewrite length_app in Hn; simpl in Hn; lia).
    rewrite (cons_middle x A (y :: B1 ++ B2)), app_assoc.
    rewrite (mbind_run _ _ _ _ _ (rd_at (Z.of_nat (length A) + 1) (A ++ [x]) y (B1 ++ B2) ltac:(rewrite length_app; simpl; lia))).
    rewrite (proj2 (Z.leb_le _ _)) by done.
    rewrite <- app_assoc. simpl. rewrite (mbind_run _ _ _ _ _ (wr_at _ A x y _ eq_refl)).
    destruct (IH fuel (A ++ [y]) y) as [z Hz]; [|done|lia|].
    { rewrite Hn, !length_app. simpl. rewrite !length_app. simpl. lia. }
    exists z. replace (Z.of_nat (length A) + 1) with (Z.of_nat (length (A ++ [y])))
      by (rewrite length_app; simpl; lia).
    rewrite (cons_middle y A (y :: B1 ++ B2)), app_assoc, Hz. by rewrite <- !app_assoc.
Qed.

Lemma shift_right_run fuel new A1 A2 x B :
  Forall (fun y => new < y) A2 -> (A1 = [] \/ exists A0 y, A1 = A0 ++ [y] /\ y <= new) ->
  (length A2 <= fuel)%nat ->
  exists z, shift_right fuel new (Z.of_nat (length (A1 ++ A2))) (A1 ++ A2 ++ x :: B) =
    (Ok (Z.of_nat (length A1)), A1 ++ z :: A2 ++ B).
Proof.
  intros HA H1. revert fuel x B. induction A2 as [|y A2 IH] using rev_ind; intros fuel x B Hf.
  - exists x. rewrite app_nil_r. simpl. destruct H1 as [->|(A0 & y & -> & Hy)].
    + by destruct fuel.
    + rewrite <- app_assoc. simpl. destruct fuel; simpl;
        rewrite (proj2 (Z.ltb_lt _ _)) by (rewrite length_app; simpl; lia);
        rewrite (mbind_run _ _ _ _ _ (rd_at (Z.of_nat (length (A0 ++ [y])) - 1) A0 y (x :: B) ltac:(rewrite length_app; simpl; lia)));
        rewrite (proj2 (Z.ltb_ge _ _)) by done; done.
  - apply Forall_app in HA as [HA Hy]. rewrite Forall_singleton in Hy.
    rewrite length_app in Hf; simpl in Hf. destruct fuel as [|fuel]; [lia|].
    remember (Z.of_nat (length (A1 ++ A2 ++ [y]))) as i eqn:Ei.
    rewrite !length_app in Ei; simpl in Ei.
    destruct (IH HA fuel y (y :: B)) as [z Hz]; [lia|]. exists z.
    rewrite <- !app_assoc. simpl. rewrite app_assoc.
    rewrite (proj2 (Z.ltb_lt _ _)) by lia.
    rewrite (mbind_run _ _ _ _ _ (rd_at (i - 1) (A1 ++ A2) y (x :: B)
      ltac:(rewrite !length_app; lia))), (proj2 (Z.ltb_lt _ _)) by done.
    rewrite (cons_middle y _ (x :: B)), app_assoc.
    rewrite (mbind_run _ _ _ _ _ (wr_at i ((A1 ++ A2) ++ [y]) x y B ltac:(rewrite !length_app; simpl; lia))).
    replace (i - 1) with (Z.of_nat (length (A1 ++ A2))) by (rewrite !length_app; lia).
    rewrite <- !app_assoc. simpl. by rewrite Hz.
Qed.

Abbreviation ascending := (StronglySorted Z.le).

Lemma split_le (l : list Z) new : ascending l ->
  exists l1 l2, l = l1 ++ l2 /\ Forall (fun y => y <= new) l1 /\
    match l2 with [] => True | y :: _ => new < y end.
Proof.
  induction 1 as [|x l Hs IH Hx]; [by exists [], []|].
  destruct (decide (x <= new)).
  - destruct IH as (l1 & l2 & -> & ? & ?). exists (x :: l1), l2. split_and!; [done|by constructor|done].
  - exists [], (x :: l). split_and!; [done|constructor|lia].
Qed.

Lemma split_gt (l : list Z) new : ascending l ->
  exists l1 l2, l = l1 ++ l2 /\ Forall (fun y => new < y) l2 /\
    (l1 = [] \/ exists l0 y, l1 = l0 ++ [y] /\ y <= new).
Proof.
  induction l as [|x l IH] using rev_ind; intros Hs; [by exists [], []; split_and!; [| |left]|].
  apply StronglySorted_app in Hs as (Hle & Hs & _).
  destruct (decide (new < x)).
  - destruct (IH Hs) as (l1 & l2 & -> & ? & ?). exists l1, (l2 ++ [x]).
    split_and!; [by rewrite app_assoc| |done]. apply Forall_app. by rewrite Forall_singleton.
  - exists (l ++ [x]), []. split_and!; [by rewrite app_nil_r|constructor|]. right.
    exists l, x. split; [done|lia].
Qed.

(** The first occurrence of [old] in an ascending array. *)
Lemma split_first (l : list Z) old : ascending l -> old ∈ l ->
  exists A B, l = A ++ old :: B /\ Forall (fun y => y < old) A /\ Forall (fun y => old <= y) B.
Proof.
  induction 1 as [|x l Hs IH Hx]; [by intros ?%elem_of_nil|]. intros Hin.
  destruct (decide (x = old)) as [->|Hne].
  - exists [], l. by split_and!.
  - assert (old ∈ l) as Hol by set_solver. destruct (IH Hol) as (A & B & E & HA & HB).
    exists (x :: A), B. split_and!; [by rewrite E| |done]. constructor; [|done].
    rewrite list.Forall_forall in Hx. specialize (Hx old Hol). simpl in Hx. lia.
Qed.

Lemma remove_ascending (A B : list Z) x : ascending (A ++ x :: B) -> ascending (A ++ B).
Proof.
  intros (Hle & HA & HB)%StronglySorted_app. apply StronglySorted_cons in HB as [_ HB].
  apply StronglySorted_app_2; [|done|done]. intros y z Hy Hz.
  apply Hle; [done|]. apply elem_of_cons. by right.
Qed.

Lemma place_ascending (A B : list Z) x : ascending (A ++ B) ->
  Forall (fun y => y <= x) A -> Forall (fun y => x <= y) B -> ascending (A ++ x :: B).
Proof.
  intros (Hle & HA & HB)%StronglySorted_app H1 H2. rewrite list.Forall_forall in H1.
  apply StronglySorted_app_2; [|done|by apply StronglySorted_cons].
  intros y z Hy [->|Hz]%elem_of_cons; [by apply H1|by apply Hle].
Qed.

(** In an ascending list everything after a bound on its head is above it. *)
Lemma above_head (l : list Z) x : ascending l ->
  match l with [] => True | y :: _ => x < y end -> Forall (fun y => x <= y) l.
Proof.
  intros Hs Hx. destruct Hs as [|y l Hs Hy]; constructor; [lia|].
  eapply list.Forall_impl; [exact Hy|]. intros z; simpl; lia.
Qed.

Lemma below_last (l : list Z) x : ascending l ->
  l = [] \/ (exists l0 y, l = l0 ++ [y] /\ y <= x) -> Forall (fun y => y <= x) l.
Proof.
  intros Hs [->|(l0 & y & -> & Hy)]; [constructor|].
  apply StronglySorted_app in Hs as (Hle & _). apply list.Forall_forall. intros z [Hz|Hz]%elem_of_app.
  - specialize (Hle z y Hz ltac:(set_solver)). lia.
  - apply list_elem_of_singleton in Hz as ->. done.
Qed.

Lemma ascending_middle (arr : list Z) m x : ascending arr -> arr !! m = Some x ->
  forall A old B, arr = A ++ old :: B -> Forall (fun y => old <= y) B -> x < old -> (m < length A)%nat.
Proof.
  intros _ Hm A old B -> HB Hx. destruct (decide (m < length A)%nat) as [|Hge]; [done|exfalso].
  rewrite lookup_app_r in Hm by lia. destruct (m - length A)%nat as [|k]; simpl in Hm.
  - injection Hm as ->. lia.
  - apply list_elem_of_lookup_2 in Hm. rewrite list.Forall_forall in HB. specialize (HB x Hm). simpl in HB. lia.
Qed.

(** The forward branch: from any start [i0] before the old value. *)
Lemma sort_replace_up A0 A1 old B new :
  let arr := (A0 ++ A1) ++ old :: B in
  let n := Z.of_nat (length arr) in
  ascending arr -> Forall (fun y => y < old) A1 -> Forall (fun y => y < old) A0 -> old < new ->
  exists arr', (let* i := skip_lt (length arr) old (Z.of_nat (length A0)) in
                let* i := shift_left (length arr) n new i in wr i new) arr = (Ok tt, arr') /\
    ascending arr' /\ Permutation (old :: arr') (new :: arr).
Proof.
  intros arr n Hs HA1 HA0 Hlt. pose proof Hs as Hs2. unfold arr in Hs2.
  apply remove_ascending in Hs2.
  assert (ascending B) as HB by (apply StronglySorted_app in Hs2 as (_ & _ & ?); done).
  destruct (split_le B new HB) as (B1 & B2 & -> & HB1 & HB2).
  set (A := A0 ++ A1) in *. exists ((A ++ B1) ++ new :: B2).
  assert (length arr = length A + S (length B1 + length B2))%nat as Hlen.
  { unfold arr. rewrite length_app. simpl. by rewrite length_app. }
  assert (length A = length A0 + length A1)%nat as HlenA by (unfold A; by rewrite length_app).
  split.
  - pose proof (skip_lt_run (length arr) old A0 A1 old (B1 ++ B2) HA1 ltac:(lia) ltac:(lia)) as Hskip.
    rewrite app_assoc in Hskip. change ((A0 ++ A1) ++ old :: B1 ++ B2) with arr in Hskip.
    rewrite (mbind_run _ _ _ _ _ Hskip).
    destruct (shift_left_run (length arr) n new A old B1 B2) as [z Hz]; [done|done|done|lia|].
    rewrite (mbind_run _ _ _ _ _ Hz). by apply wr_at.
  - split.
    + rewrite app_assoc in Hs2. apply place_ascending; [done| |].
      * apply Forall_app. split; [|done]. unfold A. apply Forall_app.
        split; eapply list.Forall_impl; [exact HA0| |exact HA1|]; intros; simpl in *; lia.
      * apply above_head; [|done]. by apply StronglySorted_app in HB as (_ & _ & ?).
    + unfold arr. rewrite <- !app_assoc, <- !Permutation_middle. apply Permutation_swap.
Qed.

Lemma sort_replace_down A old B new :
  let arr := A ++ old :: B in
  let n := Z.of_nat (length arr) in
  ascending arr -> Forall (fun y => y < old) A -> Forall (fun y => old <= y) B -> new < old ->
  exists arr', (let* i := skip_lt (length arr) old 0 in
                let* i := shift_right (length arr) new i in wr i new) arr = (Ok tt, arr') /\
    ascending arr' /\ Permutation (old :: arr') (new :: arr).
Proof.
  intros arr n Hs HA HB Hlt. pose proof Hs as Hs2. unfold arr in Hs2.
  apply remove_ascending in Hs2.
  assert (ascending A) as HsA by (apply StronglySorted_app in Hs2 as (_ & ? & _); done).
  destruct (split_gt A new HsA) as (A1 & A2 & -> & HA2 & HA1).
  exists (A1 ++ new :: A2 ++ B).
  assert (length arr = length A1 + length A2 + S (length B))%nat as Hlen.
  { unfold arr. rewrite !length_app. simpl. lia. }
  split.
  - pose proof (skip_lt_run (length arr) old [] (A1 ++ A2) old B HA ltac:(lia)) as Hskip.
    rewrite (mbind_run _ _ _ _ _ (Hskip ltac:(rewrite length_app; lia))).
    destruct (shift_right_run (length arr) new A1 A2 old B HA2 HA1 ltac:(lia)) as [z Hz].
    simpl. rewrite <- !app_assoc. rewrite (mbind_run _ _ _ _ _ Hz). by apply wr_at.
  - split.
    + rewrite <- app_assoc in Hs2. apply place_ascending; [done| |].
      * apply below_last; [|done]. by apply StronglySorted_app in HsA as (_ & ? & _).
      * apply Forall_app. split; eapply list.Forall_impl; [exact HA2| |exact HB|]; intros; simpl in *; lia.
    + unfold arr. rewrite <- !app_assoc, (app_assoc A1 A2 (old :: B)), <- !Permutation_middle, <- app_assoc.
      apply Permutation_swap.
Qed.

Lemma sort_replace_run (arr : list Z) (old new : Z) :
  ascending arr -> old ∈ arr -> old <> new ->
  exists arr', sort_replace (Z.of_nat (length arr)) old new arr = (Ok tt, arr') /\
    ascending arr' /\ Permutation (old :: arr') (new :: arr).
Proof.
  intros Hs Hin Hne. destruct (split_first arr old Hs Hin) as (A & B & E & HA & HB).
  unfold sort_replace. rewrite (mbind_run _ _ _ arr arr), (proj2 (Z.eqb_neq _ _)) by done.
  destruct (Z.ltb_spec old new) as [Hlt|Hge].
  2:{ rewrite E in *. apply sort_replace_down; [done..|lia]. }
  set (n := Z.of_nat (length arr)).
  assert (0 < n) as Hn by (unfold n; rewrite E, length_app; simpl; lia).
  assert (0 <= n / 2 < n) as Hm by (split; [apply Z.div_pos; lia|apply Z.div_lt; lia]).
  destruct (lookup_lt_is_Some_2 arr (Z.to_nat (n / 2))) as [x Hx]; [lia|].
  assert (rd (n / 2) arr = (Ok x, arr)) as Hrd.
  { unfold rd, mbind, mget. rewrite (proj2 (Z.ltb_ge _ _)) by lia. by rewrite Hx. }
  rewrite (mbind_run _ _ _ _ _ Hrd). destruct (Z.ltb_spec x old) as [Hxo|Hxo].
  - pose proof (ascending_middle arr _ x Hs Hx A old B E HB Hxo) as Hmid.
    rewrite <- (take_drop (Z.to_nat (n / 2)) A) in E, HA. apply Forall_app in HA as [HA0 HA1].
    pose proof (sort_replace_up (take (Z.to_nat (n / 2)) A) (drop (Z.to_nat (n / 2)) A) old B new) as Hup.
    simpl in Hup. rewrite <- E, length_take, Nat.min_l, Z2Nat.id in Hup by lia. by apply Hup.
  - pose proof (sort_replace_up [] A old B new) as Hup. simpl in Hup. rewrite <- E in Hup.
    by apply Hup.
Qed.

(** C6. [sort_replace] on an ascending array that holds the old value
    terminates within its bounds and leaves the array ascending, with one
    occurrence of the old value replaced by the new one. *)
Theorem sort_replace_correct (arr : list Z) (old new : Z) :
  ascending arr -> old ∈ arr -> old <> new ->
  exists arr', sort_replace (Z.of_nat (length arr)) old new arr = (Ok tt, arr') /\
    ascending arr' /\ Permutation (old :: arr') (new :: arr).
Proof. apply sort_replace_run. Qed.

(** ** The sorter's invariant *)

Lemma insert_sorted_perm x l : Permutation (insert_sorted x l) (x :: l).
Proof.
  induction l as [|y l IH]; simpl; [done|]. case_match; [done|]. rewrite IH. apply Permutation_swap.
Qed.

Lemma qsort_perm l : Permutation (qsort l) l.
Proof. induction l as [|x l IH]; simpl; [done|]. by rewrite insert_sorted_perm, IH. Qed.

Lemma cmp_int64_le a b : (cmp_int64 a b <=? 0) = (a <=? b).
Proof.
  unfold cmp_int64. destruct (Z.ltb_spec a b), (Z.ltb_spec b a), (Z.leb_spec a b); simpl; lia || done.
Qed.

Lemma insert_sorted_ascending x l : ascending l -> ascending (insert_sorted x l).
Proof.
  induction 1 as [|y l Hs IH Hy]; simpl; [by repeat constructor|].
  rewrite cmp_int64_le. destruct (Z.leb_spec x y).
  - constructor; [by constructor|]. constructor; [done|]. eapply list.Forall_impl; [exact Hy|].
    intros z; simpl; lia.
  - constructor; [done|]. rewrite insert_sorted_perm. constructor; [lia|done].
Qed.

Lemma qsort_ascending l : ascending (qsort l).
Proof. induction l; simpl; [constructor|by apply insert_sorted_ascending]. Qed.

(** [sorted] is the ascending arrangement of [values]; also before the first
    change, when both hold zeros only. *)
Definition sort_wf (st : sort) : Prop :=
  Z.of_nat (length (s_values st)) = s_n st /\ s_sorted st = qsort (s_values st).

Lemma ascending_qsort l l' : ascending l -> Permutation l l' -> l = qsort l'.
Proof.
  intros Hs Hp. apply (StronglySorted_unique Z.le); [done|apply qsort_ascending|].
  by rewrite Hp, qsort_perm.
Qed.

Lemma sort_init_wf n : sort_wf (mk_sort (Z.of_nat n) (replicate n (mk_sort_input 0 None))
  (replicate n 0) (replicate n 0) false).
Proof.
  split; simpl; [by rewrite length_replicate|]. apply ascending_qsort; [|done].
  induction n; simpl; constructor; [done|]. apply Forall_replicate. lia.
Qed.

(** Replacing in the sorted array is sorting the changed values. *)
Lemma sort_replace_qsort values i old new :
  values !! i = Some old -> old <> new ->
  sort_replace (Z.of_nat (length values)) old new (qsort values) = (Ok tt, qsort (<[i := new]> values)).
Proof.
  intros Hi Hne.
  assert (old ∈ qsort values) as Hin.
  { rewrite qsort_perm. by eapply list_elem_of_lookup_2. }
  destruct (sort_replace_run (qsort values) old new (qsort_ascending values) Hin Hne)
    as (arr' & E & Hs & Hp).
  rewrite <- (Permutation_length (qsort_perm values)), E. f_equal.
  apply ascending_qsort; [done|]. apply (Permutation_cons_inv (a := old)). rewrite Hp, qsort_perm.
  rewrite <- (take_drop_middle values i old Hi) at 1.
  rewrite insert_take_drop by (by eapply lookup_lt_Some).
  rewrite <- !Permutation_middle. apply Permutation_swap.
Qed.

Definition outputs_ready (s : nat) (n : nat) (h : heap) : Prop :=
  forall i, (i < n)%nat -> exists c, h_chan h !! sort_get_output s (Z.of_nat i) = Some c /\ settable c.

(** The output loop succeeds and leaves every output equal to its entry. *)
Lemma write_outputs_run s l i h n : bay_inv h -> accepting h -> outputs_ready s n h ->
  (i + length l <= n)%nat ->
  exists h', write_outputs s l i h = (Ok tt, h') /\ bay_inv h' /\ accepting h' /\
    h_sort h' = h_sort h /\ outputs_ready s n h' /\
    (forall j x, l !! j = Some x -> exists c, h_chan h' !! sort_get_output s (Z.of_nat (i + j)) = Some c /\
       chan_read c = value_int64 x) /\
    (forall a, (forall j, (i <= j < i + length l)%nat -> a <> sort_get_output s (Z.of_nat j)) ->
       h_chan h' !! a = h_chan h !! a).
Proof.
  revert i h. induction l as [|x l IH]; intros i h HI HA HO Hl; simpl in *.
  { exists h. by split_and!. }
  destruct (HO i ltac:(lia)) as (c & Hc & Hset). pose proof Hset as (Hty & _).
  rewrite (mbind_run _ _ _ c h) by by apply load_Ok.
  assert (exists h1, (if value_is_equal (chan_read c) (value_int64 x) then mret tt
      else chan_set (sort_get_output s (Z.of_nat i)) (value_int64 x)) h = (Ok tt, h1) /\
    bay_inv h1 /\ accepting h1 /\ h_sort h1 = h_sort h /\ outputs_ready s n h1 /\
    (exists c1, h_chan h1 !! sort_get_output s (Z.of_nat i) = Some c1 /\ chan_read c1 = value_int64 x) /\
    (forall a, a <> sort_get_output s (Z.of_nat i) -> h_chan h1 !! a = h_chan h !! a))
    as (h1 & E & HI1 & HA1 & HS1 & HO1 & (c1 & Hc1 & Hr1) & Hfr1).
  { destruct (value_is_equal (chan_read c) (value_int64 x)) eqn:Heq.
    - apply value_is_equal_true in Heq. exists h. split_and!; try done. by exists c.
    - destruct (chan_set_forced _ (value_int64 x) c h HI HA Hc Hset) as [-> HI1].
      eexists. split; [done|]. split_and!; try done.
      + intros k Hk. rewrite heap_written_chan. case_decide; [|by apply HO].
        by exists (with_dirty true (with_value (value_int64 x) c)).
      + eexists. split; [rewrite heap_written_chan; by rewrite decide_True|].
        unfold chan_read; simpl. by rewrite Hty.
      + intros a Ha. rewrite heap_written_chan. by rewrite decide_False. }
  rewrite (mbind_run _ _ _ _ _ E).
  destruct (IH (S i) h1 HI1 HA1 HO1 ltac:(lia)) as (h' & E' & HI' & HA' & HS' & HO' & Hread & Hfr).
  exists h'. split_and!; try done; [congruence| |].
  - intros [|j] y Hj; simpl in Hj.
    + injection Hj as <-. rewrite Nat.add_0_r. exists c1. split; [|done].
      rewrite Hfr; [done|]. intros j Hj [=]. lia.
    + destruct (Hread j y Hj) as (cy & Hcy & Hry). exists cy.
      by replace (i + S j)%nat with (S i + j)%nat by lia.
  - intros a Ha. rewrite Hfr, Hfr1; [done| |].
    + apply Ha. lia.
    + intros j Hj. apply Ha. lia.
Qed.

Definition input_value (c : chan) : Z :=
  if bool_decide (v_type (chan_read c) = VALUE_INT64) then v_i (chan_read c) else 0.

(** Every output channel reads its entry of the sorted array. *)
Definition shown (s : nat) (st : sort) (h : heap) : Prop :=
  forall i x, s_sorted st !! i = Some x ->
    exists c, h_chan h !! sort_get_output s (Z.of_nat i) = Some c /\ chan_read c = value_int64 x.

Lemma store_sort_run s x h : store_sort s x h = (Ok tt, set_h_sort <[s := x]> h).
Proof. done. Qed.

Lemma load_sort_run s st h : h_sort h !! s = Some st -> load_sort s h = (Ok st, h).
Proof. intros Hs. unfold load_sort, mbind, mget. by rewrite Hs. Qed.

Lemma bay_inv_sort f h : bay_inv h -> bay_inv (set_h_sort f h).
Proof. by intros []; split. Qed.

Lemma sort_replace_on s st i old new h :
  sort_wf st -> s_values st !! i = Some old -> old <> new ->
  h_sort h !! s = Some (mk_sort (s_n st) (s_inputs st) (<[i := new]> (s_values st)) (s_sorted st) (s_copied st)) ->
  (if s_copied st then on_sorted s (sort_replace (s_n st) old new)
   else store_sort s (mk_sort (s_n st) (s_inputs st) (<[i := new]> (s_values st))
          (qsort (<[i := new]> (s_values st))) true)) h =
  (Ok tt, set_h_sort <[s := mk_sort (s_n st) (s_inputs st) (<[i := new]> (s_values st))
      (qsort (<[i := new]> (s_values st))) true]> h).
Proof.
  intros [Hn Hs] Hi Hne Hh. destruct (s_copied st) eqn:Hcp; [|done].
  unfold on_sorted. rewrite (mbind_run _ _ _ _ _ (load_sort_run s _ h Hh)). simpl.
  rewrite Hs, <- Hn. rewrite (sort_replace_qsort _ i); done.
Qed.

(** C5. A change of an input: the array is the sorted values again, and every
    output shows its entry, unless the value was the same. *)
Theorem sort_cb_input_correct s st index (a : addr) c h :
  bay_inv h -> accepting h -> h_chan h !! a = Some c ->
  h_sort h !! s = Some st -> sort_wf st -> 0 <= index < s_n st ->
  outputs_ready s (Z.to_nat (s_n st)) h ->
  exists h' st', sort_cb_input s index a h = (Ok tt, h') /\
    bay_inv h' /\ accepting h' /\ outputs_ready s (Z.to_nat (s_n st)) h' /\
    h_sort h' !! s = Some st' /\ sort_wf st' /\
    s_values st' = <[Z.to_nat index := input_value c]> (s_values st) /\
    (shown s st h \/ s_values st !! Z.to_nat index <> Some (input_value c) -> shown s st' h').
Proof.
  intros HI HA Hc Hs Hwf Hidx HO. pose proof Hwf as [Hn Hsort].
  destruct (lookup_lt_is_Some_2 (s_values st) (Z.to_nat index)) as [old Hold]; [lia|].
  unfold sort_cb_input. rewrite (mbind_run _ _ _ c h) by by apply load_Ok.
  fold (input_value c). rewrite (mbind_run _ _ _ _ _ (load_sort_run s st h Hs)).
  rewrite (proj2 (Z.ltb_ge _ _)), Hold by lia. rewrite (mbind_run _ _ _ old h) by done.
  destruct (Z.eqb_spec old (input_value c)) as [E|E].
  { exists h, st. split_and!; try done; [by rewrite list_insert_id; congruence|]. intros [?|Hx]; [done|]. congruence. }
  set (values := <[Z.to_nat index := input_value c]> (s_values st)).
  rewrite (mbind_run _ _ _ _ _ (store_sort_run s _ h)).
  set (h1 := set_h_sort _ h).
  assert (h_sort h1 !! s = Some (mk_sort (s_n st) (s_inputs st) values (s_sorted st) (s_copied st)))
    as Hs1 by apply lookup_insert_eq.
  rewrite (mbind_run _ _ _ _ _ (sort_replace_on s st _ old _ _ Hwf Hold E Hs1)).
  fold values. set (st' := mk_sort _ _ values (qsort values) true).
  set (h2 := set_h_sort _ h1).
  assert (h_sort h2 !! s = Some st') as Hs2 by apply lookup_insert_eq.
  rewrite (mbind_run _ _ _ _ _ (load_sort_run s st' h2 Hs2)).
  assert (Z.of_nat (length values) = s_n st) as Hlen by (unfold values; by rewrite length_insert).
  destruct (write_outputs_run s (qsort values) 0 h2 (Z.to_nat (s_n st)))
    as (h' & E' & HI' & HA' & HS' & HO' & Hread & _); [by do 2 apply bay_inv_sort|done|done| |].
  { rewrite (Permutation_length (qsort_perm values)). lia. }
  exists h', st'. change (s_sorted st') with (qsort values). split_and!; try done.
  by rewrite HS'.
Qed.

(** ** The loops never need more fuel than the length of the array *)

Lemma rd_result i arr : (exists x, rd i arr = (Ok x, arr) /\ 0 <= i < Z.of_nat (length arr)) \/ rd i arr = (Ub, arr).
Proof.
  unfold rd, mbind, mget, deref. destruct (Z.ltb_spec i 0); [by right|].
  destruct (arr !! Z.to_nat i) as [x|] eqn:E; [|by right]. left. exists x. split; [done|].
  apply lookup_lt_Some in E. lia.
Qed.

Lemma wr_length i x arr : length (wr i x arr).2 = length arr.
Proof. unfold wr, mbind, mget, mub, mput. case_match; simpl; [done|apply length_insert]. Qed.

Lemma wr_nofuel i x : nofuel (wr i x).
Proof. unfold wr. nofuel_tac. Qed.

Lemma skip_lt_nofuel fuel old i arr : Z.of_nat (length arr) <= Z.of_nat fuel + i ->
  (skip_lt fuel old i arr).1 <> Fuel /\ (skip_lt fuel old i arr).2 = arr /\
  (forall j, (skip_lt fuel old i arr).1 = Ok j -> 0 <= j < Z.of_nat (length arr)).
Proof.
  revert i. induction fuel as [|fuel IH]; intros i Hf; simpl; unfold mbind, mret, mfuel;
    (destruct (rd_result i arr) as [(x & -> & Hi)| ->]; [|done]); destruct (x <? old); try (exfalso; simpl in Hf; lia).
  - apply IH. lia.
  - simpl. split_and!; [done|done|]. intros j [= <-]. lia.
Qed.

Lemma shift_left_nofuel fuel n new i arr : Z.of_nat (length arr) <= Z.of_nat fuel + i + 1 ->
  (shift_left fuel n new i arr).1 <> Fuel.
Proof.
  revert i arr. induction fuel as [|fuel IH]; intros i arr Hf; simpl; (case_match; [|done]); unfold mbind;
    (destruct (rd_result (i + 1) arr) as [(x & -> & Hi)| ->]; [|done]); destruct (x <=? new); try done; [lia|].
  pose proof (wr_nofuel i x arr) as Hn. pose proof (wr_length i x arr) as Hl.
  destruct (wr i x arr) as [[] s]; simpl in *; try done. apply IH. lia.
Qed.

Lemma shift_right_nofuel fuel new i arr : i <= Z.of_nat fuel -> (shift_right fuel new i arr).1 <> Fuel.
Proof.
  revert i arr. induction fuel as [|fuel IH]; intros i arr Hf; simpl;
    (destruct (Z.ltb_spec 0 i); [|done]); [lia|]; unfold mbind.
  destruct (rd_result (i - 1) arr) as [(x & -> & Hi)| ->]; [|done]. destruct (new <? x); [|done].
  pose proof (wr_nofuel i x arr) as Hn. destruct (wr i x arr) as [[] s]; simpl in *; try done. apply IH. lia.
Qed.

Lemma bind_nofuel_at {S A B} (m : M S A) (k : A -> M S B) s :
  (m s).1 <> Fuel -> (forall a s1, m s = (Ok a, s1) -> (k a s1).1 <> Fuel) -> (mbind m k s).1 <> Fuel.
Proof. unfold mbind. intros Hm Hk. destruct (m s) as [[a| | | |] s1]; simpl in *; try done. by apply Hk. Qed.

Lemma sort_replace_nofuel n old new : nofuel (sort_replace n old new).
Proof.
  intros arr. unfold sort_replace. rewrite (mbind_run _ _ _ arr arr) by done. case_match; [done|].
  assert (forall i0, 0 <= i0 -> (skip_lt (length arr) old i0 arr).1 <> Fuel /\
    forall i s, skip_lt (length arr) old i0 arr = (Ok i, s) -> s = arr /\ 0 <= i < Z.of_nat (length arr)) as Hskip.
  { intros i0 H0. destruct (skip_lt_nofuel (length arr) old i0 arr) as (? & Hs & Hj); [lia|].
    split; [done|]. intros i s E. rewrite E in Hs, Hj. split; [done|by apply Hj]. }
  destruct (old <? new).
  - apply bind_nofuel_at.
    { destruct (rd_result (n / 2) arr) as [(x & -> & _)| ->]; done. }
    intros x s1 E. destruct (rd_result (n / 2) arr) as [(x' & E' & Hn)|E']; rewrite E' in E; [|done].
    injection E as -> <-.
    destruct (Hskip (if x <? old then n / 2 else 0)) as [Hf Hok]; [case_match; lia|].
    apply bind_nofuel_at; [done|]. intros i s E. destruct (Hok i s E) as [-> Hi].
    apply bind_nofuel_at; [|intros; apply wr_nofuel].
    apply shift_left_nofuel. lia.
  - destruct (Hskip 0) as [Hf Hok]; [lia|].
    apply bind_nofuel_at; [done|]. intros i s E. destruct (Hok i s E) as [-> Hi].
    apply bind_nofuel_at; [|intros; apply wr_nofuel]. apply shift_right_nofuel. lia.
Qed.

(** ** Evaluated examples *)

Lemma sort_replace_correct_witness : exists arr',
  sort_replace 4 3 8 [1; 3; 5; 9] = (Ok tt, arr') /\ ascending arr' /\
  Permutation (3 :: arr') [8; 1; 3; 5; 9].
Proof.
  apply (sort_replace_correct [1; 3; 5; 9] 3 8); [|set_solver|lia].
  repeat constructor; lia.
Defined.

Definition demo_in : addr := Addr (OwnOther 1) 0.
Definition demo_out (i : nat) : addr := sort_get_output 0 (Z.of_nat i).
Definition demo_out_chan : chan := mk_chan false 1 1 0 None value_null CHAN_SINGLE value_null [] "out".
Definition demo_in_chan : chan := mk_chan false 0 0 0 None (value_int64 5) CHAN_SINGLE (value_int64 5) [] "in".
Definition demo_sort : sort := mk_sort 2 (replicate 2 (mk_sort_input 0 None)) [0; 0] [0; 0] false.
Definition demo_sort_heap : heap :=
  bay_init (set_h_sort (fun _ => <[0%nat := demo_sort]> ∅)
    (set_h_chan (fun _ => <[demo_in := demo_in_chan]> (<[demo_out 0 := demo_out_chan]>
                         (<[demo_out 1 := demo_out_chan]> ∅))) empty_heap)).

Lemma sort_cb_input_correct_witness : exists h' st',
  sort_cb_input 0 1 demo_in demo_sort_heap = (Ok tt, h') /\ h_sort h' !! 0%nat = Some st' /\
  shown 0 st' h' /\ s_values st' = [0; 5].
Proof.
  destruct (sort_cb_input_correct 0 demo_sort 1 demo_in demo_in_chan demo_sort_heap)
    as (h' & st' & E & _ & _ & _ & Hs & _ & Hv & Hsh).
  - apply bay_init_inv; [|reflexivity]. intros a c. simpl. rewrite !lookup_insert, lookup_empty.
    repeat case_decide; intros; simplify_eq; reflexivity.
  - left. reflexivity.
  - reflexivity.
  - reflexivity.
  - apply (sort_init_wf 2).
  - simpl. lia.
  - intros [|[|i]] Hi; simpl in Hi; [| |lia]; exists demo_out_chan; split; try reflexivity; by split_and!.
  - exists h', st'. split_and!; [done|done| |done]. apply Hsh. right. by vm_compute.
Defined.
