(* ===== verification/Prv.v ===== *)
(** * Paraver streams (src/emu/pv/prv.c)

    A Paraver stream has a time and a table of channels, each drawn in one row
    with one type.  When a registered channel is flushed by the bay its emit
    callback writes one line with the current time, unless the value is a
    duplicate: the flags of the channel say whether those are skipped, written
    or an error. *)

From stdpp Require Import pretty.
From S2P Require Import Prelude Chan Heap Bay.

Definition PRV_EMITDUP : Z := 1.
Definition PRV_SKIPDUP : Z := 2.
Definition PRV_NEXT : Z := 4.
Definition PRV_ZERO : Z := 8.
Definition PRV_SKIPDUPNULL : Z := 16.

(** [flags & bit] and [~flags & bit] as C conditions. *)
Definition flag (flags bit : Z) : bool := c_true (Z.land flags bit).
Definition no_flag (flags bit : Z) : bool := c_true (Z.land (Z.lnot flags) bit).

Definition load_prv (p : nat) : M heap prv := let* h := mget in deref (h_prv h !! p).
Definition upd_prv (p : nat) (f : prv -> prv) : M heap unit := mmod (set_h_prv (alter f p)).

Definition prv_open_file (p : nat) (nrows : Z) : M heap unit :=
  mmod (set_h_prv <[p := mk_prv 0 nrows ∅ []]>).

(** The text of the file: header and lines. *)
Definition zeros (n : nat) : string := String.concat "" (replicate n "0").
Definition pad20 (s : string) : string := (zeros (20 - String.length s) +:+ s)%string.
Definition write_header (duration nrows : Z) : string :=
  ("#Paraver (19/01/38 at 03:14):" +:+ pad20 (pretty duration) +:+ "_ns:0:1:1(" +:+
   pretty nrows +:+ ":1)")%string.
Definition line_text (l : prv_line) : string :=
  ("2:0:1:1:" +:+ pretty (pl_row l) +:+ ":" +:+ pretty (pl_time l) +:+ ":" +:+
   pretty (pl_type l) +:+ ":" +:+ pretty (pl_value l))%string.
(** [prv_close] rewrites the header with the last time. *)
Definition prv_close (pv : prv) : list string :=
  write_header (p_time pv) (p_nrows pv) :: map line_text (p_lines pv).

Definition get_id (pv : prv) (type row : Z) : Z := type * p_nrows pv + row.

Definition find_prv_chan (pv : prv) (id : Z) : option prv_chan := p_channels pv !! id.

Definition write_line (row_base1 type value : Z) (pv : prv) : prv :=
  mk_prv (p_time pv) (p_nrows pv) (p_channels pv)
    (p_lines pv ++ [mk_prv_line row_base1 (p_time pv) type value]).

Definition is_value_dup (rc : prv_chan) (v : value) : bool :=
  if negb (rc_last_value_set rc) then false else value_is_equal v (rc_last_value rc).

Definition rc_set_last (v : value) (rc : prv_chan) : prv_chan :=
  mk_prv_chan (rc_chan rc) (rc_row_base1 rc) (rc_type rc) (rc_flags rc) true v.

(** The second half of [emit]: from the value to the line. *)
Definition emit_value (p : nat) (rc : prv_chan) (v : value) : M heap unit :=
  let* val :=
    (match v_type v with
     | VALUE_INT64 =>
         if flag (rc_flags rc) PRV_NEXT && (v_i v =? 2 ^ 63 - 1) then mub else
         let val := if flag (rc_flags rc) PRV_NEXT then v_i v + 1 else v_i v in
         if no_flag (rc_flags rc) PRV_ZERO && (val =? 0) then mfail else mret val
     | VALUE_NULL => mret 0
     | VALUE_DOUBLE => mfail
     end) in
  upd_prv p (write_line (rc_row_base1 rc) (rc_type rc) val).

(** What the duplicate test decides. *)
Inductive dup_action := DupEmit | DupSkip | DupError.

Definition dup_action_of (rc : prv_chan) (v : value) : dup_action :=
  if is_value_dup rc v then
    if flag (rc_flags rc) PRV_SKIPDUP then DupSkip
    else if flag (rc_flags rc) PRV_SKIPDUPNULL then
      if value_is_null v then DupSkip else DupEmit
    else DupError
  else DupEmit.

Definition emit (p : nat) (id : Z) : M heap unit :=
  let* pv := load_prv p in
  let* rc := deref (find_prv_chan pv id) in
  let* c := load (rc_chan rc) in
  let v := chan_read c in
  if no_flag (rc_flags rc) PRV_EMITDUP then
    match dup_action_of rc v with
    | DupSkip => mret tt
    | DupError => mfail
    | DupEmit =>
        upd_prv p (fun pv => mk_prv (p_time pv) (p_nrows pv)
          (<[id := rc_set_last v rc]> (p_channels pv)) (p_lines pv)) ;;;
        emit_value p rc v
    end
  else emit_value p rc v.

Definition cb_prv (p : nat) (id : Z) (a : addr) : M heap unit := emit p id.

Definition check_flags {S} (flags : Z) : M S unit :=
  if flag flags PRV_EMITDUP && flag flags PRV_SKIPDUPNULL then mfail else
  if flag flags PRV_EMITDUP && flag flags PRV_SKIPDUP then mfail else
  if flag flags PRV_SKIPDUP && flag flags PRV_SKIPDUPNULL then mfail else mret tt.

Definition prv_register (p : nat) (row type : Z) (a : addr) (flags : Z) : M heap unit :=
  let* pv := load_prv p in
  let id := get_id pv type row in
  match find_prv_chan pv id with
  | Some _ => mfail
  | None =>
      check_flags flags ;;;
      let* _ := bay_add_cb BAY_CB_EMIT a (Some (FnPrv p id)) true in
      upd_prv p (fun pv => mk_prv (p_time pv) (p_nrows pv)
        (<[id := mk_prv_chan a (row + 1) type flags false value_null]> (p_channels pv)) (p_lines pv))
  end.

Definition prv_advance (p : nat) (time : Z) : M heap unit :=
  let* pv := load_prv p in
  if time <? p_time pv then mfail else
  upd_prv p (fun pv => mk_prv time (p_nrows pv) (p_channels pv) (p_lines pv)).

(** ** The invariant of a stream *)

(** The value drawn for a channel value. *)
Definition drawn (flags : Z) (v : value) : Z :=
  match v_type v with
  | VALUE_INT64 => if flag flags PRV_NEXT then v_i v + 1 else v_i v
  | _ => 0
  end.

Definition on_row (r ty : Z) (l : prv_line) : bool := (pl_row l =? r) && (pl_type l =? ty).
Definition row_last (pv : prv) (r ty : Z) : option Z :=
  pl_value <$> list.last (List.filter (on_row r ty) (p_lines pv)).

(** Channels sit at their identifier; every line was written by a registered
    channel; times never go back; and for a channel that tests duplicates
    [last_value] is what its row shows. *)
Record prv_wf (pv : prv) : Prop := {
  pw_id : forall id rc, p_channels pv !! id = Some rc -> id = get_id pv (rc_type rc) (rc_row_base1 rc - 1);
  pw_lines : forall l, l ∈ p_lines pv -> exists id rc, p_channels pv !! id = Some rc /\
    pl_row l = rc_row_base1 rc /\ pl_type l = rc_type rc;
  pw_times : StronglySorted Z.le (pl_time <$> p_lines pv);
  pw_time : Forall (fun l => pl_time l <= p_time pv) (p_lines pv);
  pw_last : forall id rc, p_channels pv !! id = Some rc -> no_flag (rc_flags rc) PRV_EMITDUP = true ->
    row_last pv (rc_row_base1 rc) (rc_type rc) =
      if rc_last_value_set rc then Some (drawn (rc_flags rc) (rc_last_value rc)) else None
}.

Lemma row_last_write pv r ty x r' ty' :
  row_last (write_line r ty x pv) r' ty' =
    if bool_decide (r = r' /\ ty = ty') then Some x else row_last pv r' ty'.
Proof.
  unfold row_last, write_line; simpl. rewrite List.filter_app. simpl. unfold on_row at 2; simpl.
  case_bool_decide as E.
  - destruct E as [-> ->]. rewrite !Z.eqb_refl. simpl. by rewrite last_snoc.
  - destruct (Z.eqb_spec r r'), (Z.eqb_spec ty ty'); simpl; rewrite ?app_nil_r; try done. naive_solver.
Qed.

(** Setting the fields that the invariant does not tie to the lines. *)
Lemma row_last_lines pv pv' r ty : p_lines pv' = p_lines pv -> row_last pv' r ty = row_last pv r ty.
Proof. unfold row_last. by intros ->. Qed.

Lemma StronglySorted_snoc (l : list Z) x : StronglySorted Z.le l -> Forall (fun y => y <= x) l ->
  StronglySorted Z.le (l ++ [x]).
Proof.
  induction 1 as [|y l Hs IH Hy]; intros Hx; simpl; [by repeat constructor|].
  inversion_clear Hx. constructor; [by apply IH|]. apply Forall_app. by rewrite Forall_singleton.
Qed.

(** One line is written for channel [id]: the row shows the value. *)
Lemma write_line_wf pv id rc v :
  prv_wf pv -> p_channels pv !! id = Some rc ->
  (no_flag (rc_flags rc) PRV_EMITDUP = true -> rc_last_value_set rc = true /\ rc_last_value rc = v) ->
  (forall id' rc', id' <> id -> p_channels pv !! id' = Some rc' -> no_flag (rc_flags rc') PRV_EMITDUP = true ->
    row_last pv (rc_row_base1 rc') (rc_type rc') =
      if rc_last_value_set rc' then Some (drawn (rc_flags rc') (rc_last_value rc')) else None) ->
  prv_wf (write_line (rc_row_base1 rc) (rc_type rc) (drawn (rc_flags rc) v) pv).
Proof.
  intros HW Hid Hv Hoth. split.
  - apply (pw_id _ HW).
  - simpl. intros l [Hl|Hl]%elem_of_app; [by apply (pw_lines _ HW)|].
    apply list_elem_of_singleton in Hl as ->. by exists id, rc.
  - simpl. rewrite fmap_app. apply StronglySorted_snoc; [apply (pw_times _ HW)|].
    apply Forall_fmap. apply (pw_time _ HW).
  - simpl. apply Forall_app. split; [apply (pw_time _ HW)|]. apply Forall_singleton. simpl. lia.
  - intros id' rc' Hid' Hnf. rewrite row_last_write. simpl in Hid'.
    destruct (decide (id' = id)) as [->|Hne].
    + simplify_eq. rewrite bool_decide_true by done. by destruct (Hv Hnf) as [-> ->].
    + rewrite bool_decide_false; [by eapply Hoth|]. intros [Er Et]. apply Hne.
      rewrite (pw_id _ HW id rc Hid), (pw_id _ HW id' rc' Hid'). congruence.
Qed.

(** ** Emission *)

Lemma load_prv_run p pv h : h_prv h !! p = Some pv -> load_prv p h = (Ok pv, h).
Proof. intros Hp. unfold load_prv, mbind, mget. by rewrite Hp. Qed.

Lemma emit_value_Ok p rc v h h' : emit_value p rc v h = (Ok tt, h') ->
  h' = set_h_prv (alter (write_line (rc_row_base1 rc) (rc_type rc) (drawn (rc_flags rc) v)) p) h.
Proof.
  unfold emit_value, drawn, upd_prv. intros E. minv1 E. destruct (v_type v).
  - by minv1 E0.
  - destruct (_ && _) in E0; [by minv1 E0|]. destruct (_ && _) in E0; by minv1 E0.
  - by minv1 E0.
Qed.

(** What [emit] leaves when it succeeds: either the stream as it was, or one
    more line of the channel. *)
Inductive emitted (id : Z) (rc : prv_chan) (v : value) (pv : prv) : prv -> Prop :=
| emitted_skip :
    no_flag (rc_flags rc) PRV_EMITDUP = true -> dup_action_of rc v = DupSkip ->
    emitted id rc v pv pv
| emitted_line :
    no_flag (rc_flags rc) PRV_EMITDUP = true -> dup_action_of rc v = DupEmit ->
    emitted id rc v pv (write_line (rc_row_base1 rc) (rc_type rc) (drawn (rc_flags rc) v)
      (mk_prv (p_time pv) (p_nrows pv) (<[id := rc_set_last v rc]> (p_channels pv)) (p_lines pv)))
| emitted_dup :
    no_flag (rc_flags rc) PRV_EMITDUP = false ->
    emitted id rc v pv (write_line (rc_row_base1 rc) (rc_type rc) (drawn (rc_flags rc) v) pv).

Lemma emit_Ok p id h h' : emit p id h = (Ok tt, h') ->
  exists pv rc c pv', h_prv h !! p = Some pv /\ p_channels pv !! id = Some rc /\
    h_chan h !! rc_chan rc = Some c /\ emitted id rc (chan_read c) pv pv' /\
    h' = set_h_prv <[p := pv']> h.
Proof.
  unfold emit, upd_prv. intros E. apply mbind_Ok in E as (pv & h1 & E1 & E).
  apply mbind_Ok in E1 as (h0 & h2 & E0 & E1). injection E0 as <- <-. apply deref_Ok in E1 as [Hp ->].
  apply mbind_Ok in E as (rc & h1 & E1 & E). apply deref_Ok in E1 as [Hid ->].
  apply mbind_Ok in E as (c & h1 & E1 & E). apply load_Ok in E1 as [Hc ->].
  assert (forall q, set_h_prv (alter q p) h = set_h_prv <[p := q pv]> h) as Halt.
  { intros q. unfold set_h_prv. f_equal. apply map_eq. intros j.
    rewrite lookup_alter, lookup_insert. case_decide; subst; by rewrite ?Hp. }
  exists pv, rc, c.
  destruct (no_flag _ _) eqn:Hnf.
  - destruct (dup_action_of _ _) eqn:Hd.
    + apply mbind_Ok in E as ([] & h1 & E1 & E). injection E1 as <-. apply emit_value_Ok in E as ->. eexists. split_and!; [done|done|done|by apply emitted_line|].
      rewrite Halt. unfold set_h_prv; simpl. f_equal. apply map_eq. intros j.
      rewrite lookup_alter, !lookup_insert. repeat case_decide; done.
    + minv1 E. eexists. split_and!; [done|done|done|by apply emitted_skip|].
      destruct h; unfold set_h_prv; simpl in *. by rewrite insert_id.
    + by minv1 E.
  - apply emit_value_Ok in E as ->. eexists. split_and!; [done|done|done|by apply emitted_dup|]. apply Halt.
Qed.

Lemma dup_skip rc v : dup_action_of rc v = DupSkip -> rc_last_value_set rc = true /\ rc_last_value rc = v.
Proof.
  unfold dup_action_of, is_value_dup. destruct (rc_last_value_set rc); simpl; [|done].
  destruct (value_is_equal _ _) eqn:E; [|done]. apply value_is_equal_true in E as ->. done.
Qed.

Lemma emitted_wf id rc v pv pv' : prv_wf pv -> p_channels pv !! id = Some rc ->
  emitted id rc v pv pv' ->
  prv_wf pv' /\ row_last pv' (rc_row_base1 rc) (rc_type rc) = Some (drawn (rc_flags rc) v).
Proof.
  intros HW Hid [Hnf Hd|Hnf Hd|Hf].
  - split; [done|]. rewrite (pw_last _ HW id rc Hid Hnf). by destruct (dup_skip rc v Hd) as [-> ->].
  - split; [|by rewrite row_last_write, bool_decide_true].
    set (pv1 := mk_prv _ _ _ _). change (rc_row_base1 rc) with (rc_row_base1 (rc_set_last v rc)).
    change (rc_type rc) with (rc_type (rc_set_last v rc)).
    change (rc_flags rc) with (rc_flags (rc_set_last v rc)).
    (* only the entry of [id] changed, and its row is about to be written *)
    assert (forall id' rc', p_channels pv1 !! id' = Some rc' -> exists rc0, p_channels pv !! id' = Some rc0 /\
      rc_type rc' = rc_type rc0 /\ rc_row_base1 rc' = rc_row_base1 rc0 /\ rc_flags rc' = rc_flags rc0 /\
      (id' <> id -> rc' = rc0)) as Hold.
    { intros id' rc'. simpl. rewrite lookup_insert. case_decide.
      - intros [= <-]. subst. exists rc. by split_and!.
      - intros. by exists rc'. }
    assert (p_channels pv1 !! id = Some (rc_set_last v rc)) as Hid1 by (simpl; apply lookup_insert_eq).
    split.
    + intros id' rc' Hi. destruct (Hold id' rc' Hi) as (rc0 & H0 & -> & -> & _). by apply (pw_id _ HW).
    + simpl. intros l [Hl|Hl]%elem_of_app.
      * destruct (pw_lines _ HW l Hl) as (id' & rc' & Hi & ? & ?). destruct (decide (id' = id)) as [->|].
        { simplify_eq. exists id, (rc_set_last v rc). by rewrite lookup_insert_eq. }
        exists id', rc'. by rewrite lookup_insert_ne.
      * apply list_elem_of_singleton in Hl as ->. exists id, (rc_set_last v rc). by rewrite lookup_insert_eq.
    + simpl. rewrite fmap_app. apply StronglySorted_snoc; [apply (pw_times _ HW)|].
      apply Forall_fmap. apply (pw_time _ HW).
    + simpl. apply Forall_app. split; [apply (pw_time _ HW)|]. apply Forall_singleton. simpl. lia.
    + intros id' rc' Hi Hnf'. rewrite row_last_write. destruct (decide (id' = id)) as [->|Hne].
      * simpl in Hi. rewrite lookup_insert_eq in Hi. simplify_eq. by rewrite bool_decide_true.
      * destruct (Hold id' rc' Hi) as (rc0 & H0 & _ & _ & _ & Heq). specialize (Heq Hne) as ->.
        rewrite bool_decide_false; [by apply (pw_last _ HW id')|]. intros [Er Et]. apply Hne.
        rewrite (pw_id _ HW id rc Hid), (pw_id _ HW id' rc0 H0). simpl in Er, Et. congruence.
  - split; [|by rewrite row_last_write, bool_decide_true].
    apply (write_line_wf pv id); [done|done|congruence|].
    intros id' rc' _ Hi Hn. by apply (pw_last _ HW id').
Qed.

(** C8. A successful emission keeps the stream well formed, and afterwards
    the row of the channel shows the value of the channel, whether a line was
    written or a duplicate was skipped; and a channel with neither [PRV_EMITDUP]
    nor [PRV_SKIPDUPNULL] (which let equal values be written again) gets no
    line for a value equal to the last one written. *)
Theorem emit_shows p id h h' pv : h_prv h !! p = Some pv -> prv_wf pv ->
  emit p id h = (Ok tt, h') ->
  exists rc c pv', p_channels pv !! id = Some rc /\ h_chan h !! rc_chan rc = Some c /\
    h' = set_h_prv <[p := pv']> h /\ prv_wf pv' /\
    row_last pv' (rc_row_base1 rc) (rc_type rc) = Some (drawn (rc_flags rc) (chan_read c)) /\
    (flag (rc_flags rc) PRV_SKIPDUPNULL = false -> no_flag (rc_flags rc) PRV_EMITDUP = true ->
     rc_last_value_set rc = true -> rc_last_value rc = chan_read c -> p_lines pv' = p_lines pv).
Proof.
  intros Hp HW E. destruct (emit_Ok p id h h' E) as (pv0 & rc & c & pv' & ? & Hid & Hc & He & ->).
  simplify_eq. exists rc, c, pv'. destruct (emitted_wf id rc (chan_read c) pv pv' HW Hid He).
  split_and!; try done. intros Hsn Hnf Hset Hlast.
  destruct He as [|_ Hd|Hf]; [done| |congruence].
  unfold dup_action_of, is_value_dup in Hd. rewrite Hset, Hlast, value_is_equal_refl, Hsn in Hd.
  simpl in Hd. by destruct (flag _ _).
Qed.

(** Time only moves forward: [prv_advance] fails exactly when asked to go
    back, and otherwise keeps the stream well formed, so the lines of a stream
    are always in order of time. *)
Theorem prv_advance_monotone p t h pv : h_prv h !! p = Some pv -> prv_wf pv ->
  (t < p_time pv -> prv_advance p t h = (Err, h)) /\
  (p_time pv <= t -> exists h' pv', prv_advance p t h = (Ok tt, h') /\ h_prv h' !! p = Some pv' /\
     p_time pv' = t /\ p_lines pv' = p_lines pv /\ prv_wf pv' /\
     StronglySorted Z.le ((pl_time <$> p_lines pv') ++ [t])).
Proof.
  intros Hp HW. unfold prv_advance. rewrite (mbind_run _ _ _ _ _ (load_prv_run p pv h Hp)).
  destruct (Z.ltb_spec t (p_time pv)); split; try lia; [done|]. intros _.
  assert (Forall (fun l => pl_time l <= t) (p_lines pv)) as Ht.
  { eapply list.Forall_impl; [apply (pw_time _ HW)|]. intros l; simpl; lia. }
  eexists _, _. split; [done|]. simpl. rewrite lookup_alter_eq, Hp. split; [done|].
  split_and!; try done.
  - destruct HW. by split.
  - simpl. apply StronglySorted_snoc; [apply (pw_times _ HW)|]. by apply Forall_fmap.
Qed.

(** Identifiers of cells inside the trace are unique. *)
Lemma get_id_inj pv t1 r1 t2 r2 : 0 <= r1 < p_nrows pv -> 0 <= r2 < p_nrows pv ->
  get_id pv t1 r1 = get_id pv t2 r2 -> t1 = t2 /\ r1 = r2.
Proof.
  unfold get_id. intros H1 H2 E. assert (t1 = t2) as ->; [|lia].
  destruct (Z.lt_total t1 t2) as [Hlt|[?|Hlt]]; [exfalso; nia|done|exfalso; nia].
Qed.

Lemma check_flags_Ok {S} flags (s s' : S) u : check_flags flags s = (Ok u, s') ->
  s' = s /\ ~ (flag flags PRV_EMITDUP = true /\ (flag flags PRV_SKIPDUP = true \/ flag flags PRV_SKIPDUPNULL = true)).
Proof.
  unfold check_flags. destruct (flag flags PRV_EMITDUP), (flag flags PRV_SKIPDUP), (flag flags PRV_SKIPDUPNULL);
    simpl; intros [=]; split; naive_solver.
Qed.

Lemma register_wf pv row type flags a :
  prv_wf pv -> find_prv_chan pv (get_id pv type row) = None ->
  prv_wf (mk_prv (p_time pv) (p_nrows pv)
    (<[get_id pv type row := mk_prv_chan a (row + 1) type flags false value_null]> (p_channels pv)) (p_lines pv)).
Proof.
  intros HW Hf. split; simpl.
  - intros id rc. rewrite lookup_insert. case_decide; [|by apply (pw_id _ HW)].
    intros [= <-]; simpl. rewrite <- H. unfold get_id; simpl. lia.
  - intros l Hl. destruct (pw_lines _ HW l Hl) as (id & rc & Hi & ? & ?). exists id, rc.
    rewrite lookup_insert_ne; [done|]. intros <-. unfold find_prv_chan in Hf. congruence.
  - apply (pw_times _ HW).
  - apply (pw_time _ HW).
  - intros id rc. rewrite lookup_insert. case_decide as E; [|by apply (pw_last _ HW)].
    intros [= <-] _; simpl. unfold row_last; simpl.
    assert (List.filter (on_row (row + 1) type) (p_lines pv) = []) as ->; [|done].
    destruct (List.filter _ _) as [|l ls] eqn:El; [done|exfalso].
    assert (In l (List.filter (on_row (row + 1) type) (p_lines pv))) as Hin by (rewrite El; by left).
    apply List.filter_In in Hin as [Hin Hon]. unfold on_row in Hon. apply andb_true_iff in Hon as [Er Et].
    apply Z.eqb_eq in Er, Et. apply list_elem_of_In in Hin.
    destruct (pw_lines _ HW l Hin) as (id' & rc' & Hi & Hr & Hty).
    pose proof (pw_id _ HW id' rc' Hi) as E'. rewrite <- Hr, <- Hty, Er, Et in E'.
    replace (row + 1 - 1) with row in E' by lia. unfold find_prv_chan in Hf. congruence.
Qed.

(** ** Evaluated examples *)

Definition demo_prv_in : addr := Addr (OwnOther 2) 0.
Definition demo_prv : prv :=
  mk_prv 100 4 {[ 42 := mk_prv_chan demo_prv_in 3 10 PRV_SKIPDUP false value_null ]} [].
Definition demo_prv_heap : heap :=
  set_h_prv (fun _ => <[0%nat := demo_prv]> ∅)
    (set_h_chan (fun _ => <[demo_prv_in := mk_chan false 0 0 0 None (value_int64 5) CHAN_SINGLE
       (value_int64 5) [] "in"]> ∅) empty_heap).

Lemma demo_prv_wf : prv_wf demo_prv.
Proof.
  split; simpl.
  - intros id rc. rewrite lookup_singleton. case_decide; [|done]. intros [= <-]. by subst.
  - intros l Hl. by apply elem_of_nil in Hl.
  - constructor.
  - constructor.
  - intros id rc. rewrite lookup_singleton. case_decide; [|done]. by intros [= <-].
Qed.

Lemma emit_shows_witness : exists h' pv',
  emit 0 42 demo_prv_heap = (Ok tt, h') /\ h_prv h' !! 0%nat = Some pv' /\ row_last pv' 3 10 = Some 5.
Proof.
  exists (emit 0 42 demo_prv_heap).2. destruct (emit_shows 0 42 demo_prv_heap (emit 0 42 demo_prv_heap).2 demo_prv)
    as (rc & c & pv' & Hid & Hc & E & _ & Hl & _); [reflexivity|apply demo_prv_wf|vm_compute; reflexivity|].
  exists pv'. split; [vm_compute; reflexivity|]. injection Hid as <-. injection Hc as <-.
  split; [rewrite E; reflexivity|exact Hl].
Defined.

Lemma prv_advance_monotone_witness : prv_advance 0 99 demo_prv_heap = (Err, demo_prv_heap) /\
  exists h' pv', prv_advance 0 101 demo_prv_heap = (Ok tt, h') /\ h_prv h' !! 0%nat = Some pv' /\ p_time pv' = 101.
Proof.
  split.
  - apply (prv_advance_monotone 0 99 demo_prv_heap demo_prv eq_refl demo_prv_wf). simpl. lia.
  - destruct (proj2 (prv_advance_monotone 0 101 demo_prv_heap demo_prv eq_refl demo_prv_wf))
      as (h' & pv' & ? & ? & ? & _); [simpl; lia|]. by exists h', pv'.
Defined.
