(* ===== verification/Dispatch.v ===== *)
(** * The callbacks of the patch bay

    The program's callbacks, as the bay runs them: those of the muxes, the
    sorters and the Paraver streams.  They satisfy what the bay asks of its
    clients, so a propagation terminates and leaves the bay clean. *)

From S2P Require Import Prelude Chan Heap Bay Mux Sort Prv.

#[export] Instance emu_callbacks : BayCallbacks := {
  cb_call f a :=
    match f with
    | FnSelect m => cb_select m a
    | FnInput m i => cb_input m i a
    | FnSort s i => sort_cb_input s i a
    | FnPrv p id => cb_prv p id a
    end
}.

Definition func_type (f : bay_cb_func) : bay_cb_type :=
  match f with FnPrv _ _ => BAY_CB_EMIT | _ => BAY_CB_DIRTY end.

(** Running a select callback may put one input callback after it. *)
Definition func_weight (f : bay_cb_func) : nat := match f with FnSelect _ => 2 | _ => 1 end.

(** Callbacks are registered for the phase of their function; the callbacks of
    mux inputs are input callbacks. *)
Record client_inv (h : heap) : Prop := {
  ci_type : forall id cb, h_cb h !! id = Some cb -> cb_type cb = func_type (cb_func cb);
  ci_mux : forall m mx inp id, h_mux h !! m = Some mx -> inp ∈ m_inputs mx -> mi_cb inp = Some id ->
    exists cb m' i, h_cb h !! id = Some cb /\ cb_func cb = FnInput m' i
}.

Lemma client_inv_ext h h' : h_cb h' = h_cb h -> h_mux h' = h_mux h -> client_inv h -> client_inv h'.
Proof. intros E1 E2 []. split; rewrite ?E1, ?E2; done. Qed.

Lemma client_inv_cb id cb e h : h_cb h !! id = Some cb -> client_inv h ->
  client_inv (put_cb id (mk_bay_cb (cb_func cb) (cb_bchan cb) e (cb_type cb)) h).
Proof.
  intros Hcb [H1 H2]. split; simpl.
  - intros i c. rewrite lookup_insert. case_decide; [|by apply H1]. intros [= <-]; simpl. by apply (H1 id).
  - intros m mx inp i Hm Hi Hid. destruct (H2 m mx inp i Hm Hi Hid) as (c & m' & j & Hc & Hf).
    rewrite lookup_insert. case_decide; [|by eauto 10]. subst. simplify_eq. eexists _, m', j. by split.
Qed.

Section Steps.
Context (h0 : heap).
Notation J := (stepping_with client_inv h0).

Lemma J_run_op op a : keeps J (run_op op a).
Proof. apply keeps_run_op; intros f h HQ; by apply (client_inv_ext h). Qed.
Lemma J_chan_set a v : keeps J (chan_set a v).
Proof. apply (J_run_op (OpSet v)). Qed.
Lemma J_enable id : keeps J (bay_enable_cb id).
Proof. apply keeps_enable; [intros f h HQ; by apply (client_inv_ext h)|intros; by apply client_inv_cb]. Qed.
Lemma J_disable id : keeps J (bay_disable_cb id).
Proof. apply keeps_disable; [intros f h HQ; by apply (client_inv_ext h)|intros; by apply client_inv_cb]. Qed.
Lemma J_load a : keeps J (load a).
Proof. apply keeps_load. Qed.

Lemma stepping_ext h h' : h_chan h' = h_chan h -> h_bay h' = h_bay h -> h_cb h' = h_cb h ->
  stepping h0 h -> stepping h0 h'.
Proof.
  intros E1 E2 E3 (HB & HS & [? ? ? ? ? ?]). split_and!; [by eapply bay_inv_ext|by rewrite E2|].
  split; by rewrite ?E2, ?E3.
Qed.

(** The fields of the inputs that [ci_mux] reads. *)
Lemma J_upd_mux m f : (forall mx inp, inp ∈ m_inputs (f mx) -> exists inp0,
    inp0 ∈ m_inputs mx /\ mi_cb inp = mi_cb inp0) -> keeps J (upd_mux m f).
Proof.
  intros Hf h [HS [H1 H2]]. split; [by apply (stepping_ext h)|]. split; simpl; [done|].
  intros m' mx inp id. rewrite lookup_alter. case_decide; [|by apply H2].
  intros (mx0 & Hm & ->)%fmap_Some Hin Hid. subst.
  destruct (Hf mx0 inp Hin) as (inp0 & Hin0 & E). apply (H2 m' mx0 inp0); congruence.
Qed.

Lemma J_load_mux m : keeps J (load_mux m).
Proof. unfold load_mux. auto with ovni. Qed.
Lemma J_read_input mx i : keeps J (read_input mx i).
Proof. unfold read_input. auto 10 using J_load with ovni. Qed.

Lemma J_select_input mx v : keeps J (select_input mx v).
Proof.
  unfold select_input, thread_select_active, thread_select_running, select_tr, select_idle,
    select_mux0, default_select.
  repeat case_match; auto 10 using J_read_input with ovni.
Qed.

Lemma J_upd_input m x i b :
  keeps J (upd_mux m (fun mx => set_selected x (set_input i (input_select b) mx))).
Proof.
  apply J_upd_mux. intros mx inp; simpl. intros [j Hj]%list_elem_of_lookup.
  rewrite list_lookup_alter in Hj. case_decide; [|exists inp; split; [by eapply list_elem_of_lookup_2|done]].
  apply fmap_Some in Hj as (inp0 & Hj & ->). exists inp0. split; [by eapply list_elem_of_lookup_2|done].
Qed.

Lemma J_cb_select m a : keeps J (cb_select m a).
Proof.
  unfold cb_select.
  pose proof (J_upd_input m) as Hupd.
  kbind; auto using J_load_mux, J_load, J_select_input, J_chan_set with ovni.
  - case_match; [|auto with ovni].
    kbind; auto using J_disable with ovni.
  - case_match; auto with ovni.
    kbind; auto using J_enable with ovni.
  - case_match; auto using J_read_input with ovni.
Qed.

Lemma J_cb_input m i a : keeps J (cb_input m i a).
Proof. unfold cb_input. auto 10 using J_load_mux, J_load, J_chan_set with ovni. Qed.

Lemma J_store_sort s x : keeps J (store_sort s x).
Proof.
  intros h [HS HC]. split; [by apply (stepping_ext h)|by apply (client_inv_ext h)].
Qed.
Lemma J_on_sorted s m : keeps J (on_sorted s m).
Proof.
  unfold on_sorted, load_sort. apply keeps_bind; [auto with ovni|]. intros st h [HS HC].
  destruct (m (s_sorted st)) as [r arr]; simpl.
  split; [by apply (stepping_ext h)|by apply (client_inv_ext h)].
Qed.

Lemma J_write_outputs s l i : keeps J (write_outputs s l i).
Proof.
  revert i. induction l as [|x l IH]; intros i; simpl; [auto with ovni|].
  apply keeps_bind; [apply J_load|]. intros c.
  apply keeps_bind; [case_match; auto using J_chan_set with ovni|]. intros _. apply IH.
Qed.

Lemma J_sort_cb_input s i a : keeps J (sort_cb_input s i a).
Proof.
  unfold sort_cb_input. apply keeps_bind; [apply J_load|]. intros c.
  apply keeps_bind; [unfold load_sort; auto with ovni|]. intros st.
  apply keeps_bind; [auto with ovni|]. intros old. apply keeps_if; [auto with ovni|].
  apply keeps_bind; [apply J_store_sort|]. intros _.
  apply keeps_bind; [case_match; auto using J_store_sort, J_on_sorted|]. intros _.
  apply keeps_bind; [unfold load_sort; auto with ovni|]. intros st'. apply J_write_outputs.
Qed.
End Steps.

(** ** No callback runs out of fuel *)

Lemma chan_set_nofuel (a : addr) v : nofuel (chan_set a v : M heap unit).
Proof.
  unfold chan_set, dup_check. apply nofuel_bind; [unfold load; nofuel_tac|]. intros c.
  repeat case_match; simplify_eq; try done;
    (unfold store, set_dirty, load; nofuel_tac; simpl; unfold cb_chan_is_dirty; nofuel_tac).
Qed.
#[local] Hint Resolve chan_set_nofuel : ovni.

Lemma bay_enable_nofuel id : nofuel (bay_enable_cb id).
Proof. unfold bay_enable_cb. nofuel_tac. Qed.
Lemma bay_disable_nofuel id : nofuel (bay_disable_cb id).
Proof. unfold bay_disable_cb. nofuel_tac. Qed.
Lemma read_input_nofuel mx i : nofuel (read_input mx i).
Proof. unfold read_input, load. nofuel_tac. Qed.
#[local] Hint Resolve bay_enable_nofuel bay_disable_nofuel read_input_nofuel : ovni.

Lemma select_input_nofuel mx v : nofuel (select_input mx v).
Proof.
  unfold select_input, thread_select_active, thread_select_running, select_tr, select_idle,
    select_mux0, default_select.
  repeat case_match; nofuel_tac.
Qed.
#[local] Hint Resolve select_input_nofuel : ovni.

Lemma cb_select_nofuel m a : nofuel (cb_select m a).
Proof. unfold cb_select, load_mux, upd_mux, load. nofuel_tac. Qed.

Lemma cb_input_nofuel m i a : nofuel (cb_input m i a).
Proof. unfold cb_input, load_mux, load. nofuel_tac. Qed.

Lemma write_outputs_nofuel s l i : nofuel (write_outputs s l i).
Proof. revert i. induction l as [|x l IH]; intros i; simpl; unfold load; nofuel_tac. Qed.

Lemma sort_cb_input_nofuel s i a : nofuel (sort_cb_input s i a).
Proof.
  unfold sort_cb_input, load_sort, store_sort, load.
  assert (forall n o x, nofuel (on_sorted s (sort_replace n o x))) as Hon.
  { intros n o x. unfold on_sorted, load_sort. apply nofuel_bind; [nofuel_tac|]. intros st h.
    pose proof (sort_replace_nofuel n o x (s_sorted st)). by destruct (sort_replace _ _ _ _). }
  pose proof write_outputs_nofuel. nofuel_tac.
Qed.

Lemma cb_prv_nofuel p id a : nofuel (cb_prv p id a).
Proof. unfold cb_prv, emit, load_prv, upd_prv, load, emit_value, upd_prv. nofuel_tac. Qed.

(** ** The emit callback writes its stream only *)

Definition only_prv (h h' : heap) : Prop :=
  h_chan h' = h_chan h /\ h_bay h' = h_bay h /\ h_cb h' = h_cb h /\ h_mux h' = h_mux h.

Lemma cb_prv_only p id a h : only_prv h (cb_prv p id a h).2.
Proof.
  enough (keeps (only_prv h) (cb_prv p id a)) as Hk by by apply Hk.
  assert (forall f, keeps (only_prv h) (upd_prv p f)) as Hu by (intros f h' Hh; exact Hh).
  unfold cb_prv, emit, load_prv, load, emit_value. kbind; auto with ovni.
  apply keeps_if; [case_match|]; kbind; auto with ovni; repeat case_match; auto with ovni.
Qed.

(** ** The lists of callbacks during a propagation *)

Definition lists_kept (X : gmap string bay_chan) (h : heap) : Prop := b_channels (h_bay h) = X.

Lemma chan_set_lists X a v : keeps (lists_kept X) (chan_set a v).
Proof.
  assert (forall c, keeps (lists_kept X) (store a c)) as Hst by (intros c h Hh; exact Hh).
  assert (forall f, keeps (lists_kept X) (mmod (set_h_bay (set_b_dirty f)))) as Hd by (intros f h Hh; exact Hh).
  assert (forall arg, keeps (lists_kept X) (cm_dirty_cb arg a)) as Hcb.
  { intros arg. simpl. unfold cb_chan_is_dirty. kbind; auto with ovni. }
  unfold chan_set, set_dirty, load. kbind; auto with ovni.
  repeat (apply keeps_if; auto with ovni).
  case_match; [by intros h|]. kbind; auto with ovni.
  repeat (apply keeps_if; auto with ovni). kbind; auto with ovni. case_match; auto with ovni.
Qed.

Lemma cb_input_lists X m i a : keeps (lists_kept X) (cb_input m i a).
Proof. unfold cb_input, load_mux, load. pose proof chan_set_lists. auto 10 with ovni. Qed.

Lemma write_outputs_lists X s l i : keeps (lists_kept X) (write_outputs s l i).
Proof.
  revert i. induction l as [|x l IH]; intros i; simpl; [auto with ovni|].
  pose proof chan_set_lists. unfold load. kbind; auto with ovni.
Qed.

Lemma sort_cb_input_lists X s i a : keeps (lists_kept X) (sort_cb_input s i a).
Proof.
  assert (forall x, keeps (lists_kept X) (store_sort s x)) as Hst by (intros x h' Hh; exact Hh).
  assert (forall m, keeps (lists_kept X) (on_sorted s m)) as Hon.
  { intros m. unfold on_sorted, load_sort. apply keeps_bind; [auto with ovni|]. intros st h Hh.
    by destruct (m (s_sorted st)). }
  pose proof write_outputs_lists. unfold sort_cb_input, load_sort, load.
  kbind; auto with ovni. apply keeps_if; [auto with ovni|]. kbind; auto with ovni.
Qed.

Lemma mux_get_input_elem mx i inp : mux_get_input mx i = Some inp -> inp ∈ m_inputs mx.
Proof. unfold mux_get_input. case_match; [done|]. apply list_elem_of_lookup_2. Qed.

(** Callback [id] runs a select function in [h]. *)
Definition is_select (h : heap) (id : nat) : Prop :=
  exists cb m, h_cb h !! id = Some cb /\ cb_func cb = FnSelect m.

Definition list_weight (fs : gmap nat bay_cb_func) (id : nat) (name : string) (h : heap) (n : nat) : Prop :=
  exists b, find_bay_chan name h = Some b /\ id ∈ bc_cbs BAY_CB_DIRTY b /\
    (wsum func_weight fs (after id (bc_cbs BAY_CB_DIRTY b)) <= n)%nat.

Lemma list_weight_kept fs id name h h' n : b_channels (h_bay h') = b_channels (h_bay h) ->
  list_weight fs id name h n -> list_weight fs id name h' n.
Proof. intros E (b & Hb & H). exists b. unfold find_bay_chan. by rewrite E. Qed.

Lemma deselect_weight fs m mx h h1 id name n :
  bay_inv h -> client_inv h -> h_mux h !! m = Some mx -> is_select h id ->
  deselect m mx h = (Ok tt, h1) -> list_weight fs id name h n -> list_weight fs id name h1 n.
Proof.
  intros HI HC Hm (cb & m' & Hcb & Hf) E HL. unfold deselect in E. destruct (0 <=? m_selected mx).
  2:{ by injection E as <-. }
  apply mbind_Ok in E as (inp & s1 & E1 & E). apply deref_Ok in E1 as [Hget ->].
  apply mbind_Ok in E as (id1 & s1 & E1 & E). apply deref_Ok in E1 as [Hid ->].
  apply mbind_Ok in E as ([] & s1 & E1 & E). injection E as <-.
  destruct (ci_mux _ HC m mx inp id1 Hm (mux_get_input_elem _ _ _ Hget) Hid) as (cb1 & m1 & i1 & Hcb1 & Hf1).
  assert (id <> id1) as Hne by (intros ->; congruence).
  apply (list_weight_kept _ _ _ s1); [done|]. destruct HL as (b & Hb & Hin & Hn).
  destruct (disable_lists id1 h s1 name b HI E1 Hb) as (b1 & Hb1 & _ & Hl).
  exists b1. rewrite Hl. split_and!; [done|by apply elem_of_disable|].
  rewrite after_disable by done. etransitivity; [apply wsum_disable|done].
Qed.

Lemma reselect_weight fs m mx res h h1 id name n :
  bay_inv h -> client_inv h -> h_mux h !! m = Some mx ->
  (forall i cb, h_cb h !! i = Some cb -> fs !! i = Some (cb_func cb)) ->
  reselect m mx res h = (Ok tt, h1) -> list_weight fs id name h n -> list_weight fs id name h1 (n + 1).
Proof.
  intros HI HC Hm Hfs E HL. destruct res as [i|]; simpl in E.
  2:{ injection E as <-. destruct HL as (b & ? & ? & ?). exists b. split_and!; [done|done|lia]. }
  apply mbind_Ok in E as (inp & s1 & E1 & E). apply deref_Ok in E1 as [Hget ->].
  apply mbind_Ok in E as (id1 & s1 & E1 & E). apply deref_Ok in E1 as [Hid ->].
  apply mbind_Ok in E as ([] & s1 & E1 & E). injection E as <-.
  destruct (ci_mux _ HC m mx inp id1 Hm (mux_get_input_elem _ _ _ Hget) Hid) as (cb1 & m1 & i1 & Hcb1 & Hf1).
  apply (list_weight_kept _ _ _ s1); [done|]. destruct HL as (b & Hb & Hin & Hn).
  destruct (enable_lists id1 h s1 name b HI E1 Hb) as (b1 & Hb1 & _ & Hl). exists b1.
  destruct (Hl BAY_CB_DIRTY) as [-> | ->]; (split_and!; [done| |]); [done|lia|set_solver|].
  rewrite after_app_in, wsum_app by done. cbn [wsum]. unfold weight_of. rewrite (Hfs id1 cb1 Hcb1), Hf1. cbn [func_weight]. lia.
Qed.

Lemma cb_select_weight m a h h' id name n :
  bay_inv h -> client_inv h -> b_state (h_bay h) = BAY_PROPAGATING -> is_select h id ->
  cb_select m a h = (Ok tt, h') -> list_weight (cb_func <$> h_cb h) id name h n ->
  list_weight (cb_func <$> h_cb h) id name h' (n + 1).
Proof.
  intros HI HC HS Hsel E HL. unfold cb_select in E.
  assert (stepping_with client_inv h h) as HJ by (split; [split_and!; [done|done|apply prop_step_refl]|done]).
  apply mbind_Ok in E as (mx & s1 & E1 & E).
  apply mbind_Ok in E1 as (h0 & s0 & E0 & E1). injection E0 as <- <-. apply deref_Ok in E1 as [Hm ->].
  apply mbind_Ok in E as (sel & s1 & E1 & E). apply load_Ok in E1 as [_ ->].
  apply mbind_Ok in E as ([] & h1 & E1 & E). fold (deselect m mx) in E1.
  pose proof (deselect_weight _ m mx h h1 id name n HI HC Hm Hsel E1 HL) as HL1.
  assert (stepping_with client_inv h h1) as HJ1.
  { replace h1 with (deselect m mx h).2 by by rewrite E1.
    unfold deselect. pose proof (J_disable h) as Hdis.
    enough (keeps (stepping_with client_inv h) (deselect m mx)) as Hk by by apply Hk.
    unfold deselect. apply keeps_if; [|auto with ovni]. kbind; auto with ovni. apply J_upd_input. }
  apply mbind_Ok in E as (mx1 & s1 & E2 & E).
  apply mbind_Ok in E2 as (h0 & s0 & E0 & E2). injection E0 as <- <-. apply deref_Ok in E2 as [Hm1 ->].
  apply mbind_Ok in E as (res & s1 & E2 & E).
  destruct (select_input_agree mx1 mx1 h1 h1) with (v := chan_read sel) as (_ & Es & _); [done|done|].
  rewrite E2 in Es. simpl in Es. subst s1.
  apply mbind_Ok in E as ([] & h2 & E3 & E). fold (reselect m mx1 res) in E3.
  destruct HJ1 as ((HI1 & _ & HP1) & HC1).
  assert (forall i cb, h_cb h1 !! i = Some cb -> (cb_func <$> h_cb h) !! i = Some (cb_func cb)) as Hfs.
  { intros i cb Hcb. rewrite <- (ps_funcs _ _ HP1), lookup_fmap, Hcb. done. }
  pose proof (reselect_weight (cb_func <$> h_cb h) m mx1 res h1 h2 id name n HI1 HC1 Hm1 Hfs E3 HL1) as HL2.
  apply mbind_Ok in E as (ov & s1 & E4 & E). fold (shown_value mx1 res) in E4.
  destruct (shown_value_agree mx1 mx1 h2 h2 res) as (_ & Es & _); [done|done|].
  rewrite E4 in Es. simpl in Es. subst s1.
  apply (list_weight_kept _ _ _ h2); [|done].
  pose proof (chan_set_lists (b_channels (h_bay h2)) (m_output mx1) ov h2 eq_refl) as Hk. by rewrite E in Hk.
Qed.

(** The program's callbacks are good clients of the bay. *)
#[export] Instance emu_callback_laws : BayCallbackLaws.
Proof.
  refine {| cb_inv := client_inv; cb_emits f := match f with FnPrv _ _ => True | _ => False end;
            cb_weight := func_weight |}.
  - intros h st. by apply client_inv_ext.
  - intros h f. by apply client_inv_ext.
  - intros h f. by apply client_inv_ext.
  - intros h id cb HC Hcb Hty. rewrite (ci_type _ HC id cb Hcb) in Hty. by destruct (cb_func cb).
  - intros [] a h Hf HC; try done. destruct (cb_prv_only prv id a h) as (? & ? & ? & ?).
    split_and!; try done. by apply (client_inv_ext h).
  - intros h id cb a HB HC HS Hcb Hen Hty.
    assert (stepping_with client_inv h h) as HJ by (split; [split_and!; [done|done|apply prop_step_refl]|done]).
    enough (stepping_with client_inv h (cb_call (cb_func cb) a h).2) as ((? & _ & ?) & ?) by by split_and!.
    rewrite (ci_type _ HC id cb Hcb) in Hty. destruct (cb_func cb); simpl in *; try done.
    + by apply J_cb_select.
    + by apply J_cb_input.
    + by apply J_sort_cb_input.
  - intros []; simpl; lia.
  - intros h h' id cb a name b b' HB HC HS Hcb Hen Hty E Hb Hb' Hin.
    assert (forall X, lists_kept X h -> X = b_channels (h_bay h')
      -> after id (bc_cbs BAY_CB_DIRTY b') = after id (bc_cbs BAY_CB_DIRTY b)) as Hkept.
    { intros X HX ->. unfold lists_kept in HX. unfold find_bay_chan in *. rewrite HX in Hb. by simplify_eq. }
    rewrite (ci_type _ HC id cb Hcb) in Hty. destruct (cb_func cb) eqn:Hf; simpl in *; try done.
    + destruct (cb_select_weight mux a h h' id name _ HB HC HS (ex_intro _ cb (ex_intro _ mux (conj Hcb Hf))) E
        (ex_intro _ b (conj Hb (conj Hin (le_n _))))) as (b2 & Hb2 & _ & Hle). simplify_eq. simpl in *. lia.
    + pose proof (cb_input_lists (b_channels (h_bay h)) mux index a h eq_refl) as Hk.
      rewrite E in Hk. simpl in Hk. rewrite (Hkept _ eq_refl); [lia|by symmetry].
    + pose proof (sort_cb_input_lists (b_channels (h_bay h)) sort index a h eq_refl) as Hk.
      rewrite E in Hk. simpl in Hk. rewrite (Hkept _ eq_refl); [lia|by symmetry].
  - intros [] a h; [apply cb_select_nofuel|apply cb_input_nofuel|apply sort_cb_input_nofuel|apply cb_prv_nofuel].
Defined.

(** ** Propagation in the emulator *)

(** The fuel the propagation of [h] needs. *)
Definition propagate_fuel (h : heap) : nat :=
  Nat.max (size (b_channels (h_bay h))) (wtotal func_weight (cb_func <$> h_cb h)).

(** C2. With one unit of fuel per registered channel and per callback (two for
    a select callback) a propagation always ends, in success or in an error of
    a callback: chains of muxes and sorters cannot loop. *)
Theorem propagate_terminates fuel h :
  bay_inv h -> client_inv h -> (propagate_fuel h <= fuel)%nat -> (bay_propagate fuel h).1 <> Fuel.
Proof.
  intros HI HC Hf. unfold propagate_fuel in Hf. apply bay_propagate_ends; [done|done|lia|].
  change (@cb_weight _ emu_callback_laws) with func_weight. lia.
Qed.

(** C1. A propagation that succeeds leaves the bay ready and consistent, with
    no channel dirty, and every channel that was dirty flushed: its last value
    is the value it now has. *)
Theorem propagate_settles h :
  bay_inv h -> client_inv h ->
  (bay_propagate (propagate_fuel h) h).1 = Ok tt ->
  let h' := (bay_propagate (propagate_fuel h) h).2 in
  bay_inv h' /\ client_inv h' /\ b_state (h_bay h') = BAY_READY /\ b_dirty (h_bay h') = [] /\
  (forall name b, find_bay_chan name h' = Some b ->
     exists c, h_chan h' !! bc_chan b = Some c /\ c_is_dirty c = false /\
       (name ∈ b_dirty (h_bay h) -> c_last_value c = chan_read c)).
Proof.
  intros HI HC E h'.
  destruct (@bay_propagate_ends emu_callbacks emu_callback_laws (propagate_fuel h) h HI HC) as [_ Hok].
  - unfold propagate_fuel. lia.
  - change (@cb_weight _ emu_callback_laws) with func_weight. unfold propagate_fuel. lia.
  - destruct (Hok E) as (? & ? & ? & ? & _ & ?). by split_and!.
Qed.
