(* ===== verification/Network.v ===== *)
(** * Building the network of muxes

    The emulator connects its muxes before the first event.  These lemmas show
    that the construction operations establish what the theorems about the
    callbacks assume, and build a small network on which they are evaluated. *)

From S2P Require Import Prelude Chan Heap Bay Mux Sort Prv Dispatch.

(** Every input of the mux is still empty or is connected and disabled. *)
Record mux_part (m : nat) (mx : mux) (h : heap) : Prop := {
  mp_len : Z.of_nat (length (m_inputs mx)) = m_ninputs mx;
  mp_sel : m_selected mx = 0;
  mp_input : forall i inp, m_inputs mx !! i = Some inp -> inp = mux_input_zero \/
    exists a id, inp = mk_mux_input (Z.of_nat i) (Some a) false (Some (m_output mx)) (Some id) /\
      cb_on h id (FnInput m (Z.of_nat i)) a /\
      (forall cb, h_cb h !! id = Some cb -> cb_enabled cb = false)
}.

(** Once no input is empty the mux is well formed. *)
Lemma mux_part_wf m mx h : h_mux h !! m = Some mx -> mux_part m mx h ->
  (forall inp, inp ∈ m_inputs mx -> inp <> mux_input_zero) -> 0 < m_ninputs mx -> mux_wf m mx h.
Proof.
  intros Hm [Hlen Hsel Hin] Hne Hn. split_and!; [done| |].
  - split; [done|lia|]. intros i inp Hi.
    destruct (Hin i inp Hi) as [->|(a & id & -> & Hon & _)].
    + destruct (Hne mux_input_zero); [by eapply list_elem_of_lookup_2|done].
    + split_and!; try done. by exists a, id.
  - intros i inp id cb Hi Hid Hcb. split; [|done]. intros Hen.
    destruct (Hin i inp Hi) as [->|(a & id' & -> & _ & Hdis)]; [done|].
    simplify_eq/=. rewrite Hdis in Hen; done.
Qed.

(** Facts that adding a fresh callback cannot disturb. *)
Lemma cb_on_added h h' id0 cb0 id f a : h_cb h !! id0 = None -> h_cb h' = <[id0 := cb0]> (h_cb h) ->
  bc_chan <$> b_channels (h_bay h') = bc_chan <$> b_channels (h_bay h) ->
  cb_on h id f a -> cb_on h' id f a /\ h_cb h' !! id = h_cb h !! id.
Proof.
  intros Hf Ecb Ech (cb & b & Hcb & ? & ? & Hb & ?).
  assert (id <> id0) by congruence.
  assert (h_cb h' !! id = h_cb h !! id) as E by by rewrite Ecb, lookup_insert_ne.
  split; [|done]. destruct (fmap_eq_lookup _ _ _ _ _ Ech Hb) as (b' & Hb' & Eb).
  exists cb, b'. rewrite E. split_and!; try done. congruence.
Qed.

(** [a] is the channel registered under its name. *)
Definition registered (h : heap) (a : addr) : Prop :=
  exists c b, h_chan h !! a = Some c /\ find_bay_chan (c_name c) h = Some b /\ bc_chan b = a.

Lemma bay_add_cb_name ty a g en h h' id c : h_chan h !! a = Some c ->
  bay_add_cb ty a (Some g) en h = (Ok id, h') ->
  exists cb, h_cb h' !! id = Some cb /\ cb_bchan cb = c_name c.
Proof.
  intros Hc E. unfold bay_add_cb in E. rewrite (mbind_run _ _ _ g h) in E by done.
  rewrite (mbind_run _ _ _ c h) in E by by apply load_Ok. rewrite (mbind_run _ _ _ h h) in E by done.
  apply mbind_Ok in E as (b & s & E1 & E). apply found_Ok in E1 as [Hb ->].
  apply mbind_Ok in E as ([] & s & E1 & E). injection E1 as <-.
  apply mbind_Ok in E as ([] & s & E1 & E). injection E as <- ->.
  destruct en; [|injection E1 as <-; simpl; rewrite lookup_insert_eq; by eexists].
  unfold bay_enable_cb, mbind, mget, deref, mret, mmod in E1. simpl in E1. rewrite lookup_insert_eq in E1.
  unfold find_bay_chan in *. simpl in E1. rewrite Hb in E1. destruct (bc_is_dirty b); [done|]. injection E1 as <-. simpl.
  rewrite lookup_insert_eq. by eexists.
Qed.

Lemma client_inv_added h h' id cb : h_cb h !! id = None -> h_cb h' = <[id := cb]> (h_cb h) ->
  h_mux h' = h_mux h -> cb_type cb = func_type (cb_func cb) -> client_inv h -> client_inv h'.
Proof.
  intros Hf Ecb Em Hty [H1 H2]. split; rewrite ?Ecb, ?Em.
  - intros i c. rewrite lookup_insert. case_decide; [by intros [= <-]|by apply H1].
  - intros m mx inp i Hm Hi Hid. destruct (H2 m mx inp i Hm Hi Hid) as (c & m' & j & Hc & ?).
    exists c, m', j. rewrite lookup_insert_ne; [done|]. congruence.
Qed.

(** A channel whose properties change stays registered. *)
Lemma bay_inv_rechan out oc oc' h : bay_inv h -> h_chan h !! out = Some oc ->
  c_name oc' = c_name oc -> c_dirty_arg oc' = c_dirty_arg oc -> c_is_dirty oc' = c_is_dirty oc ->
  bay_inv (set_h_chan <[out := oc']> h).
Proof.
  intros HI Hoc En Ea Ed.
  assert (forall b c, h_chan (set_h_chan <[out:=oc']> h) !! b = Some c -> exists c0, h_chan h !! b = Some c0 /\
    c_name c = c_name c0 /\ c_dirty_arg c = c_dirty_arg c0 /\ c_is_dirty c = c_is_dirty c0) as Hold.
  { intros b c. simpl. rewrite lookup_insert. case_decide; [|by exists c]. intros [= <-]. subst.
    exists oc. by split_and!. }
  assert (forall b c0, h_chan h !! b = Some c0 -> exists c,
    h_chan (set_h_chan <[out:=oc']> h) !! b = Some c) as Hnew.
  { intros b c0 Hb. simpl. rewrite lookup_insert. case_decide; by eauto. }
  split; try apply HI.
  - intros name b Hb. destruct (bi_reg h HI name b Hb) as (? & c0 & Hc0 & <- & Ha). split; [done|].
    destruct (Hnew _ _ Hc0) as [c Hc]. destruct (Hold _ _ Hc) as (? & ? & E2 & E3 & _).
    exists c. split_and!; [done|congruence|congruence].
  - intros b c name Hb Ha. destruct (Hold _ _ Hb) as (c0 & Hc0 & _ & E3 & _). rewrite E3 in Ha.
    by apply (bi_arg h HI b c0).
  - intros name. etransitivity; [apply (bi_dirty h HI)|]. split.
    + intros (b & c0 & Hb & Hc0 & Hd). destruct (Hnew _ _ Hc0) as [c Hc].
      destruct (Hold _ _ Hc) as (? & ? & _ & _ & E4). exists b, c. split_and!; [done|done|congruence].
    + intros (b & c & Hb & Hc & Hd). destruct (Hold _ _ Hc) as (c0 & ? & _ & _ & E4).
      exists b, c0. split_and!; [done|done|congruence].
Qed.

(** The properties that [mux_init] gives to the output. *)
Definition mux_out_chan (oc : chan) : chan := chan_prop_set CHAN_ALLOW_DUP 1 (chan_prop_set CHAN_DIRTY_WRITE 1 oc).

(** What [mux_init] adds: the mux and the callback of its select. *)
Lemma mux_init_shape m sel out f n h h' : bay_inv h -> mux_init m sel out f n h = (Ok tt, h') ->
  bay_inv h' /\ sel <> out /\ exists oc sc id,
    h_chan h !! out = Some oc /\ c_type oc = CHAN_SINGLE /\ h_chan h !! sel = Some sc /\
    h_chan h' = <[out := mux_out_chan oc]> (h_chan h) /\
    h_mux h' = <[m := mk_mux n 0 (replicate (Z.to_nat n) mux_input_zero) f sel out value_null]> (h_mux h) /\
    h_cb h !! id = None /\ h_cb h' = <[id := mk_bay_cb (FnSelect m) (c_name sc) true BAY_CB_DIRTY]> (h_cb h) /\
    bc_chan <$> b_channels (h_bay h') = bc_chan <$> b_channels (h_bay h) /\ b_state (h_bay h') = b_state (h_bay h).
Proof.
  intros HI E. unfold mux_init in E.
  apply mbind_Ok in E as (oc & s & E1 & E). apply load_Ok in E1 as [Hoc ->].
  case_bool_decide as Hty; simpl in E; [|done]. case_bool_decide as Hne; [done|].
  apply mbind_Ok in E as (sc & s & E1 & E). apply load_Ok in E1 as [Hsc ->].
  apply mbind_Ok in E as (h0 & s & E1 & E). injection E1 as <- <-.
  apply mbind_Ok in E as (? & s & E1 & E). apply found_Ok in E1 as [_ ->].
  apply mbind_Ok in E as (? & s & E1 & E). apply found_Ok in E1 as [_ ->].
  apply mbind_Ok in E as ([] & s & E1 & E). injection E1 as <-.
  apply mbind_Ok in E as ([] & s & E1 & E). injection E1 as <-.
  apply mbind_Ok in E as (id & s & E1 & E). injection E as <-.
  set (h1 := set_h_mux _ _) in E1.
  assert (bay_inv h1) as HI1 by (by apply bay_inv_mux, (bay_inv_rechan out oc)).
  assert (h_chan h1 !! sel = Some sc) as Hsc1 by (simpl; by rewrite lookup_insert_ne).
  destruct (bay_add_cb_name _ _ _ _ h1 _ _ sc Hsc1 E1) as (cb & Hcb & Hn).
  destruct (bay_add_cb_inv _ _ _ _ _ _ _ HI1 E1) as (HI' & Ech & Em & _ & _ & (g & nm & [= <-] & Hf & Ecb) & Ebc & _ & Est).
  rewrite Ecb, lookup_insert_eq in Hcb. injection Hcb as <-. simpl in Hn. subst nm.
  split; [done|]. split; [done|]. exists oc, sc, id. by split_and!.
Qed.

(** [mux_init] leaves a mux whose inputs are all empty. *)
Lemma mux_init_part m sel out f n h h' : bay_inv h -> client_inv h -> 0 <= n ->
  mux_init m sel out f n h = (Ok tt, h') ->
  bay_inv h' /\ client_inv h' /\ exists mx, h_mux h' !! m = Some mx /\ mux_part m mx h' /\
    m_ninputs mx = n /\ m_select_func mx = f /\ m_output mx = out /\ m_def mx = value_null /\
    exists oc, h_chan h' !! out = Some oc /\ settable oc.
Proof.
  intros HI HC Hn E. destruct (mux_init_shape m sel out f n h h' HI E) as
    (HI' & Hne & oc & sc & id & Hoc & Hty & Hsc & Ech & Em & Hf & Ecb & _). split; [done|]. split.
  - set (h1 := set_h_mux (fun _ => h_mux h') h). assert (client_inv h1) as HC1.
    { destruct HC as [H1 H2]. split; [done|]. intros m' mx' inp i. simpl. rewrite Em, lookup_insert.
      case_decide; [|by apply H2]. intros [= <-] Hin Hid. apply list_elem_of_lookup in Hin as [j Hj].
      apply lookup_replicate in Hj as [-> _]. done. }
    by apply (client_inv_added h1 h' id _ Hf Ecb).
  - eexists. rewrite Em, Ech. split_and!; [apply lookup_insert_eq| |done..|].
    + split; simpl; [rewrite length_replicate; lia|done|]. intros i inp [-> _]%lookup_replicate. by left.
    + exists (mux_out_chan oc). split; [apply lookup_insert_eq|]. by split_and!.
Qed.

(** A connected input of any mux survives a fresh callback. *)
Lemma mux_part_added m mx h h' id0 cb0 : h_cb h !! id0 = None -> h_cb h' = <[id0 := cb0]> (h_cb h) ->
  bc_chan <$> b_channels (h_bay h') = bc_chan <$> b_channels (h_bay h) ->
  mux_part m mx h -> mux_part m mx h'.
Proof.
  intros Hf Ecb Ech [Hlen Hsel Hin]. split; [done|done|]. intros i inp Hi.
  destruct (Hin i inp Hi) as [?|(a & id & E & Hon & Hdis)]; [by left|right].
  destruct (cb_on_added h h' id0 cb0 id _ _ Hf Ecb Ech Hon) as [Hon' Ei].
  exists a, id. rewrite Ei. by split_and!.
Qed.

(** Connecting one input. *)
Lemma mux_set_input_run m mx i a h h' :
  bay_inv h -> client_inv h -> h_mux h !! m = Some mx -> mux_part m mx h -> 0 <= i ->
  registered h a -> mux_set_input m i a h = (Ok tt, h') ->
  bay_inv h' /\ client_inv h' /\ h_chan h' = h_chan h /\
  mux_get_input mx i = Some mux_input_zero /\ a <> m_output mx /\
  exists mx' id, h_mux h' !! m = Some mx' /\ mux_part m mx' h' /\
    m_inputs mx' = <[Z.to_nat i := mk_mux_input i (Some a) false (Some (m_output mx)) (Some id)]> (m_inputs mx) /\
    m_ninputs mx' = m_ninputs mx /\ m_select_func mx' = m_select_func mx /\
    m_output mx' = m_output mx /\ m_def mx' = m_def mx /\
    ((forall inp, inp ∈ m_inputs mx' -> inp <> mux_input_zero) -> mux_wf m mx' h').
Proof.
  intros HI HC Hm HP Hi (c & b & Hc & Hb & Hba) E. unfold mux_set_input in E.
  rewrite (mbind_run _ _ _ _ _ (load_mux_run m mx h Hm)) in E.
  case_bool_decide as Hao; [done|].
  apply mbind_Ok in E as (inp & s & E1 & E). apply deref_Ok in E1 as [Hget ->].
  destruct (mi_chan inp) eqn:Hic; [done|].
  assert (m_inputs mx !! Z.to_nat i = Some inp) as Hix.
  { unfold mux_get_input in Hget. by case_match. }
  destruct (mp_input _ _ _ HP _ _ Hix) as [->|(? & ? & -> & _)]; [|done].
  rewrite (mbind_run _ _ _ _ _ (upd_mux_run m _ h)) in E. rewrite (alter_known _ m mx) in E by done.
  set (mx1 := set_input i _ mx) in E. set (h1 := set_h_mux _ h) in E.
  apply mbind_Ok in E as (id & h2 & E1 & E).
  assert (bay_inv h1) as HI1 by by apply bay_inv_mux.
  destruct (bay_add_cb_inv _ _ _ _ _ _ _ HI1 E1)
    as (HI2 & Ech & Em & _ & _ & (g & nm & [= <-] & Hf & Ecb) & Ebc & _).
  assert (h_mux h1 !! m = Some mx1) as Hm1 by (simpl; by rewrite lookup_alter_eq, Hm).
  destruct (bay_add_cb_name _ _ _ _ h1 _ _ c Hc E1) as (cb' & Hcb' & Hn').
  assert (h_cb h !! id = None) as Hf0 by exact Hf.
  rewrite Ecb, lookup_insert_eq in Hcb'. injection Hcb' as <-. simpl in Hn'. subst nm.
  rewrite upd_mux_run in E. injection E as <-.
  rewrite (alter_known _ m mx1) by by rewrite Em.
  set (mx2 := set_input i _ mx1). set (h3 := set_h_mux _ h2).
  set (inp' := mk_mux_input i (Some a) false (Some (m_output mx)) (Some id)).
  assert (m_inputs mx2 = <[Z.to_nat i := inp']> (m_inputs mx)) as Ein.
  { unfold mx2, mx1, set_input; simpl. pose proof (lookup_lt_Some _ _ _ Hix).
    apply list_eq. intros j. rewrite !list_lookup_alter, list_lookup_insert.
    destruct (decide (Z.to_nat i = j)) as [<-|Hne].
    - rewrite !decide_True by done. by rewrite Hix.
    - rewrite !decide_False by naive_solver. done. }
  assert (h_mux h3 !! m = Some mx2) as Hm3.
  { simpl. by rewrite lookup_alter_eq, Em, Hm1. }
  assert (mux_part m mx2 h3) as HP3.
  { split.
    - rewrite Ein, length_insert. apply (mp_len _ _ _ HP).
    - apply (mp_sel _ _ _ HP).
    - intros j inp. rewrite Ein, list_lookup_insert. case_decide as Ej.
      + intros [= <-]. right. exists a, id. destruct Ej as [<- _]. rewrite Z2Nat.id by done.
        split_and!; [done| |].
        * destruct (fmap_eq_lookup _ _ _ _ _ Ebc Hb) as (b2 & Hb2 & Eb2).
          eexists _, b2. split_and!; [simpl; rewrite Ecb; apply lookup_insert_eq|done|done|done|congruence].
        * simpl. rewrite Ecb, lookup_insert_eq. by intros ? [= <-].
      + intros Hj. destruct (mp_input _ _ _ HP j inp Hj) as [?|(a' & id' & -> & Hon & Hdis)]; [by left|right].
        destruct (cb_on_added h1 h3 id _ id' _ _ Hf Ecb Ebc Hon) as [Hon' Ei].
        exists a', id'. rewrite Ei. by split_and!. }
  split; [by apply bay_inv_mux|]. split; [|split; [done|]].
  - assert (client_inv h2) as HC2.
    { eapply client_inv_added; [exact Hf|exact Ecb|done|done|]. destruct HC as [H1 H2]. split; [done|].
      intros m' mx' inp i'. simpl. rewrite lookup_alter. case_decide; [|by apply H2]. subst.
      rewrite Hm. intros [= <-] Hin Hid. apply list_elem_of_lookup in Hin as [j Hj].
      unfold mx1 in Hj; simpl in Hj. rewrite list_lookup_alter in Hj. case_decide.
      - subst. rewrite Hix in Hj. injection Hj as <-. done.
      - apply (H2 m' mx inp); [done|by eapply list_elem_of_lookup_2|done]. }
    destruct HC2 as [H1 H2]. split; [done|]. intros m' mx' inp i'. simpl. rewrite lookup_alter.
    case_decide; [|by apply H2]. subst. rewrite Em, Hm1. intros [= <-] Hin Hid.
    change (inp ∈ m_inputs mx2) in Hin. rewrite Ein in Hin. apply list_elem_of_lookup in Hin as [j Hj].
    rewrite list_lookup_insert in Hj. case_decide as Ej.
    + injection Hj as <-. injection Hid as <-. simpl. rewrite Ecb, lookup_insert_eq. by eexists _, _, _.
    + destruct (mp_input _ _ _ HP j inp Hj) as [->|(a' & id' & -> & (cb1 & b1 & Hcb1 & Hf1 & _) & _)]; [done|].
      simpl in Hid. injection Hid as <-. simpl. rewrite Ecb, lookup_insert_ne by congruence. by eexists _, _, _.
  - split; [done|]. split; [done|]. exists mx2, id. split_and!; try done.
    intros Hne. apply mux_part_wf; [done|done|done|].
    rewrite <- (mp_len _ _ _ HP3), Ein, length_insert. apply lookup_lt_Some in Hix. lia.
Qed.

(** Connecting an input of a mux that is being built succeeds at most once
    per input, and connects exactly that input: its callback is a new one on the
    channel, disabled, and the other inputs keep theirs; once every input is
    set, the mux is well formed. *)
Theorem mux_set_input_connects m mx i a h h' :
  bay_inv h -> client_inv h -> h_mux h !! m = Some mx -> mux_part m mx h -> 0 <= i ->
  registered h a -> mux_set_input m i a h = (Ok tt, h') ->
  bay_inv h' /\ client_inv h' /\ h_chan h' = h_chan h /\
  mux_get_input mx i = Some mux_input_zero /\ a <> m_output mx /\
  exists mx' id, h_mux h' !! m = Some mx' /\ mux_part m mx' h' /\
    m_inputs mx' = <[Z.to_nat i := mk_mux_input i (Some a) false (Some (m_output mx)) (Some id)]> (m_inputs mx) /\
    m_ninputs mx' = m_ninputs mx /\ m_select_func mx' = m_select_func mx /\
    m_output mx' = m_output mx /\ m_def mx' = m_def mx /\
    ((forall inp, inp ∈ m_inputs mx' -> inp <> mux_input_zero) -> mux_wf m mx' h').
Proof. apply mux_set_input_run. Qed.

(** ** A small network: the running track of one thread, drawn in row 1 *)

Definition net_sel : addr := Addr (OwnThread 0) 2.
Definition net_in : addr := Addr (OwnModel 0 0) 0.
Definition net_out : addr := Addr (OwnTrack 0) 0.

Definition net_chan (name : string) (v : value) : chan :=
  mk_chan false 0 0 0 None v CHAN_SINGLE v [] name.

Definition net0 : heap :=
  bay_init (set_h_prv (fun _ => <[ 0%nat := mk_prv 0 4 ∅ [] ]> ∅)
    (set_h_chan (fun _ => <[ net_sel := net_chan "thread0.state" (value_int64 1) ]>
                         (<[ net_in := net_chan "ovni.thread0.x" (value_int64 7) ]>
                         (<[ net_out := net_chan "ovni.thread0.x.run" value_null ]> ∅))) empty_heap)).

Definition net_build : M heap unit :=
  bay_register net_sel ;;; bay_register net_in ;;; bay_register net_out ;;;
  mux_init 0 net_sel net_out (Some SelThreadRunning) 1 ;;;
  mux_set_input 0 0 net_in.
Definition net : heap := (net_build net0).2.

Lemma net_build_Ok : net_build net0 = (Ok tt, net).
Proof. vm_compute. reflexivity. Qed.

Definition lookup_chan (a : addr) (h : heap) : option chan := h_chan h !! a.

Lemma net0_inv : bay_inv net0.
Proof.
  apply bay_init_inv; [|done]. intros a c. simpl. rewrite !lookup_insert, lookup_empty.
  repeat case_decide; intros; simplify_eq; done.
Qed.

(** The same mux before its input is set. *)
Definition net_half : heap :=
  ((bay_register net_sel ;;; bay_register net_in ;;; bay_register net_out ;;;
    mux_init 0 net_sel net_out (Some SelThreadRunning) 1) net0).2.

Lemma net_half_wf : bay_inv net_half /\ client_inv net_half /\
  exists mx, h_mux net_half !! 0%nat = Some mx /\ mux_part 0 mx net_half /\ m_ninputs mx = 1 /\
    m_select_func mx = Some SelThreadRunning /\ m_output mx = net_out /\ m_def mx = value_null /\
    exists oc, h_chan net_half !! net_out = Some oc /\ settable oc.
Proof.
  assert (exists h1 h2 h3, bay_register net_sel net0 = (Ok tt, h1) /\
    bay_register net_in h1 = (Ok tt, h2) /\ bay_register net_out h2 = (Ok tt, h3) /\
    mux_init 0 net_sel net_out (Some SelThreadRunning) 1 h3 = (Ok tt, net_half) /\
    h_chan h1 !! net_in = Some (net_chan "ovni.thread0.x" (value_int64 7)) /\
    h_chan h2 !! net_out = Some (net_chan "ovni.thread0.x.run" value_null) /\
    h_cb h3 = ∅ /\ h_mux h3 = ∅) as (h1 & h2 & h3 & E1 & E2 & E3 & E4 & Hc1 & Hc2 & Hcb & Hmx).
  { exists (bay_register net_sel net0).2, ((bay_register net_sel ;;; bay_register net_in) net0).2,
      ((bay_register net_sel ;;; bay_register net_in ;;; bay_register net_out) net0).2.
    split_and!; vm_compute; reflexivity. }
  destruct (bay_register_inv net_sel (net_chan "thread0.state" (value_int64 1)) net0 h1
    net0_inv ltac:(vm_compute; reflexivity) eq_refl eq_refl E1) as [HI1 _].
  destruct (bay_register_inv net_in _ h1 h2 HI1 Hc1 eq_refl eq_refl E2) as [HI2 _].
  destruct (bay_register_inv net_out _ h2 h3 HI2 Hc2 eq_refl eq_refl E3) as [HI3 _].
  assert (client_inv h3) as HC3 by (split; rewrite ?Hcb, ?Hmx; done).
  by apply (mux_init_part 0 net_sel net_out (Some SelThreadRunning) 1 h3 net_half HI3 HC3).
Qed.

Lemma net_half_input : registered net_half net_in /\ mux_set_input 0 0 net_in net_half = (Ok tt, net).
Proof.
  split; [|vm_compute; reflexivity].
  exists (chan_set_dirty_cb (Some "ovni.thread0.x") (net_chan "ovni.thread0.x" (value_int64 7))).
  eexists. split_and!; by vm_compute.
Qed.

(** The network is well formed, by the construction lemmas. *)
Lemma net_wf : bay_inv net /\ client_inv net /\
  exists mx inp, mux_wf 0 mx net /\ m_inputs mx = [inp] /\ mi_chan inp = Some net_in /\
    m_output mx = net_out /\ m_ninputs mx = 1 /\ m_select_func mx = Some SelThreadRunning /\
    m_def mx = value_null /\ exists oc, h_chan net !! net_out = Some oc /\ settable oc.
Proof.
  destruct net_half_wf as (HI4 & HC4 & mx & Hm & HP & Hn & Hf & Ho & Hd & oc & Hoc & Hset).
  destruct net_half_input as [Hreg E].
  destruct (mux_set_input_run 0 mx 0 net_in net_half net HI4 HC4 Hm HP) as
    (HI5 & HC5 & Hch & Hz & _ & mx' & id & Hm' & _ & Hin & Hn' & Hf' & Ho' & Hd' & Hwf); [lia|done|done|].
  pose proof (mp_len _ _ _ HP) as Hlen. rewrite Hn in Hlen.
  destruct (m_inputs mx) as [|x [|? ?]] eqn:Ex; simpl in Hlen; try lia.
  simpl in Hin. split_and!; [done|done|]. exists mx', (mk_mux_input 0 (Some net_in) false (Some (m_output mx)) (Some id)).
  split; [apply Hwf; rewrite Hin; intros inp ->%list_elem_of_singleton; discriminate|].
  split; [exact Hin|]. split; [reflexivity|]. do 4 (split; [congruence|]).
  exists oc. rewrite Hch. exact (conj Hoc Hset).
Qed.

Lemma mux_set_input_connects_witness : exists mx', h_mux net !! 0%nat = Some mx' /\ mux_part 0 mx' net.
Proof.
  destruct net_half_wf as (HI & HC & mx & Hm & HP & _). destruct net_half_input as [Hreg E].
  destruct (mux_set_input_connects 0 mx 0 net_in net_half net HI HC Hm HP (Z.le_refl 0) Hreg E)
    as (_ & _ & _ & _ & _ & mx' & id & Hm' & HP' & _).
  exists mx'. by split.
Defined.

(** ** The theorems on the small network *)

Lemma net_accepting : accepting net.
Proof. left. by vm_compute. Qed.

Definition net_in_chan : chan :=
  chan_set_dirty_cb (Some "ovni.thread0.x") (net_chan "ovni.thread0.x" (value_int64 7)).
Definition net_sel_chan : chan :=
  chan_set_dirty_cb (Some "thread0.state") (net_chan "thread0.state" (value_int64 1)).

Lemma net_chans : h_chan net !! net_in = Some net_in_chan /\ h_chan net !! net_sel = Some net_sel_chan.
Proof. split; by vm_compute. Qed.

Lemma track_mux_follows_witness : exists h' oc',
  cb_select 0 net_sel net = (Ok tt, h') /\ h_chan h' !! net_out = Some oc' /\
  chan_read oc' = value_int64 7.
Proof.
  destruct net_wf as (HI & HC & mx & inp & HW & Hin & Hb & Ho & Hn & Hf & Hd & oc & Hoc & Hset).
  destruct net_chans as [Hi Hs]. rewrite <- Ho in Hoc.
  destruct (track_mux_follows 0 mx net_sel net_sel_chan TH_ST_RUNNING net inp net_in net_in_chan oc false HI net_accepting HW
    Hf Hn Hd Hin Hb Hi Hs eq_refl Hoc Hset) as (h' & oc' & E & H1 & H2 & _).
  exists h', oc'. rewrite Ho in H1. split_and!; [done|done|]. by rewrite H2.
Defined.

Lemma cb_select_correct_witness : exists h' oc',
  cb_select 0 net_sel net = (Ok tt, h') /\ h_chan h' !! net_out = Some oc' /\
  chan_read oc' = value_int64 7.
Proof.
  destruct net_wf as (HI & HC & mx & inp & HW & Hin & Hb & Ho & Hn & Hf & Hd & oc & Hoc & Hset).
  destruct net_chans as [Hi Hs]. rewrite <- Ho in Hoc.
  destruct (cb_select_correct 0 mx net_sel net_sel_chan net (Some 0) (value_int64 7) oc HI net_accepting HW Hs Hoc Hset)
    as (h' & mx' & E & _ & _ & _ & _ & _ & _ & (oc' & H1 & H2) & _).
  - unfold select_input, thread_select_running. by rewrite Hf, Hn.
  - simpl. lia.
  - simpl. unfold read_input, mux_get_input. simpl. rewrite Hin. simpl. unfold mbind, deref, mret.
    rewrite Hb. unfold load, mbind, mget. simpl. by rewrite Hi.
  - exists h', oc'. rewrite Ho in H1. by split_and!.
Defined.

Lemma cb_input_correct_witness : exists h' oc',
  cb_input 0 0 net_in net = (Ok tt, h') /\ h_chan h' !! net_out = Some oc' /\
  chan_read oc' = value_int64 7.
Proof.
  destruct net_wf as (HI & HC & mx & inp & HW & Hin & Hb & Ho & Hn & Hf & Hd & oc & Hoc & Hset).
  destruct net_chans as [Hi Hs]. rewrite <- Ho in Hoc.
  destruct (cb_input_correct 0 mx 0 inp net_in net_in_chan oc net HI net_accepting HW) as
    (h' & E & _ & _ & _ & _ & (oc' & H1 & H2) & _).
  - by rewrite Hin.
  - done.
  - exact Hi.
  - exact Hoc.
  - done.
  - exists h', oc'. rewrite Ho in H1. by split_and!.
Defined.

(** The network after a write to the select channel. *)
Definition net_dirty : heap := (chan_set net_sel (value_int64 2) net).2.

Lemma net_dirty_wf : bay_inv net_dirty /\ client_inv net_dirty.
Proof.
  destruct net_wf as (HI & HC & _). unfold net_dirty.
  destruct (run_op_heap (OpSet (value_int64 2)) net_sel net HI net_accepting)
    as [(r & E & _)|(c & c' & _ & _ & _ & _ & E & HI')]; unfold run_op in E; rewrite E.
  - split; [exact HI|exact HC].
  - split; [exact HI'|]. apply (client_inv_ext net); [reflexivity|reflexivity|exact HC].
Qed.

Lemma propagate_terminates_witness :
  (bay_propagate (propagate_fuel net_dirty) net_dirty).1 <> Fuel.
Proof.
  exact (propagate_terminates (propagate_fuel net_dirty) net_dirty (proj1 net_dirty_wf)
    (proj2 net_dirty_wf) (le_n _)).
Defined.

Lemma propagate_settles_witness :
  let h' := (bay_propagate (propagate_fuel net_dirty) net_dirty).2 in
  bay_inv h' /\ client_inv h' /\ b_state (h_bay h') = BAY_READY /\ b_dirty (h_bay h') = [].
Proof.
  destruct (propagate_settles net_dirty (proj1 net_dirty_wf) (proj2 net_dirty_wf)) as (? & ? & ? & ? & _).
  - by vm_compute.
  - by split_and!.
Defined.

