(* ===== verification/Thread.v ===== *)
(** * Threads and CPUs (src/emu/thread.c, src/emu/cpu.c)

    A thread has a state and, while it is alive, a CPU; a CPU has the list of
    threads assigned to it.  Both mirror their state in channels, written in
    the order of the code.  The list of a CPU is intrusive in the code (a thread
    is in at most one list): the invariant of OvniModel.v shows it is. *)

From stdpp Require Import pretty.
From S2P Require Import Prelude Chan Heap Bay Mux Prv.

Definition th_chan (t : nat) (i : nat) : addr := Addr (OwnThread t) i.
Definition cpu_chan (c : nat) (i : nat) : addr := Addr (OwnCpu c) i.

Definition load_thread (t : nat) : M heap thread := let* h := mget in deref (h_thread h !! t).
Definition load_cpu (c : nat) : M heap cpu := let* h := mget in deref (h_cpu h !! c).
Definition load_proc (p : nat) : M heap proc := let* h := mget in deref (h_proc h !! p).
Definition put_thread (t : nat) (th : thread) : M heap unit := mmod (set_h_thread <[t := th]>).
Definition put_cpu (c : nat) (cp : cpu) : M heap unit := mmod (set_h_cpu <[c := cp]>).

Definition with_cpu (c : option nat) (th : thread) : thread :=
  mk_thread (t_gindex th) (t_tid th) (t_proc th) (t_state th) (t_is_running th) (t_is_active th)
    (t_is_out_of_cpu th) c (t_has_meta th) (t_is_init th).
Definition with_tstate (st : thread_state) (th : thread) : thread :=
  mk_thread (t_gindex th) (t_tid th) (t_proc th) st (is_running_state st) (is_active_state st)
    (t_is_out_of_cpu th) (t_cpu th) (t_has_meta th) (t_is_init th).

(** ** thread.c *)

(** [thread_init_begin]: the zeroed thread with its identifier. *)
Definition thread_init_begin (tid : Z) : thread :=
  mk_thread (-1) tid 0 TH_ST_UNKNOWN false false false None false false.

Definition thread_set_state (t : nat) (state : thread_state) : M heap unit :=
  let* th := load_thread t in
  match t_cpu th with
  | None => mfail
  | Some _ =>
      put_thread t (with_tstate state th) ;;;
      chan_set (th_chan t TH_CHAN_STATE) (value_int64 (thread_state_Z state)) ;;;
      let tid_active := if is_active_state state then value_int64 (t_tid th) else value_null in
      chan_set (th_chan t TH_CHAN_TID) tid_active
  end.

Definition thread_set_cpu (t c : nat) : M heap unit :=
  let* th := load_thread t in
  match t_cpu th with
  | Some _ => mfail
  | None =>
      put_thread t (with_cpu (Some c) th) ;;;
      let* cp := load_cpu c in
      chan_set (th_chan t TH_CHAN_CPU) (value_int64 (cpu_gindex cp))
  end.

Definition thread_unset_cpu (t : nat) : M heap unit :=
  let* th := load_thread t in
  match t_cpu th with
  | None => mfail
  | Some _ =>
      put_thread t (with_cpu None th) ;;;
      chan_set (th_chan t TH_CHAN_CPU) value_null
  end.

Definition thread_migrate_cpu (t c : nat) : M heap unit :=
  let* th := load_thread t in
  match t_cpu th with
  | None => mfail
  | Some _ =>
      put_thread t (with_cpu (Some c) th) ;;;
      let* cp := load_cpu c in
      chan_set (th_chan t TH_CHAN_CPU) (value_int64 (cpu_gindex cp))
  end.

(** ** cpu.c *)

(** [cpu_init_begin]. *)
Definition cpu_init_begin (index phyid : Z) (is_virtual : bool) : cpu :=
  mk_cpu (-1) None index phyid is_virtual false 0 0 0 [] None None.

(** The loop of [cpu_update]: counters and last running and active threads. *)
Record tally := mk_tally { ta_running : Z; ta_th_running : option nat; ta_active : Z; ta_th_active : option nat }.

Fixpoint count_threads (l : list nat) (ta : tally) : M heap tally :=
  match l with
  | [] => mret ta
  | t :: l' =>
      let* th := load_thread t in
      let ta' :=
        match t_state th with
        | TH_ST_RUNNING => mk_tally (ta_running ta + 1) (Some t) (ta_active ta + 1) (Some t)
        | TH_ST_COOLING | TH_ST_WARMING =>
            mk_tally (ta_running ta) (ta_th_running ta) (ta_active ta + 1) (Some t)
        | _ => ta
        end in
      count_threads l' ta'
  end.

Definition upd_cpu (c : nat) (f : cpu -> cpu) : M heap unit := mmod (set_h_cpu (alter f c)).

Definition set_counts (running active : Z) (cp : cpu) : cpu :=
  mk_cpu (cpu_gindex cp) (cpu_loom cp) (cpu_index cp) (cpu_phyid cp) (cpu_is_virtual cp)
    (cpu_is_init cp) (cpu_nthreads cp)
    running active (cpu_threads cp) (cpu_th_running cp) (cpu_th_active cp).
Definition set_th_running (t : option nat) (cp : cpu) : cpu :=
  mk_cpu (cpu_gindex cp) (cpu_loom cp) (cpu_index cp) (cpu_phyid cp) (cpu_is_virtual cp)
    (cpu_is_init cp) (cpu_nthreads cp)
    (cpu_nth_running cp) (cpu_nth_active cp) (cpu_threads cp) t (cpu_th_active cp).
Definition set_th_active (t : option nat) (cp : cpu) : cpu :=
  mk_cpu (cpu_gindex cp) (cpu_loom cp) (cpu_index cp) (cpu_phyid cp) (cpu_is_virtual cp)
    (cpu_is_init cp) (cpu_nthreads cp)
    (cpu_nth_running cp) (cpu_nth_active cp) (cpu_threads cp) (cpu_th_running cp) t.
Definition set_threads (n : Z) (l : list nat) (cp : cpu) : cpu :=
  mk_cpu (cpu_gindex cp) (cpu_loom cp) (cpu_index cp) (cpu_phyid cp) (cpu_is_virtual cp)
    (cpu_is_init cp) n
    (cpu_nth_running cp) (cpu_nth_active cp) l (cpu_th_running cp) (cpu_th_active cp).

Definition cpu_update (c : nat) : M heap unit :=
  let* cp := load_cpu c in
  let* ta := count_threads (cpu_threads cp) (mk_tally 0 None 0 None) in
  upd_cpu c (set_counts (ta_running ta) (ta_active ta)) ;;;
  if (1 <? ta_running ta) && negb (cpu_is_virtual cp) then mfail else
  let* r :=
    (if ta_running ta =? 1 then
       upd_cpu c (set_th_running (ta_th_running ta)) ;;;
       let* t := deref (ta_th_running ta) in
       let* th := load_thread t in
       let* p := load_proc (t_proc th) in
       mret (value_int64 (t_tid th), value_int64 (proc_pid p), value_int64 (t_gindex th))
     else
       upd_cpu c (set_th_running None) ;;;
       mret (value_null, value_null, value_null)) in
  chan_set (cpu_chan c CPU_CHAN_TID) r.1.1 ;;;
  chan_set (cpu_chan c CPU_CHAN_PID) r.1.2 ;;;
  chan_set (cpu_chan c CPU_CHAN_THRUN) r.2 ;;;
  let* gid_active :=
    (if ta_active ta =? 1 then
       upd_cpu c (set_th_active (ta_th_active ta)) ;;;
       let* t := deref (ta_th_active ta) in
       let* th := load_thread t in
       mret (value_int64 (t_gindex th))
     else
       upd_cpu c (set_th_active None) ;;;
       mret value_null) in
  chan_set (cpu_chan c CPU_CHAN_NRUN) (value_int64 (ta_running ta)) ;;;
  chan_set (cpu_chan c CPU_CHAN_THACT) gid_active.

Definition find_thread (cp : cpu) (t : nat) : option nat :=
  if bool_decide (t ∈ cpu_threads cp) then Some t else None.

Fixpoint remove_first (t : nat) (l : list nat) : list nat :=
  match l with
  | [] => []
  | x :: l' => if Nat.eqb x t then l' else x :: remove_first t l'
  end.

Definition cpu_add_thread (c t : nat) : M heap unit :=
  let* cp := load_cpu c in
  match find_thread cp t with
  | Some _ => mfail
  | None =>
      upd_cpu c (set_threads (cpu_nthreads cp + 1) (cpu_threads cp ++ [t])) ;;;
      cpu_update c
  end.

Definition cpu_remove_thread (c t : nat) : M heap unit :=
  let* cp := load_cpu c in
  match find_thread cp t with
  | None => mfail
  | Some _ =>
      upd_cpu c (set_threads (cpu_nthreads cp - 1) (remove_first t (cpu_threads cp))) ;;;
      cpu_update c
  end.

Definition cpu_migrate_thread (c t newcpu : nat) : M heap unit :=
  cpu_remove_thread c t ;;;
  cpu_add_thread newcpu t.

(** ** Construction and connection of their channels *)

Definition chan_with (props : list (chan_prop * Z)) (c : chan) : chan :=
  foldl (fun c p => chan_prop_set p.1 p.2 c) c props.

(** [chan_init] of the channel at [a], whose only failure aborts, with the
    properties set after it. *)
Definition init_chan (a : addr) (ty : chan_type) (name : string) (props : list (chan_prop * Z)) : M heap unit :=
  match chan_init ty name with
  | Ok c => store a (chan_with props c)
  | _ => mdie
  end.

(** Channels of a thread: index, name, properties, Paraver type and flags. *)
Definition th_chan_table : list (nat * string * list (chan_prop * Z) * Z * Z) :=
  [ (TH_CHAN_CPU, "cpu_gindex"%string, [], 6, PRV_NEXT);
    (TH_CHAN_TID, "tid_active"%string, [(CHAN_IGNORE_DUP, 1)], 2, 0);
    (TH_CHAN_STATE, "state"%string, [], 4, PRV_SKIPDUP) ].

Definition thread_init_end (t : nat) : M heap unit :=
  let* th := load_thread t in
  if t_gindex th <? 0 then mfail else
  if negb (t_has_meta th) then mfail else
  for_each (fun '(i, nm, props, _, _) =>
    init_chan (th_chan t i) CHAN_SINGLE ("thread" +:+ pretty (t_gindex th) +:+ "." +:+ nm) props) th_chan_table ;;;
  put_thread t (set_t_is_init true th).

(** [prv]: the Paraver stream of the recorder, [None] when it is not found. *)
Definition thread_connect (t : nat) (prv : option nat) : M heap unit :=
  let* th := load_thread t in
  if negb (t_is_init th) then mfail else
  let* p := found prv in
  for_each (fun '(i, _, _, type, flags) =>
    bay_register (th_chan t i) ;;;
    prv_register p (t_gindex th) type (th_chan t i) flags) th_chan_table.

(** Channels of a CPU: index, name, Paraver type (negative: not shown), flags. *)
Definition cpu_chan_table : list (nat * string * Z * Z) :=
  [ (CPU_CHAN_NRUN, "nrunning"%string, 3, PRV_ZERO);
    (CPU_CHAN_PID, "pid_running"%string, 1, 0);
    (CPU_CHAN_TID, "tid_running"%string, 2, 0);
    (CPU_CHAN_THRUN, "th_running"%string, -1, 0);
    (CPU_CHAN_THACT, "th_active"%string, -1, 0) ].

Definition cpu_init_end (c : nat) : M heap unit :=
  let* cp := load_cpu c in
  if cpu_gindex cp <? 0 then mfail else
  let* _ := found (cpu_loom cp) in
  for_each (fun '(i, nm, _, _) =>
    init_chan (cpu_chan c i) CHAN_SINGLE ("cpu" +:+ pretty (cpu_gindex cp) +:+ "." +:+ nm)
      [(CHAN_IGNORE_DUP, 1)]) cpu_chan_table ;;;
  put_cpu c (set_cpu_is_init true cp).

Definition cpu_connect (c : nat) (prv : option nat) : M heap unit :=
  let* cp := load_cpu c in
  if negb (cpu_is_init cp) then mfail else
  let* p := found prv in
  for_each (fun '(i, _, type, flags) =>
    bay_register (cpu_chan c i) ;;;
    if type <? 0 then mret tt else prv_register p (cpu_gindex cp) type (cpu_chan c i) flags) cpu_chan_table.

(** ** Readers *)

Lemma quiet_load_thread t : quiet (load_thread t).
Proof. unfold load_thread. quiet_tac. Qed.
Lemma quiet_load_cpu c : quiet (load_cpu c).
Proof. unfold load_cpu. quiet_tac. Qed.
Lemma quiet_load_proc p : quiet (load_proc p).
Proof. unfold load_proc. quiet_tac. Qed.
#[export] Hint Resolve quiet_load_thread quiet_load_cpu quiet_load_proc : ovni.
