(* ===== verification/Loom.v ===== *)
(** * Looms and processes (src/emu/loom.c, src/emu/proc.c)

    A loom is a node (or part of one) with its physical CPUs, one virtual CPU
    and its processes; a process has its threads.  They are filled from the
    metadata of the streams, then sorted, then frozen by the [*_init_end]
    operations.  The metadata is a JSON object read with the parson library:
    [metadata] is the record of what its getters return to the code. *)

From Stdlib Require Import Ascii.
From S2P Require Import Prelude Chan Heap Bay Mux Thread.

(** ** Stream metadata

    Missing numbers read as 0 where the code uses [json_object_dotget_number]
    and as [None] where it tests the value; numbers are already cast to
    [int]. *)
Record metadata := mk_metadata {
  md_part : option string;                    (* ovni.part *)
  md_loom : option string;                    (* ovni.loom *)
  md_pid : Z;                                 (* ovni.pid *)
  md_tid : Z;                                 (* ovni.tid *)
  md_finished : Z;                            (* ovni.finished *)
  md_cpus : option (list (option (Z * Z)));   (* ovni.loom_cpus: index, phyid *)
  md_app_id : option Z;                       (* ovni.app_id *)
  md_rank : option Z;                         (* ovni.rank *)
  md_nranks : option Z                        (* ovni.nranks *)
}.

Definition INT_MAX : Z := 2 ^ 31 - 1.

Definition load_loom (l : nat) : M heap loom := let* h := mget in deref (h_loom h !! l).
Definition upd_loom (l : nat) (f : loom -> loom) : M heap unit := mmod (set_h_loom (alter f l)).
Definition upd_proc (p : nat) (f : proc -> proc) : M heap unit := mmod (set_h_proc (alter f p)).
Definition upd_thread (t : nat) (f : thread -> thread) : M heap unit := mmod (set_h_thread (alter f t)).

(** ** proc.c *)

Definition proc_stream_get_pid (md : metadata) : Z := if md_pid md =? 0 then -1 else md_pid md.

Definition proc_init_begin (pid : Z) : proc := mk_proc (-1) false pid 0 (-1) 0 0 [] 0.

Definition load_appid (p : nat) (md : metadata) : M heap unit :=
  let* pr := load_proc p in
  match md_app_id md with
  | None => mret tt
  | Some appid =>
      if c_true (proc_appid pr) && negb (proc_appid pr =? appid) then mfail else
      if appid <=? 0 then mfail else
      upd_proc p (set_proc_appid appid)
  end.

Definition load_rank (p : nat) (md : metadata) : M heap unit :=
  let* pr := load_proc p in
  match md_rank md with
  | None => mret tt
  | Some rank =>
      if rank <? 0 then mfail else
      if (0 <=? proc_rank pr) && negb (proc_rank pr =? rank) then mfail else
      let* nranks := found (md_nranks md) in
      if nranks <=? 0 then mfail else
      if (0 <? proc_nranks pr) && negb (proc_nranks pr =? nranks) then mfail else
      if nranks <=? rank then mfail else
      upd_proc p (fun pr => set_proc_nranks nranks (set_proc_rank rank pr))
  end.

Definition proc_load_metadata (p : nat) (md : metadata) : M heap unit :=
  load_appid p md ;;; load_rank p md.

Definition proc_find_thread (pr : proc) (tid : Z) : option nat := assoc tid (proc_threads pr).

Definition proc_add_thread (p t : nat) : M heap unit :=
  let* pr := load_proc p in
  if proc_is_init pr then mfail else
  let* th := load_thread t in
  match proc_find_thread pr (t_tid th) with
  | Some _ => mfail
  | None =>
      upd_proc p (fun pr => set_proc_nthreads (proc_nthreads pr + 1)
        (set_proc_threads (proc_threads pr ++ [(t_tid th, t)]) pr)) ;;;
      upd_thread t (set_t_proc p)
  end.

Definition by_tid : Z * nat -> Z * nat -> bool := by_key fst.
Definition proc_sort (p : nat) : M heap unit :=
  upd_proc p (fun pr => set_proc_threads (sort_by by_tid (proc_threads pr)) pr).

Definition proc_init_end (p : nat) : M heap unit :=
  let* pr := load_proc p in
  if proc_gindex pr <? 0 then mfail else
  if proc_appid pr <=? 0 then mfail else
  upd_proc p (set_proc_is_init true).

(** ** Metadata of a thread (thread.c) *)

Definition thread_stream_get_tid (md : metadata) : Z := if md_tid md =? 0 then -1 else md_tid md.

Definition thread_load_metadata (t : nat) (md : metadata) : M heap unit :=
  let* th := load_thread t in
  if t_has_meta th then mfail else
  if negb (md_finished md =? 1) then mfail else
  upd_thread t (set_t_has_meta true).

(** ** loom.c *)

(** [set_hostname]: the name up to its first dot. *)
Fixpoint set_hostname (name : string) : string :=
  match name with
  | EmptyString => EmptyString
  | String c s => if bool_decide (c = "."%char) then EmptyString else String c (set_hostname s)
  end.

Fixpoint has_slash (name : string) : bool :=
  match name with
  | EmptyString => false
  | String c s => bool_decide (c = "/"%char) || has_slash s
  end.

Definition PATH_MAX : Z := 4096.

(** The new loom, and its virtual CPU, take the next free keys. *)
Definition loom_init_begin (name : string) : M heap nat :=
  if has_slash name then mfail else
  if PATH_MAX <=? Z.of_nat (String.length name) then mfail else
  let* h := mget in
  let l := size (h_loom h) in
  let c := size (h_cpu h) in
  mmod (set_h_loom <[l := mk_loom 0 false name (set_hostname name) 0 false INT_MAX 0 [] None c 0 []]>) ;;;
  put_cpu c (set_cpu_loom (Some l) (cpu_init_begin (-1) (-1) true)) ;;;
  mret l.

Definition loom_find_cpu (lo : loom) (phyid : Z) : option nat :=
  if phyid =? -1 then Some (loom_vcpu lo) else assoc phyid (loom_cpus lo).

Definition loom_add_cpu (l c : nat) : M heap unit :=
  let* lo := load_loom l in
  let* cp := load_cpu c in
  if cpu_phyid cp <? 0 then mfail else
  match loom_find_cpu lo (cpu_phyid cp) with
  | Some _ => mfail
  | None =>
      if loom_is_init lo then mfail else
      upd_loom l (fun lo => set_loom_ncpus (loom_ncpus lo + 1)
        (set_loom_cpus (loom_cpus lo ++ [(cpu_phyid cp, c)]) lo)) ;;;
      upd_cpu c (set_cpu_loom (Some l))
  end.

(** One entry of the [ovni.loom_cpus] array. *)
Definition load_cpu_entry (l : nat) (jcpu : option (Z * Z)) : M heap unit :=
  let* ip := found jcpu in
  if ip.1 <? 0 then mfail else
  let* lo := load_loom l in
  match loom_find_cpu lo ip.2 with
  | Some c =>
      let* cp := load_cpu c in
      if negb (cpu_index cp =? ip.1) then mfail else mret tt
  | None =>
      let* h := mget in
      let c := size (h_cpu h) in
      put_cpu c (cpu_init_begin ip.1 ip.2 false) ;;;
      loom_add_cpu l c
  end.

Definition load_cpus (l : nat) (md : metadata) : M heap unit :=
  match md_cpus md with
  | None => mret tt
  | Some cpuarray =>
      if Nat.eqb (length cpuarray) 0 then mfail else for_each (load_cpu_entry l) cpuarray
  end.

Definition loom_load_metadata (l : nat) (md : metadata) : M heap unit := load_cpus l md.

Definition loom_get_cpu (l : nat) (index : Z) : M heap (option nat) :=
  let* lo := load_loom l in
  match loom_cpus_array lo with
  | None => mdie
  | Some array =>
      if index =? -1 then mret (Some (loom_vcpu lo)) else
      if (index <? 0) || (loom_ncpus lo <=? index) then mret None else
      deref (array !! Z.to_nat index)
  end.

Definition loom_find_proc (lo : loom) (pid : Z) : option nat := assoc pid (loom_procs lo).

Fixpoint find_in_procs (procs : list (Z * nat)) (tid : Z) : M heap (option nat) :=
  match procs with
  | [] => mret None
  | (_, p) :: procs' =>
      let* pr := load_proc p in
      match proc_find_thread pr tid with
      | Some t => mret (Some t)
      | None => find_in_procs procs' tid
      end
  end.
Definition loom_find_thread (l : nat) (tid : Z) : M heap (option nat) :=
  let* lo := load_loom l in find_in_procs (loom_procs lo) tid.

Definition loom_add_proc (l p : nat) : M heap unit :=
  let* lo := load_loom l in
  let* pr := load_proc p in
  match loom_find_proc lo (proc_pid pr) with
  | Some _ => mfail
  | None =>
      if loom_is_init lo then mfail else
      upd_loom l (fun lo => set_loom_nprocs (loom_nprocs lo + 1)
        (set_loom_procs (loom_procs lo ++ [(proc_pid pr, p)]) lo)) ;;;
      upd_proc p (set_proc_loom l)
  end.

(** The two loops of [loom_set_rank_min]. *)
Fixpoint any_rank (procs : list (Z * nat)) : M heap bool :=
  match procs with
  | [] => mret false
  | (_, p) :: procs' =>
      let* pr := load_proc p in
      if 0 <=? proc_rank pr then mret true else any_rank procs'
  end.

Definition min_rank_step (l : nat) (e : Z * nat) : M heap unit :=
  let* pr := load_proc e.2 in
  if proc_rank pr <? 0 then mfail else
  let* lo := load_loom l in
  if proc_rank pr <? loom_rank_min lo then upd_loom l (set_loom_rank_min (proc_rank pr)) else mret tt.

Definition loom_set_rank_min (l : nat) : M heap unit :=
  let* lo := load_loom l in
  if negb (loom_rank_min lo =? INT_MAX) then mfail else
  let* any := any_rank (loom_procs lo) in
  (if any then upd_loom l (set_loom_rank_enabled true) else mret tt) ;;;
  let* lo' := load_loom l in
  if negb (loom_rank_enabled lo') then mret tt else for_each (min_rank_step l) (loom_procs lo').

(** The rank of a process of the table. *)
Definition rank_of (h : heap) (e : Z * nat) : Z :=
  match h_proc h !! e.2 with Some pr => proc_rank pr | None => 0 end.

Definition by_pid : Z * nat -> Z * nat -> bool := by_key fst.
Definition by_rank (h : heap) : Z * nat -> Z * nat -> bool := by_key (rank_of h).
Definition by_phyid : Z * nat -> Z * nat -> bool := by_key fst.

Definition loom_sort (l : nat) : M heap unit :=
  let* lo := load_loom l in
  let* h := mget in
  let cmp := if loom_rank_enabled lo then by_rank h else by_pid in
  upd_loom l (fun lo => set_loom_cpus (sort_by by_phyid (loom_cpus lo))
    (set_loom_procs (sort_by cmp (loom_procs lo)) lo)) ;;;
  let* lo' := load_loom l in
  for_each (fun e => proc_sort e.2) (loom_procs lo').

(** One round of the loop that fills [cpus_array]. *)
Definition fill_entry (l : nat) (e : Z * nat) : M heap unit :=
  let* lo := load_loom l in
  let* cp := load_cpu e.2 in
  let index := cpu_index cp in
  if (index <? 0) || (loom_ncpus lo <=? index) then mfail else
  let* array := deref (loom_cpus_array lo) in
  let* slot := deref (array !! Z.to_nat index) in
  match slot with
  | Some _ => mfail
  | None => upd_loom l (set_loom_cpus_array (Some (<[Z.to_nat index := Some e.2]> array)))
  end.

Definition loom_init_end (l : nat) : M heap unit :=
  let* lo := load_loom l in
  if loom_rank_enabled lo && (loom_rank_min lo =? INT_MAX) then mfail else
  if loom_ncpus lo =? 0 then mfail else
  if loom_nprocs lo =? 0 then mfail else
  upd_loom l (set_loom_cpus_array (Some (replicate (Z.to_nat (loom_ncpus lo)) None))) ;;;
  for_each (fill_entry l) (loom_cpus lo) ;;;
  upd_loom l (set_loom_is_init true).

(** ** Running the operations *)

Lemma load_loom_run l lo h : h_loom h !! l = Some lo -> load_loom l h = (Ok lo, h).
Proof. intros E. unfold load_loom, mbind, mget. by rewrite E. Qed.
Lemma load_cpu_run c cp h : h_cpu h !! c = Some cp -> load_cpu c h = (Ok cp, h).
Proof. intros E. unfold load_cpu, mbind, mget. by rewrite E. Qed.
Lemma load_loom_Ok l lo h h' : load_loom l h = (Ok lo, h') <-> h_loom h !! l = Some lo /\ h' = h.
Proof. unfold load_loom, mbind, mget. apply deref_Ok. Qed.
Lemma load_cpu_Ok c cp h h' : load_cpu c h = (Ok cp, h') <-> h_cpu h !! c = Some cp /\ h' = h.
Proof. unfold load_cpu, mbind, mget. apply deref_Ok. Qed.
Lemma load_proc_Ok p pr h h' : load_proc p h = (Ok pr, h') <-> h_proc h !! p = Some pr /\ h' = h.
Proof. unfold load_proc, mbind, mget. apply deref_Ok. Qed.
Lemma load_thread_Ok t th h h' : load_thread t h = (Ok th, h') <-> h_thread h !! t = Some th /\ h' = h.
Proof. unfold load_thread, mbind, mget. apply deref_Ok. Qed.

Lemma alter_lookup_insert {A} (f : A -> A) (m : gmap nat A) i x : m !! i = Some x ->
  alter f i m = <[i := f x]> m.
Proof.
  intros E. apply map_eq. intros j. destruct (decide (j = i)) as [->|].
  - by rewrite lookup_alter_eq, lookup_insert_eq, E.
  - by rewrite lookup_alter_ne, lookup_insert_ne by congruence.
Qed.

(** ** CPUs by index *)

(** The index of a CPU of the table. *)
Definition index_of (h : heap) (e : Z * nat) : Z :=
  match h_cpu h !! e.2 with Some cp => cpu_index cp | None => -1 end.

Record filled (h : heap) (n : Z) (cpus : list (Z * nat)) (A A' : list (option nat)) : Prop := {
  fl_length : length A' = length A;
  fl_kept : forall i c, A !! i = Some (Some c) -> A' !! i = Some (Some c);
  fl_entry : forall e, e ∈ cpus -> 0 <= index_of h e < n /\ A' !! Z.to_nat (index_of h e) = Some (Some e.2);
  fl_only : forall i c, A' !! i = Some (Some c) ->
    A !! i = Some (Some c) \/ exists e, e ∈ cpus /\ e.2 = c /\ Z.to_nat (index_of h e) = i
}.

Lemma fill_loop l cpus h h' lo A : h_loom h !! l = Some lo -> loom_cpus_array lo = Some A ->
  for_each (fill_entry l) cpus h = (Ok tt, h') ->
  exists A', filled h (loom_ncpus lo) cpus A A' /\
    h' = set_h_loom <[l := set_loom_cpus_array (Some A') lo]> h.
Proof.
  revert h lo A. induction cpus as [|e cpus IH]; intros h lo A Hl HA E; simpl in E.
  - minv E. exists A. split; [constructor; set_solver|].
    destruct h, lo; simpl in *; subst. unfold set_h_loom; simpl. by rewrite insert_id.
  - apply mbind_Ok in E as ([] & h1 & E1 & E2). unfold fill_entry in E1.
    apply mbind_Ok in E1 as (lo' & ? & [Hl' ->]%load_loom_Ok & E1). simplify_eq.
    apply mbind_Ok in E1 as (cp & ? & [Hc ->]%load_cpu_Ok & E1). rewrite HA in E1.
    assert (index_of h e = cpu_index cp) as Hi by (unfold index_of; by rewrite Hc).
    case_match eqn:Hr; [discriminate|]. apply orb_false_iff in Hr as [?%Z.ltb_ge ?%Z.leb_gt].
    rewrite (mbind_run _ _ _ A h) in E1 by done.
    apply mbind_Ok in E1 as (slot & ? & [Hs ->]%deref_Ok & E1). destruct slot; [discriminate|].
    injection E1 as <-. set (A1 := <[Z.to_nat (cpu_index cp) := Some e.2]> A) in *.
    eapply (IH _ (set_loom_cpus_array (Some A1) lo) A1) in E2 as (A' & F & ->).
    2: { simpl. by rewrite lookup_alter_eq, Hl. }
    2: done.
    exists A'. split.
    + destruct F as [F1 F2 F3 F4]. split.
      * rewrite F1. by unfold A1; rewrite length_insert.
      * intros i c Hic. apply F2. unfold A1. rewrite list_lookup_insert_ne; [done|].
        intros <-. congruence.
      * intros e' [-> | He']%elem_of_cons; [|by apply F3]. rewrite Hi. split; [lia|]. apply F2.
        unfold A1. apply list_lookup_insert_eq. by apply lookup_lt_Some in Hs.
      * intros i c [Hic|(e' & ? & ? & ?)]%F4; [|right; exists e'; split; [by right|done]].
        unfold A1 in Hic. destruct (decide (i = Z.to_nat (cpu_index cp))) as [->|].
        -- right. exists e. rewrite Hi. rewrite list_lookup_insert_eq in Hic
             by (by apply lookup_lt_Some in Hs). split; [by left|]. by simplify_eq.
        -- left. by rewrite list_lookup_insert_ne in Hic by congruence.
    + unfold set_h_loom; simpl. f_equal. rewrite (alter_lookup_insert _ _ _ _ Hl).
      by rewrite insert_insert_eq.
Qed.

(** [n] distinct indices below [n] are all the indices below [n]. *)
Lemma index_onto (l : list Z) (n i : Z) : NoDup l -> Z.of_nat (length l) = n ->
  Forall (fun x => 0 <= x < n) l -> 0 <= i < n -> i ∈ l.
Proof.
  intros Hn Hl Hf Hi.
  assert (l ≡ₚ seqZ 0 n) as ->; [|apply elem_of_seqZ; lia].
  apply submseteq_length_Permutation; [|rewrite length_seqZ; lia].
  apply NoDup_submseteq; [done|]. intros x Hx. apply elem_of_seqZ.
  rewrite list.Forall_forall in Hf. specialize (Hf x Hx). lia.
Qed.

(** ** The invariant of the looms being built

    Every loom counts its CPUs and processes, finds them under their own
    identifiers, and no two entries are the same object.  New objects are
    allocated at the end of their stores. *)

Definition dense {A} (m : gmap nat A) : Prop := forall i x, m !! i = Some x -> (i < size m)%nat.

Record loom_wf (cpus : gmap nat cpu) (l : nat) (lo : loom) : Prop := {
  lw_ncpus : loom_ncpus lo = Z.of_nat (length (loom_cpus lo));
  lw_nodup : NoDup (loom_cpus lo).*1;
  lw_cpu : forall ph c, (ph, c) ∈ loom_cpus lo -> 0 <= ph /\ exists cp, cpus !! c = Some cp /\
    cpu_phyid cp = ph /\ cpu_loom cp = Some l /\ cpu_is_virtual cp = false /\ 0 <= cpu_index cp;
  lw_vcpu : exists cp, cpus !! loom_vcpu lo = Some cp /\ cpu_is_virtual cp = true /\
    cpu_loom cp = Some l /\ cpu_index cp = -1 /\ cpu_phyid cp = -1
}.

Record looms_wf (h : heap) : Prop := {
  ls_dense_cpu : dense (h_cpu h);
  ls_dense_loom : dense (h_loom h);
  ls_loom : forall l lo, h_loom h !! l = Some lo -> loom_wf (h_cpu h) l lo
}.

Lemma loom_entry_inj h l lo e e' : loom_wf h l lo -> e ∈ loom_cpus lo -> e' ∈ loom_cpus lo ->
  e'.2 = e.2 -> e = e'.
Proof.
  destruct e as [ph c], e' as [ph' c']. intros W H1 H2 E. simpl in E. subst c'.
  destruct (lw_cpu _ _ _ W _ _ H1) as (_ & cp & ? & <- & _).
  destruct (lw_cpu _ _ _ W _ _ H2) as (_ & cp' & ? & <- & _). congruence.
Qed.

(** C22. After [loom_init_end] succeeds on a well-formed loom, [loom_get_cpu]
    resolves every logic index from 0 to [ncpus - 1] to the one physical CPU of
    the loom with that index (no hole and no CPU left out of the array), index
    -1 to the virtual CPU, and any other index to none. *)
Theorem loom_init_end_resolves l h h' lo : looms_wf h -> h_loom h !! l = Some lo ->
  loom_init_end l h = (Ok tt, h') ->
  (forall i, 0 <= i < loom_ncpus lo -> exists ph c cp, loom_get_cpu l i h' = (Ok (Some c), h') /\
     (ph, c) ∈ loom_cpus lo /\ h_cpu h' !! c = Some cp /\ cpu_index cp = i) /\
  (forall ph c cp, (ph, c) ∈ loom_cpus lo -> h_cpu h' !! c = Some cp ->
     loom_get_cpu l (cpu_index cp) h' = (Ok (Some c), h')) /\
  loom_get_cpu l (-1) h' = (Ok (Some (loom_vcpu lo)), h') /\
  (forall i, i < -1 \/ loom_ncpus lo <= i -> loom_get_cpu l i h' = (Ok None, h')).
Proof.
  intros Hw Hl E. pose proof (ls_loom _ Hw _ _ Hl) as W.
  unfold loom_init_end in E. apply mbind_Ok in E as (lo' & ? & [Hl' ->]%load_loom_Ok & E). simplify_eq.
  do 3 (case_match; [discriminate|]).
  set (A := replicate (Z.to_nat (loom_ncpus lo)) (None : option nat)) in *.
  apply mbind_Ok in E as ([] & h1 & E1 & E). injection E1 as <-.
  apply mbind_Ok in E as ([] & h2 & E1 & E). injection E as <-.
  eapply (fill_loop l _ _ _ (set_loom_cpus_array (Some A) lo) A) in E1 as (A' & F & ->).
  2: { simpl. by rewrite lookup_alter_eq, Hl. }
  2: done.
  match goal with |- context [loom_get_cpu l (-1) ?h] => set (hf := h) end.
  assert (h_loom hf !! l = Some (set_loom_is_init true (set_loom_cpus_array (Some A') lo))) as Hf.
  { simpl. by rewrite lookup_alter_eq, lookup_insert_eq. }
  assert (h_cpu hf = h_cpu h) as Hcpu by done.
  set (h0 := set_h_loom (alter (set_loom_cpus_array (Some A)) l) h) in *.
  destruct F as [F1 _ F3 _]. simpl in F3.
  assert (length A' = Z.to_nat (loom_ncpus lo)) as HlA by by rewrite F1; apply length_replicate.
  assert (forall i, loom_get_cpu l i hf = (if i =? -1 then mret (Some (loom_vcpu lo)) else
      if (i <? 0) || (loom_ncpus lo <=? i) then mret None else deref (A' !! Z.to_nat i)) hf) as Hg.
  { intros i. unfold loom_get_cpu. by rewrite (mbind_run _ _ _ _ _ (load_loom_run l _ hf Hf)). }
  assert (forall e, e ∈ loom_cpus lo -> loom_get_cpu l (index_of h e) hf = (Ok (Some e.2), hf)) as He.
  { intros e [Hr HA]%F3. rewrite Hg. change (index_of h0 e) with (index_of h e) in *.
    rewrite (proj2 (Z.eqb_neq _ _)) by lia. rewrite (proj2 (Z.ltb_ge _ _)) by lia.
    rewrite (proj2 (Z.leb_gt _ _)) by lia. simpl. by rewrite HA. }
  split_and!.
  - intros i Hi.
    assert (i ∈ map (index_of h) (loom_cpus lo)) as ([ph c] & -> & Hin)%list_elem_of_fmap.
    { apply (index_onto _ (loom_ncpus lo)); [| |apply list.Forall_forall|done].
      - apply NoDup_fmap_2_strong.
        + intros e e' Hin Hin' Heq. pose proof (He e Hin) as E1. rewrite Heq, He in E1 by done.
          injection E1 as E1. by apply (loom_entry_inj _ _ _ _ _ W).
        + eapply NoDup_fmap_1, lw_nodup, W.
      - rewrite length_fmap. symmetry. apply W.
      - intros x (e & -> & Hin)%list_elem_of_fmap. by apply F3 in Hin as [? _]. }
    destruct (lw_cpu _ _ _ W ph c Hin) as (_ & cp & Hc & _).
    exists ph, c, cp. rewrite (He (ph, c) Hin), Hcpu. split_and!; try done.
    unfold index_of; simpl. by rewrite Hc.
  - intros ph c cp Hin Hc. rewrite Hcpu in Hc. pose proof (He (ph, c) Hin) as Eg.
    unfold index_of in Eg; simpl in Eg. by rewrite Hc in Eg.
  - by rewrite Hg.
  - intros i Hi. pose proof (lw_ncpus _ _ _ W). rewrite Hg. rewrite (proj2 (Z.eqb_neq i _)) by lia.
    destruct (Z.ltb_spec i 0), (Z.leb_spec (loom_ncpus lo) i); simpl; try done. lia.
Qed.

(** ** Filling a loom from the metadata *)

Lemma dense_insert {A} (m : gmap nat A) x : dense m -> m !! size m = None /\ dense (<[size m := x]> m).
Proof.
  intros Hd. assert (m !! size m = None) as Hn.
  { destruct (m !! size m) eqn:E; [|done]. apply Hd in E. lia. }
  split; [done|]. intros i y. rewrite map_size_insert_None by done.
  destruct (decide (i = size m)) as [->|]; [lia|]. rewrite lookup_insert_ne by done.
  intros ?%Hd. lia.
Qed.

Lemma dense_alter {A} (m : gmap nat A) f i : dense m -> dense (alter f i m).
Proof.
  intros Hd. destruct (m !! i) as [x|] eqn:E.
  - rewrite (alter_lookup_insert _ _ _ _ E). intros j y. rewrite map_size_insert_Some by eauto.
    destruct (decide (j = i)) as [->|]; [by intros _; eapply Hd|].
    rewrite lookup_insert_ne by done. apply Hd.
  - by rewrite alter_id by (by rewrite E).
Qed.

Lemma loom_wf_cpus m m' l lo : loom_wf m l lo ->
  (forall c cp, m !! c = Some cp -> cpu_loom cp = Some l -> m' !! c = Some cp) ->
  loom_wf m' l lo.
Proof.
  intros [W1 W2 W3 (cv & ? & ? & ? & ?)] Hk. split; [done..| |by exists cv; auto].
  intros ph c Hin. destruct (W3 ph c Hin) as (? & cp & ? & ? & ? & ?). split; [done|]. exists cp. auto.
Qed.

Lemma new_cpu_wf h cp : looms_wf h -> looms_wf (set_h_cpu <[size (h_cpu h) := cp]> h).
Proof.
  intros [D1 D2 W]. destruct (dense_insert (h_cpu h) cp D1) as [Hn Hd]. split; [done..|].
  intros l lo Hl. apply (loom_wf_cpus (h_cpu h)); [by apply W|]. intros c cp' Hc _. simpl.
  rewrite lookup_insert_ne; [done|]. congruence.
Qed.

Lemma loom_add_cpu_wf l c cp h : looms_wf h -> h_cpu h !! c = Some cp -> cpu_loom cp = None ->
  cpu_is_virtual cp = false -> 0 <= cpu_index cp -> looms_wf (loom_add_cpu l c h).2.
Proof.
  intros Hw Hc Hn Hv Hi. unfold loom_add_cpu, load_loom.
  destruct (h_loom h !! l) as [lo|] eqn:Hl; [|by unfold mbind, mget, deref; rewrite Hl].
  rewrite (mbind_run _ _ _ _ _ (load_loom_run l lo h Hl)).
  rewrite (mbind_run _ _ _ _ _ (load_cpu_run c cp h Hc)).
  case_match eqn:Hph; [done|]. apply Z.ltb_ge in Hph.
  destruct (loom_find_cpu lo (cpu_phyid cp)) eqn:Hf; [done|]. case_match; [done|].
  unfold mbind, upd_loom, upd_cpu, mmod; simpl. destruct Hw as [D1 D2 W].
  split; [by apply dense_alter..|]. simpl. intros l' lo'.
  assert (forall l0 lo0, l0 <> l -> h_loom h !! l0 = Some lo0 ->
    loom_wf (alter (set_cpu_loom (Some l)) c (h_cpu h)) l0 lo0) as Ho.
  { intros l0 lo0 Hne Hl0. apply (loom_wf_cpus (h_cpu h)); [by apply W|]. intros c' cp' Hc' El. simpl.
    rewrite lookup_alter_ne; [done|]. intros <-. congruence. }
  destruct (decide (l' = l)) as [->|Hne]; [|rewrite lookup_alter_ne by done; by apply Ho].
  rewrite lookup_alter_eq, Hl. intros [= <-]. destruct (W l lo Hl) as [W1 W2 W3 (cv & ? & ? & ? & ?)].
  assert (forall c' cp', c' <> c -> h_cpu h !! c' = Some cp' ->
    alter (set_cpu_loom (Some l)) c (h_cpu h) !! c' = Some cp') as Hk.
  { intros. by rewrite lookup_alter_ne. }
  split; simpl.
  - rewrite W1, length_app. simpl. lia.
  - rewrite fmap_app. simpl. apply list.NoDup_app. split_and!; [done| |repeat constructor; set_solver].
    intros x Hx [->|[]%elem_of_nil]%elem_of_cons. unfold loom_find_cpu in Hf.
    case_match; [done|]. by apply assoc_None in Hf.
  - intros ph c' [Hin|[[= -> ->]|[]%elem_of_nil]%elem_of_cons]%elem_of_app.
    + destruct (W3 ph c' Hin) as (? & cp' & Hc' & ? & ? & ? & ?). split; [done|]. exists cp'.
      rewrite (Hk c' cp'); [done| |done]. intros ->. congruence.
    + split; [done|]. exists (set_cpu_loom (Some l) cp). by rewrite lookup_alter_eq, Hc.
  - exists cv. rewrite (Hk _ cv); [done| |done]. intros Ee. rewrite Ee in *. congruence.
Qed.

Lemma load_cpu_entry_wf l e : keeps looms_wf (load_cpu_entry l e).
Proof.
  unfold load_cpu_entry. apply keeps_bind; [apply keeps_found|]. intros [i ph]. simpl.
  case_match eqn:Hi; [apply keeps_fail|]. apply Z.ltb_ge in Hi.
  apply keeps_bind; [apply keeps_bind; [apply keeps_get|intros; apply keeps_deref]|]. intros lo.
  case_match.
  - apply keeps_bind; [apply keeps_bind; [apply keeps_get|intros; apply keeps_deref]|].
    intros cp. case_match; [apply keeps_fail|apply keeps_ret].
  - intros h Hw. unfold mbind at 1, mget. unfold put_cpu.
    rewrite (mbind_run _ _ h tt (set_h_cpu <[size (h_cpu h) := cpu_init_begin i ph false]> h)) by done.
    eapply loom_add_cpu_wf; [by apply new_cpu_wf|simpl; by rewrite lookup_insert_eq|done..].
Qed.

Lemma for_each_keeps {A} (P : heap -> Prop) (body : A -> M heap unit) l :
  (forall x, x ∈ l -> keeps P (body x)) -> keeps P (for_each body l).
Proof.
  induction l as [|x l IH]; intros Hb; simpl; [apply keeps_ret|].
  apply keeps_bind; [apply Hb; by left|]. intros _. apply IH. intros y ?. apply Hb. by right.
Qed.

Lemma loom_load_metadata_wf l md : keeps looms_wf (loom_load_metadata l md).
Proof.
  intros h Hw. unfold loom_load_metadata, load_cpus. destruct (md_cpus md) as [cpus|]; [|done].
  case_match; [done|]. apply for_each_keeps; [|done]. intros e _. apply load_cpu_entry_wf.
Qed.

Lemma loom_init_begin_wf name : keeps looms_wf (loom_init_begin name).
Proof.
  intros h Hw. unfold loom_init_begin. do 2 (case_match; [done|]).
  unfold mbind, mget, put_cpu, mmod, mret; simpl. destruct Hw as [D1 D2 W].
  destruct (dense_insert (h_cpu h) (set_cpu_loom (Some (size (h_loom h))) (cpu_init_begin (-1) (-1) true)) D1)
    as [Hn Hd].
  match goal with |- context [<[size (h_loom h) := ?x]>] => destruct (dense_insert (h_loom h) x D2) as [Hn' Hd'] end.
  split; simpl; [done..|]. intros l' lo'. destruct (decide (l' = size (h_loom h))) as [->|].
  - rewrite lookup_insert_eq. intros [= <-]. split; simpl; [done|constructor|set_solver|].
    eexists. by rewrite lookup_insert_eq.
  - rewrite lookup_insert_ne by done. intros Hl. apply (loom_wf_cpus (h_cpu h)); [by apply W|].
    intros c cp Hc _. simpl. rewrite lookup_insert_ne; [done|]. congruence.
Qed.

Lemma loom_add_proc_wf l p : keeps looms_wf (loom_add_proc l p).
Proof.
  intros h Hw. unfold loom_add_proc, mbind, load_loom, load_proc, mget.
  destruct (h_loom h !! l) as [lo|] eqn:Hl; simpl; [|by unfold mbind; rewrite Hl].
  unfold mbind. rewrite Hl; simpl. destruct (h_proc h !! p) as [pr|]; simpl; [|done].
  do 2 (case_match; [done|]). simpl. destruct Hw as [D1 D2 W].
  split; simpl; [done|by apply dense_alter|]. intros l' lo'.
  destruct (decide (l' = l)) as [->|]; [|rewrite lookup_alter_ne by done; by apply W].
  rewrite lookup_alter_eq, Hl. intros [= <-]. by destruct (W l lo Hl).
Qed.

(** The looms stay well formed while they are filled: creating one, adding a
    process, and merging the CPUs of a stream's metadata, on every outcome, leave
    each loom with as many CPUs as it counts, each under its own non-negative
    physical identifier, owned by that loom, with a non-negative logic index,
    and the virtual CPU apart from them. *)
Theorem loom_building_wf l p md name h : looms_wf h ->
  looms_wf (loom_load_metadata l md h).2 /\ looms_wf (loom_init_begin name h).2 /\
  looms_wf (loom_add_proc l p h).2.
Proof.
  intros Hw. split_and!; [by apply loom_load_metadata_wf|by apply loom_init_begin_wf|by apply loom_add_proc_wf].
Qed.

(** ** Merging the metadata of a process *)

Definition rank_wf (pr : proc) : Prop :=
  (proc_rank pr = -1 /\ proc_nranks pr = 0) \/ 0 <= proc_rank pr < proc_nranks pr.

(** [pr'] knows all that [pr] knew, and the same. *)
Definition proc_extends (pr pr' : proc) : Prop :=
  (proc_appid pr <> 0 -> proc_appid pr' = proc_appid pr) /\
  (0 <= proc_rank pr -> proc_rank pr' = proc_rank pr /\ proc_nranks pr' = proc_nranks pr).

Lemma upd_proc_Ok p f h h' u : upd_proc p f h = (Ok u, h') -> h' = set_h_proc (alter f p) h.
Proof. unfold upd_proc, mmod. by intros [= _ <-]. Qed.

Lemma load_appid_Ok p md h h' pr : h_proc h !! p = Some pr -> load_appid p md h = (Ok tt, h') ->
  exists pr', h_proc h' !! p = Some pr' /\ proc_rank pr' = proc_rank pr /\ proc_nranks pr' = proc_nranks pr /\
    (proc_appid pr <> 0 -> proc_appid pr' = proc_appid pr) /\
    (forall a, md_app_id md = Some a -> proc_appid pr' = a /\ 0 < a).
Proof.
  intros Hp E. unfold load_appid in E. apply mbind_Ok in E as (pr0 & ? & [Hp' ->]%load_proc_Ok & E). simplify_eq.
  destruct (md_app_id md) as [a|]; [|minv E; by exists pr].
  destruct (c_true (proc_appid pr) && negb (proc_appid pr =? a)) eqn:Hc; [discriminate|].
  destruct (Z.leb_spec a 0) as [|Ha]; [discriminate|]. apply upd_proc_Ok in E as ->.
  exists (set_proc_appid a pr). simpl. rewrite lookup_alter_eq, Hp. split_and!; try done.
  - unfold c_true in Hc. intros Hn. apply Z.eqb_neq in Hn. rewrite Hn in Hc. simpl in Hc.
    destruct (Z.eqb_spec (proc_appid pr) a); [done|discriminate].
  - by intros ? [= <-].
Qed.

Lemma load_rank_Ok p md h h' pr : h_proc h !! p = Some pr -> rank_wf pr -> load_rank p md h = (Ok tt, h') ->
  exists pr', h_proc h' !! p = Some pr' /\ proc_appid pr' = proc_appid pr /\ rank_wf pr' /\
    (0 <= proc_rank pr -> proc_rank pr' = proc_rank pr /\ proc_nranks pr' = proc_nranks pr) /\
    (forall r, md_rank md = Some r -> proc_rank pr' = r /\ md_nranks md = Some (proc_nranks pr')).
Proof.
  intros Hp Hr E. unfold load_rank in E. apply mbind_Ok in E as (pr0 & ? & [Hp' ->]%load_proc_Ok & E). simplify_eq.
  destruct (md_rank md) as [r|]; [|minv E; by exists pr].
  destruct (Z.ltb_spec r 0); [discriminate|].
  destruct ((0 <=? proc_rank pr) && negb (proc_rank pr =? r)) eqn:Hc; [discriminate|].
  apply mbind_Ok in E as (n & ? & [Hn ->]%found_Ok & E).
  destruct (Z.leb_spec n 0); [discriminate|].
  destruct ((0 <? proc_nranks pr) && negb (proc_nranks pr =? n)) eqn:Hc'; [discriminate|].
  destruct (Z.leb_spec n r); [discriminate|]. apply upd_proc_Ok in E as ->.
  exists (set_proc_nranks n (set_proc_rank r pr)). simpl. rewrite lookup_alter_eq, Hp.
  apply andb_false_iff in Hc, Hc'. rewrite negb_false_iff in Hc, Hc'.
  rewrite Z.eqb_eq, ?Z.leb_gt, ?Z.ltb_ge in *. unfold rank_wf in *; simpl. split_and!; try done; try lia.
  intros ? [= <-]. by rewrite Hn.
Qed.

(** Merging the metadata of several streams of one process: a successful
    [proc_load_metadata] leaves the process with the application identifier,
    rank and number of ranks of the stream if it gives them, never changes one
    that was known, and keeps the rank within the number of ranks. *)
Theorem proc_load_metadata_merges p md h h' pr : h_proc h !! p = Some pr -> rank_wf pr ->
  proc_load_metadata p md h = (Ok tt, h') ->
  exists pr', h_proc h' !! p = Some pr' /\ rank_wf pr' /\ proc_extends pr pr' /\
    (forall a, md_app_id md = Some a -> proc_appid pr' = a /\ 0 < a) /\
    (forall r, md_rank md = Some r -> proc_rank pr' = r /\ md_nranks md = Some (proc_nranks pr')).
Proof.
  intros Hp Hr E. unfold proc_load_metadata in E. apply mbind_Ok in E as ([] & h1 & E1 & E2).
  eapply load_appid_Ok in E1 as (pr1 & Hp1 & R1 & R2 & A1 & A2); [|done].
  eapply load_rank_Ok in E2 as (pr2 & Hp2 & A3 & R3 & R4 & R5); [|done|].
  - exists pr2. unfold proc_extends. rewrite A3. rewrite R1, R2 in R4. by split_and!.
  - unfold rank_wf. by rewrite R1, R2.
Qed.

(** ** A concrete loom *)

Definition demo_md (cpus : list (option (Z * Z))) : metadata :=
  mk_metadata (Some "thread") (Some "node.0") 20 21 1 (Some cpus) (Some 1) (Some 0) (Some 2).

Definition demo_looms0 : heap := set_h_proc <[0%nat := proc_init_begin 20]> empty_heap.
Definition demo_build : M heap unit :=
  let* l := loom_init_begin "node.0" in
  loom_add_proc l 0 ;;;
  loom_load_metadata l (demo_md [Some (1, 4); Some (0, 7); Some (1, 4)]).
Definition demo_looms : heap := (demo_build demo_looms0).2.

Lemma demo_looms0_wf : looms_wf demo_looms0.
Proof.
  split; simpl; [intros i x E; by rewrite lookup_empty in E..|intros l lo E; by rewrite lookup_empty in E].
Qed.

Lemma demo_looms_wf : looms_wf demo_looms.
Proof.
  assert (keeps looms_wf demo_build) as K.
  { unfold demo_build. apply keeps_bind; [apply loom_init_begin_wf|]. intros l.
    apply keeps_bind; [apply loom_add_proc_wf|]. intros _. apply loom_load_metadata_wf. }
  apply K, demo_looms0_wf.
Qed.

Lemma loom_building_wf_witness :
  (loom_load_metadata 0 (demo_md [Some (2, 9); None]) demo_looms).1 = Err /\
  looms_wf (loom_load_metadata 0 (demo_md [Some (2, 9); None]) demo_looms).2.
Proof.
  split; [by vm_compute|].
  exact (proj1 (loom_building_wf 0 0 (demo_md [Some (2, 9); None]) "other" demo_looms demo_looms_wf)).
Defined.

Definition demo_lo : loom :=
  mk_loom 0 false "node.0" "node" 2 false INT_MAX 0 [(4, 1%nat); (7, 2%nat)] None 0 1 [(20, 0%nat)].
Definition demo_looms_end : heap := (loom_init_end 0 demo_looms).2.

Lemma loom_init_end_resolves_witness : loom_init_end 0 demo_looms = (Ok tt, demo_looms_end) /\
  loom_ncpus demo_lo = 2 /\
  (forall i, 0 <= i < loom_ncpus demo_lo -> exists ph c cp, loom_get_cpu 0 i demo_looms_end = (Ok (Some c), demo_looms_end) /\
     (ph, c) ∈ loom_cpus demo_lo /\ h_cpu demo_looms_end !! c = Some cp /\ cpu_index cp = i).
Proof.
  assert (loom_init_end 0 demo_looms = (Ok tt, demo_looms_end)) as E by (vm_compute; reflexivity).
  split; [exact E|]. split; [reflexivity|].
  exact (proj1 (loom_init_end_resolves 0 demo_looms demo_looms_end demo_lo demo_looms_wf
    ltac:(vm_compute; reflexivity) E)).
Defined.

Lemma proc_load_metadata_merges_witness : exists h', proc_load_metadata 0 (demo_md []) demo_looms0 = (Ok tt, h') /\
  exists pr', h_proc h' !! 0%nat = Some pr' /\ rank_wf pr' /\ proc_extends (proc_init_begin 20) pr' /\
    (forall a, md_app_id (demo_md []) = Some a -> proc_appid pr' = a /\ 0 < a) /\
    (forall r, md_rank (demo_md []) = Some r -> proc_rank pr' = r /\ md_nranks (demo_md []) = Some (proc_nranks pr')).
Proof.
  eexists. split; [vm_compute; reflexivity|].
  apply (proc_load_metadata_merges 0 (demo_md []) demo_looms0 _ (proc_init_begin 20));
    [reflexivity|by left|vm_compute; reflexivity].
Defined.
