(* ===== verification/Event.v ===== *)
(** * Events as bytes (src/rt/ovni.c, src/emu/emu_ev.c, include/ovni.h.in)

    An event is a packed C struct: a header of 12 bytes (flags, model,
    category, value, 64-bit clock) and a payload.  The runtime fills a zeroed
    struct of 28 bytes and copies the first [ovni_ev_size] of them to its
    buffer; the emulator points into the mapped stream.  Both are the list of
    the bytes from the start of the event to the end of the memory it lives in,
    so that an access past that end is undefined behaviour.  Words are
    little-endian, as on the machines the library supports. *)

From Stdlib Require Import Ascii.
From S2P Require Import Prelude.

(** ** Bytes *)

Definition byte_ok (b : Z) : Prop := 0 <= b < 256.

Fixpoint le_encode (n : nat) (z : Z) : list Z :=
  match n with
  | O => []
  | S n' => z mod 256 :: le_encode n' (z / 256)
  end.

Fixpoint le_decode (l : list Z) : Z :=
  match l with
  | [] => 0
  | b :: l' => b + 256 * le_decode l'
  end.

(** Bytes [i .. i+n-1] of a memory. *)
Definition get_bytes (i n : nat) (mem : list Z) : option (list Z) :=
  if (i + n <=? length mem)%nat then Some (take n (drop i mem)) else None.

Definition get_u (i n : nat) (mem : list Z) : option Z := le_decode <$> get_bytes i n mem.

(** [memcpy] of [bs] to offset [i]. *)
Definition put_bytes (i : nat) (bs mem : list Z) : option (list Z) :=
  if (i + length bs <=? length mem)%nat
  then Some (take i mem ++ bs ++ drop (i + length bs) mem) else None.

(** ** Accessors of an event (rt/ovni.c) *)

Definition OVNI_EV_JUMBO : Z := 16.
Definition ev_header_size : Z := 12.
Definition ev_payload_max : Z := 16.

(** [struct ovni_ev ev = {0}]. *)
Definition ev_zero : list Z := replicate 28 0.

Section Accessors.
Context {S : Type}.

Definition ev_flags (ev : list Z) : M S Z := deref (ev !! 0%nat).

Definition ovni_ev_set_clock (clock : Z) (ev : list Z) : M S (list Z) :=
  deref (put_bytes 4 (le_encode 8 clock) ev).

Definition ovni_ev_get_clock (ev : list Z) : M S Z := deref (get_u 4 8 ev).

(** [mcv] is a string of at least three characters. *)
Definition ovni_ev_set_mcv (mcv : list Z) (ev : list Z) : M S (list Z) :=
  let* m := deref (mcv !! 0%nat) in
  let* c := deref (mcv !! 1%nat) in
  let* v := deref (mcv !! 2%nat) in
  deref (put_bytes 1 [m; c; v] ev).

Definition get_jumbo_payload_size (ev : list Z) : M S Z :=
  let* size := deref (get_u 12 4 ev) in
  mret (u64 (4 + size)).

Definition ovni_payload_size (ev : list Z) : M S Z :=
  let* flags := ev_flags ev in
  if c_true (Z.land flags OVNI_EV_JUMBO) then
    let* size := get_jumbo_payload_size ev in
    mret (i32 size)
  else
    let size := Z.land flags 15 in
    if size =? 0 then mret 0 else mret (size + 1).

(** [ovni_payload_add] of the [size] bytes [buf]. *)
Definition ovni_payload_add (buf : list Z) (ev : list Z) : M S (list Z) :=
  let size := Z.of_nat (length buf) in
  let* flags := ev_flags ev in
  if c_true (Z.land flags OVNI_EV_JUMBO) then mdie else
  if size <? 2 then mdie else
  let* payload_size := ovni_payload_size ev in
  if ev_payload_max <? payload_size + size then mdie else
  let* ev1 := deref (put_bytes (12 + Z.to_nat payload_size) buf ev) in
  let payload_size' := payload_size + size in
  deref (put_bytes 0 [u8 (Z.lor (Z.land flags 240) (Z.land (payload_size' - 1) 15))] ev1).

(** The sum of two [int]: overflow is undefined. *)
Definition ovni_ev_size (ev : list Z) : M S Z :=
  let* size := ovni_payload_size ev in
  if 2 ^ 31 <=? ev_header_size + size then mub else mret (ev_header_size + size).
End Accessors.

(** ** The emulator's view of an event (emu_ev.c)

    [ee_payload] is the pointer to the payload: the bytes from there to the
    end of the stream. *)
Record emu_ev := mk_emu_ev {
  ee_m : Z; ee_c : Z; ee_v : Z;
  ee_rclock : Z; ee_sclock : Z; ee_dclock : Z;
  ee_has_payload : bool;
  ee_payload_size : Z;
  ee_is_jumbo : bool;
  ee_payload : option (list Z)
}.

(** [emu_ev(&ev, oev, sclock, dclock)]: [ev] is the structure as it was. *)
Definition emu_ev_fill {S} (ev : emu_ev) (oev : list Z) (sclock dclock : Z) : M S emu_ev :=
  let* m := deref (oev !! 1%nat) in
  let* c := deref (oev !! 2%nat) in
  let* v := deref (oev !! 3%nat) in
  let* clock := ovni_ev_get_clock oev in
  let* psize := ovni_payload_size oev in
  let* flags := ev_flags oev in
  let payload_size := u64 psize in
  if 0 <? payload_size then
    mret (mk_emu_ev m c v (i64 clock) sclock dclock true payload_size
      (if c_true (Z.land flags OVNI_EV_JUMBO) then true else ee_is_jumbo ev) (Some (drop 12 oev)))
  else
    mret (mk_emu_ev m c v (i64 clock) sclock dclock false payload_size false None).

Definition emu_ev_zero : emu_ev := mk_emu_ev 0 0 0 0 0 0 false 0 false None.

(** What the main loop sets before it calls a model (struct emu, emu.h). *)
Record ctx := mk_ctx { cx_ev : emu_ev; cx_thread : nat; cx_proc : nat; cx_loom : nat }.

(** [payload->i32[k]], [payload->u32[k]], [payload->i64[k]]. *)
Definition payload_u32 {S} (ev : emu_ev) (k : nat) : M S Z :=
  let* p := deref (ee_payload ev) in deref (get_u (4 * k) 4 p).
Definition payload_i32 {S} (ev : emu_ev) (k : nat) : M S Z :=
  let* x := payload_u32 ev k in mret (i32 x).
Definition payload_i64 {S} (ev : emu_ev) (k : nat) : M S Z :=
  let* p := deref (ee_payload ev) in
  let* x := deref (get_u (8 * k) 8 p) in mret (i64 x).

(** Character constants of the event codes. *)
Definition ch (c : ascii) : Z := Z.of_N (N_of_ascii c).
Definition is_ch (x : Z) (c : ascii) : bool := x =? ch c.

(** ** Lemmas on bytes *)

Lemma length_le_encode n z : length (le_encode n z) = n.
Proof. revert z. induction n; simpl; auto. Qed.

Lemma le_decode_encode n z : 0 <= z < 256 ^ Z.of_nat n -> le_decode (le_encode n z) = z.
Proof.
  revert z. induction n as [|n IH]; intros z Hz; simpl; [lia|].
  rewrite IH; [pose proof (Z.div_mod z 256); lia|].
  rewrite Nat2Z.inj_succ, Z.pow_succ_r in Hz by lia.
  split; [apply Z.div_pos; lia|]. apply Z.div_lt_upper_bound; lia.
Qed.

Lemma le_encode_ok n z : Forall byte_ok (le_encode n z).
Proof.
  revert z. induction n; intros z; simpl; constructor; [|done]. unfold byte_ok.
  apply Z.mod_pos_bound. lia.
Qed.

Lemma le_decode_range l : Forall byte_ok l -> 0 <= le_decode l < 256 ^ Z.of_nat (length l).
Proof.
  induction 1 as [|b l Hb _ IH]; simpl; [lia|]. unfold byte_ok in Hb.
  rewrite Nat2Z.inj_succ, Z.pow_succ_r by lia. lia.
Qed.

Lemma le_encode_decode l : Forall byte_ok l -> le_encode (length l) (le_decode l) = l.
Proof.
  induction 1 as [|b l Hb _ IH]; simpl; [done|]. unfold byte_ok in Hb.
  rewrite (Z.mul_comm 256), Z.mod_add, Z.mod_small, Z.div_add, Z.div_small by lia.
  by rewrite Z.add_0_l, IH.
Qed.

Lemma get_bytes_app i n l k : (i + n <= length l)%nat -> get_bytes i n (l ++ k) = get_bytes i n l.
Proof.
  intros H. unfold get_bytes. rewrite length_app.
  rewrite (proj2 (Nat.leb_le _ _)) by lia. rewrite (proj2 (Nat.leb_le _ _)) by lia.
  f_equal. rewrite drop_app_le by lia. by rewrite take_app_le by (rewrite length_drop; lia).
Qed.

Lemma get_bytes_ok i n l bs : Forall byte_ok l -> get_bytes i n l = Some bs ->
  Forall byte_ok bs /\ length bs = n.
Proof.
  intros Hl. unfold get_bytes. destruct (Nat.leb_spec (i + n) (length l)); [|done].
  intros [= <-]. split; [by apply Forall_take, Forall_drop|]. rewrite length_take, length_drop. lia.
Qed.

Lemma put_bytes_Some i bs l : (i + length bs <= length l)%nat ->
  exists l', put_bytes i bs l = Some l' /\ length l' = length l /\ get_bytes i (length bs) l' = Some bs /\
    (forall j m, (j + m <= i)%nat \/ (i + length bs <= j)%nat -> get_bytes j m l' = get_bytes j m l).
Proof.
  intros H. unfold put_bytes. rewrite (proj2 (Nat.leb_le _ _)) by done. eexists. split; [done|].
  assert (length (take i l ++ bs ++ drop (i + length bs) l) = length l) as HL.
  { rewrite !length_app, length_take, length_drop. lia. }
  split; [done|]. split.
  - unfold get_bytes. rewrite HL, (proj2 (Nat.leb_le _ _)) by done. f_equal.
    rewrite drop_app_ge by (rewrite length_take; lia). rewrite length_take.
    replace (i - i `min` length l)%nat with 0%nat by lia. by rewrite drop_0, take_app_length.
  - intros j m Hj. unfold get_bytes. rewrite HL. case_match eqn:Hm; [|done].
    apply Nat.leb_le in Hm. f_equal. apply list_eq. intros k.
    destruct (decide (k < m)%nat) as [Hk|Hk]; [|rewrite !lookup_ge_None_2; try done; rewrite length_take; lia].
    rewrite !lookup_take_lt, !lookup_drop by lia. destruct Hj as [Hj|Hj].
    + rewrite lookup_app_l by (rewrite length_take; lia). rewrite lookup_take_lt by lia. done.
    + rewrite lookup_app_r by (rewrite length_take; lia). rewrite length_take.
      rewrite lookup_app_r by lia. rewrite lookup_drop. f_equal. lia.
Qed.

(** ** The size of an event *)

(** Payload size encoded in the flags of an event that is not jumbo. *)
Definition flags_size (f : Z) : Z := if Z.land f 15 =? 0 then 0 else Z.land f 15 + 1.

Lemma land_15 f : 0 <= Z.land f 15 <= 15.
Proof.
  change 15 with (Z.ones 4) at 1 2. rewrite Z.land_ones by lia.
  pose proof (Z.mod_pos_bound f (2 ^ 4)). lia.
Qed.

Lemma flags_size_range f : 0 <= flags_size f <= 16.
Proof. unfold flags_size. pose proof (land_15 f). case_match; lia. Qed.

Lemma ev_size_plain {S} f l (s : S) : Z.land f OVNI_EV_JUMBO = 0 ->
  ovni_ev_size (f :: l) s = (Ok (12 + flags_size f), s).
Proof.
  intros Hj. unfold ovni_ev_size, ovni_payload_size, ev_flags. pose proof (flags_size_range f) as Hr.
  unfold mbind, deref; simpl. rewrite Hj; simpl. unfold flags_size in *.
  destruct (Z.land f 15 =? 0) eqn:E; simpl; [done|].
  rewrite (proj2 (Z.leb_gt _ _)); [done|]. unfold ev_header_size. lia.
Qed.

(** A record of a stream: its bytes say its own size, whatever follows. *)
Definition sized (b : list Z) : Prop :=
  Forall byte_ok b /\ (12 <= length b)%nat /\
  forall (S : Type) (s : S) rest, ovni_ev_size (b ++ rest) s = (Ok (Z.of_nat (length b)), s).

(** A structure filled by the library, not jumbo yet. *)
Definition ev_struct (ev : list Z) : Prop :=
  length ev = 28%nat /\ Forall byte_ok ev /\ exists f l, ev = f :: l /\ Z.land f OVNI_EV_JUMBO = 0.

(** The bytes of the structure that are written. *)
Definition ev_size (ev : list Z) : Z := 12 + flags_size (default 0 (head ev)).
Definition ev_bytes (ev : list Z) : list Z := take (Z.to_nat (ev_size ev)) ev.

Lemma ev_struct_size {S} ev (s : S) : ev_struct ev -> ovni_ev_size ev s = (Ok (ev_size ev), s) /\ 12 <= ev_size ev <= 28.
Proof.
  intros (Hl & Hb & f & l & -> & Hj). rewrite ev_size_plain by done. split; [done|].
  unfold ev_size; simpl. pose proof (flags_size_range f). lia.
Qed.

Lemma ev_bytes_sized ev : ev_struct ev -> sized (ev_bytes ev) /\ Z.of_nat (length (ev_bytes ev)) = ev_size ev.
Proof.
  intros Hs. destruct (ev_struct_size ev tt Hs) as [_ Hr]. destruct Hs as (Hl & Hb & f & l & -> & Hj).
  assert (Z.of_nat (length (ev_bytes (f :: l))) = ev_size (f :: l)) as Hlen.
  { unfold ev_bytes. rewrite length_take. lia. }
  split; [|done]. split; [by apply list.Forall_take|]. split; [lia|].
  intros S s rest. rewrite Hlen. unfold ev_bytes.
  destruct (Z.to_nat (ev_size (f :: l))) as [|k] eqn:E; [lia|]. simpl.
  rewrite ev_size_plain by done. done.
Qed.

(** *** Adding to the payload *)

Lemma land_mask a m k : Z.land m k = m -> Z.land (Z.land a m) k = Z.land a m.
Proof. intros E. by rewrite <- Z.land_assoc, E. Qed.

Definition flags_with (f n : Z) : Z := u8 (Z.lor (Z.land f 240) (Z.land (n - 1) 15)).

Lemma u8_land z : u8 z = Z.land z 255.
Proof. unfold u8, wrapu. change 255 with (Z.ones 8). by rewrite Z.land_ones. Qed.

Lemma flags_with_spec f n : 2 <= n <= 16 -> byte_ok f -> byte_ok (flags_with f n) /\
  flags_size (flags_with f n) = n /\ Z.land (flags_with f n) OVNI_EV_JUMBO = Z.land f OVNI_EV_JUMBO.
Proof.
  intros Hn Hf. unfold flags_with. rewrite u8_land, Z.land_lor_distr_l, !land_mask by done.
  assert (Z.land (n - 1) 15 = n - 1) as E15.
  { change 15 with (Z.ones 4). rewrite Z.land_ones by lia. apply Z.mod_small. lia. }
  assert (Z.land (Z.lor (Z.land f 240) (Z.land (n - 1) 15)) 15 = n - 1) as El.
  { rewrite Z.land_lor_distr_l, <- Z.land_assoc. change (Z.land 240 15) with 0.
    by rewrite Z.land_0_r, Z.lor_0_l, land_mask by done. }
  assert (Z.land (Z.lor (Z.land f 240) (Z.land (n - 1) 15)) 16 = Z.land f 16) as Ej.
  { rewrite Z.land_lor_distr_l, <- !Z.land_assoc. change (Z.land 240 16) with 16. change (Z.land 15 16) with 0.
    by rewrite Z.land_0_r, Z.lor_0_r. }
  split; [|split; [|exact Ej]].
  - rewrite <- (land_mask f 240 255), <- (land_mask (n - 1) 15 255), <- Z.land_lor_distr_l by done.
    change 255 with (Z.ones 8). rewrite Z.land_ones by lia. unfold byte_ok. apply Z.mod_pos_bound. lia.
  - unfold flags_size. rewrite El. rewrite (proj2 (Z.eqb_neq _ _)) by lia. lia.
Qed.

(** The payload bytes of a structure. *)
Definition payload_of (ev : list Z) : list Z := take (Z.to_nat (ev_size ev - 12)) (drop 12 ev).

Lemma ev_size_flags f l : ev_size (f :: l) = 12 + flags_size f.
Proof. done. Qed.

Lemma take_drop_app {A} k n (l buf rest : list A) : (k + n <= length l)%nat ->
  take (n + length buf) (drop k (take (k + n) l ++ buf ++ rest)) = take n (drop k l) ++ buf.
Proof.
  intros H. rewrite drop_app_le by (rewrite length_take; lia). rewrite skipn_firstn_comm.
  replace (k + n - k)%nat with n by lia. rewrite app_assoc. rewrite take_app_le by (rewrite length_app, length_take, length_drop; lia).
  apply take_ge. rewrite length_app, length_take, length_drop. lia.
Qed.

Lemma payload_add_run {S} buf ev (s : S) : ev_struct ev -> Forall byte_ok buf -> 2 <= Z.of_nat (length buf) ->
  ev_size ev + Z.of_nat (length buf) <= 28 ->
  exists ev', ovni_payload_add buf ev s = (Ok ev', s) /\ ev_struct ev' /\
    ev_size ev' = ev_size ev + Z.of_nat (length buf) /\
    take 11 (drop 1 ev') = take 11 (drop 1 ev) /\ payload_of ev' = payload_of ev ++ buf /\
    head ev' = Some (flags_with (default 0 (head ev)) (ev_size ev - 12 + Z.of_nat (length buf))).
Proof.
  intros Hs Hbuf H2 Hroom. pose proof (proj2 (ev_struct_size ev s Hs)) as Hr.
  destruct Hs as (Hl & Hb & f & l & -> & Hj). apply list.Forall_cons in Hb as [Hf Hbl]. simpl in Hl.
  rewrite ev_size_flags in *. pose proof (flags_size_range f) as Hfr.
  unfold ovni_payload_add, ev_flags. rewrite (mbind_run _ _ _ f s) by done. rewrite Hj; simpl.
  rewrite (proj2 (Z.ltb_ge _ _)) by lia.
  assert (@ovni_payload_size S (f :: l) s = (Ok (flags_size f), s)) as Eps.
  { unfold ovni_payload_size, ev_flags, mbind, deref; simpl. rewrite Hj; simpl. unfold flags_size. by case_match. }
  rewrite (mbind_run _ _ _ _ _ Eps). unfold ev_payload_max. rewrite (proj2 (Z.ltb_ge _ _)) by lia.
  set (n := Z.to_nat (flags_size f)) in *.
  assert (put_bytes (12 + n) buf (f :: l) = Some (f :: take (11 + n) l ++ buf ++ drop (11 + n + length buf) l)) as Eput.
  { unfold put_bytes. rewrite (proj2 (Nat.leb_le _ _)) by (simpl; lia). done. }
  simpl Nat.add in Eput. rewrite Eput. erewrite mbind_run; [|reflexivity].
  unfold put_bytes. simpl. set (g := flags_with f (flags_size f + Z.of_nat (length buf))).
  exists (g :: drop 0 (take (11 + n) l ++ buf ++ drop (11 + n + length buf) l)).
  split; [done|]. rewrite drop_0.
  destruct (flags_with_spec f (flags_size f + Z.of_nat (length buf))) as (Hg1 & Hg2 & Hg3); [lia|done|]. fold g in Hg1, Hg2, Hg3.
  split_and!.
  - split; [|split].
    + simpl. rewrite !length_app, length_take, length_drop. lia.
    + constructor; [done|]. apply list.Forall_app. split; [by apply list.Forall_take|]. apply Forall_app.
      split; [done|by apply Forall_drop].
    + eexists _, _. split; [done|]. by rewrite Hg3.
  - rewrite ev_size_flags. lia.
  - simpl. rewrite !drop_0. rewrite take_app_le by (rewrite length_take; lia). by rewrite take_take.
  - unfold payload_of. rewrite !ev_size_flags, Hg2. simpl.
    replace (Z.to_nat (12 + (flags_size f + Z.of_nat (length buf)) - 12)) with (n + length buf)%nat by lia.
    replace (Z.to_nat (12 + flags_size f - 12)) with n by lia.
    apply take_drop_app; lia.
  - unfold g. simpl. do 2 f_equal. unfold ev_size; simpl. lia.
Qed.

(** ** The emulator's view *)

Lemma sized_payload_size {S} b rest (s : S) : sized b ->
  ovni_payload_size (b ++ rest) s = (Ok (Z.of_nat (length b) - 12), s).
Proof.
  intros (_ & _ & H). specialize (H S s rest). unfold ovni_ev_size in H.
  apply mbind_Ok in H as (size & s1 & E & H). rewrite E. destruct (2 ^ 31 <=? _); [done|].
  injection H as H <-. unfold ev_header_size in H. do 2 f_equal. lia.
Qed.

Lemma lookup_byte (b rest : list Z) i : (i < length b)%nat -> (b ++ rest) !! i = Some (b !!! i).
Proof. intros Hi. rewrite lookup_app_l by done. by apply list_lookup_lookup_total_lt. Qed.

(** The event of a record, after the event [ev]. *)
Definition rec_event (ev : emu_ev) (b rest : list Z) (sclock dclock : Z) : emu_ev :=
  let psize := Z.of_nat (length b) - 12 in
  mk_emu_ev (b !!! 1%nat) (b !!! 2%nat) (b !!! 3%nat) (i64 (le_decode (take 8 (drop 4 b)))) sclock dclock
    (0 <? psize) psize
    ((0 <? psize) && (c_true (Z.land (b !!! 0%nat) OVNI_EV_JUMBO) || ee_is_jumbo ev))
    (if 0 <? psize then Some (drop 12 b ++ rest) else None).

Lemma sized_bound b : sized b -> Z.of_nat (length b) < 2 ^ 31.
Proof.
  intros Hz. pose proof (sized_payload_size b [] tt Hz) as Ep. destruct Hz as (_ & _ & H). specialize (H unit tt []).
  unfold ovni_ev_size in H. rewrite (mbind_run _ _ _ _ _ Ep) in H. unfold ev_header_size in H.
  destruct (Z.leb_spec (2 ^ 31) (12 + (Z.of_nat (length b) - 12))); [done|lia].
Qed.

Lemma emu_ev_fill_run {S} ev b rest sclock dclock (s : S) : sized b ->
  emu_ev_fill ev (b ++ rest) sclock dclock s = (Ok (rec_event ev b rest sclock dclock), s).
Proof.
  intros Hz. pose proof (sized_bound b Hz) as Hlen. pose proof (proj1 (proj2 Hz)) as Hl. unfold emu_ev_fill, rec_event.
  rewrite !lookup_byte by lia. do 3 rewrite (mbind_run (deref (Some _)) _ s _ s eq_refl).
  assert (ovni_ev_get_clock (b ++ rest) s = (Ok (le_decode (take 8 (drop 4 b))), s)) as Ec.
  { unfold ovni_ev_get_clock, get_u. rewrite get_bytes_app by lia. unfold get_bytes.
    by rewrite (proj2 (Nat.leb_le _ _)) by lia. }
  rewrite (mbind_run _ _ _ _ _ Ec), (mbind_run _ _ _ _ _ (sized_payload_size b rest s Hz)).
  unfold ev_flags. rewrite lookup_byte by lia. rewrite (mbind_run (deref (Some _)) _ s _ s eq_refl). cbv zeta.
  assert (u64 (Z.of_nat (length b) - 12) = Z.of_nat (length b) - 12) as -> by (apply wrapu_id; unfold in_u; lia).
  destruct (0 <? _); simpl; [|done]. rewrite drop_app_le by lia. by destruct (c_true _).
Qed.

(** ** Properties *)

(** C26. What the emulator sees of a record: its model, category, value, clock and
    payload, with the two clocks of the player.  The jumbo mark is the flag of
    the record, or what it was for the event before if that was a jumbo event
    and this one has a payload: it is only cleared by an event without one. *)
Theorem emu_ev_of_record {S} ev b rest sclock dclock (s : S) : sized b ->
  let psize := Z.of_nat (length b) - 12 in
  emu_ev_fill ev (b ++ rest) sclock dclock s =
  (Ok (mk_emu_ev (b !!! 1%nat) (b !!! 2%nat) (b !!! 3%nat) (i64 (le_decode (take 8 (drop 4 b)))) sclock dclock
    (0 <? psize) psize
    ((0 <? psize) && (c_true (Z.land (b !!! 0%nat) OVNI_EV_JUMBO) || ee_is_jumbo ev))
    (if 0 <? psize then Some (drop 12 b ++ rest) else None)), s).
Proof. apply emu_ev_fill_run. Qed.

(** A mark with a payload of twelve bytes, after a jumbo event. *)
Lemma emu_ev_of_record_witness :
  emu_ev_fill (mk_emu_ev 1 2 3 0 0 0 true 20 true None) ([11; 79; 77; 91] ++ replicate 20 0) 5 6 tt =
  (Ok (mk_emu_ev 79 77 91 0 5 6 true 12 true (Some (replicate 12 0))), tt).
Proof.
  pose (ev := [11; 79; 77; 91] ++ replicate 24 0).
  assert (sized ([11; 79; 77; 91] ++ replicate 20 0)) as Hz.
  { apply (ev_bytes_sized ev). split; [done|]. split; [by repeat constructor|]. by eexists _, _. }
  pose proof (emu_ev_of_record (mk_emu_ev 1 2 3 0 0 0 true 20 true None) _ [] 5 6 tt Hz) as E.
  rewrite app_nil_r in E. exact E.
Defined.
