(* ===== verification/Cstr.v ===== *)
(** * C strings (the functions of ctype.h, stdlib.h, string.h and stdio.h the sources call)

    A C string is the characters before its nul, in the C locale.  [printf]
    covers the conversions of one argument that the descriptions of the events
    use: integers in decimal, hexadecimal and octal, and strings, with flags,
    a width and a length; a conversion that does not match its argument, or
    that the standard does not define, is [None]. *)

From Stdlib Require Import Ascii.
From S2P Require Import Prelude Event.

(** ** Characters *)

Definition is_digit (c : ascii) : bool := (48 <=? ch c) && (ch c <=? 57).
Definition isgraph (c : ascii) : bool := (33 <=? ch c) && (ch c <=? 126).
Definition isalpha (c : ascii) : bool := ((65 <=? ch c) && (ch c <=? 90)) || ((97 <=? ch c) && (ch c <=? 122)).
Definition isalnum (c : ascii) : bool := is_digit c || isalpha c.
Definition byte_char (b : Z) : ascii := ascii_of_N (Z.to_N b).
Definition slen (s : string) : Z := Z.of_nat (String.length s).

(** ** Numbers *)

(** The digits of [strtol] in base 10, after the sign; [None] if there are none
    or something follows them. *)
Fixpoint digits (acc : Z) (s : string) : option Z :=
  match s with
  | EmptyString => Some acc
  | String c s' => if is_digit c then digits (acc * 10 + (ch c - 48)) s' else None
  end.

Definition is_space (c : ascii) : bool := (ch c =? 32) || ((9 <=? ch c) && (ch c <=? 13)).

Fixpoint skip_spaces (s : string) : string :=
  match s with
  | String c s' => if is_space c then skip_spaces s' else s
  | EmptyString => EmptyString
  end.

(** [strtol] of a whole string, with the overflow it reports in errno. *)
Definition strtol (s : string) : option Z :=
  let range z := if (- 2 ^ 63 <=? z) && (z <? 2 ^ 63) then Some z else None in
  match skip_spaces s with
  | EmptyString => None
  | String "-" EmptyString | String "+" EmptyString => None
  | String "-" s' => z ← digits 0 s'; range (- z)
  | String "+" s' => z ← digits 0 s'; range z
  | s' => z ← digits 0 s'; range z
  end.

(** [strtok_r]: skip the delimiters, take the token, drop the one after it. *)
Fixpoint mem_char (c : ascii) (delim : string) : bool :=
  match delim with EmptyString => false | String d delim' => bool_decide (c = d) || mem_char c delim' end.
Fixpoint skip_delim (delim s : string) : string :=
  match s with
  | String c s' => if mem_char c delim then skip_delim delim s' else s
  | EmptyString => EmptyString
  end.
Fixpoint take_token (delim s : string) : string * string :=
  match s with
  | EmptyString => (EmptyString, EmptyString)
  | String c s' =>
      if mem_char c delim then (EmptyString, s')
      else let '(t, r) := take_token delim s' in (String c t, r)
  end.
Definition strtok (delim s : string) : option (string * string) :=
  match skip_delim delim s with EmptyString => None | s' => Some (take_token delim s') end.

(** ** Text of a number *)

(** The digits of [z] in a base, with [acc] after them. *)
Definition digit_char (upper : bool) (d : Z) : ascii :=
  byte_char (if d <? 10 then 48 + d else (if upper then 55 else 87) + d).

Fixpoint to_base (fuel : nat) (upper : bool) (base z : Z) (acc : string) : string :=
  match fuel with
  | O => acc
  | S fuel' =>
      let acc' := String (digit_char upper (z mod base)) acc in
      if z <? base then acc' else to_base fuel' upper base (z / base) acc'
  end.

(** A number of 64 bits has at most 64 digits in any base. *)
Definition number (upper : bool) (base z : Z) : string := to_base 64 upper base z EmptyString.

Fixpoint repeat_char (n : nat) (c : ascii) : string :=
  match n with O => EmptyString | S n' => String c (repeat_char n' c) end.

(** ** Conversions of printf *)

Record flags := mk_flags { fl_alt : bool; fl_zero : bool; fl_left : bool; fl_space : bool; fl_plus : bool }.
Definition no_flags : flags := mk_flags false false false false false.

Fixpoint parse_flags (f : flags) (s : string) : flags * string :=
  match s with
  | String "#" s' => parse_flags (mk_flags true (fl_zero f) (fl_left f) (fl_space f) (fl_plus f)) s'
  | String "0" s' => parse_flags (mk_flags (fl_alt f) true (fl_left f) (fl_space f) (fl_plus f)) s'
  | String "-" s' => parse_flags (mk_flags (fl_alt f) (fl_zero f) true (fl_space f) (fl_plus f)) s'
  | String " " s' => parse_flags (mk_flags (fl_alt f) (fl_zero f) (fl_left f) true (fl_plus f)) s'
  | String "+" s' => parse_flags (mk_flags (fl_alt f) (fl_zero f) (fl_left f) (fl_space f) true) s'
  | _ => (f, s)
  end.

Fixpoint parse_width (acc : Z) (s : string) : Z * string :=
  match s with
  | String c s' => if is_digit c then parse_width (acc * 10 + (ch c - 48)) s' else (acc, s)
  | EmptyString => (acc, s)
  end.

(** How many bits the conversion takes from the argument list, and how many of
    them it keeps. *)
Definition parse_length (s : string) : (Z * Z) * string :=
  match s with
  | String "h" (String "h" s') => ((32, 8), s')
  | String "h" s' => ((32, 16), s')
  | String "l" (String "l" s') => ((64, 64), s')
  | String "l" s' => ((64, 64), s')
  | _ => ((32, 32), s)
  end.

(** What is passed: an integer of 32 or 64 bits (after its promotion), or a string. *)
Inductive printf_arg := AInt (width z : Z) | AStr (s : string).

Definition signed (w z : Z) : Z := (z + 2 ^ (w - 1)) mod 2 ^ w - 2 ^ (w - 1).

(** The sign or prefix, the text, and the padding to the width. *)
Definition pad (f : flags) (width : Z) (prefix body : string) : string :=
  let n := Z.to_nat (width - slen prefix - slen body) in
  if fl_left f then (prefix ++ body ++ repeat_char n " ")%string
  else if fl_zero f then (prefix ++ repeat_char n "0" ++ body)%string
  else (repeat_char n " " ++ prefix ++ body)%string.

Definition signed_text (f : flags) (width z : Z) : string :=
  let prefix := if z <? 0 then "-" else if fl_plus f then "+" else if fl_space f then " " else EmptyString in
  pad f width prefix (number false 10 (Z.abs z)).

Definition hex_prefix (x : ascii) (f : flags) (z : Z) : string :=
  if fl_alt f && negb (z =? 0) then String "0" (String x EmptyString) else EmptyString.

Definition unsigned_text (f : flags) (width : Z) (conv : ascii) (z : Z) : option string :=
  match conv with
  | "u"%char => if fl_alt f then None else Some (pad f width EmptyString (number false 10 z))
  | "x"%char => Some (pad f width (hex_prefix "x" f z) (number false 16 z))
  | "X"%char => Some (pad f width (hex_prefix "X" f z) (number true 16 z))
  | "o"%char => Some (pad f width EmptyString (if fl_alt f && negb (z =? 0) then String "0" (number false 8 z) else number false 8 z))
  | _ => None
  end.

(** One conversion specification, from after its percent, and what follows it. *)
Definition conversion (s : string) (a : printf_arg) : option (string * string) :=
  let '(f, s) := parse_flags no_flags s in
  let '(width, s) := parse_width 0 s in
  let '((taken, kept), s) := parse_length s in
  match s, a with
  | String "s" rest, AStr str =>
      if (taken =? 32) && (kept =? 32) && negb (fl_alt f) && negb (fl_zero f)
      then Some (pad f width EmptyString str, rest) else None
  | String conv rest, AInt w z =>
      if negb (w =? taken) then None else
      if bool_decide (conv = "d"%char) || bool_decide (conv = "i"%char)
      then if fl_alt f then None else Some (signed_text f width (signed kept z), rest)
      else text ← unsigned_text f width conv (z mod 2 ^ kept); Some (text, rest)
  | _, _ => None
  end.

(** What follows the only conversion: characters and doubled percents. *)
Fixpoint printf_tail (s : string) : option string :=
  match s with
  | EmptyString => Some EmptyString
  | String "%" (String "%" s') => r ← printf_tail s'; Some (String "%" r)
  | String "%" _ => None
  | String c s' => r ← printf_tail s'; Some (String c r)
  end.

(** [sprintf(fmt, a)], for a format that starts with its only conversion. *)
Definition printf (fmt : string) (a : printf_arg) : option string :=
  match fmt with
  | String "%" s =>
      '(text, rest) ← conversion s a;
      tail ← printf_tail rest;
      Some (text ++ tail)%string
  | _ => None
  end.

(** ** Reading back what was printed *)

Lemma ch_byte b : 0 <= b < 256 -> ch (byte_char b) = b.
Proof. intros Hb. unfold ch, byte_char. rewrite N_ascii_embedding; lia. Qed.

Lemma digit_char_digit u d :
  0 <= d < 10 -> is_digit (digit_char u d) = true /\ ch (digit_char u d) = 48 + d.
Proof.
  intros Hd. unfold digit_char. rewrite (proj2 (Z.ltb_lt d 10)) by lia.
  unfold is_digit. rewrite ch_byte by lia. split; [|done]. apply andb_true_intro; split; apply Z.leb_le; lia.
Qed.

Lemma digits_to_base fuel u z acc :
  0 <= z < 10 ^ Z.of_nat fuel ->
  exists k, 0 <= k /\ forall a, digits a (to_base fuel u 10 z acc) = digits (a * 10 ^ k + z) acc.
Proof.
  revert z acc. induction fuel as [|fuel IH]; intros z acc Hz.
  - exists 0. split; [done|]. intros a. simpl. f_equal. simpl in Hz. lia.
  - pose proof (Z.div_mod z 10 ltac:(done)) as Hdiv. pose proof (Z.mod_pos_bound z 10 ltac:(done)) as Hmod.
    destruct (digit_char_digit u (z mod 10) Hmod) as [Hd Hc].
    change (to_base (S fuel) u 10 z acc) with
      (if z <? 10 then String (digit_char u (z mod 10)) acc
       else to_base fuel u 10 (z / 10) (String (digit_char u (z mod 10)) acc)).
    destruct (Z.ltb_spec z 10) as [Hlt|Hge].
    + exists 1. split; [done|]. intros a. cbn [digits]. rewrite Hd, Hc. f_equal. lia.
    + destruct (IH (z / 10) (String (digit_char u (z mod 10)) acc)) as (k & Hk & Hr).
      { rewrite Nat2Z.inj_succ, Z.pow_succ_r in Hz by lia. split; [apply Z.div_pos|apply Z.div_lt_upper_bound]; lia. }
      exists (k + 1). split; [lia|]. intros a. rewrite Hr. cbn [digits]. rewrite Hd, Hc. f_equal.
      rewrite Z.pow_add_r by lia. lia.
Qed.

Lemma digits_number u z : 0 <= z < 2 ^ 64 -> digits 0 (number u 10 z) = Some z.
Proof.
  intros Hz. destruct (digits_to_base 64 u z EmptyString) as (k & _ & Hk); [|].
  { change (10 ^ Z.of_nat 64) with (10 ^ 64). lia. }
  unfold number. rewrite Hk. simpl. f_equal; lia.
Qed.

Lemma to_base_head fuel u z acc :
  0 <= z -> (0 < fuel)%nat -> exists c s, to_base fuel u 10 z acc = String c s /\ is_digit c = true.
Proof.
  revert z acc. induction fuel as [|fuel IH]; intros z acc Hz Hf; [lia|].
  pose proof (Z.mod_pos_bound z 10 ltac:(done)) as Hmod.
  destruct (digit_char_digit u (z mod 10) Hmod) as [Hd _].
  change (to_base (S fuel) u 10 z acc) with
    (if z <? 10 then String (digit_char u (z mod 10)) acc
     else to_base fuel u 10 (z / 10) (String (digit_char u (z mod 10)) acc)).
  destruct (z <? 10); [by eauto|]. destruct fuel; [simpl; by eauto|]. apply IH; [apply Z.div_pos|]; lia.
Qed.

Lemma skip_spaces_digit c s : is_digit c = true -> skip_spaces (String c s) = String c s.
Proof.
  intros Hc. simpl. assert (is_space c = false) as ->; [|done].
  unfold is_digit in Hc. apply andb_true_iff in Hc as [H1 H2].
  apply Z.leb_le in H1, H2. unfold is_space. apply orb_false_iff. split; [apply Z.eqb_neq; lia|].
  apply andb_false_iff. right. apply Z.leb_gt. lia.
Qed.

Lemma strtol_digit c s :
  is_digit c = true ->
  strtol (String c s) = z ← digits 0 (String c s); if (- 2 ^ 63 <=? z) && (z <? 2 ^ 63) then Some z else None.
Proof.
  intros Hc. unfold strtol. rewrite (skip_spaces_digit _ _ Hc).
  assert (c <> "-"%char) by (intros ->; discriminate). assert (c <> "+"%char) by (intros ->; discriminate).
  destruct c as [[] [] [] [] [] [] [] []]; try done; destruct s; done.
Qed.

(** What [strtol] reads, when it fits in a [long]. *)
Definition in_long (z : Z) : option Z := if (- 2 ^ 63 <=? z) && (z <? 2 ^ 63) then Some z else None.

Lemma strtol_number z : 0 <= z < 2 ^ 64 -> strtol (number false 10 z) = in_long z.
Proof.
  intros Hz. pose proof (digits_number false z Hz) as Hd.
  destruct (to_base_head 64 false z EmptyString) as (c & s & E & Hc); [lia..|].
  unfold number in *. rewrite E in *. rewrite (strtol_digit _ _ Hc), Hd. done.
Qed.

Lemma strtol_minus z : 0 <= z < 2 ^ 64 -> strtol (String "-" (number false 10 z)) = in_long (- z).
Proof.
  intros Hz. pose proof (digits_number false z Hz) as Hd.
  destruct (to_base_head 64 false z EmptyString) as (c & s & E & Hc); [lia..|].
  unfold number in *. rewrite E in *. unfold strtol. simpl skip_spaces. cbn -[digits] in *. rewrite Hd. done.
Qed.

(** ** How long it is *)

Lemma slen_app s t : slen (s ++ t) = slen s + slen t.
Proof.
  unfold slen. induction s as [|c s IH]; [done|].
  change (String c s ++ t)%string with (String c (s ++ t)). cbn [String.length]. lia.
Qed.

Lemma to_base_length fuel u base z acc k :
  1 < base -> 0 <= z < base ^ Z.of_nat (S k) -> slen (to_base fuel u base z acc) <= Z.of_nat (S k) + slen acc.
Proof.
  intros Hb. revert z acc k. induction fuel as [|fuel IH]; intros z acc k Hz; [simpl; lia|].
  change (to_base (S fuel) u base z acc) with
    (if z <? base then String (digit_char u (z mod base)) acc
     else to_base fuel u base (z / base) (String (digit_char u (z mod base)) acc)).
  assert (slen (String (digit_char u (z mod base)) acc) = 1 + slen acc) as Hs by (unfold slen; simpl; lia).
  destruct (Z.ltb_spec z base) as [Hlt|Hge]; [lia|].
  destruct k as [|k]; [rewrite Z.pow_1_r in Hz; lia|].
  assert (0 <= z / base < base ^ Z.of_nat (S k)) as Hq.
  { rewrite (Nat2Z.inj_succ (S k)), Z.pow_succ_r in Hz by lia.
    split; [apply Z.div_pos|apply Z.div_lt_upper_bound]; lia. }
  specialize (IH _ (String (digit_char u (z mod base)) acc) k Hq). lia.
Qed.
