(* ===== verification/EvSpec.v ===== *)
(** * Event declarations (src/emu/ev_spec.c, src/emu/model_evspec.c)

    A model declares its events as pairs of a signature, like
    [OHC(i32 cpu, u64 tag)], and a description with the arguments in it, like
    [creates a new thread on CPU %{cpu}].  [ev_spec_compile] reads the signature
    into the layout of the payload, and [ev_spec_print] writes the description
    with the values of the payload of an event. *)

From Stdlib Require Import Ascii.
From S2P Require Import Prelude Event Cstr.

(** ** Data (ev_spec.h) *)

Record ev_decl := mk_ev_decl { ed_signature : string; ed_description : string }.

Inductive ev_arg_type := U8 | U16 | U32 | U64 | I8 | I16 | I32 | I64 | STR.
#[export] Instance ev_arg_type_eq_dec : EqDecision ev_arg_type.
Proof. solve_decision. Defined.

Definition MAX_ARGS : Z := 16.

Record ev_arg := mk_ev_arg { arg_size : Z; arg_offset : Z; arg_type : ev_arg_type; arg_name : string }.

(** [nargs] is the length of [args]. *)
Record ev_spec := mk_ev_spec {
  es_mcv : string;
  es_is_jumbo : bool;
  es_args : list ev_arg;
  es_payload_size : Z;
  es_description : string
}.

Definition ev_spec_zero : ev_spec := mk_ev_spec EmptyString false [] 0 EmptyString.

(** The types in the order of the enumeration. *)
Definition ev_arg_types : list ev_arg_type := [U8; U16; U32; U64; I8; I16; I32; I64; STR].

Definition type_name (t : ev_arg_type) : string :=
  match t with
  | U8 => "u8" | U16 => "u16" | U32 => "u32" | U64 => "u64"
  | I8 => "i8" | I16 => "i16" | I32 => "i32" | I64 => "i64" | STR => "str"
  end.

(** The macros PRI of a system where [int64_t] is [long]. *)
Definition type_fmt (t : ev_arg_type) : string :=
  match t with
  | U8 | U16 | U32 => "%u" | U64 => "%lu"
  | I8 | I16 | I32 => "%d" | I64 => "%ld" | STR => "%s"
  end.

Definition type_size (t : ev_arg_type) : Z :=
  match t with U8 | I8 => 1 | U16 | I16 => 2 | U32 | I32 => 4 | U64 | I64 => 8 | STR => 0 end.

(** The pairs of events. *)
Definition PAIR_E (mcv1 mcv2 desc : string) : list ev_decl :=
  [mk_ev_decl mcv1 ("enters " ++ desc); mk_ev_decl mcv2 ("leaves " ++ desc)].
Definition PAIR_B (mcv1 mcv2 desc : string) : list ev_decl :=
  [mk_ev_decl mcv1 ("begins " ++ desc); mk_ev_decl mcv2 ("ceases " ++ desc)].
Definition PAIR_S (mcv1 mcv2 desc : string) : list ev_decl :=
  [mk_ev_decl mcv1 ("starts " ++ desc); mk_ev_decl mcv2 ("stops  " ++ desc)].

(** ** Compiling a declaration *)

Definition parse_type (type : string) : option ev_arg_type :=
  List.find (fun t => String.eqb type (type_name t)) ev_arg_types.

Definition parse_arg (arg : string) : M ev_spec unit :=
  let* spec := mget in
  require (Z.of_nat (length (es_args spec)) <? MAX_ARGS) ;;;
  let* type := found (strtok " " arg) in
  let* name := found (strtok " " type.2) in
  require (slen name.1 <? 64) ;;;
  let* t := found (parse_type type.1) in
  mput (mk_ev_spec (es_mcv spec) (es_is_jumbo spec)
    (es_args spec ++ [mk_ev_arg (type_size t) (es_payload_size spec) t name.1])
    (es_payload_size spec + type_size t) (es_description spec)).

(** The loop over the arguments; every token takes a character at least. *)
Fixpoint args_loop (fuel : nat) (rest : string) : M ev_spec unit :=
  match strtok ",)" rest with
  | None => mret tt
  | Some (arg, rest') =>
      match fuel with
      | O => mfuel
      | S fuel' => parse_arg arg ;;; args_loop fuel' rest'
      end
  end.

(** [paren] is the text after the parenthesis. *)
Definition parse_args (paren : string) : M ev_spec unit :=
  mmod (fun spec => mk_ev_spec (es_mcv spec) (es_is_jumbo spec) (es_args spec)
    (if es_is_jumbo spec then 4 else 0) (es_description spec)) ;;;
  args_loop (String.length paren) paren.

Definition is_mcv_valid (m c v : ascii) : bool := isgraph m && isgraph c && isgraph v.

Definition parse_signature (sig : string) : M ev_spec unit :=
  match sig with
  | String m (String c (String v next)) =>
      require (is_mcv_valid m c v) ;;;
      mmod (fun spec => mk_ev_spec (String m (String c (String v EmptyString))) (es_is_jumbo spec) (es_args spec)
        (es_payload_size spec) (es_description spec)) ;;;
      let '(jumbo, next) := match next with String "+" n => (true, n) | _ => (false, next) end in
      mmod (fun spec => mk_ev_spec (es_mcv spec) jumbo (es_args spec) (es_payload_size spec) (es_description spec)) ;;;
      match next with
      | EmptyString => require (negb jumbo)
      | String "(" args =>
          parse_args args ;;;
          let* spec := mget in
          require (negb (length (es_args spec) =? 0)%nat)
      | _ => mfail
      end
  | _ => mfail
  end.

(** The result is the structure that was filled, when it was. *)
Definition ev_spec_compile (decl : ev_decl) : outcome ev_spec :=
  if 256 <=? slen (ed_signature decl) then Err else
  match parse_signature (ed_signature decl) ev_spec_zero with
  | (Ok _, spec) =>
      Ok (mk_ev_spec (es_mcv spec) (es_is_jumbo spec) (es_args spec) (es_payload_size spec) (ed_description decl))
  | (Err, _) => Err
  | (Die, _) => Die
  | (Ub, _) => Ub
  | (Fuel, _) => Fuel
  end.

Definition ev_spec_find_arg (spec : ev_spec) (name : string) : option ev_arg :=
  List.find (fun arg => String.eqb (arg_name arg) name) (es_args spec).

(** ** The events of a model (model_evspec.c) *)

Record model_evspec := mk_model_evspec {
  mev_spec : gmap string ev_spec;
  mev_nevents : Z;
  mev_alloc : list ev_spec
}.

Definition model_evspec_find (evspec : model_evspec) (mcv : string) : option ev_spec := mev_spec evspec !! mcv.

Definition first_char (s : string) : Z := match s with String c _ => ch c | EmptyString => 0 end.

Fixpoint evspec_loop (model : Z) (evlist : list ev_decl) (evspec : model_evspec) : outcome model_evspec :=
  match evlist with
  | [] => Ok evspec
  | evdecl :: evlist' =>
      match ev_spec_compile evdecl with
      | Ok s =>
          match model_evspec_find evspec (es_mcv s) with
          | Some _ => Err
          | None =>
              if negb (first_char (es_mcv s) =? model) then Err else
              evspec_loop model evlist'
                (mk_model_evspec (<[es_mcv s := s]> (mev_spec evspec)) (mev_nevents evspec) (mev_alloc evspec ++ [s]))
          end
      | Err => Err
      | Die => Die
      | Ub => Ub
      | Fuel => Fuel
      end
  end.

(** [evlist] is the array up to its NULL signature. *)
Definition model_evspec_init (model : Z) (evlist : list ev_decl) : outcome model_evspec :=
  if (length evlist =? 0)%nat then Err else
  evspec_loop model evlist (mk_model_evspec ∅ (Z.of_nat (length evlist)) []).

(** ** Printing an event *)

(** [in]: what is left of the description; [out]: what the buffer holds;
    [len]: the room left in it, but for the nul. *)
Record cursor := mk_cursor { cu_in : string; cu_out : string; cu_len : Z }.

(** The character [*c->in], where the end of the string is a nul. *)
Definition peek (c : cursor) : option ascii := match cu_in c with EmptyString => None | String x _ => Some x end.
Definition is_at (x : ascii) (c : cursor) : bool := bool_decide (peek c = Some x).

(** [advance_in(c, 1)]: past the nul is out of the string. *)
Definition advance_in : M cursor unit :=
  let* c := mget in
  match cu_in c with
  | EmptyString => mub
  | String _ s => mput (mk_cursor s (cu_out c) (cu_len c))
  end.

(** [text] in the buffer, and [advance_out(c, length of text)]. *)
Definition write_out (text : string) : M cursor unit :=
  mmod (fun c => mk_cursor (cu_in c) (cu_out c ++ text) (cu_len c - slen text)).

(** The loops that copy the characters before [stop] to a buffer with room for
    [room] of them: what they copied and what is left. *)
Fixpoint copy_until (stop : ascii) (ok : ascii -> bool) (room : Z) (s : string) : option (string * string) :=
  match s with
  | EmptyString => None
  | String x s' =>
      if bool_decide (x = stop) then Some (EmptyString, s) else
      if negb (ok x) then None else
      if room <=? 0 then None else
      r ← copy_until stop ok (room - 1) s';
      Some (String x r.1, r.2)
  end.

Definition copy_in (stop : ascii) (ok : ascii -> bool) (room : Z) : M cursor string :=
  let* c := mget in
  let* r := found (copy_until stop ok room (cu_in c)) in
  mput (mk_cursor r.2 (cu_out c) (cu_len c)) ;;;
  mret r.1.

Definition parse_printf_format (buflen : Z) : M cursor string :=
  let n := buflen - 1 in
  let* c := mget in
  require (negb (is_at "{" c)) ;;;
  require (negb (n <? 1)) ;;;
  let* fmt := copy_in "{" (fun _ => true) (n - 1) in
  mret (String "%" fmt).

Definition parse_arg_name (buflen : Z) : M cursor string :=
  let n := buflen - 1 in
  let* c := mget in
  require (negb (is_at "}" c)) ;;;
  require (negb (n <? 1)) ;;;
  copy_in "}" isalnum n.

(** The characters of a memory before its nul. *)
Fixpoint c_string (mem : list Z) : option string :=
  match mem with
  | [] => None
  | b :: mem' => if b =? 0 then Some EmptyString else s ← c_string mem'; Some (String (byte_char b) s)
  end.

(** What is passed to [snprintf]: the value of the argument, promoted. *)
Definition arg_value (arg : ev_arg) (payload : option (list Z)) : option printf_arg :=
  mem ← payload;
  let at_offset n := get_u (Z.to_nat (arg_offset arg)) n mem in
  match arg_type arg with
  | U8 => AInt 32 <$> at_offset 1%nat
  | U16 => AInt 32 <$> at_offset 2%nat
  | U32 => AInt 32 <$> at_offset 4%nat
  | U64 => AInt 64 <$> at_offset 8%nat
  | I8 => (fun z => AInt 32 (signed 8 z)) <$> at_offset 1%nat
  | I16 => (fun z => AInt 32 (signed 16 z)) <$> at_offset 2%nat
  | I32 => (fun z => AInt 32 (signed 32 z)) <$> at_offset 4%nat
  | I64 => (fun z => AInt 64 (signed 64 z)) <$> at_offset 8%nat
  | STR => AStr <$> c_string (drop (Z.to_nat (arg_offset arg)) mem)
  end.

Definition print_arg (arg : ev_arg) (fmt : string) (payload : option (list Z)) : M cursor unit :=
  let* data := deref (arg_value arg payload) in
  let* text := deref (printf fmt data) in
  let* c := mget in
  require (slen text <? cu_len c) ;;;
  write_out text.

Definition format_region (spec : ev_spec) (payload : option (list Z)) : M cursor unit :=
  let* c := mget in
  require (negb (cu_len c =? 0)) ;;;
  require (is_at "%" c) ;;;
  advance_in ;;;
  let* c := mget in
  require (bool_decide (is_Some (peek c))) ;;;
  if is_at "%" c then
    write_out "%" ;;;
    advance_in
  else
    let* fmt := (if is_at "{" c then mret None else let* fmt := parse_printf_format 64 in mret (Some fmt)) in
    let* c := mget in
    require (is_at "{" c) ;;;
    advance_in ;;;
    let* argname := parse_arg_name 64 in
    let* c := mget in
    require (is_at "}" c) ;;;
    advance_in ;;;
    let* arg := found (ev_spec_find_arg spec argname) in
    let* fmt := (match fmt with
      | Some fmt => mret fmt
      | None => require (slen (type_fmt (arg_type arg)) <? 64) ;;; mret (type_fmt (arg_type arg))
      end) in
    print_arg arg fmt payload.

(** The body of the loop of [ev_spec_print], at the character [x]. *)
Definition print_step (spec : ev_spec) (payload : option (list Z)) (x : ascii) : M cursor unit :=
  let* c := mget in
  require (negb (cu_len c =? 0)) ;;;
  if bool_decide (x = "%"%char) then format_region spec payload
  else write_out (String x EmptyString) ;;; advance_in.

(** The loop; every turn takes a character at least. *)
Fixpoint print_loop (fuel : nat) (spec : ev_spec) (payload : option (list Z)) : M cursor unit :=
  let* c := mget in
  match peek c with
  | None => mret tt
  | Some x =>
      match fuel with
      | O => mfuel
      | S fuel' => print_step spec payload x ;;; print_loop fuel' spec payload
      end
  end.

(** What the buffer of [outlen] bytes holds before its nul. *)
Definition ev_spec_print (spec : ev_spec) (payload : option (list Z)) (outlen : Z) : outcome string :=
  if outlen <=? 0 then Err else
  match print_loop (String.length (es_description spec)) spec payload
          (mk_cursor (es_description spec) EmptyString (outlen - 1)) with
  | (Ok _, c) => Ok (cu_out c)
  | (Err, _) => Err
  | (Die, _) => Die
  | (Ub, _) => Ub
  | (Fuel, _) => Fuel
  end.
