(* ===== verification/EvSpecCorrect.v ===== *)
(** * What a description says (src/emu/ev_spec.c)

    The text of a description stands for a list of pieces: characters, and
    fields with the name of an argument and perhaps a format.  Printing an event
    writes every piece with its value in the payload, when the text is that of
    some pieces and the result fits in the buffer, and fails otherwise. *)

From Stdlib Require Import Ascii.
From S2P Require Import Prelude Event Cstr EvSpec.

(** ** Strings *)

Fixpoint all_chars (P : ascii -> bool) (s : string) : bool :=
  match s with EmptyString => true | String c s' => P c && all_chars P s' end.

Lemma sapp_cons c s t : (String c s ++ t = String c (s ++ t))%string.
Proof. done. Qed.
Lemma sapp_empty t : (EmptyString ++ t = t)%string.
Proof. done. Qed.
Ltac sapp := repeat first
  [ rewrite sapp_cons | rewrite sapp_empty
  | match goal with
    | H : context [(String _ _ ++ _)%string] |- _ => rewrite sapp_cons in H
    | H : context [(EmptyString ++ _)%string] |- _ => rewrite sapp_empty in H
    end ].

Lemma sapp_assoc s t u : (s ++ (t ++ u) = (s ++ t) ++ u)%string.
Proof. induction s as [|c s IH]; sapp; [done|]. by f_equal. Qed.

Lemma sapp_nil s : (s ++ EmptyString = s)%string.
Proof. induction s as [|c s IH]; sapp; [done|]. by f_equal. Qed.

Lemma slen_nonneg s : 0 <= slen s.
Proof. unfold slen. lia. Qed.

Lemma slen_cons c s : slen (String c s) = 1 + slen s.
Proof. unfold slen. cbn [String.length]. lia. Qed.

(** ** Pieces *)

Inductive piece := Lit (x : ascii) | Field (fmt : option string) (name : string).

Definition piece_text (p : piece) : string :=
  match p with
  | Lit x => if bool_decide (x = "%"%char) then "%%" else String x EmptyString
  | Field None name => "%{" ++ name ++ "}"
  | Field (Some fmt) name => "%" ++ fmt ++ "{" ++ name ++ "}"
  end.

Fixpoint template_text (l : list piece) : string :=
  match l with [] => EmptyString | p :: l' => (piece_text p ++ template_text l')%string end.

Definition starts_with (x : ascii) (s : string) : bool := match s with String y _ => bool_decide (y = x) | EmptyString => false end.

(** Names are of letters and digits; a format has no braces that open, and does
    not start with a percent. *)
Definition name_ok (name : string) : bool :=
  negb (slen name =? 0) && (slen name <=? 63) && all_chars isalnum name.
Definition fmt_ok (fmt : string) : bool :=
  negb (slen fmt =? 0) && (slen fmt <=? 62) && negb (starts_with "%" fmt) &&
  all_chars (fun c => negb (bool_decide (c = "{"%char))) fmt.
Definition piece_ok (p : piece) : bool :=
  match p with
  | Lit _ => true
  | Field None name => name_ok name
  | Field (Some fmt) name => fmt_ok fmt && name_ok name
  end.

(** The value of a piece, and the room it takes. *)
Definition piece_value (spec : ev_spec) (payload : option (list Z)) (p : piece) : option string :=
  match p with
  | Lit x => Some (String x EmptyString)
  | Field fmt name =>
      arg ← ev_spec_find_arg spec name;
      data ← arg_value arg payload;
      printf (match fmt with Some fmt => String "%" fmt | None => type_fmt (arg_type arg) end) data
  end.

Definition piece_room (p : piece) (text : string) : Z := match p with Lit _ => 1 | Field _ _ => slen text + 1 end.

Fixpoint render (spec : ev_spec) (payload : option (list Z)) (room : Z) (l : list piece) : option string :=
  match l with
  | [] => Some EmptyString
  | p :: l' =>
      text ← piece_value spec payload p;
      if room <? piece_room p text then None else
      rest ← render spec payload (room - slen text) l';
      Some (text ++ rest)%string
  end.

(** ** Copying up to a character *)

Definition not_char (x c : ascii) : bool := negb (bool_decide (c = x)).

Lemma copy_until_Some stop ok room s t r :
  0 <= room ->
  copy_until stop ok room s = Some (t, r) <->
  s = (t ++ r)%string /\ starts_with stop r = true /\ slen t <= room /\
  all_chars (fun c => not_char stop c && ok c) t = true.
Proof.
  revert room t r. induction s as [|x s IH]; intros room t r Hroom; simpl.
  - split; [done|]. intros (E & Hr & _). destruct t; sapp; [by subst r|done].
  - destruct (decide (x = stop)) as [->|Hx].
    + rewrite bool_decide_true by done. split.
      * intros [= <- <-]. simpl. rewrite bool_decide_true by done. split_and!; [done|done|apply Hroom|done].
      * intros (E & Hr & _ & Ht). destruct t as [|y t]; sapp; [subst r; simpl in Hr; done|].
        injection E as <- _. simpl in Ht. unfold not_char in Ht. by rewrite bool_decide_true in Ht.
    + rewrite bool_decide_false by done. destruct (ok x) eqn:Eok; simpl.
      2: { split; [done|]. intros (E & Hr & _ & Ht). destruct t as [|y t]; sapp; [subst r|].
           - simpl in Hr. by rewrite bool_decide_false in Hr.
           - injection E as <- _. simpl in Ht. by rewrite Eok, andb_false_r in Ht. }
      destruct (Z.leb_spec room 0) as [Hle|Hgt].
      { split; [done|]. intros (E & Hr & Hlen & Ht). destruct t as [|y t].
        - sapp. subst r. simpl in Hr. by rewrite bool_decide_false in Hr.
        - rewrite slen_cons in Hlen. pose proof (slen_nonneg t). lia. }
      split.
      * intros H. destruct (copy_until stop ok (room - 1) s) as [[t' r']|] eqn:E; [|done].
        simpl in H. injection H as <- <-. apply IH in E as (-> & Hr & Hlen & Ht); [|lia].
        split_and!; [done|done|rewrite slen_cons; lia|]. simpl. rewrite Ht, Eok. unfold not_char.
        by rewrite bool_decide_false.
      * intros (E & Hr & Hlen & Ht). destruct t as [|y t].
        { sapp. subst r. simpl in Hr. by rewrite bool_decide_false in Hr. }
        injection E as <- ->. rewrite slen_cons in Hlen. simpl in Ht. apply andb_true_iff in Ht as [_ Ht].
        assert (copy_until stop ok (room - 1) (t ++ r) = Some (t, r)) as ->; [|done].
        apply IH; [lia|]. split_and!; [done..|lia|done].
Qed.

(** ** The parts of a field *)

Section Steps.
Context {S A B : Type}.
Lemma mbind_get (k : S -> M S B) s : mbind mget k s = k s s.
Proof. done. Qed.
Lemma mbind_found (o : option A) (k : A -> M S B) s :
mbind (found o) k s = match o with Some a => k a s | None => (Err, s) end.
Proof. by destruct o. Qed.
Lemma mbind_deref (o : option A) (k : A -> M S B) s :
mbind (deref o) k s = match o with Some a => k a s | None => (Ub, s) end.
Proof. by destruct o. Qed.
End Steps.

Lemma is_at_starts x c : is_at x c = starts_with x (cu_in c).
Proof.
  unfold is_at, peek, starts_with. destruct (cu_in c) as [|y s]; [done|].
  apply bool_decide_ext. split; congruence.
Qed.

Lemma starts_with_inv x s : starts_with x s = true -> exists r, s = String x r.
Proof. destruct s as [|y r]; [done|]. intros H. apply bool_decide_eq_true in H as ->. by eauto. Qed.

Lemma mbind_advance {B} x s out len (k : unit -> M cursor B) :
  mbind advance_in k (mk_cursor (String x s) out len) = k tt (mk_cursor s out len).
Proof. done. Qed.

Lemma write_out_run t c : write_out t c = (Ok tt, mk_cursor (cu_in c) (cu_out c ++ t) (cu_len c - slen t)).
Proof. done. Qed.

Lemma copy_in_Ok stop ok room c t c' :
  0 <= room ->
  copy_in stop ok room c = (Ok t, c') <->
  exists r, cu_in c = (t ++ r)%string /\ starts_with stop r = true /\ slen t <= room /\
  all_chars (fun c => not_char stop c && ok c) t = true /\ c' = mk_cursor r (cu_out c) (cu_len c).
Proof.
  intros Hroom. unfold copy_in. split.
  - rewrite mbind_get, mbind_found. intros H.
    destruct (copy_until stop ok room (cu_in c)) as [[t' r]|] eqn:E; [|done].
    injection H as <- <-. apply (copy_until_Some _ _ _ _ _ _ Hroom) in E as (E & Hr & Hl & Ht). by eauto 10.
  - intros (r & E & Hr & Hl & Ht & ->). rewrite mbind_get, mbind_found.
    by rewrite (proj2 (copy_until_Some stop ok room (cu_in c) t r Hroom)).
Qed.

Lemma all_chars_ext P Q s : (forall c, P c = Q c) -> all_chars P s = all_chars Q s.
Proof. intros H. induction s as [|c s IH]; simpl; [done|]. by rewrite H, IH. Qed.

Lemma starts_with_app x s r : slen s <> 0 -> starts_with x (s ++ r) = starts_with x s.
Proof. by destruct s. Qed.

Lemma slen_zero s : slen s = 0 -> s = EmptyString.
Proof. destruct s as [|c s]; [done|]. rewrite slen_cons. pose proof (slen_nonneg s). lia. Qed.

Lemma starts_with_once x y s : starts_with x s = true -> x <> y -> starts_with y s = false.
Proof.
  intros [r ->]%starts_with_inv Hxy. simpl. apply bool_decide_eq_false. congruence.
Qed.

(** A text that is not empty, when what it is read from does not start with
    the character that ends it. *)
Lemma nonempty_before stop s r :
  starts_with stop (s ++ r) = false -> starts_with stop r = true -> slen s <> 0.
Proof. intros Hs Hr E. apply slen_zero in E as ->. sapp. congruence. Qed.

Lemma parse_arg_name_Ok c t c' :
  parse_arg_name 64 c = (Ok t, c') <->
  name_ok t = true /\
  exists r, cu_in c = (t ++ r)%string /\ starts_with "}" r = true /\ c' = mk_cursor r (cu_out c) (cu_len c).
Proof.
  unfold parse_arg_name, name_ok. rewrite mbind_get, !mbind_require. change (64 - 1) with 63.
  assert (forall s, all_chars (fun c => not_char "}" c && isalnum c) s = all_chars isalnum s) as Hext.
  { intros s. apply all_chars_ext. intros x. unfold not_char. destruct (decide (x = "}"%char)) as [->|Hx]; [done|].
    by rewrite bool_decide_false. }
  change (negb (63 <? 1)) with true. cbn iota. rewrite is_at_starts.
  destruct (starts_with "}" (cu_in c)) eqn:Eat; simpl negb; cbn iota.
  - split; [done|]. intros (Hok & r & E & Hr & _). rewrite E in Eat.
    rewrite !andb_true_iff, negb_true_iff, Z.eqb_neq in Hok. destruct Hok as [[Hne _] Hall].
    rewrite starts_with_app in Eat by done. apply starts_with_inv in Eat as [r' ->]. done.
  - rewrite copy_in_Ok by done. split.
    + intros (r & E & Hr & Hl & Ht & ->). rewrite Hext in Ht. split; [|by eauto].
      rewrite E in Eat. rewrite Ht, !andb_true_iff, negb_true_iff, Z.eqb_neq, Z.leb_le.
      split_and!; [by eapply nonempty_before|done..].
    + intros (Hok & r & E & Hr & ->). rewrite !andb_true_iff, Z.leb_le in Hok. destruct Hok as [[_ Hl] Ht].
      exists r. rewrite Hext. done.
Qed.

Lemma parse_printf_format_Ok c t c' :
  starts_with "%" (cu_in c) = false ->
  parse_printf_format 64 c = (Ok t, c') <->
  exists fmt r, t = String "%" fmt /\ fmt_ok fmt = true /\
  cu_in c = (fmt ++ r)%string /\ starts_with "{" r = true /\ c' = mk_cursor r (cu_out c) (cu_len c).
Proof.
  intros Hpc. unfold parse_printf_format, fmt_ok. rewrite mbind_get, !mbind_require. change (64 - 1 - 1) with 62.
  assert (forall s, all_chars (fun c => not_char "{" c && true) s =
    all_chars (fun c => negb (bool_decide (c = "{"%char))) s) as Hext.
  { intros s. apply all_chars_ext. intros x. by rewrite andb_true_r. }
  change (negb (64 - 1 <? 1)) with true. cbn iota. rewrite is_at_starts.
  destruct (starts_with "{" (cu_in c)) eqn:Eat; simpl negb; cbn iota.
  - split; [done|]. intros (fmt & r & _ & Hok & E & Hr & _). rewrite E in Eat.
    rewrite !andb_true_iff, negb_true_iff, Z.eqb_neq in Hok. destruct Hok as [[[Hne _] _] Hall].
    rewrite starts_with_app in Eat by done. apply starts_with_inv in Eat as [r' ->]. done.
  - split.
    + intros H. apply mbind_Ok in H as (fmt & s & H & Hret). injection Hret as <- ->.
      apply copy_in_Ok in H as (r & E & Hr & Hl & Ht & ->); [|done]. rewrite Hext in Ht.
      exists fmt, r. split_and!; [done| |done..]. rewrite E in Eat, Hpc.
      pose proof (nonempty_before _ _ _ Eat Hr) as Hne. rewrite starts_with_app in Hpc by done.
      rewrite Ht, Hpc, !andb_true_iff, negb_true_iff, Z.eqb_neq, Z.leb_le. done.
    + intros (fmt & r & -> & Hok & E & Hr & ->). rewrite !andb_true_iff, Z.leb_le in Hok.
      destruct Hok as [[[_ Hl] _] Ht]. eapply mbind_Ok. exists fmt, (mk_cursor r (cu_out c) (cu_len c)).
      split; [|done]. apply copy_in_Ok; [done|]. exists r. rewrite Hext. done.
Qed.

Lemma print_arg_Ok arg fmt payload c c' :
  print_arg arg fmt payload c = (Ok tt, c') <->
  exists data text, arg_value arg payload = Some data /\ printf fmt data = Some text /\ slen text < cu_len c /\
  c' = mk_cursor (cu_in c) (cu_out c ++ text) (cu_len c - slen text).
Proof.
  unfold print_arg. rewrite mbind_deref. destruct (arg_value arg payload) as [data|]; [|naive_solver].
  rewrite mbind_deref. destruct (printf fmt data) as [text|] eqn:E; [|naive_solver].
  rewrite mbind_get, mbind_require. destruct (Z.ltb_spec (slen text) (cu_len c)) as [Hlt|Hge].
  - rewrite write_out_run. split; [intros [= <-]; by eauto 10|]. intros (d & t & [= <-] & Et & _ & ->). congruence.
  - split; [done|]. intros (d & t & [= <-] & Et & Hlt & _). simplify_eq. lia.
Qed.

(** What a field does after its format. *)
Definition field_tail (spec : ev_spec) (payload : option (list Z)) (fmt : option string) : M cursor unit :=
  let* c := mget in
  require (is_at "{" c) ;;;
  advance_in ;;;
  let* argname := parse_arg_name 64 in
  let* c := mget in
  require (is_at "}" c) ;;;
  advance_in ;;;
  let* arg := found (ev_spec_find_arg spec argname) in
  let* fmt := (match fmt with
    | Some fmt => mret fmt
    | None => require (slen (type_fmt (arg_type arg)) <? 64) ;;; mret (type_fmt (arg_type arg))
    end) in
  print_arg arg fmt payload.

Definition field_format (fmt : option string) (arg : ev_arg) : string := default (type_fmt (arg_type arg)) fmt.

Lemma field_tail_Ok spec payload fmt c c' :
  field_tail spec payload fmt c = (Ok tt, c') <->
  exists name r arg data text, cu_in c = String "{" (name ++ String "}" r) /\ name_ok name = true /\
  ev_spec_find_arg spec name = Some arg /\ arg_value arg payload = Some data /\
  printf (field_format fmt arg) data = Some text /\ slen text < cu_len c /\
  c' = mk_cursor r (cu_out c ++ text) (cu_len c - slen text).
Proof.
  unfold field_tail. rewrite mbind_get, mbind_require, is_at_starts.
  assert (forall arg k (s : cursor), mbind (match fmt with
      | Some fmt => mret fmt
      | None => require (slen (type_fmt (arg_type arg)) <? 64) ;;; mret (type_fmt (arg_type arg))
      end) k s = (k (field_format fmt arg) s : outcome unit * cursor)) as Hfmt.
  { intros arg k s. destruct fmt; [done|]. unfold field_format. destruct (arg_type arg); reflexivity. }
  destruct c as [i out len]. simpl cu_in. simpl cu_out. simpl cu_len.
  destruct (starts_with "{" i) eqn:Eat.
  2: { split; [done|]. intros (? & ? & ? & ? & ? & -> & _). done. }
  apply starts_with_inv in Eat as [s ->]. rewrite mbind_advance. split.
  - intros H. apply mbind_Ok in H as (name & c1 & Hn & H).
    apply parse_arg_name_Ok in Hn as (Hok & r & E & Hr & ->). simpl in E. apply starts_with_inv in Hr as [r' ->].
    rewrite mbind_get, mbind_require, is_at_starts in H. cbn [cu_in starts_with] in H.
    rewrite bool_decide_true in H by done.
    rewrite mbind_advance, mbind_found in H.
    destruct (ev_spec_find_arg spec name) as [arg|] eqn:Ef; [|done].
    rewrite Hfmt in H. apply print_arg_Ok in H as (data & text & Ha & Hp & Hl & ->). subst s. by eauto 15.
  - intros (name & r & arg & data & text & [= ->] & Hok & Ef & Ha & Hp & Hl & ->).
    rewrite (mbind_run _ _ _ name (mk_cursor (String "}" r) out len)).
    2: { apply parse_arg_name_Ok. split; [done|]. exists (String "}" r). done. }
    rewrite mbind_get, mbind_require, is_at_starts. cbn [cu_in starts_with].
    rewrite bool_decide_true by done.
    rewrite mbind_advance, mbind_found, Ef, Hfmt.
    apply print_arg_Ok. by eauto 10.
Qed.

(** The pieces whose text starts with a percent. *)
Lemma percent_text p rest s :
  piece_ok p = true -> String "%" s = (piece_text p ++ rest)%string ->
  (p = Lit "%" /\ s = String "%" rest) \/
  (exists name, p = Field None name /\ name_ok name = true /\ s = String "{" (name ++ String "}" rest)) \/
  (exists fmt name, p = Field (Some fmt) name /\ fmt_ok fmt = true /\ name_ok name = true /\
   s = (fmt ++ String "{" (name ++ String "}" rest))%string).
Proof.
  intros Hok E. destruct p as [y|[fmt|] name]; simpl in Hok, E.
  - left. destruct (decide (y = "%"%char)) as [->|Hy].
    + rewrite bool_decide_true in E by done. sapp. by injection E as ->.
    + rewrite bool_decide_false in E by done. sapp. congruence.
  - right; right. apply andb_true_iff in Hok as [Hf Hn]. exists fmt, name.
    rewrite <-!sapp_assoc in E. sapp. injection E as ->. by rewrite <-?sapp_assoc; sapp.
  - right; left. exists name. sapp. injection E as ->. by rewrite <-?sapp_assoc; sapp.
Qed.

(** A field from after its percent. *)
Lemma field_Ok spec payload s out len c' :
  s <> EmptyString -> starts_with "%" s = false ->
  mbind (if is_at "{" (mk_cursor s out len) then mret None
    else let* fmt := parse_printf_format 64 in mret (Some fmt)) (field_tail spec payload)
    (mk_cursor s out len) = (Ok tt, c') <->
  exists fmt name text rest, piece_ok (Field fmt name) = true /\ String "%" s = (piece_text (Field fmt name) ++ rest)%string /\
  piece_value spec payload (Field fmt name) = Some text /\ slen text < len /\
  c' = mk_cursor rest (out ++ text) (len - slen text).
Proof.
  intros Hs Hpc. rewrite is_at_starts. cbn [cu_in]. split.
  - intros H. apply mbind_Ok in H as (fmt & c1 & Hf & H).
    apply field_tail_Ok in H as (name & r & arg & data & text & E & Hn & Ha & Hd & Hp & Hl & ->).
    destruct (starts_with "{" s) eqn:Eat.
    + injection Hf as <- <-. simpl in *. exists None, name, text, r. subst s. split_and!; try done.
      * simpl. by rewrite <-?sapp_assoc; sapp.
      * simpl. by rewrite Ha; simpl; rewrite Hd.
    + apply mbind_Ok in Hf as (f & c2 & Hf & Hret). injection Hret as <- <-.
      apply parse_printf_format_Ok in Hf as (f' & r' & -> & Hfok & E' & Hr & ->); [|done]. simpl in *. subst r' s.
      exists (Some f'), name, text, r. split_and!; try done.
      * simpl. by rewrite Hfok.
      * simpl. by rewrite <-?sapp_assoc; sapp.
      * simpl. by rewrite Ha; simpl; rewrite Hd.
  - intros (fmt & name & text & rest & Hok & E & Hv & Hl & ->).
    simpl in Hv. destruct (ev_spec_find_arg spec name) as [arg|] eqn:Ha; [|done]. simpl in Hv.
    destruct (arg_value arg payload) as [data|] eqn:Hd; [|done]. simpl in Hv.
    destruct (percent_text _ _ _ Hok E) as [[? _]|[(n & [= -> ->] & Hn & ->)|(f & n & [= -> ->] & Hf & Hn & ->)]]; [done|..].
    + cbn [starts_with]. rewrite bool_decide_true by done. apply mbind_Ok.
      eexists None, _. split; [done|]. apply field_tail_Ok. by eauto 15.
    + assert (slen f <> 0) as Hne.
      { unfold fmt_ok in Hf. rewrite !andb_true_iff, negb_true_iff, Z.eqb_neq in Hf. tauto. }
      rewrite starts_with_app by done. assert (starts_with "{" f = false) as ->.
      { destruct f as [|y f]; [done|]. unfold fmt_ok in Hf. rewrite !andb_true_iff in Hf. destruct Hf as [_ Hf].
        simpl in Hf |- *. apply andb_true_iff in Hf as [Hf _]. by apply negb_true_iff in Hf. }
      apply mbind_Ok. exists (Some (String "%" f)), (mk_cursor (String "{" (n ++ String "}" rest)) out len). split.
      * apply mbind_Ok. exists (String "%" f), (mk_cursor (String "{" (n ++ String "}" rest)) out len). split; [|done].
        apply parse_printf_format_Ok; [done|]. by eauto 10.
      * apply field_tail_Ok. simpl. by eauto 15.
Qed.

Lemma format_region_Ok spec payload s out len c' :
  0 <= len ->
  format_region spec payload (mk_cursor (String "%" s) out len) = (Ok tt, c') <->
  exists p text rest, piece_ok p = true /\ String "%" s = (piece_text p ++ rest)%string /\
  piece_value spec payload p = Some text /\ piece_room p text <= len /\
  c' = mk_cursor rest (out ++ text) (len - slen text).
Proof.
  intros Hlen. unfold format_region. rewrite mbind_get, mbind_require. cbn [cu_len].
  destruct (Z.eqb_spec len 0) as [->|Hne].
  { split; [done|]. intros ([x|fmt name] & text & rest & _ & _ & _ & Hroom & _); simpl in Hroom; [lia|].
    pose proof (slen_nonneg text). lia. }
  cbn [negb]. rewrite mbind_require, is_at_starts. cbn [cu_in starts_with]. rewrite bool_decide_true by done.
  rewrite mbind_advance, mbind_get, mbind_require. destruct s as [|x s].
  { split; [done|]. intros (p & text & rest & Hok & E & _).
    destruct (percent_text _ _ _ Hok E) as [[_ ?]|[(n & _ & _ & ?)|(f & n & _ & Hf & _ & E')]]; [done..|].
    by destruct f. }
  cbn [peek cu_in]. rewrite bool_decide_true by by eexists.
  rewrite is_at_starts. cbn [cu_in]. destruct (starts_with "%" (String x s)) eqn:Epc.
  - apply bool_decide_eq_true in Epc as ->. rewrite (mbind_run _ _ _ _ _ (write_out_run _ _)).
    cbn [cu_in cu_out cu_len]. change (slen "%") with 1. split.
    + intros H. injection H as <-. exists (Lit "%"), "%"%string, s. split_and!; try done. simpl. lia.
    + intros (p & text & rest & Hok & E & Hv & Hroom & ->).
      destruct (percent_text _ _ _ Hok E) as [[-> [= ->]]|[(n & _ & _ & ?)|(f & n & _ & Hf & _ & E')]]; [|done|].
      * by injection Hv as <-.
      * unfold fmt_ok in Hf. destruct f as [|y f]; [done|]. injection E' as <- _.
        simpl in Hf. by rewrite andb_false_r in Hf.
  - etransitivity; [apply (field_Ok spec payload (String x s) out len c'); done|]. split.
    + intros (fmt & name & text & rest & Hok & E & Hv & Hl & ->). exists (Field fmt name), text, rest.
      split_and!; try done. simpl. lia.
    + intros (p & text & rest & Hok & E & Hv & Hroom & ->).
      destruct (percent_text _ _ _ Hok E) as [[-> [= ->]]|[(n & -> & _ & _)|(f & n & -> & _)]]; [done|..];
        simpl in Hroom; (eexists _, n, text, rest; split_and!; [done..|lia|done]).
Qed.

(** ** One turn of the loop, and the loop *)

Lemma lit_text x rest : x <> "%"%char -> (piece_text (Lit x) ++ rest)%string = String x rest.
Proof. intros Hx. simpl. by rewrite bool_decide_false. Qed.

Lemma print_step_Ok spec payload x s out len c' :
  0 <= len ->
  print_step spec payload x (mk_cursor (String x s) out len) = (Ok tt, c') <->
  exists p text rest, piece_ok p = true /\ String x s = (piece_text p ++ rest)%string /\
  piece_value spec payload p = Some text /\ piece_room p text <= len /\
  c' = mk_cursor rest (out ++ text) (len - slen text).
Proof.
  intros Hlen. unfold print_step. rewrite mbind_get, mbind_require. cbn [cu_len].
  destruct (Z.eqb_spec len 0) as [->|Hne].
  { split; [done|]. intros ([y|fmt name] & text & rest & _ & _ & _ & Hroom & _); simpl in Hroom; [lia|].
    pose proof (slen_nonneg text). lia. }
  cbn [negb]. destruct (decide (x = "%"%char)) as [->|Hx].
  { rewrite bool_decide_true by done. by apply format_region_Ok. }
  rewrite bool_decide_false by done. rewrite (mbind_run _ _ _ _ _ (write_out_run _ _)).
  cbn [cu_in cu_out cu_len]. change (slen (String x EmptyString)) with 1. split.
  - intros H. injection H as <-. exists (Lit x), (String x EmptyString), s.
    rewrite lit_text by done. split_and!; try done. simpl. lia.
  - intros (p & text & rest & Hok & E & Hv & Hroom & ->).
    destruct p as [y|[fmt|] name]; [|sapp; simpl in E; sapp; congruence..].
    destruct (decide (y = "%"%char)) as [->|Hy]; [simpl in E; sapp; congruence|].
    rewrite lit_text in E by done. injection E as <- ->. by injection Hv as <-.
Qed.

Lemma print_step_progress spec payload x s out len c' :
  0 <= len -> print_step spec payload x (mk_cursor (String x s) out len) = (Ok tt, c') ->
  (String.length (cu_in c') <= String.length s)%nat /\ 0 <= cu_len c' /\
  slen (cu_out c') + cu_len c' = slen out + len.
Proof.
  intros Hlen H. apply print_step_Ok in H as (p & text & rest & Hok & E & Hv & Hroom & ->); [|done]. cbn.
  rewrite slen_app. split_and!; [| |lia].
  - assert (slen (String x s) = slen (piece_text p) + slen rest) as El by by rewrite E, slen_app.
    assert (1 <= slen (piece_text p)).
    { destruct p as [y|[fmt|] name]; simpl; [by destruct (bool_decide _)|..];
        sapp; rewrite slen_cons; match goal with |- context [slen ?t] => pose proof (slen_nonneg t) end; lia. }
    rewrite slen_cons in El. unfold slen in *. lia.
  - destruct p as [y|fmt name]; simpl in Hroom; [|lia]. injection Hv as <-. change (slen (String y EmptyString)) with 1. lia.
Qed.

(** The loop writes the pieces of what is left of the description. *)
Lemma print_loop_Ok spec payload fuel s out len c' :
  0 <= len -> (String.length s <= fuel)%nat ->
  print_loop fuel spec payload (mk_cursor s out len) = (Ok tt, c') <->
  exists l text, forallb piece_ok l = true /\ s = template_text l /\
  render spec payload len l = Some text /\ c' = mk_cursor EmptyString (out ++ text) (len - slen text).
Proof.
  revert s out len. induction fuel as [|fuel IH]; intros s out len Hlen Hs.
  all: destruct s as [|x s]; [|cbn in Hs; try lia].
  1,2: cbn; split;
    [ intros [= <-]; exists [], EmptyString; rewrite sapp_nil; split_and!; try done; f_equal; unfold slen; cbn; lia
    | intros (l & text & Hl & E & Hr & ->); destruct l as [|p l];
      [ injection Hr as <-; rewrite sapp_nil; do 2 f_equal; unfold slen; cbn; lia
      | exfalso; destruct p as [y|[fmt|] name]; simpl in E; [destruct (bool_decide _)|..]; by sapp ] ].
  cbn [print_loop]. rewrite mbind_get. cbn [peek cu_in]. split.
  - intros H. apply mbind_Ok in H as ([] & c1 & H1 & H2).
    pose proof (print_step_progress _ _ _ _ _ _ _ Hlen H1) as (Hless & Hlen1 & _).
    apply print_step_Ok in H1 as (p & text & rest & Hok & E & Hv & Hroom & ->); [|done]. cbn in Hless, Hlen1.
    apply IH in H2 as (l & text' & Hl & -> & Hr & ->); [|done|lia].
    exists (p :: l), (text ++ text')%string. split_and!; [|done| |].
    + simpl. by rewrite Hok.
    + simpl. rewrite Hv. simpl. rewrite (proj2 (Z.ltb_ge _ _)) by done. by rewrite Hr.
    + rewrite sapp_assoc, slen_app. f_equal. lia.
  - intros (l & text & Hl & E & Hr & ->). destruct l as [|p l]; [done|].
    simpl in Hl, Hr. apply andb_true_iff in Hl as [Hok Hl].
    destruct (piece_value spec payload p) as [t|] eqn:Hv; [|done]. simpl in Hr.
    destruct (Z.ltb_spec len (piece_room p t)) as [|Hroom]; [done|].
    destruct (render spec payload (len - slen t) l) as [t'|] eqn:Hr'; [|done]. injection Hr as <-.
    assert (print_step spec payload x (mk_cursor (String x s) out len) =
      (Ok tt, mk_cursor (template_text l) (out ++ t) (len - slen t))) as H1.
    { apply print_step_Ok; [done|]. by eauto 10. }
    rewrite (mbind_run _ _ _ _ _ H1).
    pose proof (print_step_progress _ _ _ _ _ _ _ Hlen H1) as (Hless & Hlen1 & _). cbn in Hless, Hlen1.
    apply IH; [done|lia|]. exists l, t'. split_and!; [done..|]. rewrite sapp_assoc, slen_app. f_equal. lia.
Qed.

Lemma ev_spec_print_pieces spec payload outlen text :
  ev_spec_print spec payload outlen = Ok text <->
  0 < outlen /\ exists l, forallb piece_ok l = true /\ es_description spec = template_text l /\
  render spec payload (outlen - 1) l = Some text.
Proof.
  unfold ev_spec_print. destruct (Z.leb_spec outlen 0) as [Hle|Hgt].
  { split; [done|]. intros [? _]. lia. }
  pose proof (print_loop_Ok spec payload (String.length (es_description spec)) (es_description spec) EmptyString (outlen - 1)) as L.
  destruct (print_loop _ _ _ _) as [[[]| | | |] c'] eqn:E; split; try done.
  1: intros [= <-]; destruct (proj1 (L c' ltac:(lia) ltac:(lia)) eq_refl) as (l & t & Hl & Hd & Hr & ->); by eauto.
  all: intros (_ & l & Hl & Hd & Hr);
    pose proof (proj2 (L _ ltac:(lia) ltac:(lia)) ltac:(by exists l, text)) as E'; simplify_eq; done.
Qed.

(** C34. [ev_spec_print] writes exactly what the description says: the buffer
    holds [text] if and only if the description is the text of some pieces,
    whose fields name arguments of the event that the payload holds, and the
    values of the pieces, one after the other, fit in the buffer and make [text]. *)
Theorem ev_spec_print_spec spec payload outlen text :
  ev_spec_print spec payload outlen = Ok text <->
  0 < outlen /\ exists l, forallb piece_ok l = true /\ es_description spec = template_text l /\
  render spec payload (outlen - 1) l = Some text.
Proof. apply ev_spec_print_pieces. Qed.

(** ** The buffer and the loop on every outcome *)

Definition same_out (out : string) (len : Z) (c : cursor) : Prop := cu_out c = out /\ cu_len c = len.

(** [m] leaves the buffer as it was unless it succeeds. *)
Definition writes_last {A} (m : M cursor A) : Prop :=
  forall out len c, same_out out len c -> match m c with (Ok _, _) => True | (_, c') => same_out out len c' end.

Lemma writes_last_keeps {A} (m : M cursor A) : (forall out len, keeps (same_out out len) m) -> writes_last m.
Proof. intros K out len c Hc. specialize (K out len c Hc). by destruct (m c) as [[] c']. Qed.

Lemma writes_last_bind {A B} (m : M cursor A) (k : A -> M cursor B) :
  (forall out len, keeps (same_out out len) m) -> (forall a, writes_last (k a)) -> writes_last (mbind m k).
Proof.
  intros K Hk out len c Hc. specialize (K out len c Hc). unfold mbind.
  destruct (m c) as [[a| | | |] c1]; try done. by apply Hk.
Qed.

Lemma writes_last_if {A} (b : bool) (m1 m2 : M cursor A) : writes_last m1 -> writes_last m2 -> writes_last (if b then m1 else m2).
Proof. by destruct b. Qed.

Lemma keeps_advance out len : keeps (same_out out len) advance_in.
Proof. intros [i o l] Hc. unfold advance_in. rewrite mbind_get. by destruct i. Qed.

Lemma keeps_copy_in out len stop ok room : keeps (same_out out len) (copy_in stop ok room).
Proof.
  intros c Hc. unfold copy_in. rewrite mbind_get, mbind_found. by destruct (copy_until _ _ _ _) as [[]|].
Qed.

Lemma keeps_parse_printf_format out len : keeps (same_out out len) (parse_printf_format 64).
Proof. pose proof (keeps_copy_in out len). unfold parse_printf_format. eauto 10 with ovni. Qed.

Lemma keeps_parse_arg_name out len : keeps (same_out out len) (parse_arg_name 64).
Proof. pose proof (keeps_copy_in out len). unfold parse_arg_name. eauto 10 with ovni. Qed.

Lemma print_arg_writes_last arg fmt payload : writes_last (print_arg arg fmt payload).
Proof.
  unfold print_arg. do 4 (apply writes_last_bind; [eauto with ovni|intros ?]). done.
Qed.

#[local] Hint Resolve keeps_advance keeps_parse_printf_format keeps_parse_arg_name : ovni.

Lemma format_region_writes_last spec payload : writes_last (format_region spec payload).
Proof.
  intros out len [i o l] Hc. unfold format_region. rewrite mbind_get, !mbind_require.
  destruct (negb (cu_len _ =? 0)); [|done]. destruct (is_at "%" _) eqn:Eat; [|done].
  rewrite is_at_starts in Eat. apply starts_with_inv in Eat as [s Es]. simpl in Es. subst i.
  rewrite mbind_advance, mbind_get, mbind_require. destruct s as [|x s]; [done|].
  rewrite bool_decide_true by by eexists. destruct (is_at "%" _) eqn:Eat.
  { by rewrite (mbind_run _ _ _ _ _ (write_out_run _ _)). }
  refine (writes_last_bind _ (field_tail spec payload) _ _ out len (mk_cursor (String x s) o l) Hc).
  { intros. apply keeps_if; eauto 8 with ovni. }
  intros fmt. unfold field_tail.
  do 8 (apply writes_last_bind; [eauto with ovni|intros ?]).
  apply writes_last_bind; [|intros; apply print_arg_writes_last].
  intros. destruct fmt; eauto with ovni.
Qed.

Lemma print_step_writes_last spec payload x s out len :
  match print_step spec payload x (mk_cursor (String x s) out len) with (Ok _, _) => True | (_, c') => same_out out len c' end.
Proof.
  unfold print_step. rewrite mbind_get, mbind_require. destruct (negb _); [|done].
  destruct (bool_decide _); [by apply format_region_writes_last|].
  by rewrite (mbind_run _ _ _ _ _ (write_out_run _ _)).
Qed.

(** What the buffer holds and what is left of it are the buffer. *)
Lemma print_loop_room spec payload fuel s out len :
  0 <= len ->
  let c' := (print_loop fuel spec payload (mk_cursor s out len)).2 in
  0 <= cu_len c' /\ slen (cu_out c') + cu_len c' = slen out + len.
Proof.
  revert s out len. induction fuel as [|fuel IH]; intros s out len Hlen.
  - cbn [print_loop]. rewrite mbind_get. by destruct s.
  - cbn [print_loop]. rewrite mbind_get. destruct s as [|x s]; [done|]. cbn [peek cu_in].
    pose proof (print_step_writes_last spec payload x s out len) as Hl.
    unfold mbind. destruct (print_step _ _ _ _) as [[[]| | | |] c1] eqn:E.
    2-5: simpl; destruct Hl as [-> ->]; done.
    apply print_step_progress in E as (_ & Hlen1 & Hsum); [|done]. destruct c1 as [i1 o1 l1]. simpl in *.
    specialize (IH i1 o1 l1 Hlen1). simpl in IH. lia.
Qed.

(** C37. Printing an event never writes out of the buffer: on success and on every
    error, what was written leaves room for the nul, which is inside. *)
Theorem print_in_buffer spec payload outlen :
  0 < outlen ->
  let c' := (print_loop (String.length (es_description spec)) spec payload
    (mk_cursor (es_description spec) EmptyString (outlen - 1))).2 in
  0 <= cu_len c' /\ slen (cu_out c') < outlen.
Proof.
  intros Hout. pose proof (print_loop_room spec payload (String.length (es_description spec))
    (es_description spec) EmptyString (outlen - 1) ltac:(lia)) as H.
  simpl in *. change (slen EmptyString) with 0 in H. lia.
Qed.

(** *** The loop ends *)

Definition no_fuel {A} (m : M cursor A) : Prop := forall c, (m c).1 <> Fuel.
Lemma no_fuel_bind {A B} (m : M cursor A) (k : A -> M cursor B) : no_fuel m -> (forall a, no_fuel (k a)) -> no_fuel (mbind m k).
Proof. intros Hm Hk c. specialize (Hm c). unfold mbind. destruct (m c) as [[a| | | |] c1]; try done. apply Hk. Qed.

Lemma print_step_no_fuel spec payload x : no_fuel (print_step spec payload x).
Proof.
  assert (no_fuel advance_in) as Ha.
  { intros [[] o l]; done. }
  assert (forall stop ok room, no_fuel (copy_in stop ok room)) as Hc.
  { intros stop ok room c. unfold copy_in. rewrite mbind_get, mbind_found. by destruct (copy_until _ _ _ _). }
  assert (forall A (o : option A), no_fuel (deref o : M cursor A)) as Hd by by intros A [].
  assert (forall A (o : option A), no_fuel (found o : M cursor A)) as Hf by by intros A [].
  assert (forall b, no_fuel (require b : M cursor unit)) as Hr by by intros [].
  unfold print_step, format_region, print_arg, parse_arg_name, parse_printf_format.
  repeat first [ done | apply Ha | apply Hc | apply Hd | apply Hf | apply Hr | apply no_fuel_bind; [|intros ?]
    | match goal with |- no_fuel (if ?b then _ else _) => destruct b end
    | match goal with |- no_fuel (match ?b with Some _ => _ | None => _ end) => destruct b end ].
Qed.

Lemma print_loop_ends spec payload fuel s out len :
  0 <= len -> (String.length s <= fuel)%nat -> (print_loop fuel spec payload (mk_cursor s out len)).1 <> Fuel.
Proof.
  revert s out len. induction fuel as [|fuel IH]; intros s out len Hlen Hs.
  - destruct s; [done|cbn in Hs; lia].
  - cbn [print_loop]. rewrite mbind_get. destruct s as [|x s]; [done|]. cbn [peek cu_in].
    pose proof (print_step_no_fuel spec payload x (mk_cursor (String x s) out len)) as Hf.
    unfold mbind. destruct (print_step _ _ _ _) as [[[]| | | |] c1] eqn:E; try done.
    apply print_step_progress in E as (Hless & Hlen1 & _); [|done]. destruct c1 as [i1 o1 l1]. simpl in *.
    apply IH; [done|lia].
Qed.
