(* ===== verification/EvSignature.v ===== *)
(** * What a signature says (src/emu/ev_spec.c, src/emu/model_evspec.c)

    A signature is read into the code of the event and the layout of its
    payload: the arguments one after the other, after the size of a jumbo
    event.  Reading what is written for a code and a list of typed names gives
    them back, and a table of events holds exactly what was declared. *)

From Stdlib Require Import Ascii.
From S2P Require Import Prelude Event Cstr EvSpec EvSpecCorrect.

(** ** The layout of the payload *)

Definition name_fits (name : string) : Prop := 0 < slen name < 64.

(** Arguments from the offset [off] to the offset [last], with no hole. *)
Fixpoint layout (off : Z) (args : list ev_arg) (last : Z) : Prop :=
  match args with
  | [] => off = last
  | arg :: args' =>
      arg_offset arg = off /\ arg_size arg = type_size (arg_type arg) /\ name_fits (arg_name arg) /\
      layout (off + arg_size arg) args' last
  end.

Definition jumbo_header (jumbo : bool) : Z := if jumbo then 4 else 0.

Record well_formed (spec : ev_spec) : Prop := {
  wf_mcv : exists m c v, es_mcv spec = String m (String c (String v EmptyString)) /\ is_mcv_valid m c v = true;
  wf_nargs : Z.of_nat (length (es_args spec)) <= MAX_ARGS;
  wf_jumbo : es_is_jumbo spec = true -> es_args spec <> [];
  wf_layout : layout (jumbo_header (es_is_jumbo spec)) (es_args spec) (es_payload_size spec)
}.

Lemma layout_snoc off args arg mid :
  layout off args mid -> arg_offset arg = mid -> arg_size arg = type_size (arg_type arg) -> name_fits (arg_name arg) ->
  layout off (args ++ [arg]) (mid + arg_size arg).
Proof.
  revert off. induction args as [|a args IH]; intros off; simpl; [by intros ->|].
  intros (? & ? & ? & ?) ? ? ?. split_and!; auto.
Qed.

Lemma type_size_nonneg t : 0 <= type_size t.
Proof. by destruct t. Qed.

(** Every argument lies between the start and the end. *)
Lemma layout_inside off args last arg :
  layout off args last -> arg ∈ args ->
  arg_size arg = type_size (arg_type arg) /\ off <= arg_offset arg /\ arg_offset arg + arg_size arg <= last.
Proof.
  assert (forall off args, layout off args last -> off <= last) as Hle.
  { clear. intros off args. revert off. induction args as [|a args IH]; intros off; simpl; [lia|].
    intros (_ & Hs & _ & H). apply IH in H. pose proof (type_size_nonneg (arg_type a)). lia. }
  revert off. induction args as [|a args IH]; intros off Hl Hin; simpl in *; [by apply elem_of_nil in Hin|].
  destruct Hl as (Ho & Hs & _ & Hl). pose proof (type_size_nonneg (arg_type a)). apply elem_of_cons in Hin as [->|Hin].
  - apply Hle in Hl. split_and!; [done|lia..].
  - apply (IH _ Hl) in Hin. split_and!; [tauto|lia..].
Qed.

(** *** Tokens *)

Lemma skip_delim_head delim s c r : skip_delim delim s = String c r -> mem_char c delim = false.
Proof.
  induction s as [|x s IH]; simpl; [done|]. destruct (mem_char x delim) eqn:E; [done|]. by intros [= -> ->].
Qed.

Lemma strtok_nonempty delim s t r : strtok delim s = Some (t, r) -> 0 < slen t.
Proof.
  unfold strtok. destruct (skip_delim delim s) as [|c s'] eqn:E; [done|].
  apply skip_delim_head in E. simpl. rewrite E. destruct (take_token delim s'). intros [= <- <-].
  rewrite slen_cons. pose proof (slen_nonneg s0). lia.
Qed.

Lemma skip_delim_length delim s : (String.length (skip_delim delim s) <= String.length s)%nat.
Proof. induction s as [|c s IH]; simpl; [done|]. destruct (mem_char c delim); simpl; lia. Qed.

Lemma take_token_length delim s : (String.length (take_token delim s).2 <= String.length s)%nat.
Proof.
  induction s as [|c s IH]; simpl; [done|]. destruct (mem_char c delim); simpl; [lia|].
  destruct (take_token delim s). simpl in *. lia.
Qed.

Lemma strtok_shorter delim s t r : strtok delim s = Some (t, r) -> (String.length r < String.length s)%nat.
Proof.
  unfold strtok. destruct (skip_delim delim s) as [|c s'] eqn:E; [done|].
  pose proof (skip_delim_length delim s) as Hl. rewrite E in Hl. apply skip_delim_head in E.
  simpl in *. rewrite E. pose proof (take_token_length delim s') as Ht. destruct (take_token delim s').
  intros [= <- <-]. simpl in *. lia.
Qed.

(** *** Compiling leaves a well-formed event *)

(** What reading the arguments keeps. *)
Record reading (mcv : string) (jumbo : bool) (spec : ev_spec) : Prop := {
  rd_mcv : es_mcv spec = mcv;
  rd_jumbo : es_is_jumbo spec = jumbo;
  rd_nargs : Z.of_nat (length (es_args spec)) <= MAX_ARGS;
  rd_layout : layout (jumbo_header jumbo) (es_args spec) (es_payload_size spec)
}.

Lemma parse_arg_reading mcv jumbo arg : keeps_ok (reading mcv jumbo) (parse_arg arg).
Proof.
  intros spec [] spec' [Hm Hj Hn Hl] H. unfold parse_arg in H.
  rewrite mbind_get, mbind_require in H. destruct (Z.ltb_spec (Z.of_nat (length (es_args spec))) MAX_ARGS); [|done].
  rewrite mbind_found in H. destruct (strtok " " arg) as [[type rest]|]; [|done].
  rewrite mbind_found in H. simpl in H. destruct (strtok " " rest) as [[name rest']|] eqn:En; [|done].
  rewrite mbind_require in H. simpl in H. destruct (Z.ltb_spec (slen name) 64); [|done].
  rewrite mbind_found in H. destruct (parse_type type) as [t|]; [|done]. injection H as <-.
  split; simpl; [done|done|rewrite length_app; simpl; lia|].
  apply (layout_snoc _ _ (mk_ev_arg (type_size t) (es_payload_size spec) t name)); try done.
  split; [|done]. by eapply strtok_nonempty.
Qed.

Lemma args_loop_reading mcv jumbo fuel s : keeps_ok (reading mcv jumbo) (args_loop fuel s).
Proof.
  revert s. induction fuel as [|fuel IH]; intros s; simpl; destruct (strtok _ s) as [[arg rest]|];
    try (intros ? ? ? ? [= _ <-]; done).
  apply keeps_ok_bind; [apply parse_arg_reading|]. intros _. apply IH.
Qed.

Lemma parse_args_reading mcv jumbo spec s spec' :
  es_mcv spec = mcv -> es_is_jumbo spec = jumbo -> es_args spec = [] ->
  parse_args s spec = (Ok tt, spec') -> reading mcv jumbo spec'.
Proof.
  intros Hm Hj Ha H. unfold parse_args in H. unfold mbind at 1, mmod in H.
  eapply args_loop_reading; [|exact H]. split; simpl; rewrite ?Hm, ?Hj, ?Ha; done.
Qed.

(** The mark of a jumbo event. *)
Definition plus_split (next : string) : bool * string :=
  match next with String "+" n => (true, n) | _ => (false, next) end.

Lemma parse_signature_cons m c v next :
  parse_signature (String m (String c (String v next))) ev_spec_zero =
  if is_mcv_valid m c v then
    (match (plus_split next).2 with
     | EmptyString => require (negb (plus_split next).1)
     | String "(" args =>
         parse_args args ;;;
         let* spec := mget in
         require (negb (length (es_args spec) =? 0)%nat)
     | _ => mfail
     end) (mk_ev_spec (String m (String c (String v EmptyString))) (plus_split next).1 [] 0 EmptyString)
  else (Err, ev_spec_zero).
Proof.
  unfold parse_signature. rewrite mbind_require. destruct (is_mcv_valid m c v); [|done].
  unfold plus_split. destruct next as [|[[] [] [] [] [] [] [] []] n]; done.
Qed.

Lemma ev_spec_compile_well_formed decl spec : ev_spec_compile decl = Ok spec -> well_formed spec.
Proof.
  unfold ev_spec_compile. destruct (256 <=? _); [done|].
  destruct (ed_signature decl) as [|m [|c [|v next]]]; try done.
  rewrite parse_signature_cons. destruct (is_mcv_valid m c v) eqn:Hv; [|done].
  destruct (plus_split next) as [jumbo next']. cbn [fst snd].
  destruct next' as [|x args].
  { unfold require. destruct jumbo; [done|]. intros [= <-]. split; simpl; eauto; done. }
  destruct (decide (x = "("%char)) as [->|Hx].
  2: { destruct x as [[] [] [] [] [] [] [] []]; try done; by destruct Hx. }
  set (m0 := mbind _ _). intros H. destruct (m0 _) as [[[]| | | |] s] eqn:E; try done. injection H as <-.
  apply mbind_Ok in E as ([] & s1 & E1 & E2). rewrite mbind_get, require_run in E2.
  destruct (length (es_args s1) =? 0)%nat eqn:En; [done|]. injection E2 as <-.
  eapply parse_args_reading in E1 as [Hm Hj Hn Hl]; [|done..]. simpl in *.
  apply Nat.eqb_neq in En. split; simpl; [|done| |].
  - exists m, c, v. done.
  - intros _ E. by rewrite E in En.
  - by rewrite Hj.
Qed.

(** A declaration that compiles gives a code of three printable characters
    and a layout with no holes: each argument starts where the one before it
    ends, the first after the size of a jumbo event, and [payload_size] is the
    end; names fit in their arrays and there are at most sixteen. *)
Theorem ev_spec_compile_layout decl spec : ev_spec_compile decl = Ok spec -> well_formed spec.
Proof. apply ev_spec_compile_well_formed. Qed.

(** ** Writing a signature and reading it *)

(** [t n, t n, ...)]. *)
Definition arg_text (a : ev_arg_type * string) : string := (type_name a.1 ++ " " ++ a.2)%string.
Fixpoint args_text (l : list (ev_arg_type * string)) : string :=
  match l with
  | [] => EmptyString
  | [a] => (arg_text a ++ ")")%string
  | a :: l' => (arg_text a ++ ", " ++ args_text l')%string
  end.

Definition signature_text (mcv : string) (jumbo : bool) (l : list (ev_arg_type * string)) : string :=
  (mcv ++ (if jumbo then "+" else EmptyString) ++
   match l with [] => EmptyString | _ => String "(" (args_text l) end)%string.

(** The arguments at their offsets. *)
Fixpoint place (off : Z) (l : list (ev_arg_type * string)) : list ev_arg :=
  match l with
  | [] => []
  | (t, name) :: l' => mk_ev_arg (type_size t) off t name :: place (off + type_size t) l'
  end.
Definition total_size (l : list (ev_arg_type * string)) : Z := foldr (fun a n => type_size a.1 + n) 0 l.

Definition plain (c : ascii) : bool := negb (mem_char c " ,)").
Definition arg_ok (a : ev_arg_type * string) : bool :=
  negb (slen a.2 =? 0) && (slen a.2 <? 64) && all_chars plain a.2.

Lemma take_token_app delim t d r :
  all_chars (fun c => negb (mem_char c delim)) t = true -> mem_char d delim = true ->
  take_token delim (t ++ String d r) = (t, r).
Proof.
  intros Ht Hd. induction t as [|c t IH]; sapp; simpl; [by rewrite Hd|].
  simpl in Ht. apply andb_true_iff in Ht as [Hc Ht]. apply negb_true_iff in Hc. rewrite Hc, IH; done.
Qed.

Lemma take_token_all delim t :
  all_chars (fun c => negb (mem_char c delim)) t = true -> take_token delim t = (t, EmptyString).
Proof.
  induction t as [|c t IH]; simpl; [done|]. intros [Hc Ht]%andb_true_iff. apply negb_true_iff in Hc.
  by rewrite Hc, IH.
Qed.

Lemma strtok_here delim t s :
  all_chars (fun c => negb (mem_char c delim)) t = true -> slen t <> 0 -> strtok delim (t ++ s) = Some (take_token delim (t ++ s)).
Proof.
  intros Ht Hne. destruct t as [|c t]; [done|]. simpl in Ht. apply andb_true_iff in Ht as [Hc _].
  apply negb_true_iff in Hc. unfold strtok. sapp. simpl skip_delim. by rewrite Hc.
Qed.

Lemma plain_not delim t :
  (forall c, mem_char c delim = true -> mem_char c " ,)" = true) -> all_chars plain t = true ->
  all_chars (fun c => negb (mem_char c delim)) t = true.
Proof.
  intros Hd. induction t as [|c t IH]; simpl; [done|]. intros [Hc Ht]%andb_true_iff. rewrite IH by done.
  rewrite andb_true_r. apply negb_true_iff. apply negb_true_iff in Hc. destruct (mem_char c delim) eqn:E; [|done].
  by rewrite Hd in Hc.
Qed.

Lemma mem_space c : mem_char c " " = true -> mem_char c " ,)" = true.
Proof. simpl. rewrite orb_false_r. by intros ->. Qed.

Lemma mem_comma c : mem_char c ",)" = true -> mem_char c " ,)" = true.
Proof. intros H. change (bool_decide (c = " "%char) || mem_char c ",)" = true). rewrite H. apply orb_true_r. Qed.

Lemma type_name_plain t : all_chars plain (type_name t) = true /\ slen (type_name t) <> 0 /\ parse_type (type_name t) = Some t.
Proof. by destruct t. Qed.

(** The text of an argument, perhaps after a space. *)
Definition one_arg (lead : bool) (a : ev_arg_type * string) : string := (if lead then String " " (arg_text a) else arg_text a).

Lemma parse_arg_text lead a spec :
  arg_ok a = true -> Z.of_nat (length (es_args spec)) < MAX_ARGS ->
  parse_arg (one_arg lead a) spec =
  (Ok tt, mk_ev_spec (es_mcv spec) (es_is_jumbo spec)
    (es_args spec ++ [mk_ev_arg (type_size a.1) (es_payload_size spec) a.1 a.2])
    (es_payload_size spec + type_size a.1) (es_description spec)).
Proof.
  intros Ha Hn. destruct a as [t name]. unfold arg_ok in Ha. simpl in Ha.
  rewrite !andb_true_iff, negb_true_iff, Z.eqb_neq in Ha. destruct Ha as [[Hne Hl] Hp].
  destruct (type_name_plain t) as (Ht & Htne & Hpt).
  pose proof (plain_not _ _ mem_space Ht) as Hts. pose proof (plain_not _ _ mem_space Hp) as Hps.
  assert (strtok " " (one_arg lead (t, name)) = Some (type_name t, name)) as E.
  { transitivity (strtok " " (arg_text (t, name))); [by destruct lead|].
    unfold arg_text. simpl fst. simpl snd. rewrite strtok_here by done. f_equal. by apply take_token_app. }
  unfold parse_arg. rewrite mbind_get, mbind_require, (proj2 (Z.ltb_lt _ _)) by done.
  rewrite mbind_found, E, mbind_found. simpl fst. simpl snd.
  assert (strtok " " name = Some (name, EmptyString)) as ->.
  { rewrite <-(sapp_nil name) at 1. rewrite strtok_here by done. rewrite sapp_nil. by rewrite take_token_all. }
  rewrite mbind_require. simpl fst. rewrite Hl, mbind_found, Hpt. done.
Qed.

Lemma args_loop_text (l : list (ev_arg_type * string)) : forall fuel (lead : bool) spec,
  l <> [] -> forallb arg_ok l = true -> Z.of_nat (length (es_args spec)) + Z.of_nat (length l) <= MAX_ARGS ->
  (length l <= fuel)%nat ->
  args_loop fuel (if lead then String " " (args_text l) else args_text l) spec =
  (Ok tt, mk_ev_spec (es_mcv spec) (es_is_jumbo spec) (es_args spec ++ place (es_payload_size spec) l)
    (es_payload_size spec + total_size l) (es_description spec)).
Proof.
  induction l as [|a l IH]; intros fuel lead spec Hne Hok Hn Hf; [done|].
  simpl in Hok, Hn, Hf. apply andb_true_iff in Hok as [Ha Hok]. destruct fuel as [|fuel]; [lia|].
  assert (exists d rest, mem_char d ",)" = true /\
    (if lead then String " " (args_text (a :: l)) else args_text (a :: l)) = (one_arg lead a ++ String d rest)%string /\
    rest = match l with [] => EmptyString | _ => String " " (args_text l) end) as (d & rest & Hd & E & Hrest).
  { destruct l as [|b l]; [exists ")"%char|exists ","%char]; eexists; (split; [done|split; [|done]]);
      destruct lead; done. }
  assert (strtok ",)" (one_arg lead a ++ String d rest) = Some (one_arg lead a, rest)) as Etok.
  { pose proof Ha as Ha'. unfold arg_ok in Ha'. rewrite !andb_true_iff in Ha'. destruct Ha' as [_ Hp].
    assert (all_chars (fun c => negb (mem_char c ",)")) (one_arg lead a) = true) as Hall.
    { pose proof (plain_not _ _ mem_comma Hp). pose proof (type_name_plain a.1) as (Ht & _ & _).
      apply (plain_not _ _ mem_comma) in Ht. unfold one_arg, arg_text.
      assert (forall P s t, all_chars P (s ++ t) = all_chars P s && all_chars P t) as Happ.
      { clear. intros P s t. induction s as [|c s IH]; sapp; simpl; [done|]. by rewrite IH, andb_assoc. }
      destruct lead; [change (all_chars (fun c => negb (mem_char c ",)")) (type_name a.1 ++ " " ++ a.2) = true)|]; rewrite !Happ, Ht, H; done. }
    rewrite strtok_here; [by rewrite take_token_app|done|].
    unfold one_arg, arg_text. destruct lead, a.1; done. }
  cbn [args_loop]. rewrite E, Etok. rewrite (mbind_run _ _ _ _ _ (parse_arg_text lead a spec Ha ltac:(lia))).
  destruct l as [|b l].
  - subst rest. destruct fuel; simpl; destruct a; simpl; by rewrite ?Z.add_0_r.
  - subst rest. rewrite (IH fuel true) by (simpl in *; try rewrite length_app; simpl; try lia; done).
    cbn [es_mcv es_is_jumbo es_args es_payload_size es_description]. destruct a as [t name]. rewrite <-app_assoc.
    cbn [place total_size foldr app fst snd]. by rewrite <-Z.add_assoc.
Qed.

(** C35. Reading a signature gives back what it was written from: the code, and
    every argument with its type, its name and the sum of the sizes before it. *)
Theorem signature_round_trip m c v jumbo l description :
  is_mcv_valid m c v = true -> forallb arg_ok l = true -> Z.of_nat (length l) <= MAX_ARGS ->
  (jumbo = true -> l <> []) ->
  slen (signature_text (String m (String c (String v EmptyString))) jumbo l) < 256 ->
  ev_spec_compile (mk_ev_decl (signature_text (String m (String c (String v EmptyString))) jumbo l) description) =
  Ok (mk_ev_spec (String m (String c (String v EmptyString))) jumbo (place (jumbo_header jumbo) l)
        (if bool_decide (l = []) then 0 else jumbo_header jumbo + total_size l) description).
Proof.
  intros Hv Hl Hn Hj Hlen. unfold ev_spec_compile. cbn [ed_signature ed_description].
  rewrite (proj2 (Z.leb_gt _ _)) by done. unfold signature_text. sapp. rewrite parse_signature_cons, Hv.
  set (tail := match l with [] => EmptyString | _ => _ end).
  assert (plus_split ((if jumbo then "+" else EmptyString) ++ tail) = (jumbo, tail)) as ->.
  { destruct jumbo; [done|]. sapp. subst tail. by destruct l. }
  cbn [fst snd]. destruct l as [|a l].
  { subst tail. destruct jumbo; [by destruct Hj|]. done. }
  subst tail. unfold parse_args. unfold mbind at 1 2, mmod. cbn [es_mcv es_is_jumbo es_args es_description].
  assert (length (a :: l) <= String.length (args_text (a :: l)))%nat as Hfuel.
  { clear. revert a. induction l as [|b l IH]; intros a; [destruct a as [[] s]; simpl; lia|].
    specialize (IH b). change (args_text (a :: b :: l)) with (arg_text a ++ ", " ++ args_text (b :: l))%string.
    pose proof (slen_app (arg_text a) (", " ++ args_text (b :: l))). unfold slen in *.
    change (String.length (", " ++ args_text (b :: l))) with (2 + String.length (args_text (b :: l)))%nat in *.
    simpl length in *. lia. }
  rewrite (args_loop_text (a :: l) _ false) by (try done; simpl in *; lia).
  simpl. destruct a as [t name]. simpl. by destruct jumbo.
Qed.

(** ** The table of a model (model_evspec.c) *)

(** What [evspec] holds after the declarations [done]. *)
Record holds_events (model : Z) (decls : list ev_decl) (evspec : model_evspec) : Prop := {
  he_compiled : Forall2 (fun decl s => ev_spec_compile decl = Ok s) decls (mev_alloc evspec);
  he_nodup : NoDup (map es_mcv (mev_alloc evspec));
  he_model : Forall (fun s => first_char (es_mcv s) = model) (mev_alloc evspec);
  he_find : forall mcv s, model_evspec_find evspec mcv = Some s <-> s ∈ mev_alloc evspec /\ es_mcv s = mcv
}.

Lemma evspec_loop_holds model decls evlist evspec evspec' :
  holds_events model decls evspec -> evspec_loop model evlist evspec = Ok evspec' ->
  holds_events model (decls ++ evlist) evspec' /\ mev_nevents evspec' = mev_nevents evspec.
Proof.
  revert decls evspec. induction evlist as [|d evlist IH]; intros decls evspec Hh; simpl.
  { intros [= <-]. by rewrite app_nil_r. }
  destruct (ev_spec_compile d) as [s| | | |] eqn:Ec; try done.
  destruct (model_evspec_find evspec (es_mcv s)) eqn:Ef; [done|].
  destruct (Z.eqb_spec (first_char (es_mcv s)) model) as [Hm|]; [|done]. simpl.
  destruct Hh as [Hc Hn Hmod Hf].
  assert (forall s', s' ∈ mev_alloc evspec -> es_mcv s' <> es_mcv s) as Hnew.
  { intros s' Hs' E. assert (model_evspec_find evspec (es_mcv s) = Some s') by (apply Hf; done). congruence. }
  change (d :: evlist) with ([d] ++ evlist). rewrite app_assoc.
  refine (IH (decls ++ [d]) (mk_model_evspec _ (mev_nevents evspec) (mev_alloc evspec ++ [s])) _). split; simpl.
  - apply Forall2_app; [done|]. by constructor.
  - rewrite map_app. apply list.NoDup_app. split_and!; [done| |apply NoDup_singleton].
    intros mcv Hin. apply list_elem_of_fmap in Hin as (s' & -> & Hs'). intros E%list_elem_of_singleton.
    by eapply Hnew.
  - apply Forall_app. split; [done|]. by constructor.
  - intros mcv s'. unfold model_evspec_find in *. simpl. rewrite elem_of_app, list_elem_of_singleton.
    destruct (decide (es_mcv s = mcv)) as [<-|Hne].
    + rewrite lookup_insert_eq. split; [intros [= <-]; auto|]. intros [[Hs'| ->] E]; [|done].
      by destruct (Hnew s' Hs').
    + rewrite lookup_insert_ne, Hf by done. split; [tauto|]. intros [[Hs'| ->] E]; done.
Qed.

Lemma model_evspec_init_built model evlist evspec :
  model_evspec_init model evlist = Ok evspec ->
  evlist <> [] /\ mev_nevents evspec = Z.of_nat (length evlist) /\ holds_events model evlist evspec.
Proof.
  unfold model_evspec_init. destruct (length evlist =? 0)%nat eqn:E; [done|]. intros H.
  apply Nat.eqb_neq in E. apply (evspec_loop_holds model []) in H as [Hh Hn].
  - split_and!; [by intros ->|done|done].
  - split; simpl; [constructor|constructor|constructor|]. intros mcv s. unfold model_evspec_find. simpl.
    rewrite lookup_empty. split; [done|]. intros [Hs _]. by apply elem_of_nil in Hs.
Qed.

(** The table of a model that registers holds exactly its declarations: as
    many events as declarations, each compiled from its own, with different
    codes that start with the character of the model, and a code finds an event
    when and only when one of them has it. *)
Theorem model_evspec_init_holds model evlist evspec :
  model_evspec_init model evlist = Ok evspec ->
  evlist <> [] /\ mev_nevents evspec = Z.of_nat (length evlist) /\ holds_events model evlist evspec.
Proof. apply model_evspec_init_built. Qed.
