(* ===== verification/EvLists.v ===== *)
(** * The events every model declares (src/emu/*/setup.c)

    The tables of signatures and descriptions, as the models list them. *)

From Stdlib Require Import Ascii.
From S2P Require Import Prelude EvSpec.

(** The double quote. *)
Definition quote : ascii := Ascii false true false false false true false false.

Definition decl (signature description : string) : list ev_decl := [mk_ev_decl signature description].

Definition ovni_evlist : list ev_decl := concat
  [ decl "OAr(i32 cpu, i32 tid)" "changes the affinity of thread %{tid} to CPU %{cpu}";
    decl "OAs(i32 cpu)" "switches it's own affinity to the CPU %{cpu}";
    decl "OB." "emits a burst event to measure latency";
    decl "OHC(i32 cpu, u64 tag)" "creates a new thread on CPU %{cpu} with tag %#llx{tag}";
    decl "OHc" "enters the Cooling state (about to be paused)";
    decl "OHe" "ends the execution";
    decl "OHp" "pauses the execution";
    decl "OHr" "resumes the execution";
    decl "OHw" "enters the Warming state (about to be running)";
    decl "OHx(i32 cpu, i32 tid, u64 tag)" "begins the execution on CPU %{cpu} created from %{tid} with tag %#llx{tag}";
    decl "OCn(i32 cpu)" "informs there are %{cpu} CPUs";
    PAIR_B "OF[" "OF]" "flushing events to disk";
    PAIR_E "OU[" "OU]" "unordered event region";
    decl "OM[(i64 value, i32 type)" "push mark with value %{value} from type %{type}";
    decl "OM](i64 value, i32 type)" "pop mark with value %{value} from type %{type}";
    decl "OM=(i64 value, i32 type)" "set mark with value %{value} from type %{type}" ].

Definition nanos6_evlist : list ev_decl := concat
  [ decl "6Yc+(u32 typeid, str label)" ("creates task type %{typeid} with label " ++ String quote ("%{label}" ++ String quote EmptyString))%string;
    decl "6Tc(u32 taskid, u32 typeid)" "creates task %{taskid} with type %{typeid}";
    decl "6Tx(u32 taskid)" "executes the task %{taskid}";
    decl "6Te(u32 taskid)" "ends the task %{taskid}";
    decl "6Tp(u32 taskid)" "pauses the task %{taskid}";
    decl "6Tr(u32 taskid)" "resumes the task %{taskid}";
    PAIR_E "6W[" "6W]" "worker main loop, looking for tasks";
    PAIR_B "6Wt" "6WT" "handling a task via handleTask()";
    PAIR_B "6Ww" "6WW" "switching to another worker via switchTo()";
    PAIR_B "6Wm" "6WM" "migrating the current worker to another CPU";
    PAIR_B "6Ws" "6WS" "suspending the worker via suspend()";
    PAIR_B "6Wr" "6WR" "resuming another worker via resume()";
    PAIR_E "6Wg" "6WG" "sponge mode (absorbing system noise)";
    decl "6W*" "signals another worker to wake up";
    decl "6Pp" "sets progress state to Progressing";
    decl "6Pr" "sets progress state to Resting";
    decl "6Pa" "sets progress state to Absorbing";
    PAIR_B "6C[" "6C]" "creating a new task";
    PAIR_B "6U[" "6U]" "submitting a task via submitTask()";
    PAIR_B "6F[" "6F]" "spawning a function via spawnFunction()";
    PAIR_E "6t[" "6t]" "the task body";
    PAIR_B "6O[" "6O]" "running the task body as taskfor collaborator";
    PAIR_S "6Ma" "6MA" "allocating memory";
    PAIR_S "6Mf" "6MF" "freeing memory";
    PAIR_B "6Dr" "6DR" "registration of task dependencies";
    PAIR_B "6Du" "6DU" "unregistration of task dependencies";
    PAIR_B "6S[" "6S]" "scheduler serving mode";
    PAIR_B "6Sa" "6SA" "submitting a ready task via addReadyTask()";
    PAIR_B "6Sp" "6SP" "processing ready tasks via processReadyTasks()";
    decl "6S@" "self assigns itself a task";
    decl "6Sr" "receives a task from another thread";
    decl "6Ss" "sends a task to another thread";
    PAIR_B "6Bb" "6BB" "blocking the current task";
    PAIR_B "6Bu" "6BU" "unblocking a task";
    PAIR_E "6Bw" "6BW" "a task wait";
    PAIR_E "6Bf" "6BF" "a wait for";
    PAIR_B "6He" "6HE" "execution as external thread";
    PAIR_B "6Hw" "6HW" "execution as worker";
    PAIR_B "6Hl" "6HL" "execution as leader";
    PAIR_B "6Hm" "6HM" "execution as main thread" ].

Definition nosv_evlist : list ev_decl := concat
  [ decl "VTc(u32 taskid, u32 typeid)" "creates task %{taskid} with type %{typeid}";
    decl "VTC(u32 taskid, u32 typeid)" "creates parallel task %{taskid} with type %{typeid}";
    decl "VTx(u32 taskid, u32 bodyid)" "executes the task %{taskid} with bodyid %{bodyid}";
    decl "VTe(u32 taskid, u32 bodyid)" "ends the task %{taskid} with bodyid %{bodyid}";
    decl "VTp(u32 taskid, u32 bodyid)" "pauses the task %{taskid} with bodyid %{bodyid}";
    decl "VTr(u32 taskid, u32 bodyid)" "resumes the task %{taskid} with bodyid %{bodyid}";
    decl "VYc+(u32 typeid, str label)" ("creates task type %{typeid} with label " ++ String quote ("%{label}" ++ String quote EmptyString))%string;
    decl "VSr" "receives a task from another thread";
    decl "VSs" "sends a task to another thread";
    decl "VS@" "self assigns itself a task";
    decl "VSh" "enters the hungry state, waiting for work";
    decl "VSf" "is no longer hungry";
    PAIR_E "VS[" "VS]" "scheduler server blocking mode";
    PAIR_E "VSN" "VSn" "scheduler server non-blocking mode";
    PAIR_S "VU[" "VU]" "submitting a task";
    PAIR_S "VMa" "VMA" "allocating memory";
    PAIR_S "VMf" "VMF" "freeing memory";
    PAIR_E "VAr" "VAR" "nosv_create()";
    PAIR_E "VAd" "VAD" "nosv_destroy()";
    PAIR_E "VAs" "VAS" "nosv_submit()";
    PAIR_E "VAp" "VAP" "nosv_pause()";
    PAIR_E "VAy" "VAY" "nosv_yield()";
    PAIR_E "VAw" "VAW" "nosv_waitfor()";
    PAIR_E "VAc" "VAC" "nosv_schedpoint()";
    PAIR_E "VAa" "VAA" "nosv_attach()";
    PAIR_E "VAe" "VAE" "nosv_detach()";
    PAIR_E "VAl" "VAL" "nosv_mutex_lock()";
    PAIR_E "VAt" "VAT" "nosv_mutex_trylock()";
    PAIR_E "VAu" "VAU" "nosv_mutex_unlock()";
    PAIR_E "VAb" "VAB" "nosv_barrier_wait()";
    PAIR_E "VAo" "VAO" "nosv_cond_wait()";
    PAIR_E "VAg" "VAG" "nosv_cond_signal()";
    PAIR_E "VAk" "VAK" "nosv_cond_broadcast()";
    decl "VHa" "enters nosv_attach()";
    decl "VHA" "leaves nosv_dettach()";
    PAIR_B "VHw" "VHW" "execution as worker";
    PAIR_B "VHd" "VHD" "execution as delegate";
    decl "VPp" "sets progress state to Progressing";
    decl "VPr" "sets progress state to Resting";
    decl "VPa" "sets progress state to Absorbing";
    decl "VWC+(i64 value)" "set hardware counters (first %{value})" ].

Definition nodes_evlist : list ev_decl := concat
  [ PAIR_B "DR[" "DR]" "registering task accesses";
    PAIR_B "DU[" "DU]" "unregistering task accesses";
    PAIR_E "DW[" "DW]" "a blocking condition (waiting for an If0 task)";
    PAIR_B "DI[" "DI]" "the inline execution of an If0 task";
    PAIR_E "DT[" "DT]" "a taskwait";
    PAIR_B "DC[" "DC]" "creating a task";
    PAIR_B "DS[" "DS]" "submitting a task";
    PAIR_B "DP[" "DP]" "spawning a function" ].

Definition tampi_evlist : list ev_decl := concat
  [ PAIR_S "TCi" "TCI" "issuing a non-blocking communication operation";
    PAIR_S "TGc" "TGC" "checking pending requests from the global array";
    PAIR_E "TLi" "TLI" "the library code at an API function";
    PAIR_E "TLp" "TLP" "the library code at a polling function";
    PAIR_S "TQa" "TQA" "adding a ticket/requests to a queue";
    PAIR_S "TQt" "TQT" "transferring tickets/requests from queues to global array";
    PAIR_S "TRc" "TRC" "processsing a completed request";
    PAIR_S "TRt" "TRT" "testing a single request with MPI_Test";
    PAIR_S "TRa" "TRA" "testing several requests with MPI_Testall";
    PAIR_S "TRs" "TRS" "testing several requests with MPI_Testsome";
    PAIR_S "TTc" "TTC" "creating a ticket linked to a set of requests and a task";
    PAIR_S "TTw" "TTW" "waiting for a ticket completion" ].

Definition mpi_evlist : list ev_decl := concat
  [ PAIR_E "MUf" "MUF" "MPI_Finalize()";
    PAIR_E "MUi" "MUI" "MPI_Init()";
    PAIR_E "MUt" "MUT" "MPI_Init_thread()";
    PAIR_E "MW[" "MW]" "MPI_Wait()";
    PAIR_E "MWa" "MWA" "MPI_Waitall()";
    PAIR_E "MWs" "MWS" "MPI_Waitsome()";
    PAIR_E "MWy" "MWY" "MPI_Waitany()";
    PAIR_E "MT[" "MT]" "MPI_Test()";
    PAIR_E "MTa" "MTA" "MPI_Testall()";
    PAIR_E "MTy" "MTY" "MPI_Testany()";
    PAIR_E "MTs" "MTS" "MPI_Testsome()";
    PAIR_E "MS[" "MS]" "MPI_Send()";
    PAIR_E "MSb" "MSB" "MPI_Bsend()";
    PAIR_E "MSr" "MSR" "MPI_Rsend()";
    PAIR_E "MSs" "MSS" "MPI_Ssend()";
    PAIR_E "MR[" "MR]" "MPI_Recv()";
    PAIR_E "MRs" "MRS" "MPI_Sendrecv()";
    PAIR_E "MRo" "MRO" "MPI_Sendrecv_replace()";
    PAIR_E "MAg" "MAG" "MPI_Allgather()";
    PAIR_E "MAr" "MAR" "MPI_Allreduce()";
    PAIR_E "MAa" "MAA" "MPI_Alltoall()";
    PAIR_E "MCb" "MCB" "MPI_Barrier()";
    PAIR_E "MCe" "MCE" "MPI_Exscan()";
    PAIR_E "MCs" "MCS" "MPI_Scan()";
    PAIR_E "MDb" "MDB" "MPI_Bcast()";
    PAIR_E "MDg" "MDG" "MPI_Gather()";
    PAIR_E "MDs" "MDS" "MPI_Scatter()";
    PAIR_E "ME[" "ME]" "MPI_Reduce()";
    PAIR_E "MEs" "MES" "MPI_Reduce_scatter()";
    PAIR_E "MEb" "MEB" "MPI_Reduce_scatter_block()";
    PAIR_E "Ms[" "Ms]" "MPI_Isend()";
    PAIR_E "Msb" "MsB" "MPI_Ibsend()";
    PAIR_E "Msr" "MsR" "MPI_Irsend()";
    PAIR_E "Mss" "MsS" "MPI_Issend()";
    PAIR_E "Mr[" "Mr]" "MPI_Irecv()";
    PAIR_E "Mrs" "MrS" "MPI_Isendrecv()";
    PAIR_E "Mro" "MrO" "MPI_Isendrecv_replace()";
    PAIR_E "Mag" "MaG" "MPI_Iallgather()";
    PAIR_E "Mar" "MaR" "MPI_Iallreduce()";
    PAIR_E "Maa" "MaA" "MPI_Ialltoall()";
    PAIR_E "Mcb" "McB" "MPI_Ibarrier()";
    PAIR_E "Mce" "McE" "MPI_Iexscan()";
    PAIR_E "Mcs" "McS" "MPI_Iscan()";
    PAIR_E "Mdb" "MdB" "MPI_Ibcast()";
    PAIR_E "Mdg" "MdG" "MPI_Igather()";
    PAIR_E "Mds" "MdS" "MPI_Iscatter()";
    PAIR_E "Me[" "Me]" "MPI_Ireduce()";
    PAIR_E "Mes" "MeS" "MPI_Ireduce_scatter()";
    PAIR_E "Meb" "MeB" "MPI_Ireduce_scatter_block()" ].

Definition kernel_evlist : list ev_decl := concat
  [ decl "KCO" "out of CPU";
    decl "KCI" "back to CPU" ].

Definition openmp_evlist : list ev_decl := concat
  [ PAIR_B "PBb" "PBB" "plain barrier";
    PAIR_B "PBj" "PBJ" "join barrier";
    PAIR_B "PBf" "PBF" "fork barrier";
    PAIR_B "PBt" "PBT" "tasking barrier";
    PAIR_B "PBs" "PBS" "spin wait";
    PAIR_B "PIa" "PIA" "critical acquiring";
    PAIR_B "PIr" "PIR" "critical releasing";
    PAIR_B "PI[" "PI]" "critical section";
    PAIR_B "PWd" "PWD" "distribute";
    PAIR_B "PWy" "PWY" "dynamic for init";
    PAIR_B "PWc" "PWC" "dynamic for chunk";
    PAIR_B "PWs" "PWS" "static for";
    PAIR_B "PWe" "PWE" "section";
    PAIR_B "PWi" "PWI" "single";
    PAIR_B "PTa" "PTA" "task allocation";
    PAIR_B "PTc" "PTC" "checking task dependencies";
    PAIR_B "PTd" "PTD" "duplicating a task";
    PAIR_B "PTr" "PTR" "releasing task dependencies";
    PAIR_B "PT[" "PT]" "running a task";
    PAIR_B "PTi" "PTI" "running an if0 task";
    PAIR_B "PTs" "PTS" "scheduling a task";
    PAIR_B "PTg" "PTG" "a taskgroup";
    PAIR_B "PTt" "PTT" "a taskwait";
    PAIR_B "PTw" "PTW" "waiting for taskwait dependencies";
    PAIR_B "PTy" "PTY" "a taskyield";
    PAIR_E "PA[" "PA]" "the attached state";
    PAIR_B "PMi" "PMI" "microtask internal";
    PAIR_B "PMu" "PMU" "microtask user code";
    PAIR_B "PH[" "PH]" "worker loop";
    PAIR_B "PCf" "PCF" "fork call";
    PAIR_B "PCi" "PCI" "initialization";
    decl "POc+(u32 typeid, str label)" ("creates a type %{typeid} with label " ++ String quote ("%{label}" ++ String quote EmptyString))%string;
    decl "PPc(u32 taskid, u32 typeid)" "creates the task %{taskid} with type %{typeid}";
    decl "PPx(u32 taskid)" "executes the task %{taskid}";
    decl "PPe(u32 taskid)" "ends the task %{taskid}";
    decl "PQx(u32 typeid)" "begins worksharing with type %{typeid}";
    decl "PQe(u32 typeid)" "ends worksharing with type %{typeid}" ].

Definition xtasks_evlist : list ev_decl := concat
  [ decl "Xse(u64 value, u32 id, u32 type)" "FPGA task id %{value}, event id %{id}, event type %{type}" ].
