(* ===== verification/EvPrint.v ===== *)
(** * The values of an event in its description (src/emu/ev_spec.c, src/emu/model.c)

    What an argument prints is read back as the value the payload holds, every
    event the models declare is printed for any payload that covers its
    arguments, and an argument out of the event is read all the same. *)

From Stdlib Require Import Ascii.
From S2P Require Import Prelude Event Cstr EvSpec EvSpecCorrect EvSignature EvLists.

(** ** Values of the arguments *)

(** The values of a type, the bits it takes in the payload and those it is
    passed in. *)
Definition type_bits (t : ev_arg_type) : Z := 8 * type_size t.
Definition is_signed (t : ev_arg_type) : bool := match t with I8 | I16 | I32 | I64 => true | _ => false end.
Definition in_type (t : ev_arg_type) (z : Z) : Prop :=
  if is_signed t then - 2 ^ (type_bits t - 1) <= z < 2 ^ (type_bits t - 1) else 0 <= z < 2 ^ type_bits t.
Definition passed_bits (t : ev_arg_type) : Z := match t with U64 | I64 => 64 | _ => 32 end.

Lemma signed_range w z : 0 < w -> - 2 ^ (w - 1) <= signed w z < 2 ^ (w - 1).
Proof.
  intros Hw. unfold signed. pose proof (Z.mod_pos_bound (z + 2 ^ (w - 1)) (2 ^ w) ltac:(lia)) as H.
  assert (2 ^ w = 2 * 2 ^ (w - 1)) by (rewrite <-Z.pow_succ_r by lia; f_equal; lia). lia.
Qed.

Lemma signed_mod w z : 0 < w -> - 2 ^ (w - 1) <= z < 2 ^ (w - 1) -> signed w (z mod 2 ^ w) = z.
Proof.
  intros Hw Hz. unfold signed. rewrite Zplus_mod_idemp_l.
  assert (2 ^ w = 2 * 2 ^ (w - 1)) by (rewrite <-Z.pow_succ_r by lia; f_equal; lia).
  rewrite Z.mod_small; lia.
Qed.

(** What is passed for the number in the payload. *)
Definition read_as (t : ev_arg_type) (n : Z) : Z := if is_signed t then signed (type_bits t) n else n.

Lemma arg_value_int arg mem :
  arg_type arg <> STR ->
  arg_value arg (Some mem) =
  (fun n => AInt (passed_bits (arg_type arg)) (read_as (arg_type arg) n)) <$>
  get_u (Z.to_nat (arg_offset arg)) (Z.to_nat (type_size (arg_type arg))) mem.
Proof. intros Ht. unfold arg_value. simpl. by destruct (arg_type arg). Qed.

Lemma get_u_covered i n mem :
  Forall byte_ok mem -> (i + n <= length mem)%nat -> exists z, get_u i n mem = Some z /\ 0 <= z < 256 ^ Z.of_nat n.
Proof.
  intros Hb Hlen. unfold get_u, get_bytes. rewrite (proj2 (Nat.leb_le _ _)) by done.
  eexists. split; [done|]. assert (length (take n (drop i mem)) = n) as E by (rewrite length_take, length_drop; lia).
  pose proof (le_decode_range (take n (drop i mem))) as H. rewrite E in H.
  by apply H, Forall_take, Forall_drop.
Qed.

Lemma arg_value_covered arg mem :
  arg_type arg <> STR -> Forall byte_ok mem -> 0 <= arg_offset arg ->
  arg_offset arg + type_size (arg_type arg) <= Z.of_nat (length mem) ->
  exists z, arg_value arg (Some mem) = Some (AInt (passed_bits (arg_type arg)) z) /\ in_type (arg_type arg) z.
Proof.
  intros Ht Hb Ho Hlen. rewrite arg_value_int by done. pose proof (type_size_nonneg (arg_type arg)).
  destruct (get_u_covered (Z.to_nat (arg_offset arg)) (Z.to_nat (type_size (arg_type arg))) mem Hb ltac:(lia)) as (n & E & Hn).
  rewrite E. eexists. split; [done|]. rewrite Z2Nat.id in Hn by done. unfold in_type, read_as, type_bits.
  destruct (arg_type arg); try done; cbn [is_signed type_size] in *; try (apply signed_range; done); exact Hn.
Qed.

(** ** The text of a value *)

Lemma pad_none prefix body : pad no_flags 0 prefix body = (prefix ++ body)%string.
Proof.
  unfold pad. simpl. pose proof (slen_nonneg prefix). pose proof (slen_nonneg body).
  replace (Z.to_nat (0 - slen prefix - slen body)) with 0%nat by lia. done.
Qed.

Definition signed_string (z : Z) : string := if z <? 0 then String "-" (number false 10 (Z.abs z)) else number false 10 z.

Lemma signed_text_none z : signed_text no_flags 0 z = signed_string z.
Proof.
  unfold signed_text, signed_string. rewrite pad_none. simpl. destruct (Z.ltb_spec z 0); [done|].
  rewrite sapp_empty. f_equal. lia.
Qed.

(** The default format of every type writes the number in decimal. *)
Lemma printf_default t z :
  t <> STR -> in_type t z -> printf (type_fmt t) (AInt (passed_bits t) z) = Some (signed_string z).
Proof.
  intros Ht Hz.
  assert (is_signed t = false -> printf (type_fmt t) (AInt (passed_bits t) z) =
    Some (pad no_flags 0 EmptyString (number false 10 (z mod 2 ^ passed_bits t)) ++ EmptyString)%string) as Hu by by destruct t.
  assert (is_signed t = true -> printf (type_fmt t) (AInt (passed_bits t) z) =
    Some (signed_text no_flags 0 (signed (passed_bits t) z) ++ EmptyString)%string) as Hs by by destruct t.
  unfold in_type in Hz. destruct (is_signed t) eqn:E.
  - rewrite Hs by done. rewrite sapp_nil, signed_text_none. do 2 f_equal.
    assert (- 2 ^ (passed_bits t - 1) <= z < 2 ^ (passed_bits t - 1)) as Hr by (destruct t; try done; unfold type_bits in Hz; simpl in *; lia).
    assert (0 < passed_bits t) by by destruct t. unfold signed.
    assert (2 ^ passed_bits t = 2 * 2 ^ (passed_bits t - 1)) by (rewrite <-Z.pow_succ_r by lia; f_equal; lia).
    rewrite Z.mod_small; lia.
  - rewrite Hu by done. rewrite sapp_nil, pad_none, sapp_empty. f_equal. unfold signed_string.
    rewrite (proj2 (Z.ltb_ge z 0)) by lia. f_equal. apply Z.mod_small. destruct t; try done; unfold type_bits in Hz; simpl in *; lia.
Qed.

Lemma in_type_small t z : t <> STR -> in_type t z -> Z.abs z < 2 ^ 64.
Proof. unfold in_type. intros Ht Hz. unfold type_bits in Hz. destruct t; try done; simpl in Hz; lia. Qed.

Lemma signed_string_length z : Z.abs z < 2 ^ 64 -> slen (signed_string z) <= 21.
Proof.
  intros Hz. unfold signed_string.
  assert (forall n, 0 <= n < 2 ^ 64 -> slen (number false 10 n) <= 20) as Hn.
  { intros n Hn. pose proof (to_base_length 64 false 10 n EmptyString 19 ltac:(done)) as H.
    change (slen EmptyString) with 0 in H. unfold number. change (10 ^ Z.of_nat 20) with (10 ^ 20) in H. lia. }
  destruct (Z.ltb_spec z 0); [rewrite slen_cons; specialize (Hn (Z.abs z)); lia|]. specialize (Hn z). lia.
Qed.

Lemma strtol_signed_string z : Z.abs z < 2 ^ 64 -> strtol (signed_string z) = in_long z.
Proof.
  intros Hz. unfold signed_string. destruct (Z.ltb_spec z 0).
  - rewrite strtol_minus by lia. f_equal. lia.
  - apply strtol_number. lia.
Qed.

(** C36. A value that the runtime puts in the payload, little-endian at the offset
    of an integer argument, is what the text printed for the argument reads
    as: printing and reading a number is the identity, for every type and
    whatever is around it in the payload (up to the range of [strtol]). *)
Theorem printed_value_reads_back spec arg z pre post outlen :
  ev_spec_find_arg spec (arg_name arg) = Some arg -> name_ok (arg_name arg) = true ->
  es_description spec = template_text [Field None (arg_name arg)] ->
  arg_type arg <> STR -> in_type (arg_type arg) z -> arg_offset arg = Z.of_nat (length pre) -> 22 < outlen ->
  exists text,
  ev_spec_print spec (Some (pre ++ le_encode (Z.to_nat (type_size (arg_type arg))) (z mod 2 ^ type_bits (arg_type arg)) ++ post))
    outlen = Ok text /\ strtol text = in_long z.
Proof.
  intros Hfind Hname Hdesc Ht Hz Ho Hlen. pose proof (in_type_small _ _ Ht Hz) as Hsmall.
  pose proof (signed_string_length z Hsmall). exists (signed_string z). split; [|by apply strtol_signed_string].
  apply ev_spec_print_pieces. split; [lia|]. eexists [Field None (arg_name arg)]. split_and!; [simpl; by rewrite Hname|done|].
  assert (arg_value arg (Some (pre ++ le_encode (Z.to_nat (type_size (arg_type arg))) (z mod 2 ^ type_bits (arg_type arg)) ++ post)) =
    Some (AInt (passed_bits (arg_type arg)) z)) as Hv.
  { rewrite arg_value_int by done. unfold get_u, get_bytes. rewrite Ho, Nat2Z.id, !length_app, length_le_encode.
    rewrite (proj2 (Nat.leb_le _ _)) by lia. rewrite drop_app_length, take_app_length' by (by rewrite length_le_encode).
    pose proof (type_size_nonneg (arg_type arg)). simpl. rewrite le_decode_encode.
    2: { rewrite Z2Nat.id by done. change 256 with (2 ^ 8). rewrite <-Z.pow_mul_r by lia.
         apply Z.mod_pos_bound. apply Z.pow_pos_nonneg; [done|unfold type_bits; lia]. }
    do 2 f_equal. unfold in_type, read_as in *. assert (0 < type_bits (arg_type arg)) by by destruct (arg_type arg).
    destruct (is_signed (arg_type arg)); [by apply signed_mod|by apply Z.mod_small]. }
  simpl. rewrite Hfind. simpl in Hv |- *. rewrite Hv. simpl. rewrite printf_default by done. simpl.
  rewrite (proj2 (Z.ltb_ge _ _)) by lia. by rewrite sapp_nil.
Qed.

(** ** The declared events *)

(** The fields the models use: any argument with its default format, and 64-bit
    words in hexadecimal. *)
Definition field_fits (spec : ev_spec) (p : piece) : bool :=
  match p with
  | Lit _ => true
  | Field fmt name =>
      match ev_spec_find_arg spec name with
      | None => false
      | Some arg =>
          match fmt with
          | None => true
          | Some f => bool_decide (f = "#llx"%string) && bool_decide (arg_type arg = U64)
          end
      end
  end.

(** The most room a piece takes when strings have at most [strs] characters. *)
Definition most_room (spec : ev_spec) (strs : Z) (p : piece) : Z :=
  match p with
  | Lit _ => 1
  | Field _ name =>
      match ev_spec_find_arg spec name with
      | Some arg => if bool_decide (arg_type arg = STR) then strs + 1 else 22
      | None => 0
      end
  end.
Definition room_of (spec : ev_spec) (strs : Z) (l : list piece) : Z := foldr (fun p n => most_room spec strs p + n) 0 l.

(** A payload that covers the arguments of an event, with nuls in its strings. *)
Definition covers (spec : ev_spec) (strs : Z) (payload : option (list Z)) : Prop :=
  es_args spec = [] \/
  exists mem, payload = Some mem /\ Forall byte_ok mem /\ es_payload_size spec <= Z.of_nat (length mem) /\
  forall arg, arg ∈ es_args spec -> arg_type arg = STR ->
  exists s, c_string (drop (Z.to_nat (arg_offset arg)) mem) = Some s /\ slen s <= strs.

Lemma find_arg_in spec name arg : ev_spec_find_arg spec name = Some arg -> arg ∈ es_args spec.
Proof. unfold ev_spec_find_arg. intros H%find_some. apply list_elem_of_In. tauto. Qed.

Lemma printf_hex z : 0 <= z < 2 ^ 64 ->
  exists text, printf "%#llx" (AInt 64 z) = Some text /\ slen text <= 21.
Proof.
  intros Hz. assert (printf "%#llx" (AInt 64 z) =
    Some (pad (mk_flags true false false false false) 0 (hex_prefix "x" (mk_flags true false false false false) (z mod 2 ^ 64))
      (number false 16 (z mod 2 ^ 64)) ++ EmptyString)%string) as -> by done.
  eexists. split; [done|]. rewrite sapp_nil, Z.mod_small by done.
  assert (slen (number false 16 z) <= 16) as Hn.
  { pose proof (to_base_length 64 false 16 z EmptyString 15 ltac:(done)) as H.
    change (slen EmptyString) with 0 in H. unfold number. change (16 ^ Z.of_nat 16) with (16 ^ 16) in H. lia. }
  assert (slen (hex_prefix "x" (mk_flags true false false false false) z) <= 2).
  { unfold hex_prefix. by destruct (_ && _). }
  unfold pad. cbn [fl_left fl_zero]. set (pre := hex_prefix _ _ _) in *. set (body := number _ _ _) in *.
  pose proof (slen_nonneg pre). pose proof (slen_nonneg body).
  replace (Z.to_nat (0 - slen pre - slen body)) with 0%nat by lia. cbn [repeat_char]. sapp. rewrite slen_app. lia.
Qed.

Lemma piece_fits spec strs payload p :
  well_formed spec -> covers spec strs payload -> field_fits spec p = true ->
  exists text, piece_value spec payload p = Some text /\ piece_room p text <= most_room spec strs p /\
  slen text <= most_room spec strs p.
Proof.
  intros Hwf Hcov Hp. destruct p as [x|fmt name]; [by exists (String x EmptyString)|].
  simpl in *. destruct (ev_spec_find_arg spec name) as [arg|] eqn:Hf; [|done]. simpl.
  apply find_arg_in in Hf. destruct Hcov as [Hnil|(mem & -> & Hb & Hsize & Hstr)].
  { rewrite Hnil in Hf. by apply elem_of_nil in Hf. }
  destruct (layout_inside _ _ _ arg (wf_layout _ Hwf) Hf) as (Hs & Ho & Hend).
  assert (0 <= jumbo_header (es_is_jumbo spec)) by (destruct (es_is_jumbo spec); done).
  destruct (decide (arg_type arg = STR)) as [Et|Et].
  - rewrite bool_decide_true by done. destruct (Hstr arg Hf Et) as (s & Es & Hlen).
    destruct fmt as [f|].
    { exfalso. apply andb_true_iff in Hp as [_ H']. apply bool_decide_eq_true in H'. congruence. }
    assert (arg_value arg (Some mem) = Some (AStr s)) as Hv by (unfold arg_value; simpl; rewrite Et, Es; done).
    assert (printf (type_fmt STR) (AStr s) = Some s) as Hprint.
    { transitivity (Some (pad no_flags 0 EmptyString s ++ EmptyString)%string); [done|].
      by rewrite sapp_nil, pad_none, sapp_empty. }
    exists s. rewrite Hv, Et. split_and!; [exact Hprint|lia..].
  - rewrite bool_decide_false by done.
    destruct (arg_value_covered arg mem Et Hb ltac:(lia) ltac:(lia)) as (z & Hv & Hz).
    rewrite Hv. simpl. destruct fmt as [f|].
    + apply andb_true_iff in Hp as [H1 H2]. apply bool_decide_eq_true in H1, H2. subst f. rewrite H2 in *.
      destruct (printf_hex z Hz) as (text & E & Hlen). exists text. split_and!; [exact E|lia..].
    + rewrite printf_default by done. exists (signed_string z).
      pose proof (signed_string_length z (in_type_small _ _ Et Hz)). split_and!; [done|lia..].
Qed.

Lemma most_room_nonneg spec strs p : 0 <= strs -> 0 <= most_room spec strs p.
Proof. intros. destruct p; simpl; [done|]. destruct (ev_spec_find_arg spec name); [|done]. case_bool_decide; lia. Qed.

Lemma room_of_nonneg spec strs l : 0 <= strs -> 0 <= room_of spec strs l.
Proof.
  intros H. induction l as [|p l IH]; [done|].
  pose proof (most_room_nonneg spec strs p H). change (0 <= most_room spec strs p + room_of spec strs l). lia.
Qed.

Lemma render_fits spec strs payload l : 0 <= strs ->
  well_formed spec -> covers spec strs payload -> forallb (field_fits spec) l = true ->
  forall room, room_of spec strs l <= room -> exists text, render spec payload room l = Some text.
Proof.
  intros Hstrs Hwf Hcov. induction l as [|p l IH]; intros Hl room Hroom; simpl; [by eauto|].
  simpl in Hl. apply andb_true_iff in Hl as [Hp Hl].
  destruct (piece_fits _ _ _ _ Hwf Hcov Hp) as (t & -> & Hr & Ht). simpl. change (room_of spec strs (p :: l)) with
    (most_room spec strs p + room_of spec strs l) in Hroom. pose proof (room_of_nonneg spec strs l Hstrs).
  rewrite (proj2 (Z.ltb_ge _ _)) by lia.
  destruct (IH Hl (room - slen t)) as [t' ->]; [lia|]. by eauto.
Qed.

(** The pieces of a description. *)
Fixpoint pieces (fuel : nat) (s : string) : list piece :=
  match fuel, s with
  | S fuel', String "%" (String "%" s') => Lit "%" :: pieces fuel' s'
  | S fuel', String "%" s' =>
      match copy_until "{" (fun _ => true) 62 s' with
      | Some (fmt, String _ r) =>
          match copy_until "}" isalnum 63 r with
          | Some (name, String _ r') => Field (if slen fmt =? 0 then None else Some fmt) name :: pieces fuel' r'
          | _ => []
          end
      | _ => []
      end
  | S fuel', String x s' => Lit x :: pieces fuel' s'
  | _, _ => []
  end.

(** The description of an event is that of pieces that fit in 1024 bytes with
    strings of 800 characters. *)
Definition printable (spec : ev_spec) : bool :=
  let l := pieces (String.length (es_description spec)) (es_description spec) in
  String.eqb (es_description spec) (template_text l) && forallb piece_ok l && forallb (field_fits spec) l &&
  (room_of spec 800 l <? 1024).

Definition all_evlists : list (ascii * list ev_decl) :=
  [("O"%char, ovni_evlist); ("6"%char, nanos6_evlist); ("V"%char, nosv_evlist); ("D"%char, nodes_evlist);
   ("T"%char, tampi_evlist); ("M"%char, mpi_evlist); ("K"%char, kernel_evlist); ("P"%char, openmp_evlist);
   ("X"%char, xtasks_evlist)].

Definition evlist_printable (p : ascii * list ev_decl) : bool :=
  match model_evspec_init (ch p.1) p.2 with Ok e => forallb printable (mev_alloc e) | _ => false end.

Lemma all_printable : forallb evlist_printable all_evlists = true.
Proof. vm_compute. reflexivity. Qed.

(** C38. The events of every model register, and each is printed in the buffer
    of ovnidump for any payload that covers its arguments: no declaration names
    an argument that is not there or a format that does not suit it. *)
Theorem declared_events_print model evlist :
  (model, evlist) ∈ all_evlists ->
  exists evspec, model_evspec_init (ch model) evlist = Ok evspec /\
  forall mcv spec payload, model_evspec_find evspec mcv = Some spec -> covers spec 800 payload ->
  exists text, ev_spec_print spec payload 1024 = Ok text.
Proof.
  intros Hin. pose proof all_printable as H. rewrite forallb_forall in H.
  apply list_elem_of_In in Hin. specialize (H _ Hin). unfold evlist_printable in H. simpl in H.
  destruct (model_evspec_init (ch model) evlist) as [evspec| | | |] eqn:E; try done. exists evspec. split; [done|].
  intros mcv spec payload Hf Hcov. apply model_evspec_init_built in E as (_ & _ & Hh).
  apply (he_find _ _ _ Hh) in Hf as [Hs _]. rewrite forallb_forall in H.
  pose proof (H spec (proj1 (list_elem_of_In _ _) Hs)) as Hp. unfold printable in Hp.
  rewrite !andb_true_iff, Z.ltb_lt in Hp. destruct Hp as [[[Hd Hok] Hfits] Hroom]. apply String.eqb_eq in Hd.
  assert (well_formed spec) as Hwf.
  { pose proof (he_compiled _ _ _ Hh) as Hc. apply list_elem_of_lookup_1 in Hs as [i Hs].
    destruct (Forall2_lookup_r _ _ _ _ _ Hc Hs) as (d & _ & Ed). by eapply ev_spec_compile_well_formed. }
  destruct (render_fits spec 800 payload _ ltac:(done) Hwf Hcov Hfits (1024 - 1)) as [text Ht]; [lia|].
  exists text. apply ev_spec_print_pieces. split; [done|]. by eauto.
Qed.

(** ** Payloads that do not cover the arguments *)

Definition needs_payload (spec : ev_spec) : bool :=
  match es_args spec, ev_spec_print spec None 1024 with [], _ => true | _, Ub => true | _, _ => false end.

Lemma all_need_payload :
  forallb (fun p => match model_evspec_init (ch p.1) p.2 with Ok e => forallb needs_payload (mev_alloc e) | _ => false end)
    all_evlists = true.
Proof. vm_compute. reflexivity. Qed.

(** C39. Nothing compares the payload of an event with its declaration: an event
    that is declared with arguments and recorded without payload makes the
    printer read through a null pointer, whatever the model. *)
Theorem declared_arguments_unchecked model evlist evspec mcv spec :
  (model, evlist) ∈ all_evlists -> model_evspec_init (ch model) evlist = Ok evspec ->
  model_evspec_find evspec mcv = Some spec -> es_args spec <> [] ->
  ev_spec_print spec None 1024 = Ub.
Proof.
  intros Hin E Hf Hargs. pose proof all_need_payload as H. rewrite forallb_forall in H.
  apply list_elem_of_In in Hin. specialize (H _ Hin). simpl in H. rewrite E in H.
  apply model_evspec_init_built in E as (_ & _ & Hh). apply (he_find _ _ _ Hh) in Hf as [Hs _].
  rewrite forallb_forall in H. pose proof (H spec (proj1 (list_elem_of_In _ _) Hs)) as Hp. unfold needs_payload in Hp.
  destruct (es_args spec); [done|]. by destruct (ev_spec_print spec None 1024).
Qed.

(** ** Witnesses *)

Definition demo_spec : ev_spec :=
  mk_ev_spec "OHC" false [mk_ev_arg 4 0 I32 "cpu"; mk_ev_arg 8 4 U64 "tag"] 12 "%{cpu}".

Lemma signature_round_trip_witness :
  signature_text "OHC" false [(I32, "cpu"%string); (U64, "tag"%string)] = "OHC(i32 cpu, u64 tag)"%string /\
  ev_spec_compile (mk_ev_decl "OHC(i32 cpu, u64 tag)" "%{cpu}") = Ok demo_spec.
Proof.
  split; [reflexivity|].
  exact (signature_round_trip "O" "H" "C" false [(I32, "cpu"%string); (U64, "tag"%string)] "%{cpu}"
    eq_refl eq_refl ltac:(simpl; unfold MAX_ARGS; lia) ltac:(discriminate) ltac:(vm_compute; reflexivity)).
Defined.

Lemma ev_spec_compile_layout_witness : well_formed demo_spec.
Proof. exact (ev_spec_compile_layout (mk_ev_decl "OHC(i32 cpu, u64 tag)" "%{cpu}") demo_spec eq_refl). Defined.

Lemma printed_value_reads_back_witness :
  exists text, ev_spec_print demo_spec (Some [253; 255; 255; 255; 7]) 1024 = Ok text /\ strtol text = Some (-3).
Proof.
  exact (printed_value_reads_back demo_spec (mk_ev_arg 4 0 I32 "cpu") (-3) [] [7] 1024
    eq_refl eq_refl eq_refl ltac:(discriminate) ltac:(unfold in_type, type_bits; simpl; lia) eq_refl eq_refl).
Defined.

Lemma print_in_buffer_witness :
  let c' := (print_loop 6 demo_spec None (mk_cursor "%{cpu}" EmptyString (8 - 1))).2 in
  0 <= cu_len c' /\ slen (cu_out c') < 8.
Proof. exact (print_in_buffer demo_spec None 8 eq_refl). Defined.

Lemma model_evspec_init_holds_witness :
  exists evspec, model_evspec_init (ch "K") kernel_evlist = Ok evspec /\ mev_nevents evspec = 2.
Proof.
  eexists. split; [vm_compute; reflexivity|].
  exact (proj1 (proj2 (model_evspec_init_holds (ch "K") kernel_evlist _ eq_refl))).
Defined.

Lemma declared_events_print_witness :
  exists evspec, model_evspec_init (ch "V") nosv_evlist = Ok evspec.
Proof.
  destruct (declared_events_print "V" nosv_evlist) as (evspec & E & _); [|by exists evspec].
  unfold all_evlists. do 2 apply list_elem_of_further. apply list_elem_of_here.
Defined.

Definition ovni_table : model_evspec :=
  match model_evspec_init (ch "O") ovni_evlist with Ok e => e | _ => mk_model_evspec ∅ 0 [] end.
Definition affinity_spec : ev_spec :=
  mk_ev_spec "OAs" false [mk_ev_arg 4 0 I32 "cpu"] 4 "switches it's own affinity to the CPU %{cpu}".

Lemma declared_arguments_unchecked_witness : ev_spec_print affinity_spec None 1024 = Ub.
Proof.
  apply (declared_arguments_unchecked "O" ovni_evlist ovni_table "OAs").
  - apply list_elem_of_here.
  - vm_compute. reflexivity.
  - vm_compute. reflexivity.
  - discriminate.
Defined.
