(* ===== verification/OvniModel.v ===== *)
(** * The ovni model: thread states and affinity (src/emu/ovni/event.c)

    The events of the ovni model move threads between states and CPUs; the
    handlers check the state of the thread, update it with the operations of
    Thread.v and make its CPU recompute what it shows.  [ctx] is what the
    emulator's main loop sets before it calls a model: the event and the
    thread, process and loom it belongs to.

    The abstract machine of this model is [sys_step]: a thread is in a state,
    and on a CPU exactly while it is alive. *)

From Stdlib Require Import Ascii.
From S2P Require Import Prelude Chan Heap Bay Mux Thread Loom Event.

(** ** Handlers *)

Definition state_in (l : list thread_state) (st : thread_state) : bool := bool_decide (st ∈ l).

(** [cpu_update(th->cpu)]. *)
Definition update_cpu_of (t : nat) : M heap unit :=
  let* th := load_thread t in
  let* c := deref (t_cpu th) in
  cpu_update c.

Definition pre_thread_execute (x : ctx) (t : nat) : M heap unit :=
  let* th := load_thread t in
  if bool_decide (t_state th = TH_ST_RUNNING) then mfail else
  if ee_payload_size (cx_ev x) <? 4 then mfail else
  let* index := payload_i32 (cx_ev x) 0 in
  let* cpu := loom_get_cpu (cx_loom x) index in
  let* c := found cpu in
  thread_set_cpu t c ;;;
  thread_set_state t TH_ST_RUNNING ;;;
  cpu_add_thread c t.

Definition pre_thread_end (t : nat) : M heap unit :=
  let* th := load_thread t in
  if negb (state_in [TH_ST_RUNNING; TH_ST_COOLING] (t_state th)) then mfail else
  thread_set_state t TH_ST_DEAD ;;;
  let* c := deref (t_cpu th) in
  cpu_remove_thread c t ;;;
  thread_unset_cpu t.

(** The shape of the four other changes: a state is left for another. *)
Definition change_state (from : list thread_state) (to : thread_state) (t : nat) : M heap unit :=
  let* th := load_thread t in
  if negb (state_in from (t_state th)) then mfail else
  thread_set_state t to ;;;
  update_cpu_of t.

Definition pre_thread_pause := change_state [TH_ST_RUNNING; TH_ST_COOLING] TH_ST_PAUSED.
Definition pre_thread_resume := change_state [TH_ST_PAUSED; TH_ST_WARMING] TH_ST_RUNNING.
Definition pre_thread_cool := change_state [TH_ST_RUNNING] TH_ST_COOLING.
Definition pre_thread_warm := change_state [TH_ST_PAUSED] TH_ST_WARMING.

(** Case 'C' only evaluates the debug message's arguments. *)
Definition pre_thread (x : ctx) : M heap unit :=
  let v := ee_v (cx_ev x) in
  let t := cx_thread x in
  if is_ch v "C" then mret tt else
  if is_ch v "x" then pre_thread_execute x t else
  if is_ch v "e" then pre_thread_end t else
  if is_ch v "p" then pre_thread_pause t else
  if is_ch v "r" then pre_thread_resume t else
  if is_ch v "c" then pre_thread_cool t else
  if is_ch v "w" then pre_thread_warm t else mfail.

Definition pre_affinity_set (x : ctx) : M heap unit :=
  let t := cx_thread x in
  let* th := load_thread t in
  let* c := found (t_cpu th) in
  if negb (t_is_active th) then mfail else
  if negb (ee_payload_size (cx_ev x) =? 4) then mfail else
  let* index := payload_i32 (cx_ev x) 0 in
  let* cpu := loom_get_cpu (cx_loom x) index in
  let* newcpu := found cpu in
  if Nat.eqb c newcpu then mret tt else
  cpu_migrate_thread c t newcpu ;;;
  thread_migrate_cpu t newcpu.

(** The remote thread: first in the process, then in the whole loom. *)
Definition find_remote (x : ctx) (tid : Z) : M heap (option nat) :=
  let* pr := load_proc (cx_proc x) in
  match proc_find_thread pr tid with
  | Some t => mret (Some t)
  | None => loom_find_thread (cx_loom x) tid
  end.

Definition pre_affinity_remote (x : ctx) : M heap unit :=
  if negb (ee_payload_size (cx_ev x) =? 8) then mfail else
  let* index := payload_i32 (cx_ev x) 0 in
  let* tid := payload_i32 (cx_ev x) 1 in
  let* remote := find_remote x tid in
  let* t := found remote in
  let* th := load_thread t in
  if state_in [TH_ST_DEAD; TH_ST_UNKNOWN] (t_state th) then mfail else
  let* c := found (t_cpu th) in
  let* cpu := loom_get_cpu (cx_loom x) index in
  let* newcpu := found cpu in
  cpu_migrate_thread c t newcpu ;;;
  thread_migrate_cpu t newcpu.

Definition pre_affinity (x : ctx) : M heap unit :=
  if is_ch (ee_v (cx_ev x)) "s" then pre_affinity_set x else
  if is_ch (ee_v (cx_ev x)) "r" then pre_affinity_remote x else mfail.

Definition pre_cpu (x : ctx) : M heap unit :=
  if is_ch (ee_v (cx_ev x)) "n" then mret tt else mfail.

(** ** Bursts and flushes *)

Definition MAX_BURSTS : Z := 100.
Definition CH_FLUSH : nat := 0.

(** [EXT(th, 'O')->m.ch]. *)
Definition ovni_chan (t i : nat) : addr := Addr (OwnModel (Z.to_nat (ch "O")) t) i.

Definition load_ovni (t : nat) : M heap ovni_thread := let* h := mget in deref (h_ovni h !! t).
Definition put_ovni (t : nat) (o : ovni_thread) : M heap unit := mmod (set_h_ovni <[t := o]>).

(** The statistics of a full array of bursts are only printed. *)
Definition pre_burst (x : ctx) : M heap unit :=
  let* o := load_ovni (cx_thread x) in
  if MAX_BURSTS <=? nbursts o then mfail else
  let times := burst_time o ++ [ee_dclock (cx_ev x)] in
  let n := nbursts o + 1 in
  put_ovni (cx_thread x)
    (if n =? MAX_BURSTS then mk_ovni_thread 0 [] (flush_start o)
     else mk_ovni_thread n times (flush_start o)).

(** The time of the flush is only printed. *)
Definition pre_flush (x : ctx) : M heap unit :=
  let flush := ovni_chan (cx_thread x) CH_FLUSH in
  let* o := load_ovni (cx_thread x) in
  if is_ch (ee_v (cx_ev x)) "[" then
    chan_set flush (value_int64 1) ;;;
    put_ovni (cx_thread x) (mk_ovni_thread (nbursts o) (burst_time o) (ee_dclock (cx_ev x)))
  else if is_ch (ee_v (cx_ev x)) "]" then chan_set flush value_null
  else mfail.

(** ** Marks (src/emu/ovni/mark.c) *)

Definition mark_chan (t : nat) (i : Z) : addr := Addr (OwnMark t) (Z.to_nat i).

Definition find_mark_type (m : ovni_mark_emu) (type : Z) : option mark_type :=
  list_find (fun t => mk_type t = type) (mark_types m) ≫= fun p => Some p.2.

Definition mark_event (x : ctx) : M heap unit :=
  if negb (ee_payload_size (cx_ev x) =? 8 + 4) then mfail else
  let* h := mget in
  let* value := payload_i64 (cx_ev x) 0 in
  let* type := payload_i32 (cx_ev x) 2 in
  let* mc := found (find_mark_type (h_mark h) type) in
  if value =? 0 then mfail else
  let a := mark_chan (cx_thread x) (mk_index mc) in
  if is_ch (ee_v (cx_ev x)) "[" then chan_push a (value_int64 value) else
  if is_ch (ee_v (cx_ev x)) "]" then chan_pop a (value_int64 value) else
  if is_ch (ee_v (cx_ev x)) "=" then chan_set a (value_int64 value) else mfail.

Definition model_ovni_event (x : ctx) : M heap unit :=
  if negb (is_ch (ee_m (cx_ev x)) "O") then mfail else
  let* th := load_thread (cx_thread x) in
  if t_is_out_of_cpu th then mfail else
  let c := ee_c (cx_ev x) in
  if is_ch c "H" then pre_thread x else
  if is_ch c "A" then pre_affinity x else
  if is_ch c "B" then pre_burst x else
  if is_ch c "C" then pre_cpu x else
  if is_ch c "F" then pre_flush x else
  if is_ch c "U" then mret tt else
  if is_ch c "M" then mark_event x else mfail.
