(* ===== verification/OvniCorrect.v ===== *)
(** * The ovni model is correct

    The bookkeeping of threads and CPUs, and every channel that mirrors it,
    agrees after each event that succeeds ([sys_inv]); and each successful event
    makes the step of the abstract machine that its code stands for. *)

From Stdlib Require Import Ascii.
From S2P Require Import Prelude Chan Heap Bay Mux Thread Loom Event OvniModel.

(** ** Writing a channel of the heap *)

(** What a write to a channel leaves alone. *)
Definition world (h : heap) := (h_thread h, h_cpu h, h_proc h, h_loom h, h_ovni h, h_mark h).

Lemma run_op_world op a h : world (run_op op a h).2 = world h.
Proof.
  destruct (run_op_shape op a h) as [(r & -> & _) | (c & c' & _ & _ & _ & _ & ->)]; [done|].
  assert (keeps (fun s => world s = world h) (store a c' ;;; set_dirty a)) as K; [|by apply K].
  unfold set_dirty, load, store; cbn; unfold cb_chan_is_dirty.
  repeat first [progress kbind | apply keeps_get | apply keeps_deref | apply keeps_ret | apply keeps_fail
    | by intros s <- | case_match].
Qed.

Definition chan_good (c : chan) : Prop :=
  chan_wf c /\ ~ (c_true (c_dirty_write c) = true /\ c_true (c_ignore_dup c) = true).

Definition shows (h : heap) (a : addr) (v : value) : Prop :=
  exists c, h_chan h !! a = Some c /\ chan_read c = v.

Lemma chan_set_run a v h h' : all_chans chan_good h -> chan_set a v h = (Ok tt, h') ->
  all_chans chan_good h' /\ shows h' a v /\ (forall b, b <> a -> h_chan h' !! b = h_chan h !! b) /\
  world h' = world h.
Proof.
  intros Hg E. destruct (run_op_Ok (OpSet v) a h h' E) as (c & Hc & R).
  destruct (Hg a c Hc) as [Hw Hp].
  destruct (chan_set_shows a v h h' c Hc Hw Hp E) as [Hs Hf]. split_and!; [|done..|].
  - intros b cb Hb. destruct (decide (b = a)) as [->|Hne]; [|rewrite Hf in Hb by done; by apply (Hg b)].
    destruct R as [[-> _] | (c' & Hstep & Ha & _)]; [by apply (Hg a)|].
    rewrite Ha in Hb. injection Hb as <-. split; [by eapply chan_step_wf|].
    by inversion Hstep; subst; simplify_eq.
  - pose proof (run_op_world (OpSet v) a h) as W. simpl in W. by rewrite E in W.
Qed.

(** ** Effect of the operations of Thread.v *)

(** From [h] to [h'] only threads, CPUs and the [touched] channels change. *)
Record upd (touched : addr -> Prop) (ths : gmap nat thread) (cpus : gmap nat cpu) (h h' : heap) : Prop := {
  u_thread : h_thread h' = ths;
  u_cpu : h_cpu h' = cpus;
  u_rest : (h_proc h', h_loom h', h_ovni h', h_mark h') = (h_proc h, h_loom h, h_ovni h, h_mark h);
  u_good : all_chans chan_good h';
  u_chan : forall b, ~ touched b -> h_chan h' !! b = h_chan h !! b
}.

Lemma upd_trans (T1 T2 T : addr -> Prop) ths1 ths2 cpus1 cpus2 h h1 h2 :
  upd T1 ths1 cpus1 h h1 -> upd T2 ths2 cpus2 h1 h2 -> (forall b, T1 b \/ T2 b -> T b) ->
  upd T ths2 cpus2 h h2.
Proof.
  intros [] [] HT. split; [done..|congruence|done|]. intros b Hb.
  etrans; [apply u_chan1|apply u_chan0]; naive_solver.
Qed.

Lemma upd_chan_set a v h h' : all_chans chan_good h -> chan_set a v h = (Ok tt, h') ->
  upd (fun b => b = a) (h_thread h) (h_cpu h) h h' /\ shows h' a v.
Proof.
  intros Hg E. destruct (chan_set_run a v h h' Hg E) as (? & ? & ? & W). split; [|done].
  injection W as ? ? ? ? ? ?. split; [done..|congruence|done|done].
Qed.

Lemma upd_shows T ths cpus h h' a v : upd T ths cpus h h' -> ~ T a -> shows h a v -> shows h' a v.
Proof. intros U Ha (c & Hc & Hv). exists c. split; [|done]. by rewrite (u_chan _ _ _ _ _ U). Qed.

Lemma upd_put_thread t th h : all_chans chan_good h ->
  upd (fun _ => False) (<[t := th]> (h_thread h)) (h_cpu h) h (put_thread t th h).2.
Proof. intros Hg. split; simpl; try done; auto. Qed.

Lemma upd_upd_cpu c f cp h : all_chans chan_good h -> h_cpu h !! c = Some cp ->
  upd (fun _ => False) (h_thread h) (<[c := f cp]> (h_cpu h)) h (upd_cpu c f h).2.
Proof. intros Hg Hc. split; simpl; try done; auto. by apply alter_lookup_insert. Qed.

Definition tid_value (th : thread) : value :=
  if is_active_state (t_state th) then value_int64 (t_tid th) else value_null.

Lemma thread_set_state_Ok t st h h' : all_chans chan_good h -> thread_set_state t st h = (Ok tt, h') ->
  exists th c, h_thread h !! t = Some th /\ t_cpu th = Some c /\
    upd (fun b => b = th_chan t TH_CHAN_STATE \/ b = th_chan t TH_CHAN_TID)
      (<[t := with_tstate st th]> (h_thread h)) (h_cpu h) h h' /\
    shows h' (th_chan t TH_CHAN_STATE) (value_int64 (thread_state_Z st)) /\
    shows h' (th_chan t TH_CHAN_TID) (tid_value (with_tstate st th)).
Proof.
  intros Hg E. unfold thread_set_state in E.
  apply mbind_Ok in E as (th & ? & [Ht ->]%load_thread_Ok & E).
  destruct (t_cpu th) as [c|] eqn:Hc; [|discriminate].
  rewrite (mbind_run _ _ _ tt (put_thread t (with_tstate st th) h).2) in E by done.
  pose proof (upd_put_thread t (with_tstate st th) h Hg) as U0.
  apply mbind_Ok in E as ([] & h1 & E1 & E2).
  apply upd_chan_set in E1 as [U1 S1]; [|apply U0].
  apply upd_chan_set in E2 as [U2 S2]; [|apply U1].
  exists th, c. split_and!; [done..| | |done].
  - rewrite (u_thread _ _ _ _ _ U1), (u_cpu _ _ _ _ _ U1), (u_thread _ _ _ _ _ U0), (u_cpu _ _ _ _ _ U0) in U2.
    eapply upd_trans; [exact U0|eapply (upd_trans _ _ (fun b => b = th_chan t TH_CHAN_STATE \/ b = th_chan t TH_CHAN_TID)); [exact U1|exact U2|]|];
      simpl; tauto.
  - eapply upd_shows; [done| |done]. by intros [=].
Qed.

(** The two ways a thread's CPU is set share their effect. *)
Lemma write_cpu_Ok t th oc v h h' : all_chans chan_good h ->
  (put_thread t (with_cpu oc th) ;;; chan_set (th_chan t TH_CHAN_CPU) v) h = (Ok tt, h') ->
  upd (fun b => b = th_chan t TH_CHAN_CPU) (<[t := with_cpu oc th]> (h_thread h)) (h_cpu h) h h' /\
  shows h' (th_chan t TH_CHAN_CPU) v.
Proof.
  intros Hg E. rewrite (mbind_run _ _ _ tt (put_thread t (with_cpu oc th) h).2) in E by done.
  pose proof (upd_put_thread t (with_cpu oc th) h Hg) as U0.
  apply upd_chan_set in E as [U S]; [|apply U0]. split; [|done].
  eapply upd_trans; [exact U0|exact U|]. simpl. tauto.
Qed.

Lemma put_load_cpu t th c (k : cpu -> M heap unit) h cp : h_cpu h !! c = Some cp ->
  (put_thread t th ;;; let* cp := load_cpu c in k cp) h = (put_thread t th ;;; k cp) h.
Proof. intros Hc. unfold mbind, put_thread, mmod, load_cpu, mget, mbind; simpl. by rewrite Hc. Qed.

Lemma thread_set_cpu_Ok t c h h' : all_chans chan_good h -> thread_set_cpu t c h = (Ok tt, h') ->
  exists th cp, h_thread h !! t = Some th /\ t_cpu th = None /\ h_cpu h !! c = Some cp /\
    upd (fun b => b = th_chan t TH_CHAN_CPU) (<[t := with_cpu (Some c) th]> (h_thread h)) (h_cpu h) h h' /\
    shows h' (th_chan t TH_CHAN_CPU) (value_int64 (cpu_gindex cp)).
Proof.
  intros Hg E. unfold thread_set_cpu in E.
  apply mbind_Ok in E as (th & ? & [Ht ->]%load_thread_Ok & E).
  destruct (t_cpu th) eqn:Hn; [discriminate|].
  destruct (h_cpu h !! c) as [cp|] eqn:Hc.
  - rewrite (put_load_cpu _ _ _ _ _ cp) in E by done. apply write_cpu_Ok in E as [U S]; [|done]. eauto 10.
  - unfold mbind, put_thread, mmod, load_cpu, mget, mbind in E; simpl in E. by rewrite Hc in E.
Qed.

Lemma thread_migrate_cpu_Ok t c h h' : all_chans chan_good h -> thread_migrate_cpu t c h = (Ok tt, h') ->
  exists th cp, h_thread h !! t = Some th /\ h_cpu h !! c = Some cp /\
    upd (fun b => b = th_chan t TH_CHAN_CPU) (<[t := with_cpu (Some c) th]> (h_thread h)) (h_cpu h) h h' /\
    shows h' (th_chan t TH_CHAN_CPU) (value_int64 (cpu_gindex cp)).
Proof.
  intros Hg E. unfold thread_migrate_cpu in E.
  apply mbind_Ok in E as (th & ? & [Ht ->]%load_thread_Ok & E).
  destruct (t_cpu th) eqn:Hn; [|discriminate].
  destruct (h_cpu h !! c) as [cp|] eqn:Hc.
  - rewrite (put_load_cpu _ _ _ _ _ cp) in E by done. apply write_cpu_Ok in E as [U S]; [|done]. eauto 10.
  - unfold mbind, put_thread, mmod, load_cpu, mget, mbind in E; simpl in E. by rewrite Hc in E.
Qed.

Lemma thread_unset_cpu_Ok t h h' : all_chans chan_good h -> thread_unset_cpu t h = (Ok tt, h') ->
  exists th, h_thread h !! t = Some th /\
    upd (fun b => b = th_chan t TH_CHAN_CPU) (<[t := with_cpu None th]> (h_thread h)) (h_cpu h) h h' /\
    shows h' (th_chan t TH_CHAN_CPU) value_null.
Proof.
  intros Hg E. unfold thread_unset_cpu in E.
  apply mbind_Ok in E as (th & ? & [Ht ->]%load_thread_Ok & E).
  destruct (t_cpu th) eqn:Hn; [|discriminate]. apply write_cpu_Ok in E as [U S]; [|done]. eauto.
Qed.

(** ** What a CPU shows *)

Definition in_state_of (P : thread_state -> bool) (ths : gmap nat thread) (t : nat) : bool :=
  match ths !! t with Some th => P (t_state th) | None => false end.

(** The threads of a list that run, and those that are active. *)
Definition runs (ths : gmap nat thread) : list nat -> list nat := List.filter (in_state_of is_running_state ths).
Definition actives (ths : gmap nat thread) : list nat -> list nat := List.filter (in_state_of is_active_state ths).

(** The only element, if there is one only. *)
Definition sole (l : list nat) : option nat := match l with [t] => Some t | _ => None end.

Definition last_or (l : list nat) (d : option nat) : option nat :=
  match list.last l with Some t => Some t | None => d end.

Lemma last_or_cons x l d : last_or (x :: l) d = last_or l (Some x).
Proof. unfold last_or. destruct l as [|y l]; [done|]. rewrite last_cons_cons.
  destruct (list.last (y :: l)) eqn:E; [done|]. by apply last_None in E. Qed.

Lemma count_threads_Ok l ta h ta' h' : count_threads l ta h = (Ok ta', h') -> h' = h /\
  ta' = mk_tally (ta_running ta + Z.of_nat (length (runs (h_thread h) l)))
                 (last_or (runs (h_thread h) l) (ta_th_running ta))
                 (ta_active ta + Z.of_nat (length (actives (h_thread h) l)))
                 (last_or (actives (h_thread h) l) (ta_th_active ta)).
Proof.
  revert ta. induction l as [|t l IH]; intros ta E; simpl in E.
  - minv E. split; [done|]. destruct ta; simpl. by rewrite !Z.add_0_r.
  - apply mbind_Ok in E as (th & ? & [Ht ->]%load_thread_Ok & E).
    apply IH in E as [-> ->]. split; [done|]. unfold runs, actives. simpl.
    assert (forall P, in_state_of P (h_thread h) t = P (t_state th)) as Hi by (intros P; unfold in_state_of; by rewrite Ht).
    rewrite !Hi. destruct (t_state th); simpl; rewrite ?last_or_cons; try done; f_equal; lia.
Qed.

(** What [cpu_update] writes. *)
Definition refreshed (ths : gmap nat thread) (cp : cpu) : cpu :=
  set_th_active (sole (actives ths (cpu_threads cp)))
    (set_th_running (sole (runs ths (cpu_threads cp)))
      (set_counts (Z.of_nat (length (runs ths (cpu_threads cp))))
                  (Z.of_nat (length (actives ths (cpu_threads cp)))) cp)).

(** The channel values for the running thread, if there is one only. *)
Definition of_thread (ths : gmap nat thread) (f : thread -> value) (t : option nat) : value :=
  match t ≫= (ths !!.) with Some th => f th | None => value_null end.

Definition pid_value (procs : gmap nat proc) (th : thread) : value :=
  match procs !! t_proc th with Some p => value_int64 (proc_pid p) | None => value_null end.

Record cpu_shows (h : heap) (c : nat) (cp : cpu) : Prop := {
  cs_nrun : shows h (cpu_chan c CPU_CHAN_NRUN) (value_int64 (cpu_nth_running cp));
  cs_tid : shows h (cpu_chan c CPU_CHAN_TID)
    (of_thread (h_thread h) (fun th => value_int64 (t_tid th)) (cpu_th_running cp));
  cs_pid : shows h (cpu_chan c CPU_CHAN_PID) (of_thread (h_thread h) (pid_value (h_proc h)) (cpu_th_running cp));
  cs_thrun : shows h (cpu_chan c CPU_CHAN_THRUN)
    (of_thread (h_thread h) (fun th => value_int64 (t_gindex th)) (cpu_th_running cp));
  cs_thact : shows h (cpu_chan c CPU_CHAN_THACT)
    (of_thread (h_thread h) (fun th => value_int64 (t_gindex th)) (cpu_th_active cp))
}.

Definition of_cpu (c : nat) (b : addr) : Prop := a_own b = OwnCpu c.

Lemma sole_last l : length l = 1%nat -> last_or l None = sole l /\ exists t, sole l = Some t /\ l = [t].
Proof. destruct l as [|t [|]]; [done| |done]. intros _. split; [done|]. by exists t. Qed.

Lemma sole_None l : length l <> 1%nat -> sole l = None.
Proof. by destruct l as [|t [|]]. Qed.

Lemma set_th_running_twice x y cp : set_th_running x (set_th_running y cp) = set_th_running x cp.
Proof. done. Qed.

(** The CPU fields [cpu_update] writes are the list's: [k] only differs in the
    order in which the code writes them. *)
Lemma upd_cpu_step f c cp h : h_cpu h !! c = Some cp ->
  upd_cpu c f h = (Ok tt, set_h_cpu <[c := f cp]> h).
Proof. intros Hc. unfold upd_cpu, mmod. f_equal. unfold set_h_cpu. f_equal. by apply alter_lookup_insert. Qed.

Section CpuUpdate.
Variables (c : nat) (h : heap) (cp : cpu).
Hypothesis Hgood : all_chans chan_good h.
Hypothesis Hc : h_cpu h !! c = Some cp.

Let ths := h_thread h.
Let rs := runs ths (cpu_threads cp).
Let acts := actives ths (cpu_threads cp).

(** The heap once the counters and the running thread are stored. *)
Definition counted : cpu := set_counts (Z.of_nat (length rs)) (Z.of_nat (length acts)) cp.

Lemma running_part h1 r h2 :
  h1 = set_h_cpu <[c := counted]> h ->
  (if Z.of_nat (length rs) =? 1 then
     upd_cpu c (set_th_running (last_or rs None)) ;;;
     let* t := deref (last_or rs None) in
     let* th := load_thread t in
     let* p := load_proc (t_proc th) in
     mret (value_int64 (t_tid th), value_int64 (proc_pid p), value_int64 (t_gindex th))
   else
     upd_cpu c (set_th_running None) ;;;
     mret (value_null, value_null, value_null)) h1 = (Ok r, h2) ->
  h2 = set_h_cpu <[c := set_th_running (sole rs) counted]> h /\
  r = (of_thread ths (fun th => value_int64 (t_tid th)) (sole rs),
       of_thread ths (pid_value (h_proc h)) (sole rs),
       of_thread ths (fun th => value_int64 (t_gindex th)) (sole rs)).
Proof.
  intros -> E.
  assert (forall x, upd_cpu c (set_th_running x) (set_h_cpu <[c := counted]> h) =
    (Ok tt, set_h_cpu <[c := set_th_running x counted]> h)) as Hu.
  { intros x. rewrite (upd_cpu_step _ _ counted) by (simpl; by rewrite lookup_insert_eq).
    unfold set_h_cpu; simpl. by rewrite insert_insert_eq. }
  destruct (Z.eqb_spec (Z.of_nat (length rs)) 1) as [H1|H1]; rewrite (mbind_run _ _ _ _ _ (Hu _)) in E.
  - destruct (sole_last rs ltac:(lia)) as [Hl (t & Hs & _)]. rewrite Hl in E. rewrite Hs in E |- *.
    rewrite (mbind_run _ _ _ t (set_h_cpu <[c := set_th_running (Some t) counted]> h)) in E by done.
    apply mbind_Ok in E as (th & ? & [Ht ->]%load_thread_Ok & E).
    apply mbind_Ok in E as (p & ? & [Hp ->]%load_proc_Ok & E). minv E. split; [done|].
    simpl in Ht, Hp. unfold of_thread, pid_value, ths; simpl. by rewrite Ht, Hp.
  - rewrite sole_None by lia. by minv E.
Qed.

Lemma active_part h1 g h2 : h_thread h1 = ths ->
  h_cpu h1 !! c = Some (set_th_running (sole rs) counted) ->
  (if Z.of_nat (length acts) =? 1 then
     upd_cpu c (set_th_active (last_or acts None)) ;;;
     let* t := deref (last_or acts None) in
     let* th := load_thread t in
     mret (value_int64 (t_gindex th))
   else
     upd_cpu c (set_th_active None) ;;; mret value_null) h1 = (Ok g, h2) ->
  h2 = set_h_cpu <[c := refreshed ths cp]> h1 /\
  g = of_thread ths (fun th => value_int64 (t_gindex th)) (sole acts).
Proof.
  intros Ht1 Hc1 E.
  destruct (Z.eqb_spec (Z.of_nat (length acts)) 1) as [H1|H1];
    rewrite (mbind_run _ _ _ _ _ (upd_cpu_step _ _ _ _ Hc1)) in E.
  - destruct (sole_last acts ltac:(lia)) as [Hl (t & Hs & _)]. rewrite Hl, Hs in E.
    rewrite (mbind_run _ _ _ t (set_h_cpu <[c := set_th_active (Some t) (set_th_running (sole rs) counted)]> h1)) in E by done.
    apply mbind_Ok in E as (th & ? & [Hth ->]%load_thread_Ok & E). minv E.
    unfold refreshed. fold ths rs acts counted. rewrite Hs. split; [done|].
    unfold of_thread. simpl. simpl in Hth. by rewrite <- Ht1, Hth.
  - rewrite sole_None by lia. minv E. split; [|done]. unfold refreshed. fold ths rs acts counted.
    by rewrite (sole_None acts) by lia.
Qed.

Lemma cpu_update_Ok h' : cpu_update c h = (Ok tt, h') ->
  upd (of_cpu c) ths (<[c := refreshed ths cp]> (h_cpu h)) h h' /\
  cpu_shows h' c (refreshed ths cp) /\
  (cpu_is_virtual cp = false -> (length rs <= 1)%nat).
Proof.
  intros E. unfold cpu_update in E. rewrite (mbind_run _ _ _ _ _ (load_cpu_run c cp h Hc)) in E.
  apply mbind_Ok in E as (ta & ? & [-> ->]%count_threads_Ok & E). cbn [ta_running ta_active ta_th_running ta_th_active] in E.
  fold ths rs acts in E. rewrite !Z.add_0_l in E.
  rewrite (mbind_run _ _ _ _ _ (upd_cpu_step _ _ _ _ Hc)) in E.
  destruct ((1 <? Z.of_nat (length rs)) && negb (cpu_is_virtual cp)) eqn:Hv; [discriminate|].
  apply mbind_Ok in E as (r & h1 & [-> ->]%running_part & E); [|done].
  assert (upd (fun _ => False) ths (<[c := set_th_running (sole rs) counted]> (h_cpu h)) h
    (set_h_cpu <[c := set_th_running (sole rs) counted]> h)) as U0 by (split; simpl; auto).
  cbn [fst snd] in E.
  apply mbind_Ok in E as ([] & h2 & E1 & E). apply upd_chan_set in E1 as [U1 S1]; [|apply U0].
  apply mbind_Ok in E as ([] & h3 & E1 & E). apply upd_chan_set in E1 as [U2 S2]; [|apply U1].
  apply mbind_Ok in E as ([] & h4 & E1 & E). apply upd_chan_set in E1 as [U3 S3]; [|apply U2].
  pose proof (eq_trans (u_thread _ _ _ _ _ U3) (eq_trans (u_thread _ _ _ _ _ U2) (u_thread _ _ _ _ _ U1))) as T4.
  pose proof (eq_trans (u_cpu _ _ _ _ _ U3) (eq_trans (u_cpu _ _ _ _ _ U2) (u_cpu _ _ _ _ _ U1))) as C4.
  simpl in T4, C4.
  apply mbind_Ok in E as (g & h5 & E1 & E).
  apply active_part in E1 as [-> ->]; [|done|rewrite C4; by rewrite lookup_insert_eq].
  assert (upd (fun _ => False) ths (<[c := refreshed ths cp]> (h_cpu h)) h4 (set_h_cpu <[c := refreshed ths cp]> h4)) as U4.
  { split; simpl; auto; [by rewrite C4, insert_insert_eq|apply U3]. }
  apply mbind_Ok in E as ([] & h6 & E1 & E). apply upd_chan_set in E1 as [U5 S5]; [|apply U4].
  apply upd_chan_set in E as [U6 S6]; [|apply U5].
  assert (forall i b, ~ of_cpu c b -> b <> cpu_chan c i) as Hne by (intros i b Hb ->; by apply Hb).
  assert (upd (of_cpu c) ths (<[c := refreshed ths cp]> (h_cpu h)) h h') as U.
  { pose proof (eq_trans (u_thread _ _ _ _ _ U6) (u_thread _ _ _ _ _ U5)) as T6.
    pose proof (eq_trans (u_cpu _ _ _ _ _ U6) (u_cpu _ _ _ _ _ U5)) as C6. simpl in T6, C6.
    split.
    - by rewrite T6.
    - by rewrite C6, C4, insert_insert_eq.
    - rewrite (u_rest _ _ _ _ _ U6), (u_rest _ _ _ _ _ U5), (u_rest _ _ _ _ _ U4),
        (u_rest _ _ _ _ _ U3), (u_rest _ _ _ _ _ U2). apply (u_rest _ _ _ _ _ U1).
    - apply U6.
    - intros b Hb. rewrite (u_chan _ _ _ _ _ U6), (u_chan _ _ _ _ _ U5), (u_chan _ _ _ _ _ U4),
        (u_chan _ _ _ _ _ U3), (u_chan _ _ _ _ _ U2), (u_chan _ _ _ _ _ U1) by eauto. done. }
  split; [done|]. split.
  - assert (forall i j, i <> j -> cpu_chan c i <> cpu_chan c j) as Hij by (intros i j Hij [= ?]; congruence).
    pose proof (u_thread _ _ _ _ _ U) as HT. pose proof (u_rest _ _ _ _ _ U) as HR. injection HR as HP _ _ _.
    split; rewrite ?HT, ?HP; simpl;
      repeat first [ exact S6 | eapply upd_shows; [exact U6|by apply Hij|] | exact S5
                   | eapply upd_shows; [exact U5|by apply Hij|] | eapply upd_shows; [exact U4|tauto|]
                   | exact S3 | eapply upd_shows; [exact U3|by apply Hij|]
                   | exact S2 | eapply upd_shows; [exact U2|by apply Hij|] | exact S1 ].
  - intros Hp. rewrite Hp, andb_true_r in Hv. apply Z.ltb_ge in Hv. lia.
Qed.
End CpuUpdate.

(** ** The invariant *)

Definition dead_state (st : thread_state) : bool := state_in [TH_ST_DEAD; TH_ST_UNKNOWN] st.

(** A thread shows no state before its first event. *)
Definition state_value (st : thread_state) : value :=
  match st with TH_ST_UNKNOWN => value_null | _ => value_int64 (thread_state_Z st) end.

Definition cpu_value (cpus : gmap nat cpu) (oc : option nat) : value :=
  match oc ≫= (cpus !!.) with Some cp => value_int64 (cpu_gindex cp) | None => value_null end.

(** The flags and channels of a thread agree with its state. *)
Record thread_view (h : heap) (t : nat) (th : thread) : Prop := {
  tv_running : t_is_running th = is_running_state (t_state th);
  tv_active : t_is_active th = is_active_state (t_state th);
  tv_alive : t_cpu th = None <-> dead_state (t_state th) = true;
  tv_state : shows h (th_chan t TH_CHAN_STATE) (state_value (t_state th));
  tv_tid : shows h (th_chan t TH_CHAN_TID) (tid_value th);
  tv_cpu : shows h (th_chan t TH_CHAN_CPU) (cpu_value (h_cpu h) (t_cpu th))
}.

(** The counters and channels of a CPU agree with the threads of its list; a
    CPU that never had a thread shows nothing. *)
Record cpu_view (h : heap) (c : nat) (cp : cpu) : Prop := {
  cv_fresh : refreshed (h_thread h) cp = cp;
  cv_one : cpu_is_virtual cp = false -> (length (runs (h_thread h) (cpu_threads cp)) <= 1)%nat;
  cv_shows : cpu_shows h c cp \/
    (cpu_threads cp = [] /\ forall i, (i < 5)%nat -> shows h (cpu_chan c i) value_null)
}.

Record cpu_list (ths : gmap nat thread) (c : nat) (cp : cpu) : Prop := {
  cl_nodup : NoDup (cpu_threads cp);
  cl_length : cpu_nthreads cp = Z.of_nat (length (cpu_threads cp));
  cl_threads : forall t, t ∈ cpu_threads cp <-> exists th, ths !! t = Some th /\ t_cpu th = Some c
}.

(** The invariant of threads and CPUs: the list of a CPU is exactly the threads
    that say they are on it, and both views hold. *)
Record sys_inv (h : heap) : Prop := {
  si_good : all_chans chan_good h;
  si_thread : forall t th, h_thread h !! t = Some th -> thread_view h t th;
  si_on : forall t th c, h_thread h !! t = Some th -> t_cpu th = Some c -> is_Some (h_cpu h !! c);
  si_cpu : forall c cp, h_cpu h !! c = Some cp -> cpu_list (h_thread h) c cp /\ cpu_view h c cp
}.

(** What a CPU's view sees of a thread. *)
Definition core (th : thread) := (t_tid th, t_gindex th, t_proc th, t_state th).

Definition same_core (ths ths' : gmap nat thread) (l : list nat) : Prop :=
  forall t, t ∈ l -> core <$> ths' !! t = core <$> ths !! t.

Lemma in_state_core P ths ths' t : core <$> ths' !! t = core <$> ths !! t ->
  in_state_of P ths' t = in_state_of P ths t.
Proof. unfold in_state_of. destruct (ths' !! t), (ths !! t); simpl; by intros [=]; try congruence. Qed.

Lemma filter_core P ths ths' l : same_core ths ths' l ->
  List.filter (in_state_of P ths') l = List.filter (in_state_of P ths) l.
Proof.
  intros Hs. induction l as [|t l IH]; simpl; [done|].
  rewrite (in_state_core P ths ths') by (apply Hs; by left). rewrite IH; [done|].
  intros u Hu. apply Hs. by right.
Qed.

Lemma refreshed_core ths ths' cp : same_core ths ths' (cpu_threads cp) -> refreshed ths' cp = refreshed ths cp.
Proof. intros Hs. unfold refreshed, runs, actives. by rewrite !(filter_core _ ths ths') by done. Qed.

Lemma sole_filter P ths l t : sole (List.filter (in_state_of P ths) l) = Some t -> t ∈ l.
Proof.
  intros E. assert (In t (List.filter (in_state_of P ths) l)) as [Hin _]%List.filter_In.
  { destruct (List.filter _ _) as [|x [|]]; simplify_eq/=. by left. }
  by apply list_elem_of_In.
Qed.

Lemma of_thread_core f ths ths' l o : same_core ths ths' l -> (forall t, o = Some t -> t ∈ l) ->
  (forall th th', core th' = core th -> f th' = f th) -> of_thread ths' f o = of_thread ths f o.
Proof.
  intros Hs Ho Hf. unfold of_thread. destruct o as [t|]; simpl; [|done].
  specialize (Hs t (Ho t eq_refl)). destruct (ths' !! t), (ths !! t); simplify_eq/=; try done.
  apply Hf. unfold core. congruence.
Qed.

Lemma shows_chan h h' a v : h_chan h' !! a = h_chan h !! a -> shows h a v -> shows h' a v.
Proof. intros E (c & Hc & Hv). exists c. by rewrite E. Qed.

Lemma cpu_view_frame h h' c cp : cpu_view h c cp -> same_core (h_thread h) (h_thread h') (cpu_threads cp) ->
  h_proc h' = h_proc h -> (forall i, h_chan h' !! cpu_chan c i = h_chan h !! cpu_chan c i) -> cpu_view h' c cp.
Proof.
  intros [Hf H1 Hs] Hc Hp Hch.
  assert (forall t, cpu_th_running cp = Some t -> t ∈ cpu_threads cp) as Hr.
  { intros t. rewrite <- Hf. apply sole_filter. }
  assert (forall t, cpu_th_active cp = Some t -> t ∈ cpu_threads cp) as Ha.
  { intros t. rewrite <- Hf. apply sole_filter. }
  split.
  - by rewrite (refreshed_core (h_thread h)).
  - unfold runs. by rewrite (filter_core _ (h_thread h)).
  - destruct Hs as [[S1 S2 S3 S4 S5] | [Hn Hs]]; [left|right].
    + split; (eapply shows_chan; [apply Hch|]); [done|..]; rewrite ?Hp;
        erewrite (of_thread_core _ (h_thread h) (h_thread h')); try eassumption;
        intros th th' Ecore; injection Ecore as E1 E2 E3 E4; unfold pid_value; by rewrite ?E1, ?E2, ?E3.
    + split; [done|]. intros i Hi. eapply shows_chan; [apply Hch|]. auto.
Qed.

Lemma thread_view_frame h h' t th : thread_view h t th ->
  (forall i, h_chan h' !! th_chan t i = h_chan h !! th_chan t i) ->
  cpu_value (h_cpu h') (t_cpu th) = cpu_value (h_cpu h) (t_cpu th) -> thread_view h' t th.
Proof.
  intros [] Hch Hv. split; try done; [| |rewrite Hv]; (eapply shows_chan; [apply Hch|done]).
Qed.

(** ** One thread moves

    The effect every handler has: thread [t] changes to [th'], the CPUs [C]
    change to ones with a good view whose lists differ at most in [t]. *)
Record moves (h h' : heap) (t : nat) (th' : thread) (C : list nat) : Prop := {
  mv_good : all_chans chan_good h';
  mv_thread : h_thread h' = <[t := th']> (h_thread h);
  mv_proc : h_proc h' = h_proc h;
  mv_chan : forall b, a_own b <> OwnThread t -> (forall c, c ∈ C -> a_own b <> OwnCpu c) ->
    h_chan h' !! b = h_chan h !! b;
  mv_other : forall c, c ∉ C -> h_cpu h' !! c = h_cpu h !! c;
  mv_from : forall c cp, c ∉ C -> h_cpu h !! c = Some cp -> t ∉ cpu_threads cp;
  mv_to : forall c, t_cpu th' = Some c -> c ∈ C;
  mv_view : thread_view h' t th';
  mv_cpu : forall c, c ∈ C -> exists cp cp', h_cpu h !! c = Some cp /\ h_cpu h' !! c = Some cp' /\
    cpu_view h' c cp' /\ NoDup (cpu_threads cp') /\ cpu_nthreads cp' = Z.of_nat (length (cpu_threads cp')) /\
    cpu_gindex cp' = cpu_gindex cp /\
    (forall u, u <> t -> u ∈ cpu_threads cp' <-> u ∈ cpu_threads cp) /\
    (t ∈ cpu_threads cp' <-> t_cpu th' = Some c)
}.

Lemma moves_inv h h' t th' C : sys_inv h -> moves h h' t th' C -> sys_inv h'.
Proof.
  intros [Hg Ht Ho Hc] [Mg Mt Mp Mch Mo Mf Mto Mv Mc].
  assert (forall c cp, h_cpu h !! c = Some cp -> exists cp', h_cpu h' !! c = Some cp' /\ cpu_gindex cp' = cpu_gindex cp) as Hcpu.
  { intros c cp Hcp. destruct (decide (c ∈ C)) as [Hin|Hni].
    - destruct (Mc c Hin) as (cp0 & cp' & ? & ? & _ & _ & _ & ? & _). simplify_eq. eauto.
    - exists cp. by rewrite Mo. }
  split; [done|..].
  - intros u uh. rewrite Mt. destruct (decide (u = t)) as [->|Hne]; [rewrite lookup_insert_eq; by intros [= <-]|].
    rewrite lookup_insert_ne by done. intros Hu. eapply thread_view_frame; [by apply Ht| |].
    + intros i. apply Mch; [by intros [=]|]. by intros c _ [=].
    + unfold cpu_value. destruct (t_cpu uh) as [c|] eqn:Hcu; simpl; [|done].
      destruct (Ho u uh c Hu Hcu) as [cp Hcp]. destruct (Hcpu c cp Hcp) as (cp' & -> & ->). by rewrite Hcp.
  - intros u uh c. rewrite Mt. destruct (decide (u = t)) as [->|Hne].
    + rewrite lookup_insert_eq. intros [= <-] Hcu. destruct (Mc c (Mto c Hcu)) as (? & ? & _ & -> & _). eauto.
    + rewrite lookup_insert_ne by done. intros Hu Hcu. destruct (Ho u uh c Hu Hcu) as [cp Hcp].
      destruct (Hcpu c cp Hcp) as (cp' & -> & _). eauto.
  - intros c cp' Hcp'. rewrite Mt. destruct (decide (c ∈ C)) as [Hin|Hni].
    + destruct (Mc c Hin) as (cp & cp0 & Hcp & ? & Hview & Hnd & Hlen & _ & Hu & Hself). simplify_eq.
      destruct (Hc c cp Hcp) as [[_ _ Hl] _]. split; [|done]. split; [done..|]. intros u.
      destruct (decide (u = t)) as [->|Hne].
      * rewrite Hself, lookup_insert_eq. naive_solver.
      * rewrite Hu, Hl, lookup_insert_ne by done. done.
    + rewrite Mo in Hcp' by done. destruct (Hc c cp' Hcp') as [[Hnd Hlen Hl] Hv].
      pose proof (Mf c cp' Hni Hcp') as Hnot.
      split; [split; [done..|]|].
      * intros u. destruct (decide (u = t)) as [->|Hne]; [|by rewrite lookup_insert_ne, Hl].
        rewrite lookup_insert_eq. split; [done|]. intros (? & [= <-] & Hcu). by apply Mto in Hcu.
      * eapply cpu_view_frame; [done| |done|].
        -- intros u Hu. rewrite Mt, lookup_insert_ne by (by intros ->). done.
        -- intros i. apply Mch; [by intros [=]|]. intros c' Hc' [= ->]. done.
Qed.

(** ** The operations move one thread *)

Lemma cpu_updated c cp h h' : all_chans chan_good h -> h_cpu h !! c = Some cp -> cpu_update c h = (Ok tt, h') ->
  upd (of_cpu c) (h_thread h) (<[c := refreshed (h_thread h) cp]> (h_cpu h)) h h' /\
  cpu_view h' c (refreshed (h_thread h) cp).
Proof.
  intros Hg Hc E. destruct (cpu_update_Ok c h cp Hg Hc h' E) as (U & S & H1). split; [done|].
  split; [by rewrite (u_thread _ _ _ _ _ U)|by rewrite (u_thread _ _ _ _ _ U)|by left].
Qed.

Lemma set_cpu_then c f cp h h' : all_chans chan_good h -> h_cpu h !! c = Some cp ->
  (upd_cpu c f ;;; cpu_update c) h = (Ok tt, h') ->
  upd (of_cpu c) (h_thread h) (<[c := refreshed (h_thread h) (f cp)]> (h_cpu h)) h h' /\
  cpu_view h' c (refreshed (h_thread h) (f cp)).
Proof.
  intros Hg Hc E. rewrite (mbind_run _ _ _ _ _ (upd_cpu_step f c cp h Hc)) in E.
  apply (cpu_updated c (f cp)) in E as [U V]; [|done|simpl; by rewrite lookup_insert_eq].
  split; [|done]. simpl in U. rewrite insert_insert_eq in U. destruct U. by split.
Qed.

Definition with_thread (t : nat) (cp : cpu) : cpu :=
  set_threads (cpu_nthreads cp + 1) (cpu_threads cp ++ [t]) cp.
Definition without_thread (t : nat) (cp : cpu) : cpu :=
  set_threads (cpu_nthreads cp - 1) (remove_first t (cpu_threads cp)) cp.

Lemma cpu_add_thread_Ok c t h h' : all_chans chan_good h -> cpu_add_thread c t h = (Ok tt, h') ->
  exists cp, h_cpu h !! c = Some cp /\ t ∉ cpu_threads cp /\
    upd (of_cpu c) (h_thread h) (<[c := refreshed (h_thread h) (with_thread t cp)]> (h_cpu h)) h h' /\
    cpu_view h' c (refreshed (h_thread h) (with_thread t cp)).
Proof.
  intros Hg E. unfold cpu_add_thread in E. apply mbind_Ok in E as (cp & ? & [Hc ->]%load_cpu_Ok & E).
  unfold find_thread in E. case_bool_decide as Hin; [discriminate|].
  exists cp. split; [done|]. split; [done|].
  exact (set_cpu_then c (set_threads (cpu_nthreads cp + 1) (cpu_threads cp ++ [t])) cp h h' Hg Hc E).
Qed.

Lemma cpu_remove_thread_Ok c t h h' : all_chans chan_good h -> cpu_remove_thread c t h = (Ok tt, h') ->
  exists cp, h_cpu h !! c = Some cp /\ t ∈ cpu_threads cp /\
    upd (of_cpu c) (h_thread h) (<[c := refreshed (h_thread h) (without_thread t cp)]> (h_cpu h)) h h' /\
    cpu_view h' c (refreshed (h_thread h) (without_thread t cp)).
Proof.
  intros Hg E. unfold cpu_remove_thread in E. apply mbind_Ok in E as (cp & ? & [Hc ->]%load_cpu_Ok & E).
  unfold find_thread in E. case_bool_decide as Hin; [|discriminate].
  exists cp. split; [done|]. split; [done|].
  exact (set_cpu_then c (set_threads (cpu_nthreads cp - 1) (remove_first t (cpu_threads cp))) cp h h' Hg Hc E).
Qed.

Lemma elem_of_remove_first t x l : NoDup l -> x ∈ remove_first t l <-> x ∈ l /\ x <> t.
Proof.
  induction l as [|y l IH]; intros Hn; simpl; [set_solver|]. apply list.NoDup_cons in Hn as [Hy Hn].
  destruct (Nat.eqb_spec y t) as [->|Hne]; [set_solver|].
  rewrite !elem_of_cons, IH by done. naive_solver.
Qed.

Lemma NoDup_remove_first t l : NoDup l -> NoDup (remove_first t l).
Proof.
  induction l as [|y l IH]; intros Hn; simpl; [done|]. pose proof Hn as Hn'.
  apply list.NoDup_cons in Hn as [Hy Hn]. case_match; [done|]. constructor; [|auto].
  rewrite elem_of_remove_first by done. tauto.
Qed.

Lemma length_remove_first t l : t ∈ l -> length l = S (length (remove_first t l)).
Proof.
  induction l as [|y l IH]; intros Hin; simpl; [set_solver|].
  destruct (Nat.eqb_spec y t) as [->|Hne]; [done|]. simpl. f_equal. apply IH. set_solver.
Qed.

Section Moves.
Variables (h : heap) (t : nat) (th : thread).
Hypothesis Hinv : sys_inv h.
Hypothesis Ht : h_thread h !! t = Some th.

(** A thread is only in the list of its CPU. *)
Lemma not_elsewhere c cp : h_cpu h !! c = Some cp -> t_cpu th <> Some c -> t ∉ cpu_threads cp.
Proof.
  intros Hc Hne Hin. destruct (si_cpu _ Hinv c cp Hc) as [[_ _ Hl] _].
  apply Hl in Hin as (th' & ? & ?). congruence.
Qed.

Lemma change_state_moves from to h' :
  (forall st, state_in from st = true -> dead_state st = false) -> dead_state to = false ->
  change_state from to t h = (Ok tt, h') ->
  state_in from (t_state th) = true /\ exists c, t_cpu th = Some c /\ moves h h' t (with_tstate to th) [c].
Proof.
  intros Hfrom Hto E. unfold change_state in E.
  apply mbind_Ok in E as (th0 & ? & [Ht0 ->]%load_thread_Ok & E). simplify_eq.
  destruct (state_in from (t_state th)) eqn:Hst; simpl in E; [|discriminate]. split; [done|].
  apply mbind_Ok in E as ([] & h1 & E1 & E).
  apply thread_set_state_Ok in E1 as (th1 & c & ? & Hc & U1 & S1 & S2); [|apply Hinv]. simplify_eq.
  exists c. split; [done|]. destruct (si_on _ Hinv t th c Ht Hc) as [cp Hcp].
  unfold update_cpu_of in E. apply mbind_Ok in E as (th' & ? & [Ht1 ->]%load_thread_Ok & E).
  rewrite (u_thread _ _ _ _ _ U1), lookup_insert_eq in Ht1. injection Ht1 as <-. simpl in E. rewrite Hc in E.
  rewrite (mbind_run _ _ _ c h1) in E by done.
  destruct (cpu_updated c cp h1 h' (u_good _ _ _ _ _ U1) ltac:(by rewrite (u_cpu _ _ _ _ _ U1)) E) as [U2 V2].
  rewrite (u_thread _ _ _ _ _ U1), (u_cpu _ _ _ _ _ U1) in U2. rewrite (u_thread _ _ _ _ _ U1) in V2.
  assert (forall i, ~ of_cpu c (th_chan t i)) as Hno by (by intros i [=]).
  destruct (si_thread _ Hinv t th Ht) as [V3 V4 V5 V6 V7 V8].
  destruct (si_cpu _ Hinv c cp Hcp) as [[L1 L2 L3] _].
  pose proof (u_rest _ _ _ _ _ U1) as R1. pose proof (u_rest _ _ _ _ _ U2) as R2.
  split.
  - apply U2.
  - apply U2.
  - congruence.
  - intros b Hb HC. rewrite (u_chan _ _ _ _ _ U2) by (apply HC; by left).
    rewrite (u_chan _ _ _ _ _ U1); [done|]. by intros [->| ->].
  - intros c' Hc'. rewrite (u_cpu _ _ _ _ _ U2). apply lookup_insert_ne. set_solver.
  - intros c' cp' Hc' Hcp'. apply (not_elsewhere c'); [done|]. set_solver.
  - intros c' [= Hc']. simpl in Hc'. rewrite Hc in Hc'. injection Hc' as <-. by left.
  - split; simpl; try done.
    + rewrite Hc, Hto. done.
    + destruct to; (eapply upd_shows; [exact U2|apply Hno|exact S1]) || done.
    + eapply upd_shows; [exact U2|apply Hno|exact S2].
    + eapply upd_shows; [exact U2|apply Hno|]. eapply upd_shows; [exact U1|by intros [[=]|[=]]|].
      rewrite (u_cpu _ _ _ _ _ U2), Hc. unfold cpu_value in *; simpl. rewrite lookup_insert_eq.
      rewrite Hc in V8; simpl in V8. by rewrite Hcp in V8.
  - intros c' Hc'. apply list_elem_of_singleton in Hc' as ->. exists cp.
    eexists. split; [done|]. rewrite (u_cpu _ _ _ _ _ U2), lookup_insert_eq. split; [done|]. simpl.
    split_and!; try done. rewrite Hc. split; [done|]. intros _. apply L3. eauto.
Qed.

Lemma execute_moves c h' :
  (thread_set_cpu t c ;;; thread_set_state t TH_ST_RUNNING ;;; cpu_add_thread c t) h = (Ok tt, h') ->
  t_cpu th = None /\ moves h h' t (with_tstate TH_ST_RUNNING (with_cpu (Some c) th)) [c].
Proof.
  intros E. apply mbind_Ok in E as ([] & h1 & E1 & E).
  apply thread_set_cpu_Ok in E1 as (th0 & cp & ? & Hn & Hc & U1 & S1); [|apply Hinv]. simplify_eq.
  split; [done|]. apply mbind_Ok in E as ([] & h2 & E1 & E).
  apply thread_set_state_Ok in E1 as (th1 & c1 & Ht1 & Hc1 & U2 & S2 & S3); [|apply U1].
  rewrite (u_thread _ _ _ _ _ U1), lookup_insert_eq in Ht1. injection Ht1 as <-. injection Hc1 as <-.
  apply cpu_add_thread_Ok in E as (cp0 & Hc' & Hnot & U3 & V3); [|apply U2].
  rewrite (u_cpu _ _ _ _ _ U2), (u_cpu _ _ _ _ _ U1) in Hc', U3. simplify_eq.
  rewrite (u_thread _ _ _ _ _ U2), (u_thread _ _ _ _ _ U1), insert_insert_eq in U3, V3.
  assert (forall i, ~ of_cpu c (th_chan t i)) as Hno by (by intros i [=]).
  destruct (si_cpu _ Hinv c cp Hc) as [[L1 L2 L3] _].
  pose proof (u_rest _ _ _ _ _ U1) as R1. pose proof (u_rest _ _ _ _ _ U2) as R2.
  pose proof (u_rest _ _ _ _ _ U3) as R3.
  split.
  - apply U3.
  - apply U3.
  - congruence.
  - intros b Hb HC. rewrite (u_chan _ _ _ _ _ U3) by (apply HC; by left).
    rewrite (u_chan _ _ _ _ _ U2) by (by intros [->| ->]).
    rewrite (u_chan _ _ _ _ _ U1); [done|]. by intros ->.
  - intros c' Hc'. rewrite (u_cpu _ _ _ _ _ U3). apply lookup_insert_ne. set_solver.
  - intros c' cp' Hc1 Hcp. apply (not_elsewhere c'); [done|]. by rewrite Hn.
  - intros c' [= <-]. by left.
  - split; simpl; try done.
    + eapply upd_shows; [exact U3|apply Hno|exact S2].
    + eapply upd_shows; [exact U3|apply Hno|exact S3].
    + eapply upd_shows; [exact U3|apply Hno|]. eapply upd_shows; [exact U2|by intros [[=]|[=]]|].
      rewrite (u_cpu _ _ _ _ _ U3). unfold cpu_value; simpl. by rewrite lookup_insert_eq.
  - intros c' Hc'. apply list_elem_of_singleton in Hc' as ->. exists cp.
    eexists. split; [done|]. rewrite (u_cpu _ _ _ _ _ U3), lookup_insert_eq. split; [done|]. simpl.
    split_and!; try done.
    + apply list.NoDup_app. split_and!; [done|set_solver|repeat constructor; set_solver].
    + rewrite L2, length_app; simpl; lia.
    + set_solver.
    + set_solver.
Qed.

Lemma end_moves c h' : t_cpu th = Some c ->
  (thread_set_state t TH_ST_DEAD ;;; cpu_remove_thread c t ;;; thread_unset_cpu t) h = (Ok tt, h') ->
  moves h h' t (with_cpu None (with_tstate TH_ST_DEAD th)) [c].
Proof.
  intros Hc E. apply mbind_Ok in E as ([] & h1 & E1 & E).
  apply thread_set_state_Ok in E1 as (th1 & c1 & ? & ? & U1 & S1 & S2); [|apply Hinv]. simplify_eq.
  apply mbind_Ok in E as ([] & h2 & E1 & E).
  apply cpu_remove_thread_Ok in E1 as (cp & Hcp & Hin & U2 & V2); [|apply U1].
  apply thread_unset_cpu_Ok in E as (th1 & Ht1 & U3 & S3); [|apply U2].
  rewrite (u_thread _ _ _ _ _ U2), (u_thread _ _ _ _ _ U1), lookup_insert_eq in Ht1. injection Ht1 as <-.
  rewrite (u_cpu _ _ _ _ _ U1) in Hcp, U2.
  rewrite (u_thread _ _ _ _ _ U2), (u_thread _ _ _ _ _ U1), insert_insert_eq, (u_cpu _ _ _ _ _ U2) in U3.
  assert (forall i, ~ of_cpu c (th_chan t i)) as Hno by (by intros i [=]).
  destruct (si_cpu _ Hinv c cp Hcp) as [[L1 L2 L3] _].
  pose proof (u_rest _ _ _ _ _ U1) as R1. pose proof (u_rest _ _ _ _ _ U2) as R2.
  pose proof (u_rest _ _ _ _ _ U3) as R3.
  split.
  - apply U3.
  - apply U3.
  - congruence.
  - intros b Hb HC. rewrite (u_chan _ _ _ _ _ U3) by (by intros ->).
    rewrite (u_chan _ _ _ _ _ U2) by (apply HC; by left).
    rewrite (u_chan _ _ _ _ _ U1); [done|]. by intros [->| ->].
  - intros c' Hc'. rewrite (u_cpu _ _ _ _ _ U3). apply lookup_insert_ne. set_solver.
  - intros c' cp' Hc' Hcp'. apply (not_elsewhere c'); [done|]. rewrite Hc. set_solver.
  - intros c' [=].
  - split; simpl; try done.
    + eapply upd_shows; [exact U3|by intros [=]|]. eapply upd_shows; [exact U2|apply Hno|exact S1].
    + eapply upd_shows; [exact U3|by intros [=]|]. eapply upd_shows; [exact U2|apply Hno|exact S2].
  - intros c' Hc'. apply list_elem_of_singleton in Hc' as ->. exists cp.
    eexists. split; [done|]. rewrite (u_cpu _ _ _ _ _ U3), lookup_insert_eq. split; [done|]. simpl.
    split_and!; try done.
    + eapply cpu_view_frame; [exact V2| | |].
      * intros u Hu. rewrite (u_thread _ _ _ _ _ U3), (u_thread _ _ _ _ _ U2), (u_thread _ _ _ _ _ U1).
        destruct (decide (u = t)) as [->|]; [by rewrite !lookup_insert_eq|by rewrite !lookup_insert_ne].
      * congruence.
      * intros i. apply (u_chan _ _ _ _ _ U3). by intros [=].
    + by apply NoDup_remove_first.
    + rewrite L2, (length_remove_first t) by done. lia.
    + intros u Hu. rewrite elem_of_remove_first by done. tauto.
    + rewrite elem_of_remove_first by done. naive_solver.
Qed.

Lemma migrate_moves c c2 h' : t_cpu th = Some c ->
  (cpu_migrate_thread c t c2 ;;; thread_migrate_cpu t c2) h = (Ok tt, h') ->
  moves h h' t (with_cpu (Some c2) th) [c; c2].
Proof.
  intros Hc E. unfold cpu_migrate_thread in E. apply mbind_Ok in E as ([] & h2 & E1 & E).
  apply mbind_Ok in E1 as ([] & h1 & E1 & E2).
  apply cpu_remove_thread_Ok in E1 as (cp & Hcp & Hin & U1 & V1); [|apply Hinv].
  apply cpu_add_thread_Ok in E2 as (cp2 & Hcp2 & Hnot & U2 & V2); [|apply U1].
  apply thread_migrate_cpu_Ok in E as (th1 & cp3 & Ht1 & Hcp3 & U3 & S3); [|apply U2].
  rewrite (u_thread _ _ _ _ _ U2), (u_thread _ _ _ _ _ U1) in Ht1, U3. simplify_eq.
  rewrite (u_thread _ _ _ _ _ U1) in U2, V2. rewrite (u_cpu _ _ _ _ _ U1) in Hcp2, U2.
  rewrite (u_cpu _ _ _ _ _ U2) in Hcp3, U3. rewrite lookup_insert_eq in Hcp3. injection Hcp3 as <-.
  set (cp1 := refreshed (h_thread h) (without_thread t cp)) in *.
  set (cp4 := refreshed (h_thread h) (with_thread t cp2)) in *.
  destruct (si_cpu _ Hinv c cp Hcp) as [[L1 L2 L3] _].
  destruct (si_thread _ Hinv t th Ht) as [V5 V6 V7 V8 V9 V10].
  pose proof (u_rest _ _ _ _ _ U1) as R1. pose proof (u_rest _ _ _ _ _ U2) as R2.
  pose proof (u_rest _ _ _ _ _ U3) as R3.
  assert (forall l, same_core (h_thread h2) (h_thread h') l) as Hcore.
  { intros l u _. rewrite (u_thread _ _ _ _ _ U3), (u_thread _ _ _ _ _ U2).
    destruct (decide (u = t)) as [->|]; [by rewrite lookup_insert_eq, Ht|by rewrite lookup_insert_ne]. }
  assert (forall c0 cp0, cpu_view h2 c0 cp0 -> cpu_view h' c0 cp0) as Hview.
  { intros c0 cp0 Hv. eapply cpu_view_frame; [exact Hv|apply Hcore|congruence|].
    intros i. apply (u_chan _ _ _ _ _ U3). by intros [=]. }
  split.
  - apply U3.
  - apply U3.
  - congruence.
  - intros b Hb HC. rewrite (u_chan _ _ _ _ _ U3) by (by intros ->).
    rewrite (u_chan _ _ _ _ _ U2) by (apply HC; right; by left).
    apply (u_chan _ _ _ _ _ U1). apply HC. by left.
  - intros c' Hc'. rewrite (u_cpu _ _ _ _ _ U3), !lookup_insert_ne by set_solver. done.
  - intros c' cp' Hc' Hcp'. apply (not_elsewhere c'); [done|]. set_solver.
  - intros c' [= <-]. right. by left.
  - split; simpl; try done.
    + split; [done|]. intros Hd. apply V7 in Hd. congruence.
    + eapply upd_shows; [exact U3|by intros [=]|]. eapply upd_shows; [exact U2|by intros [=]|].
      eapply upd_shows; [exact U1|by intros [=]|done].
    + eapply upd_shows; [exact U3|by intros [=]|]. eapply upd_shows; [exact U2|by intros [=]|].
      eapply upd_shows; [exact U1|by intros [=]|done].
    + rewrite (u_cpu _ _ _ _ _ U3). unfold cpu_value; simpl. by rewrite lookup_insert_eq.
  - assert (NoDup (remove_first t (cpu_threads cp))) as Hnd by by apply NoDup_remove_first.
    assert (forall l (cp0 : cpu), NoDup l -> t ∉ l -> NoDup (l ++ [t])) as Happ.
    { intros l _ ? ?. apply list.NoDup_app. split_and!; [done|set_solver|repeat constructor; set_solver]. }
    intros c' Hc'. rewrite (u_cpu _ _ _ _ _ U3). destruct (decide (c' = c2)) as [->|Hne].
    + rewrite lookup_insert_eq. destruct (decide (c2 = c)) as [->|Hcc].
      * rewrite lookup_insert_eq in Hcp2. injection Hcp2 as <-. exists cp, cp4. split_and!; try done.
        -- by apply Hview.
        -- by apply (Happ (cpu_threads cp1) cp).
        -- simpl. rewrite L2, length_app, (length_remove_first t (cpu_threads cp)) by done. simpl. lia.
        -- intros u Hu. simpl. rewrite elem_of_app, elem_of_remove_first by done. set_solver.
        -- simpl. set_solver.
      * rewrite lookup_insert_ne in Hcp2 by done. exists cp2, cp4.
        destruct (si_cpu _ Hinv c2 cp2 Hcp2) as [[K1 K2 K3] _]. split_and!; try done.
        -- by apply Hview.
        -- by apply (Happ (cpu_threads cp2) cp).
        -- simpl. rewrite K2, length_app. simpl. lia.
        -- intros u Hu. simpl. set_solver.
        -- simpl. set_solver.
    + assert (c' = c) as -> by set_solver. rewrite lookup_insert_ne, lookup_insert_eq by done.
      exists cp, cp1. split_and!; try done.
      * apply Hview. eapply cpu_view_frame; [exact V1| | |].
        -- intros u _. by rewrite (u_thread _ _ _ _ _ U2), (u_thread _ _ _ _ _ U1).
        -- congruence.
        -- intros i. apply (u_chan _ _ _ _ _ U2). unfold of_cpu; simpl. congruence.
      * simpl. rewrite L2, (length_remove_first t (cpu_threads cp)) by done. lia.
      * intros u Hu. simpl. rewrite elem_of_remove_first by done. tauto.
      * simpl. rewrite elem_of_remove_first by done. split; [tauto|]. congruence.
Qed.
End Moves.

(** ** The abstract machine *)

(** Of each thread, its state and the CPU it is on. *)
Notation sys := (gmap nat (thread_state * option nat)).
Definition abs (h : heap) : sys := (fun th => (t_state th, t_cpu th)) <$> h_thread h.

(** The states each event leaves and the state it enters. *)
Definition change_table : list (Z * list thread_state * thread_state) :=
  [ (ch "p", [TH_ST_RUNNING; TH_ST_COOLING], TH_ST_PAUSED);
    (ch "r", [TH_ST_PAUSED; TH_ST_WARMING], TH_ST_RUNNING);
    (ch "c", [TH_ST_RUNNING], TH_ST_COOLING);
    (ch "w", [TH_ST_PAUSED], TH_ST_WARMING) ].

(** [sys_step c v t s s']: an event of category [c] and value [v] in the stream
    of thread [t] takes [s] to [s']. *)
Inductive sys_step (t : nat) (s : sys) : Z -> Z -> sys -> Prop :=
| st_execute st c : s !! t = Some (st, None) -> dead_state st = true ->
    sys_step t s (ch "H") (ch "x") (<[t := (TH_ST_RUNNING, Some c)]> s)
| st_end st c : s !! t = Some (st, Some c) -> state_in [TH_ST_RUNNING; TH_ST_COOLING] st = true ->
    sys_step t s (ch "H") (ch "e") (<[t := (TH_ST_DEAD, None)]> s)
| st_change v from to st c : (v, from, to) ∈ change_table -> s !! t = Some (st, Some c) ->
    state_in from st = true -> sys_step t s (ch "H") v (<[t := (to, Some c)]> s)
| st_migrate st c c2 : s !! t = Some (st, Some c) -> is_active_state st = true ->
    sys_step t s (ch "A") (ch "s") (<[t := (st, Some c2)]> s)
| st_remote u st c c2 : s !! u = Some (st, Some c) -> dead_state st = false ->
    sys_step t s (ch "A") (ch "r") (<[u := (st, Some c2)]> s)
| st_none c v : (c = ch "H" -> v = ch "C") -> c <> ch "A" -> sys_step t s c v s.

Lemma moves_abs h h' t th' C : moves h h' t th' C -> abs h' = <[t := (t_state th', t_cpu th')]> (abs h).
Proof. intros M. unfold abs. by rewrite (mv_thread _ _ _ _ _ M), fmap_insert. Qed.

Lemma abs_lookup h t th : h_thread h !! t = Some th -> abs h !! t = Some (t_state th, t_cpu th).
Proof. intros E. unfold abs. by rewrite lookup_fmap, E. Qed.

Lemma abs_same t th h : h_thread h !! t = Some th -> <[t := (t_state th, t_cpu th)]> (abs h) = abs h.
Proof. intros E. apply insert_id. by apply abs_lookup. Qed.

(** Other models' channels are no concern of the invariant. *)
Lemma sys_inv_frame h h' : sys_inv h -> all_chans chan_good h' -> h_thread h' = h_thread h ->
  h_cpu h' = h_cpu h -> h_proc h' = h_proc h ->
  (forall o i, (exists t, o = OwnThread t) \/ (exists c, o = OwnCpu c) ->
     h_chan h' !! Addr o i = h_chan h !! Addr o i) -> sys_inv h'.
Proof.
  intros [Hg Ht Ho Hc] Hg' Et Ec Ep Hch. split; [done|..]; rewrite ?Et, ?Ec.
  - intros t th E. eapply thread_view_frame; [by apply Ht| |by rewrite Ec].
    intros i. apply Hch. left. by exists t.
  - done.
  - intros c cp E. destruct (Hc c cp E) as [? Hv]. split; [done|].
    eapply cpu_view_frame; [exact Hv|by rewrite Et|done|]. intros i. apply Hch. right. by exists c.
Qed.

Lemma run_op_good op a h h' : all_chans chan_good h -> run_op op a h = (Ok tt, h') ->
  all_chans chan_good h' /\ (forall b, b <> a -> h_chan h' !! b = h_chan h !! b) /\ world h' = world h.
Proof.
  intros Hg E. pose proof (run_op_world op a h) as W. rewrite E in W. simpl in W.
  destruct (run_op_Ok op a h h' E) as (c & Hc & [[-> _] | (c' & Hstep & Ha & Hb)]); [by split_and!|].
  split_and!; [|done..]. intros b cb Hcb. destruct (decide (b = a)) as [->|Hne].
  - rewrite Ha in Hcb. injection Hcb as <-. destruct (Hg a c Hc) as [Hw Hp].
    split; [by eapply chan_step_wf|]. by destruct Hstep.
  - rewrite Hb in Hcb by done. by apply (Hg b).
Qed.

Lemma run_op_inv op a h h' : sys_inv h -> (forall t, a_own a <> OwnThread t) -> (forall c, a_own a <> OwnCpu c) ->
  run_op op a h = (Ok tt, h') -> sys_inv h' /\ abs h' = abs h.
Proof.
  intros Hi H1 H2 E. destruct (run_op_good op a h h' (si_good _ Hi) E) as (Hg & Hf & W).
  injection W as Wt Wc Wp _ _ _. split; [|unfold abs; by rewrite Wt].
  apply (sys_inv_frame h); try done. intros o i Ho. apply Hf. intros <-. simpl in *. naive_solver.
Qed.

Lemma put_ovni_inv t o h : sys_inv h -> sys_inv (set_h_ovni <[t := o]> h).
Proof. intros Hi. apply (sys_inv_frame h); try done. apply Hi. Qed.

Lemma is_ch_true x c : is_ch x c = true -> x = ch c.
Proof. apply Z.eqb_eq. Qed.

(** ** Every handler keeps the invariant and makes its step *)

Section Handlers.
Variables (x : ctx) (h h' : heap).
Hypothesis Hinv : sys_inv h.

Let t := cx_thread x.

Lemma change_state_step v from to : (v, from, to) ∈ change_table ->
  (forall st, state_in from st = true -> dead_state st = false) -> dead_state to = false ->
  change_state from to t h = (Ok tt, h') -> sys_inv h' /\ sys_step t (abs h) (ch "H") v (abs h').
Proof.
  intros Hin Hf Hto E.
  destruct (h_thread h !! t) as [th|] eqn:Ht.
  - destruct (change_state_moves h t th Hinv Ht from to h' Hf Hto E) as (Hst & c & Hc & M).
    split; [by eapply moves_inv|]. rewrite (moves_abs _ _ _ _ _ M). simpl. rewrite Hc.
    eapply st_change; [done| |done]. rewrite (abs_lookup _ _ _ Ht). by rewrite Hc.
  - unfold change_state, load_thread, mbind, mget in E. by rewrite Ht in E.
Qed.

Lemma load_thread_Ok' (k : thread -> M heap unit) u : (let* th := load_thread u in k th) h = (Ok tt, h') ->
  exists th, h_thread h !! u = Some th /\ k th h = (Ok tt, h').
Proof. intros E. apply mbind_Ok in E as (th & ? & [? ->]%load_thread_Ok & E). eauto. Qed.

Lemma pure_Ok {A} (m : M heap A) (k : A -> M heap unit) : (forall a h1, m h = (Ok a, h1) -> h1 = h) ->
  mbind m k h = (Ok tt, h') -> exists a, m h = (Ok a, h) /\ k a h = (Ok tt, h').
Proof. intros Hp E. apply mbind_Ok in E as (a & h1 & E1 & E). pose proof (Hp _ _ E1) as ->. eauto. Qed.

Lemma payload_i32_pure (ev : emu_ev) k a (h0 h1 : heap) : payload_i32 ev k h0 = (Ok a, h1) -> h1 = h0.
Proof.
  unfold payload_i32, payload_u32. intros E. apply mbind_Ok in E as (? & ? & E & E'). minv E'.
  apply mbind_Ok in E as (? & ? & [_ ->]%deref_Ok & [_ ->]%deref_Ok). done.
Qed.

Lemma loom_get_cpu_pure l i a (h0 h1 : heap) : loom_get_cpu l i h0 = (Ok a, h1) -> h1 = h0.
Proof.
  unfold loom_get_cpu. intros E. apply mbind_Ok in E as (lo & ? & [_ ->]%load_loom_Ok & E).
  repeat case_match; try discriminate; try (by injection E). by apply deref_Ok in E as [_ ->].
Qed.

Lemma find_remote_pure tid a (h0 h1 : heap) : find_remote x tid h0 = (Ok a, h1) -> h1 = h0.
Proof.
  unfold find_remote. intros E. apply mbind_Ok in E as (pr & ? & [_ ->]%load_proc_Ok & E).
  case_match; [by injection E|]. unfold loom_find_thread in E.
  apply mbind_Ok in E as (lo & ? & [_ ->]%load_loom_Ok & E).
  induction (loom_procs lo) as [|[k p] ps IH]; simpl in E; [by injection E|].
  apply mbind_Ok in E as (pr' & ? & [_ ->]%load_proc_Ok & E).
  case_match; [by injection E|auto].
Qed.

Lemma pre_thread_step : pre_thread x h = (Ok tt, h') ->
  sys_inv h' /\ sys_step t (abs h) (ch "H") (ee_v (cx_ev x)) (abs h').
Proof.
  unfold pre_thread. intros E. fold t in E.
  destruct (is_ch _ "C") eqn:Hv; [apply is_ch_true in Hv; minv E; split; [done|by constructor]|].
  destruct (is_ch _ "x") eqn:Hx.
  { apply is_ch_true in Hx as ->. unfold pre_thread_execute in E.
    apply load_thread_Ok' in E as (th & Ht & E). do 2 (case_match; [discriminate|]).
    apply pure_Ok in E as (i & _ & E); [|intros ? ?; apply payload_i32_pure].
    apply pure_Ok in E as (o & _ & E); [|intros ? ?; apply loom_get_cpu_pure].
    apply mbind_Ok in E as (c & ? & [-> ->]%found_Ok & E).
    destruct (execute_moves h t th Hinv Ht c h' E) as [Hn M].
    split; [by eapply moves_inv|]. rewrite (moves_abs _ _ _ _ _ M). simpl.
    eapply st_execute; [by rewrite (abs_lookup _ _ _ Ht), Hn|]. by apply (si_thread _ Hinv t th Ht). }
  destruct (is_ch _ "e") eqn:He.
  { apply is_ch_true in He as ->. unfold pre_thread_end in E.
    apply load_thread_Ok' in E as (th & Ht & E).
    destruct (state_in _ _) eqn:Hst in E; [|discriminate]. simpl in E.
    destruct (t_cpu th) as [c|] eqn:Hc.
    - pose proof (end_moves h t th Hinv Ht c h' Hc E) as M.
      split; [by eapply moves_inv|]. rewrite (moves_abs _ _ _ _ _ M). simpl.
      eapply st_end; [by rewrite (abs_lookup _ _ _ Ht), Hc|done].
    - unfold thread_set_state in E. apply mbind_Ok in E as (? & ? & E & _).
      apply mbind_Ok in E as (th' & ? & [? ->]%load_thread_Ok & E). simplify_eq. by rewrite Hc in E. }
  destruct (is_ch _ "p") eqn:Hp; [apply is_ch_true in Hp as ->|destruct (is_ch _ "r") eqn:Hr;
    [apply is_ch_true in Hr as ->|destruct (is_ch _ "c") eqn:Hc; [apply is_ch_true in Hc as ->|
      destruct (is_ch _ "w") eqn:Hw; [apply is_ch_true in Hw as ->|discriminate]]]];
    (eapply change_state_step; [|..|exact E]; [unfold change_table; set_solver|by intros []|done]).
Qed.

Lemma pre_affinity_step : pre_affinity x h = (Ok tt, h') ->
  sys_inv h' /\ sys_step t (abs h) (ch "A") (ee_v (cx_ev x)) (abs h').
Proof.
  unfold pre_affinity. intros E. destruct (is_ch _ "s") eqn:Hs.
  - apply is_ch_true in Hs as ->. unfold pre_affinity_set in E. fold t in E.
    apply load_thread_Ok' in E as (th & Ht & E).
    apply mbind_Ok in E as (c & ? & [Hc ->]%found_Ok & E).
    destruct (t_is_active th) eqn:Hact; [|discriminate]. cbn [negb] in E. case_match; [discriminate|].
    assert (is_active_state (t_state th) = true) as Ha.
    { by rewrite <- (tv_active _ _ _ (si_thread _ Hinv t th Ht)). }
    apply pure_Ok in E as (i & _ & E); [|intros ? ?; apply payload_i32_pure].
    apply pure_Ok in E as (o & _ & E); [|intros ? ?; apply loom_get_cpu_pure].
    apply mbind_Ok in E as (c2 & ? & [-> ->]%found_Ok & E).
    destruct (Nat.eqb c c2).
    + minv E. split; [done|]. rewrite <- (abs_same t th h) at 2 by done. rewrite Hc.
      eapply st_migrate; [by rewrite (abs_lookup _ _ _ Ht), Hc|done].
    + pose proof (migrate_moves h t th Hinv Ht c c2 h' Hc E) as M.
      split; [by eapply moves_inv|]. rewrite (moves_abs _ _ _ _ _ M). simpl.
      eapply st_migrate; [by rewrite (abs_lookup _ _ _ Ht), Hc|done].
  - destruct (is_ch _ "r") eqn:Hr; [|discriminate]. apply is_ch_true in Hr as ->.
    unfold pre_affinity_remote in E. case_match; [discriminate|].
    apply pure_Ok in E as (i & _ & E); [|intros ? ?; apply payload_i32_pure].
    apply pure_Ok in E as (tid & _ & E); [|intros ? ?; apply payload_i32_pure].
    apply pure_Ok in E as (o & _ & E); [|intros ? ?; apply find_remote_pure].
    apply mbind_Ok in E as (u & ? & [-> ->]%found_Ok & E).
    apply load_thread_Ok' in E as (th & Ht & E).
    destruct (state_in [TH_ST_DEAD; TH_ST_UNKNOWN] (t_state th)) eqn:Hd; [discriminate|].
    apply mbind_Ok in E as (c & ? & [Hc ->]%found_Ok & E).
    apply pure_Ok in E as (o & _ & E); [|intros ? ?; apply loom_get_cpu_pure].
    apply mbind_Ok in E as (c2 & ? & [-> ->]%found_Ok & E).
    pose proof (migrate_moves h u th Hinv Ht c c2 h' Hc E) as M.
    split; [by eapply moves_inv|]. rewrite (moves_abs _ _ _ _ _ M). simpl.
    eapply st_remote; [by rewrite (abs_lookup _ _ _ Ht), Hc|done].
Qed.

(** The other categories leave threads and CPUs alone. *)
Lemma pre_flush_inv : pre_flush x h = (Ok tt, h') -> sys_inv h' /\ abs h' = abs h.
Proof.
  unfold pre_flush. intros E. apply mbind_Ok in E as (o & ? & E1 & E).
  unfold load_ovni in E1. apply mbind_Ok in E1 as (? & ? & [= -> ->] & [_ ->]%deref_Ok).
  case_match.
  - apply mbind_Ok in E as ([] & h1 & E1 & E). injection E as <-.
    destruct (run_op_inv (OpSet (value_int64 1)) (ovni_chan (cx_thread x) CH_FLUSH) _ _ Hinv ltac:(by intros ? [=]) ltac:(by intros ? [=]) E1) as [Hi Ha].
    split; [by apply put_ovni_inv|done].
  - case_match; [|discriminate]. by apply (run_op_inv (OpSet value_null) (ovni_chan (cx_thread x) CH_FLUSH) _ _ Hinv ltac:(by intros ? [=]) ltac:(by intros ? [=]) E).
Qed.

Lemma mark_event_inv : mark_event x h = (Ok tt, h') -> sys_inv h' /\ abs h' = abs h.
Proof.
  unfold mark_event. intros E. case_match; [discriminate|].
  apply mbind_Ok in E as (? & ? & [= <- <-] & E).
  apply pure_Ok in E as (v & _ & E).
  2: { unfold payload_i64. intros a h1 E1. apply mbind_Ok in E1 as (? & ? & [_ ->]%deref_Ok & E1).
       apply mbind_Ok in E1 as (? & ? & [_ ->]%deref_Ok & E1). by minv E1. }
  apply pure_Ok in E as (ty & _ & E); [|intros ? ?; apply payload_i32_pure].
  apply mbind_Ok in E as (mc & ? & [_ ->]%found_Ok & E). case_match; [discriminate|].
  set (a := mark_chan _ _) in E.
  case_match; [by apply (run_op_inv (OpPush (value_int64 v)) a _ _ Hinv ltac:(by intros ? [=]) ltac:(by intros ? [=]) E)|].
  case_match; [by apply (run_op_inv (OpPop (value_int64 v)) a _ _ Hinv ltac:(by intros ? [=]) ltac:(by intros ? [=]) E)|].
  case_match; [|discriminate]. by apply (run_op_inv (OpSet (value_int64 v)) a _ _ Hinv ltac:(by intros ? [=]) ltac:(by intros ? [=]) E).
Qed.

Lemma pre_burst_inv : pre_burst x h = (Ok tt, h') -> sys_inv h' /\ abs h' = abs h.
Proof.
  unfold pre_burst. intros E. apply mbind_Ok in E as (o & ? & E1 & E).
  unfold load_ovni in E1. apply mbind_Ok in E1 as (? & ? & [= -> ->] & [_ ->]%deref_Ok).
  case_match; [discriminate|]. injection E as <-. split; [by apply put_ovni_inv|done].
Qed.
End Handlers.

(** ** Properties *)

Lemma ovni_event_step x h h' : sys_inv h -> model_ovni_event x h = (Ok tt, h') ->
  sys_inv h' /\ sys_step (cx_thread x) (abs h) (ee_c (cx_ev x)) (ee_v (cx_ev x)) (abs h').
Proof.
  intros Hi E. unfold model_ovni_event in E. case_match; [discriminate|].
  apply load_thread_Ok' in E as (th & Ht & E). case_match; [discriminate|].
  assert (forall c, is_ch (ee_c (cx_ev x)) c = true -> c <> "H"%char -> c <> "A"%char ->
    sys_inv h' /\ abs h' = abs h ->
    sys_inv h' /\ sys_step (cx_thread x) (abs h) (ee_c (cx_ev x)) (ee_v (cx_ev x)) (abs h')) as Hnone.
  { intros c Hc%is_ch_true H1 H2 [? ->]. split; [done|]. rewrite Hc.
    assert (forall c', ch c = ch c' -> c = c') as Hinj.
    { unfold ch. intros c' Hcc%N2Z.inj. by apply (f_equal ascii_of_N) in Hcc; rewrite !ascii_N_embedding in Hcc. }
    apply st_none; [by intros ?%Hinj|by intros ?%Hinj]. }
  destruct (is_ch _ "H") eqn:HH; [apply is_ch_true in HH as ->; by apply pre_thread_step|].
  destruct (is_ch _ "A") eqn:HA; [apply is_ch_true in HA as ->; by apply pre_affinity_step|].
  destruct (is_ch _ "B") eqn:HB; [apply (Hnone "B"%char); [done..|by eapply pre_burst_inv]|].
  destruct (is_ch _ "C") eqn:HC.
  { apply (Hnone "C"%char); [done..|]. unfold pre_cpu in E. case_match; [by minv E|discriminate]. }
  destruct (is_ch _ "F") eqn:HF; [apply (Hnone "F"%char); [done..|by eapply pre_flush_inv]|].
  destruct (is_ch _ "U") eqn:HU; [apply (Hnone "U"%char); [done..|by minv E]|].
  destruct (is_ch _ "M") eqn:HM; [apply (Hnone "M"%char); [done..|by eapply mark_event_inv]|discriminate].
Qed.

(** C13. Refinement of the abstract machine: in a consistent system, an event of
    the ovni model that succeeds leaves a consistent system (each CPU's list is
    exactly the threads that are on it, its counters, its running and active
    thread, and every channel of threads and CPUs agree with the states) and
    makes the step of the abstract machine its code stands for: execution from
    a dead state onto a CPU, end, pause, resume, cool, warm, migration of the
    thread itself or of another one, or no change of threads. *)
Theorem model_ovni_event_step x h h' : sys_inv h -> model_ovni_event x h = (Ok tt, h') ->
  sys_inv h' /\ sys_step (cx_thread x) (abs h) (ee_c (cx_ev x)) (ee_v (cx_ev x)) (abs h').
Proof. apply ovni_event_step. Qed.

(** In a consistent system two threads that run on the same physical CPU are the
    same thread, and the channels of that CPU show it. *)
Lemma running_shown h c cp t th p : sys_inv h ->
  h_cpu h !! c = Some cp -> cpu_is_virtual cp = false ->
  h_thread h !! t = Some th -> t_cpu th = Some c -> t_state th = TH_ST_RUNNING ->
  h_proc h !! t_proc th = Some p ->
  (forall u uh, h_thread h !! u = Some uh -> t_cpu uh = Some c -> t_state uh = TH_ST_RUNNING -> u = t) /\
  shows h (cpu_chan c CPU_CHAN_TID) (value_int64 (t_tid th)) /\
  shows h (cpu_chan c CPU_CHAN_PID) (value_int64 (proc_pid p)) /\
  shows h (cpu_chan c CPU_CHAN_THRUN) (value_int64 (t_gindex th)) /\
  shows h (cpu_chan c CPU_CHAN_NRUN) (value_int64 1).
Proof.
  intros Hi Hc Hv Ht Htc Hst Hp. destruct (si_cpu _ Hi c cp Hc) as [[_ _ Hl] [Hf H1 Hs]].
  assert (forall u uh, h_thread h !! u = Some uh -> t_cpu uh = Some c -> t_state uh = TH_ST_RUNNING ->
    In u (runs (h_thread h) (cpu_threads cp))) as Hin.
  { intros u uh Hu Huc Hus. apply List.filter_In. split; [apply list_elem_of_In, Hl; eauto|].
    unfold in_state_of. by rewrite Hu, Hus. }
  specialize (H1 Hv). pose proof (Hin t th Ht Htc Hst) as Hint.
  destruct (runs (h_thread h) (cpu_threads cp)) as [|r [|]] eqn:Hr; simpl in H1, Hint; [done| |lia].
  destruct Hint as [->|[]]. split.
  { intros u uh Hu Huc Hus. by destruct (Hin u uh Hu Huc Hus) as [->|[]]. }
  assert (cpu_th_running cp = Some t) as Hrun by by rewrite <- Hf; simpl; rewrite Hr.
  assert (cpu_nth_running cp = 1) as Hn by by rewrite <- Hf; simpl; rewrite Hr.
  destruct Hs as [[S1 S2 S3 S4 S5]|[Hnil _]]; [|by rewrite Hnil in Hr].
  rewrite Hrun in S2, S3, S4. unfold of_thread, pid_value in *. simpl in *. rewrite Ht in *. rewrite Hp in S3.
  rewrite Hn in S1. by split_and!.
Qed.

(** The states in which each thread event is accepted. *)
Definition accepts (v : Z) : option (list thread_state) :=
  if is_ch v "x" then Some [TH_ST_UNKNOWN; TH_ST_PAUSED; TH_ST_DEAD; TH_ST_COOLING; TH_ST_WARMING] else
  if is_ch v "e" then Some [TH_ST_RUNNING; TH_ST_COOLING] else
  if is_ch v "p" then Some [TH_ST_RUNNING; TH_ST_COOLING] else
  if is_ch v "r" then Some [TH_ST_PAUSED; TH_ST_WARMING] else
  if is_ch v "c" then Some [TH_ST_RUNNING] else
  if is_ch v "w" then Some [TH_ST_PAUSED] else None.

(** C21. Events out of order are rejected before anything changes: a thread
    event whose code is unknown, or that arrives in a state that does not
    accept it, fails and leaves the memory as it was. *)
Theorem pre_thread_rejects x h th : h_thread h !! cx_thread x = Some th -> ee_v (cx_ev x) <> ch "C" ->
  match accepts (ee_v (cx_ev x)) with
  | Some l => state_in l (t_state th) = false -> pre_thread x h = (Err, h)
  | None => pre_thread x h = (Err, h)
  end.
Proof.
  intros Ht HC. unfold pre_thread, accepts.
  assert (is_ch (ee_v (cx_ev x)) "C" = false) as -> by by apply Z.eqb_neq.
  assert (forall (k : thread -> M heap unit), (let* th := load_thread (cx_thread x) in k th) h = k th h) as Hl.
  { intros k. apply mbind_run. by apply load_thread_Ok. }
  destruct (is_ch _ "x").
  { unfold pre_thread_execute. rewrite Hl. intros Hs. destruct (t_state th); try done; by vm_compute in Hs. }
  unfold pre_thread_end, pre_thread_pause, pre_thread_resume, pre_thread_cool, pre_thread_warm, change_state.
  repeat match goal with |- context [is_ch ?v ?c] => destruct (is_ch v c) end;
    try done; rewrite Hl; intros Hs; by rewrite Hs.
Qed.

Lemma migrate_same_cpu_fails h u uh c cp :
  sys_inv h -> h_thread h !! u = Some uh -> t_cpu uh = Some c -> h_cpu h !! c = Some cp ->
  (forall cc, h_chan h !! th_chan u TH_CHAN_CPU = Some cc ->
     c_is_dirty cc = false /\ c_allow_dup cc = 0 /\ c_ignore_dup cc = 0 /\ c_type cc = CHAN_SINGLE) ->
  forall h', (cpu_migrate_thread c u c ;;; thread_migrate_cpu u c) h <> (Ok tt, h').
Proof.
  intros Hi Hu Huc Hc Hcc h' E. unfold cpu_migrate_thread in E.
  apply mbind_Ok in E as ([] & h2 & E1 & E). apply mbind_Ok in E1 as ([] & h1 & E1 & E2).
  apply cpu_remove_thread_Ok in E1 as (cp1 & Hcp1 & Hin & U1 & V1); [|apply Hi].
  apply cpu_add_thread_Ok in E2 as (cp2 & Hcp2 & Hnot & U2 & V2); [|apply U1].
  destruct (tv_cpu _ _ _ (si_thread _ Hi u uh Hu)) as (cc & Hch & Hread).
  destruct (Hcc cc Hch) as (D1 & D2 & D3 & D4).
  assert (h_chan h2 !! th_chan u TH_CHAN_CPU = Some cc) as Hch2.
  { by rewrite (u_chan _ _ _ _ _ U2), (u_chan _ _ _ _ _ U1) by (by intros [=]). }
  unfold thread_migrate_cpu in E.
  apply mbind_Ok in E as (th' & ? & [Ht' ->]%load_thread_Ok & E). case_match; [|discriminate].
  apply mbind_Ok in E as ([] & h3 & E3 & E). injection E3 as <-.
  apply mbind_Ok in E as (cp3 & ? & [Hcp3 ->]%load_cpu_Ok & E). simpl in Hcp3.
  assert (cpu_gindex cp3 = cpu_gindex cp) as Hg.
  { rewrite (u_cpu _ _ _ _ _ U2), lookup_insert_eq in Hcp3. injection Hcp3 as <-. simpl.
    rewrite (u_cpu _ _ _ _ _ U1), lookup_insert_eq in Hcp2. injection Hcp2 as <-. simpl. congruence. }
  unfold chan_set in E. apply mbind_Ok in E as (cc' & ? & [Hcc' ->]%load_Ok & E).
  change (h_chan h2 !! th_chan u TH_CHAN_CPU = Some cc') in Hcc'. simplify_eq.
  rewrite D1, D4 in E. simpl in E.
  assert (c_last_value cc' = chan_read cc') as Hl by (by apply (si_good _ Hi _ _ Hch)).
  unfold dup_check in E. rewrite D2, D3, Hl, Hread, Huc, Hg in E. unfold cpu_value in E; simpl in E. rewrite Hc in E.
  by rewrite value_is_equal_refl in E.
Qed.

(** [pre_affinity_remote] does not return early when the thread already is on
    the CPU, as [pre_affinity_set] does: in a consistent system whose CPU channel
    of that thread was flushed, such an event never succeeds. *)
Theorem affinity_remote_same_cpu_fails x h u uh c cp :
  sys_inv h -> h_thread h !! u = Some uh -> t_cpu uh = Some c -> h_cpu h !! c = Some cp ->
  (forall cc, h_chan h !! th_chan u TH_CHAN_CPU = Some cc ->
     c_is_dirty cc = false /\ c_allow_dup cc = 0 /\ c_ignore_dup cc = 0 /\ c_type cc = CHAN_SINGLE) ->
  (let* tid := payload_i32 (cx_ev x) 1 in find_remote x tid) h = (Ok (Some u), h) ->
  (let* index := payload_i32 (cx_ev x) 0 in loom_get_cpu (cx_loom x) index) h = (Ok (Some c), h) ->
  forall h', pre_affinity_remote x h <> (Ok tt, h').
Proof.
  intros Hi Hu Huc Hc Hcc Ftid Fcpu h' E. unfold pre_affinity_remote in E. case_match; [discriminate|].
  apply pure_Ok in E as (i & Ei & E); [|intros ? ?; apply payload_i32_pure].
  apply pure_Ok in E as (tid & Et & E); [|intros ? ?; apply payload_i32_pure].
  rewrite (mbind_run _ _ _ _ _ Et) in Ftid. rewrite (mbind_run _ _ _ _ _ Ftid) in E. simpl in E.
  apply mbind_Ok in E as (u' & ? & [= <- <-] & E).
  apply load_thread_Ok' in E as (uh' & Hu' & E). simplify_eq. case_match; [discriminate|].
  rewrite Huc in E. apply mbind_Ok in E as (c' & ? & [= <- <-] & E).
  rewrite (mbind_run _ _ _ _ _ Ei) in Fcpu. rewrite (mbind_run _ _ _ _ _ Fcpu) in E.
  apply mbind_Ok in E as (c' & ? & [= <- <-] & E).
  by apply (migrate_same_cpu_fails h u uh c cp Hi Hu Huc Hc Hcc h').
Qed.
