(* ===== verification/Coherence.v ===== *)
(** * Propagation keeps the system consistent

    The callbacks the patch bay runs write the outputs of muxes and sorters and
    the Paraver streams.  None of those is a channel of a thread or a CPU, so
    the agreement between threads, CPUs and their channels survives a
    propagation, which ends with every channel flushed. *)

From S2P Require Import Prelude Chan Heap Bay Mux Sort Prv Dispatch Thread OvniModel OvniCorrect.

(** A channel that does not belong to a thread or a CPU. *)
Definition outside (a : addr) : Prop :=
  (forall t, a_own a <> OwnThread t) /\ (forall c, a_own a <> OwnCpu c).

(** The outputs of every mux are apart from the system's channels. *)
Definition apart (h : heap) : Prop := forall m mx, h_mux h !! m = Some mx ->
  outside (m_output mx) /\ forall inp o, inp ∈ m_inputs mx -> mi_output inp = Some o -> outside o.

Definition coherent (h : heap) : Prop := sys_inv h /\ apart h.

(** Coherent, with the threads [X]: propagation changes no thread. *)
Definition coherent_at (X : gmap nat thread) (h : heap) : Prop := coherent h /\ h_thread h = X.

Ltac quiet_step := solve [apply keeps_ok_quiet; quiet_tac].
Ltac co_bind := lazymatch goal with |- keeps_ok _ (mbind _ _) => apply keeps_ok_bind; [|intros ?] end.

Lemma quiet_load a : quiet (load a : M heap chan).
Proof. unfold load. quiet_tac. Qed.
Lemma quiet_load_mux m : quiet (load_mux m).
Proof. unfold load_mux. quiet_tac. Qed.
Lemma quiet_load_sort s : quiet (load_sort s).
Proof. unfold load_sort. quiet_tac. Qed.
#[export] Hint Resolve quiet_load quiet_load_mux quiet_load_sort : ovni.

Lemma quiet_read_input mx i : quiet (read_input mx i).
Proof. unfold read_input. quiet_tac. Qed.
#[export] Hint Resolve quiet_read_input : ovni.

Lemma quiet_select_input mx v : quiet (select_input mx v).
Proof.
  unfold select_input, default_select, thread_select_active, thread_select_running, select_tr, select_idle, select_mux0.
  quiet_tac.
Qed.

(** *** What a propagation keeps

    A property that the callbacks, the flush of a channel and changes of the
    bay keep is kept by a whole propagation. *)

Section PropagateKeeps.
Context `{BayCallbacks}.
Variable P : heap -> Prop.
Hypothesis call_keeps : forall f a, keeps_ok P (cb_call f a).
Hypothesis flush_keeps : forall a, keeps_ok P (chan_flush a).
Hypothesis bay_keeps : forall f, keeps_ok P (mmod (set_h_bay f)).

Lemma foreach_cb_keeps_ok fuel name ty cur : keeps_ok P (foreach_cb fuel name ty cur).
Proof.
  revert cur. induction fuel as [|fuel IH]; intros [id|]; simpl; try quiet_step.
  do 3 (co_bind; [quiet_step|]). co_bind; [apply call_keeps|].
  do 2 (co_bind; [quiet_step|]). apply IH.
Qed.

Lemma foreach_dirty_keeps_ok fuel body i : (forall n, keeps_ok P (body n)) -> keeps_ok P (foreach_dirty fuel body i).
Proof.
  intros Hb. revert i. induction fuel as [|fuel IH]; intros i; simpl; (co_bind; [quiet_step|]);
    (case_match; [|quiet_step]); [quiet_step|]. co_bind; [apply Hb|apply IH].
Qed.

Lemma propagate_keeps_ok fuel : keeps_ok P (bay_propagate fuel).
Proof.
  unfold bay_propagate, propagate_chan, flush_bchan, put_bchan.
  repeat first [co_bind | apply foreach_dirty_keeps_ok; intros ? | apply bay_keeps | apply foreach_cb_keeps_ok
    | apply flush_keeps | quiet_step].
Qed.
End PropagateKeeps.

Section Coherence.
Variable X : gmap nat thread.

Lemma run_op_muxes op a h : h_mux (run_op op a h).2 = h_mux h.
Proof.
  destruct (run_op_shape op a h) as [(r & -> & _) | (c & c' & _ & _ & _ & _ & ->)]; [done|].
  assert (keeps (fun s => h_mux s = h_mux h) (store a c' ;;; set_dirty a)) as K; [|by apply K].
  unfold set_dirty, load, store; cbn; unfold cb_chan_is_dirty.
  repeat first [progress kbind | apply keeps_get | apply keeps_deref | apply keeps_ret | apply keeps_fail
    | by intros s <- | case_match].
Qed.

Lemma run_op_coherent op a : outside a -> keeps_ok (coherent_at X) (run_op op a).
Proof.
  intros [O1 O2] h [] h' [[Hs Ha] HX] E. split; [split; [by apply (run_op_inv op a h h')|]|].
  - pose proof (run_op_muxes op a h) as Hm. rewrite E in Hm. unfold apart. simpl in Hm. by rewrite Hm.
  - pose proof (run_op_world op a h) as W. rewrite E in W. injection W as W _ _ _ _ _. simpl in W. by rewrite W.
Qed.

Lemma chan_set_coherent a v : outside a -> keeps_ok (coherent_at X) (chan_set a v).
Proof. apply (run_op_coherent (OpSet v)). Qed.

(** Memory the invariant does not look at. *)
Lemma coherent_ext h h' : h_chan h' = h_chan h -> world h' = world h ->
  h_mux h' = h_mux h -> coherent_at X h -> coherent_at X h'.
Proof.
  intros Ec W Em [[Hs Ha] HX]. injection W as ? ? ? _ _ _. split; [split; [|unfold apart; by rewrite Em]|congruence].
  apply (sys_inv_frame h); try done; [|by rewrite Ec]. intros a c. simpl. rewrite Ec. apply Hs.
Qed.

Lemma coherent_mod f : (forall h, h_chan (f h) = h_chan h /\ world (f h) = world h /\ h_mux (f h) = h_mux h) ->
  keeps_ok (coherent_at X) (mmod f).
Proof. intros Hf. apply keeps_ok_mod. intros h. destruct (Hf h) as (? & ? & ?). by apply coherent_ext. Qed.

Lemma toggle_coherent id : keeps_ok (coherent_at X) (bay_enable_cb id) /\ keeps_ok (coherent_at X) (bay_disable_cb id).
Proof.
  unfold bay_enable_cb, bay_disable_cb.
  split; (co_bind; [quiet_step|]); (co_bind; [quiet_step|]);
    (apply keeps_ok_if; [quiet_step|]); (co_bind; [by apply coherent_mod|]);
    (co_bind; [quiet_step|]); (apply keeps_ok_if; [quiet_step|by apply coherent_mod]).
Qed.

(** Selecting and deselecting inputs keeps their outputs. *)
Lemma upd_mux_coherent m f : (forall mx, m_output (f mx) = m_output mx) ->
  (forall mx inp, inp ∈ m_inputs (f mx) -> exists inp0, inp0 ∈ m_inputs mx /\ mi_output inp0 = mi_output inp) ->
  keeps_ok (coherent_at X) (upd_mux m f).
Proof.
  intros Ho Hi. apply keeps_ok_mod. intros h [[Hs Ha] HX]. split; [split|done].
  - apply (sys_inv_frame h); try done. apply Hs.
  - intros m' mx'. simpl. destruct (decide (m' = m)) as [->|Hne]; [|rewrite lookup_alter_ne by done; apply Ha].
    rewrite lookup_alter_eq. destruct (h_mux h !! m) as [mx|] eqn:E; simpl; [|done]. intros [= <-].
    destruct (Ha m mx E) as [H1 H2]. split; [by rewrite Ho|].
    intros inp o Hin Hout. destruct (Hi mx inp Hin) as (inp0 & Hin0 & E0). eapply H2; [exact Hin0|]. by rewrite E0.
Qed.

Lemma select_index_outputs x i b mx inp : inp ∈ m_inputs (set_selected x (set_input i (input_select b) mx)) ->
  exists inp0, inp0 ∈ m_inputs mx /\ mi_output inp0 = mi_output inp.
Proof.
  unfold set_selected, set_input; simpl. intros (k & Hk)%list_elem_of_lookup.
  destruct (decide (k = Z.to_nat i)) as [->|Hne].
  - rewrite list_lookup_alter_eq in Hk. destruct (m_inputs mx !! Z.to_nat i) as [inp0|] eqn:E; simpl in Hk; [|done].
    injection Hk as <-. exists inp0. split; [by eapply list_elem_of_lookup_2|done].
  - rewrite list_lookup_alter_ne in Hk by done. exists inp. split; [by eapply list_elem_of_lookup_2|done].
Qed.

(** The loaded mux is known to be apart. *)
Lemma load_mux_then {B} m (k : mux -> M heap B) :
  (forall mx, outside (m_output mx) -> (forall inp o, inp ∈ m_inputs mx -> mi_output inp = Some o -> outside o) ->
     keeps_ok (coherent_at X) (k mx)) ->
  keeps_ok (coherent_at X) (let* mx := load_mux m in k mx).
Proof.
  intros Hk h b h' Hco E. apply mbind_Ok in E as (mx & h0 & E0 & E).
  unfold load_mux in E0. apply mbind_Ok in E0 as (? & ? & [= <- <-] & [Hmx ->]%deref_Ok).
  destruct (proj2 (proj1 Hco) m mx Hmx) as [H1 H2]. by eapply (Hk mx).
Qed.

Lemma cb_select_coherent m a : keeps_ok (coherent_at X) (cb_select m a).
Proof.
  unfold cb_select. apply load_mux_then. intros mx0 _ _.
  co_bind; [quiet_step|]. co_bind.
  { apply keeps_ok_if; [|quiet_step]. do 2 (co_bind; [quiet_step|]). co_bind; [apply toggle_coherent|].
    apply upd_mux_coherent; [done|]. intros mx inp. apply select_index_outputs. }
  apply load_mux_then. intros mx Ho Hi.
  co_bind; [apply keeps_ok_quiet, quiet_select_input|]. co_bind.
  { case_match; [|quiet_step]. do 2 (co_bind; [quiet_step|]). co_bind; [apply toggle_coherent|].
    apply upd_mux_coherent; [done|]. intros mx' inp. apply select_index_outputs. }
  co_bind; [case_match; quiet_step|]. by apply chan_set_coherent.
Qed.

Lemma cb_input_coherent m i a : keeps_ok (coherent_at X) (cb_input m i a).
Proof.
  unfold cb_input. apply load_mux_then. intros mx Ho Hi h [] h' Hco E.
  apply mbind_Ok in E as (inp & ? & [Hinp ->]%deref_Ok & E).
  apply mbind_Ok in E as (c & ? & E1 & E). rewrite (quiet_Ok _ _ _ _ (quiet_load a) E1) in E.
  apply mbind_Ok in E as (o & ? & [Hout ->]%deref_Ok & E).
  eapply chan_set_coherent; [|exact Hco|exact E]. eapply Hi; [|exact Hout]. by eapply mux_get_input_elem.
Qed.

Lemma write_outputs_coherent s l i : keeps_ok (coherent_at X) (write_outputs s l i).
Proof.
  revert i. induction l as [|x l IH]; intros i; simpl; [quiet_step|].
  co_bind; [quiet_step|]. co_bind; [|apply IH].
  apply keeps_ok_if; [quiet_step|]. apply chan_set_coherent. split; by intros ? [=].
Qed.

Lemma store_sort_coherent s x : keeps_ok (coherent_at X) (store_sort s x).
Proof. by apply coherent_mod. Qed.

Lemma on_sorted_coherent s m : keeps_ok (coherent_at X) (on_sorted s m).
Proof.
  unfold on_sorted. co_bind; [quiet_step|]. intros h [] h' Hco E.
  destruct (m (s_sorted a)) as [r arr]. injection E as _ <-. by apply (coherent_ext h).
Qed.

Lemma sort_cb_input_coherent s i a : keeps_ok (coherent_at X) (sort_cb_input s i a).
Proof.
  unfold sort_cb_input. co_bind; [quiet_step|]. co_bind; [quiet_step|]. co_bind; [quiet_step|].
  apply keeps_ok_if; [quiet_step|]. co_bind; [apply store_sort_coherent|].
  co_bind; [apply keeps_ok_if; [apply on_sorted_coherent|apply store_sort_coherent]|].
  co_bind; [quiet_step|]. apply write_outputs_coherent.
Qed.

Lemma cb_prv_world p id a h : world (cb_prv p id a h).2 = world h.
Proof.
  enough (keeps (fun s => world s = world h) (cb_prv p id a)) as K by by apply K.
  assert (forall f, keeps (fun s => world s = world h) (upd_prv p f)) as Hu by (intros f h' Hh; exact Hh).
  unfold cb_prv, emit, load_prv, load, emit_value. kbind; auto with ovni.
  apply keeps_if; [case_match|]; kbind; auto with ovni; repeat case_match; auto with ovni.
Qed.

Lemma cb_call_coherent f a : keeps_ok (coherent_at X) (cb_call f a).
Proof.
  destruct f; simpl; [apply cb_select_coherent|apply cb_input_coherent|apply sort_cb_input_coherent|].
  intros h [] h' Hco E. pose proof (cb_prv_only prv id a h) as (E1 & _ & _ & E4).
  pose proof (cb_prv_world prv id a h) as W. rewrite E in E1, E4, W. by apply (coherent_ext h).
Qed.

(** ** The phases of a propagation *)

Lemma chan_flush_coherent a : keeps_ok (coherent_at X) (chan_flush a).
Proof.
  intros h [] h' [[[Hg Ht Ho Hc] Ha] HX] E. apply chan_flush_Ok in E as (c & Hch & Hd & ->).
  set (h1 := cm_put a (with_dirty false (with_last (chan_read c) c)) h).
  assert (forall b v, shows h b v -> shows h1 b v) as Hs.
  { intros b v (c0 & Hc0 & Hv). destruct (decide (b = a)) as [->|Hne].
    - exists (with_dirty false (with_last (chan_read c) c)). simpl. rewrite lookup_insert_eq. split; [done|].
      cbn in Hch. rewrite Hc0 in Hch. by injection Hch as <-.
    - exists c0. simpl. by rewrite lookup_insert_ne. }
  split; [split; [|exact Ha]|exact HX]. split; [|..].
  - intros b cb. simpl. destruct (decide (b = a)) as [->|Hne]; [|rewrite lookup_insert_ne by done; apply Hg].
    rewrite lookup_insert_eq. intros [= <-]. destruct (Hg a c Hch) as [[Hl _] Hp]. by split; [split|].
  - intros t th E. destruct (Ht t th E). split; auto.
  - exact Ho.
  - intros c0 cp E. destruct (Hc c0 cp E) as [Hl [V1 V2 V3]]. split; [exact Hl|]. split; [exact V1|exact V2|].
    destruct V3 as [[]|[? ?]]; [left; split; auto|right; auto].
Qed.

Lemma bay_propagate_coherent fuel : keeps_ok (coherent_at X) (bay_propagate fuel).
Proof.
  apply propagate_keeps_ok; [apply cb_call_coherent|apply chan_flush_coherent|]. intros f. by apply coherent_mod.
Qed.
End Coherence.
