(* ===== verification/Model.v ===== *)
(** * The table of models (src/emu/model.c, include/version.h)

    Each execution model registers a specification with its hooks; a model is
    enabled when some thread requires a compatible version of it, and the
    events of a stream go to the model of their first character.  The hooks are
    functions of the models: here they are fields of the specification, so that
    the theorems hold for any set of models. *)

From Stdlib Require Import Ascii.
From S2P Require Import Prelude Chan Heap Event Cstr EvSpec.

(** ** Versions (version.h) *)

(** One number of the version, and the rest of the string. *)
Definition version_number (delim s : string) : option (Z * string) :=
  tok ← strtok delim s;
  v ← strtol tok.1;
  let v := i32 v in
  if v <? 0 then None else Some (v, tok.2).

Definition version_parse (version : option string) : option (Z * Z * Z) :=
  s ← version;
  if 64 <=? Z.of_nat (String.length s) then None else
  major ← version_number "." s;
  minor ← version_number "." major.2;
  patch ← version_number ".-" minor.2;
  Some (major.1, minor.1, patch.1).

Definition version_is_compatible (want have : Z * Z * Z) : bool :=
  if negb (want.1.1 =? have.1.1) then false else negb (have.1.2 <? want.1.2).

(** ** Models (model.h) *)

(** [S]: the state of the whole emulator, which the hooks that set up the model
    and finish it work on; events only work on its memory. *)
Record model_spec (S : Type) := mk_model_spec {
  ms_name : option string;
  ms_version : option string;
  ms_model : Z;
  ms_evlist : option (list ev_decl);          (* up to its NULL signature *)
  ms_evspec : option model_evspec;
  ms_probe : option (M S Z);
  ms_create : option (M S unit);
  ms_connect : option (M S unit);
  ms_event : option (ctx -> M heap unit);
  ms_finish : option (M S unit)
}.

Arguments mk_model_spec {S}.
Arguments ms_name {S}.
Arguments ms_version {S}.
Arguments ms_model {S}.
Arguments ms_evlist {S}.
Arguments ms_evspec {S}.
Arguments ms_probe {S}.
Arguments ms_create {S}.
Arguments ms_connect {S}.
Arguments ms_event {S}.
Arguments ms_finish {S}.

Definition MAX_MODELS : Z := 256.

Record model (S : Type) := mk_model { md_spec : gmap Z (model_spec S); md_registered : gset Z; md_enabled : gset Z }.
Arguments mk_model {S}.
Arguments md_spec {S}.
Arguments md_registered {S}.
Arguments md_enabled {S}.

Section Hooks.
Context {S : Type}.
Implicit Types md : model S.

Definition model_init : model S := mk_model ∅ ∅ ∅.

(** [spec->evspec = es]. *)
Definition with_evspec (spec : model_spec S) (es : model_evspec) : model_spec S :=
  mk_model_spec (ms_name spec) (ms_version spec) (ms_model spec) (ms_evlist spec) (Some es)
    (ms_probe spec) (ms_create spec) (ms_connect spec) (ms_event spec) (ms_finish spec).

Definition model_register (md : model S) (spec : model_spec S) : option (model S) :=
  let i := ms_model spec in
  _ ← ms_name spec;
  if bool_decide (i ∈ md_registered md) then None else
  _ ← ms_version spec;
  evlist ← ms_evlist spec;
  if bool_decide (is_Some (ms_evspec spec)) then None else
  match model_evspec_init i evlist with
  | Ok es => Some (mk_model (<[i := with_evspec spec es]> (md_spec md)) ({[i]} ∪ md_registered md) (md_enabled md))
  | _ => None
  end.

(** The indices of the loops over the models. *)
Definition model_range : list Z := seqZ 0 MAX_MODELS.

Fixpoint probe_loop (all : bool) (l : list Z) (md : model S) : M S (model S) :=
  match l with
  | [] => mret md
  | i :: l' =>
      if bool_decide (i ∉ md_registered md) then probe_loop all l' md else
      let* spec := deref (md_spec md !! i) in
      match ms_probe spec with
      | None => probe_loop all l' md
      | Some probe =>
          let* ret := probe in
          if ret <? 0 then mfail else
          let md' := if (0 <? ret) || all
            then mk_model (md_spec md) (md_registered md) ({[i]} ∪ md_enabled md) else md in
          probe_loop all l' md'
      end
  end.
Definition model_probe (all : bool) : model S -> M S (model S) := probe_loop all model_range.

(** [model_create] and [model_connect]: the hook of every enabled model. *)
Fixpoint hook_loop (hook : model_spec S -> option (M S unit)) (md : model S) (l : list Z) : M S unit :=
  match l with
  | [] => mret tt
  | i :: l' =>
      if bool_decide (i ∉ md_enabled md) then hook_loop hook md l' else
      let* spec := deref (md_spec md !! i) in
      match hook spec with
      | None => hook_loop hook md l'
      | Some m => m ;;; hook_loop hook md l'
      end
  end.
Definition model_create (md : model S) : M S unit := hook_loop ms_create md model_range.
Definition model_connect (md : model S) : M S unit := hook_loop ms_connect md model_range.

Definition model_event (md : model S) (x : ctx) (index : Z) : M heap unit :=
  if bool_decide (index ∉ md_registered md) then mfail else
  if bool_decide (index ∉ md_enabled md) then mfail else
  let* spec := deref (md_spec md !! index) in
  match ms_event spec with None => mret tt | Some event => event x end.

(** The string in [ev->mcv]. *)
Definition ev_mcv (ev : emu_ev) : string := default EmptyString (c_string [ee_m ev; ee_c ev; ee_v ev; 0]).

Definition model_event_print (md : model S) (ev : emu_ev) (buflen : Z) : outcome string :=
  if bool_decide (ee_m ev ∉ md_registered md) then Err else
  match md_spec md !! ee_m ev ≫= ms_evspec with
  | None => Ub
  | Some evspec =>
      match model_evspec_find evspec (ev_mcv ev) with
      | None => Err
      | Some es => ev_spec_print es (ee_payload ev) buflen
      end
  end.

(** [model_finish]: an error of a hook is remembered and the rest still run. *)
Fixpoint finish_loop (md : model S) (l : list Z) (ok : bool) : M S unit := fun h =>
  match l with
  | [] => (if ok then Ok tt else Err, h)
  | i :: l' =>
      if bool_decide (i ∉ md_enabled md) then finish_loop md l' ok h else
      match md_spec md !! i with
      | None => (Ub, h)
      | Some spec =>
          match ms_finish spec with
          | None => finish_loop md l' ok h
          | Some m =>
              match m h with
              | (Ok _, h') => finish_loop md l' ok h'
              | (Err, h') => finish_loop md l' false h'
              | r => r
              end
          end
      end
  end.
Definition model_finish (md : model S) : M S unit := finish_loop md model_range true.
End Hooks.

(** *** Enabling a model

    [require]: what the thread's metadata holds under [ovni.require], as an
    association of model names with versions; [None] without that key. *)
Definition should_enable (have : Z * Z * Z) (name : string) (require : option (list (string * string))) : option bool :=
  req ← require;
  match assoc name req with
  | None => Some false
  | Some version =>
      want ← version_parse (Some version);
      if version_is_compatible want have then Some true else None
  end.

Fixpoint probe_threads (have : Z * Z * Z) (name : string) (ths : list (option (list (string * string))))
    (enable : bool) : option bool :=
  match ths with
  | [] => Some enable
  | t :: ths' =>
      r ← should_enable have name t;
      probe_threads have name ths' (enable || r)
  end.

(** [model_version_probe] over the threads of the system. *)
Definition model_version_probe (name version : string) (ths : list (option (list (string * string)))) : outcome Z :=
  match version_parse (Some version) with
  | None => Err
  | Some have =>
      if 128 <=? Z.of_nat (String.length name) + 8 then Die else
      match probe_threads have name ths false with
      | None => Err
      | Some enable => Ok (if enable then 1 else 0)
      end
  end.
