(* ===== verification/Emu.v ===== *)
(** * One step of the emulator (src/emu/emu.c, src/emu/recorder.c)

    After the player delivers an event, the emulator moves the clock of the
    Paraver streams, hands the event to its model and propagates the changes of
    the channels.  Whatever models are registered, as long as each keeps the
    system coherent, a run of the emulator keeps it coherent, and threads and
    CPUs follow the abstract machine of OvniCorrect.v. *)

From Stdlib Require Import Ascii.
From S2P Require Import Prelude Chan Heap Bay Mux Sort Prv Dispatch Thread Loom Event OvniModel OvniCorrect.
From S2P Require Import Coherence Model.

(** [recorder_advance]: the Paraver streams of the recorder, in order. *)
Definition recorder_advance (prvs : list nat) (time : Z) : M heap unit :=
  for_each (fun p => prv_advance p time) prvs.

(** [emu_step] from the event the player delivered on, on the memory of the
    system: the connection that the model of the FPGA makes on its first event
    is in Setups. *)
Definition emu_process {S} (md : model S) (prvs : list nat) (fuel : nat) (x : ctx) : M heap unit :=
  recorder_advance prvs (ee_dclock (cx_ev x)) ;;;
  model_event md x (ee_m (cx_ev x)) ;;;
  bay_propagate fuel.

(** ** What the emulator asks of a model *)

(** The abstract machine moves as the event says, or stays. *)
Definition may_step (x : ctx) (s s' : sys) : Prop :=
  s' = s \/ sys_step (cx_thread x) s (ee_c (cx_ev x)) (ee_v (cx_ev x)) s'.

Class EventHook (event : ctx -> M heap unit) : Prop := {
  eh_step : forall x h h', coherent h -> event x h = (Ok tt, h') -> coherent h' /\ may_step x (abs h) (abs h')
}.

Class GoodModels {S} (md : model S) : Prop := {
  gm_event : forall i spec event, md_spec md !! i = Some spec -> ms_event spec = Some event -> EventHook event
}.

(** *** The ovni model is one *)

Definition muxes_are (X : gmap nat mux) (h : heap) : Prop := h_mux h = X.

Section Muxes.
Variable X : gmap nat mux.

Lemma run_op_muxes_are op a : keeps (muxes_are X) (run_op op a).
Proof. intros h Hh. unfold muxes_are. by rewrite run_op_muxes. Qed.
Lemma chan_set_muxes_are a v : keeps (muxes_are X) (chan_set a v).
Proof. apply (run_op_muxes_are (OpSet v)). Qed.
Lemma mod_muxes_are f : (forall h, h_mux (f h) = h_mux h) -> keeps (muxes_are X) (mmod f).
Proof. intros Hf h Hh. unfold muxes_are, mmod. simpl. by rewrite Hf. Qed.

Lemma keeps_quiet {A} (m : M heap A) : quiet m -> keeps (muxes_are X) m.
Proof. intros Hq h Hh. by rewrite Hq. Qed.
End Muxes.

Ltac mux_tac :=
  repeat first
    [ progress kbind
    | apply keeps_get | apply keeps_deref | apply keeps_found | apply keeps_ret | apply keeps_fail
    | apply keeps_die | apply keeps_ub | apply chan_set_muxes_are
    | apply (run_op_muxes_are _ (OpPush _)) | apply (run_op_muxes_are _ (OpPop _))
    | solve [apply mod_muxes_are; done]
    | lazymatch goal with |- keeps _ (match _ with _ => _ end) => case_match end
    | lazymatch goal with |- keeps _ (if _ then _ else _) => case_match end ].

(** The event hook of the ovni model with its handlers unfolded. *)
Ltac open_handlers := unfold model_ovni_event, pre_thread, pre_thread_execute, pre_thread_end, pre_thread_pause,
  pre_thread_resume, pre_thread_cool, pre_thread_warm, change_state, update_cpu_of, pre_affinity, pre_affinity_set,
  pre_affinity_remote, find_remote, loom_find_thread, loom_get_cpu, cpu_migrate_thread, cpu_add_thread,
  cpu_remove_thread, thread_set_cpu, thread_set_state, thread_unset_cpu, thread_migrate_cpu, pre_burst, pre_cpu,
  pre_flush, mark_event, load_ovni, put_ovni, load_loom, load_cpu, load_proc, payload_i32, payload_i64, payload_u32.
Ltac open_ovni := open_handlers; unfold put_thread, load_thread, upd_cpu.

Lemma count_threads_quiet l ta : quiet (count_threads l ta).
Proof. revert ta. induction l as [|t l IH]; intros ta; simpl; [done|]. unfold load_thread. quiet_tac. Qed.

Lemma cpu_update_muxes X c : keeps (muxes_are X) (cpu_update c).
Proof.
  unfold cpu_update, load_cpu, load_thread, load_proc, upd_cpu.
  repeat first [progress mux_tac | apply keeps_quiet, count_threads_quiet].
Qed.

Lemma ovni_event_muxes X x : keeps (muxes_are X) (model_ovni_event x).
Proof.
  assert (forall l tid, quiet (find_in_procs l tid)) as Hq.
  { intros l tid. induction l as [|[k p] l IH]; simpl; [done|]. unfold load_proc. quiet_tac. }
  open_ovni.
  repeat first [progress mux_tac | apply cpu_update_muxes | apply keeps_quiet, Hq].
Qed.

#[export] Instance ovni_hook : EventHook model_ovni_event.
Proof.
  split. intros x h h' [Hs Ha] E. destruct (ovni_event_step x h h' Hs E) as [Hs' Hstep].
  split; [split; [done|]|by right]. pose proof (ovni_event_muxes (h_mux h) x h eq_refl) as Hm.
  rewrite E in Hm. unfold muxes_are in Hm. simpl in Hm. unfold apart. by rewrite Hm.
Qed.

(** ** Runs of the emulator *)

(** The abstract runs for a sequence of events. *)
Inductive sys_run : list ctx -> sys -> sys -> Prop :=
| run_nil s : sys_run [] s s
| run_cons x xs s s1 s2 : may_step x s s1 -> sys_run xs s1 s2 -> sys_run (x :: xs) s s2.

Lemma coherent_at_self h : coherent h -> coherent_at (h_thread h) h.
Proof. by split. Qed.

Lemma recorder_advance_coherent X prvs t : keeps_ok (coherent_at X) (recorder_advance prvs t).
Proof.
  unfold recorder_advance. induction prvs as [|p prvs IH]; simpl; [quiet_step|].
  co_bind; [|exact IH]. unfold prv_advance, load_prv. co_bind; [quiet_step|].
  apply keeps_ok_if; [quiet_step|by apply coherent_mod].
Qed.

Lemma emu_process_step {S} (md : model S) prvs fuel x h h' : GoodModels md -> coherent h ->
  emu_process md prvs fuel x h = (Ok tt, h') -> coherent h' /\ may_step x (abs h) (abs h').
Proof.
  intros HM Hco E. unfold emu_process in E. apply mbind_Ok in E as ([] & h1 & E1 & E).
  apply recorder_advance_coherent with (X := h_thread h) in E1 as [H1 T1]; [|by apply coherent_at_self].
  apply mbind_Ok in E as ([] & h2 & E2 & E).
  assert (coherent h2 /\ may_step x (abs h1) (abs h2)) as [H2 S2].
  { unfold model_event in E2. do 2 (case_match; [discriminate|]).
    apply mbind_Ok in E2 as (spec & ? & [Hspec ->]%deref_Ok & E2).
    destruct (ms_event spec) as [event|] eqn:Hev; [|injection E2 as <-; by split; [|left]].
    destruct (gm_event _ _ _ Hspec Hev) as [Hh]. by apply (Hh x h1 h2). }
  apply bay_propagate_coherent with (X := h_thread h2) in E as [H3 T3]; [|by apply coherent_at_self].
  split; [done|]. unfold abs in *. rewrite T3. by rewrite <- T1.
Qed.

Lemma emu_run_step {S} (md : model S) prvs fuel xs h h' : GoodModels md -> coherent h ->
  for_each (emu_process md prvs fuel) xs h = (Ok tt, h') -> coherent h' /\ sys_run xs (abs h) (abs h').
Proof.
  intros HM. revert h. induction xs as [|x xs IH]; intros h Hco E; simpl in E.
  - injection E as <-. split; [done|constructor].
  - apply mbind_Ok in E as ([] & h1 & E1 & E). apply emu_process_step in E1 as [H1 S1]; [|done..].
    destruct (IH h1 H1 E) as [H2 S2]. split; [done|]. by econstructor.
Qed.

(** ** Properties *)

(** Runs of the emulator, for any set of models that keep the system
    coherent: after any sequence of events that were processed with success
    (streams advanced, event handled, channels propagated), threads, CPUs and
    their channels agree, no output of a mux is one of those channels, and the
    threads moved along the abstract machine, one step at most per event. *)
Theorem emu_runs_coherent {S} (md : model S) prvs fuel xs h h' : GoodModels md -> coherent h ->
  for_each (emu_process md prvs fuel) xs h = (Ok tt, h') ->
  coherent h' /\ sys_run xs (abs h) (abs h').
Proof. apply emu_run_step. Qed.

(** What the row of a CPU shows at every point of a run: after any sequence
    of events processed with success from a coherent system, two threads that
    run on the same physical CPU are the same thread, and the channels of that
    CPU show its TID, the PID of its process, its index and the count one. *)
Theorem running_thread_shown {S} (md : model S) prvs fuel xs h0 h c cp t th p : GoodModels md -> coherent h0 ->
  for_each (emu_process md prvs fuel) xs h0 = (Ok tt, h) ->
  h_cpu h !! c = Some cp -> cpu_is_virtual cp = false ->
  h_thread h !! t = Some th -> t_cpu th = Some c -> t_state th = TH_ST_RUNNING ->
  h_proc h !! t_proc th = Some p ->
  (forall u uh, h_thread h !! u = Some uh -> t_cpu uh = Some c -> t_state uh = TH_ST_RUNNING -> u = t) /\
  shows h (cpu_chan c CPU_CHAN_TID) (value_int64 (t_tid th)) /\
  shows h (cpu_chan c CPU_CHAN_PID) (value_int64 (proc_pid p)) /\
  shows h (cpu_chan c CPU_CHAN_THRUN) (value_int64 (t_gindex th)) /\
  shows h (cpu_chan c CPU_CHAN_NRUN) (value_int64 1).
Proof.
  intros HM Hco E. destruct (emu_run_step md prvs fuel xs h0 h HM Hco E) as [[Hs _] _]. by apply running_shown.
Qed.
