(* ===== verification/OvniDemo.v ===== *)
(** * A concrete system for the ovni model

    A loom with two CPUs and a process of two threads, built with the
    operations of Loom.v and Thread.v: the theorems of OvniCorrect.v are
    applied to its first events. *)

From Stdlib Require Import Ascii.
From S2P Require Import Prelude Chan Heap Bay Mux Sort Prv Dispatch Thread Loom Event EvLists OvniModel OvniCorrect.
From S2P Require Import Coherence Model Emu.

Definition new_thread (tid gindex : Z) : thread :=
  set_t_has_meta true (set_t_gindex gindex (thread_init_begin tid)).

Definition demo_sys0 : heap :=
  bay_init (set_h_thread (fun _ => {[ 0%nat := new_thread 21 0; 1%nat := new_thread 22 1 ]})
    (set_h_ovni (fun _ => {[ 0%nat := mk_ovni_thread 0 [] 0; 1%nat := mk_ovni_thread 0 [] 0 ]})
      (set_h_proc (fun _ => {[ 0%nat := proc_init_begin 20 ]}) empty_heap))).

Definition demo_sys_build : M heap unit :=
  let* l := loom_init_begin "node.0" in
  loom_add_proc l 0 ;;;
  loom_load_metadata l (demo_md [Some (1, 4); Some (0, 7)]) ;;;
  proc_add_thread 0 0 ;;; proc_add_thread 0 1 ;;;
  upd_cpu 1 (set_cpu_gindex 0) ;;; upd_cpu 2 (set_cpu_gindex 1) ;;; upd_cpu 0 (set_cpu_gindex 2) ;;;
  loom_init_end l ;;;
  thread_init_end 0 ;;; thread_init_end 1 ;;;
  cpu_init_end 1 ;;; cpu_init_end 2 ;;; cpu_init_end 0 ;;;
  for_each (fun t => for_each (fun i => bay_register (th_chan t i)) [0; 1; 2]%nat) [0; 1]%nat ;;;
  for_each (fun c => for_each (fun i => bay_register (cpu_chan c i)) [0; 1; 2; 3; 4]%nat) [1; 2; 0]%nat.

Definition demo_sys : heap := Eval vm_compute in (demo_sys_build demo_sys0).2.

Lemma demo_sys_built : demo_sys_build demo_sys0 = (Ok tt, demo_sys).
Proof. vm_compute. reflexivity. Qed.

(** Checking a map entry by entry. *)
Lemma check_map {A} (P : nat -> A -> Prop) (m : gmap nat A) :
  Forall (fun p => P p.1 p.2) (map_to_list m) -> forall i x, m !! i = Some x -> P i x.
Proof.
  intros Hf i x E. rewrite list.Forall_forall in Hf. apply (Hf (i, x)). by apply elem_of_map_to_list.
Qed.

Definition chan_good_b (c : chan) : bool :=
  (Z.of_nat (length (c_stack c)) <=? MAX_CHAN_STACK) &&
  (c_is_dirty c || bool_decide (c_last_value c = chan_read c)) &&
  negb (c_true (c_dirty_write c) && c_true (c_ignore_dup c)).

Lemma chan_good_check h : forallb (fun p => chan_good_b p.2) (map_to_list (h_chan h)) = true ->
  all_chans chan_good h.
Proof.
  intros Hf a c Hc. rewrite forallb_forall in Hf. specialize (Hf (a, c)). simpl in Hf.
  assert (chan_good_b c = true) as Hb.
  { apply Hf, list_elem_of_In. by apply elem_of_map_to_list. }
  unfold chan_good_b in Hb. apply andb_prop in Hb as [[Hl Hr]%andb_prop Hd].
  split; [split|].
  - by apply Z.leb_le.
  - intros Hn. rewrite Hn in Hr. by apply bool_decide_eq_true in Hr.
  - intros [H1 H2]. by rewrite H1, H2 in Hd.
Qed.

Definition shows_b (h : heap) (a : addr) (v : value) : bool :=
  match h_chan h !! a with Some c => bool_decide (chan_read c = v) | None => false end.

Lemma shows_check h a v : shows_b h a v = true -> shows h a v.
Proof.
  unfold shows_b. destruct (h_chan h !! a) as [c|] eqn:E; [|done].
  intros Hb%bool_decide_eq_true. by exists c.
Qed.

Lemma demo_sys_inv : sys_inv demo_sys.
Proof.
  assert (map_to_list (h_thread demo_sys) = [(1%nat, set_t_is_init true (new_thread 22 1));
    (0%nat, set_t_is_init true (new_thread 21 0))]) as Eth by (vm_compute; reflexivity).
  split.
  - apply chan_good_check. by vm_compute.
  - apply check_map. rewrite Eth.
    assert (forall t tid g, (forall a v, In (a, v) [(th_chan t TH_CHAN_STATE, value_null);
        (th_chan t TH_CHAN_TID, value_null); (th_chan t TH_CHAN_CPU, value_null)] -> shows_b demo_sys a v = true) ->
      thread_view demo_sys t (set_t_is_init true (new_thread tid g))) as Hv.
    { intros t tid g Hs. split; [reflexivity|reflexivity|split; reflexivity|..]; apply shows_check, Hs; simpl; auto. }
    constructor; [apply (Hv 1%nat 22 1)|constructor; [apply (Hv 0%nat 21 0)|constructor]];
      intros a v Ha; cbn [In] in Ha; destruct Ha as [[= <- <-]|[[= <- <-]|[[= <- <-]|[]]]]; vm_compute; reflexivity.
  - intros t th c E Hcpu. exfalso. revert t th E Hcpu.
    apply (check_map (fun t th => t_cpu th = Some c -> False)). rewrite Eth. by repeat constructor.
  - apply check_map.
    assert (Forall (fun p => cpu_threads p.2 = [] /\ cpu_nthreads p.2 = 0 /\ cpu_nth_running p.2 = 0 /\
      cpu_nth_active p.2 = 0 /\ cpu_th_running p.2 = None /\ cpu_th_active p.2 = None /\
      forall i, (i < 5)%nat -> shows demo_sys (cpu_chan p.1 i) value_null) (map_to_list (h_cpu demo_sys))) as Hall.
    { match goal with |- Forall _ ?l => let l' := eval vm_compute in l in change l with l' end.
      repeat constructor; intros i Hi; do 5 (destruct i as [|i]; [apply shows_check; by vm_compute|]); lia. }
    eapply list.Forall_impl; [exact Hall|]. intros [c cp] (H1 & H2 & H3 & H4 & H5 & H6 & Hs). simpl in *. split.
    + split; rewrite H1; [constructor|done|]. intros t. split; [by intros ?%elem_of_nil|].
      intros (th & E & Hcpu). exfalso. revert t th E Hcpu.
      apply (check_map (fun t th => t_cpu th = Some c -> False)). rewrite Eth. by repeat constructor.
    + split; [|rewrite H1; simpl; lia|by right]. unfold refreshed. rewrite H1. simpl. destruct cp; simpl in *; by subst.
Qed.

(** ** The first events *)

Definition ovni_ev_of (c v : ascii) (payload : list Z) : emu_ev :=
  mk_emu_ev (ch "O") (ch c) (ch v) 0 0 0 true (Z.of_nat (length payload)) false (Some payload).
Definition demo_ctx (t : nat) (c v : ascii) (payload : list Z) : ctx := mk_ctx (ovni_ev_of c v payload) t 0 0.

(** Thread 0 starts on the CPU of index 0. *)
Definition demo_execute : ctx := demo_ctx 0 "H" "x" [0; 0; 0; 0].
Definition demo_running : heap := Eval vm_compute in (model_ovni_event demo_execute demo_sys).2.

Lemma model_ovni_event_step_witness :
  model_ovni_event demo_execute demo_sys = (Ok tt, demo_running) /\
  sys_inv demo_running /\ sys_step 0 (abs demo_sys) (ch "H") (ch "x") (abs demo_running).
Proof.
  assert (model_ovni_event demo_execute demo_sys = (Ok tt, demo_running)) as E by (vm_compute; reflexivity).
  split; [exact E|]. exact (model_ovni_event_step demo_execute demo_sys demo_running demo_sys_inv E).
Defined.

Lemma demo_running_inv : sys_inv demo_running.
Proof.
  assert (thread_set_cpu 0 2 demo_sys = (Ok tt, (thread_set_cpu 0 2 demo_sys).2)) as E0 by (vm_compute; reflexivity).
  assert (h_thread demo_sys !! 0%nat = Some (set_t_is_init true (new_thread 21 0))) as Ht by (vm_compute; reflexivity).
  eapply moves_inv; [exact demo_sys_inv|].
  apply (execute_moves demo_sys 0 _ demo_sys_inv Ht 2). vm_compute. reflexivity.
Qed.

Definition demo_cpu : cpu := default (cpu_init_begin 0 0 false) (h_cpu demo_running !! 2%nat).
Definition demo_thread : thread := default (new_thread 21 0) (h_thread demo_running !! 0%nat).
Definition demo_proc : proc := default (proc_init_begin 20) (h_proc demo_running !! 0%nat).

(** A thread that runs cannot be resumed. *)
Lemma pre_thread_rejects_witness :
  pre_thread (demo_ctx 0 "H" "r" []) demo_running = (Err, demo_running).
Proof.
  apply (pre_thread_rejects (demo_ctx 0 "H" "r" []) demo_running demo_thread);
    [vm_compute; reflexivity|vm_compute; discriminate|vm_compute; reflexivity].
Defined.

(** Between two events the channels are flushed. *)
Definition flush_all (h : heap) : heap :=
  set_h_chan (fmap (fun c => with_dirty false (with_last (chan_read c) c))) h.

Lemma flush_all_inv h : sys_inv h -> sys_inv (flush_all h).
Proof.
  intros [Hg Ht Ho Hc].
  assert (forall a v, shows h a v -> shows (flush_all h) a v) as Hs.
  { intros a v (c & Hch & Hv). exists (with_dirty false (with_last (chan_read c) c)). split; [|done].
    unfold flush_all; simpl. by rewrite lookup_fmap, Hch. }
  split.
  - intros a c Hch. change ((fun c => with_dirty false (with_last (chan_read c) c)) <$> h_chan h !! a = Some c) in Hch
      || (unfold flush_all in Hch; cbn in Hch; rewrite lookup_fmap in Hch).
    destruct (h_chan h !! a) as [c0|] eqn:E; simplify_eq/=. destruct (Hg a c0 E) as [[Hl _] Hd].
    split; [split|]; done.
  - intros t th E. destruct (Ht t th E). split; auto.
  - exact Ho.
  - intros c cp E. destruct (Hc c cp E) as [Hl [V1 V2 V3]]. split; [exact Hl|]. split; [exact V1|exact V2|].
    destruct V3 as [[]|[? ?]]; [left; split; auto|right; auto].
Qed.

Definition demo_flushed : heap := flush_all demo_running.

Lemma demo_flushed_inv : sys_inv demo_flushed.
Proof. exact (flush_all_inv _ demo_running_inv). Qed.

Definition demo_remote : ctx := demo_ctx 1 "A" "r" [0; 0; 0; 0; 21; 0; 0; 0].

Lemma affinity_remote_same_cpu_fails_witness :
  (pre_affinity_remote demo_remote demo_flushed).1 = Err /\
  forall h', pre_affinity_remote demo_remote demo_flushed <> (Ok tt, h').
Proof.
  split; [by vm_compute|].
  apply (affinity_remote_same_cpu_fails demo_remote demo_flushed 0 demo_thread 2 demo_cpu demo_flushed_inv);
    try (vm_compute; reflexivity).
  intros cc E. vm_compute in E. injection E as <-. split; [reflexivity|]. split; [reflexivity|]. split; reflexivity.
Defined.

(** ** Runs of the emulator with the ovni model alone *)

Definition ovni_spec : model_spec heap :=
  mk_model_spec (Some "ovni") (Some "1.1.0") (ch "O") (Some ovni_evlist) None None None None (Some model_ovni_event) None.
Definition demo_models : model heap := mk_model {[ ch "O" := ovni_spec ]} {[ ch "O" ]} {[ ch "O" ]}.

Lemma demo_models_good : GoodModels demo_models.
Proof.
  split. intros i spec event Hs He. simpl in Hs. apply lookup_singleton_Some in Hs as [_ <-].
  injection He as <-. apply ovni_hook.
Qed.

Lemma demo_coherent : coherent demo_sys.
Proof. split; [exact demo_sys_inv|]. intros m mx E. vm_compute in E. discriminate. Qed.

(** Thread 0 starts on CPU 0, thread 1 on CPU 1, then thread 0 pauses and
    thread 1 moves to CPU 0. *)
Definition demo_run : list ctx :=
  [demo_execute; demo_ctx 1 "H" "x" [1; 0; 0; 0]; demo_ctx 0 "H" "p" []; demo_ctx 1 "A" "s" [0; 0; 0; 0]].
Definition demo_end : heap := Eval vm_compute in (for_each (emu_process demo_models [] 32) demo_run demo_sys).2.

Lemma demo_run_Ok : for_each (emu_process demo_models [] 32) demo_run demo_sys = (Ok tt, demo_end).
Proof. vm_compute. reflexivity. Qed.

Lemma emu_runs_coherent_witness : coherent demo_end /\ sys_run demo_run (abs demo_sys) (abs demo_end).
Proof.
  exact (emu_runs_coherent demo_models [] 32 demo_run demo_sys demo_end demo_models_good demo_coherent demo_run_Ok).
Defined.

Definition end_cpu : cpu := default (cpu_init_begin 0 0 false) (h_cpu demo_end !! 2%nat).
Definition end_thread : thread := default (new_thread 21 0) (h_thread demo_end !! 1%nat).

Lemma running_thread_shown_witness :
  shows demo_end (cpu_chan 2 CPU_CHAN_TID) (value_int64 22) /\
  shows demo_end (cpu_chan 2 CPU_CHAN_NRUN) (value_int64 1).
Proof.
  pose proof (running_thread_shown demo_models [] 32 demo_run demo_sys demo_end 2 end_cpu 1 end_thread demo_proc
    demo_models_good demo_coherent demo_run_Ok
    ltac:(vm_compute; reflexivity) ltac:(vm_compute; reflexivity) ltac:(vm_compute; reflexivity)
    ltac:(vm_compute; reflexivity) ltac:(vm_compute; reflexivity) ltac:(vm_compute; reflexivity)) as (_ & A & _ & _ & B).
  split; [exact A|exact B].
Defined.
