(* ===== verification/Table.v ===== *)
(** * Events that enter and leave a state (the tables of src/emu/*/event.c)

    The simple events of a model are listed in a table by category and value:
    the channel of the thread, what to do with it and the state.  The tables
    and their readers are the same for every model, so they are modelled once;
    the files of the models hold the tables.  A table in C has 256 by 256
    entries of three integers, and the entries that are not written are zero,
    which is no action.

    The abstract reading of a table is [nest]: the events of a thread open and
    close states like brackets. *)

From Stdlib Require Import Ascii.
From S2P Require Import Prelude Chan Heap Bay Mux Thread Event.

Inductive action := PUSH | POP | SET | IGN.

#[export] Instance action_eq_dec : EqDecision action.
Proof. solve_decision. Defined.

(** [{ chind, action, st }]. *)
Definition entry : Type := nat * action * Z.
Definition table : Type := list (ascii * list (ascii * entry)).

(** [\[v\] = { chind, action, st }] and [\[c\] = { ... }]. *)
Definition on (v : ascii) (i : nat) (a : action) (st : Z) : ascii * entry := (v, (i, a, st)).
Definition category (c : ascii) (l : list (ascii * entry)) : ascii * list (ascii * entry) := (c, l).

Fixpoint at_char {A} (x : Z) (l : list (ascii * A)) : option A :=
  match l with
  | [] => None
  | (c, a) :: l' => if is_ch x c then Some a else at_char x l'
  end.

(** [table[c][v]]; [None] is the entry of zeros. *)
Definition table_get (t : table) (c v : Z) : option entry := at_char c t ≫= at_char v.

(** [&EXT(th, model)->m.ch[i]]. *)
Definition model_chan (m : ascii) (t i : nat) : addr := Addr (OwnModel (Z.to_nat (ch m)) t) i.

(** The body of [simple] and of the [process_ev] that have only a table. *)
Definition run_entry (m : ascii) (t : nat) (e : option entry) : M heap unit :=
  match e with
  | Some (i, PUSH, st) => chan_push (model_chan m t i) (value_int64 st)
  | Some (i, POP, st) => chan_pop (model_chan m t i) (value_int64 st)
  | Some (i, SET, st) => chan_set (model_chan m t i) (value_int64 st)
  | Some (_, IGN, _) => mret tt
  | None => mfail
  end.

Definition run_table (m : ascii) (tbl : table) (x : ctx) : M heap unit :=
  run_entry m (cx_thread x) (table_get tbl (ee_c (cx_ev x)) (ee_v (cx_ev x))).

(** A [switch] whose cases are the characters of [cs]. *)
Fixpoint one_of (x : Z) (cs : string) : bool :=
  match cs with EmptyString => false | String c cs' => is_ch x c || one_of x cs' end.

(** ** Well-formed tables *)

(** The entries of a table with their category and value. *)
Definition entries (t : table) : list (ascii * ascii * entry) :=
  t ≫= fun p => (fun q => (p.1, q.1, q.2)) <$> p.2.

Fixpoint nodup_ascii (l : list ascii) : bool :=
  match l with [] => true | c :: l' => negb (bool_decide (c ∈ l')) && nodup_ascii l' end.

(** No entry is written twice, and in every category the states that some
    event enters are the states that some event leaves, on the same channel. *)
Definition table_unique (t : table) : bool :=
  nodup_ascii t.*1 && forallb (fun p => nodup_ascii p.2.*1) t.

Definition has_entry (a : action) (i : nat) (st : Z) (l : list (ascii * entry)) : bool :=
  existsb (fun q => bool_decide (q.2 = (i, a, st))) l.

Definition table_paired (t : table) : bool :=
  forallb (fun p => forallb (fun q =>
    match q.2 with
    | (i, PUSH, st) => has_entry POP i st p.2
    | (i, POP, st) => has_entry PUSH i st p.2
    | _ => true
    end) p.2) t.

(** ** What an event does to the stacks of its model *)

Notation effect := (option (action * Z)).

(** The stack of a channel that does not ignore duplicates. *)
Definition open_at (a : addr) (h : heap) : option (list value) :=
  c ← h_chan h !! a; if c_ignore_dup c =? 0 then Some (c_stack c) else None.

Definition apply_effect (e : effect) (s : list value) : option (list value) :=
  match e with
  | Some (PUSH, st) => Some (value_int64 st :: s)
  | Some (POP, st) =>
      match s with
      | v :: s' => if bool_decide (v = value_int64 st) then Some s' else None
      | [] => None
      end
  | _ => Some s
  end.

(** The effect of the entry of an event on the channel [i]. *)
Definition entry_effect (e : option entry) (i : nat) : effect :=
  match e with
  | Some (j, a, st) => if bool_decide (j = i) then Some (a, st) else None
  | None => None
  end.

Definition table_effect (tbl : table) (i : nat) (x : ctx) : effect :=
  entry_effect (table_get tbl (ee_c (cx_ev x)) (ee_v (cx_ev x))) i.

(** The stack of the channel is [r] after a run that succeeded: a pop that does
    not match is no success. *)
Definition becomes (a : addr) (r : option (list value)) (h : heap) : Prop := is_Some r /\ open_at a h = r.

(** [hook] changes the stack of the channel [i] of the model [m] as [eff] says,
    in the thread of the event and in no other. *)
Class StackEffect (m : ascii) (i : nat) (hook : ctx -> M heap unit) (eff : ctx -> effect) : Prop := {
  se_step : forall x h h', hook x h = (Ok tt, h') ->
    forall t s, open_at (model_chan m t i) h = Some s ->
    becomes (model_chan m t i) (if Nat.eqb t (cx_thread x) then apply_effect (eff x) s else Some s) h'
}.

(** [hook] does not change the stacks of the model [m]. *)
Class StackFrame (m : ascii) (hook : ctx -> M heap unit) : Prop := {
  sf_step : forall x t i s, keeps_ok (fun h => open_at (model_chan m t i) h = Some s) (hook x)
}.

(** *** Stacks and the operations on channels *)

(** [open_at a] is [s]. *)
Definition opened (a : addr) (s : list value) (h : heap) : Prop := open_at a h = Some s.

Lemma opened_ext a s h h' : h_chan h' = h_chan h -> opened a s h -> opened a s h'.
Proof. unfold opened, open_at. by intros ->. Qed.

Lemma opened_get a s h : opened a s h <-> exists c, h_chan h !! a = Some c /\ c_ignore_dup c = 0 /\ c_stack c = s.
Proof.
  unfold opened, open_at. destruct (h_chan h !! a) as [c|]; simpl; [|naive_solver].
  destruct (Z.eqb_spec (c_ignore_dup c) 0); naive_solver.
Qed.

Lemma run_op_opened op a b s h h' : run_op op a h = (Ok tt, h') -> opened b s h ->
  opened b s h' \/
  (a = b /\ exists v, (op = OpPush v /\ opened b (v :: s) h') \/
                      (op = OpPop v /\ exists s', s = v :: s' /\ opened b s' h')).
Proof.
  intros E Hb. apply run_op_Ok in E as (c & Hc & [[-> _]|(c' & Hs & Ha & Hne)]); [by left|].
  simpl in Hc, Ha, Hne. destruct (decide (a = b)) as [->|Hab]; last first.
  { left. apply opened_get in Hb as (cb & Hcb & ?). apply opened_get. exists cb.
    by rewrite Hne by congruence. }
  apply opened_get in Hb as (cb & Hcb & Hi & <-). simplify_eq.
  inversion Hs; subst; [left|right|right|left].
  - apply opened_get. by eexists.
  - split; [done|]. exists v. left. split; [done|]. apply opened_get. by eexists.
  - split; [done|]. exists v. right. split; [done|]. exists l. split; [done|]. apply opened_get. by eexists.
  - apply opened_get. by eexists.
Qed.

Lemma run_op_skip_opened op a s h : opened a s h -> (exists c, cm_get a h = Some c /\ op_skipped op c) ->
  match op with OpPush _ | OpPop _ => False | _ => True end.
Proof.
  rewrite opened_get. intros (c & Hc & Hi & _) (c' & Hc' & Hsk). simpl in Hc'. simplify_eq.
  destruct op; simpl in Hsk; try done. destruct Hsk as [Hsk _]. by rewrite Hi in Hsk.
Qed.

Lemma chan_set_opened a v b s : keeps_ok (opened b s) (chan_set a v : M heap unit).
Proof.
  intros h [] h' Hb E. destruct (run_op_opened (OpSet v) a b s h h' E Hb) as [?|(_ & w & [[? _]|[? _]])]; [done|discriminate..].
Qed.

Lemma run_op_other op a b s : a <> b -> keeps_ok (opened b s) (run_op op a : M heap unit).
Proof. intros Hne h [] h' Hb E. by destruct (run_op_opened op a b s h h' E Hb) as [?|[? _]]. Qed.

Lemma chan_push_opened a v s h h' : chan_push a v h = (Ok tt, h') -> opened a s h -> opened a (v :: s) h'.
Proof.
  intros E Hb. pose proof (run_op_Ok (OpPush v) a h h' E) as (c & Hc & [[_ Hsk]|(c' & Hst & Ha & _)]).
  - exfalso. by apply (run_op_skip_opened (OpPush v) a s h Hb); eauto.
  - apply opened_get in Hb as (c0 & Hc0 & Hi & <-). simpl in *. simplify_eq.
    apply opened_get. inversion Hst; subst. by eexists.
Qed.

Lemma chan_pop_opened a v s h h' : chan_pop a v h = (Ok tt, h') -> opened a s h -> exists s', s = v :: s' /\ opened a s' h'.
Proof.
  intros E Hb. pose proof (run_op_Ok (OpPop v) a h h' E) as (c & Hc & [[_ Hsk]|(c' & Hst & Ha & _)]); [done|].
  apply opened_get in Hb as (c0 & Hc0 & Hi & <-). simpl in *. simplify_eq.
  inversion Hst; subst. exists l. split; [done|]. apply opened_get. by eexists.
Qed.

Lemma model_chan_inj m t i m' t' i' : model_chan m t i = model_chan m' t' i' -> ch m = ch m' /\ t = t' /\ i = i'.
Proof. unfold model_chan, ch. intros [= H1 -> ->]. split; [lia|done]. Qed.

(** *** The table models *)

Lemma run_entry_frame m t e b s : (forall i, model_chan m t i <> b) -> keeps_ok (opened b s) (run_entry m t e).
Proof.
  intros Hne. destruct e as [[[i []] st]|]; simpl.
  - by apply (run_op_other (OpPush _)).
  - by apply (run_op_other (OpPop _)).
  - apply chan_set_opened.
  - apply keeps_ok_quiet, quiet_ret.
  - apply keeps_ok_quiet, quiet_fail.
Qed.

Lemma opened_becomes a s h : opened a s h -> becomes a (Some s) h.
Proof. by split. Qed.

Lemma run_entry_effect m t e h h' : run_entry m t e h = (Ok tt, h') ->
  forall t' i s, open_at (model_chan m t' i) h = Some s ->
  becomes (model_chan m t' i) (if Nat.eqb t' t then apply_effect (entry_effect e i) s else Some s) h'.
Proof.
  intros E t' i s Hs. change (opened (model_chan m t' i) s h) in Hs.
  assert (forall op j, (t = t' /\ j = i -> False) -> run_op op (model_chan m t j) h = (Ok tt, h') ->
    becomes (model_chan m t' i) (Some s) h') as Hop.
  { intros op j Hne E'. apply opened_becomes. eapply run_op_other; [|exact Hs|exact E'].
    intros (_ & ? & ?)%model_chan_inj. by apply Hne. }
  assert (forall v, chan_pop (model_chan m t i) v h = (Ok tt, h') -> t' = t ->
    exists s', s = v :: s' /\ becomes (model_chan m t' i) (Some s') h') as Hpop.
  { intros v E' ->. destruct (chan_pop_opened _ _ _ _ _ E' Hs) as (s' & -> & Hs'). by exists s'. }
  destruct e as [[[j a] st]|]; [|discriminate]. simpl in E |- *.
  destruct a, (Nat.eqb_spec t' t) as [Ht|Ht], (decide (j = i)) as [Hj|Hj];
    rewrite ?(bool_decide_true (j = i)), ?(bool_decide_false (j = i)) by done; try subst j; simpl;
    try (by apply (Hop (OpPush (value_int64 st)) j); [naive_solver|]);
    try (by apply (Hop (OpPop (value_int64 st)) j); [naive_solver|]);
    try (by apply (Hop (OpPush (value_int64 st)) i); [naive_solver|]);
    try (by apply (Hop (OpPop (value_int64 st)) i); [naive_solver|]);
    try (by apply opened_becomes; eapply chan_set_opened);
    try (by injection E as <-; apply opened_becomes).
  - subst t'. by apply opened_becomes; eapply chan_push_opened.
  - destruct (Hpop _ E Ht) as (s' & -> & Hs'). by rewrite bool_decide_true.
Qed.

Section TableHooks.
Variables (m : ascii) (tbl : table) (hook : ctx -> M heap unit).
Hypothesis hook_table : forall x h h', hook x h = (Ok tt, h') -> run_table m tbl x h = (Ok tt, h').

Lemma table_stack_effect i : StackEffect m i hook (table_effect tbl i).
Proof. split. intros x h h' E t s. by apply run_entry_effect, hook_table. Qed.

Lemma table_stack_frame m' : ch m <> ch m' -> StackFrame m' hook.
Proof.
  intros Hm. split. intros x t i s h [] h' Hs E. apply hook_table in E.
  eapply run_entry_frame; [|exact Hs|exact E]. by intros j [? _]%model_chan_inj.
Qed.
End TableHooks.

(** A handler that only tests and then reads its table. *)
Ltac table_tac :=
  repeat match goal with
  | |- (if ?b then _ else _) _ = _ -> _ => destruct b; [try done|try done]
  | |- mbind _ _ _ = _ -> _ =>
      let E := fresh "E" in intros E; apply mbind_Ok in E as (? & ? & ?%quiet_Ok & E); [|by eauto with ovni];
      subst; revert E
  end; try done.


(** *** What the tests of a table mean *)

Lemma is_ch_ne v a b : is_ch v a = true -> ch a <> ch b -> is_ch v b = false.
Proof. unfold is_ch. intros ->%Z.eqb_eq Hne. by apply Z.eqb_neq. Qed.

Lemma at_char_elem {A} x (l : list (ascii * A)) a : at_char x l = Some a -> exists c, (c, a) ∈ l /\ x = ch c.
Proof.
  induction l as [|[c b] l IH]; simpl; [done|]. destruct (is_ch x c) eqn:E.
  - intros [= ->]. exists c. split; [by left|]. by apply Z.eqb_eq.
  - intros (c' & ? & ?)%IH. exists c'. split; [by right|done].
Qed.

Lemma ch_inj c c' : ch c = ch c' -> c = c'.
Proof. unfold ch. intros E%N2Z.inj. by rewrite <- (ascii_N_embedding c), <- (ascii_N_embedding c'), E. Qed.

Lemma elem_at_char {A} c (l : list (ascii * A)) a : nodup_ascii l.*1 = true -> (c, a) ∈ l -> at_char (ch c) l = Some a.
Proof.
  induction l as [|[k b] l IH]; simpl; [by intros _ ?%not_elem_of_nil|].
  intros [Hk Hn]%andb_true_iff Hin. apply negb_true_iff, bool_decide_eq_false in Hk.
  apply elem_of_cons in Hin as [[= -> ->]|Hin]; [by unfold is_ch; rewrite Z.eqb_refl|].
  destruct (is_ch (ch c) k) eqn:E; [|by apply IH]. apply Z.eqb_eq, ch_inj in E as ->.
  destruct Hk. apply list_elem_of_fmap. by exists (k, a).
Qed.

Lemma has_entry_elem a i st l : has_entry a i st l = true -> exists v, (v, (i, a, st)) ∈ l.
Proof.
  unfold has_entry. rewrite existsb_exists. intros ([v e] & Hin & E%bool_decide_eq_true). simpl in E. subst.
  exists v. by apply list_elem_of_In.
Qed.

Definition opposite (a : action) : option action :=
  match a with PUSH => Some POP | POP => Some PUSH | _ => None end.

Lemma table_paired_sound t c v i a b st : table_unique t = true -> table_paired t = true ->
  table_get t c v = Some (i, a, st) -> opposite a = Some b -> exists v', table_get t c v' = Some (i, b, st).
Proof.
  unfold table_unique, table_paired, table_get. intros [Hu Hus]%andb_true_iff Hp E Hb.
  apply bind_Some in E as (l & El & Ev). rewrite El. simpl. apply at_char_elem in El as (c' & Hl & ->).
  apply at_char_elem in Ev as (v' & Hv & ->). rewrite forallb_forall in Hus, Hp.
  apply list_elem_of_In in Hl. specialize (Hus _ Hl). specialize (Hp _ Hl). simpl in *. rewrite forallb_forall in Hp.
  apply list_elem_of_In in Hv. specialize (Hp _ Hv). simpl in Hp.
  assert (has_entry b i st l = true) as Hh by (destruct a; simpl in *; by simplify_eq).
  apply has_entry_elem in Hh as (v2 & Hv2). exists (ch v2). by apply elem_at_char.
Qed.
