(* ===== verification/Mpi.v ===== *)
(** * The MPI model (src/emu/mpi/event.c, mpi_priv.h)

    The functions of MPI a running thread is in. *)

From Stdlib Require Import Ascii.
From S2P Require Import Prelude Chan Heap Bay Mux Thread Event Table.

Definition CH_FUNCTION : nat := 0.
Definition CH_MAX : nat := 1.

Inductive mpi_function_values :=
| ST_MPI_INIT | ST_MPI_INIT_THREAD | ST_MPI_FINALIZE | ST_MPI_WAIT | ST_MPI_WAITALL | ST_MPI_WAITANY
| ST_MPI_WAITSOME | ST_MPI_TEST | ST_MPI_TESTALL | ST_MPI_TESTANY | ST_MPI_TESTSOME | ST_MPI_RECV
| ST_MPI_SEND | ST_MPI_BSEND | ST_MPI_RSEND | ST_MPI_SSEND | ST_MPI_SENDRECV | ST_MPI_SENDRECV_REPLACE
| ST_MPI_IRECV | ST_MPI_ISEND | ST_MPI_IBSEND | ST_MPI_IRSEND | ST_MPI_ISSEND | ST_MPI_ISENDRECV
| ST_MPI_ISENDRECV_REPLACE | ST_MPI_ALLGATHER | ST_MPI_ALLREDUCE | ST_MPI_ALLTOALL | ST_MPI_BARRIER
| ST_MPI_BCAST | ST_MPI_GATHER | ST_MPI_REDUCE | ST_MPI_REDUCE_SCATTER | ST_MPI_REDUCE_SCATTER_BLOCK
| ST_MPI_SCATTER | ST_MPI_SCAN | ST_MPI_EXSCAN | ST_MPI_IALLGATHER | ST_MPI_IALLREDUCE
| ST_MPI_IALLTOALL | ST_MPI_IBARRIER | ST_MPI_IBCAST | ST_MPI_IGATHER | ST_MPI_IREDUCE
| ST_MPI_IREDUCE_SCATTER | ST_MPI_IREDUCE_SCATTER_BLOCK | ST_MPI_ISCATTER | ST_MPI_ISCAN
| ST_MPI_IEXSCAN.

Definition mpi_function_values_Z (x : mpi_function_values) : Z :=
  match x with
  | ST_MPI_INIT => 1 | ST_MPI_INIT_THREAD => 2 | ST_MPI_FINALIZE => 3 | ST_MPI_WAIT => 4
  | ST_MPI_WAITALL => 5 | ST_MPI_WAITANY => 6 | ST_MPI_WAITSOME => 7 | ST_MPI_TEST => 8
  | ST_MPI_TESTALL => 9 | ST_MPI_TESTANY => 10 | ST_MPI_TESTSOME => 11 | ST_MPI_RECV => 12
  | ST_MPI_SEND => 13 | ST_MPI_BSEND => 14 | ST_MPI_RSEND => 15 | ST_MPI_SSEND => 16
  | ST_MPI_SENDRECV => 17 | ST_MPI_SENDRECV_REPLACE => 18 | ST_MPI_IRECV => 19 | ST_MPI_ISEND => 20
  | ST_MPI_IBSEND => 21 | ST_MPI_IRSEND => 22 | ST_MPI_ISSEND => 23 | ST_MPI_ISENDRECV => 24
  | ST_MPI_ISENDRECV_REPLACE => 25 | ST_MPI_ALLGATHER => 26 | ST_MPI_ALLREDUCE => 27
  | ST_MPI_ALLTOALL => 28 | ST_MPI_BARRIER => 29 | ST_MPI_BCAST => 30 | ST_MPI_GATHER => 31
  | ST_MPI_REDUCE => 32 | ST_MPI_REDUCE_SCATTER => 33 | ST_MPI_REDUCE_SCATTER_BLOCK => 34
  | ST_MPI_SCATTER => 35 | ST_MPI_SCAN => 36 | ST_MPI_EXSCAN => 37 | ST_MPI_IALLGATHER => 38
  | ST_MPI_IALLREDUCE => 39 | ST_MPI_IALLTOALL => 40 | ST_MPI_IBARRIER => 41 | ST_MPI_IBCAST => 42
  | ST_MPI_IGATHER => 43 | ST_MPI_IREDUCE => 44 | ST_MPI_IREDUCE_SCATTER => 45
  | ST_MPI_IREDUCE_SCATTER_BLOCK => 46 | ST_MPI_ISCATTER => 47 | ST_MPI_ISCAN => 48
  | ST_MPI_IEXSCAN => 49
  end.
Coercion mpi_function_values_Z : mpi_function_values >-> Z.

Definition fn_table : table :=
  [
   category "U"
     [on "i" CH_FUNCTION PUSH ST_MPI_INIT; on "I" CH_FUNCTION POP ST_MPI_INIT;
      on "t" CH_FUNCTION PUSH ST_MPI_INIT_THREAD; on "T" CH_FUNCTION POP ST_MPI_INIT_THREAD;
      on "f" CH_FUNCTION PUSH ST_MPI_FINALIZE; on "F" CH_FUNCTION POP ST_MPI_FINALIZE];
   category "W"
     [on "[" CH_FUNCTION PUSH ST_MPI_WAIT; on "]" CH_FUNCTION POP ST_MPI_WAIT;
      on "a" CH_FUNCTION PUSH ST_MPI_WAITALL; on "A" CH_FUNCTION POP ST_MPI_WAITALL;
      on "y" CH_FUNCTION PUSH ST_MPI_WAITANY; on "Y" CH_FUNCTION POP ST_MPI_WAITANY;
      on "s" CH_FUNCTION PUSH ST_MPI_WAITSOME; on "S" CH_FUNCTION POP ST_MPI_WAITSOME];
   category "T"
     [on "[" CH_FUNCTION PUSH ST_MPI_TEST; on "]" CH_FUNCTION POP ST_MPI_TEST;
      on "a" CH_FUNCTION PUSH ST_MPI_TESTALL; on "A" CH_FUNCTION POP ST_MPI_TESTALL;
      on "y" CH_FUNCTION PUSH ST_MPI_TESTANY; on "Y" CH_FUNCTION POP ST_MPI_TESTANY;
      on "s" CH_FUNCTION PUSH ST_MPI_TESTSOME; on "S" CH_FUNCTION POP ST_MPI_TESTSOME];
   category "R"
     [on "[" CH_FUNCTION PUSH ST_MPI_RECV; on "]" CH_FUNCTION POP ST_MPI_RECV;
      on "s" CH_FUNCTION PUSH ST_MPI_SENDRECV; on "S" CH_FUNCTION POP ST_MPI_SENDRECV;
      on "o" CH_FUNCTION PUSH ST_MPI_SENDRECV_REPLACE; on "O" CH_FUNCTION POP ST_MPI_SENDRECV_REPLACE];
   category "r"
     [on "[" CH_FUNCTION PUSH ST_MPI_IRECV; on "]" CH_FUNCTION POP ST_MPI_IRECV;
      on "s" CH_FUNCTION PUSH ST_MPI_ISENDRECV; on "S" CH_FUNCTION POP ST_MPI_ISENDRECV;
      on "o" CH_FUNCTION PUSH ST_MPI_ISENDRECV_REPLACE; on "O" CH_FUNCTION POP ST_MPI_ISENDRECV_REPLACE];
   category "S"
     [on "[" CH_FUNCTION PUSH ST_MPI_SEND; on "]" CH_FUNCTION POP ST_MPI_SEND;
      on "b" CH_FUNCTION PUSH ST_MPI_BSEND; on "B" CH_FUNCTION POP ST_MPI_BSEND;
      on "r" CH_FUNCTION PUSH ST_MPI_RSEND; on "R" CH_FUNCTION POP ST_MPI_RSEND;
      on "s" CH_FUNCTION PUSH ST_MPI_SSEND; on "S" CH_FUNCTION POP ST_MPI_SSEND];
   category "s"
     [on "[" CH_FUNCTION PUSH ST_MPI_ISEND; on "]" CH_FUNCTION POP ST_MPI_ISEND;
      on "b" CH_FUNCTION PUSH ST_MPI_IBSEND; on "B" CH_FUNCTION POP ST_MPI_IBSEND;
      on "r" CH_FUNCTION PUSH ST_MPI_IRSEND; on "R" CH_FUNCTION POP ST_MPI_IRSEND;
      on "s" CH_FUNCTION PUSH ST_MPI_ISSEND; on "S" CH_FUNCTION POP ST_MPI_ISSEND];
   category "A"
     [on "g" CH_FUNCTION PUSH ST_MPI_ALLGATHER; on "G" CH_FUNCTION POP ST_MPI_ALLGATHER;
      on "r" CH_FUNCTION PUSH ST_MPI_ALLREDUCE; on "R" CH_FUNCTION POP ST_MPI_ALLREDUCE;
      on "a" CH_FUNCTION PUSH ST_MPI_ALLTOALL; on "A" CH_FUNCTION POP ST_MPI_ALLTOALL];
   category "a"
     [on "g" CH_FUNCTION PUSH ST_MPI_IALLGATHER; on "G" CH_FUNCTION POP ST_MPI_IALLGATHER;
      on "r" CH_FUNCTION PUSH ST_MPI_IALLREDUCE; on "R" CH_FUNCTION POP ST_MPI_IALLREDUCE;
      on "a" CH_FUNCTION PUSH ST_MPI_IALLTOALL; on "A" CH_FUNCTION POP ST_MPI_IALLTOALL];
   category "C"
     [on "b" CH_FUNCTION PUSH ST_MPI_BARRIER; on "B" CH_FUNCTION POP ST_MPI_BARRIER;
      on "s" CH_FUNCTION PUSH ST_MPI_SCAN; on "S" CH_FUNCTION POP ST_MPI_SCAN;
      on "e" CH_FUNCTION PUSH ST_MPI_EXSCAN; on "E" CH_FUNCTION POP ST_MPI_EXSCAN];
   category "c"
     [on "b" CH_FUNCTION PUSH ST_MPI_IBARRIER; on "B" CH_FUNCTION POP ST_MPI_IBARRIER;
      on "s" CH_FUNCTION PUSH ST_MPI_ISCAN; on "S" CH_FUNCTION POP ST_MPI_ISCAN;
      on "e" CH_FUNCTION PUSH ST_MPI_IEXSCAN; on "E" CH_FUNCTION POP ST_MPI_IEXSCAN];
   category "D"
     [on "b" CH_FUNCTION PUSH ST_MPI_BCAST; on "B" CH_FUNCTION POP ST_MPI_BCAST;
      on "g" CH_FUNCTION PUSH ST_MPI_GATHER; on "G" CH_FUNCTION POP ST_MPI_GATHER;
      on "s" CH_FUNCTION PUSH ST_MPI_SCATTER; on "S" CH_FUNCTION POP ST_MPI_SCATTER];
   category "d"
     [on "b" CH_FUNCTION PUSH ST_MPI_IBCAST; on "B" CH_FUNCTION POP ST_MPI_IBCAST;
      on "g" CH_FUNCTION PUSH ST_MPI_IGATHER; on "G" CH_FUNCTION POP ST_MPI_IGATHER;
      on "s" CH_FUNCTION PUSH ST_MPI_ISCATTER; on "S" CH_FUNCTION POP ST_MPI_ISCATTER];
   category "E"
     [on "[" CH_FUNCTION PUSH ST_MPI_REDUCE; on "]" CH_FUNCTION POP ST_MPI_REDUCE;
      on "s" CH_FUNCTION PUSH ST_MPI_REDUCE_SCATTER; on "S" CH_FUNCTION POP ST_MPI_REDUCE_SCATTER;
      on "b" CH_FUNCTION PUSH ST_MPI_REDUCE_SCATTER_BLOCK;
      on "B" CH_FUNCTION POP ST_MPI_REDUCE_SCATTER_BLOCK];
   category "e"
     [on "[" CH_FUNCTION PUSH ST_MPI_IREDUCE; on "]" CH_FUNCTION POP ST_MPI_IREDUCE;
      on "s" CH_FUNCTION PUSH ST_MPI_IREDUCE_SCATTER; on "S" CH_FUNCTION POP ST_MPI_IREDUCE_SCATTER;
      on "b" CH_FUNCTION PUSH ST_MPI_IREDUCE_SCATTER_BLOCK;
      on "B" CH_FUNCTION POP ST_MPI_IREDUCE_SCATTER_BLOCK]
  ].

Definition process_ev (x : ctx) : M heap unit :=
  let* th := load_thread (cx_thread x) in
  if negb (t_is_running th) then mfail else
  run_table "M" fn_table x.

Definition model_mpi_event (x : ctx) : M heap unit :=
  if negb (is_ch (ee_m (cx_ev x)) "M") then mfail else process_ev x.

Lemma model_mpi_event_table x h h' : model_mpi_event x h = (Ok tt, h') -> run_table "M" fn_table x h = (Ok tt, h').
Proof. unfold model_mpi_event, process_ev. table_tac. Qed.

#[export] Instance mpi_stack_effect i : StackEffect "M" i model_mpi_event (table_effect fn_table i).
Proof. apply table_stack_effect, model_mpi_event_table. Qed.
