(* ===== verification/Tampi.v ===== *)
(** * The TAMPI model (src/emu/tampi/event.c, tampi_priv.h)

    The subsystem of the task-aware MPI library a running thread is in. *)

From Stdlib Require Import Ascii.
From S2P Require Import Prelude Chan Heap Bay Mux Thread Event Table.

Definition CH_SUBSYSTEM : nat := 0.
Definition CH_MAX : nat := 1.
Definition CHSS : nat := CH_SUBSYSTEM.

Inductive tampi_ss_values :=
| ST_COMM_ISSUE_NONBLOCKING | ST_GLOBAL_ARRAY_CHECK | ST_LIBRARY_INTERFACE | ST_LIBRARY_POLLING
| ST_QUEUE_ADD | ST_QUEUE_TRANSFER | ST_REQUEST_COMPLETED | ST_REQUEST_TEST | ST_REQUEST_TESTALL
| ST_REQUEST_TESTSOME | ST_TICKET_CREATE | ST_TICKET_WAIT.

Definition tampi_ss_values_Z (x : tampi_ss_values) : Z :=
  match x with
  | ST_COMM_ISSUE_NONBLOCKING => 1 | ST_GLOBAL_ARRAY_CHECK => 2 | ST_LIBRARY_INTERFACE => 3
  | ST_LIBRARY_POLLING => 4 | ST_QUEUE_ADD => 5 | ST_QUEUE_TRANSFER => 6 | ST_REQUEST_COMPLETED => 7
  | ST_REQUEST_TEST => 8 | ST_REQUEST_TESTALL => 9 | ST_REQUEST_TESTSOME => 10 | ST_TICKET_CREATE => 11
  | ST_TICKET_WAIT => 12
  end.
Coercion tampi_ss_values_Z : tampi_ss_values >-> Z.

Definition ss_table : table :=
  [
   category "C"
     [on "i" CHSS PUSH ST_COMM_ISSUE_NONBLOCKING; on "I" CHSS POP ST_COMM_ISSUE_NONBLOCKING];
   category "G"
     [on "c" CHSS PUSH ST_GLOBAL_ARRAY_CHECK; on "C" CHSS POP ST_GLOBAL_ARRAY_CHECK];
   category "L"
     [on "i" CHSS PUSH ST_LIBRARY_INTERFACE; on "I" CHSS POP ST_LIBRARY_INTERFACE;
      on "p" CHSS PUSH ST_LIBRARY_POLLING; on "P" CHSS POP ST_LIBRARY_POLLING];
   category "Q"
     [on "a" CHSS PUSH ST_QUEUE_ADD; on "A" CHSS POP ST_QUEUE_ADD; on "t" CHSS PUSH ST_QUEUE_TRANSFER;
      on "T" CHSS POP ST_QUEUE_TRANSFER];
   category "R"
     [on "c" CHSS PUSH ST_REQUEST_COMPLETED; on "C" CHSS POP ST_REQUEST_COMPLETED;
      on "t" CHSS PUSH ST_REQUEST_TEST; on "T" CHSS POP ST_REQUEST_TEST;
      on "a" CHSS PUSH ST_REQUEST_TESTALL; on "A" CHSS POP ST_REQUEST_TESTALL;
      on "s" CHSS PUSH ST_REQUEST_TESTSOME; on "S" CHSS POP ST_REQUEST_TESTSOME];
   category "T"
     [on "c" CHSS PUSH ST_TICKET_CREATE; on "C" CHSS POP ST_TICKET_CREATE;
      on "w" CHSS PUSH ST_TICKET_WAIT; on "W" CHSS POP ST_TICKET_WAIT]
  ].

Definition process_ev (x : ctx) : M heap unit :=
  let* th := load_thread (cx_thread x) in
  if negb (t_is_running th) then mfail else
  run_table "T" ss_table x.

Definition model_tampi_event (x : ctx) : M heap unit :=
  if negb (is_ch (ee_m (cx_ev x)) "T") then mfail else process_ev x.

Lemma model_tampi_event_table x h h' : model_tampi_event x h = (Ok tt, h') -> run_table "T" ss_table x h = (Ok tt, h').
Proof. unfold model_tampi_event, process_ev. table_tac. Qed.

#[export] Instance tampi_stack_effect i : StackEffect "T" i model_tampi_event (table_effect ss_table i).
Proof. apply table_stack_effect, model_tampi_event_table. Qed.
