(* ===== verification/Nodes.v ===== *)
(** * The NODES model (src/emu/nodes/event.c, nodes_priv.h)

    The subsystem of the NODES runtime a running thread is in. *)

From Stdlib Require Import Ascii.
From S2P Require Import Prelude Chan Heap Bay Mux Thread Event Table.

Definition CH_SUBSYSTEM : nat := 0.
Definition CH_MAX : nat := 1.
Definition CHSS : nat := CH_SUBSYSTEM.

Inductive nodes_ss_values :=
| ST_REGISTER | ST_UNREGISTER | ST_IF0_WAIT | ST_IF0_INLINE | ST_TASKWAIT | ST_CREATE | ST_SUBMIT
| ST_SPAWN.

Definition nodes_ss_values_Z (x : nodes_ss_values) : Z :=
  match x with
  | ST_REGISTER => 1 | ST_UNREGISTER => 2 | ST_IF0_WAIT => 3 | ST_IF0_INLINE => 4 | ST_TASKWAIT => 5
  | ST_CREATE => 6 | ST_SUBMIT => 7 | ST_SPAWN => 8
  end.
Coercion nodes_ss_values_Z : nodes_ss_values >-> Z.

Definition ss_table : table :=
  [
   category "R"
     [on "[" CHSS PUSH ST_REGISTER; on "]" CHSS POP ST_REGISTER];
   category "U"
     [on "[" CHSS PUSH ST_UNREGISTER; on "]" CHSS POP ST_UNREGISTER];
   category "W"
     [on "[" CHSS PUSH ST_IF0_WAIT; on "]" CHSS POP ST_IF0_WAIT];
   category "I"
     [on "[" CHSS PUSH ST_IF0_INLINE; on "]" CHSS POP ST_IF0_INLINE];
   category "T"
     [on "[" CHSS PUSH ST_TASKWAIT; on "]" CHSS POP ST_TASKWAIT];
   category "C"
     [on "[" CHSS PUSH ST_CREATE; on "]" CHSS POP ST_CREATE];
   category "S"
     [on "[" CHSS PUSH ST_SUBMIT; on "]" CHSS POP ST_SUBMIT];
   category "P"
     [on "[" CHSS PUSH ST_SPAWN; on "]" CHSS POP ST_SPAWN]
  ].

Definition simple (x : ctx) : M heap unit := run_table "D" ss_table x.

Definition process_ev (x : ctx) : M heap unit :=
  let* th := load_thread (cx_thread x) in
  if negb (t_is_running th) then mfail else
  if one_of (ee_c (cx_ev x)) "RUWITCSP" then simple x else mfail.

Definition model_nodes_event (x : ctx) : M heap unit :=
  if negb (is_ch (ee_m (cx_ev x)) "D") then mfail else process_ev x.

Lemma model_nodes_event_table x h h' : model_nodes_event x h = (Ok tt, h') -> run_table "D" ss_table x h = (Ok tt, h').
Proof. unfold model_nodes_event, process_ev, simple. table_tac. Qed.

#[export] Instance nodes_stack_effect i : StackEffect "D" i model_nodes_event (table_effect ss_table i).
Proof. apply table_stack_effect, model_nodes_event_table. Qed.
