(* ===== verification/Kernel.v ===== *)
(** * The kernel and xtasks models (src/emu/kernel/event.c, xtasks/event.c)

    The kernel model says whether a thread was switched out of its CPU, which
    the other models check; the xtasks model shows the states the events name. *)

From Stdlib Require Import Ascii.
From S2P Require Import Prelude Chan Heap Bay Mux Thread Event Table.

Definition CH_CS : nat := 0.
Definition ST_CSOUT : Z := 3.

Definition set_out_of_cpu (t : nat) (b : bool) : M heap unit :=
  let* th := load_thread t in
  put_thread t (set_t_is_out_of_cpu b th).

Definition context_switch (x : ctx) : M heap unit :=
  let c := model_chan "K" (cx_thread x) CH_CS in
  if is_ch (ee_v (cx_ev x)) "O" then
    set_out_of_cpu (cx_thread x) true ;;;
    chan_push c (value_int64 ST_CSOUT)
  else if is_ch (ee_v (cx_ev x)) "I" then
    set_out_of_cpu (cx_thread x) false ;;;
    chan_pop c (value_int64 ST_CSOUT)
  else mfail.

Definition process_ev (x : ctx) : M heap unit :=
  if is_ch (ee_c (cx_ev x)) "C" then context_switch x else mfail.

Definition model_kernel_event (x : ctx) : M heap unit :=
  if negb (is_ch (ee_m (cx_ev x)) "K") then mfail else process_ev x.

(** ** xtasks *)

Definition EV_APICALL : Z := 85.

Definition event_s (x : ctx) : M heap unit :=
  let c := model_chan "X" (cx_thread x) 0 in
  if negb (ee_payload_size (cx_ev x) =? 16) then mfail else
  if negb (is_ch (ee_v (cx_ev x)) "e") then mfail else
  let* value := payload_i64 (cx_ev x) 0 in
  let* id := payload_u32 (cx_ev x) 2 in
  let* type := payload_u32 (cx_ev x) 3 in
  let idOrVal := if id =? EV_APICALL then value else id in
  if type =? 0 then chan_push c (value_int64 idOrVal) else
  if type =? 1 then chan_pop c (value_int64 idOrVal) else mfail.

Definition process_xtasks_ev (x : ctx) : M heap unit :=
  if is_ch (ee_c (cx_ev x)) "s" then event_s x else mfail.

(** [model_xtasks_event] once its [enabled] is set: before that it connects the
    channels of the model (Setups.v). *)
Definition model_xtasks_event (x : ctx) : M heap unit :=
  if negb (is_ch (ee_m (cx_ev x)) "X") then mfail else process_xtasks_ev x.
