(* ===== verification/TaskModel.v ===== *)
(** * Models with tasks: what nOS-V, Nanos6 and OpenMP share

    The three task models keep, for every process, the task tables of Task.v
    and, for every thread, its body stack; an event changes them and then the
    channels of the thread.  The handlers are in the files of the models; this
    one has the access to the tables and the reading of payloads. *)

From Stdlib Require Import Ascii.
From S2P Require Import Prelude Chan Pcf Task Heap Bay Mux Thread Event OvniModel OvniCorrect Table.

(** ** Access *)

(** [EXT(proc, m)->task_info] and the stacks of the threads. *)
Definition load_tasks (m : ascii) (p : nat) : M heap tasks :=
  let* h := mget in deref (h_tasks h !! (ch m, p)).

(** An operation of task.c on them. *)
Definition on_tasks {A} (m : ascii) (p : nat) (op : M tasks A) : M heap A := fun h =>
  match h_tasks h !! (ch m, p) with
  | None => (Ub, h)
  | Some ts => let '(r, ts') := op ts in (r, set_h_tasks <[(ch m, p) := ts']> h)
  end.

(** [task->type->gid]: the type is a pointer taken when the task was created. *)
Definition task_gid (ts : tasks) (t : task) : option Z := tt_gid <$> task_type_find ts (task_type_id t).

(** ** Payload of a jumbo event

    [payload->jumbo] is the size in four bytes and the data; a string ends at
    the first zero byte. *)

Fixpoint c_string (bs : list Z) : option string :=
  match bs with
  | [] => None
  | b :: bs' => if b =? 0 then Some EmptyString
                else s ← c_string bs'; Some (String (ascii_of_N (Z.to_N b)) s)
  end.

Definition jumbo_size {S} (ev : emu_ev) : M S Z := payload_u32 ev 0.
Definition jumbo_u32 {S} (ev : emu_ev) : M S Z := payload_u32 ev 1.
Definition jumbo_label {S} (ev : emu_ev) : M S string :=
  let* p := deref (ee_payload ev) in deref (c_string (drop 8 p)).

(** [pre_type] of the three models. *)
Definition pre_type (m : ascii) (x : ctx) : M heap unit :=
  if negb (is_ch (ee_v (cx_ev x)) "c") then mfail else
  if negb (ee_is_jumbo (cx_ev x)) then mfail else
  let* typeid := jumbo_u32 (cx_ev x) in
  let* label := jumbo_label (cx_ev x) in
  on_tasks m (cx_proc x) (task_type_create typeid label).

(** The [switch] of [update_task_state] (nOS-V and Nanos6). *)
Definition change_task (m : ascii) (x : ctx) (task_id body_id : Z) : M heap unit :=
  let v := ee_v (cx_ev x) in
  let p := cx_proc x in
  let t := cx_thread x in
  if is_ch v "x" then on_tasks m p (task_execute t task_id body_id) else
  if is_ch v "e" then on_tasks m p (task_end t task_id body_id) else
  if is_ch v "p" then on_tasks m p (task_pause t task_id body_id) else
  if is_ch v "r" then on_tasks m p (task_resume t task_id body_id) else mfail.

(** [expand_transition_value] (nOS-V and Nanos6). *)
Definition expand_transition_value (v : Z) (was_running runs_now : bool) : M heap Z :=
  if is_ch v "X" || is_ch v "E" then mfail else
  if is_ch v "x" && was_running then mret (ch "X") else
  if is_ch v "e" && runs_now then mret (ch "E") else mret v.

(** [update_task_ss_channel] (nOS-V and Nanos6), with the state [ST_TASK_BODY]. *)
Definition update_task_ss_channel (ss : addr) (body : Z) (tr : Z) : M heap unit :=
  if is_ch tr "x" then chan_push ss (value_int64 body) else
  if is_ch tr "e" then chan_pop ss (value_int64 body) else mret tt.

(** [enforce_task_rules] (nOS-V and Nanos6). *)
Definition enforce_task_rules (m : ascii) (x : ctx) (ss : addr) (body : Z) (tr : Z) (next : option bref) : M heap unit :=
  if negb (is_ch tr "x") && negb (is_ch tr "X") then mret tt else
  let* ts := load_tasks m (cx_proc x) in
  let* k := deref next in
  let* b := deref (body_find k ts) in
  if negb (bool_decide (body_st b = BODY_ST_RUNNING)) then mfail else
  let* c := load ss in
  let v := chan_read c in
  if bool_decide (v_type v = VALUE_INT64) && negb (v_i v =? body) then mfail else mret tt.
