(* ===== verification/Nosv.v ===== *)
(** * The nOS-V model (src/emu/nosv/event.c, nosv_priv.h, hwc.c)

    A thread of nOS-V shows its subsystem, its progress state, the body it
    runs and its hardware counters. *)

From Stdlib Require Import Ascii.
From S2P Require Import Prelude Chan Pcf Task Heap Bay Mux Thread Event OvniModel OvniCorrect Table TaskModel.

Definition CH_BODYID : nat := 0.
Definition CH_TASKID : nat := 1.
Definition CH_TYPE : nat := 2.
Definition CH_APPID : nat := 3.
Definition CH_SUBSYSTEM : nat := 4.
Definition CH_RANK : nat := 5.
Definition CH_IDLE : nat := 6.
Definition CH_MAX : nat := 7.
Definition CHSS : nat := CH_SUBSYSTEM.

Inductive nosv_ss_values :=
| ST_UNKNOWN_SS | ST_SCHED_HUNGRY | ST_SCHED_SERVING | ST_SCHED_SUBMITTING | ST_MEM_ALLOCATING
| ST_MEM_FREEING | ST_TASK_BODY | ST_API_CREATE | ST_API_DESTROY | ST_API_SUBMIT | ST_API_PAUSE
| ST_API_YIELD | ST_API_WAITFOR | ST_API_SCHEDPOINT | ST_API_ATTACH | ST_API_DETACH | ST_API_MUTEX_LOCK
| ST_API_MUTEX_TRYLOCK | ST_API_MUTEX_UNLOCK | ST_API_BARRIER_WAIT | ST_API_COND_WAIT
| ST_API_COND_SIGNAL | ST_API_COND_BCAST | ST_WORKER | ST_DELEGATE | EV_SCHED_RECV | EV_SCHED_SEND
| EV_SCHED_SELF.

Definition nosv_ss_values_Z (x : nosv_ss_values) : Z :=
  match x with
  | ST_UNKNOWN_SS => 2 | ST_SCHED_HUNGRY => 6 | ST_SCHED_SERVING => 7 | ST_SCHED_SUBMITTING => 8
  | ST_MEM_ALLOCATING => 9 | ST_MEM_FREEING => 10 | ST_TASK_BODY => 11 | ST_API_CREATE => 12
  | ST_API_DESTROY => 13 | ST_API_SUBMIT => 14 | ST_API_PAUSE => 15 | ST_API_YIELD => 16
  | ST_API_WAITFOR => 17 | ST_API_SCHEDPOINT => 18 | ST_API_ATTACH => 19 | ST_API_DETACH => 20
  | ST_API_MUTEX_LOCK => 21 | ST_API_MUTEX_TRYLOCK => 22 | ST_API_MUTEX_UNLOCK => 23
  | ST_API_BARRIER_WAIT => 24 | ST_API_COND_WAIT => 25 | ST_API_COND_SIGNAL => 26
  | ST_API_COND_BCAST => 27 | ST_WORKER => 28 | ST_DELEGATE => 29 | EV_SCHED_RECV => 30
  | EV_SCHED_SEND => 31 | EV_SCHED_SELF => 32
  end.
Coercion nosv_ss_values_Z : nosv_ss_values >-> Z.

Inductive nosv_progress :=
| ST_PROGRESSING | ST_RESTING | ST_ABSORBING.

Definition nosv_progress_Z (x : nosv_progress) : Z :=
  match x with
  | ST_PROGRESSING => 100 | ST_RESTING => 101 | ST_ABSORBING => 102
  end.
Coercion nosv_progress_Z : nosv_progress >-> Z.

Definition ss_table : table :=
  [
   category "S"
     [on "h" CHSS PUSH ST_SCHED_HUNGRY; on "f" CHSS POP ST_SCHED_HUNGRY;
      on "[" CHSS PUSH ST_SCHED_SERVING; on "]" CHSS POP ST_SCHED_SERVING;
      on "N" CHSS PUSH ST_SCHED_SERVING; on "n" CHSS POP ST_SCHED_SERVING; on "@" CHSS IGN (-1);
      on "r" CHSS IGN (-1); on "s" CHSS IGN (-1)];
   category "U"
     [on "[" CHSS PUSH ST_SCHED_SUBMITTING; on "]" CHSS POP ST_SCHED_SUBMITTING];
   category "M"
     [on "a" CHSS PUSH ST_MEM_ALLOCATING; on "A" CHSS POP ST_MEM_ALLOCATING;
      on "f" CHSS PUSH ST_MEM_FREEING; on "F" CHSS POP ST_MEM_FREEING];
   category "A"
     [on "r" CHSS PUSH ST_API_CREATE; on "R" CHSS POP ST_API_CREATE; on "d" CHSS PUSH ST_API_DESTROY;
      on "D" CHSS POP ST_API_DESTROY; on "s" CHSS PUSH ST_API_SUBMIT; on "S" CHSS POP ST_API_SUBMIT;
      on "p" CHSS PUSH ST_API_PAUSE; on "P" CHSS POP ST_API_PAUSE; on "y" CHSS PUSH ST_API_YIELD;
      on "Y" CHSS POP ST_API_YIELD; on "w" CHSS PUSH ST_API_WAITFOR; on "W" CHSS POP ST_API_WAITFOR;
      on "c" CHSS PUSH ST_API_SCHEDPOINT; on "C" CHSS POP ST_API_SCHEDPOINT;
      on "a" CHSS PUSH ST_API_ATTACH; on "A" CHSS POP ST_API_ATTACH; on "e" CHSS PUSH ST_API_DETACH;
      on "E" CHSS POP ST_API_DETACH; on "l" CHSS PUSH ST_API_MUTEX_LOCK;
      on "L" CHSS POP ST_API_MUTEX_LOCK; on "t" CHSS PUSH ST_API_MUTEX_TRYLOCK;
      on "T" CHSS POP ST_API_MUTEX_TRYLOCK; on "u" CHSS PUSH ST_API_MUTEX_UNLOCK;
      on "U" CHSS POP ST_API_MUTEX_UNLOCK; on "b" CHSS PUSH ST_API_BARRIER_WAIT;
      on "B" CHSS POP ST_API_BARRIER_WAIT; on "o" CHSS PUSH ST_API_COND_WAIT;
      on "O" CHSS POP ST_API_COND_WAIT; on "g" CHSS PUSH ST_API_COND_SIGNAL;
      on "G" CHSS POP ST_API_COND_SIGNAL; on "k" CHSS PUSH ST_API_COND_BCAST;
      on "K" CHSS POP ST_API_COND_BCAST];
   category "H"
     [on "a" CHSS IGN 0; on "A" CHSS IGN 0; on "w" CHSS PUSH ST_WORKER; on "W" CHSS POP ST_WORKER;
      on "d" CHSS PUSH ST_DELEGATE; on "D" CHSS POP ST_DELEGATE];
   category "P"
     [on "p" CH_IDLE SET ST_PROGRESSING; on "r" CH_IDLE SET ST_RESTING; on "a" CH_IDLE SET ST_ABSORBING]
  ].

Definition simple (x : ctx) : M heap unit := run_table "V" ss_table x.

(** [&EXT(emu->thread, 'V')->m.ch[i]]. *)
Definition nosv_ch (x : ctx) (i : nat) : addr := model_chan "V" (cx_thread x) i.

(** ** Tasks *)

Definition chan_body_stopped (x : ctx) : M heap unit :=
  chan_set (nosv_ch x CH_BODYID) value_null ;;;
  chan_set (nosv_ch x CH_TASKID) value_null ;;;
  chan_set (nosv_ch x CH_TYPE) value_null ;;;
  chan_set (nosv_ch x CH_APPID) value_null ;;;
  let* proc := load_proc (cx_proc x) in
  if 0 <=? proc_rank proc then chan_set (nosv_ch x CH_RANK) value_null else mret tt.

(** The writes that [chan_body_running] and [chan_body_switch] end with. *)
Definition show_body (x : ctx) (k : bref) (gid : Z) : M heap unit :=
  let* proc := load_proc (cx_proc x) in
  chan_set (nosv_ch x CH_BODYID) (value_int64 k.2) ;;;
  chan_set (nosv_ch x CH_TASKID) (value_int64 k.1) ;;;
  chan_set (nosv_ch x CH_TYPE) (value_int64 gid) ;;;
  chan_set (nosv_ch x CH_APPID) (value_int64 (proc_appid proc)) ;;;
  if 0 <=? proc_rank proc then chan_set (nosv_ch x CH_RANK) (value_int64 (proc_rank proc + 1)) else mret tt.

Definition chan_body_running (x : ctx) (body : option bref) : M heap unit :=
  let* k := deref body in
  let* ts := load_tasks "V" (cx_proc x) in
  let* task := deref (task_find ts k.1) in
  let* proc := load_proc (cx_proc x) in
  if k.1 =? 0 then mfail else
  let* gid := deref (task_gid ts task) in
  if gid =? 0 then mfail else
  if proc_appid proc <=? 0 then mfail else
  show_body x k gid.

Definition chan_body_switch (x : ctx) (bprev bnext : option bref) : M heap unit :=
  let* prev := found bprev in
  let* k := found bnext in
  if bool_decide (prev = k) then mfail else
  let* ts := load_tasks "V" (cx_proc x) in
  let* next := deref (task_find ts k.1) in
  if k.1 =? 0 then mfail else
  let* gid := deref (task_gid ts next) in
  if gid =? 0 then mfail else
  show_body x k gid.

Definition update_task_state (x : ctx) : M heap unit :=
  if ee_payload_size (cx_ev x) <? 4 then mfail else
  let* task_id := payload_u32 (cx_ev x) 0 in
  if ee_payload_size (cx_ev x) <? 8 then mfail else
  let* ts := load_tasks "V" (cx_proc x) in
  let* task := found (task_find ts task_id) in
  let* body_id := payload_u32 (cx_ev x) 1 in
  let* body_id :=
    (if task_is_parallel task then
       if body_id =? 0 then mfail else mret body_id
     else
       if negb (body_id =? 0) then mfail else mret 1) in
  change_task "V" x task_id body_id.

Definition update_task_channels (x : ctx) (tr : Z) (bprev bnext : option bref) : M heap unit :=
  if one_of tr "xr" then chan_body_running x bnext else
  if one_of tr "ep" then chan_body_stopped x else
  if one_of tr "XE" then chan_body_switch x bprev bnext else mfail.

Definition update_task (x : ctx) : M heap unit :=
  let* ts := load_tasks "V" (cx_proc x) in
  let prev := task_get_running (cx_thread x) ts in
  update_task_state x ;;;
  let* ts := load_tasks "V" (cx_proc x) in
  let next := task_get_running (cx_thread x) ts in
  update_task_ss_channel (nosv_ch x CH_SUBSYSTEM) ST_TASK_BODY (ee_v (cx_ev x)) ;;;
  let* tr := expand_transition_value (ee_v (cx_ev x)) (bool_decide (is_Some prev)) (bool_decide (is_Some next)) in
  update_task_channels x tr prev next ;;;
  enforce_task_rules "V" x (nosv_ch x CH_SUBSYSTEM) ST_TASK_BODY tr next.

Definition create_task (x : ctx) (value : Z) : M heap unit :=
  if ee_payload_size (cx_ev x) <? 8 then mfail else
  let* task_id := payload_u32 (cx_ev x) 0 in
  let* type_id := payload_u32 (cx_ev x) 1 in
  let flags := if is_ch value "C" then TASK_FLAG_PARALLEL else Z.lor TASK_FLAG_RESURRECT TASK_FLAG_PAUSE in
  on_tasks "V" (cx_proc x) (task_create type_id task_id flags).

Definition pre_task (x : ctx) : M heap unit :=
  let v := ee_v (cx_ev x) in
  if one_of v "Cc" then create_task x v else
  if one_of v "xerp" then update_task x else mfail.

(** ** Hardware counters (hwc.c) *)

(** [&EXT(emu->thread, 'V')->hwc.chan[i]]. *)
Definition hwc_chan (t i : nat) : addr := Addr (OwnHwc t) i.

(** The [n] 64-bit integers that [memcpy] takes from the payload. *)
Definition hwc_values_of (data : list Z) (n : nat) : option (list Z) :=
  mapM (fun i => i64 <$> get_u (8 * i) 8 data) (seq 0 n).

Definition event_hwc_count (x : ctx) : M heap unit :=
  let* h := mget in
  let n := hwc_n (h_hwc h) in
  if negb (ee_is_jumbo (cx_ev x)) then mfail else
  let* array_size := jumbo_size (cx_ev x) in
  if negb (array_size =? u64 (n * 8)) then mfail else
  let* p := deref (ee_payload (cx_ev x)) in
  let* values := deref (hwc_values_of (drop 4 p) (Z.to_nat n)) in
  mmod (set_h_hwc (fun e => mk_nosv_hwc_emu (hwc_name e) (hwc_n e) values)) ;;;
  for_each (fun iv => chan_set (hwc_chan (cx_thread x) iv.1) (value_int64 iv.2)) (imap pair values).

Definition hwc_event (x : ctx) : M heap unit :=
  let* h := mget in
  if hwc_n (h_hwc h) =? 0 then mfail else
  if is_ch (ee_v (cx_ev x)) "C" then event_hwc_count x else mfail.

(** ** Events *)

Definition process_ev (x : ctx) : M heap unit :=
  let* th := load_thread (cx_thread x) in
  if negb (t_is_active th) then mfail else
  if t_is_out_of_cpu th then mfail else
  let c := ee_c (cx_ev x) in
  if one_of c "SUMHAP" then simple x else
  if is_ch c "T" then pre_task x else
  if is_ch c "Y" then pre_type "V" x else
  if is_ch c "W" then hwc_event x else mfail.

Definition model_nosv_event (x : ctx) : M heap unit :=
  if negb (is_ch (ee_m (cx_ev x)) "V") then mfail else process_ev x.
