(* ===== verification/Nanos6.v ===== *)
(** * The Nanos6 model (src/emu/nanos6/event.c, nanos6_priv.h)

    A thread of Nanos6 shows its subsystem, its kind, its progress state and
    the task it runs.  Its tasks have one body and may start on top of a
    running one. *)

From Stdlib Require Import Ascii.
From S2P Require Import Prelude Chan Pcf Task Heap Bay Mux Thread Event OvniModel OvniCorrect Table TaskModel.

Definition CH_TASKID : nat := 0.
Definition CH_TYPE : nat := 1.
Definition CH_SUBSYSTEM : nat := 2.
Definition CH_RANK : nat := 3.
Definition CH_THREAD : nat := 4.
Definition CH_IDLE : nat := 5.
Definition CH_MAX : nat := 6.
Definition CHSS : nat := CH_SUBSYSTEM.
Definition CHTH : nat := CH_THREAD.

Inductive nanos6_ss_state :=
| ST_TASK_BODY | ST_UNKNOWN_SS | ST_TASK_CREATING | ST_TASK_SUBMIT | ST_TASK_SPAWNING | ST_TASK_FOR
| ST_SCHED_ADDING | ST_SCHED_PROCESSING | ST_SCHED_SERVING | ST_DEP_REG | ST_DEP_UNREG
| ST_BLK_TASKWAIT | ST_BLK_WAITFOR | ST_BLK_BLOCKING | ST_BLK_UNBLOCKING | ST_ALLOCATING | ST_FREEING
| ST_HANDLING_TASK | ST_WORKER_LOOP | ST_SWITCH_TO | ST_MIGRATE | ST_SUSPEND | ST_RESUME | ST_SPONGE
| EV_SCHED_RECV | EV_SCHED_SEND | EV_SCHED_SELF | EV_CPU_IDLE | EV_CPU_ACTIVE | EV_SIGNAL.

Definition nanos6_ss_state_Z (x : nanos6_ss_state) : Z :=
  match x with
  | ST_TASK_BODY => 1 | ST_UNKNOWN_SS => 2 | ST_TASK_CREATING => 3 | ST_TASK_SUBMIT => 4
  | ST_TASK_SPAWNING => 5 | ST_TASK_FOR => 6 | ST_SCHED_ADDING => 7 | ST_SCHED_PROCESSING => 8
  | ST_SCHED_SERVING => 9 | ST_DEP_REG => 10 | ST_DEP_UNREG => 11 | ST_BLK_TASKWAIT => 12
  | ST_BLK_WAITFOR => 13 | ST_BLK_BLOCKING => 14 | ST_BLK_UNBLOCKING => 15 | ST_ALLOCATING => 16
  | ST_FREEING => 17 | ST_HANDLING_TASK => 18 | ST_WORKER_LOOP => 19 | ST_SWITCH_TO => 20
  | ST_MIGRATE => 21 | ST_SUSPEND => 22 | ST_RESUME => 23 | ST_SPONGE => 24 | EV_SCHED_RECV => 60
  | EV_SCHED_SEND => 61 | EV_SCHED_SELF => 62 | EV_CPU_IDLE => 63 | EV_CPU_ACTIVE => 64
  | EV_SIGNAL => 65
  end.
Coercion nanos6_ss_state_Z : nanos6_ss_state >-> Z.

Inductive nanos6_thread_type :=
| ST_TH_LEADER | ST_TH_MAIN | ST_TH_WORKER | ST_TH_EXTERNAL.

Definition nanos6_thread_type_Z (x : nanos6_thread_type) : Z :=
  match x with
  | ST_TH_LEADER => 1 | ST_TH_MAIN => 2 | ST_TH_WORKER => 3 | ST_TH_EXTERNAL => 4
  end.
Coercion nanos6_thread_type_Z : nanos6_thread_type >-> Z.

Inductive nanos6_progress :=
| ST_PROGRESSING | ST_RESTING | ST_ABSORBING.

Definition nanos6_progress_Z (x : nanos6_progress) : Z :=
  match x with
  | ST_PROGRESSING => 100 | ST_RESTING => 101 | ST_ABSORBING => 102
  end.
Coercion nanos6_progress_Z : nanos6_progress >-> Z.

Definition ss_table : table :=
  [
   category "W"
     [on "[" CHSS PUSH ST_WORKER_LOOP; on "]" CHSS POP ST_WORKER_LOOP;
      on "t" CHSS PUSH ST_HANDLING_TASK; on "T" CHSS POP ST_HANDLING_TASK;
      on "w" CHSS PUSH ST_SWITCH_TO; on "W" CHSS POP ST_SWITCH_TO; on "m" CHSS PUSH ST_MIGRATE;
      on "M" CHSS POP ST_MIGRATE; on "s" CHSS PUSH ST_SUSPEND; on "S" CHSS POP ST_SUSPEND;
      on "r" CHSS PUSH ST_RESUME; on "R" CHSS POP ST_RESUME; on "g" CHSS PUSH ST_SPONGE;
      on "G" CHSS POP ST_SPONGE; on "*" CHSS IGN (-1)];
   category "P"
     [on "p" CH_IDLE SET ST_PROGRESSING; on "r" CH_IDLE SET ST_RESTING; on "a" CH_IDLE SET ST_ABSORBING];
   category "C"
     [on "[" CHSS PUSH ST_TASK_CREATING; on "]" CHSS POP ST_TASK_CREATING];
   category "U"
     [on "[" CHSS PUSH ST_TASK_SUBMIT; on "]" CHSS POP ST_TASK_SUBMIT];
   category "F"
     [on "[" CHSS PUSH ST_TASK_SPAWNING; on "]" CHSS POP ST_TASK_SPAWNING];
   category "O"
     [on "[" CHSS PUSH ST_TASK_FOR; on "]" CHSS POP ST_TASK_FOR];
   category "t"
     [on "[" CHSS IGN (-1); on "]" CHSS IGN (-1)];
   category "M"
     [on "a" CHSS PUSH ST_ALLOCATING; on "A" CHSS POP ST_ALLOCATING; on "f" CHSS PUSH ST_FREEING;
      on "F" CHSS POP ST_FREEING];
   category "D"
     [on "r" CHSS PUSH ST_DEP_REG; on "R" CHSS POP ST_DEP_REG; on "u" CHSS PUSH ST_DEP_UNREG;
      on "U" CHSS POP ST_DEP_UNREG];
   category "S"
     [on "[" CHSS PUSH ST_SCHED_SERVING; on "]" CHSS POP ST_SCHED_SERVING;
      on "a" CHSS PUSH ST_SCHED_ADDING; on "A" CHSS POP ST_SCHED_ADDING;
      on "p" CHSS PUSH ST_SCHED_PROCESSING; on "P" CHSS POP ST_SCHED_PROCESSING; on "@" CHSS IGN (-1);
      on "r" CHSS IGN (-1); on "s" CHSS IGN (-1)];
   category "B"
     [on "b" CHSS PUSH ST_BLK_BLOCKING; on "B" CHSS POP ST_BLK_BLOCKING;
      on "u" CHSS PUSH ST_BLK_UNBLOCKING; on "U" CHSS POP ST_BLK_UNBLOCKING;
      on "w" CHSS PUSH ST_BLK_TASKWAIT; on "W" CHSS POP ST_BLK_TASKWAIT;
      on "f" CHSS PUSH ST_BLK_WAITFOR; on "F" CHSS POP ST_BLK_WAITFOR];
   category "H"
     [on "e" CHTH PUSH ST_TH_EXTERNAL; on "E" CHTH POP ST_TH_EXTERNAL; on "w" CHTH PUSH ST_TH_WORKER;
      on "W" CHTH POP ST_TH_WORKER; on "l" CHTH PUSH ST_TH_LEADER; on "L" CHTH POP ST_TH_LEADER;
      on "m" CHTH PUSH ST_TH_MAIN; on "M" CHTH POP ST_TH_MAIN]
  ].

Definition simple (x : ctx) : M heap unit := run_table "6" ss_table x.

(** [&EXT(emu->thread, '6')->m.ch[i]]. *)
Definition nanos6_ch (x : ctx) (i : nat) : addr := model_chan "6" (cx_thread x) i.

(** ** Tasks *)

Definition chan_task_stopped (x : ctx) : M heap unit :=
  chan_set (nanos6_ch x CH_TASKID) value_null ;;;
  chan_set (nanos6_ch x CH_TYPE) value_null ;;;
  let* proc := load_proc (cx_proc x) in
  if 0 <=? proc_rank proc then chan_set (nanos6_ch x CH_RANK) value_null else mret tt.

(** The tests and writes that [chan_task_running] and [chan_task_switch] end
    with; a task is known by its identifier. *)
Definition show_task (x : ctx) (id : Z) : M heap unit :=
  let* ts := load_tasks "6" (cx_proc x) in
  let* task := deref (task_find ts id) in
  let* proc := load_proc (cx_proc x) in
  if id =? 0 then mfail else
  let* gid := deref (task_gid ts task) in
  if gid =? 0 then mfail else
  chan_set (nanos6_ch x CH_TASKID) (value_int64 id) ;;;
  chan_set (nanos6_ch x CH_TYPE) (value_int64 gid) ;;;
  if 0 <=? proc_rank proc then chan_set (nanos6_ch x CH_RANK) (value_int64 (proc_rank proc + 1)) else mret tt.

Definition chan_task_running (x : ctx) (task : option Z) : M heap unit :=
  let* id := deref task in
  show_task x id.

Definition chan_task_switch (x : ctx) (prev next : option Z) : M heap unit :=
  let* p := found prev in
  let* n := found next in
  if p =? n then mfail else
  show_task x n.

(** The body is always 1: Nanos6 has no parallel tasks. *)
Definition update_task_state (x : ctx) : M heap unit :=
  if ee_payload_size (cx_ev x) <? 4 then mfail else
  let* task_id := payload_u32 (cx_ev x) 0 in
  let* ts := load_tasks "6" (cx_proc x) in
  let* _ := found (task_find ts task_id) in
  change_task "6" x task_id 1.

Definition update_task_channels (x : ctx) (tr : Z) (prev next : option Z) : M heap unit :=
  if one_of tr "xr" then chan_task_running x next else
  if one_of tr "ep" then chan_task_stopped x else
  if one_of tr "XE" then chan_task_switch x prev next else mfail.

Definition update_task (x : ctx) : M heap unit :=
  let* ts := load_tasks "6" (cx_proc x) in
  let bprev := task_get_running (cx_thread x) ts in
  update_task_state x ;;;
  let* ts := load_tasks "6" (cx_proc x) in
  let bnext := task_get_running (cx_thread x) ts in
  update_task_ss_channel (nanos6_ch x CH_SUBSYSTEM) ST_TASK_BODY (ee_v (cx_ev x)) ;;;
  let* tr := expand_transition_value (ee_v (cx_ev x)) (bool_decide (is_Some bprev)) (bool_decide (is_Some bnext)) in
  update_task_channels x tr (fst <$> bprev) (fst <$> bnext) ;;;
  enforce_task_rules "6" x (nanos6_ch x CH_SUBSYSTEM) ST_TASK_BODY tr bnext.

Definition create_task (x : ctx) : M heap unit :=
  if negb (ee_payload_size (cx_ev x) =? 8) then mfail else
  let* task_id := payload_u32 (cx_ev x) 0 in
  let* type_id := payload_u32 (cx_ev x) 1 in
  let flags := Z.lor TASK_FLAG_PAUSE TASK_FLAG_RELAX_NESTING in
  on_tasks "6" (cx_proc x) (task_create type_id task_id flags).

Definition pre_task (x : ctx) : M heap unit :=
  let v := ee_v (cx_ev x) in
  if is_ch v "C" then mret tt else
  if is_ch v "c" then create_task x else
  if one_of v "xerp" then update_task x else mfail.

(** ** Events *)

Definition process_ev (x : ctx) : M heap unit :=
  let* th := load_thread (cx_thread x) in
  if negb (t_is_active th) then mfail else
  let c := ee_c (cx_ev x) in
  if one_of c "CSUFOtHDBWMP" then simple x else
  if is_ch c "T" then pre_task x else
  if is_ch c "Y" then pre_type "6" x else mfail.

Definition model_nanos6_event (x : ctx) : M heap unit :=
  if negb (is_ch (ee_m (cx_ev x)) "6") then mfail else process_ev x.
