(* ===== verification/Openmp.v ===== *)
(** * The OpenMP model (src/emu/openmp/event.c, openmp_priv.h)

    A thread of OpenMP shows its subsystem, the tasks it runs one on top of the
    other, and the labels of those tasks and of its worksharings. *)

From Stdlib Require Import Ascii.
From S2P Require Import Prelude Chan Pcf Task Heap Bay Mux Thread Event OvniModel OvniCorrect Table TaskModel.

Definition CH_SUBSYSTEM : nat := 0.
Definition CH_LABEL : nat := 1.
Definition CH_TASKID : nat := 2.
Definition CH_MAX : nat := 3.

Inductive openmp_function_values :=
| ST_BARRIER_FORK | ST_BARRIER_JOIN | ST_BARRIER_PLAIN | ST_BARRIER_SPIN_WAIT | ST_BARRIER_TASK
| ST_CRITICAL_ACQ | ST_CRITICAL_REL | ST_CRITICAL_SECTION | ST_WD_DISTRIBUTE | ST_WD_FOR_DYNAMIC_CHUNK
| ST_WD_FOR_DYNAMIC_INIT | ST_WD_FOR_STATIC | ST_WD_SECTION | ST_WD_SINGLE | ST_TASK_ALLOC
| ST_TASK_CHECK_DEPS | ST_TASK_DUP_ALLOC | ST_TASK_RELEASE_DEPS | ST_TASK_RUN | ST_TASK_RUN_IF0
| ST_TASK_SCHEDULE | ST_TASK_TASKGROUP | ST_TASK_TASKWAIT | ST_TASK_TASKWAIT_DEPS | ST_TASK_TASKYIELD
| ST_RT_ATTACHED | ST_RT_FORK_CALL | ST_RT_INIT | ST_RT_MICROTASK_INTERNAL | ST_RT_MICROTASK_USER
| ST_RT_WORKER_LOOP.

Definition openmp_function_values_Z (x : openmp_function_values) : Z :=
  match x with
  | ST_BARRIER_FORK => 1 | ST_BARRIER_JOIN => 2 | ST_BARRIER_PLAIN => 3 | ST_BARRIER_SPIN_WAIT => 4
  | ST_BARRIER_TASK => 5 | ST_CRITICAL_ACQ => 6 | ST_CRITICAL_REL => 7 | ST_CRITICAL_SECTION => 8
  | ST_WD_DISTRIBUTE => 9 | ST_WD_FOR_DYNAMIC_CHUNK => 10 | ST_WD_FOR_DYNAMIC_INIT => 11
  | ST_WD_FOR_STATIC => 12 | ST_WD_SECTION => 13 | ST_WD_SINGLE => 14 | ST_TASK_ALLOC => 15
  | ST_TASK_CHECK_DEPS => 16 | ST_TASK_DUP_ALLOC => 17 | ST_TASK_RELEASE_DEPS => 18 | ST_TASK_RUN => 19
  | ST_TASK_RUN_IF0 => 20 | ST_TASK_SCHEDULE => 21 | ST_TASK_TASKGROUP => 22 | ST_TASK_TASKWAIT => 23
  | ST_TASK_TASKWAIT_DEPS => 24 | ST_TASK_TASKYIELD => 25 | ST_RT_ATTACHED => 26
  | ST_RT_FORK_CALL => 27 | ST_RT_INIT => 28 | ST_RT_MICROTASK_INTERNAL => 29
  | ST_RT_MICROTASK_USER => 30 | ST_RT_WORKER_LOOP => 31
  end.
Coercion openmp_function_values_Z : openmp_function_values >-> Z.

Definition fn_table : table :=
  [
   category "B"
     [on "b" CH_SUBSYSTEM PUSH ST_BARRIER_PLAIN; on "B" CH_SUBSYSTEM POP ST_BARRIER_PLAIN;
      on "j" CH_SUBSYSTEM PUSH ST_BARRIER_JOIN; on "J" CH_SUBSYSTEM POP ST_BARRIER_JOIN;
      on "f" CH_SUBSYSTEM PUSH ST_BARRIER_FORK; on "F" CH_SUBSYSTEM POP ST_BARRIER_FORK;
      on "t" CH_SUBSYSTEM PUSH ST_BARRIER_TASK; on "T" CH_SUBSYSTEM POP ST_BARRIER_TASK;
      on "s" CH_SUBSYSTEM IGN ST_BARRIER_SPIN_WAIT; on "S" CH_SUBSYSTEM IGN ST_BARRIER_SPIN_WAIT];
   category "I"
     [on "a" CH_SUBSYSTEM PUSH ST_CRITICAL_ACQ; on "A" CH_SUBSYSTEM POP ST_CRITICAL_ACQ;
      on "r" CH_SUBSYSTEM PUSH ST_CRITICAL_REL; on "R" CH_SUBSYSTEM POP ST_CRITICAL_REL;
      on "[" CH_SUBSYSTEM PUSH ST_CRITICAL_SECTION; on "]" CH_SUBSYSTEM POP ST_CRITICAL_SECTION];
   category "W"
     [on "d" CH_SUBSYSTEM PUSH ST_WD_DISTRIBUTE; on "D" CH_SUBSYSTEM POP ST_WD_DISTRIBUTE;
      on "c" CH_SUBSYSTEM PUSH ST_WD_FOR_DYNAMIC_CHUNK;
      on "C" CH_SUBSYSTEM POP ST_WD_FOR_DYNAMIC_CHUNK; on "y" CH_SUBSYSTEM PUSH ST_WD_FOR_DYNAMIC_INIT;
      on "Y" CH_SUBSYSTEM POP ST_WD_FOR_DYNAMIC_INIT; on "s" CH_SUBSYSTEM PUSH ST_WD_FOR_STATIC;
      on "S" CH_SUBSYSTEM POP ST_WD_FOR_STATIC; on "e" CH_SUBSYSTEM PUSH ST_WD_SECTION;
      on "E" CH_SUBSYSTEM POP ST_WD_SECTION; on "i" CH_SUBSYSTEM PUSH ST_WD_SINGLE;
      on "I" CH_SUBSYSTEM POP ST_WD_SINGLE];
   category "T"
     [on "a" CH_SUBSYSTEM PUSH ST_TASK_ALLOC; on "A" CH_SUBSYSTEM POP ST_TASK_ALLOC;
      on "c" CH_SUBSYSTEM PUSH ST_TASK_CHECK_DEPS; on "C" CH_SUBSYSTEM POP ST_TASK_CHECK_DEPS;
      on "d" CH_SUBSYSTEM PUSH ST_TASK_DUP_ALLOC; on "D" CH_SUBSYSTEM POP ST_TASK_DUP_ALLOC;
      on "r" CH_SUBSYSTEM PUSH ST_TASK_RELEASE_DEPS; on "R" CH_SUBSYSTEM POP ST_TASK_RELEASE_DEPS;
      on "[" CH_SUBSYSTEM PUSH ST_TASK_RUN; on "]" CH_SUBSYSTEM POP ST_TASK_RUN;
      on "i" CH_SUBSYSTEM PUSH ST_TASK_RUN_IF0; on "I" CH_SUBSYSTEM POP ST_TASK_RUN_IF0;
      on "s" CH_SUBSYSTEM PUSH ST_TASK_SCHEDULE; on "S" CH_SUBSYSTEM POP ST_TASK_SCHEDULE;
      on "g" CH_SUBSYSTEM PUSH ST_TASK_TASKGROUP; on "G" CH_SUBSYSTEM POP ST_TASK_TASKGROUP;
      on "t" CH_SUBSYSTEM PUSH ST_TASK_TASKWAIT; on "T" CH_SUBSYSTEM POP ST_TASK_TASKWAIT;
      on "w" CH_SUBSYSTEM PUSH ST_TASK_TASKWAIT_DEPS; on "W" CH_SUBSYSTEM POP ST_TASK_TASKWAIT_DEPS;
      on "y" CH_SUBSYSTEM PUSH ST_TASK_TASKYIELD; on "Y" CH_SUBSYSTEM POP ST_TASK_TASKYIELD];
   category "A"
     [on "[" CH_SUBSYSTEM PUSH ST_RT_ATTACHED; on "]" CH_SUBSYSTEM POP ST_RT_ATTACHED];
   category "M"
     [on "i" CH_SUBSYSTEM PUSH ST_RT_MICROTASK_INTERNAL;
      on "I" CH_SUBSYSTEM POP ST_RT_MICROTASK_INTERNAL; on "u" CH_SUBSYSTEM PUSH ST_RT_MICROTASK_USER;
      on "U" CH_SUBSYSTEM POP ST_RT_MICROTASK_USER];
   category "H"
     [on "[" CH_SUBSYSTEM PUSH ST_RT_WORKER_LOOP; on "]" CH_SUBSYSTEM POP ST_RT_WORKER_LOOP];
   category "C"
     [on "i" CH_SUBSYSTEM PUSH ST_RT_INIT; on "I" CH_SUBSYSTEM POP ST_RT_INIT;
      on "f" CH_SUBSYSTEM PUSH ST_RT_FORK_CALL; on "F" CH_SUBSYSTEM POP ST_RT_FORK_CALL]
  ].

Definition simple (x : ctx) : M heap unit :=
  let* th := load_thread (cx_thread x) in
  if negb (t_is_running th) then mfail else
  run_table "P" fn_table x.

(** [&EXT(emu->thread, 'P')->m.ch[i]]. *)
Definition openmp_ch (x : ctx) (i : nat) : addr := model_chan "P" (cx_thread x) i.

(** ** Tasks and worksharings *)

Definition create_task (x : ctx) : M heap unit :=
  if negb (ee_payload_size (cx_ev x) =? 8) then mfail else
  let* taskid := payload_u32 (cx_ev x) 0 in
  let* typeid := payload_u32 (cx_ev x) 1 in
  if taskid =? 0 then mfail else
  if typeid =? 0 then mfail else
  let flags := Z.lor TASK_FLAG_RELAX_NESTING TASK_FLAG_RESURRECT in
  on_tasks "P" (cx_proc x) (task_create typeid taskid flags).

(** [task->type->gid] of the task looked up before. *)
Definition gid_of (x : ctx) (task : task) : M heap Z :=
  let* ts := load_tasks "P" (cx_proc x) in deref (task_gid ts task).

(** The body is always 1: OpenMP has no parallel tasks. *)
Definition update_task (x : ctx) : M heap unit :=
  if ee_payload_size (cx_ev x) <? 4 then mfail else
  let* taskid := payload_u32 (cx_ev x) 0 in
  if taskid =? 0 then mfail else
  let* ts := load_tasks "P" (cx_proc x) in
  let* task := found (task_find ts taskid) in
  if is_ch (ee_v (cx_ev x)) "x" then
    on_tasks "P" (cx_proc x) (task_execute (cx_thread x) taskid 1) ;;;
    chan_push (openmp_ch x CH_TASKID) (value_int64 taskid) ;;;
    let* gid := gid_of x task in
    chan_push (openmp_ch x CH_LABEL) (value_int64 gid)
  else if is_ch (ee_v (cx_ev x)) "e" then
    on_tasks "P" (cx_proc x) (task_end (cx_thread x) taskid 1) ;;;
    chan_pop (openmp_ch x CH_TASKID) (value_int64 taskid) ;;;
    let* gid := gid_of x task in
    chan_pop (openmp_ch x CH_LABEL) (value_int64 gid)
  else mfail.

Definition pre_task (x : ctx) : M heap unit :=
  let v := ee_v (cx_ev x) in
  if is_ch v "c" then create_task x else
  if one_of v "xe" then update_task x else mfail.

Definition update_ws_state (x : ctx) (action : Z) : M heap unit :=
  if ee_payload_size (cx_ev x) <? 4 then mfail else
  let* typeid := payload_u32 (cx_ev x) 0 in
  if typeid =? 0 then mfail else
  let* ts := load_tasks "P" (cx_proc x) in
  let* ttype := found (task_type_find ts typeid) in
  if is_ch action "x" then chan_push (openmp_ch x CH_LABEL) (value_int64 (tt_gid ttype))
  else chan_pop (openmp_ch x CH_LABEL) (value_int64 (tt_gid ttype)).

Definition pre_worksharing (x : ctx) : M heap unit :=
  let v := ee_v (cx_ev x) in
  if one_of v "xe" then update_ws_state x v else mfail.

(** ** Events *)

Definition process_ev (x : ctx) : M heap unit :=
  let* th := load_thread (cx_thread x) in
  if negb (t_is_running th) then mfail else
  let c := ee_c (cx_ev x) in
  if one_of c "BIWTAMHC" then simple x else
  if is_ch c "P" then pre_task x else
  if is_ch c "O" then pre_type "P" x else
  if is_ch c "Q" then pre_worksharing x else mfail.

Definition model_openmp_event (x : ctx) : M heap unit :=
  if negb (is_ch (ee_m (cx_ev x)) "P") then mfail else process_ev x.
