(* ===== verification/Declared.v ===== *)
(** * The events the models accept are declared (src/emu/*/event.c, src/emu/*/setup.c)

    The hook of a model and the list of its events are written apart.  Every
    event that a hook accepts is in the list, so that ovnidump can print it,
    with three exceptions that the hooks ignore on purpose. *)

From Stdlib Require Import Ascii.
From S2P Require Import Prelude Chan Heap Bay Mux Thread Event Cstr EvSpec EvSignature EvLists OvniModel Model.
From S2P Require Import OvniDemo.
From S2P Require Import Table Mpi Tampi Nodes Kernel TaskModel Nosv Nanos6 Openmp.

(** ** The codes a hook accepts *)

Definition code_of (x : ctx) (p : ascii * ascii) : bool := is_ch (ee_c (cx_ev x)) p.1 && is_ch (ee_v (cx_ev x)) p.2.

(** Whenever [hook] succeeds, the event is of the model [m] and its category and
    value are in [codes], or its category is in [any]. *)
Definition accepts (m : ascii) (codes : list (ascii * ascii)) (any : string) (hook : ctx -> M heap unit) : Prop :=
  forall x h h', hook x h = (Ok tt, h') ->
  is_ch (ee_m (cx_ev x)) m = true /\ (existsb (code_of x) codes = true \/ one_of (ee_c (cx_ev x)) any = true).

Definition table_codes (t : table) : list (ascii * ascii) := map (fun q => (q.1.1, q.1.2)) (entries t).

Lemma at_char_in {A} x (l : list (ascii * A)) a : at_char x l = Some a -> exists c, (c, a) ∈ l /\ is_ch x c = true.
Proof.
  induction l as [|[c b] l IH]; simpl; [done|]. destruct (is_ch x c) eqn:E.
  - intros [= ->]. exists c. split; [apply list_elem_of_here|done].
  - intros H. destruct (IH H) as (c' & ? & ?). exists c'. split; [by apply list_elem_of_further|done].
Qed.

Lemma existsb_elem {A} (f : A -> bool) x l : x ∈ l -> f x = true -> existsb f l = true.
Proof. intros. apply existsb_exists. exists x. by rewrite <-list_elem_of_In. Qed.

Lemma run_table_code m t x h h' : run_table m t x h = (Ok tt, h') -> existsb (code_of x) (table_codes t) = true.
Proof.
  unfold run_table, table_get. intros H. destruct (at_char (ee_c (cx_ev x)) t) as [l|] eqn:Ec; [|done].
  simpl in H. destruct (at_char (ee_v (cx_ev x)) l) as [e|] eqn:Ev; [|done].
  apply at_char_in in Ec as (c & Hc & Ic). apply at_char_in in Ev as (v & Hv & Iv).
  apply (existsb_elem _ (c, v)); [|unfold code_of; simpl; by rewrite Ic, Iv].
  apply list_elem_of_fmap. exists (c, v, e). split; [done|]. unfold entries. apply list_elem_of_bind.
  exists (c, l). split; [|done]. apply list_elem_of_fmap. by exists (v, e).
Qed.

(** A code of one category with one of some values. *)
Definition codes_of (c : ascii) (vs : list ascii) : list (ascii * ascii) := map (pair c) vs.

Lemma code_in (x : ctx) (c : ascii) vs v :
  is_ch (ee_c (cx_ev x)) c = true -> v ∈ vs -> is_ch (ee_v (cx_ev x)) v = true -> existsb (code_of x) (codes_of c vs) = true.
Proof.
  intros Hc Hv Hx. apply (existsb_elem _ (c, v)); [by apply list_elem_of_fmap; exists v|].
  unfold code_of. simpl. by rewrite Hc, Hx.
Qed.

Fixpoint chars (s : string) : list ascii := match s with EmptyString => [] | String c s' => c :: chars s' end.

Lemma one_of_in x cs : one_of x cs = true -> exists c, c ∈ chars cs /\ is_ch x c = true.
Proof.
  induction cs as [|c cs IH]; simpl; [done|]. intros [H|H]%orb_true_iff.
  - exists c. split; [apply list_elem_of_here|done].
  - destruct (IH H) as (c' & ? & ?). exists c'. split; [by apply list_elem_of_further|done].
Qed.

(** ** The hooks *)

Ltac branch H :=
  match type of H with
  | (if ?b then _ else _) _ = (Ok _, _) => let E := fresh "E" in destruct b eqn:E; try discriminate H
  | mbind (load_thread _) _ _ = (Ok _, _) => let th := fresh "th" in apply mbind_Ok in H as (th & ? & _ & H)
  end.

(** Codes of a table and of some categories apart. *)
Lemma accepts_table x t codes : existsb (code_of x) (table_codes t) = true -> existsb (code_of x) (table_codes t ++ codes) = true.
Proof. intros H. by rewrite existsb_app, H. Qed.
Lemma accepts_apart x t c vs codes codes' v :
  is_ch (ee_c (cx_ev x)) c = true -> is_ch (ee_v (cx_ev x)) v = true -> v ∈ vs ->
  existsb (code_of x) (table_codes t ++ codes ++ codes_of c vs ++ codes') = true.
Proof.
  intros Hc Hv Hin. rewrite !existsb_app, (code_in x c vs v Hc Hin Hv). by rewrite !orb_true_r.
Qed.

Lemma accepts_pure_table m t hook :
  (forall x h h', hook x h = (Ok tt, h') -> is_ch (ee_m (cx_ev x)) m = true /\ run_table m t x h = (Ok tt, h')) ->
  accepts m (table_codes t) EmptyString hook.
Proof.
  intros Hh x h h' H. destruct (Hh x h h' H) as [Hm Ht]. split; [done|]. left. by eapply run_table_code.
Qed.

Ltac hook_model H := let E := fresh "E" in
  match type of H with
  | (if negb ?b then _ else _) _ = (Ok _, _) => destruct b eqn:E; [|discriminate H]; split; [reflexivity|]; change (negb true) with false in H; cbv iota in H
  end.

Lemma mpi_accepts : accepts "M" (table_codes Mpi.fn_table) EmptyString model_mpi_event.
Proof.
  apply accepts_pure_table. intros x h h' H. split; [|by apply model_mpi_event_table].
  unfold model_mpi_event in H. by destruct (is_ch (ee_m (cx_ev x)) "M").
Qed.
Lemma tampi_accepts : accepts "T" (table_codes Tampi.ss_table) EmptyString model_tampi_event.
Proof.
  apply accepts_pure_table. intros x h h' H. split; [|by apply model_tampi_event_table].
  unfold model_tampi_event in H. by destruct (is_ch (ee_m (cx_ev x)) "T").
Qed.
Lemma nodes_accepts : accepts "D" (table_codes Nodes.ss_table) EmptyString model_nodes_event.
Proof.
  apply accepts_pure_table. intros x h h' H. split; [|by apply model_nodes_event_table].
  unfold model_nodes_event in H. by destruct (is_ch (ee_m (cx_ev x)) "D").
Qed.

Lemma kernel_accepts : accepts "K" (codes_of "C" ["O"; "I"]%char) EmptyString model_kernel_event.
Proof.
  intros x h h' H. unfold model_kernel_event in H. hook_model H. left.
  unfold Kernel.process_ev in H. branch H. unfold context_switch in H.
  destruct (is_ch (ee_v (cx_ev x)) "O") eqn:EO; [by apply (code_in x "C" _ "O"); [|apply list_elem_of_here|]|].
  destruct (is_ch (ee_v (cx_ev x)) "I") eqn:EI; [|done].
  by apply (code_in x "C" _ "I"); [|apply list_elem_of_further, list_elem_of_here|].
Qed.

Lemma xtasks_accepts : accepts "X" (codes_of "s" ["e"%char]) EmptyString model_xtasks_event.
Proof.
  intros x h h' H. unfold model_xtasks_event in H. hook_model H. left.
  unfold process_xtasks_ev in H. branch H. unfold event_s in H. branch H.
  destruct (is_ch (ee_v (cx_ev x)) "e") eqn:Ev; [|done]. by apply (code_in x "s" _ "e"); [|apply list_elem_of_here|].
Qed.

(** [pre_type] needs the value [c]. *)
Lemma pre_type_code m x h h' : pre_type m x h = (Ok tt, h') -> is_ch (ee_v (cx_ev x)) "c" = true.
Proof. unfold pre_type. by destruct (is_ch (ee_v (cx_ev x)) "c"). Qed.

Definition nosv_task_values : list ascii := ["C"; "c"; "x"; "e"; "r"; "p"]%char.
Definition nosv_codes : list (ascii * ascii) :=
  table_codes Nosv.ss_table ++ codes_of "T" nosv_task_values ++ codes_of "Y" ["c"%char] ++ codes_of "W" ["C"%char].

Lemma nosv_task_code x h h' : Nosv.pre_task x h = (Ok tt, h') -> exists v, v ∈ nosv_task_values /\ is_ch (ee_v (cx_ev x)) v = true.
Proof.
  unfold Nosv.pre_task. intros H. destruct (one_of _ "Cc") eqn:E1; [|destruct (one_of _ "xerp") eqn:E2; [|done]].
  1: apply one_of_in in E1 as (v & Hv & ?). 2: apply one_of_in in E2 as (v & Hv & ?).
  all: exists v; split; [|done]; simpl in Hv; set_solver.
Qed.

Lemma nosv_accepts : accepts "V" nosv_codes EmptyString model_nosv_event.
Proof.
  intros x h h' H. unfold model_nosv_event in H. hook_model H. left.
  unfold Nosv.process_ev in H. do 3 branch H. unfold nosv_codes. destruct (one_of _ "SUMHAP").
  { by apply accepts_table; eapply run_table_code. }
  branch H.
  { apply nosv_task_code in H as (v & Hin & Hv). by apply (accepts_apart _ _ _ _ [] _ v). }
  branch H.
  { apply pre_type_code in H. by apply (accepts_apart _ _ _ _ (codes_of "T" nosv_task_values) _ "c"); [| |apply list_elem_of_here]. }
  branch H.
  unfold hwc_event in H. apply mbind_Ok in H as (h1 & ? & _ & H). branch H. branch H.
  rewrite !existsb_app. rewrite (code_in x "W" ["C"%char] "C") by (try done; apply list_elem_of_here). by rewrite !orb_true_r.
Qed.

Definition nanos6_task_values : list ascii := ["C"; "c"; "x"; "e"; "r"; "p"]%char.
Definition nanos6_codes : list (ascii * ascii) :=
  table_codes Nanos6.ss_table ++ codes_of "T" nanos6_task_values ++ codes_of "Y" ["c"%char] ++ [].

Lemma nanos6_accepts : accepts "6" nanos6_codes EmptyString model_nanos6_event.
Proof.
  intros x h h' H. unfold model_nanos6_event in H. hook_model H. left.
  unfold Nanos6.process_ev in H. do 2 branch H. unfold nanos6_codes. destruct (one_of _ "CSUFOtHDBWMP").
  { by apply accepts_table; eapply run_table_code. }
  branch H.
  { assert (exists v, v ∈ nanos6_task_values /\ is_ch (ee_v (cx_ev x)) v = true) as (v & Hin & Hv).
    { unfold Nanos6.pre_task in H. destruct (is_ch _ "C") eqn:Ev1; [exists "C"%char; split; [apply list_elem_of_here|done]|].
      destruct (is_ch _ "c") eqn:Ev2; [exists "c"%char; split; [apply list_elem_of_further, list_elem_of_here|done]|].
      destruct (one_of _ "xerp") eqn:Ev3; [|done]. apply one_of_in in Ev3 as (v & Hv & ?).
      exists v. split; [|done]. simpl in Hv. set_solver. }
    by apply (accepts_apart _ _ _ _ [] _ v). }
  branch H. apply pre_type_code in H.
  by apply (accepts_apart _ _ _ _ (codes_of "T" nanos6_task_values) _ "c"); [| |apply list_elem_of_here].
Qed.

Definition openmp_codes : list (ascii * ascii) :=
  table_codes Openmp.fn_table ++ codes_of "P" ["c"; "x"; "e"]%char ++ codes_of "O" ["c"%char] ++ codes_of "Q" ["x"; "e"]%char ++ [].

Lemma openmp_accepts : accepts "P" openmp_codes EmptyString model_openmp_event.
Proof.
  intros x h h' H. unfold model_openmp_event in H. hook_model H. left.
  unfold Openmp.process_ev in H. do 2 branch H. unfold openmp_codes. destruct (one_of _ "BIWTAMHC").
  { unfold Openmp.simple in H. do 2 branch H. by apply accepts_table; eapply run_table_code. }
  branch H.
  { assert (exists v, v ∈ ["c"; "x"; "e"]%char /\ is_ch (ee_v (cx_ev x)) v = true) as (v & Hin & Hv).
    { unfold Openmp.pre_task in H. destruct (is_ch _ "c") eqn:Ev2; [exists "c"%char; split; [apply list_elem_of_here|done]|].
      destruct (one_of _ "xe") eqn:Ev3; [|done]. apply one_of_in in Ev3 as (v & Hv & ?).
      exists v. split; [|done]. simpl in Hv. set_solver. }
    by apply (accepts_apart _ _ _ _ [] _ v). }
  branch H.
  { apply pre_type_code in H. by apply (accepts_apart _ _ _ _ (codes_of "P" ["c"; "x"; "e"]%char) _ "c"); [| |apply list_elem_of_here]. }
  branch H. unfold pre_worksharing in H. branch H.
  match goal with E : one_of _ "xe" = true |- _ => apply one_of_in in E as (v & Hv & ?) end.
  assert (existsb (code_of x) (codes_of "Q" ["x"; "e"]%char) = true) as Hq by by apply (code_in x "Q" _ v).
  rewrite !existsb_app, Hq. by rewrite !orb_true_r.
Qed.

Definition ovni_thread_values : list ascii := ["C"; "x"; "e"; "p"; "r"; "c"; "w"]%char.
Definition ovni_codes : list (ascii * ascii) :=
  codes_of "H" ovni_thread_values ++ codes_of "A" ["s"; "r"]%char ++ codes_of "C" ["n"%char] ++
  codes_of "F" ["["; "]"]%char ++ codes_of "M" ["["; "]"; "="]%char.

(** The value tested last, when the others are not it. *)
Ltac by_value H :=
  repeat match type of H with
  | (if is_ch (ee_v (cx_ev ?x)) ?v then _ else _) _ = (Ok _, _) =>
      let E := fresh "Ev" in destruct (is_ch (ee_v (cx_ev x)) v) eqn:E;
      [exists v; split; [simpl; set_solver|exact E]|]
  end; discriminate H.

Lemma pre_thread_value x h h' : pre_thread x h = (Ok tt, h') -> exists v, v ∈ ovni_thread_values /\ is_ch (ee_v (cx_ev x)) v = true.
Proof. unfold pre_thread, ovni_thread_values. intros H. by_value H. Qed.
Lemma pre_affinity_value x h h' : pre_affinity x h = (Ok tt, h') -> exists v, v ∈ ["s"; "r"]%char /\ is_ch (ee_v (cx_ev x)) v = true.
Proof. unfold pre_affinity. intros H. by_value H. Qed.
Lemma pre_cpu_value x h h' : pre_cpu x h = (Ok tt, h') -> exists v, v ∈ ["n"%char] /\ is_ch (ee_v (cx_ev x)) v = true.
Proof. unfold pre_cpu. intros H. by_value H. Qed.
Lemma pre_flush_value x h h' : pre_flush x h = (Ok tt, h') -> exists v, v ∈ ["["; "]"]%char /\ is_ch (ee_v (cx_ev x)) v = true.
Proof. unfold pre_flush. intros H. apply mbind_Ok in H as (o & h1 & _ & H). by_value H. Qed.
Lemma mark_event_value x h h' : mark_event x h = (Ok tt, h') -> exists v, v ∈ ["["; "]"; "="]%char /\ is_ch (ee_v (cx_ev x)) v = true.
Proof.
  unfold mark_event. intros H. branch H. do 4 (apply mbind_Ok in H as (? & ? & _ & H)). branch H. by_value H.
Qed.

(** A value of [vs] in the category [c] is among [codes]. *)
Lemma value_code x c vs codes v :
  is_ch (ee_c (cx_ev x)) c = true -> v ∈ vs -> is_ch (ee_v (cx_ev x)) v = true ->
  (existsb (code_of x) (codes_of c vs) = true -> existsb (code_of x) codes = true) -> existsb (code_of x) codes = true.
Proof. intros Hc Hin Hv K. apply K. by apply (code_in x c vs v). Qed.

Lemma ovni_accepts : accepts "O" ovni_codes "BU" model_ovni_event.
Proof.
  intros x h h' H. unfold model_ovni_event in H. hook_model H. do 2 branch H. unfold ovni_codes.
  branch H; [|branch H; [|branch H; [|branch H; [|branch H; [|branch H; [|branch H]]]]]].
  3, 6: right; simpl; match goal with E : is_ch _ _ = true |- _ => by rewrite E, ?orb_true_r end.
  1: apply pre_thread_value in H as (v & Hin & Hv). 2: apply pre_affinity_value in H as (v & Hin & Hv).
  3: apply pre_cpu_value in H as (v & Hin & Hv). 4: apply pre_flush_value in H as (v & Hin & Hv).
  5: apply mark_event_value in H as (v & Hin & Hv).
  all: left; eapply value_code; [eassumption|exact Hin|exact Hv|intros K; rewrite !existsb_app, K; by rewrite ?orb_true_r].
Qed.

(** ** The hooks and the lists together *)

(** The model, its list, its hook, and the codes the hook accepts. *)
Definition hooks : list (ascii * list ev_decl * (ctx -> M heap unit) * list (ascii * ascii) * string) :=
  [("O"%char, ovni_evlist, model_ovni_event, ovni_codes, "BU"%string);
   ("6"%char, nanos6_evlist, model_nanos6_event, nanos6_codes, EmptyString);
   ("V"%char, nosv_evlist, model_nosv_event, nosv_codes, EmptyString);
   ("D"%char, nodes_evlist, model_nodes_event, table_codes Nodes.ss_table, EmptyString);
   ("T"%char, tampi_evlist, model_tampi_event, table_codes Tampi.ss_table, EmptyString);
   ("M"%char, mpi_evlist, model_mpi_event, table_codes Mpi.fn_table, EmptyString);
   ("K"%char, kernel_evlist, model_kernel_event, codes_of "C" ["O"; "I"]%char, EmptyString);
   ("P"%char, openmp_evlist, model_openmp_event, openmp_codes, EmptyString);
   ("X"%char, xtasks_evlist, model_xtasks_event, codes_of "s" ["e"%char], EmptyString)].

Lemma hooks_accept : Forall (fun p => accepts p.1.1.1.1 p.1.2 p.2 p.1.1.2) hooks.
Proof.
  unfold hooks. apply list.Forall_cons; split; [apply ovni_accepts|].
  apply list.Forall_cons; split; [apply nanos6_accepts|].
  apply list.Forall_cons; split; [apply nosv_accepts|].
  apply list.Forall_cons; split; [apply nodes_accepts|].
  apply list.Forall_cons; split; [apply tampi_accepts|].
  apply list.Forall_cons; split; [apply mpi_accepts|].
  apply list.Forall_cons; split; [apply kernel_accepts|].
  apply list.Forall_cons; split; [apply openmp_accepts|].
  apply list.Forall_cons; split; [apply xtasks_accepts|constructor].
Qed.

(** The events that a hook takes and ignores though they are not declared: every
    burst and every sorting mark, whatever their value, and the blocks of
    tasks that old versions of Nanos6 recorded. *)
Definition tolerated (ev : emu_ev) : bool :=
  (is_ch (ee_m ev) "O" && one_of (ee_c ev) "BU") ||
  (is_ch (ee_m ev) "6" && is_ch (ee_c ev) "T" && is_ch (ee_v ev) "C").

Definition declared_code (evspec : model_evspec) (m : ascii) (p : ascii * ascii) : bool :=
  bool_decide (is_Some (model_evspec_find evspec (default EmptyString (c_string [ch m; ch p.1; ch p.2; 0])))) ||
  bool_decide ((m, p) = ("6", ("T", "C"))%char).

Lemma hooks_declared :
  forallb (fun q => match model_evspec_init (ch q.1.1) q.1.2 with
    | Ok evspec => forallb (declared_code evspec q.1.1) q.2
    | _ => false end)
    (map (fun p => (p.1.1.1.1, p.1.1.1.2, p.1.2)) hooks) = true.
Proof. vm_compute. reflexivity. Qed.

(** The emulator accepts no event that its model does not declare, but the
    three that the hooks tolerate: an event that a hook handles without error
    is in the table of its model, where ovnidump finds its description. *)
Lemma accepted_events_declared model evlist hook codes any evspec x h h' :
  (model, evlist, hook, codes, any) ∈ hooks -> model_evspec_init (ch model) evlist = Ok evspec ->
  hook x h = (Ok tt, h') ->
  is_Some (model_evspec_find evspec (ev_mcv (cx_ev x))) \/ tolerated (cx_ev x) = true.
Proof.
  intros Hin E H. pose proof hooks_accept as Ha. rewrite list.Forall_forall in Ha. specialize (Ha _ Hin).
  destruct (Ha x h h' H) as [Hm Hc]. cbn [fst snd] in *. clear Ha.
  assert (any = EmptyString \/ (any = "BU"%string /\ model = "O"%char)) as Hany.
  { clear - Hin. unfold hooks in Hin. rewrite !elem_of_cons in Hin.
    repeat (destruct Hin as [Hin|Hin]; [injection Hin; intros; subst; auto|]). by apply elem_of_nil in Hin. }
  unfold tolerated. destruct Hc as [Hc|Hc].
  2: { destruct Hany as [->|[-> ->]]; [done|]. right. by rewrite Hm, Hc. }
  apply existsb_exists in Hc as ([c v] & Hcv & Hcode). unfold code_of in Hcode. simpl in Hcode.
  apply andb_true_iff in Hcode as [Hc Hv].
  pose proof hooks_declared as D. rewrite forallb_forall in D.
  specialize (D (model, evlist, codes)). cbn [fst snd] in D. rewrite E in D.
  assert (forallb (declared_code evspec model) codes = true) as D'.
  { apply D. apply in_map_iff. exists (model, evlist, hook, codes, any). split; [done|]. by apply list_elem_of_In. }
  rewrite forallb_forall in D'. specialize (D' _ Hcv). unfold declared_code in D'. simpl in D'.
  apply orb_true_iff in D' as [D'|D'].
  - left. apply bool_decide_eq_true in D'. unfold ev_mcv. unfold is_ch in Hm, Hc, Hv.
    apply Z.eqb_eq in Hm, Hc, Hv. by rewrite Hm, Hc, Hv.
  - right. apply bool_decide_eq_true in D'. injection D' as -> -> ->. by rewrite Hm, Hc, Hv, orb_true_r.
Qed.

Lemma accepted_events_declared_witness :
  exists evspec, model_evspec_init (ch "O") ovni_evlist = Ok evspec /\
  (is_Some (model_evspec_find evspec (ev_mcv (cx_ev OvniDemo.demo_execute))) \/ tolerated (cx_ev OvniDemo.demo_execute) = true).
Proof.
  eexists. split; [vm_compute; reflexivity|].
  apply (accepted_events_declared "O" ovni_evlist model_ovni_event ovni_codes "BU" _ _ OvniDemo.demo_sys OvniDemo.demo_running).
  - apply list_elem_of_here.
  - vm_compute. reflexivity.
  - apply run_eta. vm_compute. reflexivity.
Defined.
