(* ===== verification/EvTools.v ===== *)
(** * Listing and dumping events (src/emu/ovnievents.c, src/emu/ovnidump.c)

    What the two tools print for an event: the entry of the manual, encoded in
    HTML, and the line of the dump. *)

From Stdlib Require Import Ascii.
From S2P Require Import Prelude Event Cstr EvSpec EvSpecCorrect EvLists EvPrint Model.

(** ** ovnievents *)

Definition html_char (c : ascii) : string :=
  if bool_decide (c = "&"%char) then "&amp;"
  else if bool_decide (c = quote) then "&quot;"
  else if bool_decide (c = "'"%char) then "&apos;"
  else if bool_decide (c = "<"%char) then "&lt;"
  else if bool_decide (c = ">"%char) then "&gt;"
  else String c EmptyString.

(** [html_encode(dst, ndst, src)] from the position [j] of [dst]: what it writes there. *)
Fixpoint html_loop (ndst j : Z) (src : string) : option string :=
  match src with
  | EmptyString => Some EmptyString
  | String c src' =>
      if ndst <=? j + 10 then None else
      rest ← html_loop ndst (j + slen (html_char c)) src';
      Some (html_char c ++ rest)%string
  end.
Definition html_encode (ndst : Z) (src : string) : option string := html_loop ndst 0 src.

Definition newline : string := String (byte_char 10) EmptyString.
Definition in_quotes (s : string) : string := String quote (s ++ String quote EmptyString).

Definition print_event (decl : ev_decl) (spec : ev_spec) : option string :=
  name ← html_encode 16 (es_mcv spec);
  signature ← html_encode 1024 (ed_signature decl);
  desc ← html_encode 1024 (ed_description decl);
  Some ("<dt><a id=" ++ in_quotes name ++ " href=" ++ in_quotes (String "#" name) ++ "><pre>" ++ signature ++
    "</pre></a></dt>" ++ newline ++ "<dd>" ++ desc ++ "</dd>" ++ newline)%string.

(** The list between [<dl>] and [</dl>] of [print_model]. *)
Fixpoint print_events (l : list (ev_decl * ev_spec)) : option string :=
  match l with
  | [] => Some EmptyString
  | (decl, spec) :: l' =>
      text ← print_event decl spec;
      rest ← print_events l';
      Some (text ++ rest)%string
  end.

Lemma html_char_short c : 1 <= slen (html_char c) <= 6.
Proof. unfold html_char. repeat case_bool_decide; unfold slen; cbn [String.length]; lia. Qed.

Lemma html_loop_fits ndst j src text : j < ndst -> html_loop ndst j src = Some text -> j + slen text < ndst.
Proof.
  revert j text. induction src as [|c src IH]; intros j text Hj; simpl.
  { intros [= <-]. change (slen EmptyString) with 0. lia. }
  destruct (Z.leb_spec ndst (j + 10)); [done|]. pose proof (html_char_short c).
  destruct (html_loop _ _ src) as [rest|] eqn:E; [|done]. intros [= <-]. apply IH in E; [|lia].
  rewrite slen_app. lia.
Qed.

(** The encoded text and its nul are in the buffer. *)
Lemma html_encode_fits ndst src text : 0 < ndst -> html_encode ndst src = Some text -> slen text < ndst.
Proof. intros Hn H. pose proof (html_loop_fits ndst 0 src text Hn H). lia. Qed.

(** Every declared event is listed. *)
Lemma declared_events_listed :
  forallb (fun p => match model_evspec_init (ch p.1) p.2 with
    | Ok e => bool_decide (is_Some (print_events (combine p.2 (mev_alloc e))))
    | _ => false end) all_evlists = true.
Proof. vm_compute. reflexivity. Qed.

(** ** ovnidump *)

Definition two_digits (b : Z) : string :=
  let t := number false 16 b in if slen t <? 2 then String "0" t else t.

(** The bytes of the payload in hexadecimal. *)
Definition hex_bytes (bytes : list Z) : string := foldr (fun b s => (":" ++ two_digits b ++ s)%string) EmptyString bytes.

Definition hex_payload (ev : emu_ev) : outcome string :=
  if ee_has_payload ev then
    match ee_payload ev ≫= get_bytes 0 (Z.to_nat (ee_payload_size ev)) with
    | Some bytes => Ok (hex_bytes bytes)
    | None => Ub
    end
  else Ok EmptyString.

Definition c_char (b : Z) : string := String (byte_char b) EmptyString.

(** [emit]: the line of an event; an event that cannot be decoded is unknown. *)
Definition dump_emit {S} (hex_mode : bool) (md : model S) (ev : emu_ev) (relpath : string) : outcome string :=
  match (if hex_mode then hex_payload ev else
    match model_event_print md ev 1024 with Err => Ok "UNKNOWN"%string | r => r end) with
  | Ok text =>
      Ok (signed_text no_flags 10 (ee_rclock ev) ++ "  " ++ c_char (ee_m ev) ++ c_char (ee_c ev) ++ c_char (ee_v ev) ++
        "  " ++ relpath ++ "  " ++ text ++ newline)%string
  | r => r
  end.
