(* ===== verification/Hooks.v ===== *)
(** * The models keep the system coherent

    Every model is a hook the emulator may run (Emu.v): none of them but the
    ovni model moves a thread, and none writes the channels of threads and
    CPUs.  With this the theorems of Emu.v hold for a registry of all the
    models. *)

From Stdlib Require Import Ascii.
From S2P Require Import Prelude Chan Pcf Task Heap Bay Mux Sort Prv Dispatch Thread Loom Event OvniModel OvniCorrect.
From S2P Require Import Coherence Model Emu Table TaskModel Nosv Nanos6 Openmp Kernel Mpi Tampi Nodes.

(** ** Computations outside the system *)

Lemma outside_model m t i : outside (model_chan m t i).
Proof. split; by intros ? [=]. Qed.
Lemma outside_hwc t i : outside (hwc_chan t i).
Proof. split; by intros ? [=]. Qed.

Section Co.
Variable X : gmap nat thread.

Lemma on_tasks_coherent {A} m p (op : M tasks A) : keeps_ok (coherent_at X) (on_tasks m p op).
Proof.
  intros h a h' Hco E. unfold on_tasks in E. destruct (h_tasks h !! (ch m, p)) as [ts|]; [|discriminate].
  destruct (op ts) as [r ts']. injection E as _ <-. by apply (coherent_ext _ h).
Qed.

Lemma run_entry_coherent m t e : keeps_ok (coherent_at X) (run_entry m t e).
Proof.
  destruct e as [[[i []] st]|]; simpl.
  - apply (run_op_coherent X (OpPush _)), outside_model.
  - apply (run_op_coherent X (OpPop _)), outside_model.
  - apply chan_set_coherent, outside_model.
  - quiet_step.
  - quiet_step.
Qed.

Lemma for_each_coherent {A} (f : A -> M heap unit) l :
  (forall a, keeps_ok (coherent_at X) (f a)) -> keeps_ok (coherent_at X) (for_each f l).
Proof. intros Hf. induction l as [|a l IH]; simpl; [quiet_step|]. by co_bind. Qed.
End Co.

Ltac co_tac :=
  repeat first
    [ co_bind | quiet_step | solve [apply on_tasks_coherent] | solve [apply run_entry_coherent]
    | solve [apply chan_set_coherent; apply outside_model] | solve [apply chan_set_coherent; apply outside_hwc]
    | solve [apply (run_op_coherent _ (OpPush _)); apply outside_model]
    | solve [apply (run_op_coherent _ (OpPop _)); apply outside_model]
    | solve [by apply coherent_mod]
    | lazymatch goal with |- keeps_ok _ (match _ with _ => _ end) => case_match end
    | lazymatch goal with |- keeps_ok _ (if _ then _ else _) => case_match end
    | lazymatch goal with |- keeps_ok _ (for_each _ _) => apply for_each_coherent; intros ? end ].

(** A hook that changes no thread. *)
Lemma hook_outside (hook : ctx -> M heap unit) :
  (forall X x, keeps_ok (coherent_at X) (hook x)) -> EventHook hook.
Proof.
  intros K. split. intros x h h' Hco E.
  destruct (K (h_thread h) x h tt h' (coherent_at_self h Hco) E) as [H' T'].
  split; [done|]. left. unfold abs. by rewrite T'.
Qed.

(** The event hooks with their handlers unfolded. *)
Ltac open_nosv := unfold model_nosv_event, Nosv.process_ev, Nosv.simple, run_table, Nosv.pre_task, pre_type,
  hwc_event, event_hwc_count, Nosv.create_task, Nosv.update_task, Nosv.update_task_state, change_task,
  update_task_ss_channel, expand_transition_value, Nosv.update_task_channels, chan_body_running, chan_body_stopped,
  chan_body_switch, show_body, enforce_task_rules, nosv_ch, load_tasks, load_proc, load_thread, jumbo_u32,
  jumbo_size, jumbo_label, payload_u32.
Ltac open_nanos6 := unfold model_nanos6_event, Nanos6.process_ev, Nanos6.simple, run_table, Nanos6.pre_task,
  pre_type, Nanos6.create_task, Nanos6.update_task, Nanos6.update_task_state, change_task, update_task_ss_channel,
  expand_transition_value, Nanos6.update_task_channels, chan_task_running, chan_task_stopped, chan_task_switch,
  show_task, enforce_task_rules, nanos6_ch, load_tasks, load_proc, load_thread, jumbo_u32, jumbo_size, jumbo_label,
  payload_u32.
Ltac open_openmp := unfold model_openmp_event, Openmp.process_ev, Openmp.simple, run_table, Openmp.pre_task,
  pre_type, Openmp.create_task, Openmp.update_task, pre_worksharing, update_ws_state, gid_of, openmp_ch, load_tasks,
  load_proc, load_thread, jumbo_u32, jumbo_size, jumbo_label, payload_u32.
Ltac open_table := unfold model_mpi_event, Mpi.process_ev, model_tampi_event, Tampi.process_ev, model_nodes_event,
  Nodes.process_ev, Nodes.simple, run_table, load_thread.

Ltac open_xtasks := unfold model_xtasks_event, process_xtasks_ev, Kernel.event_s, payload_i64, payload_u32.

#[export] Instance nosv_hook : EventHook model_nosv_event.
Proof.
  apply hook_outside. intros X x. open_nosv.
  co_tac.
Qed.

#[export] Instance nanos6_hook : EventHook model_nanos6_event.
Proof.
  apply hook_outside. intros X x. open_nanos6.
  co_tac.
Qed.

#[export] Instance openmp_hook : EventHook model_openmp_event.
Proof.
  apply hook_outside. intros X x. open_openmp.
  co_tac.
Qed.

#[export] Instance mpi_hook : EventHook model_mpi_event.
Proof. apply hook_outside. intros X x. open_table. co_tac. Qed.
#[export] Instance tampi_hook : EventHook model_tampi_event.
Proof. apply hook_outside. intros X x. open_table. co_tac. Qed.
#[export] Instance nodes_hook : EventHook model_nodes_event.
Proof. apply hook_outside. intros X x. open_table. co_tac. Qed.
#[export] Instance xtasks_hook : EventHook model_xtasks_event.
Proof. apply hook_outside. intros X x. open_xtasks. co_tac. Qed.

(** ** The kernel model marks the thread *)

Definition marked (t : nat) (b : bool) (th : thread) (h : heap) : heap :=
  set_h_thread <[t := set_t_is_out_of_cpu b th]> h.

Lemma marked_lookup t b th h u uh : h_thread h !! t = Some th -> h_thread (marked t b th h) !! u = Some uh ->
  exists uh0, h_thread h !! u = Some uh0 /\ (uh = uh0 \/ uh = set_t_is_out_of_cpu b uh0).
Proof.
  intros Et. simpl. destruct (decide (u = t)) as [->|Hne]; [|rewrite lookup_insert_ne by done; eauto].
  rewrite lookup_insert_eq. intros [= <-]. eauto.
Qed.

Lemma marked_fmap {A} (f : thread -> A) t b th h : h_thread h !! t = Some th ->
  (forall th, f (set_t_is_out_of_cpu b th) = f th) -> f <$> h_thread (marked t b th h) = f <$> h_thread h.
Proof. intros Et Hf. simpl. rewrite fmap_insert, Hf. apply insert_id. by rewrite lookup_fmap, Et. Qed.

Lemma marked_coherent t b th h : h_thread h !! t = Some th -> coherent h ->
  coherent (marked t b th h) /\ abs (marked t b th h) = abs h.
Proof.
  intros Et [[Hg Ht Ho Hc] Ha]. split; [|unfold abs; by rewrite marked_fmap]. split; [|exact Ha].
  pose proof (marked_fmap core t b th h Et ltac:(done)) as Hcore.
  pose proof (marked_fmap t_cpu t b th h Et ltac:(done)) as Hcpu.
  split; [exact Hg|..].
  - intros u uh (uh0 & E0 & [-> | ->])%(marked_lookup t b th h u uh Et); destruct (Ht u uh0 E0) as []; by split.
  - intros u uh c (uh0 & E0 & [-> | ->])%(marked_lookup t b th h u uh Et) Hu; by apply (Ho u uh0).
  - intros c cp E. destruct (Hc c cp E) as [[Hn Hl Hm] Hv]. split.
    + split; [done..|]. intros u. rewrite Hm.
      assert (t_cpu <$> h_thread h !! u = t_cpu <$> h_thread (marked t b th h) !! u) as Hu
        by (rewrite <- !lookup_fmap; by rewrite Hcpu).
      destruct (h_thread h !! u), (h_thread (marked t b th h) !! u); simplify_eq/=; naive_solver congruence.
    + eapply cpu_view_frame; [exact Hv| |done|done]. intros u _. rewrite <- !lookup_fmap. by rewrite Hcore.
Qed.

#[export] Instance kernel_hook : EventHook model_kernel_event.
Proof.
  split. intros x h h' Hco E. unfold model_kernel_event, Kernel.process_ev, context_switch in E.
  do 2 (case_match; [|discriminate] || (case_match; [discriminate|])).
  assert (forall b op, (set_out_of_cpu (cx_thread x) b ;;; run_op op (model_chan "K" (cx_thread x) CH_CS)) h = (Ok tt, h') ->
    coherent h' /\ abs h' = abs h) as Hstep.
  { intros b op E1. apply mbind_Ok in E1 as ([] & h1 & E1 & E2). unfold set_out_of_cpu in E1.
    apply mbind_Ok in E1 as (th & ? & E0 & [= <-]). unfold load_thread in E0.
    apply mbind_Ok in E0 as (? & ? & [= <- <-] & [Et ->]%deref_Ok).
    destruct (marked_coherent _ b _ _ Et Hco) as [H1 A1].
    destruct (run_op_coherent _ op _ (outside_model "K" (cx_thread x) CH_CS) _ _ _ (coherent_at_self _ H1) E2) as [H2 T2].
    split; [done|]. unfold abs in *. by rewrite T2. }
  enough (coherent h' /\ abs h' = abs h) as [? ?] by (split; [done|by left]).
  destruct (is_ch _ "O"); [by apply (Hstep true (OpPush (value_int64 ST_CSOUT)))|].
  destruct (is_ch _ "I"); [by apply (Hstep false (OpPop (value_int64 ST_CSOUT)))|discriminate].
Qed.
