(* ===== verification/Roster.v ===== *)
(** * Who the threads and CPUs are never changes

    The set-up names the threads, CPUs and processes of the system.  Events
    change states, CPUs and channels, but no identity: what the connections
    between channels say of a thread, by its index, is true in all the run. *)

From Stdlib Require Import Ascii.
From S2P Require Import Prelude Chan Task Heap Bay Mux Sort Prv Dispatch Thread Loom Event OvniModel OvniCorrect.
From S2P Require Import Coherence Model Emu Table Mpi Tampi Nodes Kernel TaskModel Nosv Nanos6 Openmp Hooks.

Definition who (th : thread) := (t_tid th, t_gindex th, t_proc th).
Definition what (cp : cpu) := (cpu_gindex cp, cpu_is_virtual cp).

Definition roster (h : heap) := (who <$> h_thread h, what <$> h_cpu h, h_proc h).

Class RosterHook (event : ctx -> M heap unit) : Prop := { rh_step : forall R x, keeps_ok (fun h => roster h = R) (event x) }.
Class RosterModels {S} (md : model S) : Prop := {
  rm_event : forall i spec event, md_spec md !! i = Some spec -> ms_event spec = Some event -> RosterHook event
}.

Section Roster.
Variable R : gmap nat (Z * Z * nat) * gmap nat (Z * bool) * gmap nat proc.
Notation kept := (fun h => roster h = R).

Lemma roster_mod f : (forall h, h_thread (f h) = h_thread h /\ h_cpu (f h) = h_cpu h /\ h_proc (f h) = h_proc h) -> keeps_ok kept (mmod f).
Proof. intros Hf. apply keeps_ok_mod. intros h <-. destruct (Hf h) as (E1 & E2 & E3). unfold roster. by rewrite E1, E2, E3. Qed.

Lemma roster_world h h' : world h' = world h -> roster h = R -> roster h' = R.
Proof. intros W <-. injection W as E1 E2 E3 _ _ _. unfold roster. by rewrite E1, E2, E3. Qed.

Lemma roster_op op a : keeps_ok kept (run_op op a).
Proof. intros h [] h' Hh E. pose proof (run_op_world op a h) as W. rewrite E in W. by apply (roster_world h). Qed.

Lemma roster_entry m t e : keeps_ok kept (run_entry m t e).
Proof.
  destruct e as [[[i []] st]|]; simpl; try quiet_step; [apply (roster_op (OpPush _))|apply (roster_op (OpPop _))|apply (roster_op (OpSet _))].
Qed.

Lemma roster_tasks {A} m p (op : M tasks A) : keeps_ok kept (on_tasks m p op).
Proof.
  intros h a h' Hh E. unfold on_tasks in E. destruct (h_tasks h !! (ch m, p)) as [ts|]; [|discriminate].
  destruct (op ts) as [r ts']. injection E as _ <-. exact Hh.
Qed.

(** A thread that is written back is the one that was read. *)
Lemma roster_thread {B} t (k : thread -> M heap B) : (forall th, R.1.1 !! t = Some (who th) -> keeps_ok kept (k th)) ->
  keeps_ok kept (let* th := load_thread t in k th).
Proof.
  intros Hk h b h' Hh E. apply mbind_Ok in E as (th & ? & [Ht ->]%load_thread_Ok & E). apply (Hk th) in E; [done| |done].
  rewrite <- Hh. simpl. by rewrite lookup_fmap, Ht.
Qed.

Lemma roster_put t th : R.1.1 !! t = Some (who th) -> keeps_ok kept (put_thread t th).
Proof.
  intros Ht. apply keeps_ok_mod. intros h Hh. unfold roster in *. simpl. rewrite <- Hh. f_equal. f_equal.
  rewrite fmap_insert. apply insert_id. rewrite <- Hh in Ht. exact Ht.
Qed.

Lemma roster_cpu c f : (forall cp, what (f cp) = what cp) -> keeps_ok kept (upd_cpu c f).
Proof.
  intros Hf. apply keeps_ok_mod. intros h <-. unfold roster. simpl. f_equal. f_equal.
  apply map_eq. intros k. rewrite !lookup_fmap, lookup_alter. case_decide; [|done]. subst k. destruct (h_cpu h !! c); simpl; by rewrite ?Hf.
Qed.
End Roster.

Ltac roster_tac :=
  repeat first
    [ lazymatch goal with |- keeps_ok _ (mbind (load_thread _) _) => apply roster_thread; intros ? ? end
    | co_bind | quiet_step
    | solve [apply (roster_op _ (OpSet _))] | solve [apply (roster_op _ (OpPush _))] | solve [apply (roster_op _ (OpPop _))]
    | solve [apply roster_tasks] | solve [apply roster_entry] | solve [by apply roster_put] | solve [by apply roster_cpu]
    | solve [by apply roster_mod]
    | lazymatch goal with |- keeps_ok _ (match _ with _ => _ end) => case_match end
    | lazymatch goal with |- keeps_ok _ (if _ then _ else _) => case_match end
    | lazymatch goal with |- keeps_ok _ (for_each _ _) => apply for_each_keeps_ok; intros ? end ].

(** ** The hooks *)

#[export] Instance nosv_roster : RosterHook model_nosv_event.
Proof. split. intros R x. open_nosv. roster_tac. Qed.
#[export] Instance nanos6_roster : RosterHook model_nanos6_event.
Proof. split. intros R x. open_nanos6. roster_tac. Qed.
#[export] Instance openmp_roster : RosterHook model_openmp_event.
Proof. split. intros R x. open_openmp. roster_tac. Qed.
#[export] Instance mpi_roster : RosterHook model_mpi_event.
Proof. split. intros R x. open_table. roster_tac. Qed.
#[export] Instance tampi_roster : RosterHook model_tampi_event.
Proof. split. intros R x. open_table. roster_tac. Qed.
#[export] Instance nodes_roster : RosterHook model_nodes_event.
Proof. split. intros R x. open_table. roster_tac. Qed.
#[export] Instance xtasks_roster : RosterHook model_xtasks_event.
Proof. split. intros R x. open_xtasks. roster_tac. Qed.
#[export] Instance kernel_roster : RosterHook model_kernel_event.
Proof. split. intros R x. unfold model_kernel_event, Kernel.process_ev, context_switch, set_out_of_cpu. roster_tac. Qed.

Lemma roster_cpu_update R c : keeps_ok (fun h => roster h = R) (cpu_update c).
Proof. unfold cpu_update. repeat first [progress roster_tac | apply keeps_ok_quiet, count_threads_quiet]. Qed.

#[export] Instance ovni_roster : RosterHook model_ovni_event.
Proof.
  split. intros R x. assert (forall l tid, quiet (find_in_procs l tid)) as Hq.
  { intros l tid. induction l as [|[k p] l IH]; simpl; [done|]. unfold load_proc. quiet_tac. }
  open_handlers. repeat first [progress roster_tac | apply roster_cpu_update | apply keeps_ok_quiet, Hq].
Qed.

(** ** Propagation and runs *)

Section Propagate.
Variable R : gmap nat (Z * Z * nat) * gmap nat (Z * bool) * gmap nat proc.
Notation kept := (fun h => roster h = R).

Lemma roster_call f a : keeps_ok kept (cb_call f a).
Proof.
  destruct f; simpl.
  - unfold cb_select, bay_enable_cb, bay_disable_cb, upd_mux, load_mux.
    repeat first [progress roster_tac | apply keeps_ok_quiet, quiet_select_input].
  - unfold cb_input, load_mux. roster_tac.
  - unfold sort_cb_input, store_sort, on_sorted. assert (forall s l i, keeps_ok kept (write_outputs s l i)) as Hw.
    { intros s l. induction l as [|y l IH]; intros i; simpl; repeat first [apply IH | progress roster_tac]. }
    repeat first [apply Hw | progress roster_tac].
    all: intros h u h' Hh E; destruct (sort_replace _ _ _ _) as [r arr]; by injection E as _ <-.
  - intros h [] h' Hh E. pose proof (cb_prv_world prv id a h) as W. rewrite E in W. by apply (roster_world R h).
Qed.

Lemma roster_propagate fuel : keeps_ok kept (bay_propagate fuel).
Proof.
  apply propagate_keeps_ok; [apply roster_call| |].
  - intros a h [] h' Hh E. by apply chan_flush_Ok in E as (c & _ & _ & ->).
  - intros f. by apply roster_mod.
Qed.

Lemma roster_advance prvs t : keeps_ok kept (recorder_advance prvs t).
Proof. unfold recorder_advance, prv_advance, load_prv. roster_tac. Qed.

Lemma roster_event {S} (md : model S) x : RosterModels md -> keeps_ok kept (model_event md x (ee_m (cx_ev x))).
Proof.
  intros HM. unfold model_event. repeat (apply keeps_ok_if; [quiet_step|]). intros h [] h' Hh E.
  apply mbind_Ok in E as (spec & ? & [Hspec ->]%deref_Ok & E). destruct (ms_event spec) as [event|] eqn:Hev; [|by injection E as <-].
  destruct (rm_event _ _ _ Hspec Hev) as [Hr]. by apply (Hr R x h tt h').
Qed.

Lemma roster_run {S} (md : model S) prvs fuel xs : RosterModels md -> keeps_ok kept (for_each (emu_process md prvs fuel) xs).
Proof.
  intros HM. apply for_each_keeps_ok. intros x. unfold emu_process.
  co_bind; [apply roster_advance|]. co_bind; [by apply roster_event|apply roster_propagate].
Qed.
End Propagate.
