(* ===== verification/Nesting.v ===== *)
(** * Runs of the emulator open and close states like brackets

    Over a whole run of the emulator, with any set of registered models, the
    stack of a channel of a model is what the events of that model and thread,
    read as brackets, leave of the stack it had.  The models state what they
    do to their own stacks ([StackEffect]) and that they leave the others
    alone ([StackFrame]); the patch bay never pushes or pops. *)

From Stdlib Require Import Ascii.
From S2P Require Import Prelude Chan Pcf Task Heap Bay Mux Sort Prv Dispatch Thread Loom Event OvniModel OvniCorrect.
From S2P Require Import Coherence Model Emu Table TaskModel Nosv Nanos6 Openmp Kernel Mpi Tampi Nodes.

(** ** Computations that leave a stack alone *)

Lemma opened_mod b s f : (forall h, h_chan (f h) = h_chan h) -> keeps_ok (opened b s) (mmod f).
Proof. intros Hf. apply keeps_ok_mod. intros h. by apply opened_ext. Qed.

Lemma on_tasks_opened {A} b s m p (op : M tasks A) : keeps_ok (opened b s) (on_tasks m p op).
Proof.
  intros h a h' Hb E. unfold on_tasks in E. destruct (h_tasks h !! (ch m, p)) as [ts|]; [|discriminate].
  destruct (op ts) as [r ts']. injection E as _ <-. by apply (opened_ext _ _ h).
Qed.

Ltac ne_tac := first [by intros [? _]%model_chan_inj | by intros (_ & _ & ?)%model_chan_inj | done].

Ltac open_tac :=
  repeat first
    [ lazymatch goal with |- keeps_ok _ (mbind _ _) => apply keeps_ok_bind; [|intros ?] end
    | solve [apply chan_set_opened] | solve [apply on_tasks_opened]
    | solve [apply opened_mod; done]
    | solve [apply (run_op_other (OpPush _)); ne_tac] | solve [apply (run_op_other (OpPop _)); ne_tac]
    | solve [apply keeps_ok_quiet; quiet_tac]
    | lazymatch goal with |- keeps_ok _ (match _ with _ => _ end) => case_match end
    | lazymatch goal with |- keeps_ok _ (if _ then _ else _) => case_match end
    | lazymatch goal with |- keeps_ok _ (for_each _ _) => apply for_each_keeps_ok; intros ? end ].

(** *** The patch bay *)

Section BayOpened.
Variables (b : addr) (s : list value).

Lemma quiet_thread_running_select mx v : quiet (select_input mx v).
Proof. apply quiet_select_input. Qed.

Lemma toggle_opened id : keeps_ok (opened b s) (bay_enable_cb id) /\ keeps_ok (opened b s) (bay_disable_cb id).
Proof. unfold bay_enable_cb, bay_disable_cb, put_cb, put_bchan. split; open_tac. Qed.

Lemma cb_select_opened m a : keeps_ok (opened b s) (cb_select m a).
Proof.
  unfold cb_select, upd_mux.
  repeat first [progress open_tac | apply toggle_opened | apply keeps_ok_quiet, quiet_select_input].
Qed.

Lemma cb_input_opened m i a : keeps_ok (opened b s) (cb_input m i a).
Proof. unfold cb_input. open_tac. Qed.

Lemma write_outputs_opened n l i : keeps_ok (opened b s) (write_outputs n l i).
Proof. revert i. induction l as [|x l IH]; intros i; simpl; [open_tac|]. open_tac. apply IH. Qed.
End BayOpened.

Lemma on_sorted_opened b s n m : keeps_ok (opened b s) (on_sorted n m).
Proof.
  unfold on_sorted. apply keeps_ok_bind; [apply keeps_ok_quiet, quiet_load_sort|]. intros st h [] h' Hb E.
  destruct (m (s_sorted st)) as [r arr]. injection E as _ <-. by apply (opened_ext _ _ h).
Qed.

Lemma sort_cb_input_opened b s n i a : keeps_ok (opened b s) (sort_cb_input n i a).
Proof.
  unfold sort_cb_input, store_sort.
  repeat first [progress open_tac | apply write_outputs_opened | apply on_sorted_opened].
Qed.

Lemma cb_call_opened b s f a : keeps_ok (opened b s) (cb_call f a).
Proof.
  destruct f; simpl; [apply cb_select_opened|apply cb_input_opened|apply sort_cb_input_opened|].
  intros h [] h' Hb E. pose proof (cb_prv_only prv id a h) as (E1 & _). rewrite E in E1. by apply (opened_ext _ _ h).
Qed.

Lemma chan_flush_opened b s a : keeps_ok (opened b s) (chan_flush a).
Proof.
  intros h [] h' Hb E. apply chan_flush_Ok in E as (c & Hc & _ & ->). simpl in Hc.
  apply opened_get in Hb as (cb & Hcb & Hi & Hs). apply opened_get. simpl.
  destruct (decide (a = b)) as [->|Hne]; [|rewrite lookup_insert_ne by done; eauto].
  simplify_eq. rewrite lookup_insert_eq. by eexists.
Qed.

Lemma bay_propagate_opened b s fuel : keeps_ok (opened b s) (bay_propagate fuel).
Proof.
  apply propagate_keeps_ok; [apply cb_call_opened|apply chan_flush_opened|]. intros f. by apply opened_mod.
Qed.

Lemma recorder_advance_opened b s prvs t : keeps_ok (opened b s) (recorder_advance prvs t).
Proof. unfold recorder_advance, prv_advance, load_prv, upd_prv. open_tac. Qed.

(** ** The models *)

Lemma quiet_load_thread_Ok t h th h' : load_thread t h = (Ok th, h') -> h' = h.
Proof. apply quiet_Ok, quiet_load_thread. Qed.

Section Frames.
Variable m : ascii.
Ltac frame := split; intros x t i s; 
  lazymatch goal with |- keeps_ok _ ?p => change (keeps_ok (opened (model_chan m t i) s) p) end.

Instance ovni_frame : StackFrame m model_ovni_event.
Proof.
  frame. assert (forall l tid, quiet (find_in_procs l tid)) as Hq.
  { intros l tid. induction l as [|[k p] l IH]; simpl; [done|]. unfold load_proc. quiet_tac. }
  unfold model_ovni_event, pre_thread, pre_thread_execute, pre_thread_end, pre_thread_pause, pre_thread_resume,
    pre_thread_cool, pre_thread_warm, change_state, update_cpu_of, pre_affinity, pre_affinity_set,
    pre_affinity_remote, find_remote, loom_find_thread, loom_get_cpu, cpu_migrate_thread, cpu_add_thread,
    cpu_remove_thread, cpu_update, thread_set_cpu, thread_set_state, thread_unset_cpu, thread_migrate_cpu, put_thread,
    pre_burst, pre_cpu, pre_flush, mark_event, load_ovni, put_ovni, load_loom, load_cpu, load_thread, load_proc,
    payload_i32, payload_i64, payload_u32, upd_cpu.
  repeat first [progress open_tac | apply keeps_ok_quiet, Hq | apply keeps_ok_quiet, count_threads_quiet].
Qed.

Lemma run_table_opened m' tbl x t i s : ch m' <> ch m -> keeps_ok (opened (model_chan m t i) s) (run_table m' tbl x).
Proof. intros Hne. apply run_entry_frame. by intros j [? _]%model_chan_inj. Qed.

Lemma load_tasks_quiet m' p : quiet (load_tasks m' p).
Proof. unfold load_tasks. quiet_tac. Qed.
Lemma payload_quiet e k : quiet (payload_u32 e k : M heap Z) /\ quiet (payload_i64 e k : M heap Z).
Proof. unfold payload_u32, payload_i64. split; quiet_tac. Qed.

Instance nosv_frame : ch "V" <> ch m -> StackFrame m model_nosv_event.
Proof.
  intros Hm. frame. unfold model_nosv_event, Nosv.process_ev, Nosv.simple, Nosv.pre_task, pre_type, hwc_event, event_hwc_count,
    Nosv.create_task, Nosv.update_task, Nosv.update_task_state, change_task, update_task_ss_channel, expand_transition_value,
    Nosv.update_task_channels, chan_body_running, chan_body_stopped, chan_body_switch, show_body, enforce_task_rules,
    nosv_ch, load_tasks, load_proc, load_thread, jumbo_u32, jumbo_size, jumbo_label, payload_u32.
  repeat first [progress open_tac | by apply run_table_opened].
Qed.

Instance nanos6_frame : ch "6" <> ch m -> StackFrame m model_nanos6_event.
Proof.
  intros Hm. frame. unfold model_nanos6_event, Nanos6.process_ev, Nanos6.simple, Nanos6.pre_task, pre_type,
    Nanos6.create_task, Nanos6.update_task, Nanos6.update_task_state, change_task, update_task_ss_channel, expand_transition_value,
    Nanos6.update_task_channels, chan_task_running, chan_task_stopped, chan_task_switch, show_task, enforce_task_rules,
    nanos6_ch, load_tasks, load_proc, load_thread, jumbo_u32, jumbo_size, jumbo_label, payload_u32.
  repeat first [progress open_tac | by apply run_table_opened].
Qed.

Instance openmp_frame : ch "P" <> ch m -> StackFrame m model_openmp_event.
Proof.
  intros Hm. frame. unfold model_openmp_event, Openmp.process_ev, Openmp.simple, Openmp.pre_task, pre_type,
    Openmp.create_task, Openmp.update_task, pre_worksharing, update_ws_state, gid_of,
    openmp_ch, load_tasks, load_proc, load_thread, jumbo_u32, jumbo_size, jumbo_label, payload_u32.
  repeat first [progress open_tac | by apply run_table_opened].
Qed.

Instance kernel_frame : ch "K" <> ch m -> StackFrame m model_kernel_event.
Proof.
  intros Hm. frame. unfold model_kernel_event, Kernel.process_ev, context_switch, set_out_of_cpu, load_thread, put_thread.
  open_tac.
Qed.

Instance mpi_frame : ch "M" <> ch m -> StackFrame m model_mpi_event.
Proof. intros Hm. eapply table_stack_frame; [apply model_mpi_event_table|done]. Qed.
Instance tampi_frame : ch "T" <> ch m -> StackFrame m model_tampi_event.
Proof. intros Hm. eapply table_stack_frame; [apply model_tampi_event_table|done]. Qed.
Instance nodes_frame : ch "D" <> ch m -> StackFrame m model_nodes_event.
Proof. intros Hm. eapply table_stack_frame; [apply model_nodes_event_table|done]. Qed.
End Frames.

(** *** The stacks of the task models

    An execution enters the state of a task body and its end leaves it. *)

Definition task_effect (c v body : Z) : effect :=
  if is_ch c "T" then
    if is_ch v "x" then Some (PUSH, body) else if is_ch v "e" then Some (POP, body) else None
  else None.

Definition nosv_effect (i : nat) (x : ctx) : effect :=
  if one_of (ee_c (cx_ev x)) "SUMHAP" then table_effect Nosv.ss_table i x
  else if bool_decide (i = Nosv.CH_SUBSYSTEM) then task_effect (ee_c (cx_ev x)) (ee_v (cx_ev x)) Nosv.ST_TASK_BODY
  else None.

Definition nanos6_effect (i : nat) (x : ctx) : effect :=
  if one_of (ee_c (cx_ev x)) "CSUFOtHDBWMP" then table_effect Nanos6.ss_table i x
  else if bool_decide (i = Nanos6.CH_SUBSYSTEM) then task_effect (ee_c (cx_ev x)) (ee_v (cx_ev x)) Nanos6.ST_TASK_BODY
  else None.

Definition openmp_effect (x : ctx) : effect :=
  if one_of (ee_c (cx_ev x)) "BIWTAMHC" then table_effect Openmp.fn_table Openmp.CH_SUBSYSTEM x else None.

Definition kernel_effect (x : ctx) : effect :=
  if is_ch (ee_v (cx_ev x)) "O" then Some (PUSH, ST_CSOUT) else Some (POP, ST_CSOUT).

Lemma ss_channel_effect a body c v h h' s : is_ch c "T" = true -> update_task_ss_channel a body v h = (Ok tt, h') ->
  opened a s h -> exists s', apply_effect (task_effect c v body) s = Some s' /\ opened a s' h'.
Proof.
  unfold update_task_ss_channel, task_effect. intros -> E Hs.
  destruct (is_ch v "x"); [eexists; split; [done|by eapply chan_push_opened]|].
  destruct (is_ch v "e"); [|injection E as <-; by eexists].
  destruct (chan_pop_opened _ _ _ _ _ E Hs) as (s' & -> & Hs'). simpl. rewrite bool_decide_true by done. by eexists.
Qed.

Lemma ss_channel_frame a b body v s : a <> b -> keeps_ok (opened b s) (update_task_ss_channel a body v).
Proof.
  intros Hne. unfold update_task_ss_channel. repeat apply keeps_ok_if; [by apply (run_op_other (OpPush _))|
    by apply (run_op_other (OpPop _))|apply keeps_ok_quiet, quiet_ret].
Qed.

(** [update_task], of nOS-V or of Nanos6, from the push or pop of the subsystem on. *)
Lemma update_task_effect m x ss body h1 h2 h' t i s : is_ch (ee_c (cx_ev x)) "T" = true ->
  update_task_ss_channel (model_chan m (cx_thread x) ss) body (ee_v (cx_ev x)) h1 = (Ok tt, h2) ->
  opened (model_chan m t i) s h1 -> (forall s', opened (model_chan m t i) s' h2 -> opened (model_chan m t i) s' h') ->
  becomes (model_chan m t i)
    (if Nat.eqb t (cx_thread x) then
       apply_effect (if bool_decide (i = ss) then task_effect (ee_c (cx_ev x)) (ee_v (cx_ev x)) body else None) s
     else Some s) h'.
Proof.
  intros Hc E2 Hs Hpost. destruct (Nat.eqb_spec t (cx_thread x)) as [->|Hne]; last first.
  { apply opened_becomes, Hpost. eapply ss_channel_frame; [|exact Hs|exact E2]. by intros (_ & <- & _)%model_chan_inj. }
  case_bool_decide as Hi; [subst i|].
  - destruct (ss_channel_effect _ _ _ _ _ _ _ Hc E2 Hs) as (s' & -> & Hs'). by apply opened_becomes, Hpost.
  - apply opened_becomes, Hpost. eapply ss_channel_frame; [|exact Hs|exact E2]. by intros (_ & _ & <-)%model_chan_inj.
Qed.

Lemma load_tasks_Ok m p h ts h' : load_tasks m p h = (Ok ts, h') -> h' = h.
Proof. apply quiet_Ok, load_tasks_quiet. Qed.

Lemma opened_keeps {A} (hook : M heap A) b s h a h' : keeps_ok (opened b s) hook -> hook h = (Ok a, h') ->
  opened b s h -> opened b s h'.
Proof. intros K E Hs. by eapply K. Qed.

(** An event without effect on the stacks. *)
Lemma no_effect {A} m (hook : M heap A) x h h' a t i s (e : effect) : keeps_ok (opened (model_chan m t i) s) hook ->
  hook h = (Ok a, h') -> opened (model_chan m t i) s h -> apply_effect e s = Some s ->
  becomes (model_chan m t i) (if Nat.eqb t (cx_thread x) then apply_effect e s else Some s) h'.
Proof. intros K E Hs ->. destruct (Nat.eqb t _); apply opened_becomes; by eapply K. Qed.

Lemma body_effect_none c v body s : is_ch v "x" = false -> is_ch v "e" = false \/ is_ch c "T" = false ->
  apply_effect (task_effect c v body) s = Some s.
Proof. unfold task_effect. intros -> [-> | ->]; [by destruct (is_ch c "T")|done]. Qed.

Lemma body_effect_other c v body s : is_ch c "T" = false -> apply_effect (task_effect c v body) s = Some s.
Proof. unfold task_effect. by intros ->. Qed.

Ltac nosv_unfold := unfold Nosv.create_task, Nosv.update_task_state, change_task, expand_transition_value,
  Nosv.update_task_channels, chan_body_running, chan_body_stopped, chan_body_switch, show_body, enforce_task_rules,
  pre_type, hwc_event, event_hwc_count, Nosv.simple,
  nosv_ch, load_tasks, load_proc, load_thread, jumbo_u32, jumbo_size, jumbo_label, payload_u32.
Ltac nanos6_unfold := unfold Nanos6.create_task, Nanos6.update_task_state, change_task, expand_transition_value,
  Nanos6.update_task_channels, chan_task_running, chan_task_stopped, chan_task_switch, show_task, enforce_task_rules,
  pre_type, Nanos6.simple, nanos6_ch, load_tasks, load_proc, load_thread, jumbo_u32, jumbo_size, jumbo_label, payload_u32.

#[export] Instance nosv_stack_effect i : StackEffect "V" i model_nosv_event (nosv_effect i).
Proof.
  split. intros x h h' E t s Hs. unfold model_nosv_event in E. destruct (is_ch (ee_m _) _); [|discriminate]. simpl in E.
  unfold Nosv.process_ev in E. apply mbind_Ok in E as (th & h0 & ->%quiet_load_thread_Ok & E).
  destruct (negb (t_is_active th)); [discriminate|]. destruct (t_is_out_of_cpu th); [discriminate|].
  unfold nosv_effect. destruct (one_of (ee_c (cx_ev x)) "SUMHAP"); [by apply (run_entry_effect _ _ _ h)|].
  destruct (is_ch (ee_c (cx_ev x)) "T") eqn:HT.
  - unfold Nosv.pre_task in E. destruct (one_of (ee_v (cx_ev x)) "Cc") eqn:Hv.
    + eapply no_effect; [|exact E|exact Hs|]; [nosv_unfold; open_tac|]. case_bool_decide; [|done].
      apply body_effect_none; [|left]; simpl in Hv; apply orb_true_iff in Hv as [Hv|[Hv|[=]]%orb_true_iff];
        by eapply is_ch_ne.
    + destruct (one_of _ "xerp"); [|discriminate]. unfold Nosv.update_task in E.
      apply mbind_Ok in E as (ts & h0 & ->%load_tasks_Ok & E). apply mbind_Ok in E as ([] & h1 & E1 & E).
      apply mbind_Ok in E as (ts' & h2 & ->%load_tasks_Ok & E). apply mbind_Ok in E as ([] & h2 & E2 & E).
      eapply update_task_effect; [exact HT|exact E2| |].
      * eapply opened_keeps; [|exact E1|exact Hs]. nosv_unfold. open_tac.
      * intros s' Hs'. eapply opened_keeps; [|exact E|exact Hs']. nosv_unfold. open_tac.
  - eapply no_effect; [|exact E|exact Hs|].
    + nosv_unfold. open_tac.
    + case_bool_decide; [|done]. by apply body_effect_other.
Qed.

#[export] Instance nanos6_stack_effect i : StackEffect "6" i model_nanos6_event (nanos6_effect i).
Proof.
  split. intros x h h' E t s Hs. unfold model_nanos6_event in E. destruct (is_ch (ee_m _) _); [|discriminate]. simpl in E.
  unfold Nanos6.process_ev in E. apply mbind_Ok in E as (th & h0 & ->%quiet_load_thread_Ok & E).
  destruct (negb (t_is_active th)); [discriminate|].
  unfold nanos6_effect. destruct (one_of (ee_c (cx_ev x)) "CSUFOtHDBWMP"); [by apply (run_entry_effect _ _ _ h)|].
  destruct (is_ch (ee_c (cx_ev x)) "T") eqn:HT.
  - unfold Nanos6.pre_task in E. destruct (is_ch (ee_v (cx_ev x)) "C") eqn:HC.
    { eapply no_effect; [apply keeps_ok_quiet, quiet_ret|exact E|exact Hs|]. case_bool_decide; [|done].
      apply body_effect_none; [|left]; by eapply is_ch_ne. }
    destruct (is_ch (ee_v (cx_ev x)) "c") eqn:Hc.
    { eapply no_effect; [|exact E|exact Hs|]; [nanos6_unfold; open_tac|]. case_bool_decide; [|done].
      apply body_effect_none; [|left]; by eapply is_ch_ne. }
    destruct (one_of _ "xerp"); [|discriminate]. unfold Nanos6.update_task in E.
    apply mbind_Ok in E as (ts & h0 & ->%load_tasks_Ok & E). apply mbind_Ok in E as ([] & h1 & E1 & E).
    apply mbind_Ok in E as (ts' & h2 & ->%load_tasks_Ok & E). apply mbind_Ok in E as ([] & h2 & E2 & E).
    eapply update_task_effect; [exact HT|exact E2| |].
    + eapply opened_keeps; [|exact E1|exact Hs]. nanos6_unfold. open_tac.
    + intros s' Hs'. eapply opened_keeps; [|exact E|exact Hs']. nanos6_unfold. open_tac.
  - eapply no_effect; [|exact E|exact Hs|].
    + nanos6_unfold. open_tac.
    + case_bool_decide; [|done]. by apply body_effect_other.
Qed.

#[export] Instance openmp_stack_effect : StackEffect "P" Openmp.CH_SUBSYSTEM model_openmp_event openmp_effect.
Proof.
  split. intros x h h' E t s Hs. unfold model_openmp_event in E. destruct (is_ch (ee_m _) _); [|discriminate]. simpl in E.
  unfold Openmp.process_ev in E. apply mbind_Ok in E as (th & h0 & ->%quiet_load_thread_Ok & E).
  destruct (negb (t_is_running th)); [discriminate|].
  unfold openmp_effect. destruct (one_of (ee_c (cx_ev x)) "BIWTAMHC").
  - unfold Openmp.simple in E. apply mbind_Ok in E as (th' & h0 & ->%quiet_load_thread_Ok & E).
    destruct (negb (t_is_running th')); [discriminate|]. by apply (run_entry_effect _ _ _ h).
  - eapply no_effect; [|exact E|exact Hs|done].
    unfold Openmp.pre_task, pre_type, Openmp.create_task, Openmp.update_task, pre_worksharing, update_ws_state, gid_of,
      openmp_ch, load_tasks, load_proc, load_thread, jumbo_u32, jumbo_size, jumbo_label, payload_u32.
    open_tac.
Qed.

#[export] Instance kernel_stack_effect : StackEffect "K" CH_CS model_kernel_event kernel_effect.
Proof.
  split. intros x h h' E t s Hs. unfold model_kernel_event in E. destruct (is_ch (ee_m _) _); [|discriminate]. simpl in E.
  unfold Kernel.process_ev in E. destruct (is_ch (ee_c _) _); [|discriminate]. unfold context_switch in E.
  assert (forall b h1, set_out_of_cpu (cx_thread x) b h = (Ok tt, h1) -> opened (model_chan "K" t CH_CS) s h1) as Hout.
  { intros b h1 E1. eapply opened_keeps; [|exact E1|exact Hs]. unfold set_out_of_cpu, load_thread, put_thread. open_tac. }
  assert (forall op, t <> cx_thread x -> forall h1, opened (model_chan "K" t CH_CS) s h1 ->
    run_op op (model_chan "K" (cx_thread x) CH_CS) h1 = (Ok tt, h') -> opened (model_chan "K" t CH_CS) s h') as Hne.
  { intros op Hne h1 Hs1 E1. eapply run_op_other; [|exact Hs1|exact E1]. by intros (_ & <- & _)%model_chan_inj. }
  unfold kernel_effect. destruct (is_ch (ee_v (cx_ev x)) "O"); [|destruct (is_ch (ee_v (cx_ev x)) "I"); [|discriminate]];
    apply mbind_Ok in E as ([] & h1 & E1 & E); specialize (Hout _ _ E1);
    destruct (Nat.eqb_spec t (cx_thread x)) as [->|Hn].
  - by apply opened_becomes; eapply chan_push_opened.
  - apply opened_becomes. by eapply (Hne (OpPush _)).
  - destruct (chan_pop_opened _ _ _ _ _ E Hout) as (s' & -> & Hs'). by apply opened_becomes.
  - apply opened_becomes. by eapply (Hne (OpPop _)).
Qed.

(** ** Runs *)

(** The events of the model [m] in thread [t], as brackets. *)
Definition effect_of (m : ascii) (t : nat) (eff : ctx -> effect) (x : ctx) : effect :=
  if is_ch (ee_m (cx_ev x)) m && Nat.eqb t (cx_thread x) then eff x else None.

Fixpoint nest (m : ascii) (t : nat) (eff : ctx -> effect) (xs : list ctx) (s : list value) : option (list value) :=
  match xs with
  | [] => Some s
  | x :: xs' => apply_effect (effect_of m t eff x) s ≫= nest m t eff xs'
  end.

(** The model [m] of the registry has the hook [hook], and the other models
    leave its stacks alone. *)
Record hosts {S} (md : model S) (m : ascii) (hook : ctx -> M heap unit) : Prop := {
  ho_self : forall spec, md_spec md !! ch m = Some spec -> ms_event spec = Some hook;
  ho_other : forall i spec event, md_spec md !! i = Some spec -> i <> ch m -> ms_event spec = Some event ->
    StackFrame m event
}.

Lemma emu_process_nest {S} (md : model S) prvs fuel m i hook eff x h h' t s : hosts md m hook -> StackEffect m i hook eff ->
  emu_process md prvs fuel x h = (Ok tt, h') -> opened (model_chan m t i) s h ->
  exists s', apply_effect (effect_of m t eff x) s = Some s' /\ opened (model_chan m t i) s' h'.
Proof.
  intros [Hself Hoth] Heff E Hs. unfold emu_process in E. apply mbind_Ok in E as ([] & h1 & E1 & E).
  pose proof (recorder_advance_opened _ _ _ _ _ _ _ Hs E1) as Hs1. apply mbind_Ok in E as ([] & h2 & E2 & E3).
  assert (forall s', opened (model_chan m t i) s' h2 -> opened (model_chan m t i) s' h') as Hp
    by (intros s' Hs'; by eapply bay_propagate_opened).
  unfold model_event in E2. do 2 (case_match; [discriminate|]).
  apply mbind_Ok in E2 as (spec & ? & [Hspec ->]%deref_Ok & E2). unfold effect_of.
  destruct (is_ch (ee_m (cx_ev x)) m) eqn:Hm; simpl.
  - apply Z.eqb_eq in Hm. rewrite Hm in Hspec. rewrite (Hself spec Hspec) in E2.
    destruct (se_step _ _ _ E2 _ _ Hs1) as [[s' Hr] He]. exists s'. rewrite Hr in He. split; [|by apply Hp].
    by destruct (Nat.eqb t (cx_thread x)).
  - apply Z.eqb_neq in Hm. exists s. split; [done|]. apply Hp. destruct (ms_event spec) as [event|] eqn:Hev; [|by injection E2 as <-].
    destruct (Hoth _ _ _ Hspec Hm Hev) as [Hf]. by eapply Hf.
Qed.

Lemma emu_runs_nest {S} (md : model S) prvs fuel m i hook eff xs h h' t s : hosts md m hook -> StackEffect m i hook eff ->
  for_each (emu_process md prvs fuel) xs h = (Ok tt, h') -> opened (model_chan m t i) s h ->
  exists s', nest m t eff xs s = Some s' /\ opened (model_chan m t i) s' h'.
Proof.
  intros Hm He. revert h s. induction xs as [|x xs IH]; intros h s E Hs; simpl in E.
  - injection E as <-. by exists s.
  - apply mbind_Ok in E as ([] & h1 & E1 & E).
    destruct (emu_process_nest _ _ _ _ _ _ _ _ _ _ _ _ Hm He E1 Hs) as (s1 & Hr & Hs1).
    destruct (IH _ _ E Hs1) as (s' & Hn & Hs'). exists s'. split; [|done]. simpl. by rewrite Hr.
Qed.

(** *** Brackets *)

(** Words of brackets in which every opened state is closed, innermost first;
    the other events are in between. *)
Inductive balanced : list effect -> Prop :=
| bal_nil : balanced []
| bal_skip e w : (forall st, e <> Some (PUSH, st) /\ e <> Some (POP, st)) -> balanced w -> balanced (e :: w)
| bal_wrap st w1 w2 : balanced w1 -> balanced w2 ->
    balanced (Some (PUSH, st) :: w1 ++ Some (POP, st) :: w2).

Fixpoint brackets (w : list effect) (s : list value) : option (list value) :=
  match w with [] => Some s | e :: w' => apply_effect e s ≫= brackets w' end.

Lemma nest_brackets m t eff xs s : nest m t eff xs s = brackets (effect_of m t eff <$> xs) s.
Proof. revert s. induction xs as [|x xs IH]; intros s; simpl; [done|]. by destruct (apply_effect _ s); simpl. Qed.

Lemma brackets_app w1 w2 s : brackets (w1 ++ w2) s = brackets w1 s ≫= brackets w2.
Proof. revert s. induction w1 as [|e w1 IH]; intros s; simpl; [done|]. by destruct (apply_effect e s); simpl. Qed.

Lemma balanced_brackets w : balanced w -> forall s, brackets w s = Some s.
Proof.
  induction 1 as [|e w He _ IH|st w1 w2 _ IH1 _ IH2]; intros s; simpl; [done|..].
  - destruct e as [[[] st]|]; simpl; auto; by destruct (He st).
  - rewrite brackets_app, IH1. simpl. rewrite bool_decide_true by done. apply IH2.
Qed.

(** A word that empties its stack closes the top first, then the rest. *)
Lemma brackets_split n w s : (length w <= n)%nat -> brackets w s = Some [] ->
  match s with
  | [] => balanced w
  | v :: s1 => exists w1 st w2, w = w1 ++ Some (POP, st) :: w2 /\ v = value_int64 st /\ balanced w1 /\ brackets w2 s1 = Some []
  end.
Proof.
  revert w s. induction n as [|n IH]; intros [|e w] s Hl; simpl in *; try lia; try (intros [= ->]; constructor).
  intros E. destruct e as [[[] st]|]; simpl in E.
  - apply IH in E as (w1 & st' & w2 & -> & [= <-] & Hb & E); [|lia]. rewrite length_app in Hl. simpl in Hl.
    apply (IH w2) in E; [|simpl in *; lia]. destruct s as [|v s1]; [by constructor|].
    destruct E as (w3 & st2 & w4 & -> & -> & Hb3 & E). exists (Some (PUSH, st) :: w1 ++ Some (POP, st) :: w3), st2, w4.
    split_and!; [by rewrite <- !app_comm_cons, <- app_assoc|done|by constructor|done].
  - destruct s as [|v s1]; [done|]. case_bool_decide; simpl in E; [|done]. subst v. exists [], st, w. split_and!; [done|done|by constructor|done].
  - apply IH in E; [|lia]. destruct s as [|v s1]; [by constructor|].
    destruct E as (w1 & st2 & w2 & -> & -> & ? & ?). exists (Some (SET, st) :: w1), st2, w2. split_and!; [done|done|by constructor|done].
  - apply IH in E; [|lia]. destruct s as [|v s1]; [by constructor|].
    destruct E as (w1 & st2 & w2 & -> & -> & ? & ?). exists (Some (IGN, st) :: w1), st2, w2. split_and!; [done|done|by constructor|done].
  - apply IH in E; [|lia]. destruct s as [|v s1]; [by constructor|].
    destruct E as (w1 & st2 & w2 & -> & -> & ? & ?). exists (None :: w1), st2, w2. split_and!; [done|done|by constructor|done].
Qed.

Lemma brackets_balanced w : brackets w [] = Some [] <-> balanced w.
Proof. split; [by apply (brackets_split (length w))|]. intros Hb. by apply balanced_brackets. Qed.

(** ** Properties *)

(** C28. Over any run of the emulator that succeeds, whatever models are
    registered as long as the others leave these stacks alone, the states a
    thread is in on a channel of a model are the brackets its events left open,
    read on the stack it had before; from an empty stack the run ends with an
    empty one exactly when every state that an event entered was left by a
    matching event, innermost first. *)
Theorem emu_events_nest {S} (md : model S) prvs fuel m i hook eff xs h h' t s :
  hosts md m hook -> StackEffect m i hook eff ->
  for_each (emu_process md prvs fuel) xs h = (Ok tt, h') -> open_at (model_chan m t i) h = Some s ->
  open_at (model_chan m t i) h' = nest m t eff xs s /\
  (s = [] -> open_at (model_chan m t i) h' = Some [] <-> balanced (effect_of m t eff <$> xs)).
Proof.
  intros Hm He E Hs. destruct (emu_runs_nest _ _ _ _ _ _ _ _ _ _ _ _ Hm He E Hs) as (s' & Hn & ->).
  rewrite <- Hn. split; [done|]. intros ->. by rewrite nest_brackets, brackets_balanced.
Qed.

(** *** A registry with all the models *)

Definition demo_spec (c : ascii) (event : ctx -> M heap unit) : model_spec heap :=
  mk_model_spec (Some "demo") (Some "1.0.0") (ch c) (Some []) None None None None (Some event) None.

Definition demo_models : list (ascii * (ctx -> M heap unit)) :=
  [("O", model_ovni_event); ("V", model_nosv_event); ("6", model_nanos6_event); ("P", model_openmp_event);
   ("K", model_kernel_event); ("M", model_mpi_event); ("T", model_tampi_event); ("D", model_nodes_event)]%char.

Definition demo_md : model heap :=
  let specs := list_to_map ((fun p => (ch p.1, demo_spec p.1 p.2)) <$> demo_models) in
  mk_model specs (dom specs) (dom specs).

Lemma demo_md_spec i spec : md_spec demo_md !! i = Some spec ->
  exists p, p ∈ demo_models /\ i = ch p.1 /\ spec = demo_spec p.1 p.2.
Proof.
  unfold demo_md. cbn [md_spec]. intros E%elem_of_list_to_map_2.
  apply list_elem_of_fmap in E as (p & [= -> ->] & Hp). eauto.
Qed.

Lemma demo_hosts_mpi : hosts demo_md "M" model_mpi_event.
Proof.
  split.
  - intros spec (p & Hp & Hi & ->)%demo_md_spec. unfold demo_models in Hp.
    repeat (apply elem_of_cons in Hp as [->|Hp]; [try done; discriminate Hi|]). by apply not_elem_of_nil in Hp.
  - intros i spec event (p & Hp & -> & ->)%demo_md_spec Hi [= <-]. unfold demo_models in Hp.
    repeat (apply elem_of_cons in Hp as [->|Hp]; [cbn [fst snd] in *|]); [..|by apply not_elem_of_nil in Hp].
    + apply ovni_frame.
    + by apply nosv_frame.
    + by apply nanos6_frame.
    + by apply openmp_frame.
    + by apply kernel_frame.
    + done.
    + by apply tampi_frame.
    + by apply nodes_frame.
Qed.

Definition demo_thread : thread := mk_thread 0 100 0 TH_ST_RUNNING true true false (Some 0%nat) false true.
Definition demo_stack_chan : chan := mk_chan false 0 0 0 (Some "mpi.thread0.function"%string) value_null CHAN_STACK value_null [] "mpi.thread0.function".
Definition demo_heap : heap :=
  set_h_bay (set_b_channels <["mpi.thread0.function" := mk_bay_chan (model_chan "M" 0 0) 0 0 [] [] false]>)
    (set_h_thread <[0%nat := demo_thread]> (set_h_chan <[model_chan "M" 0 0 := demo_stack_chan]> empty_heap)).
Definition demo_ctx (c v : ascii) : ctx := mk_ctx (mk_emu_ev (ch "M") (ch c) (ch v) 0 0 0 false 0 false None) 0 0 0.

Definition demo_run (xs : list ctx) : outcome unit * heap := for_each (emu_process demo_md [] 9) xs demo_heap.
Definition demo_open : list ctx := [demo_ctx "U" "i"; demo_ctx "S" "["].
Definition demo_closed : list ctx := [demo_ctx "U" "i"; demo_ctx "U" "I"].

Lemma demo_open_ok : (demo_run demo_open).1 = Ok tt.
Proof. vm_compute. reflexivity. Qed.
Lemma demo_closed_ok : (demo_run demo_closed).1 = Ok tt.
Proof. vm_compute. reflexivity. Qed.
Lemma demo_heap_empty : open_at (model_chan "M" 0 0) demo_heap = Some [].
Proof. vm_compute. reflexivity. Qed.

Lemma emu_events_nest_witness :
  open_at (model_chan "M" 0 0) (demo_run demo_open).2
    = nest "M" 0 (table_effect fn_table 0) demo_open []
  /\ (open_at (model_chan "M" 0 0) (demo_run demo_closed).2 = Some [] <->
      balanced (effect_of "M" 0 (table_effect fn_table 0) <$> demo_closed)).
Proof.
  split.
  - exact (proj1 (emu_events_nest demo_md [] 9 "M" 0 model_mpi_event (table_effect fn_table 0) demo_open demo_heap _ 0 []
      demo_hosts_mpi (mpi_stack_effect 0) (run_eta _ _ demo_open_ok) demo_heap_empty)).
  - exact (proj2 (emu_events_nest demo_md [] 9 "M" 0 model_mpi_event (table_effect fn_table 0) demo_closed demo_heap _ 0 []
      demo_hosts_mpi (mpi_stack_effect 0) (run_eta _ _ demo_closed_ok) demo_heap_empty) eq_refl).
Defined.

(** C29. The tables of the six models that have one are consistent: whenever an
    event of a category enters a state of a channel, some event of the same
    category leaves that state of that channel, and the other way round. *)
Theorem event_tables_paired t c v i a b st :
  t ∈ [Nosv.ss_table; Nanos6.ss_table; Openmp.fn_table; Mpi.fn_table; Tampi.ss_table; Nodes.ss_table] ->
  table_get t c v = Some (i, a, st) -> opposite a = Some b ->
  exists v', table_get t c v' = Some (i, b, st).
Proof.
  intros Ht. apply table_paired_sound;
    repeat (apply elem_of_cons in Ht as [->|Ht]; [vm_compute; reflexivity|]); by apply not_elem_of_nil in Ht.
Qed.

Lemma event_tables_paired_witness :
  exists v', table_get Nosv.ss_table (ch "A") v' = Some (Nosv.CH_SUBSYSTEM, POP, nosv_ss_values_Z ST_API_SUBMIT).
Proof.
  apply (event_tables_paired Nosv.ss_table (ch "A") (ch "s") Nosv.CH_SUBSYSTEM PUSH POP ST_API_SUBMIT);
    [by left|vm_compute; reflexivity|reflexivity].
Defined.
