(* ===== verification/TaskView.v ===== *)
(** * What the task models show of a thread

    A task model writes in channels of a thread what it runs: the invariant is
    that these channels hold the fields of the running body of the thread's
    stack, or nulls when nothing runs.  The proof is the same for nOS-V and
    Nanos6, which differ in the fields; it rests on what the operations of
    Task.v do to the running bodies of all the stacks. *)

From Stdlib Require Import Ascii.
From S2P Require Import Prelude Chan Pcf Task Heap Bay Mux Thread Event OvniModel OvniCorrect Table TaskModel.

(** ** Operations and the running bodies *)

Lemma task_body_op_Ok op s id bid m m' : task_body_op op s id bid m = (Ok tt, m') ->
  exists b, body_find (id, bid) m = Some b /\ op s (id, bid) m = (Ok tt, m').
Proof.
  unfold task_body_op. rewrite (mbind_run _ _ _ m m) by done. intros E.
  apply mbind_Ok in E as (t & ? & [_ ->]%found_Ok & E). apply mbind_Ok in E as (b & ? & [Hb ->]%found_Ok & E). eauto.
Qed.

Lemma on_top_Ok s k b m m' : on_top s k b m = (Ok tt, m') -> m' = m /\ body_stack b = Some s /\ body_get_top s m = Some k.
Proof. intros E. destruct (on_top_cases s k b m) as [E'|(E' & ? & ?)]; rewrite E' in E; by simplify_eq. Qed.

Lemma load_body_Ok k b m m' : load_body k m = (Ok b, m') -> m' = m /\ body_find k m = Some b.
Proof. unfold load_body, mbind, mget. by intros [? ->]%deref_Ok. Qed.

(** A pause, resumption or end works on the top of its stack. *)
Lemma task_pause_run s id bid m m' : task_pause s id bid m = (Ok tt, m') ->
  exists b, body_get_top s m = Some (id, bid) /\ body_stack b = Some s /\ body_find (id, bid) m = Some b /\
    m' = set_ts_bodies <[(id, bid) := with_state BODY_ST_PAUSED b]> m.
Proof.
  intros (b & Hb & E)%task_body_op_Ok. unfold body_pause in E.
  apply mbind_Ok in E as (b' & ? & [-> Hb']%load_body_Ok & E). simplify_eq.
  apply mbind_Ok in E as ([] & ? & [_ ->]%require_Ok & E). apply mbind_Ok in E as ([] & ? & [_ ->]%require_Ok & E).
  apply mbind_Ok in E as ([] & ? & (-> & Hs & Ht)%on_top_Ok & E). injection E as <-. eauto 10.
Qed.

Lemma task_resume_run s id bid m m' : task_resume s id bid m = (Ok tt, m') ->
  exists b, body_get_top s m = Some (id, bid) /\ body_stack b = Some s /\ body_find (id, bid) m = Some b /\
    m' = set_ts_bodies <[(id, bid) := with_state BODY_ST_RUNNING b]> m.
Proof.
  intros (b & Hb & E)%task_body_op_Ok. unfold body_resume in E.
  apply mbind_Ok in E as (b' & ? & [-> Hb']%load_body_Ok & E). simplify_eq.
  apply mbind_Ok in E as ([] & ? & [_ ->]%require_Ok & E).
  apply mbind_Ok in E as ([] & ? & (-> & Hs & Ht)%on_top_Ok & E). injection E as <-. eauto 10.
Qed.

Lemma task_end_run s id bid m m' : task_end s id bid m = (Ok tt, m') ->
  exists b, body_get_top s m = Some (id, bid) /\ body_stack b = Some s /\ body_find (id, bid) m = Some b /\
    m' = ended s (id, bid) b m.
Proof.
  intros (b & Hb & E)%task_body_op_Ok. unfold body_end in E.
  apply mbind_Ok in E as (b' & ? & [-> Hb']%load_body_Ok & E). simplify_eq.
  apply mbind_Ok in E as ([] & ? & [_ ->]%require_Ok & E).
  apply mbind_Ok in E as ([] & ? & (-> & Hs & Ht)%on_top_Ok & E). injection E as <-. eauto 10.
Qed.

Lemma top_elem s m k : body_get_top s m = Some k -> k ∈ stack_of m s.
Proof. unfold body_get_top. destruct (stack_of m s); simpl; [done|]. intros [= ->]. by left. Qed.

(** The body of a successful operation is on its stack, before or after. *)
Lemma op_on_stack op m m' s k : run_task_op op m = (Ok tt, m') -> op_target op = Some (s, k) ->
  k ∈ stack_of m s \/ k ∈ stack_of m' s.
Proof.
  intros E Ht. destruct op; simpl in Ht; simplify_eq; simpl in E.
  - apply task_execute_run in E as (b & _ & _ & _ & -> & _). right. by left.
  - apply task_pause_run in E as (b & ? & _). left. by apply top_elem.
  - apply task_resume_run in E as (b & ? & _). left. by apply top_elem.
  - apply task_end_run in E as (b & ? & _). left. by apply top_elem.
Qed.

(** *** The running body of every stack *)

Lemma running_unchanged s m m' : stack_of m' s = stack_of m s ->
  (forall k, body_get_top s m = Some k -> body_find k m' = body_find k m) ->
  body_get_running s m' = body_get_running s m.
Proof.
  intros Hs Hb. unfold body_get_running. unfold body_get_top in *. rewrite Hs.
  destruct (head (stack_of m s)) as [k|]; [|done]. by rewrite Hb.
Qed.

(** A successful operation does not change what the other stacks run. *)
Lemma running_other op m m' s : tasks_inv m -> run_task_op op m = (Ok tt, m') ->
  (forall k, op_target op <> Some (s, k)) -> body_get_running s m' = body_get_running s m.
Proof.
  intros HI E Hs. destruct (run_task_op_life op m HI) as (Hf & _ & Hst). pose proof (run_task_op_inv op m HI) as HI'.
  rewrite E in Hf, Hst, HI'. simpl in *. apply running_unchanged; [by apply Hst|]. intros k Hk. apply Hf. intros s0 Ht.
  apply top_elem in Hk. pose proof Hk as Hk'. rewrite <- (Hst s Hs) in Hk'.
  destruct (ti_stack _ HI _ _ Hk) as (b & Hb & Hbs & _). destruct (ti_stack _ HI' _ _ Hk') as (b' & Hb' & Hbs' & _).
  destruct (op_on_stack op m m' s0 k E Ht) as [Hin|Hin];
    [destruct (ti_stack _ HI _ _ Hin) as (? & ? & ? & _)|destruct (ti_stack _ HI' _ _ Hin) as (? & ? & ? & _)];
    simplify_eq; by apply (Hs k).
Qed.

Lemma execute_running s id bid m m' : task_execute s id bid m = (Ok tt, m') -> body_get_running s m' = Some (id, bid).
Proof.
  intros (b & Hb & Hr & _ & Hs & _)%task_execute_run. unfold body_get_running, body_get_top. rewrite Hs. simpl.
  rewrite Hb. by rewrite bool_decide_true.
Qed.

Lemma put_top_running s k b m : body_get_top s m = Some k ->
  body_get_running s (set_ts_bodies <[k := b]> m) = if bool_decide (body_st b = BODY_ST_RUNNING) then Some k else None.
Proof.
  intros Ht. unfold body_get_running. change (body_get_top s (set_ts_bodies <[k := b]> m)) with (body_get_top s m).
  rewrite Ht, body_find_put. by rewrite decide_True.
Qed.

Lemma pause_running s id bid m m' : task_pause s id bid m = (Ok tt, m') -> body_get_running s m' = None.
Proof. intros (b & Ht & _ & _ & ->)%task_pause_run. by rewrite put_top_running. Qed.
Lemma resume_running s id bid m m' : task_resume s id bid m = (Ok tt, m') -> body_get_running s m' = Some (id, bid).
Proof. intros (b & Ht & _ & _ & ->)%task_resume_run. by rewrite put_top_running. Qed.

(** *** The fields of tasks are never changed *)

(** The tables of [m'] extend those of [m]. *)
Definition tables_grow (m m' : tasks) : Prop := forall id t, task_find m id = Some t ->
  exists t', task_find m' id = Some t' /\ (is_Some (task_gid m t) -> task_gid m' t' = task_gid m t).

Lemma tables_grow_refl m : tables_grow m m.
Proof. intros id t Ht. eauto. Qed.

Lemma same_tables_grow m m' : ts_types m' = ts_types m ->
  (forall id, (fun t => task_type_id t) <$> task_find m' id = (fun t => task_type_id t) <$> task_find m id) ->
  tables_grow m m'.
Proof.
  intros Hty Ht id t E. specialize (Ht id). rewrite E in Ht. destruct (task_find m' id) as [t'|]; [|done].
  injection Ht as Ht. exists t'. split; [done|]. intros _. unfold task_gid, task_type_find. by rewrite Ht, Hty.
Qed.

Lemma tables_grow_trans m1 m2 m3 : tables_grow m1 m2 -> tables_grow m2 m3 -> tables_grow m1 m3.
Proof.
  intros G1 G2 id t Ht. destruct (G1 id t Ht) as (t2 & Ht2 & E2). destruct (G2 id t2 Ht2) as (t3 & Ht3 & E3).
  exists t3. split; [done|]. intros Hs. rewrite <- (E2 Hs). apply E3. by rewrite E2.
Qed.

Lemma grow_keeps {A} (op : M tasks A) : (forall m, tables_grow m (op m).2) <-> forall m0, keeps (tables_grow m0) op.
Proof.
  split.
  - intros H m0 m Hm. eapply tables_grow_trans; [exact Hm|apply H].
  - intros H m. by apply H, tables_grow_refl.
Qed.

Lemma grow_mod m0 f : (forall m, ts_types (f m) = ts_types m /\ ts_tasks (f m) = ts_tasks m) ->
  keeps (tables_grow m0) (mmod f).
Proof.
  intros Hf m Hm. eapply tables_grow_trans; [exact Hm|]. destruct (Hf m) as [H1 H2].
  apply same_tables_grow; [done|]. intros id. unfold task_find. simpl. by rewrite H2.
Qed.

Ltac grow_tac := repeat first [ progress kbind | apply keeps_get | apply keeps_deref | apply keeps_found | apply keeps_require
  | apply keeps_ret | apply keeps_fail | solve [apply grow_mod; done] | apply keeps_if
  | lazymatch goal with |- keeps _ (match _ with _ => _ end) => case_match end ].

Lemma task_create_grow ty id flags m : tables_grow m (task_create ty id flags m).2.
Proof.
  unfold task_create. rewrite (mbind_run _ _ _ m m) by done. destruct (task_find m id) eqn:Hid; [apply tables_grow_refl|].
  destruct (task_type_find m ty) as [tt'|]; [|apply tables_grow_refl]. rewrite (mbind_run _ _ _ tt' m) by done. simpl.
  intros id' t Ht. exists t. split; [|done]. unfold task_find in *. simpl. rewrite lookup_insert_ne; [done|]. congruence.
Qed.

Lemma task_type_create_grow ty label m : tables_grow m (task_type_create ty label m).2.
Proof.
  unfold task_type_create. rewrite (mbind_run _ _ _ m m) by done.
  destruct (find_key _ _ _) eqn:Hid; [apply tables_grow_refl|].
  rewrite mbind_require. case_match; [|apply tables_grow_refl].
  cbv beta zeta. rewrite mbind_require. case_match; [|apply tables_grow_refl].
  intros id t Ht. exists t. split; [done|]. unfold task_gid, task_type_find. simpl. rewrite find_key_snoc.
  destruct (find_key tt_id (task_type_id t) (ts_types m)); [done|]. intros [? [=]].
Qed.

Lemma create_body_grow m0 id t bid : keeps (tables_grow m0) (create_body id t bid).
Proof.
  unfold create_body, body_create, put_body. apply keeps_if; [apply keeps_fail|]. apply keeps_bind; [grow_tac|intros _].
  intros m Hm. eapply tables_grow_trans; [exact Hm|]. apply same_tables_grow; [done|]. intros id'.
  unfold task_find. simpl. destruct (decide (id = id')) as [->|Hne]; [|by rewrite lookup_alter_ne].
  rewrite lookup_alter_eq. by destruct (ts_tasks m !! id').
Qed.

Lemma run_task_op_grow op m : tables_grow m (run_task_op op m).2.
Proof.
  assert (forall m0 s k, keeps (tables_grow m0) (body_execute s k)) as Hex.
  { intros. unfold body_execute, load_body, put_body. grow_tac. }
  destruct op; simpl; [apply task_type_create_grow|apply task_create_grow|..]; revert m; apply grow_keeps; intros m0.
  - unfold task_execute. kbind; [grow_tac..| |apply Hex]. case_match; [grow_tac|apply create_body_grow].
  - unfold task_pause, task_body_op, body_pause, on_top, load_body, put_body. grow_tac.
  - unfold task_resume, task_body_op, body_resume, on_top, load_body, put_body. grow_tac.
  - unfold task_end, task_body_op, body_end, on_top, load_body, put_body. grow_tac.
Qed.

(** ** Writing channels *)

Lemma run_op_tasks op a h : (h_tasks (run_op op a h).2, h_hwc (run_op op a h).2) = (h_tasks h, h_hwc h).
Proof.
  destruct (run_op_shape op a h) as [(r & -> & _) | (c & c' & _ & _ & _ & _ & ->)]; [done|].
  assert (keeps (fun s => (h_tasks s, h_hwc s) = (h_tasks h, h_hwc h)) (store a c' ;;; set_dirty a)) as K; [|by apply K].
  unfold set_dirty, load, store; cbn; unfold cb_chan_is_dirty.
  repeat first [progress kbind | apply keeps_get | apply keeps_deref | apply keeps_ret | apply keeps_fail
    | by intros s <- | case_match].
Qed.

(** From [h] to [h'] the channels of [L] were written, one value each. *)
Record wrote (L : list (addr * value)) (h h' : heap) : Prop := {
  wr_good : all_chans chan_good h';
  wr_shows : forall a v, (a, v) ∈ L -> shows h' a v;
  wr_rest : forall b, b ∉ L.*1 -> h_chan h' !! b = h_chan h !! b;
  wr_world : world h' = world h;
  wr_tasks : h_tasks h' = h_tasks h
}.

Lemma wrote_nil h : all_chans chan_good h -> wrote [] h h.
Proof. split; try done. by intros a v ?%elem_of_nil. Qed.

Lemma wrote_set a v h h' : all_chans chan_good h -> chan_set a v h = (Ok tt, h') -> wrote [(a, v)] h h'.
Proof.
  intros Hg E. destruct (chan_set_run a v h h' Hg E) as (Hg' & Hs & Hr & Hw).
  pose proof (run_op_tasks (OpSet v) a h) as Ht. simpl in Ht. rewrite E in Ht. injection Ht as Ht _. split; try done.
  - by intros b w [= -> ->]%list_elem_of_singleton.
  - intros b Hb. apply Hr. intros ->. apply Hb. by left.
Qed.

Lemma wrote_trans L1 L2 h h1 h2 : (forall a, a ∈ L1.*1 -> a ∉ L2.*1) -> wrote L1 h h1 -> wrote L2 h1 h2 -> wrote (L1 ++ L2) h h2.
Proof.
  intros Hd [G1 S1 R1 W1 T1] [G2 S2 R2 W2 T2]. split; [done| | |congruence|congruence].
  - intros a v [Ha|Ha]%elem_of_app; [|by apply S2]. eapply shows_chan; [|by apply S1]. apply R2, Hd.
    apply list_elem_of_fmap. by exists (a, v).
  - intros b. rewrite fmap_app, not_elem_of_app. intros [H1 H2]. by rewrite R2, R1.
Qed.

(** One more channel in a sequence of writes to channels of a thread. *)
Lemma wrote_set_then {A} m t i v L (k : M heap A) a h h' : all_chans chan_good h -> i ∉ L.*1 ->
  (chan_set (model_chan m t i) v ;;; k) h = (Ok a, h') ->
  (forall h1, all_chans chan_good h1 -> world h1 = world h -> k h1 = (Ok a, h') ->
    wrote ((fun iv => (model_chan m t iv.1, iv.2)) <$> L) h1 h') ->
  wrote ((fun iv => (model_chan m t iv.1, iv.2)) <$> (i, v) :: L) h h'.
Proof.
  intros Hg Hi E Hk. apply mbind_Ok in E as ([] & h1 & E1 & E2). pose proof (wrote_set _ _ _ _ Hg E1) as W.
  eapply (wrote_trans [_]); [|exact W|apply Hk; [apply W|by apply W|done]].
  intros b Hb%list_elem_of_singleton ([b' w] & Eb & ([j w'] & [= -> ->] & Hin)%list_elem_of_fmap)%list_elem_of_fmap.
  simpl in Hb, Eb. rewrite Hb in Eb. apply model_chan_inj in Eb as (_ & _ & ->). apply Hi. apply list_elem_of_fmap. by exists (j, w').
Qed.

(** ** The invariant *)

Section View.
Variables (m : ascii) (idx : list nat).
(** The values that a thread running a body (or none) shows in the channels [idx]. *)
Variable fields : tasks -> proc -> option bref -> option (list (nat * value)).
Hypothesis fields_idx : forall ts pr r L, fields ts pr r = Some L -> forall i v, (i, v) ∈ L -> i ∈ idx.
Hypothesis fields_grow : forall ts ts' pr r L, tables_grow ts ts' -> fields ts pr r = Some L -> fields ts' pr r = Some L.

Definition view (h : heap) (ts : tasks) (pr : proc) (t : nat) : Prop :=
  exists L, fields ts pr (body_get_running t ts) = Some L /\
    forall i v, (i, v) ∈ L -> shows h (model_chan m t i) v.

(** The tables of a process are consistent and its threads show what they run. *)
Record view_inv (h : heap) (p : nat) (ts : tasks) (pr : proc) : Prop := {
  vi_good : all_chans chan_good h;
  vi_tasks : h_tasks h !! (ch m, p) = Some ts;
  vi_proc : h_proc h !! p = Some pr;
  vi_inv : tasks_inv ts;
  vi_view : forall t th, h_thread h !! t = Some th -> t_proc th = p -> view h ts pr t
}.

Lemma view_frame h h' ts ts' pr t : view h ts pr t -> tables_grow ts ts' ->
  body_get_running t ts' = body_get_running t ts ->
  (forall i, i ∈ idx -> h_chan h' !! model_chan m t i = h_chan h !! model_chan m t i) -> view h' ts' pr t.
Proof.
  intros (L & HL & Hs) Hg Hr Hc. exists L. rewrite Hr. split; [by eapply fields_grow|].
  intros i v Hi. eapply shows_chan; [|by apply Hs]. apply Hc. by eapply fields_idx.
Qed.

(** A step that changes no field and no running body. *)
Lemma view_inv_frame h h' p ts ts' pr : view_inv h p ts pr -> all_chans chan_good h' -> world h' = world h ->
  h_tasks h' !! (ch m, p) = Some ts' -> tasks_inv ts' -> tables_grow ts ts' ->
  (forall t, body_get_running t ts' = body_get_running t ts) ->
  (forall t i, i ∈ idx -> h_chan h' !! model_chan m t i = h_chan h !! model_chan m t i) -> view_inv h' p ts' pr.
Proof.
  intros [Hg Ht Hp Hi Hv] Hg' W Ht' Hi' Hgr Hr Hc. injection W as Wt _ Wp _ _ _. split; try done; [by rewrite Wp|].
  intros t th Eth Eq. rewrite Wt in Eth. eapply view_frame; [by eapply Hv|done|done|]. auto.
Qed.

(** The tables change, with the channels as they are. *)
Lemma view_inv_op h h' p ts pr op : view_inv h p ts pr -> op_target op = None ->
  on_tasks m p (run_task_op op) h = (Ok tt, h') -> exists ts', view_inv h' p ts' pr.
Proof.
  intros HV Ht E. unfold on_tasks in E. rewrite (vi_tasks _ _ _ _ HV) in E.
  destruct (run_task_op op ts) as [r ts'] eqn:Eop. injection E as -> <-. exists ts'.
  pose proof (run_task_op_inv op ts (vi_inv _ _ _ _ HV)) as HI. pose proof (run_task_op_grow op ts) as HG.
  rewrite Eop in HI, HG. eapply view_inv_frame; try done.
  - apply HV.
  - simpl. by rewrite lookup_insert_eq.
  - intros t. eapply running_other; [apply HV|exact Eop|]. by rewrite Ht.
Qed.

(** A thread changes what it runs: the operation on the tables, one write to a
    channel that is not a field, and the writes of the fields. *)
Lemma view_inv_update h h1 h2 h3 p ts ts1 pr op t k L : view_inv h p ts pr ->
  run_task_op op ts = (Ok tt, ts1) -> op_target op = Some (t, k) -> h1 = set_h_tasks <[(ch m, p) := ts1]> h ->
  (forall b, (forall u i, i ∈ idx -> b = model_chan m u i -> h_chan h2 !! b = h_chan h1 !! b)) ->
  all_chans chan_good h2 -> world h2 = world h1 -> h_tasks h2 = h_tasks h1 ->
  fields ts1 pr (body_get_running t ts1) = Some L ->
  wrote ((fun iv => (model_chan m t iv.1, iv.2)) <$> L) h2 h3 -> view_inv h3 p ts1 pr.
Proof.
  intros HV Eop Ht -> Hc Hg2 W2 T2 HL [G3 S3 R3 W3 T3].
  pose proof (run_task_op_inv op ts (vi_inv _ _ _ _ HV)) as HI. pose proof (run_task_op_grow op ts) as HG.
  rewrite Eop in HI, HG. simpl in HI, HG. rewrite W2 in W3. injection W3 as Wt _ Wp _ _ _. split; try done.
  - rewrite T3, T2. simpl. by rewrite lookup_insert_eq.
  - rewrite Wp. apply HV.
  - intros u th Eth Eq. rewrite Wt in Eth. simpl in Eth. destruct (decide (u = t)) as [->|Hne].
    + exists L. split; [done|]. intros i v Hi. apply S3, list_elem_of_fmap. by exists (i, v).
    + eapply view_frame; [by eapply HV|done| |].
      * eapply running_other; [apply HV|exact Eop|]. rewrite Ht. congruence.
      * intros i Hi. rewrite R3.
        -- by eapply Hc.
        -- intros ([b w] & E & ([j w'] & [= -> ->] & _)%list_elem_of_fmap)%list_elem_of_fmap.
           by apply model_chan_inj in E as (_ & ? & _).
Qed.
(** Writes to other channels. *)
Lemma run_op_view op a p ts pr : (forall t i, i ∈ idx -> a <> model_chan m t i) ->
  keeps_ok (fun h => view_inv h p ts pr) (run_op op a).
Proof.
  intros Ha h [] h' HV E. destruct (run_op_good op a h h' (vi_good _ _ _ _ HV) E) as (Hg & Hc & W).
  pose proof (run_op_tasks op a h) as T. rewrite E in T. injection T as T _.
  eapply view_inv_frame; [exact HV|done|done| |apply HV|apply tables_grow_refl|done|].
  - rewrite T. apply HV.
  - intros t i Hi. apply Hc. intros Eq. by apply (Ha t i).
Qed.

Lemma mod_view f p ts pr : (forall h, h_chan (f h) = h_chan h /\ world (f h) = world h /\ h_tasks (f h) = h_tasks h) ->
  keeps_ok (fun h => view_inv h p ts pr) (mmod f).
Proof.
  intros Hf. apply keeps_ok_mod. intros h HV. destruct (Hf h) as (Ec & Ew & Et).
  eapply view_inv_frame; [exact HV| |done| |apply HV|apply tables_grow_refl|done|].
  - intros a c. simpl. rewrite Ec. apply HV.
  - rewrite Et. apply HV.
  - intros. by rewrite Ec.
Qed.
End View.
