(* ===== verification/TaskCorrect.v ===== *)
(** * nOS-V and Nanos6 threads show what they run

    After every event of the model that is accepted, the channels of each
    thread of the process hold the fields of the running body of its stack, or
    nulls when it runs none: the events of tasks, nested or not, keep the
    tables and the channels in step. *)

From Stdlib Require Import Ascii.
From S2P Require Import Prelude Chan Pcf Task Heap Bay Mux Thread Event OvniModel OvniCorrect Table TaskModel.
From S2P Require Import TaskView Nosv Nanos6.

(** ** The fields *)

Definition rank_field (i : nat) (pr : proc) (v : value) : list (nat * value) :=
  if 0 <=? proc_rank pr then [(i, v)] else [].

Definition nosv_fields (ts : tasks) (pr : proc) (r : option bref) : option (list (nat * value)) :=
  match r with
  | Some k =>
      t ← task_find ts k.1;
      gid ← task_gid ts t;
      Some ([(CH_BODYID, value_int64 k.2); (Nosv.CH_TASKID, value_int64 k.1); (Nosv.CH_TYPE, value_int64 gid);
             (CH_APPID, value_int64 (proc_appid pr))]
            ++ rank_field Nosv.CH_RANK pr (value_int64 (proc_rank pr + 1)))
  | None =>
      Some ([(CH_BODYID, value_null); (Nosv.CH_TASKID, value_null); (Nosv.CH_TYPE, value_null); (CH_APPID, value_null)]
            ++ rank_field Nosv.CH_RANK pr value_null)
  end.
Definition nosv_idx : list nat := [CH_BODYID; Nosv.CH_TASKID; Nosv.CH_TYPE; CH_APPID; Nosv.CH_RANK].

Definition nanos6_fields (ts : tasks) (pr : proc) (r : option bref) : option (list (nat * value)) :=
  match r with
  | Some k =>
      t ← task_find ts k.1;
      gid ← task_gid ts t;
      Some ([(Nanos6.CH_TASKID, value_int64 k.1); (Nanos6.CH_TYPE, value_int64 gid)]
            ++ rank_field Nanos6.CH_RANK pr (value_int64 (proc_rank pr + 1)))
  | None =>
      Some ([(Nanos6.CH_TASKID, value_null); (Nanos6.CH_TYPE, value_null)] ++ rank_field Nanos6.CH_RANK pr value_null)
  end.
Definition nanos6_idx : list nat := [Nanos6.CH_TASKID; Nanos6.CH_TYPE; Nanos6.CH_RANK].

Lemma gid_grow ts ts' id t gid : tables_grow ts ts' -> task_find ts id = Some t -> task_gid ts t = Some gid ->
  exists t', task_find ts' id = Some t' /\ task_gid ts' t' = Some gid.
Proof. intros Hg Ht Hgid. destruct (Hg id t Ht) as (t' & Ht' & E). exists t'. split; [done|]. by rewrite E, Hgid. Qed.

Lemma nosv_fields_grow ts ts' pr r L : tables_grow ts ts' -> nosv_fields ts pr r = Some L -> nosv_fields ts' pr r = Some L.
Proof.
  intros Hg. destruct r as [k|]; [|done]. simpl. intros (t & Ht & (gid & Hgid & <-)%bind_Some)%bind_Some.
  destruct (gid_grow _ _ _ _ _ Hg Ht Hgid) as (t' & -> & E). simpl. by rewrite E.
Qed.
Lemma nanos6_fields_grow ts ts' pr r L : tables_grow ts ts' -> nanos6_fields ts pr r = Some L -> nanos6_fields ts' pr r = Some L.
Proof.
  intros Hg. destruct r as [k|]; [|done]. simpl. intros (t & Ht & (gid & Hgid & <-)%bind_Some)%bind_Some.
  destruct (gid_grow _ _ _ _ _ Hg Ht Hgid) as (t' & -> & E). simpl. by rewrite E.
Qed.

Lemma rank_field_idx i pr v j w : (j, w) ∈ rank_field i pr v -> j = i.
Proof. unfold rank_field. destruct (0 <=? _); [|by intros ?%elem_of_nil]. by intros [= -> ->]%list_elem_of_singleton. Qed.

Ltac fields_idx_tac :=
  intros [= <-] i v Hin;
  repeat (apply elem_of_cons in Hin as [[= -> ->]|Hin]; [set_solver|]);
  apply rank_field_idx in Hin as ->; set_solver.

Lemma nosv_fields_idx ts pr r L : nosv_fields ts pr r = Some L -> forall i v, (i, v) ∈ L -> i ∈ nosv_idx.
Proof.
  destruct r as [k|]; simpl; [intros (t & _ & (gid & _ & E)%bind_Some)%bind_Some; revert E|]; fields_idx_tac.
Qed.
Lemma nanos6_fields_idx ts pr r L : nanos6_fields ts pr r = Some L -> forall i v, (i, v) ∈ L -> i ∈ nanos6_idx.
Proof.
  destruct r as [k|]; simpl; [intros (t & _ & (gid & _ & E)%bind_Some)%bind_Some; revert E|]; fields_idx_tac.
Qed.

(** ** The writes of the handlers *)

Lemma rank_wrote m t i pr v h h' : all_chans chan_good h ->
  (if 0 <=? proc_rank pr then chan_set (model_chan m t i) v else mret tt) h = (Ok tt, h') ->
  wrote ((fun iv => (model_chan m t iv.1, iv.2)) <$> rank_field i pr v) h h'.
Proof.
  unfold rank_field. intros Hg E. destruct (0 <=? proc_rank pr); [by apply wrote_set|]. injection E as <-. by apply wrote_nil.
Qed.

Lemma load_proc_now p h pr h' : load_proc p h = (Ok pr, h') -> h' = h /\ h_proc h !! p = Some pr.
Proof. unfold load_proc, mbind, mget. by intros [? ->]%deref_Ok. Qed.
Lemma world_proc h h' : world h' = world h -> h_proc h' = h_proc h.
Proof. by intros [= _ _ -> _ _ _]. Qed.
Lemma load_tasks_run m p h ts h' : load_tasks m p h = (Ok ts, h') -> h' = h /\ h_tasks h !! (ch m, p) = Some ts.
Proof. unfold load_tasks, mbind, mget. by intros [? ->]%deref_Ok. Qed.

(** The shape of the handlers: a list of writes, and then the rank. *)
Fixpoint set_all (m : ascii) (t : nat) (L : list (nat * value)) (k : M heap unit) : M heap unit :=
  match L with
  | [] => k
  | (i, v) :: L' => chan_set (model_chan m t i) v ;;; set_all m t L' k
  end.

Lemma set_all_wrote m t L k R h h' : NoDup (L.*1 ++ R.*1) -> all_chans chan_good h ->
  (forall h1, all_chans chan_good h1 -> world h1 = world h -> k h1 = (Ok tt, h') ->
     wrote ((fun iv => (model_chan m t iv.1, iv.2)) <$> R) h1 h') ->
  set_all m t L k h = (Ok tt, h') -> wrote ((fun iv => (model_chan m t iv.1, iv.2)) <$> L ++ R) h h'.
Proof.
  revert h. induction L as [|[i v] L IH]; intros h Hn Hg Hk E; simpl in E; [by apply Hk|].
  simpl in Hn. apply list.NoDup_cons in Hn as [Hi Hn].
  eapply (wrote_set_then _ _ _ _ (L ++ R)); [done|by rewrite fmap_app|exact E|].
  intros h1 Hg1 W1 E1. apply IH; [done|done| |done]. intros h2 Hg2 W2 E2. apply Hk; [done|congruence|done].
Qed.

Lemma set_fields_wrote m t i v L k h h' pr : NoDup (L.*1 ++ [i]) -> all_chans chan_good h ->
  (forall h1, world h1 = world h -> k h1 = (Ok tt, h') ->
     (if 0 <=? proc_rank pr then chan_set (model_chan m t i) v else mret tt) h1 = (Ok tt, h')) ->
  set_all m t L k h = (Ok tt, h') ->
  wrote ((fun iv => (model_chan m t iv.1, iv.2)) <$> L ++ rank_field i pr v) h h'.
Proof.
  intros Hn Hg Hk. apply set_all_wrote; [|done|].
  - unfold rank_field. destruct (0 <=? _); [done|]. simpl. rewrite app_nil_r. by apply list.NoDup_app in Hn as [? _].
  - intros h1 Hg1 W1 E1. apply rank_wrote; auto.
Qed.

Ltac nodup_tac := apply (bool_decide_unpack _); reflexivity.

(** The rank written after the process is read again, or with the one read before. *)
Lemma proc_again {A} p pr (k : proc -> M heap A) h h1 r : h_proc h !! p = Some pr -> world h1 = world h ->
  (let* q := load_proc p in k q) h1 = r -> k pr h1 = r.
Proof. intros Hp W <-. unfold load_proc, mbind, mget. by rewrite (world_proc _ _ W), Hp. Qed.

Section Handlers.
Variables (x : ctx) (h h' : heap) (ts : tasks) (pr : proc).
Hypothesis Hgood : all_chans chan_good h.
Hypothesis Hproc : h_proc h !! cx_proc x = Some pr.

(** The fields of [r] were written in the channels of the thread. *)
Definition showed (m : ascii) (fields : tasks -> proc -> option bref -> option (list (nat * value))) (r : option bref) : Prop :=
  h_tasks h !! (ch m, cx_proc x) = Some ts -> exists L, fields ts pr r = Some L /\
    wrote ((fun iv => (model_chan m (cx_thread x) iv.1, iv.2)) <$> L) h h'.

Lemma chan_body_stopped_wrote : chan_body_stopped x h = (Ok tt, h') -> showed "V" nosv_fields None.
Proof.
  intros E _. eexists. split; [reflexivity|].
  eapply (set_fields_wrote "V" (cx_thread x) Nosv.CH_RANK value_null
    [(CH_BODYID, value_null); (Nosv.CH_TASKID, value_null); (Nosv.CH_TYPE, value_null); (CH_APPID, value_null)]);
    [nodup_tac|done| |exact E]. intros h1 W1.
  exact (proc_again (cx_proc x) pr (fun q => if 0 <=? proc_rank q then chan_set (model_chan "V" (cx_thread x) Nosv.CH_RANK)
    value_null else mret tt) h h1 _ Hproc W1).
Qed.

Lemma show_body_wrote k t gid : task_find ts k.1 = Some t -> task_gid ts t = Some gid ->
  show_body x k gid h = (Ok tt, h') -> showed "V" nosv_fields (Some k).
Proof.
  intros Ht Hgid E _. unfold show_body in E. apply mbind_Ok in E as (pr' & ? & [-> Hp]%load_proc_now & E).
  rewrite Hproc in Hp. injection Hp as <-. eexists. split; [simpl; rewrite Ht; simpl; rewrite Hgid; reflexivity|].
  eapply (set_fields_wrote "V" (cx_thread x) Nosv.CH_RANK (value_int64 (proc_rank pr + 1))
    [(CH_BODYID, value_int64 k.2); (Nosv.CH_TASKID, value_int64 k.1); (Nosv.CH_TYPE, value_int64 gid);
     (CH_APPID, value_int64 (proc_appid pr))]); [nodup_tac|done| |exact E]. done.
Qed.

Lemma chan_body_running_wrote r : chan_body_running x r h = (Ok tt, h') -> showed "V" nosv_fields r.
Proof.
  intros E Hts. unfold chan_body_running in E. apply mbind_Ok in E as (k & ? & [-> ->]%deref_Ok & E).
  apply mbind_Ok in E as (ts' & ? & [-> Hts']%load_tasks_run & E). rewrite Hts in Hts'. injection Hts' as <-.
  apply mbind_Ok in E as (t & ? & [Ht ->]%deref_Ok & E). apply mbind_Ok in E as (pr' & ? & [-> _]%load_proc_now & E).
  case_match; [discriminate|]. apply mbind_Ok in E as (gid & ? & [Hgid ->]%deref_Ok & E).
  do 2 (case_match; [discriminate|]). by eapply show_body_wrote.
Qed.

Lemma chan_body_switch_wrote p r : chan_body_switch x p r h = (Ok tt, h') -> showed "V" nosv_fields r.
Proof.
  intros E Hts. unfold chan_body_switch in E. apply mbind_Ok in E as (k0 & ? & [-> ->]%found_Ok & E).
  apply mbind_Ok in E as (k & ? & [-> ->]%found_Ok & E). case_match; [discriminate|].
  apply mbind_Ok in E as (ts' & ? & [-> Hts']%load_tasks_run & E). rewrite Hts in Hts'. injection Hts' as <-.
  apply mbind_Ok in E as (t & ? & [Ht ->]%deref_Ok & E).
  case_match; [discriminate|]. apply mbind_Ok in E as (gid & ? & [Hgid ->]%deref_Ok & E).
  case_match; [discriminate|]. by eapply show_body_wrote.
Qed.

Lemma chan_task_stopped_wrote : chan_task_stopped x h = (Ok tt, h') -> showed "6" nanos6_fields None.
Proof.
  intros E _. eexists. split; [reflexivity|].
  eapply (set_fields_wrote "6" (cx_thread x) Nanos6.CH_RANK value_null
    [(Nanos6.CH_TASKID, value_null); (Nanos6.CH_TYPE, value_null)]);
    [nodup_tac|done| |exact E]. intros h1 W1.
  exact (proc_again (cx_proc x) pr (fun q => if 0 <=? proc_rank q then chan_set (model_chan "6" (cx_thread x) Nanos6.CH_RANK)
    value_null else mret tt) h h1 _ Hproc W1).
Qed.

Lemma show_task_wrote k : show_task x k.1 h = (Ok tt, h') -> showed "6" nanos6_fields (Some k).
Proof.
  intros E Hts. unfold show_task in E.
  apply mbind_Ok in E as (ts' & ? & [-> Hts']%load_tasks_run & E). rewrite Hts in Hts'. injection Hts' as <-.
  apply mbind_Ok in E as (t & ? & [Ht ->]%deref_Ok & E). apply mbind_Ok in E as (pr' & ? & [-> Hp]%load_proc_now & E).
  rewrite Hproc in Hp. injection Hp as <-. case_match; [discriminate|].
  apply mbind_Ok in E as (gid & ? & [Hgid ->]%deref_Ok & E). case_match; [discriminate|].
  eexists. split; [simpl; rewrite Ht; simpl; rewrite Hgid; reflexivity|].
  eapply (set_fields_wrote "6" (cx_thread x) Nanos6.CH_RANK (value_int64 (proc_rank pr + 1))
    [(Nanos6.CH_TASKID, value_int64 k.1); (Nanos6.CH_TYPE, value_int64 gid)]); [nodup_tac|done| |exact E]. done.
Qed.

Lemma chan_task_running_wrote r : chan_task_running x (fst <$> r) h = (Ok tt, h') -> showed "6" nanos6_fields r.
Proof.
  unfold chan_task_running. intros (id & ? & [Hr ->]%deref_Ok & E)%mbind_Ok.
  destruct r as [k|]; [|discriminate]. injection Hr as <-. by apply show_task_wrote.
Qed.

Lemma chan_task_switch_wrote p r : chan_task_switch x p (fst <$> r) h = (Ok tt, h') -> showed "6" nanos6_fields r.
Proof.
  unfold chan_task_switch. intros (id & ? & [Hp ->]%found_Ok & E)%mbind_Ok.
  apply mbind_Ok in E as (id' & ? & [Hr ->]%found_Ok & E). case_match; [discriminate|].
  destruct r as [k|]; [|discriminate]. injection Hr as <-. by apply show_task_wrote.
Qed.
End Handlers.

(** ** Updates *)

(** The event changed what its thread runs, by an operation of task.c. *)
Lemma change_task_run m x id bid h h1 ts : h_tasks h !! (ch m, cx_proc x) = Some ts ->
  change_task m x id bid h = (Ok tt, h1) ->
  exists op ts1 k, run_task_op op ts = (Ok tt, ts1) /\ op_target op = Some (cx_thread x, k) /\
    h1 = set_h_tasks <[(ch m, cx_proc x) := ts1]> h /\
    (is_ch (ee_v (cx_ev x)) "p" = true -> body_get_running (cx_thread x) ts1 = None).
Proof.
  intros Hts E.
  assert (forall op k, op_target op = Some (cx_thread x, k) -> on_tasks m (cx_proc x) (run_task_op op) h = (Ok tt, h1) ->
    (is_ch (ee_v (cx_ev x)) "p" = true -> forall ts1, run_task_op op ts = (Ok tt, ts1) ->
      body_get_running (cx_thread x) ts1 = None) ->
    exists op ts1 k, run_task_op op ts = (Ok tt, ts1) /\ op_target op = Some (cx_thread x, k) /\
    h1 = set_h_tasks <[(ch m, cx_proc x) := ts1]> h /\
    (is_ch (ee_v (cx_ev x)) "p" = true -> body_get_running (cx_thread x) ts1 = None)) as Hop.
  { intros op k Ht E' Hp. unfold on_tasks in E'. rewrite Hts in E'. destruct (run_task_op op ts) as [r ts1] eqn:Eo.
    injection E' as -> <-. exists op, ts1, k. split_and!; auto. }
  unfold change_task in E.
  destruct (is_ch (ee_v (cx_ev x)) "x") eqn:Hx.
  { eapply (Hop (OpExecute (cx_thread x) id bid)); [done|exact E|]. intros Hp. by rewrite (is_ch_ne _ "x" "p") in Hp. }
  destruct (is_ch (ee_v (cx_ev x)) "e") eqn:He.
  { eapply (Hop (OpEnd (cx_thread x) id bid)); [done|exact E|]. intros Hp. by rewrite (is_ch_ne _ "e" "p") in Hp. }
  destruct (is_ch (ee_v (cx_ev x)) "p").
  { eapply (Hop (OpPause (cx_thread x) id bid)); [done|exact E|]. intros _ ts1. apply pause_running. }
  destruct (is_ch (ee_v (cx_ev x)) "r"); [|discriminate].
  by eapply (Hop (OpResume (cx_thread x) id bid)).
Qed.

(** A thread that stops shows nothing only when it runs nothing. *)
Lemma expand_stops v w r tr h h' : expand_transition_value v w r h = (Ok tr, h') -> h' = h /\
  (one_of tr "ep" = true -> is_ch v "p" = true \/ r = false).
Proof.
  unfold expand_transition_value. destruct (is_ch v "X" || is_ch v "E"); [discriminate|].
  destruct (is_ch v "x" && w); [intros [= <- <-]; by split|].
  destruct (is_ch v "e" && r) eqn:Her; intros [= <- <-]; (split; [done|]); [done|].
  simpl. intros [He|[Hp|[=]]%orb_true_iff]%orb_true_iff; [|by left]. right. by rewrite He in Her.
Qed.

Section Update.
Variables (m : ascii) (idx : list nat) (ss : nat) (body : Z).
Variable fields : tasks -> proc -> option bref -> option (list (nat * value)).
Hypothesis fields_idx : forall ts pr r L, fields ts pr r = Some L -> forall i v, (i, v) ∈ L -> i ∈ idx.
Hypothesis fields_grow : forall ts ts' pr r L, tables_grow ts ts' -> fields ts pr r = Some L -> fields ts' pr r = Some L.
Hypothesis ss_idx : ss ∉ idx.

Lemma ss_channel_keeps (P : heap -> Prop) a v : (forall op, keeps_ok P (run_op op a)) ->
  keeps_ok P (update_task_ss_channel a body v).
Proof.
  intros K. unfold update_task_ss_channel. apply keeps_ok_if; [apply (K (OpPush (value_int64 body)))|].
  apply keeps_ok_if; [apply (K (OpPop (value_int64 body)))|apply keeps_ok_quiet, quiet_ret].
Qed.

Lemma update_view x h h1 h2 h3 ts ts1 pr op k : view_inv m fields h (cx_proc x) ts pr ->
  run_task_op op ts = (Ok tt, ts1) -> op_target op = Some (cx_thread x, k) ->
  h1 = set_h_tasks <[(ch m, cx_proc x) := ts1]> h ->
  update_task_ss_channel (model_chan m (cx_thread x) ss) body (ee_v (cx_ev x)) h1 = (Ok tt, h2) ->
  (all_chans chan_good h2 -> h_proc h2 !! cx_proc x = Some pr ->
    showed x h2 h3 ts1 pr m fields (body_get_running (cx_thread x) ts1)) ->
  view_inv m fields h3 (cx_proc x) ts1 pr.
Proof.
  intros HV Eop Ht Eh1 E2 Hshow.
  set (P := fun h' : heap => all_chans chan_good h' /\ world h' = world h1 /\ h_tasks h' = h_tasks h1 /\
    forall b, b <> model_chan m (cx_thread x) ss -> h_chan h' !! b = h_chan h1 !! b).
  assert (P h2) as (Hg2 & W2 & T2 & C2).
  { eapply (ss_channel_keeps P); [| |exact E2]; [|by split; [subst h1; exact (vi_good _ _ _ _ _ _ HV)|]].
    intros o h' [] h'' (Hg & W & T & C) Eo. destruct (run_op_good o _ h' h'' Hg Eo) as (Hg' & C' & W').
    pose proof (run_op_tasks o (model_chan m (cx_thread x) ss) h') as T'. rewrite Eo in T'. injection T' as T' _. simpl in T'.
    split_and!; [done|congruence|congruence|]. intros b Hb. by rewrite C', C. }
  destruct Hshow as (L & HL & W3); [done| | |].
  - rewrite (world_proc _ _ W2), Eh1. apply HV.
  - rewrite T2, Eh1. simpl. by rewrite lookup_insert_eq.
  - eapply (view_inv_update m idx fields); try eassumption. intros b u i Hi ->. apply C2.
    intros (_ & _ & ->)%model_chan_inj. done.
Qed.
End Update.

(** ** The events *)

Lemma one_of_cons v c cs : one_of v (String c cs) = is_ch v c || one_of v cs.
Proof. done. Qed.

(** The entries of a table, checked one by one. *)
Lemma table_get_forall (P : entry -> bool) tbl c v e : forallb (fun q => P q.2) (entries tbl) = true ->
  table_get tbl c v = Some e -> P e = true.
Proof.
  intros H (l & El & Ev)%bind_Some. apply at_char_elem in El as (c' & Hl & _). apply at_char_elem in Ev as (v' & Hv & _).
  rewrite forallb_forall in H. apply (H ((c', v'), e)). apply list_elem_of_In. unfold entries.
  apply list_elem_of_bind. exists (c', l). split; [|done]. simpl. apply list_elem_of_fmap. by exists (v', e).
Qed.

Section Events.
Variables (m : ascii) (idx : list nat).
Variable fields : tasks -> proc -> option bref -> option (list (nat * value)).
Hypothesis fields_idx : forall ts pr r L, fields ts pr r = Some L -> forall i v, (i, v) ∈ L -> i ∈ idx.
Hypothesis fields_grow : forall ts ts' pr r L, tables_grow ts ts' -> fields ts pr r = Some L -> fields ts' pr r = Some L.

(** An event of the table does not write the fields. *)
Lemma run_table_view tbl x p ts pr : forallb (fun q => bool_decide (q.2.1.1 ∉ idx)) (entries tbl) = true ->
  keeps_ok (fun h => view_inv m fields h p ts pr) (run_table m tbl x).
Proof.
  intros Ht. unfold run_table. destruct (table_get tbl _ _) as [[[i a] st]|] eqn:E; [|apply keeps_ok_quiet, quiet_fail].
  pose proof (table_get_forall (fun e => bool_decide (e.1.1 ∉ idx)) tbl _ _ _ Ht E) as Hi%bool_decide_eq_true. simpl in Hi.
  assert (forall op, keeps_ok (fun h => view_inv m fields h p ts pr) (run_op op (model_chan m (cx_thread x) i))) as K.
  { intros op. apply run_op_view with (idx := idx); [done|done|]. intros t j Hj (_ & _ & ->)%model_chan_inj. done. }
  destruct a; simpl; [apply (K (OpPush _))|apply (K (OpPop _))|apply (K (OpSet _))|apply keeps_ok_quiet, quiet_ret].
Qed.

(** The tables of the process change, and no thread runs another body. *)
Lemma pre_type_view x h h' ts pr : view_inv m fields h (cx_proc x) ts pr -> pre_type m x h = (Ok tt, h') ->
  exists ts', view_inv m fields h' (cx_proc x) ts' pr.
Proof.
  intros HV E. unfold pre_type in E. do 2 (case_match; [discriminate|]).
  apply mbind_Ok in E as (ty & ? & ->%quiet_Ok & E); [|unfold jumbo_u32, payload_u32; quiet_tac].
  apply mbind_Ok in E as (lb & ? & ->%quiet_Ok & E); [|unfold jumbo_label; quiet_tac].
  by eapply (view_inv_op m idx fields fields_idx fields_grow _ _ _ _ _ (OpType ty lb)).
Qed.
End Events.

(** *** The update of a task *)

Lemma load_tasks_then m x h h' ts pr fields (k : tasks -> M heap unit) : view_inv m fields h (cx_proc x) ts pr ->
  (let* ts := load_tasks m (cx_proc x) in k ts) h = (Ok tt, h') -> k ts h = (Ok tt, h').
Proof. intros HV. unfold load_tasks, mbind, mget. by rewrite (vi_tasks m fields h (cx_proc x) ts pr HV). Qed.

Lemma load_tasks_now m x h h' ts (k : tasks -> M heap unit) : h_tasks h !! (ch m, cx_proc x) = Some ts ->
  (let* ts := load_tasks m (cx_proc x) in k ts) h = (Ok tt, h') -> k ts h = (Ok tt, h').
Proof. intros Hts. unfold load_tasks, mbind, mget. by rewrite Hts. Qed.

Lemma enforce_quiet m x ss body tr next : quiet (enforce_task_rules m x ss body tr next).
Proof. unfold enforce_task_rules, load_tasks, load. quiet_tac. Qed.

Lemma quiet_tail {A} (k : M heap A) (q : A -> M heap unit) h h' : (forall a, quiet (q a)) ->
  mbind k q h = (Ok tt, h') -> exists a, k h = (Ok a, h').
Proof. intros Hq (a & h1 & E & E')%mbind_Ok. apply quiet_Ok in E' as ->; [by exists a|done]. Qed.

(** A thread stops with nothing that runs below. *)
Lemma stops_none v t ts1 w tr (h h' : heap) : (is_ch v "p" = true -> body_get_running t ts1 = None) ->
  expand_transition_value v w (bool_decide (is_Some (task_get_running t ts1))) h = (Ok tr, h') ->
  one_of tr "ep" = true -> body_get_running t ts1 = None.
Proof.
  intros Hp [_ He]%expand_stops [Hv|Hr%bool_decide_eq_false]%He; [by apply Hp|].
  unfold task_get_running in Hr. by destruct (body_get_running t ts1) as [k|]; [destruct Hr; eexists|].
Qed.

Lemma nosv_update_view x h h' ts pr : view_inv "V" nosv_fields h (cx_proc x) ts pr ->
  Nosv.update_task x h = (Ok tt, h') -> exists ts', view_inv "V" nosv_fields h' (cx_proc x) ts' pr.
Proof.
  intros HV E. unfold Nosv.update_task in E. eapply load_tasks_then in E; [|exact HV]. cbv zeta in E.
  apply mbind_Ok in E as ([] & h1 & E1 & E).
  assert (exists id bid, change_task "V" x id bid h = (Ok tt, h1)) as (id & bid & Ec).
  { unfold Nosv.update_task_state in E1. case_match; [discriminate|].
    apply mbind_Ok in E1 as (id & ? & ->%quiet_Ok & E1); [|unfold payload_u32; quiet_tac]. case_match; [discriminate|].
    eapply load_tasks_then in E1; [|exact HV]. apply mbind_Ok in E1 as (t & ? & [_ ->]%found_Ok & E1).
    apply mbind_Ok in E1 as (b & ? & ->%quiet_Ok & E1); [|unfold payload_u32; quiet_tac].
    apply mbind_Ok in E1 as (b' & ? & ->%quiet_Ok & E1); [by eauto|quiet_tac]. }
  apply (change_task_run _ _ _ _ _ _ ts) in Ec as (op & ts1 & k & Eop & Ht & Eh1 & Hp); [|apply HV].
  apply (load_tasks_now _ _ _ _ ts1) in E; [|subst h1; simpl; apply lookup_insert_eq]. cbv zeta in E.
  apply mbind_Ok in E as ([] & h2 & E2 & E). apply mbind_Ok in E as (tr & h2' & Ex & E).
  pose proof (expand_stops _ _ _ _ _ _ Ex) as [-> _]. apply quiet_tail in E as [[] E]; [|intros; apply enforce_quiet].
  exists ts1. eapply (update_view "V" nosv_idx Nosv.CH_SUBSYSTEM); try eassumption;
    [apply nosv_fields_idx|apply nosv_fields_grow|set_solver|]. intros Hg Hpr. unfold Nosv.update_task_channels in E.
  destruct (one_of tr "xr"); [by apply chan_body_running_wrote|].
  destruct (one_of tr "ep") eqn:Hep; [rewrite (stops_none _ _ _ _ _ _ _ Hp Ex Hep); by apply chan_body_stopped_wrote|].
  destruct (one_of tr "XE"); [|discriminate]. by eapply chan_body_switch_wrote.
Qed.

Lemma nanos6_update_view x h h' ts pr : view_inv "6" nanos6_fields h (cx_proc x) ts pr ->
  Nanos6.update_task x h = (Ok tt, h') -> exists ts', view_inv "6" nanos6_fields h' (cx_proc x) ts' pr.
Proof.
  intros HV E. unfold Nanos6.update_task in E. eapply load_tasks_then in E; [|exact HV]. cbv zeta in E.
  apply mbind_Ok in E as ([] & h1 & E1 & E).
  assert (exists id bid, change_task "6" x id bid h = (Ok tt, h1)) as (id & bid & Ec).
  { unfold Nanos6.update_task_state in E1. case_match; [discriminate|].
    apply mbind_Ok in E1 as (id & ? & ->%quiet_Ok & E1); [|unfold payload_u32; quiet_tac].
    eapply load_tasks_then in E1; [|exact HV]. apply mbind_Ok in E1 as (t & ? & [_ ->]%found_Ok & E1). eauto. }
  apply (change_task_run _ _ _ _ _ _ ts) in Ec as (op & ts1 & k & Eop & Ht & Eh1 & Hp); [|apply HV].
  apply (load_tasks_now _ _ _ _ ts1) in E; [|subst h1; simpl; apply lookup_insert_eq]. cbv zeta in E.
  apply mbind_Ok in E as ([] & h2 & E2 & E). apply mbind_Ok in E as (tr & h2' & Ex & E).
  pose proof (expand_stops _ _ _ _ _ _ Ex) as [-> _]. apply quiet_tail in E as [[] E]; [|intros; apply enforce_quiet].
  exists ts1. eapply (update_view "6" nanos6_idx Nanos6.CH_SUBSYSTEM); try eassumption;
    [apply nanos6_fields_idx|apply nanos6_fields_grow|set_solver|]. intros Hg Hpr. unfold Nanos6.update_task_channels in E.
  destruct (one_of tr "xr"); [by apply chan_task_running_wrote|].
  destruct (one_of tr "ep") eqn:Hep; [rewrite (stops_none _ _ _ _ _ _ _ Hp Ex Hep); by apply chan_task_stopped_wrote|].
  destruct (one_of tr "XE"); [|discriminate]. by eapply chan_task_switch_wrote.
Qed.

(** *** The events of the models *)

Lemma hwc_view x p ts pr : keeps_ok (fun h => view_inv "V" nosv_fields h p ts pr) (hwc_event x).
Proof.
  assert (forall l, keeps_ok (fun h => view_inv "V" nosv_fields h p ts pr)
    (for_each (fun iv => chan_set (hwc_chan (cx_thread x) iv.1) (value_int64 iv.2)) l)) as Hl.
  { induction l as [|iv l IH]; simpl; [apply keeps_ok_quiet, quiet_ret|]. apply keeps_ok_bind; [|by intros []].
    apply (run_op_view "V" nosv_idx nosv_fields nosv_fields_idx nosv_fields_grow (OpSet _)). by intros t i _ [=]. }
  unfold hwc_event, event_hwc_count, jumbo_size, payload_u32.
  repeat first [ solve [apply keeps_ok_quiet; quiet_tac] | apply keeps_ok_if | apply keeps_ok_bind; [|intros ?] | apply Hl
    | by apply (mod_view "V" nosv_idx nosv_fields nosv_fields_idx nosv_fields_grow) ].
Qed.

(** C30. An event of the nOS-V model that is accepted keeps the tables of its
    process consistent and every thread of the process showing what it runs: the
    body, task, type, application and rank of the running body of its stack, or
    nulls in these channels when nothing runs. *)
Theorem nosv_event_shows x h h' ts pr : view_inv "V" nosv_fields h (cx_proc x) ts pr ->
  model_nosv_event x h = (Ok tt, h') -> exists ts', view_inv "V" nosv_fields h' (cx_proc x) ts' pr.
Proof.
  intros HV E. unfold model_nosv_event in E. case_match; [discriminate|]. unfold Nosv.process_ev in E.
  apply mbind_Ok in E as (th & ? & ->%quiet_Ok & E); [|apply quiet_load_thread]. do 2 (case_match; [discriminate|]).
  destruct (one_of _ "SUMHAP").
  { exists ts. exact (run_table_view "V" nosv_idx nosv_fields nosv_fields_idx nosv_fields_grow Nosv.ss_table x _ ts pr eq_refl h tt h' HV E). }
  destruct (is_ch _ "T").
  { unfold Nosv.pre_task in E. destruct (one_of _ "Cc"); [|destruct (one_of _ "xerp"); [|done]; by eapply nosv_update_view].
    unfold Nosv.create_task in E. case_match; [discriminate|].
    apply mbind_Ok in E as (id & ? & ->%quiet_Ok & E); [|unfold payload_u32; quiet_tac].
    apply mbind_Ok in E as (ty & ? & ->%quiet_Ok & E); [|unfold payload_u32; quiet_tac].
    by eapply (view_inv_op "V" nosv_idx nosv_fields nosv_fields_idx nosv_fields_grow _ _ _ _ _ (OpCreate _ _ _)). }
  destruct (is_ch _ "Y"); [by eapply (pre_type_view "V" nosv_idx nosv_fields nosv_fields_idx nosv_fields_grow)|].
  destruct (is_ch _ "W"); [|done]. exists ts. by eapply hwc_view.
Qed.

(** C31. An event of the Nanos6 model that is accepted keeps the tables of its
    process consistent and every thread of the process showing the task that
    runs on top of its stack, nested or not, with its type and rank. *)
Theorem nanos6_event_shows x h h' ts pr : view_inv "6" nanos6_fields h (cx_proc x) ts pr ->
  model_nanos6_event x h = (Ok tt, h') -> exists ts', view_inv "6" nanos6_fields h' (cx_proc x) ts' pr.
Proof.
  intros HV E. unfold model_nanos6_event in E. case_match; [discriminate|]. unfold Nanos6.process_ev in E.
  apply mbind_Ok in E as (th & ? & ->%quiet_Ok & E); [|apply quiet_load_thread]. case_match; [discriminate|].
  destruct (one_of _ "CSUFOtHDBWMP").
  { exists ts. exact (run_table_view "6" nanos6_idx nanos6_fields nanos6_fields_idx nanos6_fields_grow Nanos6.ss_table x _ ts pr eq_refl h tt h' HV E). }
  destruct (is_ch _ "T").
  { unfold Nanos6.pre_task in E. destruct (is_ch _ "C"); [injection E as <-; by exists ts|].
    destruct (is_ch _ "c"); [|destruct (one_of _ "xerp"); [|done]; by eapply nanos6_update_view].
    unfold Nanos6.create_task in E. case_match; [discriminate|].
    apply mbind_Ok in E as (id & ? & ->%quiet_Ok & E); [|unfold payload_u32; quiet_tac].
    apply mbind_Ok in E as (ty & ? & ->%quiet_Ok & E); [|unfold payload_u32; quiet_tac].
    by eapply (view_inv_op "6" nanos6_idx nanos6_fields nanos6_fields_idx nanos6_fields_grow _ _ _ _ _ (OpCreate _ _ _)). }
  destruct (is_ch _ "Y"); [by eapply (pre_type_view "6" nanos6_idx nanos6_fields nanos6_fields_idx nanos6_fields_grow)|done].
Qed.

(** *** A task is executed *)

Definition demo_null (ty : chan_type) : chan := mk_chan false 0 0 0 None value_null ty value_null [] "demo".
Definition demo_chans (m : ascii) (idx : list nat) (ss : nat) : gmap addr chan :=
  <[model_chan m 0 ss := demo_null CHAN_STACK]> (list_to_map ((fun i => (model_chan m 0 i, demo_null CHAN_SINGLE)) <$> idx)).
Definition demo_view_heap (m : ascii) (idx : list nat) (ss : nat) : heap :=
  set_h_tasks <[(ch m, 0%nat) := Task.demo_tasks]>
    (set_h_proc <[0%nat := mk_proc 0 true 100 1 0 1 1 [(100, 0%nat)] 0]>
      (set_h_thread <[0%nat := mk_thread 0 100 0 TH_ST_RUNNING true true false (Some 0%nat) false true]>
        (set_h_chan (fun _ => demo_chans m idx ss) empty_heap))).
Definition demo_exec (m : ascii) : ctx :=
  mk_ctx (mk_emu_ev (ch m) (ch "T") (ch "x") 0 0 0 true 8 false (Some [10; 0; 0; 0; 0; 0; 0; 0])) 0 0 0.

Lemma demo_chans_good m idx ss a c : demo_chans m idx ss !! a = Some c -> c = demo_null CHAN_STACK \/ c = demo_null CHAN_SINGLE.
Proof.
  unfold demo_chans. intros [[_ <-]|[_ E%elem_of_list_to_map_2]]%lookup_insert_Some; [by left|right].
  by apply list_elem_of_fmap in E as (i & [= _ ->] & _).
Qed.

Lemma demo_shows m idx ss a : (exists i, a = model_chan m 0 i /\ i ∈ idx) -> shows (demo_view_heap m idx ss) a value_null.
Proof.
  intros (i & -> & Hi). unfold shows, demo_view_heap. simpl.
  destruct (demo_chans m idx ss !! model_chan m 0 i) as [c|] eqn:E.
  - exists c. split; [done|]. by destruct (demo_chans_good _ _ _ _ _ E) as [-> | ->].
  - exfalso. unfold demo_chans in E. apply lookup_insert_None in E as [E%not_elem_of_list_to_map _]. apply E.
    rewrite <- list_fmap_compose. apply list_elem_of_fmap. by exists i.
Qed.

Lemma demo_view m idx ss fields : (forall L, fields Task.demo_tasks (mk_proc 0 true 100 1 0 1 1 [(100, 0%nat)] 0) None = Some L ->
    forall i v, (i, v) ∈ L -> v = value_null /\ i ∈ idx) ->
  is_Some (fields Task.demo_tasks (mk_proc 0 true 100 1 0 1 1 [(100, 0%nat)] 0) None) ->
  view_inv m fields (demo_view_heap m idx ss) 0 Task.demo_tasks (mk_proc 0 true 100 1 0 1 1 [(100, 0%nat)] 0).
Proof.
  intros HL [L EL]. split; [|by simpl; rewrite lookup_insert_eq|done|apply demo_tasks_inv|].
  - intros a c E. destruct (demo_chans_good m idx ss a c E) as [-> | ->]; repeat split; simpl; try done; by intros [].
  - intros t th Eth _. simpl in Eth. apply lookup_insert_Some in Eth as [[<- _]|[_ [=]]]. exists L.
    split; [exact EL|]. intros i v Hi. destruct (HL L EL i v Hi) as [-> Hidx]. apply demo_shows. eauto.
Qed.

Lemma demo_nosv_runs : (model_nosv_event (demo_exec "V") (demo_view_heap "V" nosv_idx Nosv.CH_SUBSYSTEM)).1 = Ok tt.
Proof. vm_compute. reflexivity. Qed.
Lemma demo_nanos6_runs : (model_nanos6_event (demo_exec "6") (demo_view_heap "6" nanos6_idx Nanos6.CH_SUBSYSTEM)).1 = Ok tt.
Proof. vm_compute. reflexivity. Qed.

Lemma demo_nosv_view : view_inv "V" nosv_fields (demo_view_heap "V" nosv_idx Nosv.CH_SUBSYSTEM) 0 Task.demo_tasks
  (mk_proc 0 true 100 1 0 1 1 [(100, 0%nat)] 0).
Proof.
  apply demo_view; [|by eexists]. intros L E i v Hi. split; [|by eapply nosv_fields_idx]. injection E as <-.
  by repeat (apply elem_of_cons in Hi as [[= -> ->]|Hi]; [done|]); apply elem_of_nil in Hi.
Qed.
Lemma demo_nanos6_view : view_inv "6" nanos6_fields (demo_view_heap "6" nanos6_idx Nanos6.CH_SUBSYSTEM) 0 Task.demo_tasks
  (mk_proc 0 true 100 1 0 1 1 [(100, 0%nat)] 0).
Proof.
  apply demo_view; [|by eexists]. intros L E i v Hi. split; [|by eapply nanos6_fields_idx]. injection E as <-.
  by repeat (apply elem_of_cons in Hi as [[= -> ->]|Hi]; [done|]); apply elem_of_nil in Hi.
Qed.

Lemma nosv_event_shows_witness : exists ts',
  view_inv "V" nosv_fields (model_nosv_event (demo_exec "V") (demo_view_heap "V" nosv_idx Nosv.CH_SUBSYSTEM)).2 0 ts'
    (mk_proc 0 true 100 1 0 1 1 [(100, 0%nat)] 0).
Proof. exact (nosv_event_shows (demo_exec "V") _ _ Task.demo_tasks _ demo_nosv_view (run_eta _ _ demo_nosv_runs)). Defined.

Lemma nanos6_event_shows_witness : exists ts',
  view_inv "6" nanos6_fields (model_nanos6_event (demo_exec "6") (demo_view_heap "6" nanos6_idx Nanos6.CH_SUBSYSTEM)).2 0 ts'
    (mk_proc 0 true 100 1 0 1 1 [(100, 0%nat)] 0).
Proof. exact (nanos6_event_shows (demo_exec "6") _ _ Task.demo_tasks _ demo_nanos6_view (run_eta _ _ demo_nanos6_runs)). Defined.

(** What the thread shows after it. *)
Example demo_exec_shows :
  (fun i => chan_read <$> h_chan (model_nosv_event (demo_exec "V") (demo_view_heap "V" nosv_idx Nosv.CH_SUBSYSTEM)).2 !! model_chan "V" 0 i)
    <$> [CH_BODYID; Nosv.CH_TASKID; Nosv.CH_RANK; Nosv.CH_SUBSYSTEM]
  = [Some (value_int64 1); Some (value_int64 10); Some (value_int64 1); Some (value_int64 Nosv.ST_TASK_BODY)].
Proof. vm_compute. reflexivity. Qed.
