(* ===== verification/Rt.v ===== *)
(** * The runtime library (src/rt/ovni.c)

    A program calls the library to emit events: they are copied to a buffer of
    2 MiB that is written to the stream file when it is full, or on demand.
    The state is that of one thread ([rthread]) with the status of its process
    and the file behind its descriptor.  The clock and [write] belong to the
    operating system: [clock k] is the [k]-th reading of the clock and [wr k n]
    what the [k]-th [write], of [n] bytes, returns.  Directories, paths and the
    move of finished streams are not modelled. *)

From Stdlib Require Import Ascii.
From S2P Require Import Prelude Event.

(** ** State *)

Inductive rt_status := ST_UNINIT | ST_INIT | ST_READY | ST_GONE.

#[export] Instance rt_status_eq_dec : EqDecision rt_status.
Proof. solve_decision. Defined.

(** Values of the metadata, a JSON object written with the parson library. *)
Inductive metaval := MNum (z : Z) | MStr (s : string) | MCpus (l : list (Z * Z)).

Record rthread := mk_rthread {
  r_st : rt_status;                 (* rproc.st *)
  r_app : Z;                        (* rproc.app, rproc.loom, rproc.pid *)
  r_loom : string;
  r_pid : Z;
  r_tid : Z;
  r_ready : bool;
  r_finished : bool;
  r_evlen : Z;
  r_evbuf : list Z;                 (* the evlen bytes of evbuf in use *)
  r_cpus : list (Z * Z);            (* index, phyid *)
  r_rank : option (Z * Z);          (* rank, nranks; None while rank_set is 0 *)
  r_meta : gmap string metaval;
  r_file : list Z;                  (* what write() put in the stream file *)
  r_json : option (gmap string metaval);  (* the stored metadata file *)
  r_nclock : nat;                   (* readings of the clock so far *)
  r_nwrite : nat                    (* calls of write so far *)
}.

Definition set_r_st x (r : rthread) : rthread :=
  mk_rthread x (r_app r) (r_loom r) (r_pid r) (r_tid r) (r_ready r) (r_finished r) (r_evlen r)
    (r_evbuf r) (r_cpus r) (r_rank r) (r_meta r) (r_file r) (r_json r) (r_nclock r) (r_nwrite r).
Definition set_r_app x (r : rthread) : rthread :=
  mk_rthread (r_st r) x (r_loom r) (r_pid r) (r_tid r) (r_ready r) (r_finished r) (r_evlen r)
    (r_evbuf r) (r_cpus r) (r_rank r) (r_meta r) (r_file r) (r_json r) (r_nclock r) (r_nwrite r).
Definition set_r_loom x (r : rthread) : rthread :=
  mk_rthread (r_st r) (r_app r) x (r_pid r) (r_tid r) (r_ready r) (r_finished r) (r_evlen r) (r_evbuf r)
    (r_cpus r) (r_rank r) (r_meta r) (r_file r) (r_json r) (r_nclock r) (r_nwrite r).
Definition set_r_pid x (r : rthread) : rthread :=
  mk_rthread (r_st r) (r_app r) (r_loom r) x (r_tid r) (r_ready r) (r_finished r) (r_evlen r)
    (r_evbuf r) (r_cpus r) (r_rank r) (r_meta r) (r_file r) (r_json r) (r_nclock r) (r_nwrite r).
Definition set_r_ready x (r : rthread) : rthread :=
  mk_rthread (r_st r) (r_app r) (r_loom r) (r_pid r) (r_tid r) x (r_finished r) (r_evlen r) (r_evbuf r)
    (r_cpus r) (r_rank r) (r_meta r) (r_file r) (r_json r) (r_nclock r) (r_nwrite r).
Definition set_r_finished x (r : rthread) : rthread :=
  mk_rthread (r_st r) (r_app r) (r_loom r) (r_pid r) (r_tid r) (r_ready r) x (r_evlen r) (r_evbuf r)
    (r_cpus r) (r_rank r) (r_meta r) (r_file r) (r_json r) (r_nclock r) (r_nwrite r).
Definition set_r_evlen x (r : rthread) : rthread :=
  mk_rthread (r_st r) (r_app r) (r_loom r) (r_pid r) (r_tid r) (r_ready r) (r_finished r) x (r_evbuf r)
    (r_cpus r) (r_rank r) (r_meta r) (r_file r) (r_json r) (r_nclock r) (r_nwrite r).
Definition set_r_evbuf x (r : rthread) : rthread :=
  mk_rthread (r_st r) (r_app r) (r_loom r) (r_pid r) (r_tid r) (r_ready r) (r_finished r) (r_evlen r) x
    (r_cpus r) (r_rank r) (r_meta r) (r_file r) (r_json r) (r_nclock r) (r_nwrite r).
Definition set_r_cpus x (r : rthread) : rthread :=
  mk_rthread (r_st r) (r_app r) (r_loom r) (r_pid r) (r_tid r) (r_ready r) (r_finished r) (r_evlen r)
    (r_evbuf r) x (r_rank r) (r_meta r) (r_file r) (r_json r) (r_nclock r) (r_nwrite r).
Definition set_r_rank x (r : rthread) : rthread :=
  mk_rthread (r_st r) (r_app r) (r_loom r) (r_pid r) (r_tid r) (r_ready r) (r_finished r) (r_evlen r)
    (r_evbuf r) (r_cpus r) x (r_meta r) (r_file r) (r_json r) (r_nclock r) (r_nwrite r).
Definition set_r_meta x (r : rthread) : rthread :=
  mk_rthread (r_st r) (r_app r) (r_loom r) (r_pid r) (r_tid r) (r_ready r) (r_finished r) (r_evlen r)
    (r_evbuf r) (r_cpus r) (r_rank r) x (r_file r) (r_json r) (r_nclock r) (r_nwrite r).
Definition set_r_file x (r : rthread) : rthread :=
  mk_rthread (r_st r) (r_app r) (r_loom r) (r_pid r) (r_tid r) (r_ready r) (r_finished r) (r_evlen r)
    (r_evbuf r) (r_cpus r) (r_rank r) (r_meta r) x (r_json r) (r_nclock r) (r_nwrite r).
Definition set_r_json x (r : rthread) : rthread :=
  mk_rthread (r_st r) (r_app r) (r_loom r) (r_pid r) (r_tid r) (r_ready r) (r_finished r) (r_evlen r)
    (r_evbuf r) (r_cpus r) (r_rank r) (r_meta r) (r_file r) x (r_nclock r) (r_nwrite r).
Definition set_r_nclock x (r : rthread) : rthread :=
  mk_rthread (r_st r) (r_app r) (r_loom r) (r_pid r) (r_tid r) (r_ready r) (r_finished r) (r_evlen r)
    (r_evbuf r) (r_cpus r) (r_rank r) (r_meta r) (r_file r) (r_json r) x (r_nwrite r).
Definition set_r_nwrite x (r : rthread) : rthread :=
  mk_rthread (r_st r) (r_app r) (r_loom r) (r_pid r) (r_tid r) (r_ready r) (r_finished r) (r_evlen r)
    (r_evbuf r) (r_cpus r) (r_rank r) (r_meta r) (r_file r) (r_json r) (r_nclock r) x.

Definition set_buf n l (r : rthread) : rthread := set_r_evlen n (set_r_evbuf l r).
Definition tick (r : rthread) : rthread := set_r_nclock (S (r_nclock r)) r.
Definition wrote l (r : rthread) : rthread := set_r_nwrite (S (r_nwrite r)) (set_r_file (r_file r ++ l) r).

(** The zeroed [rthread] of a new thread of the process. *)
Definition rthread_zero (st : rt_status) : rthread :=
  mk_rthread st 0 "" 0 0 false false 0 [] [] None ∅ [] None 0 0.

Definition OVNI_MAX_EV_BUF : Z := 2 * 1024 * 1024.

(** "ovni", version 1: [struct ovni_stream_header]. *)
Definition stream_header : list Z := [111; 118; 110; 105] ++ le_encode 4 1.

Definition mcv3 (m c v : ascii) : list Z := [ch m; ch c; ch v].

Section Rt.
Variables (clock : nat -> Z) (wr : nat -> Z -> Z) (wfuel : nat).

Definition ovni_clock_now : M rthread Z :=
  let* r := mget in
  mmod tick ;;;
  mret (u64 (clock (r_nclock r))).

(** ** Writing the buffer *)

Fixpoint write_evbuf (fuel : nat) (buf : list Z) : M rthread unit :=
  match fuel with
  | O => mfuel
  | S fuel' =>
      let* r := mget in
      let written := wr (r_nwrite r) (Z.of_nat (length buf)) in
      if written <? 0 then mdie else
      mmod (wrote (take (Z.to_nat written) buf)) ;;;
      let rest := drop (Z.to_nat written) buf in
      if (0 <? length rest)%nat then write_evbuf fuel' rest else mret tt
  end.

Definition flush_evbuf : M rthread unit :=
  let* r := mget in
  write_evbuf wfuel (r_evbuf r) ;;;
  mmod (set_buf 0 []).

Definition write_stream_header : M rthread unit :=
  mmod (set_buf 8 stream_header) ;;;
  flush_evbuf.

(** [memcpy(&rthread.evbuf[rthread.evlen], bs, n)] and [evlen += n]. *)
Definition evbuf_append (bs : list Z) : M rthread unit :=
  let* r := mget in
  let n := Z.of_nat (length bs) in
  if OVNI_MAX_EV_BUF <? r_evlen r + n then mub else
  mmod (set_buf (r_evlen r + n) (r_evbuf r ++ bs)).

(** The first [n] bytes of the event structure. *)
Definition ev_prefix (n : Z) (ev : list Z) : M rthread (list Z) := deref (get_bytes 0 (Z.to_nat n) ev).

(** If the event does not fit: flush, and the two clocks around it. *)
Definition flush_if (full : bool) : M rthread (option (Z * Z)) :=
  if full then
    let* t0 := ovni_clock_now in
    flush_evbuf ;;;
    let* t1 := ovni_clock_now in
    mret (Some (t0, t1))
  else mret None.

Definition flush_event (v : ascii) (t : Z) : M rthread (list Z) :=
  let* ev := ovni_ev_set_clock t ev_zero in
  ovni_ev_set_mcv (mcv3 "O" "F" v) ev.

(** [ovni_ev_add] and [add_flush_events] call each other. *)
Definition add_flush_events (add : list Z -> M rthread unit) (t0 t1 : Z) : M rthread unit :=
  let* pre := flush_event "[" t0 in
  let* post := flush_event "]" t1 in
  add pre ;;;
  add post.

Fixpoint ovni_ev_add (fuel : nat) (ev : list Z) : M rthread unit :=
  match fuel with
  | O => mfuel
  | S fuel' =>
      let* r := mget in
      if negb (r_ready r) then mdie else
      let* size := ovni_ev_size ev in
      let* flushed := flush_if (OVNI_MAX_EV_BUF <=? r_evlen r + size) in
      let* bs := ev_prefix size ev in
      evbuf_append bs ;;;
      match flushed with
      | Some (t0, t1) => add_flush_events (ovni_ev_add fuel') t0 t1
      | None => mret tt
      end
  end.

(** [buf] is the data, its length the [bufsize] argument; the result is the
    event as it is left. *)
Definition ovni_ev_add_jumbo (fuel : nat) (ev buf : list Z) : M rthread (list Z) :=
  let* r := mget in
  if negb (r_ready r) then mdie else
  let bufsize := Z.of_nat (length buf) in
  let* psize := ovni_payload_size ev in
  if negb (psize =? 0) then mdie else
  let* ev := ovni_payload_add (le_encode 4 bufsize) ev in
  let* evsize := ovni_ev_size ev in
  let totalsize := evsize + bufsize in
  if OVNI_MAX_EV_BUF <=? totalsize then mdie else
  let* flushed := flush_if (OVNI_MAX_EV_BUF <=? r_evlen r + totalsize) in
  let* flags := ev_flags ev in
  let* ev := deref (put_bytes 0 [Z.lor flags OVNI_EV_JUMBO] ev) in
  let* bs := ev_prefix evsize ev in
  evbuf_append bs ;;;
  evbuf_append buf ;;;
  (match flushed with
   | Some (t0, t1) => add_flush_events (ovni_ev_add fuel) t0 t1
   | None => mret tt
   end) ;;;
  mret ev.

Definition ovni_ev_emit (fuel : nat) (ev : list Z) : M rthread unit := ovni_ev_add fuel ev.
Definition ovni_ev_jumbo_emit (fuel : nat) (ev buf : list Z) : M rthread unit :=
  ovni_ev_add_jumbo fuel ev buf ;;; mret tt.

Definition ovni_flush (fuel : nat) : M rthread unit :=
  let* r := mget in
  if negb (r_ready r) then mdie else
  if negb (bool_decide (r_st r = ST_READY)) then mdie else
  let* t0 := ovni_clock_now in
  let* pre := flush_event "[" t0 in
  flush_evbuf ;;;
  let* t1 := ovni_clock_now in
  let* post := flush_event "]" t1 in
  ovni_ev_add fuel pre ;;;
  ovni_ev_add fuel post.

(** *** Marks *)

Definition mark_emit (fuel : nat) (v : ascii) (type value : Z) : M rthread unit :=
  if value =? 0 then mdie else
  let* t := ovni_clock_now in
  let* ev := ovni_ev_set_clock t ev_zero in
  let* ev := ovni_ev_set_mcv (mcv3 "O" "M" v) ev in
  let* ev := ovni_payload_add (le_encode 8 (u64 value)) ev in
  let* ev := ovni_payload_add (le_encode 4 (u32 type)) ev in
  ovni_ev_add fuel ev.

Definition ovni_mark_push (fuel : nat) : Z -> Z -> M rthread unit := mark_emit fuel "[".
Definition ovni_mark_pop (fuel : nat) : Z -> Z -> M rthread unit := mark_emit fuel "]".
Definition ovni_mark_set (fuel : nat) : Z -> Z -> M rthread unit := mark_emit fuel "=".

(** ** Life of a process and a thread *)

Definition OVNI_MAX_HOSTNAME : Z := 512.

(** The compare-and-exchange makes one caller of [ovni_proc_init] win. *)
Definition ovni_proc_init (app : Z) (loom : string) (pid : Z) : M rthread unit :=
  let* r := mget in
  if negb (bool_decide (r_st r = ST_UNINIT)) then mdie else
  mmod (set_r_st ST_INIT) ;;;
  if OVNI_MAX_HOSTNAME <=? Z.of_nat (String.length loom) then mdie else
  mmod (fun r => set_r_app app (set_r_pid pid (set_r_loom loom r))) ;;;
  mmod (set_r_st ST_READY).

Definition ovni_proc_fini : M rthread unit :=
  let* r := mget in
  if negb (bool_decide (r_st r = ST_READY)) then mdie else
  mmod (set_r_st ST_GONE).

(** Strings the build sets: OVNI_LIB_VERSION and OVNI_GIT_COMMIT. *)
Record build_info := mk_build { lib_version : string; lib_commit : string }.

Definition OVNI_MODEL_VERSION : string := "1.1.0".

Definition OVNI_METADATA_VERSION : Z := 3.

Definition thread_metadata_populate (b : build_info) (r : rthread) : gmap string metaval :=
  <["ovni.app_id"%string := MNum (r_app r)]> (<["ovni.loom"%string := MStr (r_loom r)]>
  (<["ovni.pid"%string := MNum (r_pid r)]> (<["ovni.tid"%string := MNum (r_tid r)]>
  (<["ovni.part"%string := MStr "thread"]> (<["ovni.lib.commit"%string := MStr (lib_commit b)]>
  (<["ovni.lib.version"%string := MStr (lib_version b)]>
  (<["version"%string := MNum OVNI_METADATA_VERSION]> ∅))))))).

(** [thread_metadata_store] writes the JSON file. *)
Definition thread_metadata_store : M rthread unit := mmod (fun r => set_r_json (Some (r_meta r)) r).

Definition thread_metadata_init (b : build_info) : M rthread unit :=
  mmod (fun r => set_r_meta (thread_metadata_populate b r) r) ;;;
  thread_metadata_store.

(** The checks of the two strings are those of [ovni_thread_require] that do
    not depend on the parser of versions; [valid] is that parser's answer. *)
Definition ovni_thread_require (valid : string -> bool) (model version : string) : M rthread unit :=
  let* r := mget in
  if negb (r_ready r) then mdie else
  if existsb (fun c => bool_decide (c = " "%char) || bool_decide (c = "."%char)) (Stdlib.Strings.String.list_ascii_of_string model) then mdie else
  if (String.length model <=? 1)%nat then mdie else
  if negb (valid version) then mdie else
  if (128 <=? 13 + String.length model)%nat then mdie else
  mmod (fun r => set_r_meta (<[("ovni.require." +:+ model)%string := MStr version]> (r_meta r)) r).

Definition ovni_thread_init (b : build_info) (valid : string -> bool) (tid : Z) : M rthread unit :=
  let* r := mget in
  if r_ready r then mret tt else
  if r_finished r then mdie else
  if tid =? 0 then mdie else
  if negb (bool_decide (r_st r = ST_READY)) then mdie else
  mput (mk_rthread (r_st r) (r_app r) (r_loom r) (r_pid r) tid false false 0 [] [] None ∅ [] None
    (r_nclock r) (r_nwrite r)) ;;;
  write_stream_header ;;;
  thread_metadata_init b ;;;
  mmod (set_r_ready true) ;;;
  ovni_thread_require valid "ovni" OVNI_MODEL_VERSION.

Definition ovni_add_cpu (index phyid : Z) : M rthread unit :=
  if index <? 0 then mdie else
  if phyid <? 0 then mdie else
  let* r := mget in
  if negb (bool_decide (r_st r = ST_READY)) then mdie else
  if negb (r_ready r) then mdie else
  mmod (fun r => set_r_cpus (r_cpus r ++ [(index, phyid)]) r).

Definition ovni_proc_set_rank (rank nranks : Z) : M rthread unit :=
  let* r := mget in
  if negb (bool_decide (r_st r = ST_READY)) then mdie else
  if negb (r_ready r) then mdie else
  mmod (set_r_rank (Some (rank, nranks))).

Definition set_thread_rank (rank nranks : Z) : M rthread unit :=
  mmod (fun r => set_r_meta (<["ovni.nranks"%string := MNum nranks]>
    (<["ovni.rank"%string := MNum rank]> (r_meta r))) r).

Definition set_thread_cpus (cpus : list (Z * Z)) : M rthread unit :=
  mmod (fun r => set_r_meta (<["ovni.loom_cpus"%string := MCpus cpus]> (r_meta r)) r).

Definition ovni_thread_free : M rthread unit :=
  let* r := mget in
  if r_finished r then mdie else
  if negb (r_ready r) then mdie else
  (match r_rank r with Some (rank, nranks) => set_thread_rank rank nranks | None => mret tt end) ;;;
  (match r_cpus r with [] => mret tt | cpus => set_thread_cpus cpus end) ;;;
  mmod (fun r => set_r_meta (<["ovni.finished"%string := MNum 1]> (r_meta r)) r) ;;;
  thread_metadata_store ;;;
  mmod (set_r_evbuf []) ;;;
  mmod (fun r => set_r_ready false (set_r_finished true r)).
End Rt.
