(* ===== verification/RtCorrect.v ===== *)
(** * What the runtime writes (src/rt/ovni.c)

    Whatever a program emits, the stream file and the buffer hold the header
    and a sequence of whole records, each of which says its own size; the
    records are those of the calls in their order, and a flush that an event
    forces adds its two events right after it.  No call overruns the buffer,
    and [write] may take any number of calls to empty it. *)

From Stdlib Require Import Ascii.
From S2P Require Import Prelude Event Rt.

#[local] Arguments le_encode : simpl never.
#[local] Arguments le_decode : simpl never.

(** ** Records *)

Definition flush_rec (v : ascii) (t : Z) : list Z := [0; ch "O"; ch "F"; ch v] ++ le_encode 8 t.

Lemma ch_ok c : byte_ok (ch c).
Proof. unfold ch, byte_ok. pose proof (N_ascii_bounded c). lia. Qed.

(** An event structure with only a header. *)
Definition header_ev (m c v : ascii) (t : Z) : list Z :=
  [0; ch m; ch c; ch v] ++ le_encode 8 t ++ replicate 16 0.

Lemma header_ev_struct m c v t : ev_struct (header_ev m c v t).
Proof.
  unfold header_ev, ev_struct. split_and!.
  - by rewrite !length_app, length_le_encode, length_replicate.
  - rewrite !Forall_app. split_and!; [|apply le_encode_ok|by repeat constructor].
    repeat constructor; (done || apply ch_ok).
  - eexists _, _. by split.
Qed.

Lemma header_ev_bytes m c v t : ev_bytes (header_ev m c v t) = [0; ch m; ch c; ch v] ++ le_encode 8 t.
Proof. done. Qed.

Lemma set_mcv_clock {S} m c v t (s : S) :
  mbind (ovni_ev_set_clock t ev_zero) (ovni_ev_set_mcv (mcv3 m c v)) s = (Ok (header_ev m c v t), s).
Proof. done. Qed.

(** The record of a jumbo event made from an event without payload. *)
Definition jumbo_rec (ev buf : list Z) : list Z :=
  Z.lor (flags_with (default 0 (head ev)) 4) OVNI_EV_JUMBO :: take 11 (drop 1 ev) ++
  le_encode 4 (Z.of_nat (length buf)) ++ buf.

#[local] Arguments jumbo_rec : simpl never.

Lemma lor_jumbo f : byte_ok f -> byte_ok (Z.lor f OVNI_EV_JUMBO) /\
  Z.land (Z.lor f OVNI_EV_JUMBO) OVNI_EV_JUMBO = OVNI_EV_JUMBO.
Proof.
  intros Hf. split.
  - assert (f = Z.land f 255) as E by (rewrite <- u8_land; symmetry; by apply wrapu_id).
    rewrite E. change OVNI_EV_JUMBO with (Z.land OVNI_EV_JUMBO 255). rewrite <- Z.land_lor_distr_l, <- u8_land.
    by apply wrapu_range.
  - rewrite Z.land_lor_distr_l. change (Z.land OVNI_EV_JUMBO OVNI_EV_JUMBO) with OVNI_EV_JUMBO.
    rewrite Z.lor_comm. apply Z.bits_inj'. intros n Hn. rewrite Z.lor_spec, Z.land_spec. by destruct (Z.testbit f n), (Z.testbit OVNI_EV_JUMBO n).
Qed.

Lemma jumbo_rec_length ev buf : length ev = 28%nat -> length (jumbo_rec ev buf) = (16 + length buf)%nat.
Proof.
  intros Hl. unfold jumbo_rec. rewrite length_cons, !length_app, length_le_encode, length_take, length_drop. lia.
Qed.

Lemma jumbo_rec_sized ev buf : ev_struct ev -> Forall byte_ok buf -> Z.of_nat (length buf) < 2 ^ 31 - 16 ->
  sized (jumbo_rec ev buf).
Proof.
  intros (Hl & Hb & f & l & -> & Hj) Hbuf Hn. apply list.Forall_cons in Hb as [Hf Hbl]. simpl in Hl.
  destruct (flags_with_spec f 4) as (Hg & _ & _); [lia|done|].
  destruct (lor_jumbo (flags_with f 4) Hg) as [Hok Hland].
  pose proof (jumbo_rec_length (f :: l) buf ltac:(simpl; lia)) as Hlen.
  split; [|split; [lia|]].
  - unfold jumbo_rec. apply list.Forall_cons. split; [done|]. apply list.Forall_app. split; [by apply list.Forall_take|].
    apply list.Forall_app. split; [apply le_encode_ok|done].
  - intros S s rest. rewrite Hlen. set (mem := jumbo_rec (f :: l) buf ++ rest).
    assert (get_u 12 4 mem = Some (Z.of_nat (length buf))) as Eu.
    { unfold get_u, get_bytes. rewrite (proj2 (Nat.leb_le _ _)) by (unfold mem; rewrite length_app, Hlen; lia).
      assert (mem = [Z.lor (flags_with f 4) OVNI_EV_JUMBO] ++ take 11 l ++ le_encode 4 (Z.of_nat (length buf)) ++ buf ++ rest) as ->.
      { unfold mem, jumbo_rec. simpl drop. rewrite drop_0, <- app_comm_cons, <- !app_assoc. done. }
      assert (length ([Z.lor (flags_with f 4) OVNI_EV_JUMBO] ++ take 11 l) = 12%nat) as E12.
      { rewrite length_app, length_take, Nat.min_l by lia. done. }
      rewrite app_assoc. rewrite <- E12 at 1. rewrite drop_app_length.
      rewrite take_app_le by (by rewrite length_le_encode). rewrite take_ge by (by rewrite length_le_encode).
      simpl. f_equal. apply le_decode_encode. simpl. lia. }
    assert (@ovni_payload_size S mem s = (Ok (Z.of_nat (length buf) + 4), s)) as Ep.
    { unfold ovni_payload_size, get_jumbo_payload_size.
      rewrite (mbind_run _ _ s (Z.lor (flags_with f 4) OVNI_EV_JUMBO) s) by done. rewrite Hland.
      change (c_true OVNI_EV_JUMBO) with true. cbv iota.
      rewrite (mbind_run _ _ s (u64 (4 + Z.of_nat (length buf))) s) by (rewrite Eu; done).
      unfold u64, i32. rewrite wrapu_id by (unfold in_u; lia). rewrite wraps_id by (unfold in_s; lia).
      unfold mret. do 2 f_equal. lia. }
    unfold ovni_ev_size. rewrite (mbind_run _ _ _ _ _ Ep). unfold ev_header_size.
    rewrite (proj2 (Z.leb_gt _ _)) by lia. unfold mret. do 2 f_equal. lia.
Qed.

(** ** The log of a thread *)

(** What no emission touches. *)
Definition static (r : rthread) :=
  (r_st r, r_ready r, r_finished r, (r_app r, r_loom r, r_pid r, r_tid r), (r_cpus r, r_rank r, r_meta r, r_json r)).

(** The records [recs] are in the file or, the last ones, in the buffer. *)
Record logged (r : rthread) (recs : list (list Z)) : Prop := {
  lg_len : r_evlen r = Z.of_nat (length (r_evbuf r));
  lg_room : r_evlen r < OVNI_MAX_EV_BUF;
  lg_sized : Forall sized recs;
  lg_split : exists n, (n <= length recs)%nat /\ r_file r = stream_header ++ concat (take n recs) /\
    r_evbuf r = concat (drop n recs)
}.

Lemma logged_append r recs b : logged r recs -> sized b -> r_evlen r + Z.of_nat (length b) < OVNI_MAX_EV_BUF ->
  logged (set_buf (r_evlen r + Z.of_nat (length b)) (r_evbuf r ++ b) r) (recs ++ [b]).
Proof.
  intros [Hl Hr Hs (n & Hn & Hf & He)] Hb Hroom. constructor; simpl.
  - rewrite length_app. lia.
  - done.
  - by apply list.Forall_app_2; [|apply list.Forall_singleton].
  - exists n. rewrite length_app. split; [lia|]. rewrite take_app_le, drop_app_le by done.
    split; [done|]. by rewrite concat_app, He; simpl; rewrite app_nil_r.
Qed.

Lemma logged_ext r r' recs : logged r recs -> r_evlen r' = r_evlen r -> r_evbuf r' = r_evbuf r ->
  r_file r' = r_file r -> logged r' recs.
Proof. intros [H1 H2 H3 H4] E1 E2 E3. constructor; rewrite ?E1, ?E2, ?E3; done. Qed.

Lemma static_eq r r' : static r' = static r -> r_ready r' = r_ready r /\ r_st r' = r_st r /\ r_finished r' = r_finished r.
Proof. unfold static. intros [= -> -> -> _]. done. Qed.

(** The end of a call that emitted [recs'] more. *)
Definition grew (r : rthread) (recs recs' : list (list Z)) (r' : rthread) : Prop :=
  logged r' (recs ++ recs') /\ static r' = static r.

Section Rt.
Variables (clock : nat -> Z) (wr : nat -> Z -> Z) (wfuel : nat).

Definition now (n : nat) : Z := u64 (clock n).

(** The records of a flush that an event forces, from the [n]-th reading of
    the clock on. *)
Inductive forced : nat -> list (list Z) -> nat -> Prop :=
| forced_no n : forced n [] n
| forced_yes n : forced n [flush_rec "[" (now n); flush_rec "]" (now (S n))] (S (S n)).

(** [write] fails, or takes some of the bytes it is given. *)
Hypothesis wr_partial : forall k n, 0 <= n -> wr k n < 0 \/ 0 <= wr k n <= n /\ (0 < n -> 0 < wr k n).
(** One call of [write] per byte is enough. *)
Hypothesis wfuel_enough : OVNI_MAX_EV_BUF <= Z.of_nat wfuel.

Lemma write_evbuf_run fuel buf r : (length buf < fuel)%nat ->
  safely (write_evbuf wr fuel buf) r (fun _ r' => exists n, r' = set_r_nwrite n (set_r_file (r_file r ++ buf) r)).
Proof.
  revert buf r. induction fuel as [|fuel IH]; intros buf r Hl; [lia|]. simpl.
  apply safely_bind, safely_get. destruct (wr_partial (r_nwrite r) (Z.of_nat (length buf))) as [Hw|[Hw Hp]]; [lia| |].
  { by rewrite (proj2 (Z.ltb_lt _ _)). }
  rewrite (proj2 (Z.ltb_ge _ _)) by lia. apply safely_bind, safely_mod.
  set (w := Z.to_nat (wr (r_nwrite r) (Z.of_nat (length buf)))).
  apply safely_if; rewrite ?Nat.ltb_lt, ?Nat.ltb_ge, length_drop; intros Hd.
  - eapply safely_mono; [apply IH; rewrite length_drop; lia|]. intros _ r' [n ->]. exists n.
    unfold set_r_nwrite, set_r_file, wrote; simpl. by rewrite <- app_assoc, take_drop.
  - apply safely_ret. exists (S (r_nwrite r)). unfold wrote. rewrite take_ge by lia. done.
Qed.

Lemma flush_evbuf_run r recs : logged r recs ->
  safely (flush_evbuf wr wfuel) r (fun _ r' => logged r' recs /\ r_evlen r' = 0 /\
    static r' = static r /\ r_nclock r' = r_nclock r).
Proof.
  intros [Hl Hr Hs (n & Hn & Hf & He)]. unfold flush_evbuf. apply safely_bind, safely_get.
  safe_call write_evbuf_run; [lia|]. intros _ r' [k ->]. apply safely_mod. split; [|done].
  constructor; simpl; [done|done|done|]. exists (length recs). split; [done|].
  rewrite take_ge, drop_ge by done. split; [|done].
  by rewrite Hf, He, <- app_assoc, <- concat_app, take_drop.
Qed.

Lemma clock_run r : ovni_clock_now clock r = (Ok (u64 (clock (r_nclock r))), tick r).
Proof. done. Qed.

Lemma flush_if_run full r recs : logged r recs -> safely (flush_if clock wr wfuel full) r (fun o r' =>
  logged r' recs /\ static r' = static r /\
  if full then r_evlen r' = 0 /\ r_nclock r' = S (S (r_nclock r)) /\
    o = Some (now (r_nclock r), now (S (r_nclock r))) else r' = r /\ o = None).
Proof.
  intros Hlg. unfold flush_if. destruct full; [|by split_and!]. safe_run (clock_run r).
  safe_call (flush_evbuf_run (tick r) recs); [by eapply logged_ext|]. intros _ r1 (H1 & E1 & S1 & N1).
  safe_run (clock_run r1). apply safely_ret. split; [by eapply logged_ext|]. split; [done|]. simpl in *.
  rewrite N1. split_and!; done.
Qed.

Lemma evbuf_append_run r b : r_evlen r + Z.of_nat (length b) < OVNI_MAX_EV_BUF ->
  evbuf_append b r = (Ok tt, set_buf (r_evlen r + Z.of_nat (length b)) (r_evbuf r ++ b) r).
Proof. intros H. unfold evbuf_append, mbind, mget. by rewrite (proj2 (Z.ltb_ge _ _)) by lia. Qed.

Lemma ev_prefix_run ev (r : rthread) : ev_struct ev -> ev_prefix (ev_size ev) ev r = (Ok (ev_bytes ev), r).
Proof.
  intros Hs. destruct (ev_struct_size ev tt Hs) as [_ Hr]. destruct Hs as (Hl & _). unfold ev_prefix, get_bytes.
  by rewrite (proj2 (Nat.leb_le _ _)) by lia.
Qed.

(** An event that fits is appended. *)
Lemma ev_add_fits fuel ev r recs : r_ready r = true -> ev_struct ev -> logged r recs ->
  r_evlen r + ev_size ev < OVNI_MAX_EV_BUF ->
  exists r', ovni_ev_add clock wr wfuel (S fuel) ev r = (Ok tt, r') /\ grew r recs [ev_bytes ev] r' /\
    r_evlen r' = r_evlen r + ev_size ev /\ r_nclock r' = r_nclock r /\ r_file r' = r_file r.
Proof.
  intros Hrd Hs Hlg Hfit. destruct (ev_bytes_sized ev Hs) as [Hz Hlen]. simpl.
  eexists. split; [|split; [split; [eapply logged_append; [exact Hlg|done|lia]|]|]].
  - rewrite (mbind_run mget _ r r r) by done. rewrite Hrd. change (negb true) with false. cbv beta iota.
    rewrite (mbind_run _ _ _ _ _ (proj1 (ev_struct_size ev r Hs))).
    rewrite (proj2 (Z.leb_gt _ _)) by lia. rewrite (mbind_run _ _ r None r) by done.
    rewrite (mbind_run _ _ _ _ _ (ev_prefix_run ev r Hs)).
    erewrite mbind_run; [|apply evbuf_append_run; lia]. done.
  - done.
  - simpl. split_and!; [lia|done..].
Qed.

Lemma flush_event_run v t (r : rthread) : flush_event v t r = (Ok (header_ev "O" "F" v t), r).
Proof. done. Qed.

Lemma grew_append r0 r recs l b : grew r0 recs l r -> sized b -> r_evlen r + Z.of_nat (length b) < OVNI_MAX_EV_BUF ->
  grew r0 recs (l ++ [b]) (set_buf (r_evlen r + Z.of_nat (length b)) (r_evbuf r ++ b) r).
Proof. intros [H1 H2] Hb Hr. split; [|done]. rewrite app_assoc. by apply logged_append. Qed.

Lemma grew_trans r0 r1 r2 recs l1 l2 : grew r0 recs l1 r1 -> grew r1 (recs ++ l1) l2 r2 -> grew r0 recs (l1 ++ l2) r2.
Proof. intros [H1 S1] [H2 S2]. split; [by rewrite app_assoc|congruence]. Qed.

Lemma grew_refl r recs : logged r recs -> grew r recs [] r.
Proof. intros H. by split; rewrite ?app_nil_r. Qed.

Lemma grew_ready r r' recs l : grew r recs l r' -> r_ready r' = r_ready r.
Proof. intros [_ Hs]. apply (static_eq _ _ Hs). Qed.

(** Both flush events fit. *)
Lemma add_flush_run fuel n r recs : r_ready r = true -> logged r recs -> r_evlen r <= OVNI_MAX_EV_BUF - 32 ->
  exists r', add_flush_events (ovni_ev_add clock wr wfuel (S fuel)) (now n) (now (S n)) r = (Ok tt, r') /\
    grew r recs [flush_rec "[" (now n); flush_rec "]" (now (S n))] r' /\ r_nclock r' = r_nclock r /\
    r_file r' = r_file r /\ r_evlen r' = r_evlen r + 24.
Proof.
  intros Hrd Hlg Hroom. unfold add_flush_events.
  rewrite (mbind_run _ _ _ _ _ (flush_event_run "[" _ r)), (mbind_run _ _ _ _ _ (flush_event_run "]" _ r)).
  destruct (ev_add_fits fuel (header_ev "O" "F" "[" (now n)) r recs) as (r1 & E1 & G1 & N1 & C1 & F1);
    [done|apply header_ev_struct|done|change (ev_size _) with 12; lia|].
  change (ev_size _) with 12 in N1.
  destruct (ev_add_fits fuel (header_ev "O" "F" "]" (now (S n))) r1 (recs ++ [flush_rec "[" (now n)]))
    as (r2 & E2 & G2 & N2 & C2 & F2);
    [by rewrite (grew_ready _ _ _ _ G1)|apply header_ev_struct|apply G1|change (ev_size _) with 12; lia|].
  exists r2. rewrite (mbind_run _ _ _ _ _ E1). split; [done|].
  split; [by apply (grew_trans _ _ _ _ [_] [_] G1)|]. split_and!; [congruence..|].
  change (ev_size _) with 12 in N2. lia.
Qed.

(** An event that may force a flush. *)
Lemma ev_add_run fuel ev r recs : r_ready r = true -> ev_struct ev -> logged r recs ->
  safely (ovni_ev_add clock wr wfuel (S (S fuel)) ev) r (fun _ r' =>
    exists fl, forced (r_nclock r) fl (r_nclock r') /\ grew r recs (ev_bytes ev :: fl) r' /\
      if OVNI_MAX_EV_BUF <=? r_evlen r + ev_size ev then fl <> [] /\ r_evlen r' = ev_size ev + 24 else fl = []).
Proof.
  intros Hrd Hs Hlg. destruct (ev_bytes_sized ev Hs) as [Hz Hlen].
  destruct (ev_struct_size ev r Hs) as [Esz Hr].
  destruct (Z.leb_spec OVNI_MAX_EV_BUF (r_evlen r + ev_size ev)) as [Hfull|Hfit].
  2:{ destruct (ev_add_fits (S fuel) ev r recs) as (r' & E & G & _ & C & _); [done..|].
      eapply safely_run; [exact E|]. exists []. rewrite C. split; [constructor|done]. }
  cbn [ovni_ev_add]. apply safely_bind, safely_get. rewrite Hrd. change (negb true) with false. cbv iota.
  safe_run Esz. rewrite (proj2 (Z.leb_le _ _)) by done.
  safe_call (flush_if_run true r recs Hlg). intros o r1 (H1 & S1 & E1 & C1 & ->).
  safe_run (ev_prefix_run ev r1 Hs).
  assert (r_evlen r1 + Z.of_nat (length (ev_bytes ev)) < OVNI_MAX_EV_BUF) as Hfit
    by (unfold OVNI_MAX_EV_BUF; lia).
  safe_run (evbuf_append_run r1 _ Hfit).
  assert (grew r recs [] r1) as G0 by (split; [by rewrite app_nil_r|done]).
  pose proof (grew_append _ _ _ _ _ G0 Hz Hfit) as G1. simpl in G1.
  destruct (add_flush_run fuel (r_nclock r) _ _ ltac:(by rewrite (grew_ready _ _ _ _ G1)) (proj1 G1))
    as (r2 & E2 & G2 & C2 & _ & L2); [simpl; unfold OVNI_MAX_EV_BUF; lia|].
  eapply safely_run; [exact E2|]. eexists. split; [|split; [by eapply (grew_trans _ _ _ _ [_])|]].
  - rewrite C2. simpl. rewrite C1. constructor.
  - split; [done|]. rewrite L2. simpl. lia.
Qed.

(** *** Jumbo events *)

Lemma payload_size_struct {S} ev (s : S) : ev_struct ev -> ovni_payload_size ev s = (Ok (ev_size ev - 12), s).
Proof.
  intros (_ & _ & f & l & -> & Hj). unfold ovni_payload_size, ev_flags, ev_size, flags_size; simpl.
  rewrite (mbind_run _ _ s f s) by done. rewrite Hj. change (c_true 0) with false. cbv iota zeta.
  destruct (Z.land f 15 =? 0); unfold mret; do 2 f_equal; lia.
Qed.

(** What [ovni_ev_add_jumbo] does to the structure. *)
Lemma jumbo_header ev n (s : rthread) : ev_struct ev -> ev_size ev = 12 ->
  exists ev1 ev2 f1, ovni_payload_add (le_encode 4 n) ev s = (Ok ev1, s) /\ ovni_ev_size ev1 s = (Ok 16, s) /\
    ev_flags ev1 s = (Ok f1, s) /\ put_bytes 0 [Z.lor f1 OVNI_EV_JUMBO] ev1 = Some ev2 /\
    ev_prefix 16 ev2 s = (Ok (Z.lor (flags_with (default 0 (head ev)) 4) OVNI_EV_JUMBO ::
      take 11 (drop 1 ev) ++ le_encode 4 n), s).
Proof.
  intros Hs H12.
  destruct (payload_add_run (le_encode 4 n) ev s) as (ev1 & E & Hs1 & Esz & Hhd & Hpl & Hf);
    [done|apply le_encode_ok|by rewrite length_le_encode|rewrite length_le_encode; lia|].
  rewrite length_le_encode in *. rewrite H12 in *. simpl in Hf. change (12 - 12 + Z.of_nat 4) with 4 in Hf. change (12 + Z.of_nat 4) with 16 in Esz.
  pose proof (proj1 (ev_struct_size ev1 s Hs1)) as Esz1. rewrite Esz in Esz1.
  destruct Hs1 as (Hl1 & Hb1 & f1 & l1 & -> & Hj1). injection Hf as <-.
  eexists (_ :: l1), (_ :: l1), _. split; [done|].
  split; [done|]. split; [done|].
  split; [unfold put_bytes; simpl; by rewrite drop_0|].
  unfold ev_prefix, get_bytes. simpl in Hl1. rewrite (proj2 (Nat.leb_le _ _)) by (simpl; lia).
  unfold deref, mret. do 2 f_equal. simpl drop in *. rewrite drop_0 in *. change (Z.to_nat 16) with (S 15).
  rewrite firstn_cons. f_equal. rewrite <- Hhd. rewrite <- (take_drop 11 (take 15 l1)).
  rewrite take_take. f_equal. rewrite skipn_firstn_comm.
  unfold payload_of in Hpl. rewrite Esz in Hpl. rewrite H12 in Hpl. simpl in Hpl. exact Hpl.
Qed.

(** After a large event the first flush event may force a flush of its own. *)
Inductive forced_jumbo : nat -> list (list Z) -> nat -> Prop :=
| fj_no n : forced_jumbo n [] n
| fj_yes n l1 n1 l2 n2 : forced (S (S n)) l1 n1 -> forced n1 l2 n2 ->
    forced_jumbo n ((flush_rec "[" (now n) :: l1) ++ flush_rec "]" (now (S n)) :: l2) n2.

(** The records when it does. *)
Definition nested_flush (n : nat) : list (list Z) :=
  [flush_rec "[" (now n); flush_rec "[" (now (S (S n))); flush_rec "]" (now (S (S (S n)))); flush_rec "]" (now (S n))].

Lemma add_flush_any fuel n r recs : r_ready r = true -> logged r recs ->
  safely (add_flush_events (ovni_ev_add clock wr wfuel (S (S fuel))) (now n) (now (S n))) r (fun _ r' =>
    exists l1 n1 l2, forced (r_nclock r) l1 n1 /\ forced n1 l2 (r_nclock r') /\
      grew r recs ((flush_rec "[" (now n) :: l1) ++ flush_rec "]" (now (S n)) :: l2) r' /\
      (OVNI_MAX_EV_BUF <= r_evlen r + 12 -> l1 <> [] /\ l2 = [])).
Proof.
  intros Hrd Hlg. unfold add_flush_events. safe_run (flush_event_run "[" (now n) r).
  safe_run (flush_event_run "]" (now (S n)) r).
  safe_call (ev_add_run fuel (header_ev "O" "F" "[" (now n)) r recs); [done|apply header_ev_struct|done|].
  change (ev_size _) with 12. intros _ r1 (l1 & F1 & G1 & L1).
  eapply safely_mono; [apply (ev_add_run fuel (header_ev "O" "F" "]" (now (S n))) r1)|].
  - by rewrite (grew_ready _ _ _ _ G1).
  - apply header_ev_struct.
  - apply G1.
  - change (ev_size _) with 12. intros _ r2 (l2 & F2 & G2 & L2). exists l1, (r_nclock r1), l2. split; [done|].
    split; [done|]. split; [by apply (grew_trans _ _ _ _ _ _ G1)|]. intros Hfull.
    rewrite (proj2 (Z.leb_le _ _)) in L1 by done. destruct L1 as [L1 E1]. rewrite E1 in L2. split; [done|exact L2].
Qed.

Lemma append_twice r b1 b2 : r_evlen r + Z.of_nat (length (b1 ++ b2)) < OVNI_MAX_EV_BUF ->
  mbind (evbuf_append b1) (fun _ => evbuf_append b2) r =
  (Ok tt, set_buf (r_evlen r + Z.of_nat (length (b1 ++ b2))) (r_evbuf r ++ b1 ++ b2) r).
Proof.
  rewrite length_app, Nat2Z.inj_add. intros H. rewrite (mbind_run _ _ _ _ _ (evbuf_append_run r b1 ltac:(lia))).
  rewrite evbuf_append_run by (simpl; lia). unfold set_buf, set_r_evlen, set_r_evbuf; simpl.
  by rewrite <- app_assoc, Z.add_assoc.
Qed.

Lemma ev_add_jumbo_run fuel ev buf r recs : r_ready r = true -> ev_struct ev -> Forall byte_ok buf -> logged r recs ->
  safely (ovni_ev_add_jumbo clock wr wfuel (S (S fuel)) ev buf) r (fun _ r' =>
    exists fl, forced_jumbo (r_nclock r) fl (r_nclock r') /\ grew r recs (jumbo_rec ev buf :: fl) r' /\
      (OVNI_MAX_EV_BUF <= r_evlen r + (16 + Z.of_nat (length buf)) ->
       OVNI_MAX_EV_BUF - 12 <= 16 + Z.of_nat (length buf) -> fl = nested_flush (r_nclock r))).
Proof.
  intros Hrd Hs Hbuf Hlg. unfold ovni_ev_add_jumbo. apply safely_bind, safely_get.
  rewrite Hrd. change (negb true) with false. cbv iota zeta. safe_run (payload_size_struct ev r Hs).
  destruct (Z.eqb_spec (ev_size ev - 12) 0) as [H12|]; [|done]. cbn [negb]. cbv iota.
  destruct (jumbo_header ev (Z.of_nat (length buf)) r Hs ltac:(lia)) as (ev1 & ev2 & f1 & E1 & E2 & E3 & E4 & E5).
  safe_run E1. safe_run E2.
  assert (length (jumbo_rec ev buf) = (16 + length buf)%nat) as Hlen by (apply jumbo_rec_length, Hs).
  destruct (Z.leb_spec OVNI_MAX_EV_BUF (16 + Z.of_nat (length buf))) as [|Hbig]; [done|].
  assert (sized (jumbo_rec ev buf)) as Hz by (apply jumbo_rec_sized; [done..|unfold OVNI_MAX_EV_BUF in *; lia]).
  remember (OVNI_MAX_EV_BUF <=? r_evlen r + (16 + Z.of_nat (length buf))) as full eqn:Efull.
  safe_call (flush_if_run full r recs Hlg). intros o r1 (H1 & S1 & Ho).
  assert (ev_flags ev1 r1 = (Ok f1, r1)) as E3'.
  { revert E3. unfold ev_flags, deref. destruct (ev1 !! 0%nat); [|done]. by intros [= ->]. }
  safe_run E3'. rewrite E4. apply safely_bind, safely_ret.
  assert (forall b, ev_prefix 16 ev2 r = (Ok b, r) -> ev_prefix 16 ev2 r1 = (Ok b, r1)) as Eb.
  { intros b. unfold ev_prefix, deref. destruct (get_bytes 0 _ ev2); [|done]. by intros [= ->]. }
  safe_run (Eb _ E5). set (hd := _ :: _).
  assert (hd ++ buf = jumbo_rec ev buf) as Ehd.
  { unfold hd, jumbo_rec. by rewrite <- app_comm_cons, <- app_assoc. }
  assert (r_evlen r1 + Z.of_nat (length (jumbo_rec ev buf)) < OVNI_MAX_EV_BUF) as Hfit.
  { rewrite Hlen. rewrite Efull in Ho. destruct (Z.leb_spec OVNI_MAX_EV_BUF (r_evlen r + (16 + Z.of_nat (length buf)))).
    - destruct Ho as (-> & _). lia.
    - destruct Ho as [-> _]. lia. }
  rewrite <- Ehd in Hfit. pose proof (append_twice r1 hd buf Hfit) as Eapp. rewrite Ehd in Eapp, Hfit.
  assert (grew r recs [] r1) as G0 by (split; [by rewrite app_nil_r|done]).
  pose proof (grew_append _ _ _ _ _ G0 Hz Hfit) as G1. change ([] ++ [jumbo_rec ev buf]) with [jumbo_rec ev buf] in G1.
  apply mbind_Ok in Eapp as (u & r2 & Ea & Eb2). safe_run Ea. safe_run Eb2. clear Ea Eb2.
  apply safely_bind. destruct full.
  - destruct Ho as (E0 & C1 & ->). set (r3 := set_buf _ _ r1) in *.
    eapply safely_mono; [apply (add_flush_any fuel (r_nclock r) r3 (recs ++ [jumbo_rec ev buf]))|].
    + by rewrite (grew_ready _ _ _ _ G1).
    + apply G1.
    + intros _ r4 (l1 & n1 & l2 & F1 & F2 & G2 & Hn). apply safely_ret. eexists. split_and!.
      * econstructor; [|exact F2]. by rewrite <- C1.
      * exact (grew_trans _ _ _ _ _ _ G1 G2).
      * intros _ Hbig2. destruct Hn as [Hn ->]; [unfold r3; cbn [r_evlen set_buf set_r_evlen]; lia|]. simpl in F1. rewrite C1 in F1.
        by inversion F1; subst.
  - destruct Ho as [-> ->]. apply safely_ret, safely_ret. exists []. split; [constructor|]. split; [done|].
    intros Hfull. exfalso. revert Efull. rewrite (proj2 (Z.leb_le _ _) Hfull). done.
Qed.

(** *** Flushes and marks *)

Lemma ovni_flush_run fuel r recs : r_ready r = true -> logged r recs ->
  safely (ovni_flush clock wr wfuel (S fuel)) r (fun _ r' => r_nclock r' = S (S (r_nclock r)) /\
    grew r recs [flush_rec "[" (now (r_nclock r)); flush_rec "]" (now (S (r_nclock r)))] r' /\
    r_file r' = stream_header ++ concat recs).
Proof.
  intros Hrd Hlg. unfold ovni_flush. apply safely_bind, safely_get. rewrite Hrd. change (negb true) with false.
  cbv iota. apply safely_if; [done|intros _]. safe_run (clock_run r). safe_run (flush_event_run "[" (now (r_nclock r)) (tick r)).
  safe_call (flush_evbuf_run (tick r) recs); [by eapply logged_ext|]. intros _ r1 (H1 & E1 & S1 & N1).
  safe_run (clock_run r1). rewrite N1. safe_run (flush_event_run "]" (now (S (r_nclock r))) (tick r1)).
  assert (logged (tick r1) recs) as H2 by (by eapply logged_ext).
  assert (r_ready (tick r1) = true) as R1 by (by simpl; rewrite (proj1 (static_eq _ _ S1))).
  destruct (add_flush_run fuel (r_nclock r) (tick r1) recs R1 H2) as (r2 & E2 & [G2 S2] & N2 & F2 & _).
  { simpl. rewrite E1. done. }
  assert (r_file r1 = stream_header ++ concat recs) as Hf.
  { destruct H1 as [Hl _ _ (n & Hn & -> & He)]. rewrite E1 in Hl. f_equal.
    assert (concat (drop n recs) = []) as Hd by (rewrite <- He; by destruct (r_evbuf r1)).
    by rewrite <- (app_nil_r (concat (take n recs))), <- Hd, <- concat_app, take_drop. }
  unfold add_flush_events in E2.
  rewrite (mbind_run _ _ _ _ _ (flush_event_run "[" _ _)), (mbind_run _ _ _ _ _ (flush_event_run "]" _ _)) in E2.
  eapply safely_run; [exact E2|]. split; [rewrite N2; simpl; by rewrite N1|].
  split; [split; [done|by rewrite S2]|by rewrite F2].
Qed.

(** The record of a mark. *)
Definition mark_rec (v : ascii) (t type value : Z) : list Z :=
  [11; ch "O"; ch "M"; ch v] ++ le_encode 8 t ++ le_encode 8 (u64 value) ++ le_encode 4 (u32 type).

Lemma mark_ev_struct v t type value : ev_struct (mark_rec v t type value ++ replicate 4 0).
Proof.
  unfold mark_rec, ev_struct. split_and!.
  - by rewrite !length_app, !length_le_encode, length_replicate.
  - repeat (apply list.Forall_app; split); try apply le_encode_ok; [|by repeat constructor].
    repeat constructor; (done || apply ch_ok).
  - eexists _, _. by split.
Qed.

Lemma mark_emit_run fuel v type value r recs : r_ready r = true -> logged r recs ->
  safely (mark_emit clock wr wfuel (S (S fuel)) v type value) r (fun _ r' => exists fl,
    forced (S (r_nclock r)) fl (r_nclock r') /\ grew r recs (mark_rec v (now (r_nclock r)) type value :: fl) r').
Proof.
  intros Hrd Hlg. unfold mark_emit. apply safely_if; [done|intros _]. safe_run (clock_run r).
  set (ev := mark_rec v (now (r_nclock r)) type value ++ replicate 4 0).
  match goal with |- safely ?m _ _ => assert (m (tick r) = ovni_ev_add clock wr wfuel (S (S fuel)) ev (tick r)) as E by reflexivity end.
  unfold safely. rewrite E.
  eapply safely_mono; [apply (ev_add_run fuel ev (tick r) recs Hrd (mark_ev_struct _ _ _ _))|].
  - by apply (logged_ext r).
  - intros _ r' (fl & F & G & _). by exists fl.
Qed.

(** ** Programs *)

(** The calls of a thread between its start and its end. *)
Inductive call :=
| CEmit (ev : list Z)
| CJumbo (ev buf : list Z)
| CFlush
| CMark (v : ascii) (type value : Z).

Definition call_ok (c : call) : Prop :=
  match c with
  | CEmit ev => ev_struct ev
  | CJumbo ev buf => ev_struct ev /\ Forall byte_ok buf
  | CFlush | CMark _ _ _ => True
  end.

Definition run_call (fuel : nat) (c : call) : M rthread unit :=
  match c with
  | CEmit ev => ovni_ev_emit clock wr wfuel fuel ev
  | CJumbo ev buf => ovni_ev_jumbo_emit clock wr wfuel fuel ev buf
  | CFlush => ovni_flush clock wr wfuel fuel
  | CMark v type value => mark_emit clock wr wfuel fuel v type value
  end.

(** The records of a call, between two readings of the clock. *)
Inductive emitted : call -> nat -> list (list Z) -> nat -> Prop :=
| em_emit ev n l n' : forced n l n' -> emitted (CEmit ev) n (ev_bytes ev :: l) n'
| em_jumbo ev buf n l n' : forced_jumbo n l n' -> emitted (CJumbo ev buf) n (jumbo_rec ev buf :: l) n'
| em_flush n : emitted CFlush n [flush_rec "[" (now n); flush_rec "]" (now (S n))] (S (S n))
| em_mark v type value n l n' : forced (S n) l n' ->
    emitted (CMark v type value) n (mark_rec v (now n) type value :: l) n'.

Inductive emitted_all : list call -> nat -> list (list Z) -> nat -> Prop :=
| ema_nil n : emitted_all [] n [] n
| ema_cons c cs n l n1 ls n2 : emitted c n l n1 -> emitted_all cs n1 ls n2 ->
    emitted_all (c :: cs) n (l ++ ls) n2.

Lemma run_call_run fuel c r recs : call_ok c -> r_ready r = true -> logged r recs ->
  safely (run_call (S (S fuel)) c) r (fun _ r' => exists l, emitted c (r_nclock r) l (r_nclock r') /\ grew r recs l r').
Proof.
  intros Hc Hrd Hlg. destruct c as [ev|ev buf| |v type value]; simpl in Hc; simpl run_call.
  - eapply safely_mono; [by apply ev_add_run|]. intros _ r' (fl & F & G & _). eexists. split; [by constructor|done].
  - destruct Hc as [Hs Hb]. apply safely_bind. eapply safely_mono; [by apply ev_add_jumbo_run|].
    intros _ r' (fl & F & G & _). apply safely_ret. eexists. split; [by constructor|done].
  - eapply safely_mono; [by apply ovni_flush_run|]. intros _ r' (N & G & _). eexists. split; [|done].
    rewrite N. constructor.
  - eapply safely_mono; [by apply mark_emit_run|]. intros _ r' (fl & F & G). eexists. split; [by constructor|done].
Qed.

Lemma run_calls_run fuel cs r recs : Forall call_ok cs -> r_ready r = true -> logged r recs ->
  safely (for_each (run_call (S (S fuel))) cs) r (fun _ r' =>
    exists l, emitted_all cs (r_nclock r) l (r_nclock r') /\ grew r recs l r').
Proof.
  intros Hcs. revert r recs. induction Hcs as [|c cs Hc _ IH]; intros r recs Hrd Hlg; simpl.
  - apply safely_ret. exists []. split; [constructor|by apply grew_refl].
  - safe_call (run_call_run fuel c r recs Hc Hrd Hlg). intros _ r1 (l & F & G).
    eapply safely_mono; [apply IH|]; [by rewrite (grew_ready _ _ _ _ G)|apply G|].
    intros _ r2 (ls & F2 & G2). exists (l ++ ls). split; [by econstructor|by eapply grew_trans].
Qed.

(** The start of a thread writes the header and logs nothing. *)
Lemma thread_init_run b valid tid r : r_ready r = false -> safely (ovni_thread_init wr wfuel b valid tid) r (fun _ r' =>
  r_ready r' = true /\ r_nclock r' = r_nclock r /\ logged r' []).
Proof.
  intros Hrd. unfold ovni_thread_init. apply safely_bind, safely_get. rewrite Hrd.
  apply safely_if; [done|intros _]. apply safely_if; [done|intros _]. apply safely_if; [done|intros _].
  apply safely_bind. eapply safely_run; [done|]. apply safely_bind. unfold write_stream_header, flush_evbuf.
  apply safely_bind, safely_mod, safely_bind, safely_get.
  safe_call write_evbuf_run; [simpl; unfold OVNI_MAX_EV_BUF in wfuel_enough; lia|].
  intros _ r1 [n ->]. apply safely_mod. unfold thread_metadata_init, thread_metadata_store.
  apply safely_bind, safely_bind, safely_mod, safely_mod, safely_bind, safely_mod.
  unfold ovni_thread_require. apply safely_bind, safely_get. simpl negb. cbv iota.
  repeat (apply safely_if; [done|intros _]). apply safely_mod. split; [done|]. split; [done|].
  constructor; simpl; [done..|]. exists 0%nat. by split_and!.
Qed.

(** The end of a thread leaves its stream as it is: what is in the buffer is
    lost. *)
Lemma thread_free_run r : safely ovni_thread_free r (fun _ r' => r_file r' = r_file r).
Proof.
  unfold ovni_thread_free. apply safely_bind, safely_get. repeat (apply safely_if; [done|intros _]).
  apply safely_bind. eapply (safely_mono _ _ (fun _ r' => r_file r' = r_file r)).
  { by destruct (r_rank r) as [[]|]. }
  intros _ r1 E1. apply safely_bind. eapply (safely_mono _ _ (fun _ r' => r_file r' = r_file r)).
  { destruct (r_cpus r); [done|]. by apply safely_mod. }
  intros _ r2 E2. unfold thread_metadata_store. by repeat first [apply safely_bind | apply safely_mod].
Qed.
End Rt.
