(* ===== verification/Stream.v ===== *)
(** * Streams (src/emu/stream.c)

    A stream is the memory map of the file a thread wrote: a header and the
    records one after the other.  The cursor is a pointer into the map; here it
    is an offset, and the event at it is the bytes from there to the end of the
    map.  The metadata of the stream is a JSON object that parson reads; only
    its version matters to this file.  Sums of 64-bit clocks that overflow are
    undefined behaviour. *)

From S2P Require Import Prelude Event Rt.

(** ** State *)

(** [cur_ev] is NULL or points into [buf]. *)
Record stream := mk_stream {
  s_cur_ev : option Z;
  s_buf : list Z;
  s_size : Z;
  s_lastclock : Z;
  s_deltaclock : Z;
  s_clock_offset : Z;
  s_active : bool;
  s_unsorted : bool;
  s_usize : Z;
  s_offset : Z
}.

Definition stream_zero : stream := mk_stream None [] 0 0 0 0 false false 0 0.

Definition set_s_cur_ev x (s : stream) : stream :=
  mk_stream x (s_buf s) (s_size s) (s_lastclock s) (s_deltaclock s) (s_clock_offset s) (s_active s)
    (s_unsorted s) (s_usize s) (s_offset s).
Definition set_s_buf x (s : stream) : stream :=
  mk_stream (s_cur_ev s) x (s_size s) (s_lastclock s) (s_deltaclock s) (s_clock_offset s) (s_active s)
    (s_unsorted s) (s_usize s) (s_offset s).
Definition set_s_size x (s : stream) : stream :=
  mk_stream (s_cur_ev s) (s_buf s) x (s_lastclock s) (s_deltaclock s) (s_clock_offset s) (s_active s)
    (s_unsorted s) (s_usize s) (s_offset s).
Definition set_s_clocks last delta (s : stream) : stream :=
  mk_stream (s_cur_ev s) (s_buf s) (s_size s) last delta (s_clock_offset s) (s_active s)
    (s_unsorted s) (s_usize s) (s_offset s).
Definition set_s_clock_offset x (s : stream) : stream :=
  mk_stream (s_cur_ev s) (s_buf s) (s_size s) (s_lastclock s) (s_deltaclock s) x (s_active s)
    (s_unsorted s) (s_usize s) (s_offset s).
Definition set_s_active x (s : stream) : stream :=
  mk_stream (s_cur_ev s) (s_buf s) (s_size s) (s_lastclock s) (s_deltaclock s) (s_clock_offset s) x
    (s_unsorted s) (s_usize s) (s_offset s).
Definition set_s_unsorted x (s : stream) : stream :=
  mk_stream (s_cur_ev s) (s_buf s) (s_size s) (s_lastclock s) (s_deltaclock s) (s_clock_offset s) (s_active s)
    x (s_usize s) (s_offset s).
Definition set_s_usize x (s : stream) : stream :=
  mk_stream (s_cur_ev s) (s_buf s) (s_size s) (s_lastclock s) (s_deltaclock s) (s_clock_offset s) (s_active s)
    (s_unsorted s) x (s_offset s).
Definition set_s_offset x (s : stream) : stream :=
  mk_stream (s_cur_ev s) (s_buf s) (s_size s) (s_lastclock s) (s_deltaclock s) (s_clock_offset s) (s_active s)
    (s_unsorted s) (s_usize s) x.

(** A pointer into the map: the bytes from there on. *)
Definition mem_at {S} (buf : list Z) (off : Z) : M S (list Z) :=
  if (off <? 0) || (Z.of_nat (length buf) <? off) then mub else mret (drop (Z.to_nat off) buf).

Definition add64 {S} (a b : Z) : M S Z :=
  if (- 2 ^ 63 <=? a + b) && (a + b <? 2 ^ 63) then mret (a + b) else mub.

(** ** Loading *)

Definition sizeof_stream_header : Z := 8.

Definition check_stream_header : M stream unit :=
  let* s := mget in
  if s_size s <? sizeof_stream_header then mfail else
  let* magic := deref (get_bytes 0 4 (s_buf s)) in
  let* version := deref (get_u 4 4 (s_buf s)) in
  if bool_decide (magic = [111; 118; 110; 105]) && (version =? 1) then mret tt else mfail.

(** [contents]: the bytes of the file. *)
Definition load_stream_fd (contents : list Z) : M stream unit :=
  if (length contents =? 0)%nat then mfail else
  mmod (fun s => set_s_size (Z.of_nat (length contents)) (set_s_buf contents s)).

Definition load_obs (contents : list Z) : M stream unit :=
  load_stream_fd contents ;;;
  check_stream_header ;;;
  mmod (set_s_offset sizeof_stream_header) ;;;
  mmod (fun s => set_s_usize (s_size s - s_offset s) s) ;;;
  let* s := mget in
  if s_offset s <? s_size s then mmod (set_s_active true)
  else if s_offset s =? s_size s then mmod (set_s_active false)
  else mfail.

(** The "version" attribute of the metadata, if it has one. *)
Definition check_version {S} (version : option Z) : M S unit :=
  match version with
  | None => mfail
  | Some v => if v =? OVNI_METADATA_VERSION then mret tt else mfail
  end.

(** [json]: the metadata file, [None] when it does not parse to an object. *)
Definition load_json {S} (json : option (option Z)) : M S unit :=
  let* version := found json in check_version version.

Definition stream_load (json : option (option Z)) (contents : list Z) : M stream unit :=
  mput stream_zero ;;;
  load_json json ;;;
  load_obs contents.

(** ** Stepping *)

Definition stream_clkoff_set (clkoff : Z) : M stream unit :=
  let* s := mget in
  match s_cur_ev s with
  | Some _ => mfail
  | None => if negb (s_clock_offset s =? 0) then mfail else mmod (set_s_clock_offset clkoff)
  end.

Definition stream_ev (s : stream) : option Z := s_cur_ev s.

Definition stream_evclock (ev : list Z) : M stream Z :=
  let* s := mget in
  let* clock := ovni_ev_get_clock ev in
  add64 (i64 clock) (s_clock_offset s).

Definition stream_lastclock (s : stream) : Z := s_lastclock s.

(** [stream->cur_ev = &buf[offset]], the checks of the event there, and its clock. *)
Definition load_event : M stream Z :=
  let* s := mget in
  let* ev := mem_at (s_buf s) (s_offset s) in
  mmod (set_s_cur_ev (Some (s_offset s))) ;;;
  let* size := ovni_ev_size ev in
  if s_size s <? s_offset s + size then mfail else
  let* clock := stream_evclock ev in
  if negb (s_unsorted s) && (clock <? s_lastclock s) then mfail else
  let* delta := add64 clock (- s_lastclock s) in
  mmod (set_s_clocks clock delta) ;;;
  mret 0.

(** The result is 1 at the end of the stream and 0 at an event. *)
Definition stream_step : M stream Z :=
  let* s := mget in
  if negb (s_active s) then mfail else
  match s_cur_ev s with
  | None => load_event
  | Some off =>
      let* ev := mem_at (s_buf s) off in
      let* size := ovni_ev_size ev in
      mmod (set_s_offset (s_offset s + size)) ;;;
      let* s1 := mget in
      if s_size s1 <? s_offset s1 then mfail else
      if s_offset s1 =? s_size s1 then
        mmod (set_s_active false) ;;;
        mmod (set_s_cur_ev None) ;;;
        mret 1
      else load_event
  end.

Definition stream_progress (s : stream) : Z * Z := (s_offset s - sizeof_stream_header, s_usize s).

Definition stream_allow_unsorted : M stream unit := mmod (set_s_unsorted true).

(** ** Reading whole records *)

Definition rec_clock (b : list Z) : Z := le_decode (take 8 (drop 4 b)).

(** The corrected clock of a record. *)
Definition rec_sclock (off : Z) (b : list Z) : Z := i64 (rec_clock b) + off.

(** The clocks of the records, after [last], do not overflow and, unless the
    stream is allowed to be unsorted, do not go back. *)
Fixpoint clocks_ok (off : Z) (unsorted : bool) (last : Z) (recs : list (list Z)) : Prop :=
  match recs with
  | [] => True
  | b :: recs' =>
      let c := rec_sclock off b in
      in_s 64 c /\ in_s 64 (c - last) /\ (unsorted = true \/ last <= c) /\ clocks_ok off unsorted c recs'
  end.

(** Step a stream to its end, collecting the records it stops at. *)
Fixpoint read_all (fuel : nat) : M stream (list (list Z)) :=
  match fuel with
  | O => mfuel
  | S fuel' =>
      let* s := mget in
      if negb (s_active s) then mret [] else
      let* ret := stream_step in
      if 0 <? ret then mret [] else
      let* s := mget in
      let* off := deref (stream_ev s) in
      let* ev := mem_at (s_buf s) off in
      let* size := ovni_ev_size ev in
      let* rest := read_all fuel' in
      mret (take (Z.to_nat size) ev :: rest)
  end.

Lemma mem_at_app {S} pre l (s : S) : mem_at (pre ++ l) (Z.of_nat (length pre)) s = (Ok l, s).
Proof.
  unfold mem_at. rewrite length_app. rewrite (proj2 (Z.ltb_ge _ _)), (proj2 (Z.ltb_ge _ _)) by lia.
  simpl. by rewrite Nat2Z.id, drop_app_length.
Qed.

Lemma sized_size {S} b rest (s : S) : sized b -> ovni_ev_size (b ++ rest) s = (Ok (Z.of_nat (length b)), s).
Proof. intros (_ & _ & H). apply H. Qed.

Lemma sized_clock {S} b rest (s : S) : sized b -> ovni_ev_get_clock (b ++ rest) s = (Ok (rec_clock b), s).
Proof.
  intros (_ & Hl & _). unfold ovni_ev_get_clock, get_u. rewrite get_bytes_app by lia. unfold get_bytes.
  by rewrite (proj2 (Nat.leb_le _ _)) by lia.
Qed.

Lemma add64_run {S} a b (s : S) : in_s 64 (a + b) -> add64 a b s = (Ok (a + b), s).
Proof.
  unfold in_s, add64. intros H. rewrite (proj2 (Z.leb_le _ _)), (proj2 (Z.ltb_lt _ _)) by lia. done.
Qed.

Lemma load_event_run pre b post s : sized b -> s_buf s = pre ++ b ++ post ->
  s_size s = Z.of_nat (length (s_buf s)) -> s_offset s = Z.of_nat (length pre) ->
  clocks_ok (s_clock_offset s) (s_unsorted s) (s_lastclock s) [b] ->
  load_event s = (Ok 0, set_s_clocks (rec_sclock (s_clock_offset s) b)
    (rec_sclock (s_clock_offset s) b - s_lastclock s) (set_s_cur_ev (Some (s_offset s)) s)).
Proof.
  intros Hz Hb Hsz Hoff (H1 & H2 & H3 & _). unfold load_event. rewrite (mbind_run mget _ s s s) by done.
  rewrite Hb, Hoff, (mbind_run _ _ _ _ _ (mem_at_app pre (b ++ post) s)).
  rewrite (mbind_run (mmod _) _ _ _ _ eq_refl), (mbind_run _ _ _ _ _ (sized_size b post _ Hz)).
  rewrite Hsz, Hb, !length_app. rewrite (proj2 (Z.ltb_ge _ _)) by lia.
  unfold stream_evclock. erewrite mbind_run.
  2:{ rewrite (mbind_run mget _ _ _ _ eq_refl), (mbind_run _ _ _ _ _ (sized_clock b post _ Hz)).
      apply add64_run. exact H1. }
  cbn [s_clock_offset set_s_cur_ev]. change (i64 (rec_clock b) + s_clock_offset s) with (rec_sclock (s_clock_offset s) b).
  replace (negb (s_unsorted s) && _) with false.
  2:{ destruct H3 as [->|H3]; [done|]. rewrite (proj2 (Z.ltb_ge _ _)) by done. by rewrite andb_false_r. }
  rewrite (mbind_run _ _ _ _ _ (add64_run _ _ _ H2)). done.
Qed.

(** The stream stands at record [b], with [pre] before it. *)
Definition stands_at (pre b post : list Z) (s : stream) : Prop :=
  s_buf s = pre ++ b ++ post /\ s_size s = Z.of_nat (length (s_buf s)) /\ s_active s = true /\
  s_offset s = Z.of_nat (length pre) /\ s_cur_ev s = Some (s_offset s).

(** The step from a record to the next one. *)
Lemma stream_step_next pre b b' post s : sized b -> sized b' -> stands_at pre b (b' ++ post) s ->
  clocks_ok (s_clock_offset s) (s_unsorted s) (s_lastclock s) [b'] ->
  exists s', stream_step s = (Ok 0, s') /\ stands_at (pre ++ b) b' post s' /\
    s_clock_offset s' = s_clock_offset s /\ s_unsorted s' = s_unsorted s /\
    s_lastclock s' = rec_sclock (s_clock_offset s) b'.
Proof.
  intros Hz Hz' (Hb & Hsz & Ha & Ho & Hc) Hcl. unfold stream_step. rewrite (mbind_run mget _ s s s) by done.
  rewrite Ha, Hc. change (negb true) with false. cbv iota.
  rewrite Hb, Ho, (mbind_run _ _ _ _ _ (mem_at_app pre _ s)), (mbind_run _ _ _ _ _ (sized_size b _ s Hz)).
  rewrite (mbind_run (mmod _) _ _ _ _ eq_refl), (mbind_run mget _ _ _ _ eq_refl). cbn [s_size s_offset set_s_offset].
  pose proof (proj1 (proj2 Hz')) as Hl'. rewrite Hsz, Hb, !length_app.
  rewrite (proj2 (Z.ltb_ge _ _)), (proj2 (Z.eqb_neq _ _)) by lia.
  set (s1 := set_s_offset _ s). eexists. split; [apply (load_event_run (pre ++ b) b' post s1)|]; try done.
  - simpl. by rewrite Hb, <- app_assoc.
  - simpl. rewrite length_app. lia.
  - unfold stands_at; simpl. split_and!; try done; [by rewrite Hb, <- app_assoc|rewrite length_app; lia].
Qed.

(** The step from the last record. *)
Lemma stream_step_last pre b s : sized b -> stands_at pre b [] s ->
  exists s', stream_step s = (Ok 1, s') /\ s_active s' = false.
Proof.
  intros Hz (Hb & Hsz & Ha & Ho & Hc). unfold stream_step. rewrite (mbind_run mget _ s s s) by done.
  rewrite Ha, Hc. change (negb true) with false. cbv iota.
  rewrite Hb, Ho, (mbind_run _ _ _ _ _ (mem_at_app pre _ s)), (mbind_run _ _ _ _ _ (sized_size b _ s Hz)).
  rewrite (mbind_run (mmod _) _ _ _ _ eq_refl), (mbind_run mget _ _ _ _ eq_refl). cbn [s_size s_offset set_s_offset].
  rewrite Hsz, Hb, app_nil_r, length_app. rewrite (proj2 (Z.ltb_ge _ _)) by lia.
  rewrite (proj2 (Z.eqb_eq _ _)) by lia.
  eexists. split; [done|]. done.
Qed.

Lemma read_record pre b post s k (rest : list (list Z)) s' : sized b -> stands_at pre b post s ->
  read_all k s = (Ok rest, s') ->
  (let* s := mget in let* off := deref (stream_ev s) in let* ev := mem_at (s_buf s) off in
   let* size := ovni_ev_size ev in let* rest := read_all k in
   mret (take (Z.to_nat size) ev :: rest)) s = (Ok (b :: rest), s').
Proof.
  intros Hz (Hb & Hsz & Ha & Ho & Hc) E. rewrite (mbind_run mget _ s s s) by done. unfold stream_ev.
  rewrite Hc, (mbind_run _ _ s (s_offset s) s) by done. rewrite Hb, Ho, (mbind_run _ _ _ _ _ (mem_at_app pre _ s)).
  rewrite (mbind_run _ _ _ _ _ (sized_size b post s Hz)), (mbind_run _ _ _ _ _ E).
  unfold mret. by rewrite Nat2Z.id, take_app_length.
Qed.

Lemma read_from recs : forall pre b s k, sized b -> Forall sized recs -> stands_at pre b (concat recs) s ->
  clocks_ok (s_clock_offset s) (s_unsorted s) (s_lastclock s) recs -> (length recs < k)%nat ->
  exists s', read_all k s = (Ok recs, s').
Proof.
  induction recs as [|b' recs IH]; intros pre b s k Hz Hzs Hat Hcl Hk.
  all: destruct k as [|k]; [simpl in Hk; lia|]; cbn [read_all]; rewrite (mbind_run mget _ s s s) by done;
    rewrite (proj1 (proj2 (proj2 Hat))); change (negb true) with false; cbv iota.
  - destruct (stream_step_last pre b s Hz Hat) as (s1 & E1 & A1). rewrite (mbind_run _ _ _ _ _ E1). by exists s1.
  - apply list.Forall_cons in Hzs as [Hz' Hzs]. simpl concat in Hat. destruct Hcl as (C1 & C2 & C3 & Hcl).
    destruct (stream_step_next pre b b' (concat recs) s Hz Hz' Hat) as (s1 & E1 & A1 & Eo & Eu & El); [done|].
    rewrite (mbind_run _ _ _ _ _ E1). change (0 <? 0) with false. cbv iota.
    destruct (IH (pre ++ b) b' s1 k Hz' Hzs A1) as (s2 & E2); [by rewrite Eo, Eu, El|simpl in Hk; lia|].
    exists s2. by apply (read_record (pre ++ b) b' (concat recs) s1).
Qed.

(** ** Reading a whole file *)

(** Open a stream with its offset and read it to the end. *)
Definition read_stream (contents : list Z) (off : Z) (unsorted : bool) (k : nat) : M stream (list (list Z)) :=
  stream_load (Some (Some OVNI_METADATA_VERSION)) contents ;;;
  stream_clkoff_set off ;;;
  (if unsorted then stream_allow_unsorted else mret tt) ;;;
  read_all k.

Definition opened (contents : list Z) (off : Z) (unsorted : bool) : stream :=
  let size := Z.of_nat (length contents) in
  mk_stream None contents size 0 0 off (8 <? size) unsorted (size - 8) 8.

Lemma stream_load_run l s : stream_load (Some (Some OVNI_METADATA_VERSION)) (stream_header ++ l) s =
  (Ok tt, opened (stream_header ++ l) 0 false).
Proof.
  unfold stream_load, load_obs. rewrite (mbind_run (mput _) _ _ _ _ eq_refl), (mbind_run (load_json _) _ _ tt stream_zero) by done.
  set (s1 := set_s_size (Z.of_nat (length (stream_header ++ l))) (set_s_buf (stream_header ++ l) stream_zero)).
  rewrite (mbind_run (load_stream_fd _) _ _ tt s1) by done. unfold check_stream_header. assert (s_size s1 = 8 + Z.of_nat (length l)) as Es.
  { unfold s1; simpl. lia. }
  erewrite mbind_run.
  2:{ rewrite (mbind_run mget _ _ _ _ eq_refl). rewrite Es, (proj2 (Z.ltb_ge _ _)) by (unfold sizeof_stream_header; lia).
      unfold s1; cbn [s_buf set_s_size set_s_buf]. unfold get_u. rewrite !get_bytes_app by (simpl; lia).
      rewrite (mbind_run _ _ s1 [111; 118; 110; 105] s1), (mbind_run _ _ s1 1 s1) by done. reflexivity. }
  rewrite (mbind_run (mmod _) _ _ _ _ eq_refl), (mbind_run (mmod _) _ _ _ _ eq_refl), (mbind_run mget _ _ _ _ eq_refl).
  cbn [s_offset s_size set_s_usize set_s_offset]. fold s1. rewrite Es. unfold opened, sizeof_stream_header. rewrite length_app.
  change (length stream_header) with 8%nat. rewrite Nat2Z.inj_add. change (Z.of_nat 8) with 8.
  destruct (Z.ltb_spec 8 (8 + Z.of_nat (length l))) as [Hl|Hl].
  - unfold mmod, s1, set_s_active; simpl. do 2 f_equal; lia.
  - rewrite (proj2 (Z.eqb_eq _ _)) by lia. unfold mmod, s1, set_s_active; simpl. do 2 f_equal; lia.
Qed.

Lemma read_stream_whole recs off unsorted k s : Forall sized recs -> clocks_ok off unsorted 0 recs ->
  (length recs < k)%nat -> exists s', read_stream (stream_header ++ concat recs) off unsorted k s = (Ok recs, s').
Proof.
  intros Hz Hcl Hk. unfold read_stream. rewrite (mbind_run _ _ _ _ _ (stream_load_run _ s)).
  rewrite (mbind_run (stream_clkoff_set off) _ _ tt (opened (stream_header ++ concat recs) off false)) by done.
  rewrite (mbind_run _ _ _ tt (opened (stream_header ++ concat recs) off unsorted)) by (by destruct unsorted).
  destruct k as [|k]; [lia|]. cbn [read_all]. set (s0 := opened _ _ _). rewrite (mbind_run mget _ s0 s0 s0) by done.
  destruct recs as [|b recs]; [by exists s0|]. apply list.Forall_cons in Hz as [Hb Hz].
  simpl concat in s0. assert (s_active s0 = true) as Ha.
  { unfold s0; simpl. rewrite Z.ltb_lt, length_app. pose proof (proj1 (proj2 Hb)). lia. }
  rewrite Ha. change (negb true) with false. cbv iota. destruct Hcl as (C1 & C2 & C3 & Hcl).
  assert (stream_step s0 = load_event s0) as Est.
  { unfold stream_step. rewrite (mbind_run mget _ s0 s0 s0) by done. by rewrite Ha. }
  pose proof (load_event_run stream_header b (concat recs) s0 Hb eq_refl eq_refl eq_refl) as El.
  rewrite <- Est in El. rewrite (mbind_run _ _ _ _ _ (El ltac:(done))). change (0 <? 0) with false. cbv iota.
  clear El Est. set (s1 := set_s_clocks _ _ _).
  assert (stands_at stream_header b (concat recs) s1) as Hat by (by unfold stands_at).
  destruct (read_from recs stream_header b s1 k Hb Hz Hat) as (s2 & E2); [done|simpl in Hk; lia|].
  exists s2. by apply (read_record stream_header b (concat recs) s1).
Qed.
