(* ===== verification/RoundTrip.v ===== *)
(** * From the runtime to the emulator

    The stream a thread writes (Rt.v) is read by the emulator (Stream.v): the
    properties of each and of both together, and two inputs on which they do
    not do what they mean to: a flush inside a flush, and a jumbo size that
    does not fit in an [int]. *)

From Stdlib Require Import Ascii.
From S2P Require Import Prelude Event Rt RtCorrect Stream.

#[local] Arguments le_encode : simpl never.

(** [write] fails, or takes some of the bytes it is given. *)
Definition partial_write (wr : nat -> Z -> Z) : Prop :=
  forall k n, 0 <= n -> wr k n < 0 \/ 0 <= wr k n <= n /\ (0 < n -> 0 < wr k n).

(** ** Properties *)

(** C25. What the stream of a thread holds.  Start a thread and make any calls of
    the library (events, jumbo events, flushes, marks), with any [write] that
    fails or makes progress: unless the process aborts, the buffer was never
    overrun and the file and the buffer together are the header and the whole
    records of the calls, in order, each followed by the flush events it forced;
    each record says its own size. *)
Theorem thread_stream_whole clock wr wfuel b valid tid fuel cs r :
  partial_write wr -> OVNI_MAX_EV_BUF <= Z.of_nat wfuel -> Forall call_ok cs -> r_ready r = false ->
  safely (ovni_thread_init wr wfuel b valid tid ;;; for_each (run_call clock wr wfuel (S (S fuel))) cs) r
    (fun _ r' => exists recs, emitted_all clock cs (r_nclock r) recs (r_nclock r') /\ Forall sized recs /\
      r_evlen r' = Z.of_nat (length (r_evbuf r')) /\ r_evlen r' < OVNI_MAX_EV_BUF /\
      r_file r' ++ r_evbuf r' = stream_header ++ concat recs).
Proof.
  intros Hwr Hwf Hcs Hrd. safe_call (thread_init_run wr wfuel Hwr Hwf b valid tid r Hrd).
  intros _ r1 (R1 & N1 & L1). eapply safely_mono; [apply (run_calls_run clock wr wfuel Hwr Hwf fuel cs r1 [] Hcs R1 L1)|].
  intros _ r2 (recs & F & [L2 _]). change ([] ++ recs) with recs in L2. exists recs. rewrite <- N1. split; [done|].
  destruct L2 as [H1 H2 H3 (n & _ & Ef & Eb)]. split_and!; [done..|].
  by rewrite Ef, Eb, <- app_assoc, <- concat_app, take_drop.
Qed.

(** C23. Round trip of a stream.  After the calls of a thread, a flush and the end
    of the thread, the emulator opens the file that was written and stops at
    exactly the records of the calls, in order, as long as their corrected
    clocks fit in 64 bits and do not go back (or the stream is allowed to be
    unsorted). *)
Theorem stream_round_trip clock wr wfuel b valid tid fuel cs r :
  partial_write wr -> OVNI_MAX_EV_BUF <= Z.of_nat wfuel -> Forall call_ok cs -> r_ready r = false ->
  safely (ovni_thread_init wr wfuel b valid tid ;;; for_each (run_call clock wr wfuel (S (S fuel))) cs ;;;
      ovni_flush clock wr wfuel (S fuel) ;;; ovni_thread_free) r
    (fun _ r' => exists recs n, emitted_all clock cs (r_nclock r) recs n /\
      forall off unsorted k s, clocks_ok off unsorted 0 recs -> (length recs < k)%nat ->
        exists s', read_stream (r_file r') off unsorted k s = (Ok recs, s')).
Proof.
  intros Hwr Hwf Hcs Hrd. safe_call (thread_init_run wr wfuel Hwr Hwf b valid tid r Hrd).
  intros _ r1 (R1 & N1 & L1). safe_call (run_calls_run clock wr wfuel Hwr Hwf fuel cs r1 []); [done..|].
  intros _ r2 (recs & F & G2). safe_call (ovni_flush_run clock wr wfuel Hwr Hwf fuel r2 ([] ++ recs)).
  { by rewrite (grew_ready _ _ _ _ G2). } { apply G2. }
  intros _ r3 (_ & _ & Hf). eapply safely_mono; [apply thread_free_run|]. intros _ r4 ->.
  exists recs, (r_nclock r2). rewrite <- N1. split; [done|]. intros off unsorted k s Hcl Hk.
  rewrite Hf. apply read_stream_whole; [|done..]. destruct G2 as [[_ _ Hz _] _]. exact Hz.
Qed.

(** C27. A flush inside a flush.  A jumbo event that forces a flush and leaves no
    room for the first flush event makes that event force a second flush; its
    events go between those of the first, and with a clock that grows the
    records of the stream go back in time, so that no offset makes the emulator
    accept them as sorted. *)
Theorem jumbo_nested_flush clock wr wfuel fuel ev buf r recs :
  partial_write wr -> OVNI_MAX_EV_BUF <= Z.of_nat wfuel ->
  r_ready r = true -> logged r recs -> ev_struct ev -> Forall byte_ok buf ->
  OVNI_MAX_EV_BUF <= r_evlen r + (16 + Z.of_nat (length buf)) ->
  OVNI_MAX_EV_BUF - 12 <= 16 + Z.of_nat (length buf) ->
  (let c i := clock (i + r_nclock r)%nat in 0 <= c 0%nat < c 1%nat /\ c 1%nat < c 2%nat < c 3%nat /\ c 3%nat < 2 ^ 63) ->
  safely (ovni_ev_add_jumbo clock wr wfuel (S (S fuel)) ev buf) r (fun _ r' =>
    let n := r_nclock r in
    let recs' := jumbo_rec ev buf :: [flush_rec "[" (clock n); flush_rec "[" (clock (S (S n)));
      flush_rec "]" (clock (S (S (S n)))); flush_rec "]" (clock (S n))] in
    logged r' (recs ++ recs') /\ forall off last, ~ clocks_ok off false last recs').
Proof.
  intros Hwr Hwf Hrd Hlg Hs Hb Hfull Hbig Hclk.
  eapply safely_mono; [by apply (ev_add_jumbo_run clock wr wfuel Hwr Hwf fuel ev buf r recs)|].
  intros _ r' (fl & _ & [L _] & Hfl). rewrite (Hfl Hfull Hbig) in L.
  simpl in Hclk. assert (forall n, 0 <= clock n < 2 ^ 63 -> now clock n = clock n) as Hnow.
  { intros n Hn. unfold now, u64. apply wrapu_id. unfold in_u. lia. }
  unfold nested_flush in L. rewrite !Hnow in L by lia. split; [exact L|]. intros off last Hcl.
  assert (forall v n, 0 <= clock n < 2 ^ 63 -> rec_sclock off (flush_rec v (clock n)) = clock n + off) as Hrc.
  { intros v n Hn. unfold rec_sclock, rec_clock, flush_rec.
    rewrite drop_app_ge by done. change (4 - length _)%nat with 0%nat. rewrite drop_0, take_ge by (by rewrite length_le_encode).
    rewrite le_decode_encode by (simpl; lia). unfold i64. rewrite wraps_id by (unfold in_s; lia). done. }
  destruct Hcl as (_ & _ & _ & _ & _ & _ & _ & _ & _ & _ & _ & _ & _ & _ & H & _). rewrite !Hrc in H by lia.
  destruct H as [H|H]; [done|]. lia.
Qed.

(** Time never goes back within a stream: a step to a record whose corrected
    clock is before that of the current one fails. *)
Theorem stream_step_backwards pre b b' post s : sized b -> sized b' -> stands_at pre b (b' ++ post) s ->
  s_unsorted s = false -> in_s 64 (rec_sclock (s_clock_offset s) b') ->
  rec_sclock (s_clock_offset s) b' < s_lastclock s -> (stream_step s).1 = Err.
Proof.
  intros Hz Hz' (Hb & Hsz & Ha & Ho & Hc) Hu Hin Hlt. unfold stream_step. rewrite (mbind_run mget _ s s s) by done.
  rewrite Ha, Hc. change (negb true) with false. cbv iota.
  rewrite Hb, Ho, (mbind_run _ _ _ _ _ (mem_at_app pre _ s)), (mbind_run _ _ _ _ _ (sized_size b _ s Hz)).
  rewrite (mbind_run (mmod _) _ _ _ _ eq_refl), (mbind_run mget _ _ _ _ eq_refl). cbn [s_size s_offset set_s_offset].
  pose proof (proj1 (proj2 Hz')) as Hl'. rewrite Hsz, Hb, !length_app.
  rewrite (proj2 (Z.ltb_ge _ _)), (proj2 (Z.eqb_neq _ _)) by lia.
  set (s1 := set_s_offset _ s). unfold load_event. rewrite (mbind_run mget _ s1 s1 s1) by done.
  assert (mem_at (s_buf s1) (s_offset s1) s1 = (Ok (b' ++ post), s1)) as Em.
  { unfold s1; simpl. rewrite Hb, app_assoc, <- Nat2Z.inj_add, <- length_app. apply mem_at_app. }
  rewrite (mbind_run _ _ _ _ _ Em), (mbind_run (mmod _) _ _ _ _ eq_refl), (mbind_run _ _ _ _ _ (sized_size b' post _ Hz')).
  unfold s1; cbn [s_size s_offset set_s_offset]. rewrite Hsz, Hb, !length_app. rewrite (proj2 (Z.ltb_ge _ _)) by lia.
  unfold stream_evclock. erewrite mbind_run.
  2:{ rewrite (mbind_run mget _ _ _ _ eq_refl), (mbind_run _ _ _ _ _ (sized_clock b' post _ Hz')).
      apply add64_run. exact Hin. }
  simpl. rewrite Hu. change (i64 (rec_clock b') + s_clock_offset s) with (rec_sclock (s_clock_offset s) b').
  by rewrite (proj2 (Z.ltb_lt _ _)) by done.
Qed.

(** A file of one jumbo event whose size field is 2^32 - 16. *)
Definition stuck_file : list Z := stream_header ++ [OVNI_EV_JUMBO; 1; 2; 3] ++ le_encode 8 0 ++ le_encode 4 (2 ^ 32 - 16).

(** A jumbo size is cast to [int]: with a size field of 2^32 - 16 the event has
    size zero, it passes every check, and stepping the stream returns to it
    again and again, so that no amount of fuel reads the stream to its end. *)
Theorem stuck_stream_never_ends s k : (read_stream stuck_file 0 false k s).1 = Fuel.
Proof.
  assert (exists s1, stream_step (opened stuck_file 0 false) = (Ok 0, s1) /\ stream_step s1 = (Ok 0, s1) /\
    s_active s1 = true /\ s_cur_ev s1 = Some 8 /\ s_buf s1 = stuck_file) as (s1 & E1 & E2 & Ha & Hc & Hb).
  { exists (set_s_clocks 0 0 (set_s_cur_ev (Some 8) (opened stuck_file 0 false))). split_and!; vm_compute; reflexivity. }
  assert (forall k, (read_all k s1).1 = Fuel) as Hs1.
  { clear k. induction k as [|k IH]; [done|]. cbn [read_all]. rewrite (mbind_run mget _ s1 s1 s1) by done.
    rewrite Ha. change (negb true) with false. cbv iota. rewrite (mbind_run _ _ _ _ _ E2). change (0 <? 0) with false.
    cbv iota. rewrite (mbind_run mget _ s1 s1 s1) by done. unfold stream_ev. rewrite Hc, Hb.
    rewrite (mbind_run (deref _) _ s1 8 s1) by done. rewrite (mbind_run (mem_at _ _) _ s1 (drop 8 stuck_file) s1) by done.
    rewrite (mbind_run (ovni_ev_size _) _ s1 0 s1) by done. unfold mbind. destruct (read_all k s1) as [[]]; done. }
  unfold read_stream. change stuck_file with (stream_header ++ drop 8 stuck_file).
  rewrite (mbind_run _ _ _ _ _ (stream_load_run _ s)). change (stream_header ++ drop 8 stuck_file) with stuck_file.
  rewrite (mbind_run (stream_clkoff_set 0) _ _ tt (opened stuck_file 0 false)) by done.
  rewrite (mbind_run (mret tt) _ _ tt (opened stuck_file 0 false)) by done.
  destruct k as [|k]; [done|]. cbn [read_all]. rewrite (mbind_run mget _ _ _ _ eq_refl).
  change (negb (s_active (opened stuck_file 0 false))) with false. cbv iota. rewrite (mbind_run _ _ _ _ _ E1).
  change (0 <? 0) with false. cbv iota. rewrite (mbind_run mget _ s1 s1 s1) by done. unfold stream_ev. rewrite Hc, Hb.
  rewrite (mbind_run (deref _) _ s1 8 s1) by done. rewrite (mbind_run (mem_at _ _) _ s1 (drop 8 stuck_file) s1) by done.
  rewrite (mbind_run (ovni_ev_size _) _ s1 0 s1) by done. unfold mbind. specialize (Hs1 k).
  destruct (read_all k s1) as [[]]; done.
Qed.

(** ** A program for the witnesses *)

Definition demo_clock (n : nat) : Z := 10 * Z.of_nat n.
(** Three bytes at a time. *)
Definition demo_wr (_ : nat) (n : Z) : Z := Z.min n 3.
Definition demo_fuel : nat := Z.to_nat OVNI_MAX_EV_BUF.
Definition demo_build : build_info := mk_build "1.13.0" "unknown".
Definition demo_ev : list Z := header_ev "O" "B" "." 7.
Definition demo_calls : list call := [CEmit demo_ev; CMark "[" 3 5; CFlush; CJumbo demo_ev [1; 2; 3]].

Lemma demo_partial : partial_write demo_wr.
Proof. intros k n Hn. right. unfold demo_wr. lia. Qed.

Lemma demo_fuel_ok : OVNI_MAX_EV_BUF <= Z.of_nat demo_fuel.
Proof. unfold demo_fuel. rewrite Z2Nat.id; [done|]. unfold OVNI_MAX_EV_BUF. lia. Qed.

Lemma demo_calls_ok : Forall call_ok demo_calls.
Proof. repeat constructor; try apply header_ev_struct; done. Qed.

Lemma thread_stream_whole_witness :
  safely (ovni_thread_init demo_wr demo_fuel demo_build (fun _ => true) 9 ;;;
      for_each (run_call demo_clock demo_wr demo_fuel 2) demo_calls) (rthread_zero ST_READY)
    (fun _ r' => exists recs, emitted_all demo_clock demo_calls 0 recs (r_nclock r') /\ Forall sized recs /\
      r_evlen r' = Z.of_nat (length (r_evbuf r')) /\ r_evlen r' < OVNI_MAX_EV_BUF /\
      r_file r' ++ r_evbuf r' = stream_header ++ concat recs).
Proof.
  apply (thread_stream_whole demo_clock demo_wr demo_fuel demo_build (fun _ => true) 9 0 demo_calls (rthread_zero ST_READY));
    [apply demo_partial|apply demo_fuel_ok|apply demo_calls_ok|reflexivity].
Defined.

Lemma stream_round_trip_witness :
  safely (ovni_thread_init demo_wr demo_fuel demo_build (fun _ => true) 9 ;;;
      for_each (run_call demo_clock demo_wr demo_fuel 2) demo_calls ;;;
      ovni_flush demo_clock demo_wr demo_fuel 1 ;;; ovni_thread_free) (rthread_zero ST_READY)
    (fun _ r' => exists recs n, emitted_all demo_clock demo_calls 0 recs n /\
      forall off unsorted k s, clocks_ok off unsorted 0 recs -> (length recs < k)%nat ->
        exists s', read_stream (r_file r') off unsorted k s = (Ok recs, s')).
Proof.
  apply (stream_round_trip demo_clock demo_wr demo_fuel demo_build (fun _ => true) 9 0 demo_calls (rthread_zero ST_READY));
    [apply demo_partial|apply demo_fuel_ok|apply demo_calls_ok|reflexivity].
Defined.

(** One record in the buffer, and an event that almost fills an empty one. *)
Definition demo_half : rthread :=
  set_buf 12 (flush_rec "[" 1) (set_r_ready true (set_r_file stream_header (rthread_zero ST_READY))).
Definition demo_large : list Z := replicate (Z.to_nat (OVNI_MAX_EV_BUF - 28)) 0.

Lemma demo_half_logged : logged demo_half [flush_rec "[" 1].
Proof.
  constructor; [done..| |].
  - apply list.Forall_singleton. apply (ev_bytes_sized (header_ev "O" "F" "[" 1)), header_ev_struct.
  - exists 0%nat. split_and!; [simpl; lia|done..].
Qed.

Lemma demo_large_length : Z.of_nat (length demo_large) = OVNI_MAX_EV_BUF - 28.
Proof. unfold demo_large. rewrite length_replicate, Z2Nat.id; [done|]. unfold OVNI_MAX_EV_BUF. lia. Qed.

Lemma jumbo_nested_flush_witness :
  safely (ovni_ev_add_jumbo demo_clock demo_wr demo_fuel 2 demo_ev demo_large) demo_half (fun _ r' =>
    let recs' := jumbo_rec demo_ev demo_large :: [flush_rec "[" 0; flush_rec "[" 20; flush_rec "]" 30; flush_rec "]" 10] in
    logged r' ([flush_rec "[" 1] ++ recs') /\ forall off last, ~ clocks_ok off false last recs').
Proof.
  apply (jumbo_nested_flush demo_clock demo_wr demo_fuel 0 demo_ev demo_large demo_half [flush_rec "[" 1]);
    [apply demo_partial|apply demo_fuel_ok|reflexivity|apply demo_half_logged|apply header_ev_struct
    |apply Forall_replicate; by unfold byte_ok| | |].
  - rewrite demo_large_length. simpl. lia.
  - rewrite demo_large_length. lia.
  - simpl. unfold demo_clock. lia.
Defined.

(** A stream with two records out of order, standing at the first. *)
Definition demo_back : list (list Z) := [flush_rec "[" 100; flush_rec "]" 90].
Definition demo_back_stream : stream :=
  let buf := stream_header ++ concat demo_back in
  mk_stream (Some 8) buf 32 100 0 0 true false 24 8.

Lemma stream_step_backwards_witness : (stream_step demo_back_stream).1 = Err.
Proof.
  apply (stream_step_backwards stream_header (flush_rec "[" 100) (flush_rec "]" 90) [] demo_back_stream).
  - apply (ev_bytes_sized (header_ev "O" "F" "[" 100)), header_ev_struct.
  - apply (ev_bytes_sized (header_ev "O" "F" "]" 90)), header_ev_struct.
  - unfold stands_at. split_and!; reflexivity.
  - reflexivity.
  - vm_compute. split; [discriminate|reflexivity].
  - vm_compute. reflexivity.
Defined.
