(* ===== verification/MaxHeap.v ===== *)
(** * The heap of the player (include/heap.h)

    A binary max-heap whose nodes are inside the elements: each has pointers to
    its parent and its two children, and moving an element exchanges nodes, not
    values.  The memory of the nodes is a function from addresses, since every
    element always has its node; NULL is [None].  The comparison of two elements
    is a parameter, positive when the first is greater. *)

From S2P Require Import Prelude.

(** ** Data *)

Record heap_node := mk_hn { hn_parent : option nat; hn_left : option nat; hn_right : option nat }.

Record hmem := mk_hmem {
  hm_node : nat -> heap_node;
  hm_root : option nat;              (* head->root, head->size *)
  hm_size : Z
}.

Definition with_parent x (n : heap_node) : heap_node := mk_hn x (hn_left n) (hn_right n).
Definition with_left x (n : heap_node) : heap_node := mk_hn (hn_parent n) x (hn_right n).
Definition with_right x (n : heap_node) : heap_node := mk_hn (hn_parent n) (hn_left n) x.

Definition upd (a : nat) (f : heap_node -> heap_node) (m : nat -> heap_node) : nat -> heap_node :=
  fun b => if decide (b = a) then f (m b) else m b.

Definition node (a : nat) : M hmem heap_node := let* s := mget in mret (hm_node s a).
Definition put_node (a : nat) (f : heap_node -> heap_node) : M hmem unit :=
  mmod (fun s => mk_hmem (upd a f (hm_node s)) (hm_root s) (hm_size s)).
Definition set_parent (a : nat) (x : option nat) : M hmem unit := put_node a (with_parent x).
Definition set_left (a : nat) (x : option nat) : M hmem unit := put_node a (with_left x).
Definition set_right (a : nat) (x : option nat) : M hmem unit := put_node a (with_right x).
Definition set_root (x : option nat) : M hmem unit := mmod (fun s => mk_hmem (hm_node s) x (hm_size s)).
Definition set_size (x : Z) : M hmem unit := mmod (fun s => mk_hmem (hm_node s) (hm_root s) x).

(** [if (x) x->parent = a]. *)
Definition adopt (x : option nat) (a : nat) : M hmem unit :=
  match x with Some b => set_parent b (Some a) | None => mret tt end.

Definition heap_init : M hmem unit := set_root None ;;; set_size 0.

(** [if (p) { if (p->left == a) p->left = b; else p->right = b; }] *)
Definition replace_child (p : option nat) (a b : nat) : M hmem unit :=
  match p with
  | None => mret tt
  | Some q =>
      let* n := node q in
      if bool_decide (hn_left n = Some a) then set_left q (Some b) else set_right q (Some b)
  end.

(** [heap_swap(a->right, b->right)] *)
Definition swap_right (a b : nat) : M hmem unit :=
  let* na := node a in
  let* nb := node b in
  set_right a (hn_right nb) ;;;
  set_right b (hn_right na).
Definition swap_left (a b : nat) : M hmem unit :=
  let* na := node a in
  let* nb := node b in
  set_left a (hn_left nb) ;;;
  set_left b (hn_left na).

(** The two branches of [heap_max_heapify]: [a] and its child exchange their
    children. *)
Definition exchange_left (a largest : nat) : M hmem unit :=
  let* nl := node largest in
  set_left a (hn_left nl) ;;;
  adopt (hn_left nl) a ;;;
  set_left largest (Some a) ;;;
  swap_right a largest ;;;
  let* na := node a in
  adopt (hn_right na) a ;;;
  let* nl := node largest in
  adopt (hn_right nl) largest.
Definition exchange_right (a largest : nat) : M hmem unit :=
  let* nl := node largest in
  set_right a (hn_right nl) ;;;
  adopt (hn_right nl) a ;;;
  set_right largest (Some a) ;;;
  swap_left a largest ;;;
  let* na := node a in
  adopt (hn_left na) a ;;;
  let* nl := node largest in
  adopt (hn_left nl) largest.

(** Those of the loop of [heap_insert]. *)
Definition bubble_left (nd par : nat) : M hmem unit :=
  let* nn := node nd in
  set_left par (hn_left nn) ;;;
  adopt (hn_left nn) par ;;;
  set_left nd (Some par) ;;;
  swap_right nd par ;;;
  let* nn := node nd in
  adopt (hn_right nn) nd ;;;
  let* np := node par in
  adopt (hn_right np) par.
Definition bubble_right (nd par : nat) : M hmem unit :=
  let* nn := node nd in
  set_right par (hn_right nn) ;;;
  adopt (hn_right nn) par ;;;
  set_right nd (Some par) ;;;
  swap_left nd par ;;;
  let* nn := node nd in
  adopt (hn_left nn) nd ;;;
  let* np := node par in
  adopt (hn_left np) par.

Section Heap.
Variable cmp : nat -> nat -> Z.

(** [head]: whether the argument of that name is not NULL. *)
Fixpoint heap_max_heapify (fuel : nat) (head : bool) (a : nat) : M hmem unit :=
  match fuel with
  | O => mfuel
  | S fuel' =>
      let* na := node a in
      let largest := match hn_left na with Some l => if 0 <? cmp l a then l else a | None => a end in
      let largest := match hn_right na with Some r => if 0 <? cmp r largest then r else largest | None => largest end in
      if bool_decide (largest = a) then mret tt else
      set_parent largest (hn_parent na) ;;;
      replace_child (hn_parent na) a largest ;;;
      set_parent a (Some largest) ;;;
      (if head then set_root (Some largest) else mret tt) ;;;
      let* na := node a in
      (if bool_decide (hn_left na = Some largest) then exchange_left a largest else exchange_right a largest) ;;;
      heap_max_heapify fuel' false a
  end.

Definition heap_max : M hmem (option nat) := let* s := mget in mret (hm_root s).

(** [__builtin_clzl] of a 64-bit word, undefined at zero. *)
Definition leading_zeros (x : Z) : M hmem Z := if x =? 0 then mub else mret (63 - Z.log2 x).

(** The move and the new value of [*node]. *)
Definition heap_get_move (n : Z) : M hmem (bool * Z) :=
  let* lz := leading_zeros n in
  let shift := 8 * 8 - lz - 1 in
  let base := u64 (Z.shiftl 1 shift) in
  let aux_node := u64 (n - base / 2) in
  if aux_node <? base then mret (false, aux_node) else mret (true, u64 (aux_node - base / 2)).

Fixpoint get_loop (fuel : nat) (current : option nat) (n : Z) : M hmem (option nat) :=
  if n =? 1 then mret current else
  match fuel with
  | O => mfuel
  | S fuel' =>
      let* mv := heap_get_move n in
      let* c := deref current in
      let* nc := node c in
      get_loop fuel' (if mv.1 then hn_right nc else hn_left nc) mv.2
  end.

(** A word has at most 63 moves. *)
Definition heap_get (n : Z) : M hmem (option nat) :=
  let* s := mget in get_loop 64 (hm_root s) n.

Definition heap_pop_max (fuel : nat) : M hmem (option nat) :=
  let* s := mget in
  match hm_root s with
  | None => mret None
  | Some max =>
      let size := hm_size s in
      let* change := heap_get size in
      match change with
      | None => mdie
      | Some change =>
          set_size (u64 (size - 1)) ;;;
          let* nc := node change in
          match hn_parent nc with
          | None => set_root None ;;; mret (Some max)
          | Some par =>
              (if bool_decide (par = max) then
                let* nm := node max in
                (if size mod 2 =? 1 then
                  set_left change (hn_left nm) ;;;
                  adopt (hn_left nm) change
                else
                  set_right change (hn_right nm) ;;;
                  adopt (hn_right nm) change) ;;;
                set_parent change None ;;;
                set_root (Some change)
              else
                (if size mod 2 =? 1 then set_right par None else set_left par None) ;;;
                let* nc := node change in
                if bool_decide (hn_left nc <> None) then mdie else
                if bool_decide (hn_right nc <> None) then mdie else
                let* nm := node max in
                set_left change (hn_left nm) ;;;
                adopt (hn_left nm) change ;;;
                let* nm := node max in
                set_right change (hn_right nm) ;;;
                adopt (hn_right nm) change ;;;
                set_parent change None ;;;
                set_root (Some change)) ;;;
              heap_max_heapify fuel true change ;;;
              mret (Some max)
          end
      end
  end.

(** The loop that floats a new node up; the result is the last [parent]. *)
Fixpoint bubble_up (fuel : nat) (nd : nat) (parent : option nat) : M hmem (option nat) :=
  match parent with
  | None => mret None
  | Some par =>
      if 0 <? cmp nd par then
        match fuel with
        | O => mfuel
        | S fuel' =>
            let* np := node par in
            set_parent nd (hn_parent np) ;;;
            set_parent par (Some nd) ;;;
            replace_child (hn_parent np) par nd ;;;
            let* np := node par in
            (if bool_decide (hn_left np = Some nd) then bubble_left nd par else bubble_right nd par) ;;;
            let* nn := node nd in
            bubble_up fuel' nd (hn_parent nn)
        end
      else mret (Some par)
  end.

Definition heap_insert (fuel : nat) (nd : nat) : M hmem unit :=
  set_left nd None ;;;
  set_right nd None ;;;
  set_parent nd None ;;;
  let* s := mget in
  set_size (u64 (hm_size s + 1)) ;;;
  let* s := mget in
  match hm_root s with
  | None => set_root (Some nd)
  | Some _ =>
      let insert := hm_size s / 2 in
      let* parent := heap_get insert in
      let* par := deref parent in
      let* np := node par in
      (if hm_size s mod 2 =? 1 then
        if bool_decide (hn_right np <> None) then mdie else set_right par (Some nd)
      else
        if bool_decide (hn_left np <> None) then mdie else set_left par (Some nd)) ;;;
      set_parent nd (Some par) ;;;
      let* last := bubble_up fuel nd (Some par) in
      match last with None => set_root (Some nd) | Some _ => mret tt end
  end.
End Heap.
