(* ===== verification/MaxHeapCorrect.v ===== *)
(** * Correctness of the pointer heap (include/heap.h)

    The nodes reachable from the root are a complete binary tree of addresses.
    The pointer operations are shown to make functional steps on that tree, seen
    through a context of the node they work on, and the steps keep the order of
    the heap, its shape and its elements. *)

From S2P Require Import Prelude MaxHeap.

(** ** Trees and contexts *)

Inductive tree := Leaf | Node (a : nat) (l r : tree).

Definition root (t : tree) : option nat := match t with Leaf => None | Node a _ _ => Some a end.
Fixpoint addrs (t : tree) : list nat := match t with Leaf => [] | Node a l r => a :: addrs l ++ addrs r end.

(** A node with a child in direction [d] (right when true) and another one. *)
Definition nd (d : bool) (a : nat) (x y : tree) : tree := if d then Node a y x else Node a x y.

(** From the hole up: direction of the hole, node, the other child. *)
Definition ctx := list (bool * nat * tree).

Fixpoint plug (C : ctx) (t : tree) : tree :=
  match C with [] => t | (d, p, s) :: C' => plug C' (nd d p t s) end.
Fixpoint caddrs (C : ctx) : list nat :=
  match C with [] => [] | (_, p, s) :: C' => p :: addrs s ++ caddrs C' end.
Definition cpar (C : ctx) : option nat := match C with [] => None | (_, p, _) :: _ => Some p end.

Lemma addrs_nd d a x y : addrs (nd d a x y) ≡ₚ a :: addrs x ++ addrs y.
Proof. destruct d; simpl; [|done]. by rewrite (Permutation_app_comm (addrs y)). Qed.

Lemma addrs_plug C t : addrs (plug C t) ≡ₚ addrs t ++ caddrs C.
Proof.
  revert t. induction C as [|[[d p] s] C IH]; intros t; simpl; [by rewrite app_nil_r|].
  rewrite IH, addrs_nd. by rewrite <- app_comm_cons, <- app_assoc, Permutation_middle.
Qed.

(** ** Memory *)

Definition mkn (d : bool) (p x y : option nat) : heap_node := if d then mk_hn p y x else mk_hn p x y.

Section Rep.
Implicit Types m : nat -> heap_node.

Fixpoint rep m (p : option nat) (t : tree) : Prop :=
  match t with
  | Leaf => True
  | Node a l r => m a = mk_hn p (root l) (root r) /\ rep m (Some a) l /\ rep m (Some a) r
  end.

Fixpoint rep_ctx m (C : ctx) (h : option nat) : Prop :=
  match C with
  | [] => True
  | (d, p, s) :: C' => m p = mkn d (cpar C') h (root s) /\ rep m (Some p) s /\ rep_ctx m C' (Some p)
  end.

Lemma rep_nd m p d a x y : rep m p (nd d a x y) <-> m a = mkn d p (root x) (root y) /\ rep m (Some a) x /\ rep m (Some a) y.
Proof. destruct d; simpl; naive_solver. Qed.

Lemma root_nd d a x y : root (nd d a x y) = Some a.
Proof. by destruct d. Qed.

Lemma rep_plug m C t : rep m None (plug C t) <-> rep_ctx m C (root t) /\ rep m (cpar C) t.
Proof.
  revert t. induction C as [|[[d p] s] C IH]; intros t; simpl; [naive_solver|].
  rewrite IH, root_nd, rep_nd. naive_solver.
Qed.

Lemma rep_frame m m' p t : rep m p t -> (forall a, a ∈ addrs t -> m' a = m a) -> rep m' p t.
Proof.
  revert p. induction t as [|a l IHl r IHr]; intros p; simpl; [done|]. intros (Ha & Hl & Hr) Hm.
  split; [|split]; [rewrite Hm by set_solver; done|apply IHl; set_solver|apply IHr; set_solver].
Qed.

Lemma rep_ctx_frame m m' C h : rep_ctx m C h -> (forall a, a ∈ caddrs C -> m' a = m a) -> rep_ctx m' C h.
Proof.
  revert h. induction C as [|[[d p] s] C IH]; intros h; simpl; [done|]. intros (Ha & Hl & Hr) Hm.
  split; [|split]; [rewrite Hm by set_solver; done|eapply rep_frame; [done|set_solver]|apply IH; set_solver].
Qed.

(** The root of a tree gets a new parent. *)
Lemma rep_adopt m m' p q t : rep m p t -> NoDup (addrs t) ->
  (forall a, a ∈ addrs t -> m' a = if decide (Some a = root t) then with_parent q (m a) else m a) -> rep m' q t.
Proof.
  destruct t as [|a l r]; simpl; [done|]. intros (Ha & Hl & Hr) [Hn _]%list.NoDup_cons Hm.
  rewrite Hm, decide_True, Ha by (done || set_solver). split; [done|].
  split; (eapply rep_frame; [done|]); intros b Hb; rewrite Hm by set_solver; rewrite decide_False; [done| |done|];
    intros [= ->]; set_solver.
Qed.

(** The hole of a context gets another root. *)
Lemma rep_ctx_hole m m' C h h' : rep_ctx m C h -> NoDup (caddrs C) ->
  (forall b, b ∈ caddrs C -> m' b = if decide (Some b = cpar C) then
     match C with (d, p, s) :: C' => mkn d (cpar C') h' (root s) | [] => m b end else m b) ->
  rep_ctx m' C h'.
Proof.
  destruct C as [|[[d p] s] C]; simpl; [done|]. intros (Ha & Hl & Hr) [Hn _]%list.NoDup_cons Hm.
  rewrite Hm, decide_True by (done || set_solver). split; [done|]. split.
  - eapply rep_frame; [done|]. intros b Hb. rewrite Hm by set_solver. rewrite decide_False; [done|]. intros [= ->]. set_solver.
  - eapply rep_ctx_frame; [done|]. intros b Hb. rewrite Hm by set_solver. rewrite decide_False; [done|]. intros [= ->]. set_solver.
Qed.
End Rep.

(** ** One exchange of a node with its child *)

Definition repl (a b : nat) (n : heap_node) : heap_node :=
  if bool_decide (hn_left n = Some a) then with_left (Some b) n else with_right (Some b) n.

(** Node [a] and its child [l] in direction [d] exchanged below [p]; [x] and
    [y] are the children of [l], [s] the other child of [a]. *)
Definition rotated (d : bool) (a l : nat) (p x y s : option nat) (m : nat -> heap_node) : nat -> heap_node := fun b =>
  if decide (b = l) then mkn d p (Some a) s
  else if decide (b = a) then mkn d (Some l) x y
  else if decide (Some b = x) then with_parent (Some a) (m b)
  else if decide (Some b = y) then with_parent (Some a) (m b)
  else if decide (Some b = s) then with_parent (Some l) (m b)
  else if decide (Some b = p) then repl a l (m b)
  else m b.

(** The addresses of the five parts are apart. *)
Record apart5 (a l : nat) (x y s c : list nat) : Prop := {
  a5_al : a <> l;
  a5_x : forall b, b ∈ x -> b <> a /\ b <> l /\ b ∉ y /\ b ∉ s /\ b ∉ c;
  a5_y : forall b, b ∈ y -> b <> a /\ b <> l /\ b ∉ x /\ b ∉ s /\ b ∉ c;
  a5_s : forall b, b ∈ s -> b <> a /\ b <> l /\ b ∉ x /\ b ∉ y /\ b ∉ c;
  a5_c : forall b, b ∈ c -> b <> a /\ b <> l /\ b ∉ x /\ b ∉ y /\ b ∉ s;
  a5_nd : NoDup x /\ NoDup y /\ NoDup s /\ NoDup c
}.

Lemma NoDup_apart5 a l x y s c : NoDup ((a :: (l :: x ++ y) ++ s) ++ c) -> apart5 a l x y s c.
Proof.
  intros Hn. rewrite <- app_comm_cons in Hn. apply list.NoDup_cons in Hn as [Ha Hn].
  rewrite <- app_assoc, <- app_comm_cons, <- app_assoc in Hn. apply list.NoDup_cons in Hn as [Hl Hn].
  apply list.NoDup_app in Hn as (Hx & Dx & Hn). apply list.NoDup_app in Hn as (Hy & Dy & Hn).
  apply list.NoDup_app in Hn as (Hs & Ds & Hc). repeat setoid_rewrite elem_of_app in Dx. setoid_rewrite elem_of_app in Dy.
  rewrite !elem_of_app in Hl. rewrite !elem_of_app, elem_of_cons, !elem_of_app in Ha.
  split; [naive_solver|..|done]; intros b Hb; split_and!; try (intros ->; naive_solver); naive_solver.
Qed.

Lemma not_root t b : b ∉ addrs t -> Some b <> root t.
Proof. intros Hb E. apply Hb. destruct t; [done|]. injection E as ->. by left. Qed.

Lemma not_cpar C b : b ∉ caddrs C -> Some b <> cpar C.
Proof. intros Hb E. apply Hb. destruct C as [|[[]]]; [done|]. injection E as ->. by left. Qed.

Lemma rotated_rep d a l x y s C m m' : NoDup (addrs (plug C (nd d a (nd d l x y) s))) ->
  rep m None (plug C (nd d a (nd d l x y) s)) ->
  (forall b, m' b = rotated d a l (cpar C) (root x) (root y) (root s) m b) ->
  rep m' None (plug C (nd d l (nd d a x y) s)).
Proof.
  intros Hn Hr Hm. rewrite addrs_plug, !addrs_nd in Hn. apply NoDup_apart5 in Hn as [Hal Dx Dy Ds Dc (Nx & Ny & Ns & Nc)].
  apply rep_plug in Hr as [HC Ht]. rewrite root_nd, rep_nd in *. destruct Ht as (Ea & Hrl & Hrs).
  rewrite root_nd, rep_nd in *. destruct Hrl as (El & Hrx & Hry).
  apply rep_plug. rewrite root_nd, rep_nd, rep_nd, root_nd. unfold rotated in Hm. split; [|split_and!].
  - apply (rep_ctx_hole m _ _ _ _ HC Nc). intros b Hb. destruct (Dc b Hb) as (H1 & H2 & H3 & H4 & H5). rewrite Hm.
    rewrite (decide_False (P := b = l)), (decide_False (P := b = a)) by done.
    do 3 (rewrite decide_False by (by apply not_root)). case_decide as Hp; [|done].
    destruct C as [|[[d0 p0] s0] C]; [done|]. injection Hp as ->. simpl in HC. destruct HC as (Ep & _ & _). rewrite Ep.
    unfold repl. destruct d0; simpl; [|by rewrite bool_decide_true]. rewrite bool_decide_false; [done|].
    intros E. destruct (Dc a) as [Haa _]; [|done]. simpl. right. apply elem_of_app. left.
    destruct s0; [done|]. injection E as ->. by left.
  - rewrite Hm. by rewrite decide_True.
  - rewrite Hm. rewrite decide_False by done. by rewrite decide_True.
  - apply (rep_adopt m _ _ _ _ Hrx Nx). intros b Hb. destruct (Dx b Hb) as (H1 & H2 & H3 & H4 & H5). rewrite Hm.
    rewrite (decide_False (P := b = l)), (decide_False (P := b = a)) by done. case_decide; [done|].
    do 2 (rewrite decide_False by (by apply not_root)). by rewrite decide_False by (by apply not_cpar).
  - apply (rep_adopt m _ _ _ _ Hry Ny). intros b Hb. destruct (Dy b Hb) as (H1 & H2 & H3 & H4 & H5). rewrite Hm.
    rewrite (decide_False (P := b = l)), (decide_False (P := b = a)) by done.
    rewrite decide_False by (by apply not_root). case_decide; [done|].
    rewrite decide_False by (by apply not_root). by rewrite decide_False by (by apply not_cpar).
  - apply (rep_adopt m _ _ _ _ Hrs Ns). intros b Hb. destruct (Ds b Hb) as (H1 & H2 & H3 & H4 & H5). rewrite Hm.
    rewrite (decide_False (P := b = l)), (decide_False (P := b = a)) by done.
    do 2 rewrite decide_False by (by apply not_root). case_decide; [done|]. by rewrite decide_False by (by apply not_cpar).
Qed.

(** *** Running the pointer assignments *)

Definition put_s a f (s : hmem) : hmem := mk_hmem (upd a f (hm_node s)) (hm_root s) (hm_size s).
Definition adopt_s x a (s : hmem) : hmem := match x with Some b => put_s b (with_parent (Some a)) s | None => s end.
Definition repl_s p a b (s : hmem) : hmem := match p with Some q => put_s q (repl a b) s | None => s end.
Definition root_s (head : bool) r (s : hmem) : hmem := if head then mk_hmem (hm_node s) (Some r) (hm_size s) else s.

Lemma adopt_run x a s : adopt x a s = (Ok tt, adopt_s x a s).
Proof. by destruct x. Qed.
Lemma upd_ext a f g m : f (m a) = g (m a) -> forall b, upd a f m b = upd a g m b.
Proof. intros E b. unfold upd. case_decide; congruence. Qed.
Lemma set_parent_run a x s : set_parent a x s = (Ok tt, put_s a (with_parent x) s).
Proof. done. Qed.
Lemma set_left_run a x s : set_left a x s = (Ok tt, put_s a (with_left x) s).
Proof. done. Qed.
Lemma set_right_run a x s : set_right a x s = (Ok tt, put_s a (with_right x) s).
Proof. done. Qed.
Lemma node_run a s : node a s = (Ok (hm_node s a), s).
Proof. done. Qed.
Lemma root_run (head : bool) r s : (if head then set_root (Some r) else mret tt) s = (Ok tt, root_s head r s).
Proof. by destruct head. Qed.

Lemma node_put a f s b : hm_node (put_s a f s) b = if decide (b = a) then f (hm_node s b) else hm_node s b.
Proof. done. Qed.
Lemma node_adopt x a s b : hm_node (adopt_s x a s) b =
  if decide (Some b = x) then with_parent (Some a) (hm_node s b) else hm_node s b.
Proof.
  destruct x as [c|]; simpl; [|done]. unfold upd. destruct (decide (b = c)), (decide (Some b = Some c)); congruence.
Qed.
Lemma node_repl p a l s b : hm_node (repl_s p a l s) b =
  if decide (Some b = p) then repl a l (hm_node s b) else hm_node s b.
Proof.
  destruct p as [c|]; simpl; [|done]. unfold upd. destruct (decide (b = c)), (decide (Some b = Some c)); congruence.
Qed.
Lemma node_root head r s b : hm_node (root_s head r s) b = hm_node s b.
Proof. by destruct head. Qed.

(** [replace_child] chooses the pointer before it writes it. *)
Lemma replace_child_run p a l s : exists s', replace_child p a l s = (Ok tt, s') /\
  (forall b, hm_node s' b = hm_node (repl_s p a l s) b) /\ hm_root s' = hm_root s /\ hm_size s' = hm_size s.
Proof.
  destruct p as [q|]; simpl; [|by eexists]. rewrite (mbind_run _ _ _ _ _ (node_run q s)).
  case_bool_decide as E; eexists; (split; [done|]); split; [|done| |done]; intros b; simpl; apply upd_ext; unfold repl;
    first [by rewrite bool_decide_true | by rewrite bool_decide_false].
Qed.

Lemma swap_right_run a b s : swap_right a b s =
  (Ok tt, put_s b (with_right (hn_right (hm_node s a))) (put_s a (with_right (hn_right (hm_node s b))) s)).
Proof. done. Qed.
Lemma swap_left_run a b s : swap_left a b s =
  (Ok tt, put_s b (with_left (hn_left (hm_node s a))) (put_s a (with_left (hn_left (hm_node s b))) s)).
Proof. done. Qed.

(** The links an exchange relies on. *)
Record linked (d : bool) (a l : nat) (p x y s : option nat) (m : nat -> heap_node) : Prop := {
  lk_a : m a = mkn d p (Some l) s;
  lk_l : m l = mkn d (Some a) x y;
  lk_al : a <> l;
  lk_out : forall o, o ∈ [p; x; y; s] -> o <> Some a /\ o <> Some l;
  lk_x : forall b, x = Some b -> y <> Some b /\ s <> Some b /\ p <> Some b;
  lk_y : forall b, y = Some b -> s <> Some b /\ p <> Some b;
  lk_s : forall b, s = Some b -> p <> Some b
}.

Lemma rep_linked d a l x y s C m : NoDup (addrs (plug C (nd d a (nd d l x y) s))) ->
  rep m None (plug C (nd d a (nd d l x y) s)) -> linked d a l (cpar C) (root x) (root y) (root s) m.
Proof.
  intros Hn Hr. rewrite addrs_plug, !addrs_nd in Hn. apply NoDup_apart5 in Hn as [Hal Dx Dy Ds Dc _].
  apply rep_plug in Hr as [HC Ht]. rewrite root_nd, rep_nd in *. destruct Ht as (Ea & Hrl & Hrs).
  rewrite root_nd, rep_nd in *. destruct Hrl as (El & _ & _).
  assert (forall t b, root t = Some b -> b ∈ addrs t) as Hroot.
  { intros [|c tl tr] b; simpl; [done|]. intros [= ->]. by left. }
  assert (forall b, cpar C = Some b -> b ∈ caddrs C) as Hcpar.
  { intros b. destruct C as [|[[]]]; simpl; [done|]. intros [= ->]. by left. }
  split; [done|done|done| | | |].
  - intros o Ho. assert (forall c, o = Some c -> c <> a /\ c <> l) as Hc.
    { intros c ->. rewrite !elem_of_cons, elem_of_nil in Ho. naive_solver. }
    split; intros ->; by destruct (Hc _ eq_refl).
  - intros b Hb. apply Hroot in Hb. destruct (Dx b Hb) as (_ & _ & H3 & H4 & H5). naive_solver.
  - intros b Hb. apply Hroot in Hb. destruct (Dy b Hb) as (_ & _ & _ & H4 & H5). naive_solver.
  - intros b Hb. apply Hroot in Hb. destruct (Ds b Hb) as (_ & _ & _ & _ & H5). naive_solver.
Qed.

(** The body of [heap_max_heapify] once the greatest is a child. *)
Ltac hstep :=
  first
    [ rewrite (mbind_run _ _ _ _ _ (node_run _ _))
    | rewrite (mbind_run _ _ _ _ _ (adopt_run _ _ _))
    | rewrite (mbind_run _ _ _ _ _ (root_run _ _ _))
    | rewrite (mbind_run _ _ _ _ _ (swap_right_run _ _ _))
    | rewrite (mbind_run _ _ _ _ _ (swap_left_run _ _ _))
    | rewrite (mbind_run _ _ _ _ _ (set_parent_run _ _ _))
    | rewrite (mbind_run _ _ _ _ _ (set_left_run _ _ _))
    | rewrite (mbind_run _ _ _ _ _ (set_right_run _ _ _)) ].

(** The children exchanged; the parent of [l] is already [p]. *)
Definition exchanged (d : bool) (a l : nat) (p x y s : option nat) (m : nat -> heap_node) : nat -> heap_node := fun b =>
  if decide (b = l) then mkn d p (Some a) s
  else if decide (b = a) then mkn d (Some l) x y
  else if decide (Some b = x) then with_parent (Some a) (m b)
  else if decide (Some b = y) then with_parent (Some a) (m b)
  else if decide (Some b = s) then with_parent (Some l) (m b)
  else m b.

Record exchangeable (d : bool) (a l : nat) (p x y s : option nat) (m : nat -> heap_node) : Prop := {
  ex_a : m a = mkn d (Some l) (Some l) s;
  ex_l : m l = mkn d p x y;
  ex_al : a <> l;
  ex_out : forall o, o ∈ [x; y; s] -> o <> Some a /\ o <> Some l;
  ex_x : forall b, x = Some b -> y <> Some b /\ s <> Some b;
  ex_y : forall b, y = Some b -> s <> Some b
}.

Ltac node_tac :=
  repeat first
    [ rewrite node_put | rewrite node_adopt | rewrite node_repl | rewrite node_root
    | rewrite decide_True by congruence | rewrite decide_False by congruence ].

Lemma node_put_eq a f s : hm_node (put_s a f s) a = f (hm_node s a).
Proof. rewrite node_put. by rewrite decide_True. Qed.
Lemma node_put_ne a f s b : b <> a -> hm_node (put_s a f s) b = hm_node s b.
Proof. intros. rewrite node_put. by rewrite decide_False. Qed.
Lemma node_adopt_ne x a s b : x <> Some b -> hm_node (adopt_s x a s) b = hm_node s b.
Proof. intros. rewrite node_adopt. rewrite decide_False by congruence. done. Qed.

(** Run assignments, with the two nodes of [Ea] and [El] known at the start. *)
Ltac run_nodes Ea El :=
  repeat first
    [ hstep | rewrite node_put_eq
    | match goal with |- context [hm_node (put_s ?a ?f ?s) ?b] => rewrite (node_put_ne a f s b) by congruence end
    | match goal with |- context [hm_node (adopt_s ?x ?a ?s) ?b] => rewrite (node_adopt_ne x a s b) by congruence end
    | rewrite Ea | rewrite El
    | progress cbn [with_left with_right with_parent hn_left hn_right hn_parent] ].

(** The node at [b] after the assignments of an exchange. *)
Ltac exchange_tac Ea El Hx Hy :=
  unfold exchanged;
  match goal with |- hm_node _ ?b = (if decide (_ = ?l) then _ else if decide (_ = ?a) then _ else _) =>
    destruct (decide (b = l)) as [->|Hbl]; [by run_nodes Ea El|];
    destruct (decide (b = a)) as [->|Hba]; [by run_nodes Ea El|];
    rewrite ?node_put_ne, !node_adopt, ?node_put_ne, ?node_adopt, ?node_put_ne by done;
    repeat case_decide; simplify_eq/=; try done; exfalso; naive_solver
  end.

Definition exchange (d : bool) : nat -> nat -> M hmem unit := if d then exchange_right else exchange_left.

Lemma exchange_run d a l p x y sb s : exchangeable d a l p x y sb (hm_node s) ->
  exists s', exchange d a l s = (Ok tt, s') /\ (forall b, hm_node s' b = exchanged d a l p x y sb (hm_node s) b) /\
    hm_root s' = hm_root s /\ hm_size s' = hm_size s.
Proof.
  intros [Ea El Hal Hout Hx Hy].
  assert (x <> Some a /\ x <> Some l) as [Hxa Hxl] by (apply Hout; set_solver).
  assert (y <> Some a /\ y <> Some l) as [Hya Hyl] by (apply Hout; set_solver).
  assert (sb <> Some a /\ sb <> Some l) as [Hsa Hsl] by (apply Hout; set_solver). clear Hout.
  destruct d; simpl in *; unfold exchange_left, exchange_right; run_nodes Ea El; rewrite adopt_run; eexists;
    (split; [done|split; [|by destruct x, y, sb]]); intros b; exchange_tac Ea El Hx Hy.
Qed.

Definition bubble (d : bool) : nat -> nat -> M hmem unit := if d then bubble_right else bubble_left.

Lemma bubble_run d a l p x y sb s : exchangeable d a l p x y sb (hm_node s) ->
  exists s', bubble d l a s = (Ok tt, s') /\ (forall b, hm_node s' b = exchanged d a l p x y sb (hm_node s) b) /\
    hm_root s' = hm_root s /\ hm_size s' = hm_size s.
Proof.
  intros [Ea El Hal Hout Hx Hy].
  assert (x <> Some a /\ x <> Some l) as [Hxa Hxl] by (apply Hout; set_solver).
  assert (y <> Some a /\ y <> Some l) as [Hya Hyl] by (apply Hout; set_solver).
  assert (sb <> Some a /\ sb <> Some l) as [Hsa Hsl] by (apply Hout; set_solver). clear Hout.
  destruct d; simpl in *; unfold bubble_left, bubble_right; run_nodes Ea El; rewrite adopt_run; eexists;
    (split; [done|split; [|by destruct x, y, sb]]); intros b; exchange_tac Ea El Hx Hy.
Qed.

(** What [a], its parent and the root become before the children are exchanged. *)
Definition relinked (a l : nat) (p : option nat) (m m' : nat -> heap_node) : Prop :=
  forall b, m' b = if decide (b = l) then with_parent p (m b) else if decide (b = a) then with_parent (Some l) (m b)
    else if decide (Some b = p) then repl a l (m b) else m b.

Lemma relinked_exchangeable d a l p x y sb m m' : linked d a l p x y sb m -> relinked a l p m m' ->
  exchangeable d a l p x y sb m'.
Proof.
  intros [Ea El Hal Hout Hx Hy Hs] Hm. split.
  - rewrite Hm, decide_False, decide_True, Ea by done. by destruct d.
  - rewrite Hm, decide_True, El by done. by destruct d.
  - done.
  - intros o Ho. apply Hout. set_solver.
  - intros b Hb. destruct (Hx b Hb) as (? & ? & _). done.
  - intros b Hb. by apply Hy.
Qed.

Lemma exchanged_rotated d a l p x y sb m m' : linked d a l p x y sb m -> relinked a l p m m' ->
  forall b, exchanged d a l p x y sb m' b = rotated d a l p x y sb m b.
Proof.
  intros [Ea El Hal Hout Hx Hy Hs] Hm b. unfold exchanged, rotated. rewrite Hm.
  destruct (decide (b = l)), (decide (b = a)); [done..|].
  destruct (decide (Some b = x)); [rewrite decide_False; naive_solver|].
  destruct (decide (Some b = y)); [rewrite decide_False; naive_solver|].
  destruct (decide (Some b = sb)); [rewrite decide_False; naive_solver|]. done.
Qed.

(** The assignments around the parent. *)
Lemma relink_run a l p s : a <> l -> p <> Some a -> p <> Some l ->
  exists s', (set_parent l p ;;; replace_child p a l ;;; set_parent a (Some l)) s = (Ok tt, s') /\
    relinked a l p (hm_node s) (hm_node s') /\ hm_root s' = hm_root s /\ hm_size s' = hm_size s.
Proof.
  intros Hal Hpa Hpl. rewrite (mbind_run _ _ _ _ _ (set_parent_run _ _ _)).
  destruct (replace_child_run p a l (put_s l (with_parent p) s)) as (s2 & E2 & N2 & R2 & Z2).
  rewrite (mbind_run _ _ _ _ _ E2), set_parent_run. eexists. split; [done|]. split; [|done].
  intros b. rewrite node_put, N2, node_repl, node_put.
  destruct (decide (b = l)), (decide (b = a)), (decide (Some b = p)); simplify_eq; done.
Qed.

Lemma mbind_assoc {S A B C} (m : M S A) (k : A -> M S B) (k' : B -> M S C) s :
  mbind (mbind m k) k' s = mbind m (fun x => mbind (k x) k') s.
Proof. unfold mbind. by destruct (m s) as [[]]. Qed.

Lemma run_seq3 {S D} (A B C : M S unit) (K : M S D) s s' :
  (A ;;; B ;;; C) s = (Ok tt, s') -> (A ;;; B ;;; C ;;; K) s = K s'.
Proof.
  intros E. transitivity (((A ;;; B ;;; C) ;;; K) s); [|by rewrite (mbind_run _ _ _ _ _ E)].
  rewrite mbind_assoc. unfold mbind. destruct (A s) as [[]]; try done. by destruct (B _) as [[]].
Qed.

Lemma root_plug C t t' : C <> [] -> root (plug C t) = root (plug C t').
Proof.
  revert t t'. induction C as [|[[d p] s] C IH]; intros t t' Hc; [done|]. simpl.
  destruct C as [|f C]; [by destruct d|by apply IH].
Qed.

Section Order.
Variable cmp : nat -> nat -> Z.

(** The greatest of a node and its left child. *)
Definition left_or (a : nat) (l : tree) : nat :=
  match root l with Some b => if 0 <? cmp b a then b else a | None => a end.

(** [heap_max_heapify] of the tree with root [a] and children [l] and [r]. *)
Inductive sifted : nat -> tree -> tree -> tree -> Prop :=
| sift_stop a l r : (forall b, root l = Some b -> ~ 0 < cmp b a) -> (forall b, root r = Some b -> ~ 0 < cmp b a) ->
    sifted a l r (Node a l r)
| sift_left a b bl br r t : 0 < cmp b a -> (forall c, root r = Some c -> ~ 0 < cmp c b) -> sifted a bl br t ->
    sifted a (Node b bl br) r (Node b t r)
| sift_right a l b bl br t : 0 < cmp b (left_or a l) -> sifted a bl br t ->
    sifted a l (Node b bl br) (Node b l t).

(** One exchange: [a] goes below its child [l]. *)
Lemma heapify_step fuel head d a l x y sb C s :
  NoDup (addrs (plug C (nd d a (nd d l x y) sb))) -> rep (hm_node s) None (plug C (nd d a (nd d l x y) sb)) ->
  (d = false -> 0 < cmp l a /\ (forall r, root sb = Some r -> ~ 0 < cmp r l)) ->
  (d = true -> 0 < cmp l (left_or a sb)) ->
  exists s', heap_max_heapify cmp (S fuel) head a s = heap_max_heapify cmp fuel false a s' /\
    rep (hm_node s') None (plug C (nd d l (nd d a x y) sb)) /\
    hm_root s' = (if head then Some l else hm_root s) /\ hm_size s' = hm_size s.
Proof.
  intros Hn Hr Hleft Hright. pose proof (rep_linked _ _ _ _ _ _ _ _ Hn Hr) as Hlk.
  pose proof Hlk as [Ea El Hal Hout _ _ _]. cbn [heap_max_heapify]. rewrite (mbind_run _ _ _ _ _ (node_run _ _)).
  rewrite Ea. match goal with |- context [bool_decide (?t = a)] => assert (t = l) as -> end.
  { destruct d; simpl.
    - specialize (Hright eq_refl). unfold left_or in Hright. by rewrite (proj2 (Z.ltb_lt _ _)).
    - destruct (Hleft eq_refl) as [H1 H2]. rewrite (proj2 (Z.ltb_lt _ _) H1). destruct (root sb) as [r|]; [|done].
      specialize (H2 r eq_refl). by rewrite (proj2 (Z.ltb_ge _ _)) by lia. }
  rewrite bool_decide_false by congruence. replace (hn_parent (mkn d (cpar C) (Some l) (root sb))) with (cpar C) by (by destruct d).
  destruct (relink_run a l (cpar C) s Hal) as (s1 & E1 & N1 & R1 & Z1); [apply Hout; set_solver..|].
  rewrite (run_seq3 _ _ _ _ _ _ E1), (mbind_run _ _ _ _ _ (root_run head l s1)). set (s2 := root_s head l s1).
  assert (relinked a l (cpar C) (hm_node s) (hm_node s2)) as N2.
  { intros b. unfold s2. rewrite node_root. apply N1. }
  pose proof (relinked_exchangeable _ _ _ _ _ _ _ _ _ Hlk N2) as Hex.
  rewrite (mbind_run _ _ _ _ _ (node_run _ _)). rewrite (ex_a _ _ _ _ _ _ _ _ Hex).
  destruct (exchange_run d a l _ _ _ _ s2 Hex) as (s3 & E3 & N3 & R3 & Z3).
  replace (if bool_decide _ then exchange_left a l else exchange_right a l) with (exchange d a l).
  2:{ destruct d; simpl; [rewrite bool_decide_false|by rewrite bool_decide_true]; [done|].
      destruct (Hout (root sb)) as [_ H]; [set_solver|exact H]. }
  rewrite (mbind_run _ _ _ _ _ E3). exists s3. split; [done|]. split; [|split].
  - eapply rotated_rep; [exact Hn|exact Hr|]. intros b. rewrite N3. by apply exchanged_rotated.
  - rewrite R3. unfold s2. by destruct head; simpl; rewrite ?R1.
  - rewrite Z3. unfold s2. by destruct head; simpl; rewrite ?Z1.
Qed.

Definition tsize (t : tree) : nat := length (addrs t).

Lemma nd_plug d p t s C : plug C (nd d p t s) = plug ((d, p, s) :: C) t.
Proof. done. Qed.

Lemma heapify_run fuel : forall head a l r C s, (tsize l + tsize r < fuel)%nat ->
  NoDup (addrs (plug C (Node a l r))) -> rep (hm_node s) None (plug C (Node a l r)) ->
  hm_root s = root (plug C (Node a l r)) -> (head = true <-> C = []) ->
  exists t s', sifted a l r t /\ heap_max_heapify cmp fuel head a s = (Ok tt, s') /\
    rep (hm_node s') None (plug C t) /\ hm_root s' = root (plug C t) /\ hm_size s' = hm_size s.
Proof.
  induction fuel as [|fuel IH]; intros head a l r C s Hfuel Hn Hr Hroot Hhead; [lia|].
  assert (forall d b x y sb, Node a l r = nd d a (nd d b x y) sb -> (tsize x + tsize y < fuel)%nat ->
    (d = false -> 0 < cmp b a /\ (forall r, root sb = Some r -> ~ 0 < cmp r b)) ->
    (d = true -> 0 < cmp b (left_or a sb)) ->
    exists t s', sifted a (if d then y else x) (if d then x else y) t /\
      heap_max_heapify cmp (S fuel) head a s = (Ok tt, s') /\
      rep (hm_node s') None (plug C (nd d b t sb)) /\ hm_root s' = root (plug C (nd d b t sb)) /\
      hm_size s' = hm_size s) as Hstep.
  { intros d b x y sb Et Hf Hl Hrt. rewrite Et in Hn, Hr.
    destruct (heapify_step fuel head d a b x y sb C s Hn Hr Hl Hrt) as (s1 & E1 & N1 & R1 & Z1).
    destruct (IH false a (if d then y else x) (if d then x else y) ((d, b, sb) :: C) s1) as (t & s2 & Hs & E2 & N2 & R2 & Z2).
    - destruct d; lia.
    - replace (Node a _ _) with (nd d a x y) by (by destruct d). rewrite <- nd_plug.
      rewrite addrs_plug, (addrs_nd d a), (addrs_nd d b) in Hn. rewrite addrs_plug, (addrs_nd d b), (addrs_nd d a).
      simpl in *. by rewrite Permutation_swap.
    - simpl. by destruct d.
    - rewrite R1. destruct head.
      + rewrite (proj1 Hhead eq_refl). by destruct d.
      + rewrite Hroot. simpl. apply root_plug. intros ->. by destruct Hhead as [_ H]; discriminate H.
    - split; [done|]. done.
    - exists t, s2. split; [done|]. rewrite E1. split_and!; [done..|congruence]. }
  clear IH. destruct (match r with Node b _ _ => 0 <? cmp b (left_or a l) | Leaf => false end) eqn:Er.
  { destruct r as [|b bl br]; [done|]. apply Z.ltb_lt in Er.
    destruct (Hstep true b br bl l eq_refl) as (t & s' & Hs & H); [unfold tsize in *; simpl in *; rewrite length_app in *; lia|done..|].
    exists (nd true b t l), s'. split; [by constructor|done]. }
  assert (forall c, root r = Some c -> ~ 0 < cmp c (left_or a l)) as Hr'.
  { destruct r; [done|]. intros c [= ->]. apply Z.ltb_ge in Er. lia. }
  destruct (match l with Node b _ _ => 0 <? cmp b a | Leaf => false end) eqn:El.
  { destruct l as [|b bl br]; [done|]. unfold left_or in Hr'. simpl in Hr'. rewrite El in Hr'. apply Z.ltb_lt in El.
    destruct (Hstep false b bl br r eq_refl) as (t & s' & Hs & H); [unfold tsize in *; simpl in *; rewrite length_app in *; lia|done..|].
    exists (nd false b t r), s'. split; [by constructor|done]. }
  assert (left_or a l = a) as Ela by (unfold left_or; destruct l; simpl; [done|by rewrite El]). rewrite Ela in Hr'.
  assert (forall b, root l = Some b -> ~ 0 < cmp b a) as Hl'.
  { destruct l; [done|]. intros c [= ->]. apply Z.ltb_ge in El. lia. }
  exists (Node a l r), s. split; [by constructor|]. split; [|done]. cbn [heap_max_heapify].
  rewrite (mbind_run _ _ _ _ _ (node_run _ _)). apply rep_plug in Hr as [_ [Ea _]]. rewrite Ea. simpl hn_left. simpl hn_right.
  rewrite bool_decide_true; [done|]. unfold left_or in Ela. cbn [hn_left hn_right]. rewrite Ela. destruct (root r) as [c|]; [|done].
  specialize (Hr' c eq_refl). by rewrite (proj2 (Z.ltb_ge _ _)) by lia.
Qed.

(** *** Floating up *)

(** [bubble_up] of [x], with children [l] and [r], in its context. *)
Fixpoint up (C : ctx) (x : nat) (l r : tree) : tree :=
  match C with
  | [] => Node x l r
  | (d, p, s) :: C' =>
      if 0 <? cmp x p then up C' x (if d then s else Node p l r) (if d then Node p l r else s)
      else plug C (Node x l r)
  end.

Lemma relink_up_run a l p s : a <> l -> p <> Some a -> p <> Some l ->
  exists s', (set_parent l p ;;; set_parent a (Some l) ;;; replace_child p a l) s = (Ok tt, s') /\
    relinked a l p (hm_node s) (hm_node s') /\ hm_root s' = hm_root s /\ hm_size s' = hm_size s.
Proof.
  intros Hal Hpa Hpl. rewrite (mbind_run _ _ _ _ _ (set_parent_run _ _ _)), (mbind_run _ _ _ _ _ (set_parent_run _ _ _)).
  set (s1 := put_s a _ _). destruct (replace_child_run p a l s1) as (s2 & E2 & N2 & R2 & Z2).
  exists s2. split; [done|]. split; [|done]. intros b. rewrite N2, node_repl. unfold s1. rewrite !node_put.
  destruct (decide (b = l)), (decide (b = a)), (decide (Some b = p)); simplify_eq; done.
Qed.

Lemma bubble_step fuel d p x X Y sb C s : 0 < cmp x p ->
  NoDup (addrs (plug C (nd d p (nd d x X Y) sb))) -> rep (hm_node s) None (plug C (nd d p (nd d x X Y) sb)) ->
  exists s', bubble_up cmp (S fuel) x (Some p) s = bubble_up cmp fuel x (cpar C) s' /\
    rep (hm_node s') None (plug C (nd d x (nd d p X Y) sb)) /\ hm_root s' = hm_root s /\ hm_size s' = hm_size s.
Proof.
  intros Hgt Hn Hr. pose proof (rep_linked _ _ _ _ _ _ _ _ Hn Hr) as Hlk.
  pose proof Hlk as [Ea El Hal Hout _ _ _]. cbn [bubble_up]. rewrite (proj2 (Z.ltb_lt _ _) Hgt).
  rewrite (mbind_run _ _ _ _ _ (node_run _ _)). rewrite Ea.
  replace (hn_parent (mkn d (cpar C) (Some x) (root sb))) with (cpar C) by (by destruct d).
  destruct (relink_up_run p x (cpar C) s Hal) as (s1 & E1 & N1 & R1 & Z1); [apply Hout; set_solver..|].
  rewrite (run_seq3 _ _ _ _ _ _ E1). pose proof (relinked_exchangeable _ _ _ _ _ _ _ _ _ Hlk N1) as Hex.
  rewrite (mbind_run _ _ _ _ _ (node_run _ _)). rewrite (ex_a _ _ _ _ _ _ _ _ Hex).
  destruct (bubble_run d p x _ _ _ _ s1 Hex) as (s2 & E2 & N2 & R2 & Z2).
  replace (if bool_decide _ then bubble_left x p else bubble_right x p) with (bubble d x p).
  2:{ destruct d; simpl; [rewrite bool_decide_false|by rewrite bool_decide_true]; [done|].
      destruct (Hout (root sb)) as [_ H]; [set_solver|exact H]. }
  rewrite (mbind_run _ _ _ _ _ E2), (mbind_run _ _ _ _ _ (node_run _ _)).
  assert (rep (hm_node s2) None (plug C (nd d x (nd d p X Y) sb))) as Hr2.
  { eapply rotated_rep; [exact Hn|exact Hr|]. intros b. rewrite N2. by apply exchanged_rotated. }
  exists s2. split; [|split; [done|split; congruence]].
  apply rep_plug in Hr2 as [_ Hr2]. apply rep_nd in Hr2 as [Ex _]. rewrite Ex. by destruct d.
Qed.

Lemma bubble_up_run C : forall x l r s fuel, (length C <= fuel)%nat ->
  NoDup (addrs (plug C (Node x l r))) -> rep (hm_node s) None (plug C (Node x l r)) ->
  exists o s', bubble_up cmp fuel x (cpar C) s = (Ok o, s') /\ rep (hm_node s') None (up C x l r) /\
    hm_root s' = hm_root s /\ hm_size s' = hm_size s /\
    root (up C x l r) = match o with None => Some x | Some _ => root (plug C (Node x l r)) end.
Proof.
  induction C as [|[[d p] sb] C IH]; intros x l r s fuel Hfuel Hn Hr.
  { exists None, s. split; [by destruct fuel|]. done. }
  cbn [cpar up]. destruct (Z.ltb_spec 0 (cmp x p)) as [Hgt|Hle].
  - simpl in Hfuel. destruct fuel as [|fuel]; [lia|].
    assert (Node x l r = nd d x (if d then r else l) (if d then l else r)) as Ex by (by destruct d).
    rewrite Ex in Hn, Hr. cbn [plug] in Hn, Hr.
    destruct (bubble_step fuel d p x _ _ sb C s Hgt Hn Hr) as (s1 & E1 & N1 & R1 & Z1).
    destruct (IH x (if d then sb else Node p l r) (if d then Node p l r else sb) s1 fuel) as (o & s2 & E2 & N2 & R2 & Z2 & Ho).
    + lia.
    + rewrite addrs_plug. rewrite addrs_plug, (addrs_nd d p), (addrs_nd d x) in Hn.
      replace (Node x _ _) with (nd d x (nd d p (if d then r else l) (if d then l else r)) sb) by (by destruct d).
      rewrite !addrs_nd. simpl in *. by rewrite Permutation_swap.
    + by destruct d.
    + exists o, s2. rewrite E1. split; [done|]. split; [done|]. split; [congruence|]. split; [congruence|].
      rewrite Ho. destruct o; [|done]. simpl. destruct C as [|f C]; [|by apply root_plug].
      simpl in Ho. simpl in E2. by destruct fuel.
  - exists (Some p), s. split; [|done]. destruct fuel; simpl; by rewrite (proj2 (Z.ltb_ge _ _)).
Qed.
End Order.

(** ** Shape: complete trees *)

(** The moves from the root to position [p] of a complete tree. *)
Fixpoint path (p : positive) : list bool :=
  match p with xH => [] | xO q => path q ++ [false] | xI q => path q ++ [true] end.

Fixpoint sub (t : tree) (w : list bool) {struct w} : tree :=
  match w with
  | [] => t
  | d :: w' => match t with Leaf => Leaf | Node a l r => sub (if d : bool then r else l) w' end
  end.

(** The tree with [u] in place of the subtree at [w]. *)
Fixpoint put (t : tree) (w : list bool) (u : tree) {struct w} : tree :=
  match w with
  | [] => u
  | d :: w' =>
      match t with
      | Leaf => Leaf
      | Node a l r => if d : bool then Node a l (put r w' u) else Node a (put l w' u) r
      end
  end.

(** The context of the subtree at [w]. *)
Fixpoint focus (C : ctx) (t : tree) (w : list bool) {struct w} : option (ctx * tree) :=
  match w with
  | [] => Some (C, t)
  | d :: w' =>
      match t with
      | Leaf => None
      | Node a l r => focus ((d, a, if d : bool then l else r) :: C) (if d then r else l) w'
      end
  end.

(** The [n] nodes of the tree are at the positions from 1 to [n]. *)
Definition complete (n : Z) (t : tree) : Prop := forall p, sub t (path p) <> Leaf <-> Z.pos p <= n.

Lemma focus_put w : forall C t C' t' u, focus C t w = Some (C', t') ->
  plug C' u = plug C (put t w u) /\ length C' = (length C + length w)%nat /\ t' = sub t w.
Proof.
  induction w as [|d w IH]; intros C t C' t' u; simpl; [intros [= <- <-]; split_and!; [done|lia|done]|].
  destruct t as [|a l r]; [done|]. intros Hz. destruct (IH _ _ _ _ u Hz) as (-> & Hl & ->). simpl in *.
  split; [by destruct d|]. split; [lia|done].
Qed.

Lemma put_sub w : forall t, sub t w <> Leaf \/ w = [] -> put t w (sub t w) = t.
Proof.
  induction w as [|d w IH]; intros t Ht; simpl; [done|]. destruct t as [|a l r]; [done|].
  destruct Ht as [Ht|]; [|done]. destruct d; rewrite IH; auto.
Qed.

Lemma focus_some w d : forall C t, sub t w <> Leaf -> exists C' t', focus C t (w ++ [d]) = Some (C', t').
Proof.
  induction w as [|e w IH]; intros C t Ht; simpl in *; destruct t as [|a l r]; try done; [by eexists _, _|by apply IH].
Qed.

Lemma focus_some' w : forall C t, sub t w <> Leaf -> exists C' t', focus C t w = Some (C', t').
Proof.
  induction w as [|e w IH]; intros C t Ht; simpl in *; [by eexists _, _|]. destruct t as [|a l r]; [done|]. by apply IH.
Qed.

Lemma focus_plug w C t C' t' : focus C t w = Some (C', t') -> plug C' t' = plug C t.
Proof.
  revert C t. induction w as [|d w IH]; intros C t; simpl; [by intros [= -> ->]|].
  destruct t as [|a l r]; [done|]. intros Hz. rewrite (IH _ _ Hz). simpl. by destruct d.
Qed.

Lemma focus_plug0 w t C t' : focus [] t w = Some (C, t') -> plug C t' = t.
Proof. apply focus_plug. Qed.

Lemma focus_last w d C t C' t' : focus C t (w ++ [d]) = Some (C', t') -> exists C0 a s, C' = (d, a, s) :: C0.
Proof.
  revert C t. induction w as [|e w IH]; intros C t; simpl; (destruct t as [|a l r]; [done|]).
  - intros [= <- <-]. by eexists _, _, _.
  - apply IH.
Qed.

Lemma sub_put_node w x : forall t v, sub t w = Leaf -> (exists C t', focus [] t w = Some (C, t')) \/ w = [] ->
  sub (put t w (Node x Leaf Leaf)) v <> Leaf <-> sub t v <> Leaf \/ v = w.
Proof.
  assert (forall C1 C2 t w, is_Some (focus C1 t w) -> is_Some (focus C2 t w)) as Hzip.
  { intros C1 C2 t w'. revert C1 C2 t. induction w' as [|d w' IH]; intros C1 C2 t; simpl; [done|].
    destruct t; [by intros [? ?]|]. apply IH. }
  induction w as [|d w IH]; intros t v Ht Hz; simpl in *.
  - subst t. destruct v as [|e v]; simpl; [naive_solver|]. destruct v, e; simpl; naive_solver.
  - destruct t as [|a l r]; [by destruct Hz as [(? & ? & ?)|]|].
    assert ((exists C t', focus [] (if d then r else l) w = Some (C, t')) \/ w = []) as Hz'.
    { left. destruct Hz as [(C & t' & Hz)|]; [|done]. apply mk_is_Some in Hz. apply (Hzip _ []) in Hz as [[C' t''] Hz].
      by eexists _, _. }
    specialize (IH (if d then r else l)). destruct v as [|e v]; [destruct d; simpl; naive_solver|].
    specialize (IH v Ht Hz'). destruct d, e; simpl; naive_solver.
Qed.

Lemma sub_put_leaf w c : forall t v, sub t w = Node c Leaf Leaf -> sub (put t w Leaf) v <> Leaf <-> sub t v <> Leaf /\ v <> w.
Proof.
  induction w as [|d w IH]; intros t v Ht; simpl in *.
  - subst t. destruct v as [|e v]; simpl; [naive_solver|]. destruct v, e; simpl; naive_solver.
  - destruct t as [|a l r]; [done|]. destruct v as [|e v]; [destruct d; simpl; naive_solver|].
    specialize (IH (if d then r else l) v Ht). destruct d, e; simpl; naive_solver.
Qed.

Lemma path_inj p q : path p = path q -> p = q.
Proof.
  revert q. induction p as [p IH|p IH|]; intros [q|q|]; simpl; intros E; try done;
    try (by apply app_inj_tail in E as [E ?]; f_equal; auto);
    try (by apply app_eq_nil in E as [_ ?]); by destruct (path _); simplify_eq.
Qed.

Lemma length_path p : Z.of_nat (length (path p)) = Z.log2 (Z.pos p).
Proof.
  induction p as [p IH|p IH|]; simpl path; [| |done]; rewrite length_app; simpl length; rewrite Nat2Z.inj_add, IH.
  - rewrite Pos2Z.inj_xI, Z.log2_succ_double by lia. lia.
  - rewrite Pos2Z.inj_xO, Z.log2_double by lia. lia.
Qed.

(** *** The skeleton of a tree *)

Fixpoint skel (t : tree) : tree := match t with Leaf => Leaf | Node _ l r => Node 0 (skel l) (skel r) end.

Lemma sub_skel w t : sub (skel t) w = skel (sub t w).
Proof. revert t. induction w as [|d w IH]; intros [|a l r]; simpl; try done. by destruct d; rewrite IH. Qed.

Lemma skel_leaf t : skel t = Leaf <-> t = Leaf.
Proof. by destruct t. Qed.

Lemma skel_complete n t t' : skel t = skel t' -> complete n t -> complete n t'.
Proof.
  intros E Hc p. specialize (Hc p). assert (sub t' (path p) = Leaf <-> sub t (path p) = Leaf) as Hi.
  { by rewrite <- (skel_leaf (sub t' _)), <- (skel_leaf (sub t _)), <- !sub_skel, E. }
  naive_solver.
Qed.

Lemma skel_plug C t t' : skel t = skel t' -> skel (plug C t) = skel (plug C t').
Proof.
  revert t t'. induction C as [|[[d p] s] C IH]; intros t t' E; simpl; [done|]. apply IH. destruct d; simpl; by rewrite E.
Qed.

Lemma sifted_skel cmp a l r t : sifted cmp a l r t -> skel t = skel (Node a l r).
Proof. induction 1; simpl in *; congruence. Qed.

Lemma up_skel cmp C x l r : skel (up cmp C x l r) = skel (plug C (Node x l r)).
Proof.
  revert x l r. induction C as [|[[d p] s] C IH]; intros x l r; simpl; [done|].
  destruct (0 <? cmp x p); [|done]. rewrite IH. apply skel_plug. by destruct d.
Qed.

(** *** Walking to a position *)

Lemma path_move p : p <> 1%positive -> exists d p', path p = d :: path p' /\
  let base := 2 ^ Z.log2 (Z.pos p) in let aux := Z.pos p - base / 2 in
  if d : bool then base <= aux /\ Z.pos p' = aux - base / 2 else aux < base /\ Z.pos p' = aux.
Proof.
  assert (forall q, q <> 1%positive -> 2 ^ Z.log2 (Z.pos q) = 2 * (2 ^ Z.log2 (Z.pos q) / 2)) as Heven.
  { intros q Hq. assert (1 <= Z.log2 (Z.pos q)) as Hl by (apply (Z.log2_le_mono 2); lia).
    replace (Z.log2 (Z.pos q)) with (1 + (Z.log2 (Z.pos q) - 1)) by lia. rewrite Z.pow_add_r by lia.
    rewrite (Z.mul_comm (2 ^ 1)), Z.div_mul by done. lia. }
  induction p as [p IH|p IH|]; intros Hp; [| |done].
  - destruct (decide (p = 1%positive)) as [->|Hp1]; [by exists true, 1%positive|].
    destruct (IH Hp1) as (d & p' & Ep & Hd). exists d, (p'~1)%positive. simpl path. rewrite Ep. split; [done|].
    specialize (Heven p Hp1). cbv zeta in *. rewrite (Pos2Z.inj_xI p), Z.log2_succ_double, Z.pow_succ_r by (lia || apply Z.log2_nonneg).
    rewrite (Z.mul_comm 2 (2 ^ _)), Z.div_mul by done. destruct d; rewrite (Pos2Z.inj_xI p'); lia.
  - destruct (decide (p = 1%positive)) as [->|Hp1]; [by exists false, 1%positive|].
    destruct (IH Hp1) as (d & p' & Ep & Hd). exists d, (p'~0)%positive. simpl path. rewrite Ep. split; [done|].
    specialize (Heven p Hp1). cbv zeta in *. rewrite (Pos2Z.inj_xO p), Z.log2_double, Z.pow_succ_r by (lia || apply Z.log2_nonneg).
    rewrite (Z.mul_comm 2 (2 ^ _)), Z.div_mul by done. destruct d; rewrite (Pos2Z.inj_xO p'); lia.
Qed.

Lemma heap_get_move_run p s : p <> 1%positive -> Z.pos p < 2 ^ 64 ->
  exists d p', path p = d :: path p' /\ heap_get_move (Z.pos p) s = (Ok (d, Z.pos p'), s).
Proof.
  intros Hp Hlt. destruct (path_move p Hp) as (d & p' & Ep & Hd). exists d, p'. split; [done|].
  pose proof (Z.log2_spec (Z.pos p) ltac:(lia)) as [Hlo _].
  assert (0 <= Z.log2 (Z.pos p) < 64) as Hlog by (split; [apply Z.log2_nonneg|apply Z.log2_lt_pow2; lia]).
  assert (0 < 2 ^ Z.log2 (Z.pos p)) as Hpos by (apply Z.pow_pos_nonneg; lia).
  unfold heap_get_move, leading_zeros. rewrite (proj2 (Z.eqb_neq _ _)) by lia.
  rewrite (mbind_run _ _ s (63 - Z.log2 (Z.pos p)) s) by done.
  replace (8 * 8 - (63 - Z.log2 (Z.pos p)) - 1) with (Z.log2 (Z.pos p)) by lia.
  rewrite Z.shiftl_1_l. cbv zeta in *. set (base := 2 ^ Z.log2 (Z.pos p)) in *.
  assert (u64 base = base) as -> by (apply wrapu_id; unfold in_u; lia).
  assert (0 <= base / 2 <= base) as Hb by (split; [apply Z.div_pos; lia|apply Z.div_le_upper_bound; lia]).
  assert (u64 (Z.pos p - base / 2) = Z.pos p - base / 2) as -> by (apply wrapu_id; unfold in_u; lia).
  destruct d, Hd as [Hd1 Hd2].
  - rewrite (proj2 (Z.ltb_ge _ _)) by lia. unfold mret. rewrite Hd2.
    do 3 f_equal. apply wrapu_id. unfold in_u. lia.
  - rewrite (proj2 (Z.ltb_lt _ _)) by lia. unfold mret. by rewrite Hd2.
Qed.

Lemma get_loop_run w : forall p fuel t q C C' t' s, path p = w -> Z.pos p < 2 ^ 64 -> (length w <= fuel)%nat ->
  rep (hm_node s) q t -> focus C t w = Some (C', t') -> get_loop fuel (root t) (Z.pos p) s = (Ok (root t'), s).
Proof.
  induction w as [|d w IH]; intros p fuel t q C C' t' s Ew Hlt Hf Hr Hz.
  - assert (p = 1%positive) as -> by (by apply path_inj). simpl in Hz. injection Hz as -> ->. by destruct fuel.
  - assert (p <> 1%positive) as Hp by (intros ->; done).
    destruct (heap_get_move_run p s Hp Hlt) as (d' & p' & Ep & Em). rewrite Ew in Ep. injection Ep as -> ->.
    simpl in Hf. destruct fuel as [|fuel]; [lia|]. simpl in Hz. destruct t as [|a l r]; [done|].
    cbn [get_loop]. rewrite (proj2 (Z.eqb_neq _ _)) by lia. rewrite (mbind_run _ _ _ _ _ Em).
    rewrite (mbind_run _ _ s a s) by done. rewrite (mbind_run _ _ _ _ _ (node_run _ _)).
    destruct Hr as (Ea & Hl & Hrr). rewrite Ea. cbn [fst snd hn_left hn_right].
    replace (if d' then root r else root l) with (root (if d' then r else l)) by (by destruct d').
    eapply (IH p'); [done| |lia| |exact Hz].
    + pose proof (length_path p) as E1. pose proof (length_path p') as E2. rewrite Ew, length_cons, Nat2Z.inj_succ in E1.
      pose proof (Z.log2_spec (Z.pos p) ltac:(lia)) as [L1 _]. pose proof (Z.log2_spec (Z.pos p') ltac:(lia)) as [_ L2].
      assert (2 ^ Z.succ (Z.log2 (Z.pos p')) <= 2 ^ Z.log2 (Z.pos p)) by (apply Z.pow_le_mono_r; lia). lia.
    + by destruct d'.
Qed.

Lemma heap_get_run p t C t' s : Z.pos p < 2 ^ 64 -> rep (hm_node s) None t -> hm_root s = root t ->
  focus [] t (path p) = Some (C, t') -> heap_get (Z.pos p) s = (Ok (root t'), s).
Proof.
  intros Hlt Hr Hroot Hz. unfold heap_get. rewrite (mbind_run mget _ s s s) by done. rewrite Hroot.
  eapply get_loop_run; [done|done| |done|done]. pose proof (length_path p) as E.
  assert (Z.log2 (Z.pos p) < 64) by (apply Z.log2_lt_pow2; lia). lia.
Qed.

(** ** Order *)

(** A comparison the heap can work with: a total preorder. *)
Class Preorder (cmp : nat -> nat -> Z) : Prop := {
  cmp_asym : forall x y, 0 < cmp x y -> ~ 0 < cmp y x;
  cmp_trans : forall x y z, ~ 0 < cmp y x -> ~ 0 < cmp z y -> ~ 0 < cmp z x
}.

Section Ordered.
Context (cmp : nat -> nat -> Z) {Hcmp : Preorder cmp}.

(** [x] is at least every element of [l]. *)
Definition above (x : nat) (l : list nat) : Prop := Forall (fun y => ~ 0 < cmp y x) l.

Fixpoint hordered (t : tree) : Prop :=
  match t with
  | Leaf => True
  | Node a l r => above a (addrs l ++ addrs r) /\ hordered l /\ hordered r
  end.

Lemma above_app x l l' : above x (l ++ l') <-> above x l /\ above x l'.
Proof. unfold above. by rewrite list.Forall_app. Qed.
Lemma above_cons x y l : above x (y :: l) <-> ~ 0 < cmp y x /\ above x l.
Proof. unfold above. by rewrite list.Forall_cons. Qed.
Lemma above_trans x y l : ~ 0 < cmp y x -> above y l -> above x l.
Proof. intros H Hl. eapply list.Forall_impl; [exact Hl|]. intros z. simpl. by apply cmp_trans. Qed.
Lemma above_perm x l l' : l ≡ₚ l' -> above x l -> above x l'.
Proof. unfold above. by intros ->. Qed.

Lemma hordered_root t x : hordered t -> (forall b, root t = Some b -> ~ 0 < cmp b x) -> above x (addrs t).
Proof.
  destruct t as [|b l r]; simpl; [constructor|]. intros (Hb & _ & _) Hr. apply above_cons.
  split; [by apply Hr|]. eapply above_trans; [by apply Hr|done].
Qed.

Lemma hordered_nd d a x y : hordered (nd d a x y) <-> above a (addrs x ++ addrs y) /\ hordered x /\ hordered y.
Proof. destruct d; simpl; rewrite ?above_app; naive_solver. Qed.

Lemma sifted_perm a l r t : sifted cmp a l r t -> addrs t ≡ₚ a :: addrs l ++ addrs r.
Proof.
  induction 1 as [| ? b bl br r t _ _ _ IH|? l b bl br t _ _ IH]; simpl; [done|..]; rewrite IH.
  - simpl. by rewrite Permutation_swap.
  - rewrite <- (Permutation_middle (addrs l) _ a), <- (Permutation_middle (addrs l) _ b). by rewrite Permutation_swap.
Qed.

Lemma sifted_ordered a l r t : sifted cmp a l r t -> hordered l -> hordered r -> hordered t.
Proof.
  induction 1 as [a l r Hl Hr|a b bl br r t Hgt Hr Hs IH|a l b bl br t Hgt Hs IH]; intros Hol Hor; simpl in *.
  - split; [|done]. apply above_app. split; by apply hordered_root.
  - destruct Hol as (Hb & Hbl & Hbr). split; [|split; [by apply IH|done]]. apply above_app.
    split; [|by apply hordered_root]. eapply above_perm; [symmetry; by apply sifted_perm|]. apply above_cons.
    split; [by apply cmp_asym|done].
  - destruct Hor as (Hb & Hbl & Hbr). split; [|split; [done|by apply IH]]. apply above_app.
    assert (~ 0 < cmp a b /\ forall c, root l = Some c -> ~ 0 < cmp c b) as [Hab Hlb].
    { unfold left_or in Hgt. destruct (root l) as [c|]; [|split; [by apply cmp_asym|done]].
      destruct (Z.ltb_spec 0 (cmp c a)) as [Hc|Hc].
      - pose proof (cmp_asym _ _ Hgt). split; [|by intros ? [= <-]]. eapply cmp_trans; [done|]. by apply cmp_asym.
      - pose proof (cmp_asym _ _ Hgt). split; [done|]. intros ? [= <-]. eapply cmp_trans; [done|lia]. }
    split; [by apply hordered_root|]. eapply above_perm; [symmetry; by apply sifted_perm|]. by apply above_cons.
Qed.

(** The nodes of a context are above what is below them, [xs] in the hole. *)
Fixpoint cabove (C : ctx) (xs : list nat) : Prop :=
  match C with
  | [] => True
  | (_, p, s) :: C' => above p (xs ++ addrs s) /\ hordered s /\ cabove C' (p :: xs ++ addrs s)
  end.

Lemma cabove_perm C xs ys : xs ≡ₚ ys -> cabove C xs -> cabove C ys.
Proof.
  revert xs ys. induction C as [|[[d p] s] C IH]; intros xs ys Hp; simpl; [done|]. intros (H1 & H2 & H3).
  split_and!; [eapply above_perm; [|done]; by rewrite Hp|done|eapply IH; [|done]; by rewrite Hp].
Qed.

Lemma plug_ordered C t : hordered (plug C t) <-> hordered t /\ cabove C (addrs t).
Proof.
  revert t. induction C as [|[[d p] s] C IH]; intros t; simpl; [naive_solver|]. rewrite IH, hordered_nd.
  assert (cabove C (addrs (nd d p t s)) <-> cabove C (p :: addrs t ++ addrs s)) as ->; [|naive_solver].
  split; apply cabove_perm; by rewrite addrs_nd.
Qed.

Lemma cabove_insert C xs x : cabove C xs -> (forall d p s C', C = (d, p, s) :: C' -> ~ 0 < cmp x p) -> cabove C (x :: xs).
Proof.
  revert xs x. induction C as [|[[d p] s] C IH]; intros xs x; simpl; [done|]. intros (H1 & H2 & H3) Hx.
  specialize (Hx _ _ _ _ eq_refl). split; [by apply above_cons|]. split; [done|].
  eapply (cabove_perm C (x :: p :: xs ++ addrs s)); [apply Permutation_swap|]. apply IH; [done|].
  intros d' p' s' C' ->. simpl in H3. destruct H3 as [H3 _]. apply above_cons in H3 as [H3 _]. by eapply cmp_trans.
Qed.

Lemma up_perm C x l r : addrs (up cmp C x l r) ≡ₚ addrs (plug C (Node x l r)).
Proof.
  revert x l r. induction C as [|[[d p] s] C IH]; intros x l r; simpl; [done|].
  destruct (0 <? cmp x p); [|done]. rewrite IH, !addrs_plug, addrs_nd. f_equiv.
  replace (Node x _ _) with (nd d x (Node p l r) s) by (by destruct d). rewrite addrs_nd. simpl.
  by rewrite Permutation_swap.
Qed.

Lemma up_ordered C x l r : cabove C (addrs l ++ addrs r) -> hordered (Node x l r) -> hordered (up cmp C x l r).
Proof.
  revert x l r. induction C as [|[[d p] s] C IH]; intros x l r HC Ho; [done|]. cbn [up]. simpl in HC.
  destruct HC as (Hp & Hs & HC). destruct (Z.ltb_spec 0 (cmp x p)) as [Hgt|Hle].
  - assert (hordered (Node p l r)) as Hop by (apply above_app in Hp as [Hp _]; destruct Ho as (_ & ? & ?); done).
    assert (above x (addrs (Node p l r) ++ addrs s)) as Hx.
    { simpl. apply above_cons. split; [by apply cmp_asym|]. eapply above_trans; [by apply cmp_asym|done]. }
    apply IH.
    + eapply cabove_perm; [|exact HC]. destruct d; simpl; [by rewrite <- Permutation_middle, (Permutation_app_comm (addrs s))|done].
    + replace (Node x _ _) with (nd d x (Node p l r) s) by (by destruct d). by apply hordered_nd.
  - apply plug_ordered. split; [done|]. apply cabove_insert; [by split|]. intros d' p' s' C' [= -> -> -> ->]. lia.
Qed.

(** ** The heap and its elements *)

Record heap_ok (s : hmem) (t : tree) : Prop := {
  ho_rep : rep (hm_node s) None t;
  ho_root : hm_root s = root t;
  ho_size : hm_size s = Z.of_nat (tsize t);
  ho_nodup : NoDup (addrs t);
  ho_complete : complete (hm_size s) t;
  ho_order : hordered t
}.

(** The elements of the heap, in no order. *)
Definition heap_holds (s : hmem) (xs : list nat) : Prop := exists t, heap_ok s t /\ addrs t ≡ₚ xs.

Lemma parent_position n : 1 <= n -> exists q (b : bool), n + 1 = Z.pos (if b then q~1 else q~0) /\
  path (if b then q~1 else q~0) = path q ++ [b] /\ (n + 1) / 2 = Z.pos q /\ ((n + 1) mod 2 =? 1) = b /\ Z.pos q <= n.
Proof.
  intros Hn. destruct (n + 1) as [|p|p] eqn:E; [lia| |lia]. destruct p as [q|q|]; [| |lia].
  - exists q, true. rewrite Pos2Z.inj_xI in *. split_and!; [done..| | |lia].
    + rewrite Z.add_comm, (Z.mul_comm 2), Z.div_add by done. done.
    + rewrite Z.add_comm, (Z.mul_comm 2), Z.mod_add by done. done.
  - exists q, false. rewrite Pos2Z.inj_xO in *. split_and!; [done..| | |lia].
    + by rewrite (Z.mul_comm 2), Z.div_mul by done.
    + by rewrite (Z.mul_comm 2), Z.mod_mul by done.
Qed.

Lemma focus_snoc w (b : bool) C t C0 par l r : focus C t w = Some (C0, Node par l r) ->
  focus C t (w ++ [b]) = Some ((b, par, if b then l else r) :: C0, if b then r else l).
Proof.
  revert C t. induction w as [|d w IH]; intros C t; simpl; [by intros [= -> ->]|]. destruct t; [done|]. apply IH.
Qed.

(** The position after the last one is an empty child of a node. *)
Lemma next_position t n q (b : bool) : complete n t -> Z.pos (if b then q~1 else q~0) = n + 1 -> Z.pos q <= n ->
  path (if b then q~1 else q~0) = path q ++ [b] ->
  exists C0 par l r, focus [] t (path q) = Some (C0, Node par l r) /\ (if b then r else l) = Leaf /\
    focus [] t (path q ++ [b]) = Some ((b, par, if b then l else r) :: C0, Leaf).
Proof.
  intros Hc Hp Hq Epath. assert (sub t (path q) <> Leaf) as Hsq by (by apply Hc).
  destruct (focus_some' (path q) [] t Hsq) as (C0 & t0 & Hf0).
  destruct (focus_put _ _ _ _ _ Leaf Hf0) as (_ & _ & ->). destruct (sub t (path q)) as [|par l r] eqn:Es; [done|].
  pose proof (focus_snoc _ b _ _ _ _ _ _ Hf0) as Hf.
  exists C0, par, l, r. split; [done|]. assert ((if b then r else l) = Leaf) as Hl; [|by rewrite Hf, Hl].
  destruct (focus_put _ _ _ _ _ Leaf Hf) as (_ & _ & Hs). rewrite Hs, <- Epath.
  destruct (sub t (path (if b then q~1 else q~0))) eqn:E; [done|exfalso].
  assert (sub t (path (if b then q~1 else q~0)) <> Leaf) as Hne by (by rewrite E). apply Hc in Hne. lia.
Qed.

Lemma tsize_perm t t' : addrs t ≡ₚ addrs t' -> tsize t = tsize t'.
Proof. unfold tsize. by intros ->. Qed.

(** What [heap_insert] does before the node floats up. *)
Lemma attach_rep (b : bool) par sb C0 x m m' : NoDup (x :: caddrs ((b, par, sb) :: C0)) ->
  rep_ctx m ((b, par, sb) :: C0) None ->
  (forall c, c <> x -> m' c = if decide (c = par) then (if b then with_right (Some x) else with_left (Some x)) (m c) else m c) ->
  m' x = mk_hn (Some par) None None ->
  rep m' None (plug ((b, par, sb) :: C0) (Node x Leaf Leaf)).
Proof.
  intros [Hx Hn]%list.NoDup_cons Hr Hm Hmx. apply rep_plug. split; [|by rewrite rep_nd with (d := false)].
  apply (rep_ctx_hole m m' _ None); [done|done|]. intros c Hc. rewrite Hm by (by intros ->).
  simpl cpar. destruct (decide (c = par)) as [->|Hcp].
  - rewrite decide_True by done. destruct Hr as [-> _]. by destruct b.
  - rewrite decide_False by congruence. done.
Qed.

Lemma heap_insert_empty fuel x s : heap_ok s Leaf -> exists s', heap_insert cmp fuel x s = (Ok tt, s') /\
  heap_ok s' (Node x Leaf Leaf).
Proof.
  intros [Hr Hroot Hsz _ _ _]. unfold heap_insert. do 3 hstep. rewrite (mbind_run mget _ _ _ _ eq_refl).
  rewrite (mbind_run (set_size _) _ _ _ _ eq_refl), (mbind_run mget _ _ _ _ eq_refl). cbn [hm_root].
  replace (hm_root (put_s _ _ _)) with (@None nat). eexists. split; [done|].
  split; simpl; rewrite ?Hsz; [|done|done|apply NoDup_singleton| |split; [constructor|done]].
  - split; [|done]. unfold upd. by rewrite !decide_True.
  - intros p. change (u64 (Z.of_nat (tsize Leaf) + 1)) with 1. destruct (path p) as [|d w] eqn:E; simpl.
    + assert (p = 1%positive) as -> by (by apply path_inj). done.
    + split; [by destruct d, w|]. intros Hp. assert (p = 1%positive) as -> by lia. done.
Qed.

(** The element hung at the next position. *)
Lemma attached_ok t n C0 q (b : bool) par sb x : complete n t -> Z.pos (if b then q~1 else q~0) = n + 1 ->
  path (if b then q~1 else q~0) = path q ++ [b] -> focus [] t (path q ++ [b]) = Some ((b, par, sb) :: C0, Leaf) ->
  hordered t -> complete (n + 1) (plug ((b, par, sb) :: C0) (Node x Leaf Leaf)) /\
  addrs (plug ((b, par, sb) :: C0) (Node x Leaf Leaf)) ≡ₚ x :: addrs t /\ cabove ((b, par, sb) :: C0) [] /\
  (length ((b, par, sb) :: C0) = length (path (if b then q~1 else q~0)))%nat.
Proof.
  intros Hc Ep Epath Hf Ho. destruct (focus_put _ _ _ _ _ (Node x Leaf Leaf) Hf) as (Eput & Elen & Hleaf).
  pose proof (focus_plug0 _ _ _ _ Hf) as Et. split; [|split; [|split]].
  - intros p. rewrite Eput. cbn [plug].
    rewrite sub_put_node; [|done|left; by eexists _, _]. specialize (Hc p). rewrite Hc. split.
    + intros [H|H]; [lia|]. rewrite <- Epath in H. apply path_inj in H. subst p. lia.
    + intros H. destruct (decide (Z.pos p <= n)); [by left|right]. rewrite <- Epath. f_equal.
      assert (Z.pos p = n + 1) as H' by lia. rewrite <- Ep in H'. by injection H'.
  - rewrite <- Et, !addrs_plug. done.
  - rewrite <- Et in Ho. by apply plug_ordered in Ho as [_ Ho].
  - rewrite Elen, Epath. done.
Qed.

Lemma heap_insert_run fuel x s t : heap_ok s t -> x ∉ addrs t -> Z.of_nat (tsize t) < 2 ^ 63 -> (64 <= fuel)%nat ->
  exists s' t', heap_insert cmp fuel x s = (Ok tt, s') /\ heap_ok s' t' /\ addrs t' ≡ₚ x :: addrs t.
Proof.
  intros Hok Hx Hlt Hfuel. destruct t as [|a l r].
  { destruct (heap_insert_empty fuel x s Hok) as (s' & E & H). exists s', (Node x Leaf Leaf). by split_and!. }
  set (t := Node a l r) in *. destruct Hok as [Hr Hroot Hsz Hnd Hc Ho].
  assert (1 <= hm_size s) as H1 by (rewrite Hsz; unfold t, tsize; simpl; lia).
  destruct (parent_position (hm_size s) H1) as (q & b & Ep & Epath & Ediv & Emod & Hq).
  destruct (next_position t (hm_size s) q b Hc (eq_sym Ep) Hq Epath) as (C0 & par & pl & pr & Hf0 & Hleaf & Hf).
  unfold heap_insert. do 3 hstep. rewrite (mbind_run mget _ _ _ _ eq_refl), (mbind_run (set_size _) _ _ _ _ eq_refl).
  rewrite (mbind_run mget _ _ _ _ eq_refl). set (s0 := put_s x _ _). cbn [hm_root hm_size].
  replace (hm_root s0) with (Some a) by (symmetry; exact Hroot).
  assert (u64 (hm_size s0 + 1) = hm_size s + 1) as Eu.
  { change (hm_size s0) with (hm_size s). apply wrapu_id. unfold in_u. lia. }
  rewrite Eu, Ediv, Emod. set (s1 := mk_hmem (hm_node s0) (Some a) (hm_size s + 1)).
  assert (rep (hm_node s1) None t) as Hr1.
  { eapply rep_frame; [exact Hr|]. intros c Hcin. unfold s1, s0; simpl. unfold upd.
    by rewrite !decide_False by (intros ->; done). }
  rewrite (mbind_run _ _ _ _ _ (heap_get_run q t C0 (Node par pl pr) s1 ltac:(lia) Hr1 eq_refl Hf0)).
  set (sb := if b then pl else pr) in *. set (C := (b, par, sb) :: C0).
  destruct (attached_ok t (hm_size s) C0 q b par sb x Hc (eq_sym Ep) Epath Hf Ho) as (Hc' & Hp' & Hab & Hlen). fold C in Hc', Hp', Hab, Hlen.
  pose proof (focus_plug0 _ _ _ _ Hf) as Et. fold C in Et.
  assert (rep_ctx (hm_node s1) C None) as HrC by (rewrite <- Et in Hr1; by apply (rep_plug _ C Leaf) in Hr1 as [? _]).
  assert (par <> x) as Hpx.
  { intros ->. apply Hx. rewrite <- Et. change (x ∈ addrs (plug C Leaf)). rewrite addrs_plug. simpl. by left. }
  set (s2 := put_s x (with_parent (Some par)) (put_s par (if b then with_right (Some x) else with_left (Some x)) s1)).
  simpl root. rewrite (mbind_run _ _ s1 par s1) by done. rewrite (mbind_run _ _ _ _ _ (node_run _ _)).
  rewrite (proj1 HrC). match goal with |- context [mbind ?m _ s1] => rewrite (mbind_run m _ s1 tt
    (put_s par (if b then with_right (Some x) else with_left (Some x)) s1)) by (by destruct b) end.
  rewrite (mbind_run _ _ _ _ _ (set_parent_run _ _ _)). fold s2.
  assert (rep (hm_node s2) None (plug C (Node x Leaf Leaf))) as Hr2.
  { apply (attach_rep b par sb C0 x (hm_node s1)); [|done|..].
    - rewrite <- Et in Hx, Hnd. change (x ∉ addrs (plug C Leaf)) in Hx. change (NoDup (addrs (plug C Leaf))) in Hnd.
      rewrite addrs_plug in Hx, Hnd. by constructor.
    - intros c Hcx. unfold s2. rewrite !node_put. by rewrite decide_False by done.
    - unfold s2. rewrite !node_put. rewrite decide_True, decide_False by done. unfold s1, s0; simpl. unfold upd.
      by rewrite !decide_True. }
  destruct (bubble_up_run cmp C x Leaf Leaf s2 fuel) as (o & s3 & E3 & R3 & Eroot & Esz & Ho3).
  { pose proof (length_path (if b then q~1 else q~0)) as El. rewrite Hlen.
    assert (Z.log2 (Z.pos (if b then q~1 else q~0)) < 64) by (apply Z.log2_lt_pow2; lia). lia. }
  { rewrite Hp'. by constructor. } { done. }
  change (cpar C) with (Some par) in E3. rewrite (mbind_run _ _ _ _ _ E3).
  set (t' := up cmp C x Leaf Leaf) in *.
  assert (addrs t' ≡ₚ x :: addrs t) as Hpt by (by rewrite <- Hp'; apply up_perm).
  assert (forall s4, hm_node s4 = hm_node s3 -> hm_root s4 = root t' -> hm_size s4 = hm_size s3 -> heap_ok s4 t') as Hfin.
  { intros s4 E4 E5 E6. assert (hm_size s4 = hm_size s + 1) as E7 by (by rewrite E6, Esz). split; [by rewrite E4|done|..].
    - rewrite E7, Hsz. unfold tsize. rewrite Hpt. simpl. lia.
    - rewrite Hpt. by constructor.
    - rewrite E7. eapply skel_complete; [|exact Hc']. symmetry. apply up_skel.
    - apply up_ordered; [done|]. by repeat constructor. }
  destruct o as [c|].
  - exists s3, t'. split; [done|]. split; [|done]. apply Hfin; [done| |done]. rewrite Ho3, Eroot. unfold s2; simpl.
    change (Some a) with (root t). rewrite <- Et. apply (root_plug C). done.
  - eexists _, t'. split; [done|]. split; [|done]. by apply Hfin.
Qed.

(** *** Taking the root *)

Lemma cabove_tail C xs x : cabove C (x :: xs) -> cabove C xs.
Proof.
  revert xs x. induction C as [|[[d p] s] C IH]; intros xs x; simpl; [done|]. intros (H1 & H2 & H3).
  apply above_cons in H1 as [_ H1]. split_and!; [done|done|]. apply (IH _ x).
  eapply cabove_perm; [|exact H3]. apply Permutation_swap.
Qed.

(** The last position holds a node without children. *)
Lemma last_position t n q (b : bool) : complete n t -> n = Z.pos (if b then q~1 else q~0) ->
  path (if b then q~1 else q~0) = path q ++ [b] ->
  exists C0 par sb c, focus [] t (path q ++ [b]) = Some ((b, par, sb) :: C0, Node c Leaf Leaf).
Proof.
  intros Hc Hp Epath. set (p := if b then q~1%positive else q~0%positive) in *.
  assert (sub t (path p) <> Leaf) as Hs by (apply Hc; lia).
  destruct (focus_some' (path p) [] t Hs) as (C & t0 & Hf). pose proof Hf as Hf'. rewrite Epath in Hf.
  destruct (focus_put _ _ _ _ _ Leaf Hf') as (_ & _ & ->).
  assert (sub t (path q) <> Leaf) as Hsq by (apply Hc; unfold p in Hp; destruct b; lia).
  destruct (focus_some' (path q) [] t Hsq) as (C0 & tq & Hfq).
  destruct (focus_put _ _ _ _ _ Leaf Hfq) as (_ & _ & ->). destruct (sub t (path q)) as [|par l r] eqn:Eq; [done|].
  pose proof (focus_snoc _ b _ _ _ _ _ _ Hfq) as Hfb. rewrite Hfb in Hf. injection Hf as <- Et.
  exists C0, par, (if b then l else r). destruct (sub t (path p)) as [|c cl cr] eqn:Ec; [done|]. exists c.
  assert (forall e, sub t (path p ++ [e]) = Leaf) as Hch.
  { intros e. destruct (sub t (path p ++ [e])) eqn:E; [done|exfalso].
    assert (sub t (path (if e then p~1 else p~0)%positive) <> Leaf) as H by (destruct e; simpl; by rewrite E).
    apply Hc in H. destruct e; lia. }
  assert (forall w t e, sub t (w ++ [e]) = sub (sub t w) [e]) as Hsub.
  { clear. induction w as [|d w IH]; intros t e; simpl; [done|]. destruct t as [|a l r]; [by destruct w|]. apply IH. }
  assert (cl = Leaf /\ cr = Leaf) as [-> ->].
  { pose proof (Hch false) as H1. pose proof (Hch true) as H2. rewrite Hsub, Ec in H1, H2. done. }
  by rewrite Hfb, <- Et.
Qed.

(** The last node takes the place of the root. *)
Lemma promote_rep m m' max c l r : NoDup (c :: max :: addrs l ++ addrs r) -> rep m None (Node max l r) ->
  m' c = mk_hn None (root l) (root r) ->
  (forall a, a ∈ addrs l ++ addrs r -> m' a = if decide (Some a = root l \/ Some a = root r) then with_parent (Some c) (m a) else m a) ->
  rep m' None (Node c l r).
Proof.
  intros [Hc [Hmax Hn]%list.NoDup_cons]%list.NoDup_cons (_ & Hl & Hr) Hmc Hm. apply list.NoDup_app in Hn as (Nl & Dlr & Nr).
  split; [done|]. split.
  - apply (rep_adopt m _ _ _ _ Hl Nl). intros a Ha. rewrite Hm by set_solver. case_decide as H; [|by rewrite decide_False by naive_solver].
    destruct H as [H|H]; [by rewrite decide_True|]. exfalso. apply (Dlr a Ha). destruct r; [done|]. injection H as ->. by left.
  - apply (rep_adopt m _ _ _ _ Hr Nr). intros a Ha. rewrite Hm by set_solver. case_decide as H; [|by rewrite decide_False by naive_solver].
    destruct H as [H|H]; [|by rewrite decide_True]. exfalso. apply (Dlr a); [|done]. destruct l; [done|]. injection H as ->. by left.
Qed.

(** The tree without its last node. *)
Lemma removed_ok t n q (b : bool) C0 par sb c : complete n t -> n = Z.pos (if b then q~1 else q~0) ->
  path (if b then q~1 else q~0) = path q ++ [b] -> focus [] t (path q ++ [b]) = Some ((b, par, sb) :: C0, Node c Leaf Leaf) ->
  hordered t -> let t1 := plug ((b, par, sb) :: C0) Leaf in
  complete (n - 1) t1 /\ addrs t ≡ₚ c :: addrs t1 /\ hordered t1 /\
  exists l r, t1 = Node (default 0%nat (root t)) l r.
Proof.
  intros Hc Ep Epath Hf Ho t1. destruct (focus_put _ _ _ _ _ Leaf Hf) as (Eput & _ & Hsub).
  pose proof (focus_plug0 _ _ _ _ Hf) as Et. cbn [plug] in Eput. split; [|split; [|split]].
  - intros p. unfold t1. cbn [plug]. rewrite Eput, (sub_put_leaf _ c) by done. specialize (Hc p). rewrite Hc, <- Epath. split.
    + intros [H1 H2]. assert (p <> (if b then q~1 else q~0)%positive) as Hne by (intros ->; done).
      assert (Z.pos p <> n) by (rewrite Ep; congruence). lia.
    + intros H. split; [lia|]. intros E. apply path_inj in E. subst p. lia.
  - unfold t1. rewrite <- Et, !addrs_plug. done.
  - unfold t1. rewrite <- Et in Ho. apply plug_ordered in Ho as [_ Ho]. apply plug_ordered. split; [done|].
    simpl addrs in Ho |- *. by eapply cabove_tail.
  - unfold t1. cbn [plug]. rewrite Eput. destruct t as [|a l r]; [by destruct (path q)|]. simpl root. simpl default.
    destruct (path q ++ [b]) as [|d w] eqn:E; [by destruct (path q)|]. destruct d; simpl; by eexists _, _.
Qed.

Lemma pop_only fuel max s : heap_ok s (Node max Leaf Leaf) -> exists s',
  heap_pop_max cmp fuel s = (Ok (Some max), s') /\ heap_ok s' Leaf.
Proof.
  intros [Hr Hroot Hsz _ Hc _]. unfold heap_pop_max. rewrite (mbind_run mget _ s s s) by done. rewrite Hroot. cbn [root].
  rewrite Hsz. change (Z.of_nat (tsize (Node max Leaf Leaf))) with 1.
  rewrite (mbind_run _ _ _ _ _ (heap_get_run 1 (Node max Leaf Leaf) [] _ s ltac:(lia) Hr Hroot eq_refl)). cbn [root].
  rewrite (mbind_run (set_size _) _ _ _ _ eq_refl), (mbind_run _ _ _ _ _ (node_run _ _)). cbn [hm_node].
  destruct Hr as [-> _]. cbn [hn_parent]. eexists. split; [done|]. split; simpl; [done..|constructor| |done].
  intros p. change (u64 (1 - 1)) with 0. destruct (path p); simpl; split; try done; lia.
Qed.

(** The memory once the last node [c] is the root. *)
Definition promoted (c max : nat) (l r : tree) (s s' : hmem) (m1 : nat -> heap_node) : Prop :=
  hm_node s' c = mk_hn None (root l) (root r) /\ hm_root s' = Some c /\ hm_size s' = hm_size s - 1 /\
  forall a, a <> c -> a <> max ->
    hm_node s' a = if decide (Some a = root l \/ Some a = root r) then with_parent (Some c) (m1 a) else m1 a.

Lemma set_root_run r s : set_root r s = (Ok tt, mk_hmem (hm_node s) r (hm_size s)).
Proof. done. Qed.

(** The assignments that make [c] the root: as the last child of the root... *)
Lemma promote_near_run (b : bool) par c max (o : option nat) s : hm_node s c = mk_hn par None None ->
  hm_node s max = mkn b None (Some c) o -> o <> Some c -> o <> Some max -> max <> c ->
  exists s', (let* nm := node max in
      (if b then set_left c (hn_left nm) ;;; adopt (hn_left nm) c
       else set_right c (hn_right nm) ;;; adopt (hn_right nm) c) ;;;
      set_parent c None ;;; set_root (Some c)) s = (Ok tt, s') /\
    hm_node s' c = mkn b None None o /\ hm_root s' = Some c /\ hm_size s' = hm_size s /\
    forall a, a <> c -> hm_node s' a = if decide (Some a = o) then with_parent (Some c) (hm_node s a) else hm_node s a.
Proof.
  intros Ec Em Hoc Hom Hmc. rewrite (mbind_run _ _ _ _ _ (node_run _ _)). rewrite Em.
  destruct b; cbn [mkn hn_left hn_right].
  all: rewrite mbind_assoc; run_nodes Ec Em; rewrite set_root_run; eexists; split; [done|]; cbn [hm_node hm_root hm_size].
  all: split_and!; [run_nodes Ec Em; done|done|by destruct o|].
  all: intros a Ha; rewrite node_put_ne by done; rewrite node_adopt, node_put_ne by done; done.
Qed.

(** ... or from further down. *)
Lemma promote_far_run par c max lo ro s : hm_node s c = mk_hn par None None ->
  hm_node s max = mk_hn None lo ro -> lo <> Some c -> lo <> Some max -> ro <> Some c -> ro <> Some max -> max <> c ->
  exists s', (let* nc := node c in
      if bool_decide (hn_left nc <> None) then mdie else
      if bool_decide (hn_right nc <> None) then mdie else
      let* nm := node max in
      set_left c (hn_left nm) ;;;
      adopt (hn_left nm) c ;;;
      let* nm := node max in
      set_right c (hn_right nm) ;;;
      adopt (hn_right nm) c ;;;
      set_parent c None ;;;
      set_root (Some c)) s = (Ok tt, s') /\
    hm_node s' c = mk_hn None lo ro /\ hm_root s' = Some c /\ hm_size s' = hm_size s /\
    forall a, a <> c -> hm_node s' a = if decide (Some a = lo \/ Some a = ro) then with_parent (Some c) (hm_node s a) else hm_node s a.
Proof.
  intros Ec Em H1 H2 H3 H4 Hmc. rewrite (mbind_run _ _ _ _ _ (node_run _ _)). rewrite Ec. cbn [hn_left hn_right].
  rewrite !bool_decide_false by (by intros []). run_nodes Ec Em. rewrite set_root_run. eexists. split; [done|].
  cbn [hm_node hm_root hm_size]. split_and!; [run_nodes Ec Em; done|done|by destruct lo, ro|].
  intros a Ha. rewrite node_put_ne, node_adopt, node_put_ne, node_adopt, node_put_ne by done.
  destruct (decide (Some a = lo)), (decide (Some a = ro)); rewrite ?decide_True by auto; try done.
  rewrite decide_False by naive_solver. done.
Qed.

Lemma root_in_ctx C u a : C <> [] -> root (plug C u) = Some a -> a ∈ caddrs C.
Proof.
  revert u. induction C as [|[[d p] s] C IH]; intros u HC; [done|]. cbn [plug]. intros E.
  destruct C as [|f C]; [destruct d; injection E as ->; by left|]. simpl. right. apply elem_of_app. right.
  by eapply IH.
Qed.

Lemma pop_promotes fuel s t q (b : bool) C0 par sb c max l r : rep (hm_node s) None t -> hm_root s = Some max ->
  hm_size s = Z.pos (if b then q~1 else q~0) -> hm_size s < 2 ^ 63 -> path (if b then q~1 else q~0) = path q ++ [b] ->
  focus [] t (path q ++ [b]) = Some ((b, par, sb) :: C0, Node c Leaf Leaf) -> NoDup (addrs t) ->
  root t = Some max -> plug ((b, par, sb) :: C0) Leaf = Node max l r ->
  exists s' m1, heap_pop_max cmp fuel s = (heap_max_heapify cmp fuel true c ;;; mret (Some max)) s' /\
    promoted c max l r s s' m1 /\ rep m1 None (Node max l r).
Proof.
  intros Hr Hroot Hsz Hlt Epath Hf Hnd Hrt Et1. pose proof (focus_plug0 _ _ _ _ Hf) as Et.
  unfold heap_pop_max. rewrite (mbind_run mget _ s s s) by done. rewrite Hroot, Hsz.
  rewrite <- Epath in Hf. assert (hm_root s = root t) as Hroot' by congruence.
  rewrite (mbind_run _ _ _ _ _ (heap_get_run (if b then q~1 else q~0) t _ _ s ltac:(lia) Hr Hroot' Hf)). cbn [root].
  rewrite (mbind_run (set_size _) _ _ _ _ eq_refl), (mbind_run _ _ _ _ _ (node_run _ _)). cbn [hm_node].
  set (C := (b, par, sb) :: C0) in *. rewrite <- Et in Hr, Hnd, Hrt. rewrite addrs_plug in Hnd. cbn [addrs app] in Hnd.
  apply list.NoDup_cons in Hnd as [HcC HndC].
  apply rep_plug in Hr as [HrC [Ec _]]. change (cpar C) with (Some par) in Ec. rewrite Ec. cbn [hn_parent].
  assert (c <> par) as Hcp by (intros ->; apply HcC; by left).
  pose (m1 := fun a => if decide (a = par) then (if b then with_right None else with_left None) (hm_node s a) else hm_node s a).
  assert (rep m1 None (Node max l r)) as Hr1.
  { rewrite <- Et1. apply rep_plug. split; [|done]. apply (rep_ctx_hole (hm_node s) m1 C _ None HrC HndC). intros a Ha. unfold m1.
    change (cpar C) with (Some par). destruct (decide (a = par)) as [->|Hap]; [|by rewrite decide_False by congruence].
    rewrite decide_True by done. simpl. destruct HrC as [-> _]. by destruct b. }
  assert (addrs (Node max l r) ≡ₚ caddrs C) as Hperm by (by rewrite <- Et1, addrs_plug).
  assert (c ∉ addrs (Node max l r)) as HcN by (by rewrite Hperm).
  assert (max <> c) as Hmc by (intros ->; apply HcN; by left).
  assert (root l <> Some c /\ root r <> Some c) as [Hlc Hrc].
  { split; intros E; apply HcN; simpl; right; apply elem_of_app; [left|right]; [destruct l|destruct r]; try done;
      injection E as ->; by left. }
  assert (root l <> Some max /\ root r <> Some max) as [Hlm Hrm].
  { rewrite <- Hperm in HndC. simpl in HndC. apply list.NoDup_cons in HndC as [Hmax _].
    split; intros E; apply Hmax; apply elem_of_app; [left|right]; [destruct l|destruct r]; try done; injection E as ->; by left. }
  assert (u64 (hm_size s - 1) = hm_size s - 1) as Esz by (apply wrapu_id; unfold in_u; lia). rewrite Hsz in Esz.
  set (s0 := mk_hmem (hm_node s) (Some max) (u64 (Z.pos (if b then q~1 else q~0) - 1))).
  replace (mk_hmem (hm_node s) (hm_root s) _) with s0 by (unfold s0; by rewrite Hroot).
  assert (hm_node s0 c = mk_hn (Some par) None None) as Ec0 by done.
  assert ((Z.pos (if b then q~1 else q~0) mod 2 =? 1) = b) as Eb.
  { destruct b; [rewrite Pos2Z.inj_xI, Z.add_comm, (Z.mul_comm 2), Z.mod_add by done; done|].
    by rewrite Pos2Z.inj_xO, (Z.mul_comm 2), Z.mod_mul by done. }
  rewrite Eb. clear Eb. case_bool_decide as Hpm.
  - subst par. assert (C0 = []) as HC0.
    { destruct C0 as [|f C0]; [done|]. assert (max ∈ caddrs (f :: C0)) as Hin.
      { eapply (root_in_ctx _ (nd b max Leaf sb)); [done|]. change (root (plug C Leaf) = Some max). by rewrite Et1. }
      apply list.NoDup_cons in HndC as [Hni _]. exfalso. apply Hni. apply elem_of_app. by right. }
    subst C0. destruct HrC as (Em & _ & _). simpl in Et1.
    assert (root l = (if b then root sb else None) /\ root r = (if b then None else root sb)) as [El Er].
    { destruct b; injection Et1 as <- <-; done. }
    destruct (promote_near_run b (Some max) c max (root sb) s0 Ec0 Em) as (s' & E' & N' & R' & Z' & A').
    { destruct b; congruence. } { destruct b; congruence. } { done. }
    rewrite (mbind_run _ _ _ _ _ E'). exists s', m1. split; [done|]. split; [|done]. split_and!.
    + rewrite N', El, Er. by destruct b.
    + done.
    + rewrite Z'. unfold s0; simpl. by rewrite Esz, Hsz.
    + intros a Hac Ham. rewrite (A' a Hac). unfold m1. rewrite (decide_False (P := a = max)) by done. cbn [hm_node s0].
      rewrite El, Er. destruct b, (decide (Some a = root sb)) as [H|H].
      all: match goal with |- context [@decide (_ \/ _) ?D] => destruct D; [|] end; try done; naive_solver.
  - assert (exists s1, (if b then set_right par None else set_left par None) s0 = (Ok tt, s1) /\
      (forall a, hm_node s1 a = m1 a) /\ hm_size s1 = hm_size s0) as (s1 & E1 & N1 & Z1).
    { destruct b; eexists; (split; [done|]); (split; [|done]); intros a; unfold m1; simpl; unfold upd; by case_decide. }
    assert (hm_node s1 c = mk_hn (Some par) None None) as Ec1 by (rewrite N1; unfold m1; by rewrite decide_False).
    assert (hm_node s1 max = mk_hn None (root l) (root r)) as Em1 by (rewrite N1; apply Hr1).
    destruct (promote_far_run (Some par) c max _ _ s1 Ec1 Em1 Hlc Hlm Hrc Hrm Hmc) as (s' & E' & N' & R' & Z' & A').
    rewrite mbind_assoc, (mbind_run _ _ _ _ _ E1), (mbind_run _ _ _ _ _ E').
    exists s', m1. split; [done|]. split; [|done]. split_and!; [done|done| |].
    + rewrite Z', Z1. unfold s0; simpl. by rewrite Esz, Hsz.
    + intros a Hac Ham. by rewrite (A' a Hac), N1.
Qed.

Lemma heap_pop_run fuel s max l r : heap_ok s (Node max l r) -> Z.of_nat (tsize (Node max l r)) < 2 ^ 63 ->
  (tsize (Node max l r) < fuel)%nat ->
  exists s' t', heap_pop_max cmp fuel s = (Ok (Some max), s') /\ heap_ok s' t' /\ addrs l ++ addrs r ≡ₚ addrs t'.
Proof.
  intros Hok Hlt Hfuel. destruct (decide (hm_size s = 1)) as [H1|H1].
  { pose proof (ho_size _ _ Hok) as Hsz. rewrite H1 in Hsz. unfold tsize in Hsz. simpl in Hsz.
    assert (addrs l ++ addrs r = []) as Hnil by (apply nil_length_inv; lia).
    assert (l = Leaf /\ r = Leaf) as [-> ->] by (apply app_eq_nil in Hnil as [? ?]; by destruct l, r).
    destruct (pop_only fuel max s Hok) as (s' & E & H). exists s', Leaf. by split_and!. }
  set (t := Node max l r) in *. destruct Hok as [Hr Hroot Hsz Hnd Hc Ho].
  assert (1 <= hm_size s - 1) as H2 by (rewrite Hsz in *; unfold t, tsize in *; simpl in *; lia).
  destruct (parent_position _ H2) as (q & b & Ep & Epath & _). replace (hm_size s - 1 + 1) with (hm_size s) in Ep by lia.
  destruct (last_position t (hm_size s) q b Hc Ep Epath) as (C0 & par & sb & c & Hf).
  destruct (removed_ok t (hm_size s) q b C0 par sb c Hc Ep Epath Hf Ho) as (Hc1 & Hp1 & Ho1 & l1 & r1 & Et1).
  change (default 0%nat (root t)) with max in Et1. rewrite Et1 in Hc1, Hp1, Ho1.
  destruct (pop_promotes fuel s t q b C0 par sb c max l1 r1 Hr Hroot Ep ltac:(lia) Epath Hf Hnd eq_refl Et1)
    as (s1 & m1 & E1 & (Nc & R1 & Z1 & N1) & Hr1). rewrite E1.
  assert (NoDup (c :: max :: addrs l1 ++ addrs r1)) as Hnd1 by (by rewrite Hp1 in Hnd).
  pose proof Hnd1 as [Hc' [Hm' Hlr]%list.NoDup_cons]%list.NoDup_cons.
  assert (rep (hm_node s1) None (Node c l1 r1)) as Hr2.
  { apply (promote_rep m1 _ max); [done|done|done|]. intros a Ha. apply N1; intros ->; [apply Hc'; by right|done]. }
  assert (addrs l ++ addrs r ≡ₚ c :: addrs l1 ++ addrs r1) as Hp2.
  { simpl in Hp1. rewrite Permutation_swap in Hp1. by apply Permutation_cons_inv in Hp1. }
  destruct (heapify_run cmp fuel true c l1 r1 [] s1) as (t' & s2 & Hs & E2 & R2 & Er2 & Ez2).
  { unfold tsize in *. simpl in Hfuel. apply Permutation_length in Hp2. rewrite !length_app in *. simpl in Hp2. rewrite !length_app in *. lia. }
  { constructor; [|done]. intros ?. apply Hc'. by right. } { done. } { done. } { done. }
  rewrite (mbind_run _ _ _ _ _ E2). exists s2, t'. split; [done|]. pose proof (sifted_perm _ _ _ _ Hs) as Hpt.
  split; [|by rewrite Hp2, Hpt]. split; [done|done|..].
  - rewrite Ez2, Z1, Hsz. unfold tsize. rewrite Hpt, <- Hp2. unfold t; simpl. lia.
  - rewrite Hpt. constructor; [|done]. intros ?. apply Hc'. by right.
  - rewrite Ez2, Z1. eapply skel_complete; [|exact Hc1]. by rewrite (sifted_skel _ _ _ _ _ Hs).
  - destruct Ho1 as (_ & ? & ?). by eapply sifted_ordered.
Qed.
End Ordered.

(** The order only depends on the comparison of the elements. *)
Lemma hordered_ext cmp cmp' t : (forall x y, x ∈ addrs t -> y ∈ addrs t -> cmp' x y = cmp x y) ->
  hordered cmp t -> hordered cmp' t.
Proof.
  induction t as [|a l IHl r IHr]; intros He; simpl in *; [done|]. intros (Ha & Hl & Hr). split; [|split].
  - apply list.Forall_forall. intros y Hy. pose proof (proj1 (list.Forall_forall _ _) Ha y Hy) as Hle. rewrite He; [done|by right|by left].
  - apply IHl; [|done]. intros x y Hx Hy. apply He; right; apply elem_of_app; by left.
  - apply IHr; [|done]. intros x y Hx Hy. apply He; right; apply elem_of_app; by right.
Qed.

Lemma heap_holds_ext cmp cmp' s xs : (forall x y, x ∈ xs -> y ∈ xs -> cmp' x y = cmp x y) ->
  heap_holds cmp s xs -> heap_holds cmp' s xs.
Proof.
  intros He (t & [H1 H2 H3 H4 H5 H6] & Hp). exists t. split; [|done]. split; try done.
  eapply hordered_ext; [|done]. intros x y. rewrite Hp. apply He.
Qed.

Lemma heap_init_holds cmp s : exists s', heap_init s = (Ok tt, s') /\ heap_holds cmp s' [].
Proof.
  eexists. split; [done|]. exists Leaf. split; [|done]. split; try done; [by constructor|].
  intros p. simpl. split; [by destruct (path p)|lia].
Qed.

Lemma heap_insert_holds cmp `{Preorder cmp} fuel x s xs : heap_holds cmp s xs -> x ∉ xs ->
  Z.of_nat (length xs) < 2 ^ 63 -> (64 <= fuel)%nat ->
  exists s', heap_insert cmp fuel x s = (Ok tt, s') /\ heap_holds cmp s' (x :: xs).
Proof.
  intros (t & Hok & Hp) Hx Hlen Hfuel.
  destruct (heap_insert_run cmp fuel x s t Hok) as (s' & t' & E & Hok' & Hp'); [by rewrite Hp| |done|].
  { unfold tsize. by rewrite Hp. } exists s'. split; [done|]. exists t'. split; [done|]. by rewrite Hp', Hp.
Qed.

Lemma heap_pop_holds cmp `{Preorder cmp} fuel s xs : heap_holds cmp s xs ->
  Z.of_nat (length xs) < 2 ^ 63 -> (length xs < fuel)%nat ->
  (xs = [] /\ heap_pop_max cmp fuel s = (Ok None, s)) \/
  exists x ys s', heap_pop_max cmp fuel s = (Ok (Some x), s') /\ xs ≡ₚ x :: ys /\ heap_holds cmp s' ys /\
    Forall (fun y => ~ 0 < cmp y x) ys.
Proof.
  intros (t & Hok & Hp) Hlen Hfuel. destruct t as [|x l r].
  - left. split; [by apply Permutation_nil_l in Hp|]. destruct Hok as [_ Hroot _ _ _ _]. unfold heap_pop_max, mbind, mget.
    by rewrite Hroot.
  - right. pose proof (ho_order _ _ _ Hok) as (Hab & _). destruct (heap_pop_run cmp fuel s x l r Hok) as (s' & t' & E & Hok' & Hp').
    { unfold tsize. by rewrite Hp. } { unfold tsize. by rewrite Hp. }
    exists x, (addrs t'), s'. split; [done|]. simpl in Hp. split; [by rewrite <- Hp, Hp'|]. split; [by exists t'|].
    by eapply above_perm.
Qed.

(** ** Properties *)

(** The pointer heap implements a priority queue: inserting an element that
    is not in the heap succeeds (no [die], no NULL dereference) and adds it. *)
Theorem heap_insert_adds cmp `{Preorder cmp} fuel x s xs : heap_holds cmp s xs -> x ∉ xs ->
  Z.of_nat (length xs) < 2 ^ 63 -> (64 <= fuel)%nat ->
  exists s', heap_insert cmp fuel x s = (Ok tt, s') /\ heap_holds cmp s' (x :: xs).
Proof. by apply heap_insert_holds. Qed.

(** [heap_pop_max] of an empty heap returns NULL; otherwise it succeeds, takes
    an element that no other is greater than, and leaves the rest. *)
Theorem heap_pop_max_greatest cmp `{Preorder cmp} fuel s xs : heap_holds cmp s xs ->
  Z.of_nat (length xs) < 2 ^ 63 -> (length xs < fuel)%nat ->
  (xs = [] /\ heap_pop_max cmp fuel s = (Ok None, s)) \/
  exists x ys s', heap_pop_max cmp fuel s = (Ok (Some x), s') /\ xs ≡ₚ x :: ys /\ heap_holds cmp s' ys /\
    Forall (fun y => ~ 0 < cmp y x) ys.
Proof. by apply heap_pop_holds. Qed.

(** ** A heap for the witnesses *)

(** The smallest address first. *)
Definition demo_cmp (x y : nat) : Z := Z.of_nat y - Z.of_nat x.

#[export] Instance demo_preorder : Preorder demo_cmp.
Proof. unfold demo_cmp. split; lia. Qed.

Definition demo_heap : hmem := mk_hmem (fun _ => mk_hn None None None) None 0.

(** Insert the elements of a list, the last one first. *)
Fixpoint insert_all (xs : list nat) : M hmem unit :=
  match xs with [] => mret tt | x :: xs' => insert_all xs' ;;; heap_insert demo_cmp 64 x end.

Lemma demo_heap_holds xs : NoDup xs -> Z.of_nat (length xs) < 2 ^ 63 ->
  exists s, insert_all xs demo_heap = (Ok tt, s) /\ heap_holds demo_cmp s xs.
Proof.
  intros Hn Hl. induction Hn as [|x xs Hx _ IH]; [by apply (heap_init_holds demo_cmp demo_heap)|]. simpl in *.
  destruct IH as (s & E & H); [lia|]. rewrite (mbind_run _ _ _ _ _ E). apply heap_insert_holds; (done || lia || apply _).
Qed.

Definition demo_three : list nat := [3; 7; 5]%nat.
Definition demo_four : list nat := [6; 3; 7; 5]%nat.

Lemma demo_four_NoDup : NoDup demo_four.
Proof. unfold demo_four. repeat constructor; set_solver. Qed.
Lemma demo_three_NoDup : NoDup demo_three.
Proof. unfold demo_three. repeat constructor; set_solver. Qed.
Lemma demo_new : 6%nat ∉ demo_three.
Proof. unfold demo_three. set_solver. Qed.
Lemma demo_length (xs : list nat) : (length xs <= 4)%nat -> Z.of_nat (length xs) < 2 ^ 63.
Proof. lia. Qed.
Lemma demo_small : (length demo_three <= 4)%nat /\ (length demo_four <= 4)%nat /\ (length demo_four < 5)%nat /\ (64 <= 64)%nat.
Proof. simpl. lia. Qed.

Lemma heap_insert_adds_witness : exists s, insert_all demo_three demo_heap = (Ok tt, s) /\
  exists s', heap_insert demo_cmp 64 6 s = (Ok tt, s') /\ heap_holds demo_cmp s' (6%nat :: demo_three).
Proof.
  destruct demo_small as (H1 & H2 & H3 & H4).
  destruct (demo_heap_holds demo_three demo_three_NoDup (demo_length _ H1)) as (s & E & Hh). exists s. split; [exact E|].
  exact (heap_insert_adds demo_cmp 64 6 s demo_three Hh demo_new (demo_length _ H1) H4).
Defined.

Lemma heap_pop_max_greatest_witness : exists s, insert_all demo_four demo_heap = (Ok tt, s) /\
  ((demo_four = [] /\ heap_pop_max demo_cmp 5 s = (Ok None, s)) \/
   exists x ys s', heap_pop_max demo_cmp 5 s = (Ok (Some x), s') /\ demo_four ≡ₚ x :: ys /\ heap_holds demo_cmp s' ys /\
    Forall (fun y => ~ 0 < demo_cmp y x) ys).
Proof.
  destruct demo_small as (H1 & H2 & H3 & H4).
  destruct (demo_heap_holds demo_four demo_four_NoDup (demo_length _ H2)) as (s & E & Hh). exists s. split; [exact E|].
  exact (heap_pop_max_greatest demo_cmp 5 s demo_four Hh (demo_length _ H2) H3).
Defined.

(** The four elements come out in order. *)
Example demo_pops : ((let* a := heap_pop_max demo_cmp 5 in let* b := heap_pop_max demo_cmp 5 in
  let* c := heap_pop_max demo_cmp 5 in let* d := heap_pop_max demo_cmp 5 in let* e := heap_pop_max demo_cmp 5 in
  mret [a; b; c; d; e]) (insert_all [6; 3; 7; 5]%nat demo_heap).2).1 = Ok [Some 3; Some 5; Some 6; Some 7; None]%nat.
Proof. vm_compute. reflexivity. Qed.
