(* ===== verification/Player.v ===== *)
(** * The player (src/emu/player.c)

    The player merges the streams of a trace by their corrected clocks: a heap
    holds the streams that have an event ready, the one with the earliest clock
    on top.  A step puts back the stream of the last event, takes the top and
    fills the event of the emulator.  Streams have addresses; the nodes of the
    heap are inside them, so they share those addresses. *)

From S2P Require Import Prelude Event Rt Stream MaxHeap.

Record player := mk_player {
  p_trace : list nat;                (* trace->streams, in order *)
  p_streams : gmap nat stream;
  p_heap : hmem;
  p_firstclock : Z;
  p_lastclock : Z;
  p_deltaclock : Z;
  p_nprocessed : Z;
  p_first_event : bool;
  p_unsorted : bool;
  p_stream : option nat;
  p_ev : emu_ev
}.

Definition set_p_streams x (p : player) : player :=
  mk_player (p_trace p) x (p_heap p) (p_firstclock p) (p_lastclock p) (p_deltaclock p) (p_nprocessed p)
    (p_first_event p) (p_unsorted p) (p_stream p) (p_ev p).
Definition set_p_heap x (p : player) : player :=
  mk_player (p_trace p) (p_streams p) x (p_firstclock p) (p_lastclock p) (p_deltaclock p) (p_nprocessed p)
    (p_first_event p) (p_unsorted p) (p_stream p) (p_ev p).
Definition set_p_nprocessed x (p : player) : player :=
  mk_player (p_trace p) (p_streams p) (p_heap p) (p_firstclock p) (p_lastclock p) (p_deltaclock p) x
    (p_first_event p) (p_unsorted p) (p_stream p) (p_ev p).
Definition set_p_first x (p : player) : player :=
  mk_player (p_trace p) (p_streams p) (p_heap p) x x (p_deltaclock p) (p_nprocessed p)
    false (p_unsorted p) (p_stream p) (p_ev p).
Definition set_p_clocks last delta (p : player) : player :=
  mk_player (p_trace p) (p_streams p) (p_heap p) (p_firstclock p) last delta (p_nprocessed p)
    (p_first_event p) (p_unsorted p) (p_stream p) (p_ev p).
Definition set_p_stream x (p : player) : player :=
  mk_player (p_trace p) (p_streams p) (p_heap p) (p_firstclock p) (p_lastclock p) (p_deltaclock p) (p_nprocessed p)
    (p_first_event p) (p_unsorted p) x (p_ev p).
Definition set_p_ev x (p : player) : player :=
  mk_player (p_trace p) (p_streams p) (p_heap p) (p_firstclock p) (p_lastclock p) (p_deltaclock p) (p_nprocessed p)
    (p_first_event p) (p_unsorted p) (p_stream p) x.

Definition load_stream (a : nat) : M player stream := let* p := mget in deref (p_streams p !! a).

(** A call on one stream, or on the heap. *)
Definition on_stream {A} (a : nat) (m : M stream A) : M player A := fun p =>
  match p_streams p !! a with
  | None => (Ub, p)
  | Some s => let '(o, s') := m s in (o, set_p_streams (<[a := s']> (p_streams p)) p)
  end.
Definition on_heap {A} (m : M hmem A) : M player A := fun p =>
  let '(o, h) := m (p_heap p) in (o, set_p_heap h p).

(** [stream_cmp]: the opposite order of the clocks, so that the heap has the
    earliest on top.  A node of the heap always belongs to a stream. *)
Definition lastclock_of (streams : gmap nat stream) (a : nat) : Z :=
  match streams !! a with Some s => stream_lastclock s | None => 0 end.
Definition stream_cmp (streams : gmap nat stream) (a b : nat) : Z :=
  let ca := lastclock_of streams a in
  let cb := lastclock_of streams b in
  if ca <? cb then 1 else if cb <? ca then -1 else 0.

Definition step_stream (a : nat) : M player Z :=
  let* s := load_stream a in
  if negb (s_active s) then mret 1 else
  let* ret := on_stream a stream_step in
  if 0 <? ret then mret ret else
  let* p := mget in
  on_heap (heap_insert (stream_cmp (p_streams p)) 64 a) ;;;
  mmod (fun p => set_p_nprocessed (p_nprocessed p + 1) p) ;;;
  mret 0.

(** One hour in nanoseconds. *)
Definition maxgate : Z := 3600 * 1000 * 1000 * 1000.

(** The loop of [check_clock_gate]: [t0] once it is known, and [ret]. *)
Fixpoint clock_gate_loop (l : list nat) (t0 : option Z) (ok : bool) : M player unit :=
  match l with
  | [] => if ok then mret tt else mfail
  | a :: l' =>
      let* s := load_stream a in
      if negb (s_active s) then clock_gate_loop l' t0 ok else
      match stream_ev s with
      | None => clock_gate_loop l' t0 ok
      | Some off =>
          let* ev := mem_at (s_buf s) off in
          let* sclock := on_stream a (stream_evclock ev) in
          let t0' := default sclock t0 in
          let* delta := add64 t0' (- sclock) in
          if delta =? - 2 ^ 63 then mub else
          clock_gate_loop l' (Some t0') (if maxgate <? Z.abs delta then false else ok)
      end
  end.

Definition check_clock_gate : M player unit :=
  let* p := mget in clock_gate_loop (p_trace p) None true.

Definition init_stream (unsorted : bool) (a : nat) : M player unit :=
  (if unsorted then on_stream a stream_allow_unsorted else mret tt) ;;;
  step_stream a ;;;
  mret tt.

Definition player_init (trace : list nat) (unsorted : bool) : M player unit :=
  mmod (fun p => mk_player trace (p_streams p) (p_heap p) 0 0 0 0 true unsorted None emu_ev_zero) ;;;
  on_heap heap_init ;;;
  for_each (init_stream unsorted) trace ;;;
  if unsorted then mret tt else check_clock_gate.

Definition update_clocks (a : nat) : M player unit :=
  let* s := load_stream a in
  let sclock := stream_lastclock s in
  let* p := mget in
  (if p_first_event p then mmod (set_p_first sclock) else mret tt) ;;;
  let* p := mget in
  if (sclock <? p_lastclock p) && negb (p_unsorted p) then mfail else
  let* delta := add64 sclock (- p_firstclock p) in
  mmod (set_p_clocks sclock delta).

(** The result is 1 when no stream has more events and 0 for an event. *)
Definition player_step : M player Z :=
  let* p := mget in
  (match p_stream p with Some a => step_stream a ;;; mret tt | None => mret tt end) ;;;
  let* p := mget in
  let* nd := on_heap (heap_pop_max (stream_cmp (p_streams p)) (S (length (p_trace p)))) in
  match nd with
  | None => mret 1
  | Some a =>
      update_clocks a ;;;
      mmod (set_p_stream (Some a)) ;;;
      let* s := load_stream a in
      let* off := deref (stream_ev s) in
      let* oev := mem_at (s_buf s) off in
      let* p := mget in
      let* ev := emu_ev_fill (p_ev p) oev (p_lastclock p) (p_deltaclock p) in
      mmod (set_p_ev ev) ;;;
      mret 0
  end.

(** [player_progress]: bytes done and in total, before their quotient. *)
Definition player_progress (p : player) : option (Z * Z) :=
  let sums := foldr (fun a acc => match p_streams p !! a with
    | Some s => (acc.1 + (stream_progress s).1, acc.2 + (stream_progress s).2) | None => acc end) (0, 0) (p_trace p) in
  if sums.2 =? 0 then None else Some sums.

Definition player_nprocessed (p : player) : Z := p_nprocessed p.
