(* ===== verification/PlayerCorrect.v ===== *)
(** * The player merges the streams (src/emu/player.c)

    With sound streams (whole records whose clocks do not go back), a step of
    the player delivers a record with the least clock among the next records of
    all streams, or says that there are none; a whole run delivers every record
    once, in order of time, and those of a stream in their order.  The heap is
    used through what MaxHeapCorrect.v promises of it. *)

From Stdlib Require Import Ascii.
From S2P Require Import Prelude Event Rt RtCorrect Stream MaxHeap MaxHeapCorrect Player.

(** ** Lifting *)

Lemma on_stream_run {A} a (m : M stream A) p s o s' : p_streams p !! a = Some s -> m s = (o, s') ->
  on_stream a m p = (o, set_p_streams (<[a := s']> (p_streams p)) p).
Proof. intros Hs E. unfold on_stream. by rewrite Hs, E. Qed.

Lemma on_heap_run {A} (m : M hmem A) p o h : m (p_heap p) = (o, h) -> on_heap m p = (o, set_p_heap h p).
Proof. intros E. unfold on_heap. by rewrite E. Qed.

Lemma load_stream_run a p s : p_streams p !! a = Some s -> load_stream a p = (Ok s, p).
Proof. intros Hs. unfold load_stream, mbind, mget. by rewrite Hs. Qed.

#[export] Instance stream_cmp_preorder streams : Preorder (stream_cmp streams).
Proof.
  unfold stream_cmp. split.
  - intros x y. destruct (Z.ltb_spec (lastclock_of streams x) (lastclock_of streams y)),
      (Z.ltb_spec (lastclock_of streams y) (lastclock_of streams x)); lia.
  - intros x y z. destruct (Z.ltb_spec (lastclock_of streams y) (lastclock_of streams x)),
      (Z.ltb_spec (lastclock_of streams x) (lastclock_of streams y)), (Z.ltb_spec (lastclock_of streams z) (lastclock_of streams y)),
      (Z.ltb_spec (lastclock_of streams y) (lastclock_of streams z)), (Z.ltb_spec (lastclock_of streams z) (lastclock_of streams x)),
      (Z.ltb_spec (lastclock_of streams x) (lastclock_of streams z)); lia.
Qed.

(** A stream outside the heap may change. *)
Lemma heap_holds_insert streams c s h xs : heap_holds (stream_cmp streams) h xs -> c ∉ xs ->
  heap_holds (stream_cmp (<[c := s]> streams)) h xs.
Proof.
  intros Hh Hc. eapply heap_holds_ext; [|exact Hh]. intros x y Hx Hy. unfold stream_cmp, lastclock_of.
  by rewrite !lookup_insert_ne by (intros ->; done).
Qed.

Lemma heap_holds_NoDup cmp h xs : heap_holds cmp h xs -> NoDup xs.
Proof. intros (t & [_ _ _ Hn _ _] & <-). done. Qed.

Section Merge.
Variables (ids : list nat) (off : nat -> Z).
Hypothesis ids_small : Z.of_nat (length ids) < 2 ^ 63.

Definition clk (a : nat) (b : list Z) : Z := rec_sclock (off a) b.

(** The stream stands at record [b], with [rest] after it. *)
Definition at_rec (a : nat) (b : list Z) (rest : list (list Z)) (s : stream) : Prop :=
  exists pre, stands_at pre b (concat rest) s /\ s_clock_offset s = off a /\ s_unsorted s = false /\
    s_lastclock s = clk a b /\ sized b /\ Forall sized rest /\ clocks_ok (off a) false (clk a b) rest.

(** The streams that are in the heap, or will be at the next step: [rem a] are
    the records of [a] not delivered yet. *)
Record sound (p : player) (rem : nat -> list (list Z)) : Prop := {
  sd_trace : p_trace p = ids;
  sd_sorted : p_unsorted p = false;
  sd_ready : forall a b rest, a ∈ ids -> p_stream p <> Some a -> rem a = b :: rest ->
    exists s, p_streams p !! a = Some s /\ at_rec a b rest s;
  sd_time : forall a b rest, a ∈ ids -> rem a = b :: rest ->
    0 <= clk a b < 2 ^ 63 /\ (p_first_event p = false -> p_lastclock p <= clk a b);
  sd_first : p_first_event p = false -> 0 <= p_firstclock p <= p_lastclock p /\ p_lastclock p < 2 ^ 63
}.

(** Between two steps: the heap holds the others, the stream of the last event
    stands at it or is at its end. *)
Record playing (p : player) (rem : nat -> list (list Z)) : Prop := {
  pl_sound : sound p rem;
  pl_heap : exists xs, heap_holds (stream_cmp (p_streams p)) (p_heap p) xs /\
    forall a, a ∈ xs <-> a ∈ ids /\ rem a <> [] /\ p_stream p <> Some a;
  pl_cur : forall c, p_stream p = Some c -> c ∈ ids /\ exists s, p_streams p !! c = Some s /\
    ((s_active s = false /\ rem c = []) \/ exists b0, at_rec c b0 (rem c) s)
}.

(** Within a step: every stream with records is in the heap. *)
Record queued (p : player) (rem : nat -> list (list Z)) : Prop := {
  qu_trace : p_trace p = ids;
  qu_sorted : p_unsorted p = false;
  qu_ready : forall a b rest, a ∈ ids -> rem a = b :: rest -> exists s, p_streams p !! a = Some s /\ at_rec a b rest s;
  qu_time : forall a b rest, a ∈ ids -> rem a = b :: rest ->
    0 <= clk a b < 2 ^ 63 /\ (p_first_event p = false -> p_lastclock p <= clk a b);
  qu_first : p_first_event p = false -> 0 <= p_firstclock p <= p_lastclock p /\ p_lastclock p < 2 ^ 63;
  qu_heap : exists xs, heap_holds (stream_cmp (p_streams p)) (p_heap p) xs /\ forall a, a ∈ xs <-> a ∈ ids /\ rem a <> [];
  qu_cur : forall c, p_stream p = Some c -> c ∈ ids /\
    (rem c = [] -> exists s, p_streams p !! c = Some s /\ s_active s = false)
}.

Lemma heap_small cmp h xs : heap_holds cmp h xs -> (forall a, a ∈ xs -> a ∈ ids) -> (length xs <= length ids)%nat.
Proof. intros Hh Hin. apply submseteq_length, NoDup_submseteq; [by eapply heap_holds_NoDup|done]. Qed.

(** The step of a stream that stands at a record. *)
Lemma at_rec_next a b b' rest s : at_rec a b (b' :: rest) s ->
  exists s', stream_step s = (Ok 0, s') /\ at_rec a b' rest s' /\ s_active s = true.
Proof.
  intros (pre & Hat & Eo & Eu & El & Hz & Hzs & Hcl). apply list.Forall_cons in Hzs as [Hz' Hzs].
  destruct Hcl as (C1 & C2 & C3 & Hcl).
  destruct (stream_step_next pre b b' (concat rest) s Hz Hz') as (s' & E & Hat' & Eo' & Eu' & El').
  { done. } { rewrite Eo, Eu, El. by split_and!. }
  exists s'. split; [done|]. split; [|apply Hat]. exists (pre ++ b). rewrite Eo', Eu', El', Eo, Eu. by split_and!.
Qed.

Lemma at_rec_last a b s : at_rec a b [] s -> exists s', stream_step s = (Ok 1, s') /\ s_active s' = false /\ s_active s = true.
Proof.
  intros (pre & Hat & _ & _ & _ & Hz & _). destruct (stream_step_last pre b s Hz Hat) as (s' & E & A).
  exists s'. split; [done|]. split; [done|apply Hat].
Qed.

(** [step_stream] of a stream whose next record is [b]. *)
Lemma step_stream_inserts a b rest p s s' xs : p_streams p !! a = Some s -> s_active s = true ->
  stream_step s = (Ok 0, s') -> at_rec a b rest s' -> heap_holds (stream_cmp (p_streams p)) (p_heap p) xs ->
  a ∉ xs -> (forall x, x ∈ xs -> x ∈ ids) -> exists p', step_stream a p = (Ok 0, p') /\
    p_streams p' = <[a := s']> (p_streams p) /\ heap_holds (stream_cmp (p_streams p')) (p_heap p') (a :: xs) /\
    (p_trace p', p_unsorted p', p_first_event p', p_lastclock p', p_firstclock p', p_stream p') =
    (p_trace p, p_unsorted p, p_first_event p, p_lastclock p, p_firstclock p, p_stream p).
Proof.
  intros Hs Ha E Hat Hh Hax Hin. unfold step_stream. rewrite (mbind_run _ _ _ _ _ (load_stream_run a p s Hs)).
  rewrite Ha. change (negb true) with false. cbv iota. rewrite (mbind_run _ _ _ _ _ (on_stream_run _ _ _ _ _ _ Hs E)).
  change (0 <? 0) with false. cbv iota. set (p1 := set_p_streams _ p). rewrite (mbind_run mget _ p1 p1 p1) by done.
  apply (heap_holds_insert _ a s') in Hh; [|done]. change (p_streams p1) with (<[a := s']> (p_streams p)).
  pose proof (heap_small _ _ _ Hh Hin) as Hlen.
  destruct (heap_insert_holds _ 64 a _ xs Hh Hax) as (h & Eh & Hh'); [lia|lia|].
  rewrite (mbind_run _ _ _ _ _ (on_heap_run _ p1 _ _ Eh)), (mbind_run (mmod _) _ _ _ _ eq_refl).
  eexists. split; [done|]. by split_and!.
Qed.

Lemma requeue_run p rem : playing p rem ->
  exists p', (match p_stream p with Some a => step_stream a ;;; mret tt | None => mret tt end) p = (Ok tt, p') /\ queued p' rem.
Proof.
  intros [[Etr Eun Hready Htime Hfirst] (xs & Hh & Hxs) Hcur]. destruct (p_stream p) as [c|] eqn:Ec.
  2:{ exists p. split; [done|]. split; try done.
      - intros a b rest Ha. by apply Hready.
      - exists xs. split; [done|]. intros a. rewrite Hxs. naive_solver.
      - congruence. }
  destruct (Hcur c eq_refl) as (Hc & s & Hs & Hst).
  assert (c ∉ xs) as Hcx by (rewrite Hxs; naive_solver).
  assert (forall a, a ∈ xs -> a ∈ ids) as Hin by (intros a; rewrite Hxs; tauto).
  destruct Hst as [[Hact Hrem]|[b0 Hat]].
  { unfold step_stream. exists p. rewrite mbind_assoc, (mbind_run _ _ _ _ _ (load_stream_run c p s Hs)). rewrite Hact. split; [done|].
    split; try done.
    - intros a b rest Ha Hr. apply Hready; [done| |done]. intros [= ->]. congruence.
    - exists xs. split; [done|]. intros a. rewrite Hxs. split; [tauto|]. intros [? ?]. split_and!; [done..|congruence].
    - intros c' E. rewrite Ec in E. injection E as <-. split; [done|]. intros _. by exists s. }
  destruct (rem c) as [|b' rest'] eqn:Hrem.
  - destruct (at_rec_last c b0 s Hat) as (s' & E & Hina & Ha). unfold step_stream.
    rewrite mbind_assoc, (mbind_run _ _ _ _ _ (load_stream_run c p s Hs)). rewrite Ha. change (negb true) with false. cbv iota.
    rewrite mbind_assoc, (mbind_run _ _ _ _ _ (on_stream_run _ _ _ _ _ _ Hs E)).
    change (0 <? 1) with true. cbv iota. eexists. split; [done|]. split; simpl; try done.
    + intros a b rest Ha' Hr. rewrite lookup_insert_ne by congruence. apply Hready; [done|congruence|done].
    + exists xs. split; [by apply heap_holds_insert|]. intros a. rewrite Hxs. split; [tauto|]. intros [? ?]. split_and!; [done..|congruence].
    + intros c' E'. rewrite Ec in E'. injection E' as <-. split; [done|]. intros _. exists s'. by rewrite lookup_insert_eq.
  - destruct (at_rec_next c b0 b' rest' s Hat) as (s' & E & Hat' & Ha).
    destruct (step_stream_inserts c b' rest' p s s' xs) as (p' & E' & Est & Hh' & Eq); [done..|].
    injection Eq as E1 E2 E3 E4 E5 E6. exists p'. rewrite (mbind_run _ _ _ _ _ E'). split; [done|]. split.
    + congruence.
    + congruence.
    + intros a b rest Ha' Hr. rewrite Est. destruct (decide (a = c)) as [->|Hac].
      * rewrite lookup_insert_eq. exists s'. split; [done|]. rewrite Hrem in Hr. by injection Hr as <- <-.
      * rewrite lookup_insert_ne by done. apply Hready; [done|congruence|done].
    + intros a b rest Ha' Hr. rewrite E3, E4. by apply Htime with rest.
    + by rewrite E3, E4, E5.
    + exists (c :: xs). split; [done|]. intros a. rewrite elem_of_cons, Hxs. split.
      * intros [->|?]; [|tauto]. split; [done|congruence].
      * intros [? ?]. destruct (decide (a = c)) as [->|]; [by left|right]. split_and!; [done..|congruence].
    + intros c' E''. rewrite E6, Ec in E''. injection E'' as <-. split; [done|]. congruence.
Qed.

(** The records left once one of [m] was delivered. *)
Definition delivered (rem : nat -> list (list Z)) (m : nat) (rest : list (list Z)) : nat -> list (list Z) :=
  fun a => if decide (a = m) then rest else rem a.

Lemma delivered_eq rem m rest : delivered rem m rest m = rest.
Proof. unfold delivered. by rewrite decide_True. Qed.
Lemma delivered_ne rem m rest a : a <> m -> delivered rem m rest a = rem a.
Proof. intros. unfold delivered. by rewrite decide_False. Qed.

(** The event of record [b] of stream [a]. *)
Definition event_of (a : nat) (b : list Z) (ev : emu_ev) : Prop :=
  exists ev0 more d, ev = rec_event ev0 b more (clk a b) d.

Lemma clk_le streams y m sy sm : ~ 0 < stream_cmp streams y m -> streams !! y = Some sy -> streams !! m = Some sm ->
  s_lastclock sm <= s_lastclock sy.
Proof.
  unfold stream_cmp, lastclock_of, stream_lastclock. intros H Ey Em. rewrite Ey, Em in H.
  destruct (Z.ltb_spec (s_lastclock sy) (s_lastclock sm)); lia.
Qed.

Lemma update_clocks_run m s p : p_streams p !! m = Some s -> p_unsorted p = false -> 0 <= s_lastclock s < 2 ^ 63 ->
  (p_first_event p = false -> 0 <= p_firstclock p <= p_lastclock p /\ p_lastclock p <= s_lastclock s) ->
  exists f, 0 <= f <= s_lastclock s /\ update_clocks m p = (Ok tt, mk_player (p_trace p) (p_streams p) (p_heap p) f
    (s_lastclock s) (s_lastclock s - f) (p_nprocessed p) false (p_unsorted p) (p_stream p) (p_ev p)).
Proof.
  intros Hs Hu Hr Hf. unfold update_clocks. rewrite (mbind_run _ _ _ _ _ (load_stream_run m p s Hs)). cbv zeta. unfold stream_lastclock.
  rewrite (mbind_run mget _ p p p) by done. set (f := if p_first_event p then s_lastclock s else p_firstclock p). exists f.
  set (p1 := if p_first_event p then set_p_first (s_lastclock s) p else p).
  rewrite (mbind_run _ _ p tt p1) by (unfold p1; by destruct (p_first_event p)).
  rewrite (mbind_run mget _ p1 p1 p1) by done.
  assert (0 <= p_firstclock p1 <= s_lastclock s /\ p_lastclock p1 <= s_lastclock s /\ p_firstclock p1 = f) as (H1 & H2 & H3).
  { unfold p1, f. destruct (p_first_event p); simpl; [lia|]. specialize (Hf eq_refl). lia. }
  split; [lia|]. rewrite (proj2 (Z.ltb_ge _ _)) by lia. cbn [andb].
  rewrite (mbind_run _ _ p1 (s_lastclock s + - p_firstclock p1) p1) by (apply add64_run; unfold in_s; lia).
  unfold mmod. f_equal. rewrite H3. unfold set_p_clocks, p1, f in *. destruct p as [? ? ? ? ? ? ? [] ? ? ?]; simpl in *; f_equal; lia.
Qed.

Definition deliver : M player Z :=
  let* p := mget in
  let* nd := on_heap (heap_pop_max (stream_cmp (p_streams p)) (S (length (p_trace p)))) in
  match nd with
  | None => mret 1
  | Some a =>
      update_clocks a ;;;
      mmod (set_p_stream (Some a)) ;;;
      let* s := load_stream a in
      let* off := deref (stream_ev s) in
      let* oev := mem_at (s_buf s) off in
      let* p := mget in
      let* ev := emu_ev_fill (p_ev p) oev (p_lastclock p) (p_deltaclock p) in
      mmod (set_p_ev ev) ;;;
      mret 0
  end.

(** What [player_step] promises: it is the step of a merge by clocks. *)
Definition merge_step (rem : nat -> list (list Z)) (o : outcome Z) (p' : player) : Prop :=
  (o = Ok 1 /\ (forall a, a ∈ ids -> rem a = []) /\ playing p' rem) \/
  exists m b rest, o = Ok 0 /\ m ∈ ids /\ rem m = b :: rest /\
    (forall a b' rest', a ∈ ids -> rem a = b' :: rest' -> clk m b <= clk a b') /\
    p_stream p' = Some m /\ p_lastclock p' = clk m b /\ p_first_event p' = false /\ event_of m b (p_ev p') /\
    playing p' (delivered rem m rest).

Lemma deliver_run p rem : queued p rem -> exists o p', deliver p = (o, p') /\ merge_step rem o p'.
Proof.
  intros [Etr Eun Hready Htime Hfirst (xs & Hh & Hxs) Hcur]. unfold deliver. rewrite (mbind_run mget _ p p p) by done.
  assert (forall a, a ∈ xs -> a ∈ ids) as Hin by (intros a; rewrite Hxs; tauto).
  pose proof (heap_small _ _ _ Hh Hin) as Hlen. rewrite Etr.
  destruct (heap_pop_holds _ (S (length ids)) _ xs Hh ltac:(lia) ltac:(lia)) as [[-> E]|(m & ys & h & E & Hp & Hh' & Hmin)].
  - rewrite (mbind_run _ _ _ _ _ (on_heap_run _ p _ _ E)). exists (Ok 1), p. split; [by destruct p|]. left. split; [done|].
    assert (forall a, a ∈ ids -> rem a = []) as Hnil.
    { intros a Ha. destruct (rem a) eqn:Er; [done|]. assert (a ∈ @nil nat) as H; [|by apply elem_of_nil in H]. apply Hxs. by rewrite Er. }
    split; [done|]. split.
    + split; try done. intros a b rest Ha _. by apply Hready.
    + exists []. split; [done|]. intros a. rewrite elem_of_nil. split; [done|]. intros (Ha & Hr & _). by rewrite Hnil in Hr.
    + intros c Ec. destruct (Hcur c Ec) as [Hc Hs]. split; [done|]. destruct (Hs (Hnil c Hc)) as (s & Hs' & Hact).
      exists s. split; [done|]. left. split; [done|]. by apply Hnil.
  - rewrite (mbind_run _ _ _ _ _ (on_heap_run _ p _ _ E)). set (p1 := set_p_heap h p).
    assert (m ∈ xs) as Hmx by (rewrite Hp; by left). pose proof (proj1 (Hxs m) Hmx) as [Hm Hrem].
    destruct (rem m) as [|b rest] eqn:Er; [done|]. destruct (Hready m b rest Hm Er) as (s & Hs & Hat).
    pose proof Hat as (pre & (Hb & Hsz & Ha & Ho & Hc) & Eo & Eu & El & Hz & Hzs & Hcl).
    destruct (Htime m b rest Hm Er) as [Ht1 Ht2].
    destruct (update_clocks_run m s p1) as (f & Hf & Eup); [done|done|by rewrite El| |].
    { rewrite El. intros Hfe. destruct (Hfirst Hfe) as [H0 _]. split; [exact H0|exact (Ht2 Hfe)]. }
    rewrite (mbind_run _ _ _ _ _ Eup), (mbind_run (mmod _) _ _ _ _ eq_refl). set (p2 := set_p_stream _ _).
    rewrite (mbind_run _ _ _ _ _ (load_stream_run m p2 s Hs)). unfold stream_ev. rewrite Hc.
    rewrite (mbind_run _ _ p2 (s_offset s) p2) by done.
    rewrite Hb, Ho, (mbind_run _ _ _ _ _ (mem_at_app pre (b ++ concat rest) p2)). rewrite (mbind_run mget _ p2 p2 p2) by done.
    rewrite (mbind_run _ _ _ _ _ (emu_ev_fill_run _ b (concat rest) _ _ p2 Hz)), (mbind_run (mmod _) _ _ _ _ eq_refl).
    eexists _, _. split; [done|]. right. exists m, b, rest.
    assert (forall a b' rest', a ∈ ids -> rem a = b' :: rest' -> clk m b <= clk a b') as Hleast.
    { intros a b' rest' Ha' Er'. destruct (decide (a = m)) as [->|Ham]; [rewrite Er in Er'; injection Er' as -> ->; lia|].
      destruct (Hready a b' rest' Ha' Er') as (s' & Hs' & (? & _ & _ & _ & El' & _)). rewrite <- El, <- El'.
      eapply clk_le; [|exact Hs'|exact Hs]. eapply (proj1 (list.Forall_forall _ _) Hmin).
      assert (a ∈ xs) as Hax by (apply Hxs; by rewrite Er'). rewrite Hp in Hax. by apply elem_of_cons in Hax as [->|?]. }
    split; [done|]. split; [done|]. split; [done|]. split; [done|]. split; [done|].
    split; [by simpl; rewrite El|]. split; [done|]. split; [eexists _, _, _; simpl; by rewrite El|].
    split.
    + split; simpl; [done|done|..].
      * intros a b' rest' Ha' Hne. rewrite delivered_ne by congruence. by apply Hready.
      * intros a b' rest' Ha' Er'. rewrite El. destruct (decide (a = m)) as [->|Ham].
        -- rewrite delivered_eq in Er'. subst rest. destruct Hcl as (C1 & C2 & [|C3] & _); [done|]. unfold clk in *. unfold in_s in C1.
           split; [|intros _; lia]. lia.
        -- rewrite delivered_ne in Er' by done. split; [by eapply Htime|]. intros _. by eapply Hleast.
      * intros _. rewrite El in Hf |- *. lia.
    + exists ys. split; [done|]. intros a. simpl.
      pose proof (heap_holds_NoDup _ _ _ Hh) as Hn. rewrite Hp in Hn. apply list.NoDup_cons in Hn as [Hmy _].
      pose proof (Hxs a) as Ha'. rewrite Hp, elem_of_cons in Ha'. split.
      * intros Hay. assert (a <> m) by (intros ->; done). rewrite delivered_ne by done. split_and!; [tauto|tauto|congruence].
      * intros (H1 & H2 & H3). assert (a <> m) as Ham by congruence. rewrite delivered_ne in H2 by done. tauto.
    + intros c [= <-]. split; [done|]. exists s. split; [done|]. right. exists b. by rewrite delivered_eq.
Qed.

Lemma player_step_run p rem : playing p rem -> exists o p', player_step p = (o, p') /\ merge_step rem o p'.
Proof.
  intros Hpl. destruct (requeue_run p rem Hpl) as (p1 & E1 & Hq). destruct (deliver_run p1 rem Hq) as (o & p2 & E2 & H).
  exists o, p2. split; [|done]. unfold player_step. rewrite (mbind_run mget _ p p p) by done.
  rewrite (mbind_run _ _ _ _ _ E1). exact E2.
Qed.

(** ** Whole runs *)

(** Step to the end: stream, clock and event of each step. *)
Fixpoint play_all (k : nat) : M player (list (nat * Z * emu_ev)) :=
  match k with
  | O => mfuel
  | S k' =>
      let* ret := player_step in
      if 0 <? ret then mret [] else
      let* p := mget in
      let* a := deref (p_stream p) in
      let* out := play_all k' in
      mret ((a, p_lastclock p, p_ev p) :: out)
  end.

(** An output that delivers the records of [rem]: each of the streams is there,
    in order, and the clocks do not go back. *)
Definition merges (rem : nat -> list (list Z)) (out : list (nat * Z * emu_ev)) : Prop :=
  Forall (fun e => e.1.1 ∈ ids) out /\ StronglySorted (fun e e' => e.1.2 <= e'.1.2) out /\
  forall a, a ∈ ids -> Forall2 (fun b e => e.1.2 = clk a b /\ event_of a b e.2) (rem a) (filter (fun e => e.1.1 = a) out).

Definition left_records (rem : nat -> list (list Z)) : nat := sum_list (map (fun a => length (rem a)) ids).

Lemma left_delivered rem m b rest : NoDup ids -> m ∈ ids -> rem m = b :: rest ->
  left_records rem = S (left_records (delivered rem m rest)).
Proof.
  unfold left_records. clear ids_small. intros Hn Hm Er. induction Hn as [|a l Ha Hn IH]; [by apply elem_of_nil in Hm|]. simpl.
  apply elem_of_cons in Hm as [->|Hm].
  - rewrite delivered_eq, Er. simpl. f_equal. f_equal. f_equal. apply map_ext_in. intros a' Hin. rewrite delivered_ne; [done|].
    intros ->. apply Ha. by apply list_elem_of_In.
  - rewrite (IH Hm). rewrite delivered_ne; [lia|]. by intros ->.
Qed.
Lemma filter_eq m (e : nat * Z * emu_ev) out : e.1.1 = m -> filter (fun e => e.1.1 = m) (e :: out) = e :: filter (fun e => e.1.1 = m) out.
Proof. intros H. by rewrite filter_cons_True. Qed.

Lemma merges_cons rem m b rest ev out : m ∈ ids -> rem m = b :: rest -> event_of m b ev ->
  merges (delivered rem m rest) out -> Forall (fun e => clk m b <= e.1.2) out -> merges rem ((m, clk m b, ev) :: out).
Proof.
  intros Hm Er Hev (H1 & H2 & H3) Hle. split; [by constructor|]. split; [by constructor|]. intros a Ha. specialize (H3 a Ha).
  destruct (decide (a = m)) as [->|Ham].
  - rewrite delivered_eq in H3. rewrite filter_cons_True by done. rewrite Er. by constructor.
  - rewrite delivered_ne in H3 by done. rewrite filter_cons_False by (simpl; congruence). done.
Qed.

Lemma play_all_run k : NoDup ids -> forall p rem, playing p rem -> (left_records rem < k)%nat ->
  exists out p', play_all k p = (Ok out, p') /\ merges rem out /\
    forall t, (forall a b rest, a ∈ ids -> rem a = b :: rest -> t <= clk a b) -> Forall (fun e => t <= e.1.2) out.
Proof.
  intros Hn. induction k as [|k IH]; intros p rem Hpl Hk; [lia|]. cbn [play_all].
  destruct (player_step_run p rem Hpl) as (o & p1 & E1 & [(-> & Hnil & _)|(m & b & rest & -> & Hm & Er & Hleast & Es & El & Ef & Hev & Hpl1)]);
    rewrite (mbind_run _ _ _ _ _ E1).
  - exists [], p1. split; [done|]. split; [|by constructor]. split; [by constructor|]. split; [by constructor|].
    intros a Ha. rewrite (Hnil a Ha). constructor.
  - change (0 <? 0) with false. cbv iota. rewrite (mbind_run mget _ p1 p1 p1) by done. rewrite Es, El.
    rewrite (mbind_run _ _ p1 m p1) by done. rewrite (left_delivered rem m b rest Hn Hm Er) in Hk.
    destruct (IH p1 _ Hpl1) as (out & p2 & E2 & Hmg & Hlow); [lia|]. rewrite (mbind_run _ _ _ _ _ E2).
    assert (Forall (fun e => clk m b <= e.1.2) out) as Hout.
    { apply Hlow. intros a b' rest' Ha Er'. destruct Hpl1 as [[_ _ _ Ht _] _ _]. destruct (Ht a b' rest' Ha Er') as [_ H].
      rewrite <- El. by apply H. }
    eexists _, p2. split; [done|]. split; [by apply (merges_cons rem m b rest)|]. intros t Ht.
    constructor; [by eapply Ht|]. eapply list.Forall_impl; [exact Hout|]. intros e. simpl. specialize (Ht m b rest Hm Er). lia.
Qed.
End Merge.

(** ** The start *)

Section Start.
Variables (ids : list nat) (off : nat -> Z) (recs : nat -> list (list Z)).
Hypothesis ids_small : Z.of_nat (length ids) < 2 ^ 63.
Hypothesis ids_NoDup : NoDup ids.
Hypothesis recs_sized : forall a, a ∈ ids -> Forall sized (recs a).
Hypothesis recs_clocks : forall a, a ∈ ids -> clocks_ok (off a) false 0 (recs a).
(** The first clocks are within an hour of each other. *)
Hypothesis recs_gate : forall a a' b b' rest rest', a ∈ ids -> a' ∈ ids -> recs a = b :: rest -> recs a' = b' :: rest' ->
  Z.abs (clk off a b - clk off a' b') <= maxgate.

Definition fresh_stream (a : nat) : stream := opened (stream_header ++ concat (recs a)) (off a) false.

Lemma opened_step a b rest : a ∈ ids -> recs a = b :: rest -> s_active (fresh_stream a) = true /\
  exists s', stream_step (fresh_stream a) = (Ok 0, s') /\ at_rec off a b rest s'.
Proof.
  intros Ha Er. pose proof (recs_sized a Ha) as Hz. pose proof (recs_clocks a Ha) as Hcl. rewrite Er in Hz, Hcl.
  apply list.Forall_cons in Hz as [Hb Hz]. destruct Hcl as (C1 & C2 & C3 & Hcl).
  unfold fresh_stream. rewrite Er. simpl concat. set (s0 := opened _ _ _).
  assert (s_active s0 = true) as Hact.
  { unfold s0; simpl. rewrite Z.ltb_lt, length_app. pose proof (proj1 (proj2 Hb)). lia. }
  split; [done|]. pose proof (load_event_run stream_header b (concat rest) s0 Hb eq_refl eq_refl eq_refl) as El.
  eexists. split.
  - unfold stream_step. rewrite (mbind_run mget _ s0 s0 s0) by done. rewrite Hact. apply El. by split_and!.
  - exists stream_header. by split_and!.
Qed.

Lemma fresh_empty a : recs a = [] -> s_active (fresh_stream a) = false.
Proof. intros Er. unfold fresh_stream. by rewrite Er. Qed.

(** The streams of [l] were stepped, the others not. *)
Record started (l : list nat) (p : player) : Prop := {
  st_fields : (p_trace p, p_unsorted p, p_stream p, p_first_event p) = (ids, false, None, true);
  st_heap : exists xs, heap_holds (stream_cmp (p_streams p)) (p_heap p) xs /\ forall a, a ∈ xs <-> a ∈ l /\ recs a <> [];
  st_ready : forall a b rest, a ∈ l -> recs a = b :: rest -> exists s, p_streams p !! a = Some s /\ at_rec off a b rest s;
  st_fresh : forall a, a ∈ ids -> (a ∉ l \/ recs a = []) -> p_streams p !! a = Some (fresh_stream a)
}.

Lemma init_stream_run l a p : started l p -> a ∈ ids -> a ∉ l -> (forall x, x ∈ l -> x ∈ ids) ->
  exists p', init_stream false a p = (Ok tt, p') /\ started (l ++ [a]) p'.
Proof.
  intros [Hf (xs & Hh & Hxs) Hready Hfresh] Ha Hal Hl. unfold init_stream. rewrite (mbind_run _ _ p tt p) by done.
  pose proof (Hfresh a Ha (or_introl Hal)) as Hs. destruct (recs a) as [|b rest] eqn:Er.
  - unfold step_stream. rewrite mbind_assoc, (mbind_run _ _ _ _ _ (load_stream_run a p _ Hs)), (fresh_empty a Er).
    exists p. split; [done|]. split; [done|..].
    + exists xs. split; [done|]. intros x. rewrite Hxs, elem_of_app, list_elem_of_singleton. split; [tauto|].
      intros [[?| ->] Hr]; [done|by rewrite Er in Hr].
    + intros x b rest. rewrite elem_of_app, list_elem_of_singleton. intros [Hx| ->]; [by apply Hready|congruence].
    + intros x Hx. rewrite elem_of_app, list_elem_of_singleton. intros H. apply Hfresh; [done|]. tauto.
  - destruct (opened_step a b rest Ha Er) as (Hact & s' & E & Hat).
    destruct (step_stream_inserts ids off ids_small a b rest p _ s' xs Hs Hact E Hat Hh) as (p' & E' & Est & Hh' & Eq).
    { rewrite Hxs. tauto. } { intros x. rewrite Hxs. naive_solver. }
    injection Eq as E1 E2 E3 E4 E5 E6. rewrite (mbind_run _ _ _ _ _ E'). exists p'. split; [done|].
    injection Hf as F1 F2 F3 F4. split.
    + congruence.
    + exists (a :: xs). split; [done|]. intros x. rewrite elem_of_cons, Hxs, elem_of_app, list_elem_of_singleton. split.
      * intros [->|?]; [split; [by right|congruence]|tauto].
      * intros [[?| ->] ?]; [tauto|by left].
    + intros x b' rest'. rewrite elem_of_app, list_elem_of_singleton, Est. intros Hx Er'. destruct (decide (x = a)) as [->|Hxa].
      * rewrite lookup_insert_eq. exists s'. split; [done|]. rewrite Er in Er'. by injection Er' as <- <-.
      * rewrite lookup_insert_ne by done. apply Hready; [|done]. by destruct Hx.
    + intros x Hx. rewrite elem_of_app, list_elem_of_singleton, Est. intros H. rewrite lookup_insert_ne.
      * apply Hfresh; [done|]. tauto.
      * intros <-. destruct H as [H|H]; [apply H; by right|congruence].
Qed.

Lemma init_streams_run l' : forall l p, l ++ l' = ids -> started l p ->
  exists p', for_each (init_stream false) l' p = (Ok tt, p') /\ started ids p'.
Proof.
  induction l' as [|a l' IH]; intros l p Hl Hst; simpl; [exists p; rewrite app_nil_r in Hl; by subst|].
  assert (a ∉ l) as Hal. { pose proof ids_NoDup as Hn. rewrite <- Hl in Hn. apply list.NoDup_app in Hn as (_ & Hd & _). intros H. apply (Hd a H). by left. }
  destruct (init_stream_run l a p Hst) as (p1 & E1 & Hst1).
  { rewrite <- Hl. apply elem_of_app. right. by left. } { done. } { intros x Hx. rewrite <- Hl. apply elem_of_app. by left. }
  rewrite (mbind_run _ _ _ _ _ E1). apply (IH (l ++ [a])); [|done]. by rewrite <- app_assoc.
Qed.

Lemma recs_bound a b rest : a ∈ ids -> recs a = b :: rest -> 0 <= clk off a b < 2 ^ 63.
Proof.
  intros Ha Er. pose proof (recs_clocks a Ha) as Hcl. rewrite Er in Hcl. destruct Hcl as (C1 & _ & [|C3] & _); [done|].
  unfold in_s, clk in *. lia.
Qed.

Lemma clock_gate_run p l t0 : started ids p -> (forall a, a ∈ l -> a ∈ ids) ->
  (forall t, t0 = Some t -> exists a b rest, a ∈ ids /\ recs a = b :: rest /\ t = clk off a b) ->
  clock_gate_loop l t0 true p = (Ok tt, p).
Proof.
  intros [_ _ Hready Hfresh]. revert t0. induction l as [|a l IH]; intros t0 Hl Ht0; [done|]. cbn [clock_gate_loop].
  assert (a ∈ ids) as Ha by (apply Hl; by left). assert (forall x, x ∈ l -> x ∈ ids) as Hl' by (intros x Hx; apply Hl; by right).
  destruct (recs a) as [|b rest] eqn:Er.
  - rewrite (mbind_run _ _ _ _ _ (load_stream_run a p _ (Hfresh a Ha (or_intror Er)))), (fresh_empty a Er).
    by apply IH.
  - destruct (Hready a b rest Ha Er) as (s & Hs & (pre & (Hb & Hsz & Hact & Ho & Hc) & Eo & Eu & El & Hz & _)).
    rewrite (mbind_run _ _ _ _ _ (load_stream_run a p _ Hs)), Hact. change (negb true) with false. cbv iota.
    unfold stream_ev. rewrite Hc, Hb, Ho, (mbind_run _ _ _ _ _ (mem_at_app pre (b ++ concat rest) p)).
    pose proof (recs_bound a b rest Ha Er) as Hbd.
    assert (stream_evclock (b ++ concat rest) s = (Ok (clk off a b), s)) as Ecl.
    { unfold stream_evclock. rewrite (mbind_run mget _ s s s) by done. rewrite (mbind_run _ _ _ _ _ (sized_clock b _ s Hz)).
      rewrite Eo. unfold clk, rec_sclock in *. apply add64_run. unfold in_s. lia. }
    rewrite (mbind_run _ _ _ _ _ (on_stream_run _ _ _ _ _ _ Hs Ecl)). rewrite insert_id by done.
    replace (set_p_streams (p_streams p) p) with p by (by destruct p). cbv zeta.
    set (t := default (clk off a b) t0).
    assert (exists a0 b0 rest0, a0 ∈ ids /\ recs a0 = b0 :: rest0 /\ t = clk off a0 b0) as (a0 & b0 & rest0 & Ha0 & Er0 & Et).
    { unfold t. destruct t0 as [t0|]; simpl; [by apply Ht0|by exists a, b, rest]. }
    pose proof (recs_bound a0 b0 rest0 Ha0 Er0) as Hbd0. pose proof (recs_gate a0 a b0 b rest0 rest Ha0 Ha Er0 Er) as Hg.
    rewrite (mbind_run _ _ _ _ _ (add64_run t (- clk off a b) p ltac:(unfold in_s; lia))).
    rewrite (proj2 (Z.eqb_neq _ _)) by lia. rewrite (proj2 (Z.ltb_ge _ _)) by (rewrite Et; unfold Z.sub in Hg; lia).
    apply IH; [done|]. intros t1 [= <-]. by exists a0, b0, rest0.
Qed.

Lemma player_init_run p : (forall a, a ∈ ids -> p_streams p !! a = Some (fresh_stream a)) ->
  exists p', player_init ids false p = (Ok tt, p') /\ playing ids off p' recs.
Proof.
  intros Hs. unfold player_init. rewrite (mbind_run (mmod _) _ _ _ _ eq_refl). set (p1 := mk_player _ _ _ _ _ _ _ _ _ _ _).
  destruct (heap_init_holds (stream_cmp (p_streams p1)) (p_heap p1)) as (h & Eh & Hh).
  rewrite (mbind_run _ _ _ _ _ (on_heap_run _ p1 _ _ Eh)).
  destruct (init_streams_run ids [] (set_p_heap h p1) eq_refl) as (p2 & E2 & Hst).
  { split; [done|..].
    - exists []. split; [done|]. intros a. rewrite elem_of_nil. tauto.
    - intros a b rest H. by apply elem_of_nil in H.
    - intros a Ha _. by apply Hs. }
  rewrite (mbind_run _ _ _ _ _ E2). exists p2. split.
  - unfold check_clock_gate. rewrite (mbind_run mget _ p2 p2 p2) by done. pose proof (st_fields _ _ Hst) as Hf.
    injection Hf as -> _ _ _. by apply clock_gate_run.
  - destruct Hst as [Hf (xs & Hh' & Hxs) Hready Hfresh]. injection Hf as F1 F2 F3 F4. split.
    + split; [done|done|..|congruence].
      * intros a b rest Ha _ Er. by apply Hready.
      * intros a b rest Ha Er. split; [by eapply recs_bound|congruence].
    + exists xs. split; [done|]. intros a. rewrite Hxs, F3. naive_solver.
    + congruence.
Qed.
End Start.

(** ** Properties *)

(** A step of the player is a step of a merge by clocks.  Between two steps
    of a sound trace, [player_step] either reports the end, when no stream has
    records left, or takes the next record of a stream such that no stream's
    next record has an earlier clock, and hands its event to the emulator; the
    state it leaves is sound for the records that remain. *)
Theorem player_step_merges ids off p rem : Z.of_nat (length ids) < 2 ^ 63 -> playing ids off p rem ->
  exists o p', player_step p = (o, p') /\ merge_step ids off rem o p'.
Proof. intros Hs. by apply player_step_run. Qed.

(** C24. The player delivers the whole trace in order of time.  If the streams of a
    trace hold whole records whose corrected clocks fit in 64 bits and do not go
    back, and the first ones are within an hour, then the player starts, its
    steps end, the clocks of the events never go back, and the events of each
    stream are those of its records, all of them and in order. *)
Theorem player_merges ids off recs p k : Z.of_nat (length ids) < 2 ^ 63 -> NoDup ids ->
  (forall a, a ∈ ids -> Forall sized (recs a) /\ clocks_ok (off a) false 0 (recs a) /\
    p_streams p !! a = Some (opened (stream_header ++ concat (recs a)) (off a) false)) ->
  (forall a a' b b' rest rest', a ∈ ids -> a' ∈ ids -> recs a = b :: rest -> recs a' = b' :: rest' ->
    Z.abs (clk off a b - clk off a' b') <= maxgate) ->
  (left_records ids recs < k)%nat ->
  exists out p', (player_init ids false ;;; play_all k) p = (Ok out, p') /\ merges ids off recs out.
Proof.
  intros Hsm Hn Hr Hg Hk. destruct (player_init_run ids off recs Hsm Hn) with (p := p) as (p1 & E1 & Hpl).
  - intros a Ha. by apply Hr.
  - intros a Ha. by apply Hr.
  - done.
  - intros a Ha. by apply Hr.
  - destruct (play_all_run ids off Hsm k Hn p1 recs Hpl Hk) as (out & p2 & E2 & Hm & _).
    exists out, p2. rewrite (mbind_run _ _ _ _ _ E1). by split.
Qed.

(** ** A trace for the witnesses *)

Definition demo_rec (c : Z) : list Z := ev_bytes (header_ev "O" "B" "." c).

Lemma demo_rec_sized c : sized (demo_rec c).
Proof. apply ev_bytes_sized, header_ev_struct. Qed.

Lemma demo_recs_sized l : Forall sized (map demo_rec l).
Proof. induction l as [|c l IH]; simpl; [by apply list.Forall_nil|]. apply list.Forall_cons. split; [apply demo_rec_sized|done]. Qed.

Definition demo_ids : list nat := [4; 9]%nat.
Definition demo_off (a : nat) : Z := if decide (a = 9%nat) then -5 else 0.
Definition demo_recs (a : nat) : list (list Z) := map demo_rec (if decide (a = 9%nat) then [10; 15; 50] else [7; 20; 30]).
Definition demo_file (a : nat) : list Z := stream_header ++ concat (demo_recs a).
Definition demo_player : player :=
  mk_player [] {[ 4%nat := opened (demo_file 4) (demo_off 4) false; 9%nat := opened (demo_file 9) (demo_off 9) false ]}
    (mk_hmem (fun _ => mk_hn None None None) None 0) 0 0 0 0 false false None emu_ev_zero.

Lemma demo_ids_cases a : a ∈ demo_ids -> a = 4%nat \/ a = 9%nat.
Proof. unfold demo_ids. set_solver. Qed.

Lemma demo_trace_ok a : a ∈ demo_ids -> Forall sized (demo_recs a) /\ clocks_ok (demo_off a) false 0 (demo_recs a) /\
  p_streams demo_player !! a = Some (opened (stream_header ++ concat (demo_recs a)) (demo_off a) false).
Proof.
  intros [-> | ->]%demo_ids_cases; (split; [apply demo_recs_sized|split; [|reflexivity]]).
  all: vm_compute; split_and!; try done; right; done.
Qed.

Lemma demo_gate a a' b b' rest rest' : a ∈ demo_ids -> a' ∈ demo_ids -> demo_recs a = b :: rest -> demo_recs a' = b' :: rest' ->
  Z.abs (clk demo_off a b - clk demo_off a' b') <= maxgate.
Proof. intros [-> | ->]%demo_ids_cases [-> | ->]%demo_ids_cases [= <- _] [= <- _]; vm_compute; done. Qed.

Lemma demo_ids_ok : NoDup demo_ids /\ Z.of_nat (length demo_ids) < 2 ^ 63 /\ (left_records demo_ids demo_recs < 7)%nat.
Proof. split; [unfold demo_ids; repeat constructor; set_solver|]. split; [done|vm_compute; lia]. Qed.

Lemma demo_playing : exists p, player_init demo_ids false demo_player = (Ok tt, p) /\ playing demo_ids demo_off p demo_recs.
Proof.
  destruct demo_ids_ok as (Hn & Hs & _). apply (player_init_run demo_ids demo_off demo_recs Hs Hn); try apply demo_trace_ok.
  apply demo_gate.
Qed.

Lemma player_step_merges_witness : exists p, player_init demo_ids false demo_player = (Ok tt, p) /\
  exists o p', player_step p = (o, p') /\ merge_step demo_ids demo_off demo_recs o p'.
Proof.
  destruct demo_playing as (p & E & Hp). exists p. split; [exact E|].
  exact (player_step_merges demo_ids demo_off p demo_recs (proj1 (proj2 demo_ids_ok)) Hp).
Defined.

Lemma player_merges_witness : exists out p', (player_init demo_ids false ;;; play_all 7) demo_player = (Ok out, p') /\
  merges demo_ids demo_off demo_recs out.
Proof.
  exact (player_merges demo_ids demo_off demo_recs demo_player 7 (proj1 (proj2 demo_ids_ok)) (proj1 demo_ids_ok)
    demo_trace_ok demo_gate (proj2 (proj2 demo_ids_ok))).
Defined.

(** The order in which the six records come out. *)
Example demo_order : match ((player_init demo_ids false ;;; play_all 7) demo_player).1 with
  | Ok out => map (fun e => e.1) out = [(9%nat, 5); (4%nat, 7); (9%nat, 10); (4%nat, 20); (4%nat, 30); (9%nat, 45)]
  | _ => False end.
Proof. vm_compute. reflexivity. Qed.
