(* ===== verification/Ovnisort.v ===== *)
(** * The sorting tool (src/emu/ovnisort.c)

    [ovnisort] sorts in place the regions of a stream that a program marked as
    unsorted.  It steps the stream with the emulator's own [stream_step] and
    keeps the last events in a ring; at the end of a region it goes back in the
    ring to the last event before all those of the region, sorts the bytes from
    there to the mark, writes them over the file and rebuilds the ring.

    Pointers to events are offsets in the mapped stream.  The file and its
    mapping are one memory: the mapping is private and the tool only writes
    with [pwrite], so this is what Linux does and the tool needs (POSIX leaves
    it unspecified).  [wr k n] is what the [k]-th [pwrite], of [n] bytes,
    returns, and [qsort] is any function that sorts, in no particular order of
    equal elements.  Opening, syncing and closing the file are not modelled. *)

From Stdlib Require Import Ascii.
From S2P Require Import Prelude Event Rt Stream.

(** ** State *)

(** [ev] holds a pointer at the indexes that were written. *)
Record ring := mk_ring { rg_head : Z; rg_tail : Z; rg_size : Z; rg_ev : gmap Z Z }.

Definition set_rg_ev f (r : ring) : ring := mk_ring (rg_head r) (rg_tail r) (rg_size r) (f (rg_ev r)).

Record winsort := mk_winsort { w_stream : stream; w_ring : ring; w_nwrite : nat }.

Definition set_w_stream x (w : winsort) : winsort := mk_winsort x (w_ring w) (w_nwrite w).
Definition set_w_ring x (w : winsort) : winsort := mk_winsort (w_stream w) x (w_nwrite w).

Definition on_stream {A} (m : M stream A) : M winsort A := fun w =>
  let '(o, s) := m (w_stream w) in (o, set_w_stream s w).

(** The bytes of the stream. *)
Definition mapped (w : winsort) : list Z := s_buf (w_stream w).

(** [ev->header.clock] of the event at [p]. *)
Definition clock_at {S} (mem : list Z) (p : Z) : M S Z :=
  let* ev := mem_at mem p in ovni_ev_get_clock ev.
Definition size_at {S} (mem : list Z) (p : Z) : M S Z :=
  let* ev := mem_at mem p in ovni_ev_size ev.

(** ** The ring *)

Definition ring_reset : M winsort unit :=
  mmod (fun w => set_w_ring (mk_ring 0 0 (rg_size (w_ring w)) (rg_ev (w_ring w))) w).

(** [r->ev[i]]. *)
Definition ring_get (i : Z) : M winsort Z :=
  let* w := mget in deref (rg_ev (w_ring w) !! i).
Definition ring_put (i ev : Z) : M winsort unit :=
  let* w := mget in
  if (i <? 0) || (rg_size (w_ring w) <=? i) then mub else
  mmod (fun w => set_w_ring (set_rg_ev <[i := ev]> (w_ring w)) w).

Definition ring_add (ev : Z) : M winsort unit :=
  let* w := mget in
  let r := w_ring w in
  ring_put (rg_tail r) ev ;;;
  let tail := if rg_size r <=? rg_tail r + 1 then 0 else rg_tail r + 1 in
  let head := if rg_head r =? tail then tail + 1 else rg_head r in
  let head := if rg_size r <=? head then 0 else head in
  mmod (fun w => set_w_ring (mk_ring head tail (rg_size r) (rg_ev (w_ring w))) w).

Fixpoint ring_check_from (fuel : nat) (i last_clock : Z) : M winsort unit :=
  match fuel with
  | O => mfuel
  | S fuel' =>
      let* w := mget in
      let r := w_ring w in
      if i =? rg_tail r then mret tt else
      let* ev := ring_get i in
      let* clock := clock_at (mapped w) ev in
      if clock <? last_clock then mdie else
      ring_check_from fuel' (Z.rem (i + 1) (rg_size r)) clock
  end.

(** A loop over the ring visits no index twice. *)
Definition ring_fuel (w : winsort) : nat := S (Z.to_nat (rg_size (w_ring w))).

Definition ring_check (start : Z) : M winsort unit :=
  let* w := mget in ring_check_from (ring_fuel w) start 0.

(** The loop of [find_destination]: the index found, or the events passed. *)
Fixpoint find_back (fuel : nat) (clock end_ i nback : Z) : M winsort (Z + Z) :=
  match fuel with
  | O => mfuel
  | S fuel' =>
      if i =? end_ then mret (inr nback) else
      let* w := mget in
      let* ev := ring_get i in
      let* last_clock := clock_at (mapped w) ev in
      if last_clock <? clock then mret (inl i) else
      find_back fuel' clock end_ (if i - 1 <? 0 then rg_size (w_ring w) - 1 else i - 1) (nback + 1)
  end.

(** [mfail] is the result -1. *)
Definition find_destination (clock : Z) : M winsort Z :=
  let* w := mget in
  let r := w_ring w in
  let start := if 0 <=? rg_tail r - 1 then rg_tail r - 1 else rg_size r - 1 in
  let end_ := if 0 <=? rg_head r - 1 then rg_head r - 1 else rg_size r - 1 in
  let* found := find_back (ring_fuel w) clock end_ start 0 in
  match found with
  | inl i => mret i
  | inr nback =>
      if nback <? rg_size r - 1 then
        if negb (rg_head r =? 0) then mdie else
        if rg_size r - 1 <=? rg_tail r then mdie else mret (rg_head r)
      else mfail
  end.

(** ** Events in memory *)

Definition has_mcv (m c v : ascii) (ev : list Z) : M winsort bool :=
  let* b1 := deref (ev !! 1%nat) in
  let* b2 := deref (ev !! 2%nat) in
  let* b3 := deref (ev !! 3%nat) in
  mret (is_ch b1 m && is_ch b2 c && is_ch b3 v).

Definition starts_unsorted_region (ev : list Z) : M winsort bool := has_mcv "O" "U" "[" ev.
Definition ends_unsorted_region (ev : list Z) : M winsort bool := has_mcv "O" "U" "]" ev.

(** Events are not empty, so there are at most as many as bytes. *)
Definition bytes_fuel (src end_ : Z) : nat := S (Z.to_nat (end_ - src)).

Section Memory.
Context {S : Type}.

Fixpoint min_clock_from (fuel : nat) (mem : list Z) (p end_ min_clock : Z) : M S Z :=
  match fuel with
  | O => mfuel
  | Datatypes.S fuel' =>
      if end_ <=? p then mret min_clock else
      let* clock := clock_at mem p in
      let* size := size_at mem p in
      min_clock_from fuel' mem (p + size) end_ (if clock <? min_clock then clock else min_clock)
  end.

Definition find_min_clock (mem : list Z) (src end_ : Z) : M S Z :=
  let* clock := clock_at mem src in
  min_clock_from (bytes_fuel src end_) mem src end_ clock.

Fixpoint count_from (fuel : nat) (mem : list Z) (p end_ n : Z) : M S Z :=
  match fuel with
  | O => mfuel
  | Datatypes.S fuel' =>
      if end_ <=? p then mret n else
      let* size := size_at mem p in
      count_from fuel' mem (p + size) end_ (n + 1)
  end.

Definition count_events (mem : list Z) (src end_ : Z) : M S Z :=
  count_from (bytes_fuel src end_) mem src end_ 0.

(** The table of [n] pointers. *)
Fixpoint index_events (mem : list Z) (n : nat) (p : Z) : M S (list Z) :=
  match n with
  | O => mret []
  | Datatypes.S n' =>
      let* size := size_at mem p in
      let* table := index_events mem n' (p + size) in
      mret (p :: table)
  end.

(** The bytes copied one after the other to a buffer with [room] bytes. *)
Fixpoint write_events (mem : list Z) (room : Z) (table : list Z) : M S (list Z) :=
  match table with
  | [] => mret []
  | p :: table' =>
      let* ev := mem_at mem p in
      let* size := ovni_ev_size ev in
      if room <? size then mub else
      let* bytes := deref (get_bytes 0 (Z.to_nat size) ev) in
      let* rest := write_events mem (room - size) table' in
      mret (bytes ++ rest)
  end.
End Memory.

(** The comparison of two entries of the table, by the clocks as signed
    integers; [None] when an event is not whole in memory. *)
Definition clock_of (mem : list Z) (p : Z) : option Z :=
  if (p <? 0) || (Z.of_nat (length mem) <? p) then None else get_u 4 8 (drop (Z.to_nat p) mem).

Definition cmp_ev (mem : list Z) (a b : Z) : Z :=
  let clock1 := i64 (default 0 (clock_of mem a)) in
  let clock2 := i64 (default 0 (clock_of mem b)) in
  if clock1 <? clock2 then -1 else if clock2 <? clock1 then 1 else 0.

Section Ovnisort.
Variables (wr : nat -> Z -> Z) (qsort : (Z -> Z -> Z) -> list Z -> list Z).

(** The sorted copy of the [bufsize] bytes at [src]; the memory of the result
    has no indeterminate bytes. *)
Definition sort_buf (src bufsize : Z) : M winsort (list Z) :=
  let* w := mget in
  if src <? 0 then mub else
  let* buf2 := deref (get_bytes (Z.to_nat src) (Z.to_nat bufsize) (mapped w)) in
  let* n := count_events buf2 0 bufsize in
  let* table := index_events buf2 (Z.to_nat n) 0 in
  let* _ := deref (mapM (clock_of buf2) table) in
  let* buf := write_events buf2 bufsize (qsort (cmp_ev buf2) table) in
  if Z.of_nat (length buf) <? bufsize then mub else mret buf.

(** [pwrite] may write less than it is asked to. *)
Fixpoint write_stream (fuel : nat) (dst : Z) (src : list Z) : M winsort unit :=
  match fuel with
  | O => mfuel
  | S fuel' =>
      if (length src =? 0)%nat then mret tt else
      let* w := mget in
      let written := wr (w_nwrite w) (Z.of_nat (length src)) in
      mmod (fun w => mk_winsort (w_stream w) (w_ring w) (S (w_nwrite w))) ;;;
      if written <? 0 then mdie else
      let* buf := deref (put_bytes (Z.to_nat dst) (take (Z.to_nat written) src) (mapped w)) in
      mmod (fun w => set_w_stream (set_s_buf buf (w_stream w)) w) ;;;
      write_stream fuel' (dst + written) (drop (Z.to_nat written) src)
  end.

(** From [i] to the tail; the result is where the last event ends. *)
Fixpoint rebuild_from (fuel : nat) (i ev last : Z) : M winsort Z :=
  match fuel with
  | O => mfuel
  | S fuel' =>
      let* w := mget in
      let r := w_ring w in
      if i =? rg_tail r then mret ev else
      let* _ := ring_get i in
      if last <=? ev then mdie else
      ring_put i ev ;;;
      let* size := size_at (mapped w) ev in
      rebuild_from fuel' (if rg_size r <=? i + 1 then 0 else i + 1) (ev + size) last
  end.

Definition rebuild_ring (start first last : Z) : M winsort unit :=
  let* w := mget in
  let* ev := rebuild_from (ring_fuel w) start first last in
  if negb (ev =? last) then mdie else mret tt.

(** [bad0] and [next] of the plan; the other fields are in the state. *)
Definition execute_sort_plan (bad0 next : Z) : M winsort unit :=
  let* w := mget in
  let* clock0 := clock_at (mapped w) bad0 in
  let* min_clock := find_min_clock (mapped w) bad0 next in
  let clock0 := if min_clock <? clock0 then min_clock else clock0 in
  let* i0 := find_destination clock0 in
  let* first := ring_get i0 in
  let bufsize := u64 (next - first) in
  if bufsize =? 0 then mdie else
  if 2 ^ 63 <=? bufsize then mdie else
  let* buf := sort_buf first bufsize in
  write_stream (S (length buf)) first buf ;;;
  rebuild_ring i0 first next ;;;
  ring_check i0.

(** [st], [sp.bad0], [empty_regions] and [updated]. *)
Inductive region := ST_SORTED | ST_OPEN | ST_UNSORTED (bad0 : Z).
Record winvars := mk_winvars { wv_st : region; wv_empty_regions : Z; wv_updated : bool }.

(** The body of the loop, for the event at [ev] before [ring_add]. *)
Definition winsort_event (v : winvars) (ev : Z) : M winsort winvars :=
  let* w := mget in
  let* bytes := mem_at (mapped w) ev in
  match wv_st v with
  | ST_SORTED =>
      let* starts := starts_unsorted_region bytes in
      mret (mk_winvars (if starts then ST_OPEN else ST_SORTED) (wv_empty_regions v) (wv_updated v))
  | ST_OPEN =>
      let* ends := ends_unsorted_region bytes in
      mret (if ends then mk_winvars ST_SORTED (wv_empty_regions v + 1) (wv_updated v)
            else mk_winvars (ST_UNSORTED ev) (wv_empty_regions v) (wv_updated v))
  | ST_UNSORTED bad0 =>
      let* ends := ends_unsorted_region bytes in
      if ends then
        execute_sort_plan bad0 ev ;;;
        mret (mk_winvars ST_SORTED (wv_empty_regions v) true)
      else mret v
  end.

Fixpoint winsort_loop (fuel : nat) (v : winvars) : M winsort winvars :=
  match fuel with
  | O => mfuel
  | S fuel' =>
      let* ret := on_stream stream_step in
      if negb (ret =? 0) then mret v else
      let* w := mget in
      let* ev := deref (stream_ev (w_stream w)) in
      let* v' := winsort_event v ev in
      ring_add ev ;;;
      winsort_loop fuel' v'
  end.

Definition stream_winsort (fuel : nat) : M winsort winvars :=
  ring_reset ;;;
  winsort_loop fuel (mk_winvars ST_SORTED 0 false).

(** ** Checking *)

Fixpoint check_loop (fuel : nat) (last_clock : Z) (backjump : bool) : M stream bool :=
  match fuel with
  | O => mfuel
  | S fuel' =>
      let* ret := stream_step in
      if negb (ret =? 0) then mret backjump else
      let* s := mget in
      let* ev := deref (stream_ev s) in
      let* cur_clock := clock_at (s_buf s) ev in
      check_loop fuel' cur_clock (backjump || (cur_clock <? last_clock))
  end.

Definition stream_check (fuel : nat) : M stream unit :=
  let* ret := stream_step in
  if negb (ret =? 0) then mret tt else
  let* s := mget in
  let* ev := deref (stream_ev s) in
  let* last_clock := clock_at (s_buf s) ev in
  let* backjump := check_loop fuel last_clock false in
  if backjump then mfail else mret tt.

(** ** The trace *)

Inductive operation_mode := SORT | CHECK.

(** The ring is one for all the streams; sorting stops at the first failure,
    checking reports every stream and then fails. *)
Fixpoint sort_streams (fuel : nat) (r : ring) (k : nat) (l : list stream) : outcome unit * list stream :=
  match l with
  | [] => (Ok tt, [])
  | s :: l' =>
      match stream_winsort fuel (mk_winsort (set_s_unsorted true s) r k) with
      | (Ok _, w) =>
          let '(o, l'') := sort_streams fuel (w_ring w) (w_nwrite w) l' in (o, w_stream w :: l'')
      | (o, w) => (match o with Ok _ => Ok tt | Err => Err | Die => Die | Ub => Ub | Fuel => Fuel end, w_stream w :: l')
      end
  end.

Fixpoint check_streams (fuel : nat) (failed : bool) (l : list stream) : outcome unit * list stream :=
  match l with
  | [] => (if failed then Err else Ok tt, [])
  | s :: l' =>
      match stream_check fuel (set_s_unsorted true s) with
      | (Ok _, s') => let '(o, l'') := check_streams fuel failed l' in (o, s' :: l'')
      | (Err, s') => let '(o, l'') := check_streams fuel true l' in (o, s' :: l'')
      | (o, s') => (o, s' :: l')
      end
  end.

Definition process_trace (fuel : nat) (mode : operation_mode) (max_look_back : Z) (l : list stream) : outcome unit * list stream :=
  match mode with
  | SORT => sort_streams fuel (mk_ring 0 0 max_look_back ∅) 0 l
  | CHECK => check_streams fuel false l
  end.
End Ovnisort.
