(* ===== verification/OvnisortCorrect.v ===== *)
(** * The sorting tool sorts

    A stream is a list of records.  The abstract tool works on that list: at the
    end of a marked region it takes the records from the last one, among those
    the ring holds, that is before all the region, and sorts them.  The run of
    [stream_winsort] is a run of the abstract tool; and when only the marked
    regions are out of order the result is the stream sorted. *)

From Stdlib Require Import Ascii Permutation.
From S2P Require Import Prelude Event Rt Stream Ovnisort.

Notation len l := (Z.of_nat (length l)).

(** What [qsort] does with a comparison that is a total preorder. *)
Definition qsorts (qsort : (Z -> Z -> Z) -> list Z -> list Z) : Prop := forall cmp l,
  (forall a b, cmp a b <= 0 \/ cmp b a <= 0) -> (forall a b c, cmp a b <= 0 -> cmp b c <= 0 -> cmp a c <= 0) ->
  qsort cmp l ≡ₚ l /\ StronglySorted (fun a b => cmp a b <= 0) (qsort cmp l).

(** What [pwrite] returns: an error, or part of what it is asked, and not nothing. *)
Definition pwrites (wr : nat -> Z -> Z) : Prop := forall k n, 0 < n -> 0 < wr k n <= n.

(** ** Records in memory *)

Definition key (b : list Z) : Z := rec_clock b.
Definition record (b : list Z) : Prop := sized b /\ 0 <= key b < 2 ^ 63.

Definition sorted_keys (l : list (list Z)) : Prop := StronglySorted (fun a b => key a <= key b) l.

(** The offsets of the records from [p] on. *)
Fixpoint offs (p : Z) (recs : list (list Z)) : list Z :=
  match recs with [] => [] | b :: recs' => p :: offs (p + len b) recs' end.

Lemma length_offs p recs : length (offs p recs) = length recs.
Proof. revert p. induction recs; simpl; auto. Qed.

Lemma offs_app p l1 l2 : offs p (l1 ++ l2) = offs p l1 ++ offs (p + len (concat l1)) l2.
Proof.
  revert p. induction l1 as [|b l1 IH]; intros p; simpl; [by rewrite Z.add_0_r|].
  rewrite IH, length_app. do 3 f_equal. lia.
Qed.

(** The record [b] is at [p]. *)
Definition points (mem : list Z) (p : Z) (b : list Z) : Prop := exists pre post, mem = pre ++ b ++ post /\ p = len pre.

Lemma offs_points pre recs post : Forall2 (points (pre ++ concat recs ++ post)) (offs (len pre) recs) recs.
Proof.
  revert pre. induction recs as [|b recs IH]; intros pre; simpl; constructor.
  - exists pre, (concat recs ++ post). split; [by rewrite <- app_assoc|done].
  - specialize (IH (pre ++ b)). rewrite length_app, Nat2Z.inj_add in IH. by rewrite <- !app_assoc in IH |- *.
Qed.

Section Mem.
Context {S : Type}.
Implicit Types s : S.

Lemma clock_at_points mem p b s : record b -> points mem p b -> clock_at mem p s = (Ok (key b), s).
Proof.
  intros [Hz _] (pre & post & -> & ->). unfold clock_at. rewrite (mbind_run _ _ _ _ _ (mem_at_app pre _ s)).
  by apply sized_clock.
Qed.

Lemma size_at_points mem p b s : record b -> points mem p b -> size_at mem p s = (Ok (len b), s).
Proof.
  intros [Hz _] (pre & post & -> & ->). unfold size_at. rewrite (mbind_run _ _ _ _ _ (mem_at_app pre _ s)).
  by apply sized_size.
Qed.

(** The least of [m] and the clocks of the records. *)
Definition least (m : Z) (recs : list (list Z)) : Z := foldl (fun m b => if key b <? m then key b else m) m recs.

Lemma record_len b : record b -> (0 < length b)%nat.
Proof. intros [(_ & H & _) _]. lia. Qed.

(** From the record at [pre] to the next one. *)
Lemma points_next (pre b l post : list Z) : pre ++ (b ++ l) ++ post = (pre ++ b) ++ l ++ post.
Proof. by rewrite <- !app_assoc. Qed.

Lemma points_head (pre b l post : list Z) : points (pre ++ (b ++ l) ++ post) (len pre) b.
Proof. exists pre, (l ++ post). split; [by rewrite <- app_assoc|done]. Qed.

Lemma len_snoc (pre b : list Z) : len (pre ++ b) = len pre + len b.
Proof. rewrite length_app. lia. Qed.

Lemma min_clock_run recs : forall fuel pre post m s, Forall record recs -> (length (concat recs) < fuel)%nat ->
  min_clock_from fuel (pre ++ concat recs ++ post) (len pre) (len pre + len (concat recs)) m s = (Ok (least m recs), s).
Proof.
  induction recs as [|b recs IH]; intros [|fuel] pre post m s Hz Hf; try lia; cbn [min_clock_from].
  - by rewrite (proj2 (Z.leb_le _ _)) by (simpl; lia).
  - apply list.Forall_cons in Hz as [Hb Hz]. pose proof (record_len b Hb). pose proof (points_head pre b (concat recs) post) as Hp.
    change (concat (b :: recs)) with (b ++ concat recs) in *. rewrite length_app in *. rewrite (proj2 (Z.leb_gt _ _)) by lia.
    rewrite (mbind_run _ _ _ _ _ (clock_at_points _ _ _ s Hb Hp)), (mbind_run _ _ _ _ _ (size_at_points _ _ _ s Hb Hp)).
    specialize (IH fuel (pre ++ b) post (if key b <? m then key b else m) s Hz ltac:(lia)).
    rewrite <- points_next, len_snoc in IH. by replace (len pre + Z.of_nat (length b + length (concat recs)))
      with (len pre + len b + len (concat recs)) by lia.
Qed.

Lemma count_run recs : forall fuel pre post n s, Forall record recs -> (length (concat recs) < fuel)%nat ->
  count_from fuel (pre ++ concat recs ++ post) (len pre) (len pre + len (concat recs)) n s = (Ok (n + len recs), s).
Proof.
  induction recs as [|b recs IH]; intros [|fuel] pre post n s Hz Hf; try lia; cbn [count_from].
  - rewrite (proj2 (Z.leb_le _ _)) by (simpl; lia). unfold mret. do 2 f_equal. simpl; lia.
  - apply list.Forall_cons in Hz as [Hb Hz]. pose proof (record_len b Hb). pose proof (points_head pre b (concat recs) post) as Hp.
    change (concat (b :: recs)) with (b ++ concat recs) in *. rewrite length_app in *. rewrite (proj2 (Z.leb_gt _ _)) by lia.
    rewrite (mbind_run _ _ _ _ _ (size_at_points _ _ _ s Hb Hp)).
    specialize (IH fuel (pre ++ b) post (n + 1) s Hz ltac:(lia)). rewrite <- points_next in IH.
    rewrite len_snoc in IH. replace (len pre + Z.of_nat (length b + length (concat recs)))
      with (len pre + len b + len (concat recs)) by lia. rewrite IH. do 2 f_equal. simpl length. lia.
Qed.

Lemma index_run recs : forall pre post s, Forall record recs ->
  index_events (pre ++ concat recs ++ post) (length recs) (len pre) s = (Ok (offs (len pre) recs), s).
Proof.
  induction recs as [|b recs IH]; intros pre post s Hz; [done|]. apply list.Forall_cons in Hz as [Hb Hz].
  cbn [index_events length offs]. rewrite (mbind_run _ _ _ _ _ (size_at_points _ _ _ s Hb (points_head pre b (concat recs) post))).
  specialize (IH (pre ++ b) post s Hz). rewrite <- points_next, len_snoc in IH. by rewrite (mbind_run _ _ _ _ _ IH).
Qed.

Lemma write_events_run mem l : forall room table s, Forall2 (points mem) table l -> Forall record l -> len (concat l) <= room ->
  write_events mem room table s = (Ok (concat l), s).
Proof.
  induction l as [|b l IH]; intros room table s Hp Hz Hr; inversion Hp as [|p ? table' ? Hpb Hpl]; subst; [done|].
  apply list.Forall_cons in Hz as [Hb Hz]. cbn [write_events]. change (concat (b :: l)) with (b ++ concat l) in *. rewrite length_app in *.
  destruct Hpb as (pre & post & -> & ->). rewrite (mbind_run _ _ _ _ _ (mem_at_app pre _ s)).
  rewrite (mbind_run _ _ _ _ _ (sized_size b post s (proj1 Hb))). rewrite (proj2 (Z.ltb_ge _ _)) by lia.
  rewrite Nat2Z.id. assert (get_bytes 0 (length b) (b ++ post) = Some b) as ->.
  { unfold get_bytes. rewrite (proj2 (Nat.leb_le _ _)) by (rewrite length_app; lia). by rewrite drop_0, take_app_length. }
  rewrite (mbind_run (deref (Some b)) _ s b s eq_refl).
  by rewrite (mbind_run _ _ _ _ _ (IH (room - len b) table' s Hpl Hz ltac:(lia))).
Qed.
End Mem.

(** ** The sorted copy *)

Lemma get_bytes_mid (pre bs post : list Z) : get_bytes (length pre) (length bs) (pre ++ bs ++ post) = Some bs.
Proof.
  unfold get_bytes. rewrite (proj2 (Nat.leb_le _ _)) by (rewrite !length_app; lia).
  by rewrite drop_app_length, take_app_length.
Qed.

Lemma put_bytes_mid (pre old new post : list Z) : length new = length old ->
  put_bytes (length pre) new (pre ++ old ++ post) = Some (pre ++ new ++ post).
Proof.
  intros E. unfold put_bytes. rewrite (proj2 (Nat.leb_le _ _)) by (rewrite !length_app; lia).
  rewrite take_app_length, E, drop_app_ge by lia. replace (length pre + length old - length pre)%nat with (length old) by lia.
  by rewrite drop_app_length.
Qed.

Lemma clock_of_points mem p b : record b -> points mem p b -> clock_of mem p = Some (key b).
Proof.
  intros Hb Hp. pose proof (clock_at_points mem p b tt Hb Hp) as E. destruct Hp as (pre & post & -> & ->).
  unfold clock_of. rewrite (proj2 (Z.ltb_ge _ _)), (proj2 (Z.ltb_ge _ _)) by (rewrite ?length_app; lia). simpl.
  rewrite Nat2Z.id, drop_app_length. unfold clock_at in E. rewrite (mbind_run _ _ _ _ _ (mem_at_app pre _ tt)) in E.
  unfold ovni_ev_get_clock in E. by apply deref_Ok in E as [? _].
Qed.

Lemma small_i64 z : 0 <= z < 2 ^ 63 -> i64 z = z.
Proof. intros H. apply wraps_id; [lia|]. unfold in_s. simpl. lia. Qed.

Lemma cmp_ev_key mem p q a b : record a -> record b -> points mem p a -> points mem q b ->
  (cmp_ev mem p q <= 0 <-> key a <= key b).
Proof.
  intros Ha Hb Hp Hq. unfold cmp_ev. rewrite (clock_of_points _ _ _ Ha Hp), (clock_of_points _ _ _ Hb Hq). simpl.
  rewrite (small_i64 (key a)), (small_i64 (key b)) by (apply Ha || apply Hb).
  destruct (Z.ltb_spec (key a) (key b)); [lia|]. destruct (Z.ltb_spec (key b) (key a)); lia.
Qed.

Lemma cmp_ev_preorder mem : (forall a b, cmp_ev mem a b <= 0 \/ cmp_ev mem b a <= 0) /\
  (forall a b c, cmp_ev mem a b <= 0 -> cmp_ev mem b c <= 0 -> cmp_ev mem a c <= 0).
Proof.
  unfold cmp_ev. split; intros *; repeat match goal with |- context [?x <? ?y] => destruct (Z.ltb_spec x y) end; lia.
Qed.

(** A sorted table points to sorted records. *)
Lemma sorted_table mem table l : Forall record l -> Forall2 (points mem) table l ->
  StronglySorted (fun a b => cmp_ev mem a b <= 0) table -> sorted_keys l.
Proof.
  intros Hz Hp. revert Hz. induction Hp as [|p b table l Hpb Hpl IH]; intros Hz Hs; [constructor|].
  apply list.Forall_cons in Hz as [Hb Hz]. inversion Hs as [|? ? Hs' Hp]; subst. constructor; [by apply IH|].
  clear IH Hs Hs'. induction Hpl as [|q c table l Hqc _ IH]; [constructor|].
  apply list.Forall_cons in Hz as [Hc Hz]. apply list.Forall_cons in Hp as [Hpq Hp]. constructor; [|by apply IH].
  by apply (cmp_ev_key mem p q).
Qed.

Lemma mapM_some {A B} (f : A -> option B) l k : Forall2 (fun a b => f a = Some b) l k -> mapM f l = Some k.
Proof. by rewrite mapM_Some. Qed.

Lemma clocks_of_points mem table l : Forall2 (points mem) table l -> Forall record l ->
  Forall2 (fun p k => clock_of mem p = Some k) table (key <$> l).
Proof.
  induction 1 as [|p b table l Hp _ IH]; intros Hz; [constructor|]. apply list.Forall_cons in Hz as [Hb Hz].
  constructor; [by apply clock_of_points|by apply IH].
Qed.

Section Tool.
Variables (wr : nat -> Z -> Z) (qsort : (Z -> Z -> Z) -> list Z -> list Z).
Hypothesis qsort_ok : qsorts qsort.
Hypothesis wr_ok : pwrites wr.

Lemma sort_buf_run pre recs post w : Forall record recs -> mapped w = pre ++ concat recs ++ post ->
  exists l, sort_buf qsort (len pre) (len (concat recs)) w = (Ok (concat l), w) /\ l ≡ₚ recs /\ sorted_keys l.
Proof.
  intros Hz Hm. unfold sort_buf. rewrite (mbind_run mget _ w w w eq_refl), Hm, !Nat2Z.id, get_bytes_mid.
  rewrite (proj2 (Z.ltb_ge _ _)) by lia. rewrite (mbind_run (deref (Some _)) _ w _ w eq_refl).
  set (mem := concat recs).
  assert (mem = [] ++ mem ++ []) as Em by (by rewrite app_nil_r).
  pose proof (count_run recs (bytes_fuel 0 (len mem)) [] [] 0 w Hz ltac:(unfold bytes_fuel, mem; lia)) as Ec.
  pose proof (index_run recs [] [] w Hz) as Ei. pose proof (offs_points [] recs []) as Hp.
  fold mem in Ec, Ei, Hp. rewrite <- Em in Ec, Ei, Hp. simpl length in Ec, Ei, Hp. change (Z.of_nat 0) with 0 in *.
  unfold count_events. rewrite !Z.add_0_l in Ec. rewrite (mbind_run _ _ _ _ _ Ec), Nat2Z.id, (mbind_run _ _ _ _ _ Ei).
  rewrite (mapM_some (clock_of mem) (offs 0 recs) (key <$> recs)), (mbind_run (deref (Some _)) _ w _ w eq_refl).
  2:{ by apply clocks_of_points. }
  destruct (cmp_ev_preorder mem) as [Ht Htr]. destruct (qsort_ok (cmp_ev mem) (offs 0 recs) Ht Htr) as [Hperm Hs].
  destruct (Permutation_Forall2 (symmetry Hperm) Hp) as (l & Hl & Hpl). exists l.
  assert (Forall record l) as Hzl by (by rewrite <- Hl).
  assert (len (concat l) = len mem) as El. { unfold mem. by rewrite Hl. }
  rewrite (mbind_run _ _ _ _ _ (write_events_run mem l (len mem) _ w Hpl Hzl ltac:(lia))).
  rewrite El, Z.ltb_irrefl. split_and!; [done|by symmetry|by eapply sorted_table].
Qed.

Lemma write_stream_run fuel : forall pre old new post w, (length new < fuel)%nat -> length new = length old ->
  mapped w = pre ++ old ++ post -> exists k, write_stream wr fuel (len pre) new w =
    (Ok tt, mk_winsort (set_s_buf (pre ++ new ++ post) (w_stream w)) (w_ring w) k).
Proof.
  induction fuel as [|fuel IH]; intros pre old new post w Hf Hl Hm; [lia|]. cbn [write_stream].
  destruct (Nat.eqb_spec (length new) 0) as [E0|Hn].
  { destruct new, old; try done. exists (w_nwrite w). unfold mapped in Hm. simpl in Hm |- *. rewrite <- Hm. by destruct w as [[]]. }
  rewrite (mbind_run mget _ w w w eq_refl), (mbind_run (mmod _) _ _ _ _ eq_refl).
  pose proof (wr_ok (w_nwrite w) (len new) ltac:(lia)) as Hw. set (n := wr _ _) in *.
  rewrite (proj2 (Z.ltb_ge _ _)) by lia. rewrite Nat2Z.id, Hm.
  set (k := Z.to_nat n). assert (n = Z.of_nat k) as En by lia.
  replace (pre ++ old ++ post) with (pre ++ take k old ++ drop k old ++ post) by (by rewrite (app_assoc (take k old)), take_drop).
  rewrite (put_bytes_mid pre (take k old) (take k new)) by (rewrite !length_take; lia).
  rewrite (mbind_run (deref (Some _)) _ _ _ _ eq_refl), (mbind_run (mmod _) _ _ _ _ eq_refl).
  set (w1 := set_w_stream _ _).
  destruct (IH (pre ++ take k new) (drop k old) (drop k new) post w1) as (c & Ec).
  - rewrite length_drop. lia.
  - rewrite !length_drop. lia.
  - unfold mapped, w1. simpl. by rewrite <- app_assoc.
  - exists c. rewrite length_app, length_take, Nat2Z.inj_add in Ec. replace (len pre + Z.of_nat (k `min` length new)) with (len pre + n) in Ec by lia.
    rewrite Ec. unfold w1. simpl. rewrite <- (app_assoc pre), (app_assoc (take k new)), take_drop. done.
Qed.
End Tool.

(** ** The ring *)

(** The index of the [j]-th element from the head. *)
Definition ix (r : ring) (j : Z) : Z := (rg_head r + j) mod rg_size r.

(** The ring holds [l], oldest first; it starts at 0 until it is full. *)
Record ring_inv (m : nat) (r : ring) (l : list Z) : Prop := {
  ri_size : rg_size r = Z.of_nat m + 1;
  ri_pos : (0 < m)%nat;
  ri_head : 0 <= rg_head r < rg_size r;
  ri_tail : rg_tail r = ix r (len l);
  ri_len : (length l <= m)%nat;
  ri_start : rg_head r = 0 \/ length l = m;
  ri_get : forall j x, l !! j = Some x -> rg_ev r !! ix r (Z.of_nat j) = Some x
}.

(** The last [m] elements. *)
Definition window {A} (m : nat) (l : list A) : list A := drop (length l - m) l.

Lemma length_window {A} m (l : list A) : length (window m l) = (m `min` length l)%nat.
Proof. unfold window. rewrite length_drop. lia. Qed.

Lemma window_snoc {A} m (l : list A) x : (0 < m)%nat -> window m (l ++ [x]) =
  (if (length (window m l) =? m)%nat then tail (window m l) else window m l) ++ [x].
Proof.
  intros Hm. rewrite length_window. unfold window. rewrite length_app. simpl length.
  destruct (Nat.eqb_spec (m `min` length l) m) as [E|E].
  - rewrite drop_app_le by lia. f_equal. replace (length l + 1 - m)%nat with ((length l - m) + 1)%nat by lia.
    rewrite <- drop_drop. by destruct (drop _ l).
  - by replace (length l + 1 - m)%nat with 0%nat by lia; replace (length l - m)%nat with 0%nat by lia.
Qed.

Lemma length_tail {A} (l : list A) : length (tail l) = (length l - 1)%nat.
Proof. destruct l; simpl; lia. Qed.

Section Index.
Variables (n h : Z).
Hypothesis Hn : 0 < n.

Lemma mod_next j : (if n <=? (h + j) mod n + 1 then 0 else (h + j) mod n + 1) = (h + (j + 1)) mod n.
Proof.
  pose proof (Z.mod_pos_bound (h + j) n Hn). pose proof (Z.div_mod (h + j) n ltac:(lia)) as E.
  destruct (Z.leb_spec n ((h + j) mod n + 1)).
  - apply Z.mod_unique_pos with ((h + j) / n + 1); lia.
  - apply Z.mod_unique_pos with ((h + j) / n); lia.
Qed.

Lemma mod_prev j : (if (h + j) mod n - 1 <? 0 then n - 1 else (h + j) mod n - 1) = (h + (j - 1)) mod n.
Proof.
  pose proof (Z.mod_pos_bound (h + j) n Hn). pose proof (Z.div_mod (h + j) n ltac:(lia)) as E.
  destruct (Z.ltb_spec ((h + j) mod n - 1) 0).
  - apply Z.mod_unique_pos with ((h + j) / n - 1); lia.
  - apply Z.mod_unique_pos with ((h + j) / n); lia.
Qed.

Lemma mod_inj i j : (h + i) mod n = (h + j) mod n -> Z.abs (i - j) < n -> i = j.
Proof.
  intros E Hd. pose proof (Z.div_mod (h + i) n ltac:(lia)) as Ei. pose proof (Z.div_mod (h + j) n ltac:(lia)) as Ej.
  rewrite E in Ei. set (k := (h + i) / n - (h + j) / n).
  assert (i - j = n * k) as Ek by (unfold k; lia). clearbody k. destruct (Z.lt_trichotomy k 0) as [Hk|[-> |Hk]]; nia.
Qed.

Lemma rem_next j : Z.rem ((h + j) mod n + 1) n = (h + (j + 1)) mod n.
Proof.
  pose proof (Z.mod_pos_bound (h + j) n Hn). rewrite Z.rem_mod_nonneg, Zplus_mod_idemp_l by lia. f_equal. lia.
Qed.
End Index.

Section Ring.
Variables (m : nat) (r : ring) (l : list Z).
Hypothesis Hr : ring_inv m r l.

Lemma size_pos : 0 < rg_size r.
Proof. rewrite (ri_size _ _ _ Hr). lia. Qed.

Lemma ix_range j : 0 <= ix r j < rg_size r.
Proof. apply Z.mod_pos_bound, size_pos. Qed.

Lemma ix_inj i j : ix r i = ix r j -> Z.abs (i - j) < rg_size r -> i = j.
Proof. apply mod_inj, size_pos. Qed.

Lemma ix_0 : ix r 0 = rg_head r.
Proof. unfold ix. rewrite Z.add_0_r. apply Z.mod_small, Hr. Qed.

Lemma ring_put_run i x w : w_ring w = r -> 0 <= i < rg_size r ->
  ring_put i x w = (Ok tt, set_w_ring (set_rg_ev <[i := x]> r) w).
Proof.
  intros Ew Hi. unfold ring_put. rewrite (mbind_run mget _ w w w eq_refl), Ew.
  rewrite (proj2 (Z.ltb_ge _ _)), (proj2 (Z.leb_gt _ _)) by lia. simpl. unfold mmod. by rewrite Ew.
Qed.

Lemma ring_get_run j x w : w_ring w = r -> l !! j = Some x -> ring_get (ix r (Z.of_nat j)) w = (Ok x, w).
Proof.
  intros Ew Hj. unfold ring_get. rewrite (mbind_run mget _ w w w eq_refl), Ew.
  by rewrite (ri_get _ _ _ Hr _ _ Hj).
Qed.

Lemma ring_add_run x w : w_ring w = r -> exists r', ring_add x w = (Ok tt, set_w_ring r' w) /\
  ring_inv m r' ((if (length l =? m)%nat then tail l else l) ++ [x]).
Proof.
  intros Ew. pose proof (ri_size _ _ _ Hr) as Hsz. pose proof (ri_tail _ _ _ Hr) as Ht. pose proof (ri_len _ _ _ Hr) as Hl.
  pose proof (ix_range (len l)) as Hix. unfold ring_add. rewrite (mbind_run mget _ w w w eq_refl), Ew.
  rewrite (mbind_run _ _ _ _ _ (ring_put_run (rg_tail r) x w Ew ltac:(lia))). cbv zeta.
  rewrite Ht. change (if rg_size r <=? ix r (len l) + 1 then 0 else ix r (len l) + 1) with
    (if rg_size r <=? (rg_head r + len l) mod rg_size r + 1 then 0 else (rg_head r + len l) mod rg_size r + 1).
  rewrite mod_next by apply size_pos. fold (ix r (len l + 1)). unfold mmod. simpl w_ring. eexists. split; [done|].
  assert (forall j y, l !! j = Some y -> <[ix r (len l) := x]> (rg_ev r) !! ix r (Z.of_nat j) = Some y) as Hold.
  { intros j y Hj. pose proof (lookup_lt_Some _ _ _ Hj). rewrite lookup_insert_ne; [by apply Hr|].
    intros E%ix_inj; lia. }
  destruct (Nat.eqb_spec (length l) m) as [Em|Em].
  - assert (ix r (len l + 1) = rg_head r) as Eh.
    { rewrite <- ix_0. unfold ix. rewrite <- (Z_mod_plus_full (rg_head r + 0) 1). f_equal. lia. }
    rewrite Eh, Z.eqb_refl. assert ((if rg_size r <=? rg_head r + 1 then 0 else rg_head r + 1) = ix r 1) as E1.
    { rewrite <- ix_0. unfold ix. by rewrite mod_next by apply size_pos. }
    rewrite E1. assert (forall j, ix (mk_ring (ix r 1) (rg_head r) (rg_size r) (<[ix r (len l):=x]> (rg_ev r))) j = ix r (j + 1)) as Ej.
    { intros j. unfold ix; simpl. rewrite Zplus_mod_idemp_l. f_equal. lia. }
    pose proof (ri_pos _ _ _ Hr). assert (length (tail l ++ [x]) = m) as Elen by (rewrite length_app, length_tail; simpl; lia).
    split; simpl; try done.
    + apply ix_range.
    + rewrite Ej, Elen, <- Eh. f_equal. lia.
    + lia.
    + by right.
    + intros j y Hj. rewrite Ej. destruct (decide (j < length (tail l))%nat) as [Hjl|Hjl].
      * rewrite lookup_app_l in Hj by done. rewrite lookup_tail in Hj. replace (Z.of_nat j + 1) with (Z.of_nat (Datatypes.S j)) by lia. by apply Hold.
      * rewrite lookup_app_r in Hj by lia. apply list_lookup_singleton_Some in Hj as [Hj <-].
        rewrite length_tail in *. replace (Z.of_nat j + 1) with (len l) by lia. apply lookup_insert_eq.
  - assert (rg_head r = 0) as Eh by (destruct (ri_start _ _ _ Hr); [done|lia]).
    assert (ix r (len l + 1) = len l + 1) as Et by (unfold ix; rewrite Eh; apply Z.mod_small; lia).
    rewrite Et, Eh. rewrite (proj2 (Z.eqb_neq _ _)), (proj2 (Z.leb_gt _ _)) by lia.
    assert (forall j, ix (mk_ring 0 (len l + 1) (rg_size r) (<[ix r (len l):=x]> (rg_ev r))) j = ix r j) as Ej by (intros; unfold ix; by rewrite Eh).
    split; simpl; try done.
    + apply Hr.
    + lia.
    + rewrite Ej, length_app. simpl length. rewrite Nat2Z.inj_add. change (Z.of_nat 1) with 1. by rewrite Et.
    + rewrite length_app. simpl. lia.
    + by left.
    + intros j y Hj. rewrite Ej. destruct (decide (j < length l)%nat) as [Hjl|Hjl].
      * rewrite lookup_app_l in Hj by done. by apply Hold.
      * rewrite lookup_app_r in Hj by lia. apply list_lookup_singleton_Some in Hj as [Hj <-].
        replace (Z.of_nat j) with (len l) by lia. apply lookup_insert_eq.
Qed.
End Ring.

(** The last of the first [j] clocks that is below [c]. *)
Fixpoint last_below (c : Z) (keys : list Z) (j : nat) : option nat :=
  match j with
  | O => None
  | S j' => match keys !! j' with
            | Some k => if k <? c then Some j' else last_below c keys j'
            | None => None
            end
  end.

(** Where a region goes, as an index in the ring's list: after the last event
    before it, or first when the ring has not been full. *)
Definition destination (m : nat) (c : Z) (keys : list Z) : option nat :=
  match last_below c keys (length keys) with
  | Some j => Some j
  | None => if (length keys <? m)%nat then Some 0%nat else None
  end.

Section Scan.
Variables (m : nat) (r : ring) (l : list Z) (recs : list (list Z)) (w : winsort).
Hypothesis Hr : ring_inv m r l.
Hypothesis Ew : w_ring w = r.
Hypothesis Hp : Forall2 (points (mapped w)) l recs.
Hypothesis Hz : Forall record recs.

Lemma entry_at j x : l !! j = Some x -> exists b, recs !! j = Some b /\ record b /\ points (mapped w) x b.
Proof.
  intros Hj. destruct (Forall2_lookup_l _ _ _ _ _ Hp Hj) as (b & Hb & Hpb). exists b.
  split_and!; [done|by eapply Forall_lookup_1|done].
Qed.

Lemma find_back_run c j : forall fuel n, (j < fuel)%nat -> (j <= length l)%nat ->
  find_back fuel c (ix r (-1)) (ix r (Z.of_nat j - 1)) n w =
  (Ok (match last_below c (key <$> recs) j with Some i => inl (ix r (Z.of_nat i)) | None => inr (n + Z.of_nat j) end), w).
Proof.
  induction j as [|j IH]; intros [|fuel] n Hf Hj; try lia; cbn [find_back last_below].
  - rewrite Z.eqb_refl. unfold mret. do 3 f_equal. lia.
  - replace (Z.of_nat (S j) - 1) with (Z.of_nat j) by lia. pose proof (ri_len _ _ _ Hr). pose proof (ri_size _ _ _ Hr).
    destruct (lookup_lt_is_Some_2 l j ltac:(lia)) as [x Hx]. destruct (entry_at j x Hx) as (b & Hb & Hrec & Hpb).
    rewrite (proj2 (Z.eqb_neq _ _)) by (intros E%(ix_inj _ _ _ Hr); lia).
    rewrite (mbind_run mget _ w w w eq_refl), (mbind_run _ _ _ _ _ (ring_get_run _ _ _ Hr j x w Ew Hx)).
    rewrite (mbind_run _ _ _ _ _ (clock_at_points _ _ _ w Hrec Hpb)), list_lookup_fmap, Hb. simpl.
    destruct (key b <? c); [done|]. rewrite Ew. unfold ix at 2 3. rewrite mod_prev by apply (size_pos _ _ _ Hr).
    fold (ix r (Z.of_nat j - 1)). rewrite IH by lia. destruct (last_below _ _ _); [done|]. do 3 f_equal. lia.
Qed.

Lemma find_destination_run c : find_destination c w =
  (match destination m c (key <$> recs) with Some j => Ok (ix r (Z.of_nat j)) | None => Err end, w).
Proof.
  pose proof (ri_size _ _ _ Hr) as Hsz. pose proof (ri_len _ _ _ Hr) as Hl. pose proof (size_pos _ _ _ Hr) as Hn.
  assert (forall k, (if 0 <=? ix r k - 1 then ix r k - 1 else rg_size r - 1) = ix r (k - 1)) as Eprev.
  { intros k. rewrite Z.leb_antisym. unfold ix. rewrite <- mod_prev by done. by destruct (_ <? _). }
  pose proof (Eprev (len l)) as Estart. rewrite <- (ri_tail _ _ _ Hr) in Estart.
  pose proof (Eprev 0) as Eend. rewrite (ix_0 _ _ _ Hr) in Eend. change (0 - 1) with (-1) in Eend.
  unfold find_destination, ring_fuel. rewrite (mbind_run mget _ w w w eq_refl), Ew. cbv zeta. rewrite Estart, Eend.
  pose proof (Forall2_length Hp) as Elen.
  rewrite (mbind_run _ _ _ _ _ (find_back_run c (length l) (S (Z.to_nat (rg_size r))) 0 ltac:(lia) ltac:(lia))).
  unfold destination. rewrite length_fmap, <- Elen. destruct (last_below _ _ _) as [j|]; [done|].
  rewrite Hsz. destruct (Nat.ltb_spec (length l) m).
  - rewrite (proj2 (Z.ltb_lt _ _)) by lia. assert (rg_head r = 0) as Eh by (destruct (ri_start _ _ _ Hr); [done|lia]).
    assert (ix r (len l) = len l) as Et by (unfold ix; rewrite Eh; apply Z.mod_small; lia).
    rewrite (ri_tail _ _ _ Hr), Et, Eh, Z.eqb_refl. simpl. rewrite (proj2 (Z.leb_gt _ _)) by lia.
    unfold ix. by rewrite Eh.
  - by rewrite (proj2 (Z.ltb_ge _ _)) by lia.
Qed.

(** The ring from [j] on, when the records there are sorted. *)
Lemma ring_check_run k : forall fuel j last, (k < fuel)%nat -> (j + k = length l)%nat ->
  StronglySorted (fun a b => key a <= key b) (drop j recs) -> Forall (fun b => last <= key b) (drop j recs) ->
  ring_check_from fuel (ix r (Z.of_nat j)) last w = (Ok tt, w).
Proof.
  induction k as [|k IH]; intros [|fuel] j last Hf Hj Hs Hlast; try lia; cbn [ring_check_from];
    rewrite (mbind_run mget _ w w w eq_refl), Ew; cbv zeta; rewrite (ri_tail _ _ _ Hr).
  - replace (Z.of_nat j) with (len l) by lia. by rewrite Z.eqb_refl.
  - pose proof (ri_len _ _ _ Hr). pose proof (ri_size _ _ _ Hr).
    destruct (lookup_lt_is_Some_2 l j ltac:(lia)) as [x Hx]. destruct (entry_at j x Hx) as (b & Hb & Hrec & Hpb).
    rewrite (proj2 (Z.eqb_neq _ _)) by (intros E%(ix_inj _ _ _ Hr); lia).
    rewrite (mbind_run _ _ _ _ _ (ring_get_run _ _ _ Hr j x w Ew Hx)), (mbind_run _ _ _ _ _ (clock_at_points _ _ _ w Hrec Hpb)).
    rewrite (drop_S _ _ _ Hb) in Hs, Hlast. apply list.Forall_cons in Hlast as [Hlb Hlast]. inversion Hs as [|? ? Hs' Hbs]; subst.
    rewrite (proj2 (Z.ltb_ge _ _)) by done. unfold ix at 1. rewrite rem_next by apply (size_pos _ _ _ Hr).
    fold (ix (w_ring w) (Z.of_nat j + 1)). replace (Z.of_nat j + 1) with (Z.of_nat (S j)) by lia. apply IH; [lia|lia|done|done].
Qed.
End Scan.

(** The entries from [j] on become the offsets of the records there. *)
Lemma rebuild_run m recs : forall fuel r l j p pre post w, ring_inv m r l -> w_ring w = r -> (length recs < fuel)%nat ->
  (j + length recs = length l)%nat -> Forall record recs -> mapped w = pre ++ concat recs ++ post -> p = len pre ->
  exists r', rebuild_from fuel (ix r (Z.of_nat j)) p (p + len (concat recs)) w = (Ok (p + len (concat recs)), set_w_ring r' w) /\
    ring_inv m r' (take j l ++ offs p recs) /\ rg_head r' = rg_head r.
Proof.
  induction recs as [|b recs IH]; intros [|fuel] r l j p pre post w Hr Ew Hf Hj Hz Hm ->; simpl in Hf, Hj; try lia;
    cbn [rebuild_from]; rewrite (mbind_run mget _ w w w eq_refl), Ew; cbv zeta; rewrite (ri_tail _ _ _ Hr).
  - replace (Z.of_nat j) with (len l) by lia. rewrite Z.eqb_refl. exists r. split.
    + unfold mret. f_equal; [f_equal; simpl; lia|]. subst r. by destruct w.
    + simpl. by rewrite app_nil_r, take_ge by lia.
  - pose proof (ri_len _ _ _ Hr). pose proof (ri_size _ _ _ Hr) as Hsz. apply list.Forall_cons in Hz as [Hb Hz]. pose proof (record_len b Hb).
    destruct (lookup_lt_is_Some_2 l j ltac:(lia)) as [x Hx].
    rewrite (proj2 (Z.eqb_neq _ _)) by (intros E%(ix_inj _ _ _ Hr); lia).
    rewrite (mbind_run _ _ _ _ _ (ring_get_run _ _ _ Hr j x w Ew Hx)).
    change (concat (b :: recs)) with (b ++ concat recs) in *. rewrite length_app in *.
    rewrite (proj2 (Z.leb_gt _ _)) by lia.
    rewrite (mbind_run _ _ _ _ _ (ring_put_run r (ix r (Z.of_nat j)) (len pre) w Ew (ix_range _ _ _ Hr _))).
    set (r1 := set_rg_ev _ r). set (w1 := set_w_ring r1 w).
    assert (mapped w = pre ++ (b ++ concat recs) ++ post) as Hm' by done. rewrite Hm'.
    rewrite (mbind_run _ _ _ _ _ (size_at_points _ _ _ w1 Hb (points_head pre b (concat recs) post))).
    assert (ring_inv m r1 (<[j := len pre]> l)) as Hr1.
    { destruct Hr as [R1 R2 R3 R4 R5 R6 R7]. split; simpl; rewrite ?length_insert; try done.
      intros k y Hk. change (ix r1 (Z.of_nat k)) with (ix r (Z.of_nat k)). destruct (decide (k = j)) as [->|Hne].
      - rewrite list_lookup_insert_eq in Hk by lia. injection Hk as <-. apply lookup_insert_eq.
      - rewrite list_lookup_insert_ne in Hk by done. pose proof (lookup_lt_Some _ _ _ Hk).
        rewrite lookup_insert_ne; [by apply R7|]. intros E%(ix_inj m r l); [lia|done|lia]. }
    unfold ix. rewrite mod_next by lia. change ((rg_head r + (Z.of_nat j + 1)) mod rg_size r) with (ix r1 (Z.of_nat j + 1)).
    replace (Z.of_nat j + 1) with (Z.of_nat (S j)) by lia.
    replace (len pre + Z.of_nat (length b + length (concat recs))) with (len pre + len b + len (concat recs)) by lia.
    destruct (IH fuel r1 (<[j := len pre]> l) (S j) (len pre + len b) (pre ++ b) post w1 Hr1 eq_refl ltac:(lia)
      ltac:(rewrite length_insert; lia) Hz ltac:(by rewrite <- points_next) ltac:(by rewrite len_snoc)) as (r' & E & Hr' & Eh).
    exists r'. rewrite E. split_and!; [done| |done]. simpl offs.
    rewrite (take_S_r _ _ (len pre)), take_insert_ge in Hr' by (lia || (by apply list_lookup_insert_eq; lia)).
    by rewrite <- app_assoc in Hr'.
Qed.

(** ** The sort plan *)

Lemma offs_lookup recs : forall p k, (k < length recs)%nat -> offs p recs !! k = Some (p + len (concat (take k recs))).
Proof.
  induction recs as [|b recs IH]; intros p [|k] Hk; simpl in *; try lia.
  - f_equal. lia.
  - rewrite IH, length_app by lia. f_equal. lia.
Qed.

Lemma take_offs recs : forall p k, take k (offs p recs) = offs p (take k recs).
Proof. induction recs as [|b recs IH]; intros p [|k]; simpl; try done. by rewrite IH. Qed.

Lemma take_drop_concat (l : list (list Z)) k : concat l = concat (take k l) ++ concat (drop k l).
Proof. by rewrite <- concat_app, take_drop. Qed.

(** Replacing the records from [p] on, in the window. *)
Lemma window_replace {A} m (d l : list A) p : (length d - m <= p <= length d)%nat -> length l = length (drop p d) ->
  window m (take p d ++ l) = take (p - (length d - m)) (window m d) ++ l.
Proof.
  intros Hp Hl. rewrite length_drop in Hl. unfold window. rewrite length_app, length_take, Hl.
  replace (p `min` length d + (length d - p) - m)%nat with (length d - m)%nat by lia.
  rewrite drop_app_le by (rewrite length_take; lia). f_equal. by rewrite skipn_firstn_comm.
Qed.

(** Where the region that begins with [c] goes, as an index of the records. *)
Definition dest (m : nat) (c : Z) (done : list (list Z)) : option nat :=
  Nat.add (length done - m) <$> destination m c (key <$> window m done).

(** The least clock of a region. *)
Definition region_min (bad : list (list Z)) : Z := match bad with [] => 0 | b :: _ => least (key b) bad end.

Lemma least_le recs m : least m recs <= m.
Proof.
  unfold least. revert m. induction recs as [|b recs IH]; intros m; simpl; [lia|]. specialize (IH (if key b <? m then key b else m)).
  destruct (Z.ltb_spec (key b) m); lia.
Qed.

Lemma last_below_Some c keys j i : last_below c keys j = Some i -> (i < j)%nat /\ exists k, keys !! i = Some k /\ k < c /\
  forall i', (i < i' < j)%nat -> forall k', keys !! i' = Some k' -> c <= k'.
Proof.
  induction j as [|j IH]; simpl; [done|]. destruct (keys !! j) as [k|] eqn:E; [|done].
  destruct (Z.ltb_spec k c).
  - intros [= <-]. split; [lia|]. exists k. split_and!; [done|lia|]. intros i' Hi'. lia.
  - intros (? & k' & Hk' & ? & Hrest)%IH. split; [lia|]. exists k'. split_and!; [done|lia|].
    intros i' Hi' k2 Hk2. destruct (decide (i' = j)) as [->|]; [by simplify_eq|]. apply (Hrest i'); [lia|done].
Qed.

Lemma destination_lt m c keys j : (0 < length keys)%nat -> destination m c keys = Some j -> (j < length keys)%nat.
Proof.
  unfold destination. intros H. destruct (last_below _ _ _) as [i|] eqn:E.
  - intros [= ->]. by apply last_below_Some in E as [? _].
  - case_match; [by intros [= <-]|done].
Qed.

(** The stream stands at the record [b], after [done], and the ring has the
    last records. *)
Record at_event (m : nat) (done : list (list Z)) (b : list Z) (rest : list (list Z)) (w : winsort) : Prop := {
  ae_stands : stands_at (stream_header ++ concat done) b (concat rest) (w_stream w);
  ae_unsorted : s_unsorted (w_stream w) = true;
  ae_offset : s_clock_offset (w_stream w) = 0;
  ae_last : 0 <= s_lastclock (w_stream w) < 2 ^ 63;
  ae_room : len (mapped w) < 2 ^ 63;
  ae_ring : ring_inv m (w_ring w) (window m (offs 8 done))
}.

Lemma at_event_points m done b rest w : at_event m done b rest w ->
  Forall2 (points (mapped w)) (window m (offs 8 done)) (window m done).
Proof.
  intros [(Hb & _) _ _ _ _ _]. unfold window. rewrite length_offs. apply Forall2_drop. unfold mapped. rewrite Hb, <- app_assoc.
  apply (offs_points stream_header done (b ++ concat rest)).
Qed.

Section Plan.
Variables (wr : nat -> Z -> Z) (qsort : (Z -> Z -> Z) -> list Z -> list Z).
Hypothesis qsort_ok : qsorts qsort.
Hypothesis wr_ok : pwrites wr.

Lemma len_header (l : list Z) : len (stream_header ++ l) = 8 + len l.
Proof. rewrite length_app, Nat2Z.inj_add. done. Qed.

(** The sorted records [l] take the place of those from [p] on. *)
Lemma replace_run m done b rest w p l : Forall record done -> at_event m done b rest w ->
  (length done - m <= p < length done)%nat -> l ≡ₚ drop p done -> sorted_keys l ->
  let first := 8 + len (concat (take p done)) in
  let i0 := ix (w_ring w) (Z.of_nat (p - (length done - m))) in
  exists w', (write_stream wr (S (length (concat l))) first (concat l) ;;;
              rebuild_ring i0 first (8 + len (concat done)) ;;; ring_check i0) w = (Ok tt, w') /\
    at_event m (take p done ++ l) b rest w'.
Proof.
  intros Hz Hat Hp Hl Hs first i0. destruct (ae_stands _ _ _ _ _ Hat) as (Hbuf & Hsize & Hact & Hoff & Hcur).
  set (pre := stream_header ++ concat (take p done)). set (post := b ++ concat rest).
  assert (len pre = first) as Epre by (apply len_header).
  assert (mapped w = pre ++ concat (drop p done) ++ post) as Em.
  { unfold mapped, pre, post. rewrite Hbuf, (take_drop_concat done p). by rewrite <- !app_assoc. }
  assert (length (concat l) = length (concat (drop p done))) as Elen by (by rewrite Hl).
  pose proof (Permutation_length Hl) as Elr. rewrite length_drop in Elr.
  assert (Forall record l) as Hzl by (rewrite Hl; by apply Forall_drop).
  destruct (write_stream_run wr wr_ok (S (length (concat l))) pre (concat (drop p done)) (concat l) post w ltac:(lia) Elen Em)
    as (k & E1). rewrite Epre in E1. rewrite (mbind_run _ _ _ _ _ E1). set (w1 := mk_winsort _ _ k) in *.
  pose proof (ae_ring _ _ _ _ _ Hat) as Hr. pose proof (ri_size _ _ _ Hr) as Hsz.
  set (j := (p - (length done - m))%nat) in *. set (lw := window m (offs 8 done)) in *.
  assert (length lw = (m `min` length done)%nat) as Elw by (unfold lw; by rewrite length_window, length_offs).
  assert (len (concat done) = len (concat (take p done)) + len (concat l)) as Ecd
    by (rewrite (take_drop_concat done p), length_app; lia).
  destruct (rebuild_run m l (ring_fuel w1) (w_ring w1) lw j first pre post w1 Hr eq_refl) as (r2 & E2 & Hr2 & Eh2);
    [unfold ring_fuel; simpl; lia|lia|done|done|done|].
  change (ix (w_ring w1) (Z.of_nat j)) with i0 in E2. replace (first + len (concat l)) with (8 + len (concat done)) in E2 by (unfold first; lia).
  assert (rebuild_ring i0 first (8 + len (concat done)) w1 = (Ok tt, set_w_ring r2 w1)) as E2'.
  { unfold rebuild_ring. rewrite (mbind_run mget _ w1 w1 w1 eq_refl), (mbind_run _ _ _ _ _ E2). by rewrite Z.eqb_refl. }
  rewrite (mbind_run _ _ _ _ _ E2'). set (w2 := set_w_ring r2 w1) in *.
  assert (window m (offs 8 (take p done ++ l)) = take j lw ++ offs first l) as Ewin.
  { rewrite offs_app, <- take_offs. unfold lw, j. rewrite <- (length_offs 8 done). apply window_replace;
      rewrite ?length_drop, ?length_offs; lia. }
  rewrite <- Ewin in Hr2. assert (at_event m (take p done ++ l) b rest w2) as Hat2.
  { assert (length (stream_header ++ concat (take p done ++ l)) = length (stream_header ++ concat done)) as Eh.
    { rewrite !length_app, concat_app, length_app. lia. }
    split; try apply Hat; [..|done].
    - split_and!; simpl; try done.
      + unfold pre, post. rewrite concat_app. by rewrite <- !app_assoc.
      + rewrite Hsize, Hbuf. unfold pre, post. rewrite !length_app. change (length stream_header) with 8%nat. lia.
      + rewrite Hoff. by rewrite <- Eh.
    - replace (length (mapped w2)) with (length (mapped w)); [apply Hat|]. rewrite Em. simpl. rewrite !length_app. lia. }
  exists w2. split; [|done]. unfold ring_check. rewrite (mbind_run mget _ w2 w2 w2 eq_refl).
  pose proof (at_event_points _ _ _ _ _ Hat2) as Hp2.
  assert (i0 = ix (w_ring w2) (Z.of_nat j)) as ->.
  { unfold i0, ix. simpl. by rewrite (ri_size _ _ _ Hr2), Hsz, Eh2. }
  assert (drop j (window m (take p done ++ l)) = l) as Edrop.
  { rewrite window_replace by (rewrite ?length_drop; lia). fold j.
    by rewrite drop_app_length' by (rewrite length_take, length_window; lia). }
  assert (Forall record (window m (take p done ++ l))) as Hzw.
  { unfold window. apply Forall_drop, Forall_app. split; [by apply Forall_take|done]. }
  apply (ring_check_run m r2 _ _ w2 Hr2 eq_refl Hp2 Hzw (length l)).
  - unfold ring_fuel. simpl. rewrite (ri_size _ _ _ Hr2). lia.
  - rewrite length_window, length_offs, length_app, length_take. lia.
  - by rewrite Edrop.
  - rewrite Edrop. eapply list.Forall_impl; [exact Hzl|]. intros c [_ ?]. lia.
Qed.
(** The least clock of the region, as [execute_sort_plan] finds it. *)
Lemma region_min_run A bad C w : Forall record bad -> bad <> [] -> mapped w = A ++ concat bad ++ C ->
  exists c0, clock_at (mapped w) (len A) w = (Ok c0, w) /\
    exists c1, find_min_clock (mapped w) (len A) (len A + len (concat bad)) w = (Ok c1, w) /\
      (if c1 <? c0 then c1 else c0) = region_min bad.
Proof.
  intros Hz Hne Em. destruct bad as [|b0 bad]; [done|]. exists (key b0).
  assert (clock_at (mapped w) (len A) w = (Ok (key b0), w)) as E0.
  { apply clock_at_points; [by apply list.Forall_cons in Hz as [? _]|]. rewrite Em. apply points_head. }
  split; [done|]. exists (least (key b0) (b0 :: bad)). split.
  - unfold find_min_clock. rewrite (mbind_run _ _ _ _ _ E0), Em. apply min_clock_run; [done|]. unfold bytes_fuel. lia.
  - unfold region_min. pose proof (least_le (b0 :: bad) (key b0)). destruct (Z.ltb_spec (least (key b0) (b0 :: bad)) (key b0)); lia.
Qed.

Lemma dest_bounds m c done p : (0 < m)%nat -> (0 < length done)%nat -> dest m c done = Some p ->
  (length done - m <= p < length done)%nat.
Proof.
  intros Hm Hn (j & Hj & ->)%fmap_Some. apply destination_lt in Hj; rewrite length_fmap, length_window in *; lia.
Qed.

Lemma execute_sort_plan_run m pre bad b rest w : Forall record (pre ++ bad) -> bad <> [] ->
  at_event m (pre ++ bad) b rest w ->
  match dest m (region_min bad) (pre ++ bad) with
  | None => exists w', execute_sort_plan wr qsort (8 + len (concat pre)) (8 + len (concat (pre ++ bad))) w = (Err, w')
  | Some p => exists l w', execute_sort_plan wr qsort (8 + len (concat pre)) (8 + len (concat (pre ++ bad))) w = (Ok tt, w') /\
      l ≡ₚ drop p (pre ++ bad) /\ sorted_keys l /\ at_event m (take p (pre ++ bad) ++ l) b rest w'
  end.
Proof.
  intros Hz Hbad Hat. pose proof (ae_ring _ _ _ _ _ Hat) as Hr. pose proof (at_event_points _ _ _ _ _ Hat) as Hp.
  destruct (ae_stands _ _ _ _ _ Hat) as (Hbuf & _). fold (mapped w) in Hbuf.
  assert (0 < length (pre ++ bad))%nat as Hn by (rewrite length_app; destruct bad; [done|simpl; lia]).
  assert (mapped w = (stream_header ++ concat pre) ++ concat bad ++ (b ++ concat rest)) as Em
    by (by rewrite Hbuf, concat_app, <- !app_assoc).
  destruct (region_min_run _ bad _ w (proj2 (proj1 (Forall_app _ _ _) Hz)) Hbad Em) as (c0 & E0 & c1 & E1 & Ec).
  rewrite len_header in E0, E1. rewrite concat_app, length_app, Nat2Z.inj_add, Z.add_assoc.
  set (done := pre ++ bad) in *. unfold execute_sort_plan. rewrite (mbind_run mget _ w w w eq_refl).
  rewrite (mbind_run _ _ _ _ _ E0), (mbind_run _ _ _ _ _ E1), Ec. cbv zeta.
  assert (Forall record (window m done)) as Hzw by (unfold window; by apply Forall_drop).
  pose proof (find_destination_run m (w_ring w) _ _ w Hr eq_refl Hp Hzw (region_min bad)) as Ef. unfold dest.
  destruct (destination m (region_min bad) (key <$> window m done)) as [j|] eqn:Ed; simpl; last first.
  { exists w. unfold mbind. by rewrite Ef. }
  set (p := (length done - m + j)%nat). assert (length done - m <= p < length done)%nat as Hpb.
  { apply (dest_bounds m (region_min bad)); [apply Hr|done|]. unfold dest. by rewrite Ed. }
  rewrite (mbind_run _ _ _ _ _ Ef). assert (window m (offs 8 done) !! j = Some (8 + len (concat (take p done)))) as Ej.
  { unfold window. rewrite lookup_drop, length_offs. apply offs_lookup; lia. }
  rewrite (mbind_run _ _ _ _ _ (ring_get_run _ _ _ Hr j _ w eq_refl Ej)).
  set (first := 8 + len (concat (take p done))) in *.
  assert (8 + len (concat pre) + len (concat bad) = first + len (concat (drop p done))) as Enext.
  { unfold first. pose proof (take_drop_concat done p) as Et. unfold done at 1 in Et. rewrite concat_app in Et.
    apply (f_equal length) in Et. rewrite !length_app in Et. lia. }
  pose proof (ae_room _ _ _ _ _ Hat) as Hroom.
  assert (mapped w = (stream_header ++ concat (take p done)) ++ concat (drop p done) ++ (b ++ concat rest)) as Em2
    by (by rewrite Hbuf, (take_drop_concat done p), <- !app_assoc).
  assert (0 < len (concat (drop p done)) < 2 ^ 63) as Hb.
  { split; [|rewrite Em2, !length_app in Hroom; lia]. destruct (drop p done) as [|b1 l1] eqn:Edr.
    - apply (f_equal length) in Edr. rewrite length_drop in Edr. simpl in Edr. lia.
    - assert (record b1) as Hb1%record_len by (eapply Forall_inv with (l := l1); rewrite <- Edr; by apply Forall_drop).
      simpl. rewrite length_app. lia. }
  rewrite Enext. replace (first + len (concat (drop p done)) - first) with (len (concat (drop p done))) by lia.
  unfold u64. rewrite wrapu_id by (unfold in_u; lia). rewrite (proj2 (Z.eqb_neq _ _)), (proj2 (Z.leb_gt _ _)) by lia.
  destruct (sort_buf_run qsort qsort_ok _ (drop p done) _ w (Forall_drop _ _ _ Hz) Em2) as (l & Es & Hl & Hs).
  rewrite len_header in Es. fold first in Es. rewrite (mbind_run _ _ _ _ _ Es).
  destruct (replace_run m done b rest w p l Hz Hat Hpb Hl Hs) as (w' & Ew & Hat').
  exists l, w'. split_and!; [|done..]. rewrite <- Ew. replace (p - (length done - m))%nat with j by lia.
  fold first. do 2 f_equal. replace (8 + len (concat done)) with (first + len (concat (drop p done))); [done|].
  unfold first. pose proof (take_drop_concat done p) as Et. apply (f_equal length) in Et. rewrite length_app in Et. lia.
Qed.
End Plan.

(** ** The abstract tool *)

Lemma stream_step_buf s : s_buf (stream_step s).2 = s_buf s.
Proof.
  assert (keeps (fun s' => s_buf s' = s_buf s) stream_step) as K; [|by apply K].
  unfold stream_step, load_event, stream_evclock, ovni_ev_size, ovni_payload_size, get_jumbo_payload_size, ev_flags,
    ovni_ev_get_clock, mem_at, add64.
  repeat first [progress kbind | apply keeps_get | apply keeps_deref | apply keeps_ret | apply keeps_fail | apply keeps_ub
    | by intros s' <- | case_match].
Qed.

(** Outside a region, after its first mark, and after [n] of its records. *)
Inductive aregion := A_SORTED | A_OPEN | A_UNSORTED (n : nat).

Definition opens (b : list Z) : bool := is_ch (b !!! 1%nat) "O" && is_ch (b !!! 2%nat) "U" && is_ch (b !!! 3%nat) "[".
Definition closes (b : list Z) : bool := is_ch (b !!! 1%nat) "O" && is_ch (b !!! 2%nat) "U" && is_ch (b !!! 3%nat) "]".

(** What the event [b] does to the records [done] before it: sorting from where
    the region goes, or failing. *)
Inductive astep (m : nat) : aregion -> list (list Z) -> list Z -> option (aregion * list (list Z)) -> Prop :=
| as_sorted done b : astep m A_SORTED done b (Some (if opens b then A_OPEN else A_SORTED, done))
| as_open done b : astep m A_OPEN done b (Some (if closes b then A_SORTED else A_UNSORTED 1, done))
| as_unsorted n done b : closes b = false -> astep m (A_UNSORTED n) done b (Some (A_UNSORTED (S n), done))
| as_close n pre bad b p l : closes b = true -> length bad = n -> dest m (region_min bad) (pre ++ bad) = Some p ->
    l ≡ₚ drop p (pre ++ bad) -> sorted_keys l ->
    astep m (A_UNSORTED n) (pre ++ bad) b (Some (A_SORTED, take p (pre ++ bad) ++ l))
| as_too_far n pre bad b : closes b = true -> length bad = n -> dest m (region_min bad) (pre ++ bad) = None ->
    astep m (A_UNSORTED n) (pre ++ bad) b None.

(** The run over the records to come: the records at the end, or [None] when the
    ring was too short. *)
Inductive asorts (m : nat) : aregion -> list (list Z) -> list (list Z) -> option (list (list Z)) -> Prop :=
| ar_end a done : asorts m a done [] (Some done)
| ar_step a done b rest a' done' res : astep m a done b (Some (a', done')) ->
    asorts m a' (done' ++ [b]) rest res -> asorts m a done (b :: rest) res
| ar_fail a done b rest : astep m a done b None -> asorts m a done (b :: rest) None.

Definition region_is (a : aregion) (done : list (list Z)) (st : region) : Prop :=
  match a, st with
  | A_SORTED, ST_SORTED | A_OPEN, ST_OPEN => True
  | A_UNSORTED n, ST_UNSORTED bad0 => exists pre bad, done = pre ++ bad /\ length bad = n /\ (0 < n)%nat /\ bad0 = 8 + len (concat pre)
  | _, _ => False
  end.

Lemma has_mcv_run m c v b post w : record b -> has_mcv m c v (b ++ post) w =
  (Ok (is_ch (b !!! 1%nat) m && is_ch (b !!! 2%nat) c && is_ch (b !!! 3%nat) v), w).
Proof.
  intros [(_ & Hl & _) _]. unfold has_mcv. by rewrite !lookup_byte by lia.
Qed.

Lemma at_event_offset m done b rest w : at_event m done b rest w -> s_cur_ev (w_stream w) = Some (8 + len (concat done)).
Proof. intros [(_ & _ & _ & Ho & Hc) _ _ _ _ _]. by rewrite Hc, Ho, len_header. Qed.

Lemma at_event_mem m done b rest w : at_event m done b rest w ->
  mem_at (mapped w) (8 + len (concat done)) w = (Ok (b ++ concat rest), w).
Proof. intros [(Hb & _) _ _ _ _ _]. unfold mapped. rewrite Hb, <- len_header. apply mem_at_app. Qed.

(** The file of the records. *)
Definition sort_file (recs : list (list Z)) : list Z := stream_header ++ concat recs.

(** The first step. *)
Lemma first_step b rest : record b -> exists s', stream_step (opened (sort_file (b :: rest)) 0 true) = (Ok 0, s') /\
  stands_at stream_header b (concat rest) s' /\ s_unsorted s' = true /\ s_clock_offset s' = 0 /\ s_lastclock s' = key b /\
  s_buf s' = sort_file (b :: rest).
Proof.
  intros Hr. set (s := opened (sort_file (b :: rest)) 0 true). assert (s_active s = true) as Hact.
  { pose proof (record_len b Hr). apply Z.ltb_lt. unfold sort_file. rewrite len_header. simpl. rewrite length_app. lia. }
  assert (stream_step s = load_event s) as ->.
  { unfold stream_step. rewrite (mbind_run mget _ s s s) by done. by rewrite Hact. }
  destruct Hr as [Hb Hk]. assert (rec_sclock (s_clock_offset s) b = key b) as Ec
    by (unfold rec_sclock; simpl; rewrite Z.add_0_r; by apply small_i64).
  rewrite (load_event_run stream_header b (concat rest) s Hb eq_refl eq_refl eq_refl), Ec.
  - eexists. split_and!; [done| |done..]. by split_and!.
  - unfold clocks_ok. rewrite Ec. simpl s_lastclock. unfold in_s. simpl. split_and!; [lia..|by left|done].
Qed.

Section Loop.
Variables (wr : nat -> Z -> Z) (qsort : (Z -> Z -> Z) -> list Z -> list Z) (m : nat).
Hypothesis qsort_ok : qsorts qsort.
Hypothesis wr_ok : pwrites wr.

Lemma winsort_event_run a done b rest v w : Forall record done -> record b -> at_event m done b rest w ->
  region_is a done (wv_st v) ->
  exists res, astep m a done b res /\
    match res with
    | None => exists w', winsort_event wr qsort v (8 + len (concat done)) w = (Err, w')
    | Some (a', done') => done' ≡ₚ done /\ exists v' w', winsort_event wr qsort v (8 + len (concat done)) w = (Ok v', w') /\
        region_is a' (done' ++ [b]) (wv_st v') /\ at_event m done' b rest w'
    end.
Proof.
  intros Hz Hb Hat Ha. unfold winsort_event. rewrite (mbind_run mget _ w w w eq_refl), (mbind_run _ _ _ _ _ (at_event_mem _ _ _ _ _ Hat)).
  unfold starts_unsorted_region, ends_unsorted_region.
  destruct a as [| |n], (wv_st v) as [| |bad0] eqn:Ev; try done; rewrite (mbind_run _ _ _ _ _ (has_mcv_run _ _ _ _ _ w Hb)).
  - eexists. split; [constructor|]. split; [done|]. eexists _, w. split; [done|]. unfold opens. split; [|done]. by destruct (_ && _).
  - eexists. split; [constructor|]. split; [done|]. eexists _, w. split; [done|]. split; [|done].
    unfold closes. destruct (_ && _); [done|]. simpl. exists done, [b]. auto.
  - destruct Ha as (pre & bad & -> & En & Hn & ->). fold (closes b). destruct (closes b) eqn:Hc.
    + assert (bad <> []) as Hbad by (destruct bad; [simpl in En; lia|done]).
      pose proof (execute_sort_plan_run wr qsort qsort_ok wr_ok m pre bad b rest w Hz Hbad Hat) as Hrun.
      destruct (dest m (region_min bad) (pre ++ bad)) as [p|] eqn:Ed.
      * destruct Hrun as (l & w' & E & Hl & Hs & Hat'). exists (Some (A_SORTED, take p (pre ++ bad) ++ l)).
        split; [by apply as_close|]. split; [by rewrite Hl, take_drop|]. eexists _, w'.
        rewrite (mbind_run _ _ _ _ _ E). by split.
      * destruct Hrun as (w' & E). exists None. split; [by apply as_too_far|]. exists w'. unfold mbind. by rewrite E.
    + eexists. split; [by constructor|]. split; [done|]. exists v, w. split; [done|]. split; [|done].
      rewrite Ev. exists pre, (bad ++ [b]). rewrite length_app, <- app_assoc. simpl. split_and!; [done|lia|lia|done].
Qed.

(** The stream stands at [b], which is in the ring. *)
Definition after_event (done : list (list Z)) (b : list Z) (rest : list (list Z)) (w : winsort) : Prop :=
  exists r, at_event m done b rest (set_w_ring r w) /\ ring_inv m (w_ring w) (window m (offs 8 (done ++ [b]))).

Lemma ring_add_event done b rest w x : at_event m done b rest w -> x = 8 + len (concat done) ->
  exists w', ring_add x w = (Ok tt, w') /\ after_event done b rest w'.
Proof.
  intros Hat ->. pose proof (ae_ring _ _ _ _ _ Hat) as Hr.
  destruct (ring_add_run m (w_ring w) _ Hr (8 + len (concat done)) w eq_refl) as (r' & E & Hr').
  exists (set_w_ring r' w). split; [done|]. exists (w_ring w). split; [by destruct w|]. simpl.
  rewrite offs_app. change (offs (8 + len (concat done)) [b]) with [8 + len (concat done)].
  by rewrite window_snoc by apply Hr.
Qed.

(** The step to the next record. *)
Lemma next_event done b b' rest w : record b -> record b' -> after_event done b (b' :: rest) w ->
  exists w', on_stream stream_step w = (Ok 0, w') /\ at_event m (done ++ [b]) b' rest w'.
Proof.
  intros [Hb _] [Hb' Hk'] (r & [Hst Hu Ho Hl Hroom _] & Hr). cbn [w_stream w_ring set_w_ring] in *.
  destruct (stream_step_next _ b b' (concat rest) (w_stream w) Hb Hb' Hst) as (s' & E & Hst' & Eo & Eu & El).
  - rewrite Ho. unfold clocks_ok, rec_sclock. rewrite Z.add_0_r, (small_i64 (rec_clock b')) by exact Hk'.
    unfold key in Hk'. unfold in_s. simpl. split_and!; [lia|lia|lia|lia|by left|done].
  - unfold on_stream. rewrite E. eexists. split; [done|]. unfold rec_sclock in El. rewrite Ho, Z.add_0_r, (small_i64 (rec_clock b')) in El by exact Hk'.
    split; cbn [w_stream w_ring set_w_stream]; try congruence.
    + rewrite concat_app. change (concat [b]) with (b ++ []). by rewrite app_nil_r, app_assoc.
    + by rewrite El.
    + unfold mapped in *. cbn [w_stream set_w_stream set_w_ring] in *. destruct Hst as (Hb1 & _), Hst' as (Hb2 & _).
      rewrite Hb2. rewrite Hb1 in Hroom. by rewrite <- app_assoc.
Qed.

Lemma last_event done b w : record b -> after_event done b [] w ->
  exists w', on_stream stream_step w = (Ok 1, w') /\ mapped w' = stream_header ++ concat (done ++ [b]) /\ w_ring w' = w_ring w.
Proof.
  intros [Hb _] (r & [Hst _ _ _ _ _] & _). cbn [w_stream set_w_ring] in *.
  destruct (stream_step_last _ b (w_stream w) Hb Hst) as (s' & E & _). unfold on_stream. rewrite E. eexists. split; [done|].
  unfold mapped. simpl. split; [|done]. pose proof (stream_step_buf (w_stream w)) as Hbuf. rewrite E in Hbuf. simpl in Hbuf. rewrite Hbuf.
  destruct Hst as (-> & _). rewrite concat_app. change (concat [b]) with (b ++ []). by rewrite <- !app_assoc.
Qed.

(** The computation runs as the abstract tool does from [done] on. *)
Definition runs_as (a : aregion) (done rest : list (list Z)) (run : M winsort winvars) (w : winsort) : Prop :=
  exists res, asorts m a done rest res /\
    match res with
    | None => exists w', run w = (Err, w')
    | Some recs => exists v' w', run w = (Ok v', w') /\ mapped w' = sort_file recs /\ rg_size (w_ring w') = Z.of_nat m + 1
    end.

(** The body of the loop, at an event. *)
Definition loop_body (fuel : nat) (v : winvars) : M winsort winvars :=
  let* w := mget in
  let* ev := deref (stream_ev (w_stream w)) in
  let* v' := winsort_event wr qsort v ev in
  ring_add ev ;;;
  winsort_loop wr qsort fuel v'.

Lemma body_run fuel a done b rest v w :
  (forall a' done' v' w', Forall record (done' ++ b :: rest) -> after_event done' b rest w' ->
    region_is a' (done' ++ [b]) (wv_st v') -> runs_as a' (done' ++ [b]) rest (winsort_loop wr qsort fuel v') w') ->
  Forall record (done ++ b :: rest) -> at_event m done b rest w -> region_is a done (wv_st v) ->
  runs_as a done (b :: rest) (loop_body fuel v) w.
Proof.
  intros IH Hz Hat Ha. pose proof (proj1 (Forall_app _ _ _) Hz) as [Hzd [Hb Hzr]%list.Forall_cons].
  unfold loop_body, runs_as. rewrite (mbind_run mget _ w w w eq_refl). unfold stream_ev. rewrite (at_event_offset _ _ _ _ _ Hat).
  rewrite (mbind_run (deref (Some _)) _ w _ w eq_refl).
  destruct (winsort_event_run a done b rest v w Hzd Hb Hat Ha) as ([[a' done']|] & Hs & Hres); last first.
  { exists None. split; [by apply ar_fail|]. destruct Hres as (w' & E'). exists w'. unfold mbind. by rewrite E'. }
  destruct Hres as (Hp & v' & w2 & E2 & Ha' & Hat2). rewrite (mbind_run _ _ _ _ _ E2).
  assert (8 + len (concat done) = 8 + len (concat done')) as Eo by (by rewrite Hp).
  destruct (ring_add_event _ _ _ _ _ Hat2 Eo) as (w3 & E3 & Haft3). rewrite (mbind_run _ _ _ _ _ E3).
  destruct (IH a' done' v' w3) as (res & Hr & Hres); [|done|done|].
  - apply Forall_app. split; [by rewrite Hp|by constructor].
  - exists res. split; [by eapply ar_step|done].
Qed.

Lemma loop_run fuel : forall a done b rest v w, Forall record (done ++ b :: rest) -> after_event done b rest w ->
  region_is a (done ++ [b]) (wv_st v) -> (length rest < fuel)%nat ->
  runs_as a (done ++ [b]) rest (winsort_loop wr qsort fuel v) w.
Proof.
  induction fuel as [|fuel IH]; intros a done b rest v w Hz Haft Ha Hf; [lia|]. unfold runs_as. cbn [winsort_loop].
  pose proof (proj1 (Forall_app _ _ _) Hz) as [Hzd [Hb Hzr]%list.Forall_cons].
  destruct rest as [|b' rest].
  - destruct (last_event _ _ _ Hb Haft) as (w' & E & Em & Er). rewrite (mbind_run _ _ _ _ _ E).
    exists (Some (done ++ [b])). split; [constructor|]. exists v, w'. split_and!; [done..|].
    rewrite Er. destruct Haft as (r & _ & Hr). apply (ri_size _ _ _ Hr).
  - destruct (next_event _ _ _ _ _ Hb (Forall_inv Hzr) Haft) as (w1 & E & Hat).
    rewrite (mbind_run _ _ _ _ _ E). change (negb (0 =? 0)) with false. cbv iota.
    apply (body_run fuel); [|by rewrite <- app_assoc|done|done].
    intros. apply IH; [done..|simpl in Hf; lia].
Qed.

Lemma first_event b rest w : record b -> (0 < m)%nat -> rg_size (w_ring w) = Z.of_nat m + 1 -> len (sort_file (b :: rest)) < 2 ^ 63 ->
  w_stream w = opened (sort_file (b :: rest)) 0 true ->
  exists w', on_stream stream_step (set_w_ring (mk_ring 0 0 (rg_size (w_ring w)) (rg_ev (w_ring w))) w) = (Ok 0, w') /\
    at_event m [] b rest w'.
Proof.
  intros Hb Hm Hsz Hroom Ew. destruct (first_step b rest Hb) as (s' & E & Hst & Hu & Ho & Hl & Hbuf).
  unfold on_stream. simpl w_stream. rewrite Ew, E. eexists. split; [done|].
  split; [by rewrite app_nil_r|done|done|simpl w_stream; rewrite Hl; apply Hb|unfold mapped; simpl; by rewrite Hbuf|].
  split; simpl; try lia; done.
Qed.

Lemma winsort_run recs w fuel : rg_size (w_ring w) = Z.of_nat m + 1 -> (0 < m)%nat -> Forall record recs -> recs <> [] ->
  len (sort_file recs) < 2 ^ 63 -> w_stream w = opened (sort_file recs) 0 true -> (length recs <= fuel)%nat ->
  runs_as A_SORTED [] recs (stream_winsort wr qsort (S fuel)) w.
Proof.
  intros Hsz Hm Hz Hne Hroom Ew Hf. destruct recs as [|b rest]; [done|]. clear Hne. unfold runs_as.
  unfold stream_winsort, ring_reset. rewrite (mbind_run (mmod _) _ _ _ _ eq_refl). cbn [winsort_loop].
  destruct (first_event b rest w (Forall_inv Hz) Hm Hsz Hroom Ew) as (w1 & E & Hat). rewrite (mbind_run _ _ _ _ _ E).
  change (negb (0 =? 0)) with false. cbv iota. apply (body_run fuel); [|done..].
  intros. apply loop_run; [done..|simpl in Hf; lia].
Qed.
End Loop.

(** ** What the abstract tool does *)

Lemma astep_perm m a done b a' done' : astep m a done b (Some (a', done')) -> done' ≡ₚ done.
Proof. inversion 1 as [| | |? ? ? ? ? ? ? ? ? Hl|]; subst; try done. by rewrite Hl, take_drop. Qed.

Lemma asorts_perm m a done rest recs : asorts m a done rest (Some recs) -> recs ≡ₚ done ++ rest.
Proof.
  intros H. remember (Some recs) as res eqn:E. revert E.
  induction H as [a done|a done b rest a' done' res Hs _ IH|]; intros E; [|rewrite IH by done|done].
  - injection E as ->. by rewrite app_nil_r.
  - rewrite (astep_perm _ _ _ _ _ _ Hs), <- app_assoc. done.
Qed.

(** A ring with room for the whole stream is long enough. *)
Lemma asorts_room m a done rest : asorts m a done rest None -> (length (done ++ rest) <= m)%nat -> False.
Proof.
  intros H. remember None as res eqn:E. revert E.
  induction H as [|a done b rest a' done' res Hs _ IH|a done b rest Hs]; intros E Hl; [done|..].
  - apply IH; [done|]. rewrite <- app_assoc, length_app, (astep_perm _ _ _ _ _ _ Hs), <- length_app. done.
  - inversion Hs as [| | | |? ? ? ? _ _ Hd]; subst. unfold dest, destination in Hd.
    destruct (last_below _ _ _); [done|]. rewrite length_fmap, length_window in Hd. rewrite length_app in Hl. simpl in Hl.
    destruct (Nat.ltb_spec (m `min` length (pre ++ bad)) m); [done|lia].
Qed.

(** Only the marked regions are out of order, and what they hold is not later
    than their closing mark; [hi] is the last clock so far. *)
Fixpoint tame (a : aregion) (hi : Z) (recs : list (list Z)) : Prop :=
  match recs with
  | [] => match a with A_UNSORTED _ => False | _ => True end
  | b :: rest =>
      match a with
      | A_SORTED => hi <= key b /\ tame (if opens b then A_OPEN else A_SORTED) (key b) rest
      | A_OPEN => if closes b then hi <= key b /\ tame A_SORTED (key b) rest
                  else tame (A_UNSORTED 1) (Z.max hi (key b)) rest
      | A_UNSORTED n => if closes b then hi <= key b /\ tame A_SORTED (key b) rest
                        else tame (A_UNSORTED (S n)) (Z.max hi (key b)) rest
      end
  end.

Lemma sorted_app l1 l2 : sorted_keys l1 -> sorted_keys l2 -> (forall x y, x ∈ l1 -> y ∈ l2 -> key x <= key y) ->
  sorted_keys (l1 ++ l2).
Proof.
  unfold sorted_keys. induction 1 as [|x l1 Hs IH Hx]; intros H2 H12; simpl; [done|]. constructor.
  - apply IH; [done|]. intros y z Hy. apply H12. by right.
  - apply Forall_app. split; [done|]. apply list.Forall_forall. intros y Hy. apply H12; [apply elem_of_cons; by left|done].
Qed.

Lemma sorted_app_inv l1 l2 : sorted_keys (l1 ++ l2) -> sorted_keys l1 /\ sorted_keys l2 /\ forall x y, x ∈ l1 -> y ∈ l2 -> key x <= key y.
Proof.
  unfold sorted_keys. induction l1 as [|x l1 IH]; simpl; [intros; split_and!; [constructor|done|by intros ? ? ?%elem_of_nil]|].
  inversion 1 as [|? ? Hs Hx]; subst. destruct (IH Hs) as (H1 & H2 & H12). apply Forall_app in Hx as [Hx1 Hx2].
  split_and!; [by constructor|done|]. intros y z [->|Hy]%elem_of_cons Hz; [by eapply list.Forall_forall in Hx2|by apply H12].
Qed.

Lemma least_spec recs m : least m recs <= m /\ Forall (fun b => least m recs <= key b) recs.
Proof.
  split; [apply least_le|]. revert m. induction recs as [|b recs IH]; intros m; constructor; [|apply IH].
  unfold least. simpl. pose proof (least_le recs (if key b <? m then key b else m)) as H. unfold least in H.
  destruct (Z.ltb_spec (key b) m); lia.
Qed.

Lemma region_min_spec bad : Forall (fun b => region_min bad <= key b) bad.
Proof. destruct bad as [|b bad]; [constructor|]. apply (least_spec (b :: bad) (key b)). Qed.

(** Where the region goes, everything before is earlier and nothing after is. *)
Lemma dest_sorted m pre bad p l : sorted_keys pre -> dest m (region_min bad) (pre ++ bad) = Some p ->
  l ≡ₚ drop p (pre ++ bad) -> sorted_keys l -> sorted_keys (take p (pre ++ bad) ++ l).
Proof.
  intros Hpre (j & Hj & ->)%fmap_Some Hl Hs. set (done := pre ++ bad) in *. unfold destination in Hj.
  destruct (last_below _ _ _) as [i|] eqn:E; last first.
  { rewrite length_fmap, length_window in Hj. destruct (Nat.ltb_spec (m `min` length done) m); [|done]. injection Hj as <-.
    by replace (length done - m + 0)%nat with 0%nat by lia. }
  injection Hj as <-. apply last_below_Some in E as (_ & k & Hk & Hlt & _). apply list_lookup_fmap_Some in Hk as (b & -> & Hb).
  unfold window in Hb. rewrite lookup_drop in Hb. set (p := (length done - m + i)%nat) in *.
  assert (pre !! p = Some b) as Hpb.
  { unfold done in Hb. apply lookup_app_Some in Hb as [?|[_ Hb]]; [done|exfalso].
    pose proof (region_min_spec bad) as Hr. eapply Forall_lookup_1 in Hr; [|exact Hb]. lia. }
  pose proof (lookup_lt_Some _ _ _ Hpb) as Hlp. rewrite <- (take_drop_middle _ _ _ Hpb) in Hpre.
  apply sorted_app_inv in Hpre as (H1 & H2 & H12).
  assert (take p done = take p pre) as -> by (unfold done; by rewrite take_app_le by lia).
  apply sorted_app; [done|done|]. intros x y Hx Hy. specialize (H12 x b Hx ltac:(by left)).
  rewrite Hl in Hy. unfold done in Hy. rewrite drop_app_le, (drop_S _ _ _ Hpb) in Hy by lia.
  apply elem_of_app in Hy as [[->|Hy]%elem_of_cons|Hy]; [done|..].
  - inversion H2 as [|? ? _ Hf]; subst. eapply list.Forall_forall in Hf; [|exact Hy]. lia.
  - pose proof (region_min_spec bad) as Hr. eapply list.Forall_forall in Hr; [|exact Hy]. lia.
Qed.

Definition orderly (a : aregion) (done : list (list Z)) (hi : Z) : Prop :=
  Forall (fun b => key b <= hi) done /\
  match a with A_UNSORTED n => sorted_keys (take (length done - n) done) | _ => sorted_keys done end.

Lemma sorted_snoc l b hi : sorted_keys l -> Forall (fun c => key c <= hi) l -> hi <= key b -> sorted_keys (l ++ [b]).
Proof.
  intros Hs Hf Hb. apply sorted_app; [done|by repeat constructor|]. intros x y Hx ->%list_elem_of_singleton.
  eapply list.Forall_forall in Hf; [|exact Hx]. simpl in Hf. lia.
Qed.

Lemma asorts_sorted m a done rest recs hi : asorts m a done rest (Some recs) -> tame a hi rest -> orderly a done hi -> sorted_keys recs.
Proof.
  intros H. remember (Some recs) as res eqn:E. revert hi E.
  induction H as [a done|a done b rest a' done' res Hs _ IH|]; intros hi E Ht [Hhi Ho]; [|..|done].
  - injection E as ->. by destruct a.
  - assert (forall l x, Forall (fun b => key b <= hi) l -> hi <= x -> key b <= x -> Forall (fun c => key c <= x) (l ++ [b])) as Hup.
    { intros l x Hl Hx Hb. apply Forall_app. split; [|by repeat constructor]. eapply list.Forall_impl; [exact Hl|]. simpl. lia. }
    inversion Hs as [? ?|? ?|? ? ? Hc|? pre bad ? p l Hc En Hd Hl Hsl|]; subst; simpl in Ht.
    + destruct Ht as [Hb Ht]. apply (IH (key b) eq_refl Ht). split; [by apply Hup|]. by destruct (opens b); apply sorted_snoc with hi.
    + destruct (closes b); [destruct Ht as [Hb Ht]; apply (IH (key b) eq_refl Ht); split; [by apply Hup|by apply sorted_snoc with hi]|].
      apply (IH (Z.max hi (key b)) eq_refl Ht). split; [apply Hup; [done|lia|lia]|].
      rewrite length_app. simpl. replace (length done' + 1 - 1)%nat with (length done') by lia. by rewrite take_app_length.
    + rewrite Hc in Ht. apply (IH (Z.max hi (key b)) eq_refl Ht). split; [apply Hup; [done|lia|lia]|].
      rewrite length_app. simpl. replace (length done' + 1 - S n)%nat with (length done' - n)%nat by lia.
      by rewrite take_app_le by lia.
    + rewrite Hc in Ht. destruct Ht as [Hb Ht]. apply (IH (key b) eq_refl Ht).
      rewrite length_app, Nat.add_sub, take_app_length in Ho.
      pose proof (dest_sorted m pre bad p l Ho Hd Hl Hsl) as Hss.
      assert (Forall (fun c => key c <= hi) (take p (pre ++ bad) ++ l)) as Hf by (by rewrite Hl, take_drop).
      split; [by apply Hup|by apply sorted_snoc with hi].
Qed.

(** ** Checking *)

Fixpoint ascending (last : Z) (recs : list (list Z)) : bool :=
  match recs with [] => true | b :: recs' => (last <=? key b) && ascending (key b) recs' end.

Lemma ascending_sorted last recs : ascending last recs = true <-> Forall (fun b => last <= key b) recs /\ sorted_keys recs.
Proof.
  revert last. induction recs as [|b recs IH]; intros last; simpl.
  - split; [by repeat constructor|done].
  - rewrite andb_true_iff, Z.leb_le, IH, list.Forall_cons. split.
    + intros (Hb & Hf & Hs). split_and!; [done| |by constructor]. eapply list.Forall_impl; [exact Hf|]. simpl. lia.
    + intros [[Hb Hf] Hs]. inversion Hs; subst. auto.
Qed.

Lemma check_loop_run rest : forall fuel pre b s bj, Forall record (b :: rest) -> stands_at pre b (concat rest) s ->
  s_unsorted s = true -> s_clock_offset s = 0 -> 0 <= s_lastclock s < 2 ^ 63 -> (length rest < fuel)%nat ->
  exists s', check_loop fuel (key b) bj s = (Ok (bj || negb (ascending (key b) rest)), s').
Proof.
  induction rest as [|b' rest IH]; intros [|fuel] pre b s bj Hz Hst Hu Ho Hlast Hf; simpl in Hf; try lia; cbn [check_loop].
  - destruct (stream_step_last pre b s (proj1 (Forall_inv Hz)) Hst) as (s' & E & _). rewrite (mbind_run _ _ _ _ _ E).
    exists s'. simpl. by rewrite orb_false_r.
  - apply list.Forall_cons in Hz as [[Hb _] Hz]. pose proof (Forall_inv Hz) as [Hb' Hk'].
    assert (rec_sclock (s_clock_offset s) b' = key b') as Ec by (unfold rec_sclock; rewrite Ho, Z.add_0_r; by apply small_i64).
    destruct (stream_step_next pre b b' (concat rest) s Hb Hb' Hst) as (s1 & E & Hst1 & Eo & Eu & El).
    { unfold clocks_ok. rewrite Ec. unfold in_s. simpl. split_and!; [lia..|by left|done]. }
    rewrite (mbind_run _ _ _ _ _ E). change (negb (0 =? 0)) with false. cbv iota.
    pose proof Hst1 as (Hbuf & _ & _ & Hoff & Hcur). rewrite (mbind_run mget _ s1 s1 s1 eq_refl). unfold stream_ev. rewrite Hcur.
    rewrite (mbind_run (deref (Some _)) _ s1 _ s1 eq_refl), Hoff.
    assert (clock_at (s_buf s1) (len (pre ++ b)) s1 = (Ok (key b'), s1)) as Eb.
    { apply clock_at_points; [by split|]. rewrite Hbuf. by exists (pre ++ b), (concat rest). }
    rewrite (mbind_run _ _ _ _ _ Eb).
    destruct (IH fuel (pre ++ b) b' s1 (bj || (key b' <? key b))) as (s' & Es); [done|done|congruence|congruence|by rewrite El, Ec|lia|].
    exists s'. rewrite Es. simpl. do 2 f_equal. rewrite Z.leb_antisym. by destruct (key b' <? key b), bj, (ascending _ _).
Qed.

Lemma stream_check_run recs fuel : Forall record recs -> recs <> [] -> (length recs < fuel)%nat ->
  exists s', stream_check fuel (opened (sort_file recs) 0 true) = (if ascending 0 recs then Ok tt else Err, s').
Proof.
  intros Hz Hne Hf. destruct recs as [|b rest]; [done|]. clear Hne. unfold stream_check.
  pose proof (first_step b rest (Forall_inv Hz)) as (s1 & E & Hst & Hu & Ho & Hl & _).
  rewrite (mbind_run _ _ _ _ _ E). change (negb (0 =? 0)) with false. cbv iota.
  pose proof Hst as (Hbuf & _ & _ & Hoff & Hcur). rewrite (mbind_run mget _ s1 s1 s1 eq_refl). unfold stream_ev. rewrite Hcur.
  rewrite (mbind_run (deref (Some _)) _ s1 _ s1 eq_refl), Hoff. pose proof (Forall_inv Hz) as Hb.
  assert (clock_at (s_buf s1) (len stream_header) s1 = (Ok (key b), s1)) as Eb.
  { apply clock_at_points; [done|]. rewrite Hbuf. by exists stream_header, (concat rest). }
  rewrite (mbind_run _ _ _ _ _ Eb).
  destruct (check_loop_run rest fuel stream_header b s1 false Hz Hst Hu Ho) as (s' & Es);
    [rewrite Hl; apply Hb|simpl in Hf; lia|]. rewrite (mbind_run _ _ _ _ _ Es). exists s'. simpl.
  rewrite (proj2 (Z.leb_le _ _)) by apply Hb. by destruct (ascending (key b) rest).
Qed.

(** ** Properties *)

Lemma sorted_clocks_ok recs last : Forall record recs -> sorted_keys recs -> 0 <= last < 2 ^ 63 -> Forall (fun b => last <= key b) recs ->
  clocks_ok 0 false last recs.
Proof.
  intros Hz Hs. revert last. induction Hs as [|b recs Hs IH Hb]; intros last Hl Hf; simpl; [done|].
  apply list.Forall_cons in Hz as [[Hz Hk] Hzs]. apply list.Forall_cons in Hf as [Hlb _].
  unfold rec_sclock. rewrite Z.add_0_r, (small_i64 (rec_clock b)) by exact Hk. unfold key in *. unfold in_s. simpl.
  split_and!; [lia..|by right|]. by apply IH.
Qed.

Lemma sorted_above_0 recs : Forall record recs -> Forall (fun b => 0 <= key b) recs.
Proof. intros Hz. eapply list.Forall_impl; [exact Hz|]. intros b [_ ?]. lia. Qed.

Lemma record_perm l l' : l ≡ₚ l' -> Forall record l' -> Forall record l.
Proof. by intros ->. Qed.

(** C32. The tool runs as the abstract one, whatever the stream holds: at the
    end of a marked region it takes the records from the last one, of those in
    the ring, that is before all the region, and sorts them; it fails only when
    that record is no longer in the ring, and never writes out of place. *)
Theorem stream_winsort_refines wr qsort m recs w fuel : qsorts qsort -> pwrites wr ->
  rg_size (w_ring w) = Z.of_nat m + 1 -> (0 < m)%nat -> Forall record recs -> recs <> [] -> len (sort_file recs) < 2 ^ 63 ->
  w_stream w = opened (sort_file recs) 0 true -> (length recs <= fuel)%nat ->
  exists res, asorts m A_SORTED [] recs res /\
    match res with
    | None => exists w', stream_winsort wr qsort (S fuel) w = (Err, w')
    | Some recs' => recs' ≡ₚ recs /\ exists v' w', stream_winsort wr qsort (S fuel) w = (Ok v', w') /\ mapped w' = sort_file recs'
    end.
Proof.
  intros Hq Hw Hsz Hm Hz Hne Hroom Ew Hf.
  destruct (winsort_run wr qsort m Hq Hw recs w fuel Hsz Hm Hz Hne Hroom Ew Hf) as ([recs'|] & Ha & Hres);
    [|by exists None]. exists (Some recs'). split; [done|]. split; [by apply asorts_perm in Ha|].
  destruct Hres as (v' & w' & E & Em & _). eauto.
Qed.

Definition fresh (contents : list Z) : stream := opened contents 0 false.

(** A trace whose streams have records and only their regions out of order. *)
Definition sortable (m : nat) (recs : list (list Z)) : Prop :=
  Forall record recs /\ recs <> [] /\ len (sort_file recs) < 2 ^ 63 /\ (length recs <= m)%nat /\ tame A_SORTED 0 recs.

Lemma sort_streams_run wr qsort m fuel files : qsorts qsort -> pwrites wr -> (0 < m)%nat -> Forall (sortable m) files ->
  Forall (fun recs => length recs <= fuel)%nat files -> forall r k, rg_size r = Z.of_nat m + 1 ->
  exists sorted, sort_streams wr qsort (S fuel) r k ((fun recs => fresh (sort_file recs)) <$> files) = (Ok tt, sorted) /\
    Forall2 (fun s recs => exists recs', s_buf s = sort_file recs' /\ recs' ≡ₚ recs /\ sorted_keys recs') sorted files.
Proof.
  intros Hq Hw Hm. induction files as [|recs files IH]; intros Hs Hf r k Hsz; [by exists []|].
  apply list.Forall_cons in Hs as [(Hz & Hne & Hroom & Hl & Ht) Hs]. apply list.Forall_cons in Hf as [Hfr Hf].
  rewrite fmap_cons. cbn [sort_streams]. set (w := mk_winsort _ r k).
  destruct (winsort_run wr qsort m Hq Hw recs w fuel Hsz Hm Hz Hne Hroom eq_refl Hfr) as ([recs'|] & Ha & Hres);
    [|by apply asorts_room in Ha]. destruct Hres as (v' & w' & E & Em & Esz). rewrite E.
  destruct (IH Hs Hf (w_ring w') (w_nwrite w') Esz) as (sorted & E2 & H2). rewrite E2. eexists. split; [done|].
  constructor; [|done]. exists recs'. split_and!; [done|by apply asorts_perm in Ha|].
  eapply asorts_sorted; [exact Ha|exact Ht|]. split; [constructor|constructor].
Qed.

Lemma check_streams_run fuel sorted files : Forall2 (fun s recs => exists recs', s_buf s = sort_file recs' /\ recs' ≡ₚ recs /\ sorted_keys recs') sorted files ->
  Forall (fun recs => Forall record recs /\ recs <> [] /\ (length recs < fuel)%nat) files ->
  (check_streams fuel false ((fun s => fresh (s_buf s)) <$> sorted)).1 = Ok tt.
Proof.
  induction 1 as [|s recs sorted files (recs' & Eb & Hp & Hs) _ IH]; intros Hf; [done|].
  apply list.Forall_cons in Hf as [(Hz & Hne & Hl) Hf]. rewrite fmap_cons. cbn [check_streams]. rewrite Eb.
  change (set_s_unsorted true (fresh (sort_file recs'))) with (opened (sort_file recs') 0 true).
  destruct (stream_check_run recs' fuel) as (s' & E); [by rewrite Hp|by intros ->; apply Permutation_nil_l in Hp|by rewrite Hp|].
  rewrite E, (proj2 (ascending_sorted 0 recs')); [|split; [apply sorted_above_0; by rewrite Hp|done]].
  specialize (IH Hf). by destruct (check_streams fuel false _).
Qed.

(** C33. When the ring has room for every stream and only the marked regions are
    out of order, the tool sorts the trace: every file holds its records in
    order of time; the check mode accepts it, and the emulator reads it to its
    end without allowing it to be unsorted. *)
Theorem process_trace_sorts wr qsort m fuel files : qsorts qsort -> pwrites wr -> (0 < m)%nat -> Forall (sortable m) files ->
  Forall (fun recs => length recs <= fuel)%nat files ->
  exists sorted, process_trace wr qsort (S fuel) SORT (Z.of_nat m + 1) ((fun recs => fresh (sort_file recs)) <$> files) = (Ok tt, sorted) /\
    Forall2 (fun s recs => exists recs', s_buf s = sort_file recs' /\ recs' ≡ₚ recs /\ sorted_keys recs' /\
      exists s', read_stream (s_buf s) 0 false (S (length recs)) stream_zero = (Ok recs', s')) sorted files /\
    (process_trace wr qsort (S fuel) CHECK (Z.of_nat m + 1) ((fun s => fresh (s_buf s)) <$> sorted)).1 = Ok tt.
Proof.
  intros Hq Hw Hm Hs Hf.
  destruct (sort_streams_run wr qsort m fuel files Hq Hw Hm Hs Hf (mk_ring 0 0 (Z.of_nat m + 1) ∅) 0 eq_refl) as (sorted & E & H2).
  exists sorted. split_and!; [done| |].
  - clear E Hf. induction H2 as [|s recs sorted files (recs' & Eb & Hp & Hso) _ IH]; [constructor|].
    apply list.Forall_cons in Hs as [(Hz & _) Hs]. constructor; [|by apply IH].
    pose proof (record_perm _ _ Hp Hz) as Hz'. exists recs'. split_and!; [done..|]. rewrite Eb. apply read_stream_whole.
    + eapply list.Forall_impl; [exact Hz'|]. by intros b [? _].
    + apply sorted_clocks_ok; [done|done|lia|by apply sorted_above_0].
    + rewrite (Permutation_length Hp). lia.
  - eapply check_streams_run; [exact H2|]. clear E H2. induction Hs as [|recs files (Hz & Hne & _) Hs IH]; [constructor|].
    apply list.Forall_cons in Hf as [? Hf]. constructor; [split_and!; [done..|lia]|by apply IH].
Qed.

(** The check mode accepts a stream exactly when its records are in order of
    time, and fails otherwise. *)
Theorem stream_check_decides recs fuel : Forall record recs -> recs <> [] -> (length recs < fuel)%nat ->
  ((stream_check fuel (opened (sort_file recs) 0 true)).1 = Ok tt <-> sorted_keys recs) /\
  ((stream_check fuel (opened (sort_file recs) 0 true)).1 = Err <-> ~ sorted_keys recs).
Proof.
  intros Hz Hne Hf. destruct (stream_check_run recs fuel Hz Hne Hf) as (s' & ->). simpl.
  pose proof (ascending_sorted 0 recs) as Ha. pose proof (sorted_above_0 recs Hz).
  destruct (ascending 0 recs); split; split; try done.
  - intros _. by apply Ha.
  - intros Hn. destruct Hn. by apply Ha.
  - intros Hs. by assert (false = true) by (by apply Ha).
  - intros _ Hs. by assert (false = true) by (by apply Ha).
Qed.

(** A stream without events loads as a valid stream, but both modes of the
    tool fail on it, and sorting leaves the streams after it as they are. *)
Theorem empty_stream_fails wr qsort fuel size l : 
  stream_load (Some (Some OVNI_METADATA_VERSION)) (sort_file []) stream_zero = (Ok tt, fresh (sort_file [])) /\
  (exists s, process_trace wr qsort (S fuel) SORT size (fresh (sort_file []) :: l) = (Err, s :: l)) /\
  (process_trace wr qsort (S fuel) CHECK size [fresh (sort_file [])]).1 = Err.
Proof. split_and!; [apply (stream_load_run [])|by eexists|done]. Qed.

(** *** An unsorted region *)

Definition demo_record (m c v : ascii) (clock : Z) : list Z := [0; ch m; ch c; ch v] ++ le_encode 8 clock.

Lemma demo_record_ok m c v clock : byte_ok (ch m) -> byte_ok (ch c) -> byte_ok (ch v) -> 0 <= clock < 2 ^ 63 ->
  record (demo_record m c v clock).
Proof.
  intros Hm Hc Hv Hk. split.
  - set (ev := demo_record m c v clock ++ replicate 16 0).
    assert (ev_struct ev) as Hs.
    { unfold ev, demo_record, ev_struct. rewrite !length_app, length_le_encode, length_replicate. split; [done|].
      split; [|by eexists _, _]. repeat (apply Forall_app; split); [|apply le_encode_ok|by apply Forall_replicate; unfold byte_ok; lia].
      repeat (apply list.Forall_cons; split); [by unfold byte_ok; lia|done..|constructor]. }
    pose proof (proj1 (ev_bytes_sized ev Hs)) as Hz. unfold ev_bytes, ev, demo_record in Hz. simpl in Hz. exact Hz.
  - unfold key, rec_clock, demo_record. change (drop 4 (_ ++ _)) with (le_encode 8 clock).
    rewrite take_ge by (by rewrite length_le_encode). rewrite le_decode_encode by (simpl; lia). lia.
Qed.

Definition demo_stream : list (list Z) :=
  [demo_record "O" "H" "x" 10; demo_record "O" "U" "[" 20; demo_record "K" "O" "O" 5; demo_record "K" "O" "I" 12; demo_record "O" "U" "]" 30].
Definition demo_qsort (cmp : Z -> Z -> Z) (l : list Z) : list Z := sort_by (fun a b => cmp a b <=? 0) l.
(** At most five bytes at a time. *)
Definition demo_pwrite (k : nat) (n : Z) : Z := Z.min n 5.

Lemma demo_qsort_ok : qsorts demo_qsort.
Proof.
  intros cmp l Ht Htr. split; [apply sort_by_perm|]. unfold demo_qsort.
  assert (StronglySorted (fun a b => (cmp a b <=? 0) = true) (sort_by (fun a b => cmp a b <=? 0) l)) as Hs.
  { apply sort_by_sorted; intros *; rewrite ?Z.leb_le, ?Z.leb_gt; [|apply Htr]. intros H. destruct (Ht x y); lia. }
  induction Hs as [|a l' Hs IH Ha]; constructor; [done|]. eapply list.Forall_impl; [exact Ha|]. intros b. by rewrite Z.leb_le.
Qed.
Lemma demo_pwrite_ok : pwrites demo_pwrite.
Proof. unfold demo_pwrite. intros k n Hn. lia. Qed.

Lemma demo_stream_records : Forall record demo_stream.
Proof.
  unfold demo_stream. repeat (apply list.Forall_cons; split); [..|constructor]; apply demo_record_ok; by vm_compute.
Qed.
Lemma demo_stream_sortable : sortable 9 demo_stream.
Proof.
  split; [apply demo_stream_records|]. split; [done|]. split; [by vm_compute|]. split; [simpl; lia|].
  vm_compute. repeat split; by intros.
Qed.

Lemma stream_winsort_refines_witness : exists res,
  asorts 9 A_SORTED [] demo_stream res /\
    match res with
    | None => exists w', stream_winsort demo_pwrite demo_qsort 6 (mk_winsort (opened (sort_file demo_stream) 0 true) (mk_ring 0 0 10 ∅) 0) = (Err, w')
    | Some recs' => recs' ≡ₚ demo_stream /\ exists v' w',
        stream_winsort demo_pwrite demo_qsort 6 (mk_winsort (opened (sort_file demo_stream) 0 true) (mk_ring 0 0 10 ∅) 0) = (Ok v', w') /\
        mapped w' = sort_file recs'
    end.
Proof.
  apply (stream_winsort_refines demo_pwrite demo_qsort 9 demo_stream _ 5 demo_qsort_ok demo_pwrite_ok);
    [done|lia|apply demo_stream_records|done|apply demo_stream_sortable|done|simpl; lia].
Defined.

Lemma process_trace_sorts_witness : exists sorted,
  process_trace demo_pwrite demo_qsort 6 SORT 10 [fresh (sort_file demo_stream)] = (Ok tt, sorted).
Proof.
  destruct (process_trace_sorts demo_pwrite demo_qsort 9 5 [demo_stream] demo_qsort_ok demo_pwrite_ok ltac:(lia))
    as (sorted & E & _); [by apply list.Forall_singleton, demo_stream_sortable|by apply list.Forall_singleton; simpl; lia|].
  exists sorted. exact E.
Defined.

(** The event with clock 5 goes before the first one. *)
Example demo_stream_sorted :
  s_buf <$> (process_trace demo_pwrite demo_qsort 6 SORT 10 [fresh (sort_file demo_stream)]).2 =
  [sort_file [demo_record "K" "O" "O" 5; demo_record "O" "H" "x" 10; demo_record "K" "O" "I" 12;
    demo_record "O" "U" "[" 20; demo_record "O" "U" "]" 30]].
Proof. vm_compute. reflexivity. Qed.

Lemma stream_check_decides_witness : (stream_check 6 (opened (sort_file demo_stream) 0 true)).1 = Err <-> ~ sorted_keys demo_stream.
Proof. apply (stream_check_decides demo_stream 6 demo_stream_records); [done|simpl; lia]. Defined.
