(* ===== verification/Recorder.v ===== *)
(** * The recorder of traces (src/emu/recorder.c, src/emu/pv/pvt.c, src/emu/pv/prf.c)

    A Paraver trace is a stream of lines (Prv.v), the types and labels of its
    values (Pcf.v) and the names of its rows; the recorder has them by name.
    The stream is in the heap, where the callbacks of the bay find it.  Opening
    files is not modelled; what is written to them when they are closed is. *)

From stdpp Require Import pretty.
From S2P Require Import Prelude Chan Pcf Heap Bay Mux Prv Thread Loom.

Definition MAX_PRF_LABEL : Z := 512.

Definition slen (s : string) : Z := Z.of_nat (String.length s).

(** ** Names of rows (prf.c) *)

(** A row that is set has a label. *)
Record prf := mk_prf { prf_nrows : Z; prf_rows : gmap Z string }.

Definition prf_open (nrows : Z) : prf := mk_prf nrows ∅.

Definition prf_add (index : Z) (label : string) : M prf unit :=
  let* p := mget in
  if (index <? 0) || (prf_nrows p <=? index) then mfail else
  match prf_rows p !! index with
  | Some _ => mfail
  | None =>
      if MAX_PRF_LABEL <=? slen label then mfail else
      mput (mk_prf (prf_nrows p) (<[index := label]> (prf_rows p)))
  end.

(** The labels of the rows from [i] on, [None] when one is not set. *)
Fixpoint row_labels (rows : gmap Z string) (i : Z) (n : nat) : option (list string) :=
  match n with
  | O => Some []
  | S n' => l ← rows !! i; ls ← row_labels rows (i + 1) n'; Some (l :: ls)
  end.

(** The lines of the file. *)
Definition prf_close (p : prf) : option (list string) :=
  ls ← row_labels (prf_rows p) 0 (Z.to_nat (prf_nrows p));
  Some (["LEVEL NODE SIZE 1"%string; "hostname"%string; EmptyString;
         "LEVEL THREAD SIZE " +:+ pretty (prf_nrows p)] ++ ls).

(** ** The lines of the types (pcf.c) *)

Fixpoint spaces (n : nat) : string := match n with O => EmptyString | S n' => " " +:+ spaces n' end.

(** [%-nd]: padded on the right. *)
Definition pad (n : nat) (s : string) : string := s +:+ spaces (n - String.length s).

Definition write_type (t : pcf_type) : list string :=
  [EmptyString; EmptyString; "EVENT_TYPE"%string; "0 " +:+ pad 10 (pretty (pt_id t)) +:+ " " +:+ pt_label t;
   "VALUES"%string] ++
  map (fun v => pad 4 (pretty (pv_value v)) +:+ " " +:+ pv_label v) (pt_values t).
Definition write_types (p : pcf) : list string := concat (map write_type (pcf_types p)).

(** An operation on the type [id] of a trace. *)
Definition on_type (id : Z) {A} (op : M pcf_type A) : M pcf A := fun p =>
  match pcf_find_type p id with
  | None => (Ub, p)
  | Some t => let '(r, t') := op t in
              (r, mk_pcf (map (fun u => if pt_id u =? id then t' else u) (pcf_types p)))
  end.

(** ** A trace (pvt.c) *)

(** [pvt_prv] is the key of the stream in the heap. *)
Record pvt := mk_pvt { pvt_prv : nat; pvt_pcf : pcf; pvt_prf : prf }.

Record recorder := mk_recorder { rec_dir : string; rec_pvt : list (string * pvt) }.

(** The recorder with the heap. *)
Definition rheap : Type := recorder * heap.
Definition on_heap {A} (m : M heap A) : M rheap A := fun rh => let '(r, h) := m rh.2 in (r, (rh.1, h)).

Definition pvt_open (nrows : Z) (dir name : string) : M rheap pvt :=
  if PATH_MAX <=? slen dir then mfail else
  if PATH_MAX <=? slen name then mfail else
  (* the longest of the three paths: dir/name.prv, .pcf and .row *)
  if PATH_MAX <=? slen dir + 1 + slen name + 4 then mfail else
  let* rh := mget in
  let p := size (h_prv rh.2) in
  on_heap (prv_open_file p nrows) ;;;
  mret (mk_pvt p pcf_open (prf_open nrows)).

(** [recorder_init]; the configuration files are not modelled. *)
Definition recorder_init (dir : string) : M rheap unit :=
  if PATH_MAX <=? slen dir then mfail else
  mmod (fun rh => (mk_recorder dir [], rh.2)).

Fixpoint find_name {A} (name : string) (l : list (string * A)) : option A :=
  match l with
  | [] => None
  | (n, a) :: l' => if bool_decide (n = name) then Some a else find_name name l'
  end.

Definition recorder_find_pvt (r : recorder) (name : string) : option pvt := find_name name (rec_pvt r).

Definition recorder_add_pvt (name : string) (nrows : Z) : M rheap pvt :=
  let* rh := mget in
  match recorder_find_pvt rh.1 name with
  | Some _ => mfail
  | None =>
      let* p := pvt_open nrows (rec_dir rh.1) name in
      mmod (fun rh => (mk_recorder (rec_dir rh.1) (rec_pvt rh.1 ++ [(name, p)]), rh.2)) ;;;
      mret p
  end.

(** A change of the trace [name], which exists. *)
Definition upd_pvt (name : string) (f : pvt -> pvt) : M rheap unit :=
  mmod (fun rh => (mk_recorder (rec_dir rh.1)
    (map (fun e => if bool_decide (e.1 = name) then (e.1, f e.2) else e) (rec_pvt rh.1)), rh.2)).

Definition on_prf {A} (name : string) (op : M prf A) : M rheap A :=
  let* rh := mget in
  let* p := deref (recorder_find_pvt rh.1 name) in
  let '(r, f) := op (pvt_prf p) in
  upd_pvt name (fun p => mk_pvt (pvt_prv p) (pvt_pcf p) f) ;;;
  (fun s => (r, s)).

Definition on_pcf {A} (name : string) (op : M pcf A) : M rheap A :=
  let* rh := mget in
  let* p := deref (recorder_find_pvt rh.1 name) in
  let '(r, f) := op (pvt_pcf p) in
  upd_pvt name (fun p => mk_pvt (pvt_prv p) f (pvt_prf p)) ;;;
  (fun s => (r, s)).

(** [pvt_close]: the lines of the three files, without the header and the
    palette of the second. *)
Definition pvt_close (p : pvt) : M rheap (list string * list string * list string) :=
  let* pv := on_heap (load_prv (pvt_prv p)) in
  let* rows := found (prf_close (pvt_prf p)) in
  mret (prv_close pv, write_types (pvt_pcf p), rows).

Fixpoint close_all (l : list (string * pvt)) : M rheap (list (list string * list string * list string)) :=
  match l with
  | [] => mret []
  | (_, p) :: l' => let* x := pvt_close p in let* xs := close_all l' in mret (x :: xs)
  end.
Definition recorder_finish : M rheap (list (list string * list string * list string)) :=
  let* rh := mget in close_all (rec_pvt rh.1).
