(* ===== verification/System.v ===== *)
(** * The system of a trace (src/emu/system.c, src/emu/clkoff.c)

    From the metadata of its streams the emulator builds the looms, processes
    and threads of a trace, sorts them, gives each its global index, which is
    its row in the Paraver traces, freezes them, corrects the clocks of the
    streams and connects their channels to the patch bay.

    A stream is known by its position in the trace.  The clock offsets come
    from a text file: [clkoff_line] is what [fgets] and [sscanf] make of a line.
    The accelerators of an FPGA are given as the list read from their
    configuration. *)

From Stdlib Require Import Ascii.
From stdpp Require Import pretty.
From S2P Require Import Prelude Chan Pcf Heap Bay Mux Prv Thread Loom Event Rt Stream Recorder.

(** ** State *)

Record lpt := mk_lpt { lpt_stream : nat; lpt_loom : nat; lpt_proc : nat; lpt_thread : nat }.

(** [nentries] and the index are those of the list. *)
Record clkoff_entry := mk_clkoff_entry { ce_name : string; ce_median : Z }.
Notation clkoff := (list clkoff_entry).

Record system := mk_system {
  sys_nlooms : Z; sys_nthreads : Z; sys_nprocs : Z; sys_ncpus : Z; sys_nphycpus : Z;
  sys_sort_by_rank : bool;
  sys_looms : list nat; sys_procs : list nat; sys_threads : list nat; sys_cpus : list nat;
  sys_lpt : list lpt
}.

Definition system_zero : system := mk_system 0 0 0 0 0 false [] [] [] [] [].

Definition add_loom l (s : system) : system :=
  mk_system (sys_nlooms s + 1) (sys_nthreads s) (sys_nprocs s) (sys_ncpus s) (sys_nphycpus s) (sys_sort_by_rank s)
    (sys_looms s ++ [l]) (sys_procs s) (sys_threads s) (sys_cpus s) (sys_lpt s).
Definition set_looms l (s : system) : system :=
  mk_system (sys_nlooms s) (sys_nthreads s) (sys_nprocs s) (sys_ncpus s) (sys_nphycpus s) (sys_sort_by_rank s)
    l (sys_procs s) (sys_threads s) (sys_cpus s) (sys_lpt s).
Definition add_proc p (s : system) : system :=
  mk_system (sys_nlooms s) (sys_nthreads s) (sys_nprocs s) (sys_ncpus s) (sys_nphycpus s) (sys_sort_by_rank s)
    (sys_looms s) (sys_procs s ++ [p]) (sys_threads s) (sys_cpus s) (sys_lpt s).
Definition add_thread t (s : system) : system :=
  mk_system (sys_nlooms s) (sys_nthreads s) (sys_nprocs s) (sys_ncpus s) (sys_nphycpus s) (sys_sort_by_rank s)
    (sys_looms s) (sys_procs s) (sys_threads s ++ [t]) (sys_cpus s) (sys_lpt s).
Definition add_cpu c (s : system) : system :=
  mk_system (sys_nlooms s) (sys_nthreads s) (sys_nprocs s) (sys_ncpus s) (sys_nphycpus s) (sys_sort_by_rank s)
    (sys_looms s) (sys_procs s) (sys_threads s) (sys_cpus s ++ [c]) (sys_lpt s).
Definition add_lpt e (s : system) : system :=
  mk_system (sys_nlooms s) (sys_nthreads s) (sys_nprocs s) (sys_ncpus s) (sys_nphycpus s) (sys_sort_by_rank s)
    (sys_looms s) (sys_procs s) (sys_threads s) (sys_cpus s) (sys_lpt s ++ [e]).
Definition set_counters nt np nc nphy (s : system) : system :=
  mk_system (sys_nlooms s) nt np nc nphy (sys_sort_by_rank s)
    (sys_looms s) (sys_procs s) (sys_threads s) (sys_cpus s) (sys_lpt s).
Definition set_sort_by_rank b (s : system) : system :=
  mk_system (sys_nlooms s) (sys_nthreads s) (sys_nprocs s) (sys_ncpus s) (sys_nphycpus s) b
    (sys_looms s) (sys_procs s) (sys_threads s) (sys_cpus s) (sys_lpt s).

(** The metadata of a stream: the part that looms, processes and threads read,
    and the version and commit of the library. *)
Record smeta := mk_smeta { sm_md : metadata; sm_version : option string; sm_commit : option string }.

(** The system, the objects of the emulator, the streams of the trace and the
    recorder. *)
Record syst := mk_syst { st_sys : system; st_heap : heap; st_streams : list stream; st_rec : recorder }.

Definition on_sys (f : system -> system) : M syst unit :=
  mmod (fun s => mk_syst (f (st_sys s)) (st_heap s) (st_streams s) (st_rec s)).
Definition in_heap {A} (m : M heap A) : M syst A := fun s =>
  let '(r, h) := m (st_heap s) in (r, mk_syst (st_sys s) h (st_streams s) (st_rec s)).
Definition in_rec {A} (m : M rheap A) : M syst A := fun s =>
  let '(r, rh) := m (st_rec s, st_heap s) in (r, mk_syst (st_sys s) rh.2 (st_streams s) rh.1).

(** ** Creation *)

(** A new object takes the next free key. *)
Definition create_thread (p : nat) (md : metadata) : M heap nat :=
  let tid := thread_stream_get_tid md in
  if tid <? 0 then mfail else
  let* pr := load_proc p in
  match proc_find_thread pr tid with
  | Some _ => mfail
  | None =>
      let* h := mget in
      let t := size (h_thread h) in
      put_thread t (thread_init_begin tid) ;;;
      thread_load_metadata t md ;;;
      proc_add_thread p t ;;;
      mret t
  end.

Definition new_proc (l : nat) (pid : Z) : M heap nat :=
  let* h := mget in
  let p := size (h_proc h) in
  mmod (set_h_proc <[p := proc_init_begin pid]>) ;;;
  loom_add_proc l p ;;;
  mret p.

Definition create_proc (l : nat) (md : metadata) : M heap nat :=
  let pid := proc_stream_get_pid md in
  if pid <? 0 then mfail else
  let* lo := load_loom l in
  let* p := (match loom_find_proc lo pid with Some p => mret p | None => new_proc l pid end) in
  proc_load_metadata p md ;;;
  mret p.

Fixpoint find_loom (looms : list nat) (id : string) : M heap (option nat) :=
  match looms with
  | [] => mret None
  | l :: looms' =>
      let* lo := load_loom l in
      if bool_decide (loom_name lo = id) then mret (Some l) else find_loom looms' id
  end.

Definition create_loom (md : metadata) : M syst nat :=
  let* name := found (md_loom md) in
  let* s := mget in
  let* fl := in_heap (find_loom (sys_looms (st_sys s)) name) in
  let* l :=
    (match fl with
     | Some l => mret l
     | None => let* l := in_heap (loom_init_begin name) in on_sys (add_loom l) ;;; mret l
     end) in
  in_heap (loom_load_metadata l md) ;;;
  mret l.

Definition is_thread_stream {S} (md : metadata) : M S bool :=
  let* part := found (md_part md) in mret (bool_decide (part = "thread"%string)).

(** The stream [i] of the trace. *)
Definition create_stream (im : nat * smeta) : M syst unit :=
  let md := sm_md im.2 in
  let* ok := is_thread_stream md in
  if negb ok then mret tt else
  let* l := create_loom md in
  let* p := in_heap (create_proc l md) in
  let* t := in_heap (create_thread p md) in
  on_sys (add_lpt (mk_lpt im.1 l p t)).

Definition create_system (trace : list smeta) : M syst unit := for_each create_stream (imap pair trace).

(** ** Order *)

(** [strcmp]: at most zero. *)
Definition loom_id_of (h : heap) (l : nat) : string :=
  match h_loom h !! l with Some lo => loom_name lo | None => EmptyString end.
Definition cmp_loom_id (h : heap) (a b : nat) : bool := String.leb (loom_id_of h a) (loom_id_of h b).

Definition rank_min_of (h : heap) (l : nat) : Z :=
  match h_loom h !! l with Some lo => loom_rank_min lo | None => 0 end.
Definition cmp_loom_rank (h : heap) : nat -> nat -> bool := by_key (rank_min_of h).

Definition sort_lpt : M syst unit :=
  let* s := mget in
  let cmp := if sys_sort_by_rank (st_sys s) then cmp_loom_rank (st_heap s) else cmp_loom_id (st_heap s) in
  on_sys (set_looms (sort_by cmp (sys_looms (st_sys s)))) ;;;
  let* s := mget in
  for_each (fun l => in_heap (loom_sort l)) (sys_looms (st_sys s)).

(** All looms have a rank, and some have. *)
Fixpoint ranks_of (looms : list nat) (all some_ : bool) : M heap (bool * bool) :=
  match looms with
  | [] => mret (all, some_)
  | l :: looms' =>
      loom_set_rank_min l ;;;
      let* lo := load_loom l in
      if loom_rank_enabled lo then ranks_of looms' all true else ranks_of looms' false some_
  end.

Definition set_sort_criteria : M syst unit :=
  let* s := mget in
  let* r := in_heap (ranks_of (sys_looms (st_sys s)) true false) in
  if r.1 then on_sys (set_sort_by_rank true) else mret tt.

(** ** Global lists and indices *)

Definition list_proc (e : Z * nat) : M syst unit :=
  let* pr := in_heap (load_proc e.2) in
  for_each (fun e' => on_sys (add_thread e'.2)) (proc_threads pr) ;;;
  on_sys (add_proc e.2).

Definition list_loom (l : nat) : M syst unit :=
  let* lo := in_heap (load_loom l) in
  for_each list_proc (loom_procs lo) ;;;
  for_each (fun e => on_sys (add_cpu e.2)) (loom_cpus lo) ;;;
  on_sys (add_cpu (loom_vcpu lo)).

Definition init_global_lists : M syst unit :=
  let* s := mget in for_each list_loom (sys_looms (st_sys s)).

(** [set] at every element of a list its position. *)
Definition number (set : nat -> Z -> M heap unit) (l : list nat) : M heap unit :=
  for_each (fun ix => set ix.2 (Z.of_nat ix.1)) (imap pair l).

Fixpoint count_physical (cpus : list nat) : M heap Z :=
  match cpus with
  | [] => mret 0
  | c :: cpus' =>
      let* cp := load_cpu c in
      let* n := count_physical cpus' in
      mret (if cpu_is_virtual cp then n else n + 1)
  end.

Definition init_global_indices : M syst unit :=
  let* s := mget in
  let sys := st_sys s in
  in_heap (number (fun l i => upd_loom l (set_loom_gindex i)) (sys_looms sys)) ;;;
  in_heap (number (fun p i => upd_proc p (set_proc_gindex i)) (sys_procs sys)) ;;;
  in_heap (number (fun t i => upd_thread t (set_t_gindex i)) (sys_threads sys)) ;;;
  in_heap (number (fun c i => upd_cpu c (set_cpu_gindex i)) (sys_cpus sys)) ;;;
  let* nphy := in_heap (count_physical (sys_cpus sys)) in
  on_sys (set_counters (Z.of_nat (length (sys_threads sys))) (Z.of_nat (length (sys_procs sys)))
    (Z.of_nat (length (sys_cpus sys))) nphy).

(** ** Freezing *)

Definition init_end_proc (e : Z * nat) : M heap unit :=
  let* pr := load_proc e.2 in
  for_each (fun e' => thread_init_end e'.2) (proc_threads pr) ;;;
  proc_init_end e.2.

Definition init_end_loom (l : nat) : M heap unit :=
  let* lo := load_loom l in
  for_each init_end_proc (loom_procs lo) ;;;
  for_each (fun e => cpu_init_end e.2) (loom_cpus lo) ;;;
  cpu_init_end (loom_vcpu lo) ;;;
  loom_init_end l.

Definition init_end_system : M syst unit :=
  let* s := mget in in_heap (for_each init_end_loom (sys_looms (st_sys s))).

(** The metadata of a thread is that of its stream. *)
Definition thread_meta (sys : system) (trace : list smeta) (t : nat) : option smeta :=
  e ← List.find (fun e => Nat.eqb (lpt_thread e) t) (sys_lpt sys); trace !! lpt_stream e.

(** A mix of versions is only a warning. *)
Definition report_libovni_version (trace : list smeta) : M syst unit :=
  let* s := mget in
  for_each (fun t =>
    let* m := found (thread_meta (st_sys s) trace t) in
    let* _ := found (sm_version m) in
    let* _ := found (sm_commit m) in mret tt) (sys_threads (st_sys s)).

(** ** Clock offsets *)

Inductive clkoff_line := LineEmpty | LineEnd | LineBad | LineEntry (e : clkoff_entry).

Definition cfind (table : clkoff) (name : string) : option clkoff_entry :=
  List.find (fun e => bool_decide (ce_name e = name)) table.

Definition cadd (e : clkoff_entry) (table : clkoff) : option clkoff :=
  match cfind table (ce_name e) with Some _ => None | None => Some (table ++ [e]) end.

(** The lines after the header. *)
Fixpoint cparse_lines (lines : list clkoff_line) (table : clkoff) : option clkoff :=
  match lines with
  | [] => Some table
  | LineEmpty :: lines' => cparse_lines lines' table
  | LineEnd :: _ => Some table
  | LineBad :: _ => None
  | LineEntry e :: lines' => table' ← cadd e table; cparse_lines lines' table'
  end.

(** [file]: the lines after the header, [None] without header. *)
Definition cparse (file : option (list clkoff_line)) : option clkoff := lines ← file; cparse_lines lines [].

Definition clkoff_load (file : option (list clkoff_line)) : option clkoff :=
  table ← cparse file; if (length table <? 1)%nat then None else Some table.

(** [clkoff_file]: the default file may be missing, in which case there is no
    table; the file given by the user may not. *)
Inductive offset_file := NoFile (given : bool) | OffsetFile (contents : option (list clkoff_line)).

Definition load_clock_offsets {S} (file : offset_file) : M S clkoff :=
  match file with
  | NoFile given => if given then mfail else mret []
  | OffsetFile contents => found (clkoff_load contents)
  end.

(** Every loom of the host takes the offset; one must. *)
Fixpoint match_host (looms : list nat) (e : clkoff_entry) (matches : Z) : M heap Z :=
  match looms with
  | [] => mret matches
  | l :: looms' =>
      let* lo := load_loom l in
      if negb (bool_decide (loom_hostname lo = ce_name e)) then match_host looms' e matches else
      if negb (loom_clock_offset lo =? 0) then mfail else
      upd_loom l (set_loom_clock_offset (ce_median e)) ;;;
      match_host looms' e (matches + 1)
  end.

Definition parse_clkoff_entry (looms : list nat) (e : clkoff_entry) : M heap unit :=
  let* matches := match_host looms e 0 in
  if matches =? 0 then mfail else mret tt.

(** [stream_data_get]. *)
Definition system_get_lpt (sys : system) (i : nat) : option lpt :=
  List.find (fun e => Nat.eqb (lpt_stream e) i) (sys_lpt sys).

Definition in_stream {A} (i : nat) (m : M stream A) : M syst A := fun s =>
  match st_streams s !! i with
  | None => (Ub, s)
  | Some x => let '(r, x') := m x in (r, mk_syst (st_sys s) (st_heap s) (<[i := x']> (st_streams s)) (st_rec s))
  end.

Definition stream_offset (i : nat) : M syst unit :=
  let* s := mget in
  match system_get_lpt (st_sys s) i with
  | None => mret tt
  | Some e =>
      let* lo := in_heap (load_loom (lpt_loom e)) in
      in_stream i (stream_clkoff_set (loom_clock_offset lo))
  end.

Definition init_offsets (table : clkoff) : M syst unit :=
  let* s := mget in
  for_each (fun e => in_heap (parse_clkoff_entry (sys_looms (st_sys s)) e)) table ;;;
  for_each stream_offset (seq 0 (length (st_streams s))).

(** ** The whole *)

(** [streams]: the streams of the trace, just loaded. *)
Definition system_init (trace : list smeta) (file : offset_file) : M syst unit :=
  on_sys (fun _ => system_zero) ;;;
  create_system trace ;;;
  set_sort_criteria ;;;
  sort_lpt ;;;
  init_global_lists ;;;
  init_global_indices ;;;
  init_end_system ;;;
  report_libovni_version trace ;;;
  let* table := load_clock_offsets file in
  init_offsets table.

(** ** Connection (system_connect) *)

Definition pvt_key (name : string) (r : recorder) : option nat := pvt_prv <$> recorder_find_pvt r name.

(** [thread_connect] and [cpu_connect] look their trace up in the recorder. *)
Definition connect_thread (t : nat) : M syst unit :=
  let* s := mget in in_heap (thread_connect t (pvt_key "thread" (st_rec s))).
Definition connect_cpu (c : nat) : M syst unit :=
  let* s := mget in in_heap (cpu_connect c (pvt_key "cpu" (st_rec s))).

(** [snprintf] into [char name[128]]. *)
Definition row_name {S} (name : string) : M S string := if 128 <=? slen name then mfail else mret name.

Definition thread_label (appid tid : Z) : string := "TH " +:+ pretty appid +:+ "." +:+ pretty tid.

Definition name_thread (t : nat) : M syst unit :=
  connect_thread t ;;;
  let* th := in_heap (load_thread t) in
  let* pr := in_heap (load_proc (t_proc th)) in
  let* name := row_name (thread_label (proc_appid pr) (t_tid th)) in
  in_rec (on_prf "thread" (prf_add (t_gindex th) name)).

(** An accelerator of the configuration of the FPGA. *)
Record accel := mk_accel { acc_name : string; acc_id : Z }.

(** The threads of a system with accelerators: [i] is [thread_acc_execution],
    [n] is [n_acc].  The sense of the test on [prf_add] is the code's. *)
Fixpoint name_threads_acc (acc : list accel) (threads : list nat) (i n : nat) : M syst unit :=
  match threads with
  | [] => mret tt
  | t :: threads' =>
      connect_thread t ;;;
      let* th := in_heap (load_thread t) in
      let* pr := in_heap (load_proc (t_proc th)) in
      let on_acc := ((0 <? i) && (i <=? length acc))%nat in
      let* name :=
        (if on_acc then
           let* a := deref (acc !! n) in
           row_name (acc_name a +:+ " " +:+ pretty (proc_appid pr) +:+ "." +:+ pretty (acc_id a))
         else row_name (thread_label (proc_appid pr) (Z.of_nat i + 1 - Z.of_nat n))) in
      let* s := mget in
      let '(r, s') := in_rec (on_prf "thread" (prf_add (t_gindex th) name)) s in
      match r with
      | Ok _ => mfail
      | Err => mput s' ;;; name_threads_acc acc threads' (S i) (if on_acc then S n else n)
      | Die => mdie | Ub => mub | Fuel => mfuel
      end
  end.

Definition state_labels : list (Z * string) :=
  [(0, "Unknown"); (1, "Running"); (2, "Paused"); (3, "Dead"); (4, "Cooling"); (5, "Warming")]%string.

(** The Paraver types of the channels of a thread, with their values. *)
Definition thread_pcf_types : list (Z * string * list (Z * string)) :=
  [ (6, "Thread: CPU affinity"%string, []);
    (2, "Thread: TID of the ACTIVE thread"%string, []);
    (4, "Thread: thread state"%string, state_labels) ].

Definition create_type (ty : Z * string * list (Z * string)) : M pcf unit :=
  let* _ := pcf_add_type ty.1.1 ty.1.2 in
  for_each (fun v => on_type ty.1.1 (let* _ := pcf_add_value v.1 v.2 in mret tt)) ty.2.
Definition thread_create_pcf_types : M pcf unit := for_each create_type thread_pcf_types.

(** [set_name] of cpu.c: the name depends on the index of the loom. *)
Definition cpu_name (lo : loom) (cp : cpu) : string :=
  if cpu_is_virtual cp then "vCPU " +:+ pretty (loom_gindex lo) +:+ ".*"
  else " CPU " +:+ pretty (loom_gindex lo) +:+ "." +:+ pretty (cpu_phyid cp).

Definition name_cpu (c : nat) : M syst unit :=
  connect_cpu c ;;;
  let* cp := in_heap (load_cpu c) in
  let* l := deref (cpu_loom cp) in
  let* lo := in_heap (load_loom l) in
  in_rec (on_prf "cpu" (prf_add (cpu_gindex cp) (cpu_name lo cp))) ;;;
  (* cpu_add_to_pcf_type, on the type of the affinity *)
  in_rec (on_pcf "thread" (on_type 6 (let* _ := pcf_add_value (i32 (cpu_gindex cp + 1)) (cpu_name lo cp) in mret tt))).

(** [acc]: the accelerators, [None] without [--xtasks]. *)
Definition system_connect (acc : option (list accel)) : M syst unit :=
  let* s := mget in
  let* _ := in_rec (recorder_add_pvt "cpu" (sys_ncpus (st_sys s))) in
  let* _ := in_rec (recorder_add_pvt "thread" (sys_nthreads (st_sys s))) in
  (match acc with
   | Some acc => name_threads_acc acc (sys_threads (st_sys s)) 0 0
   | None => for_each name_thread (sys_threads (st_sys s))
   end) ;;;
  in_rec (on_pcf "thread" thread_create_pcf_types) ;;;
  for_each name_cpu (sys_cpus (st_sys s)).
