(* ===== verification/Tree.v ===== *)
(** * Objects with children

    Looms have processes, processes have threads and looms have CPUs: an object
    has a table of its children by key, and a child points at its parent.  Both
    sides agree ([tree]) while the system of a trace is built, and the
    enumeration of all the children that follows the tables has each child
    once. *)

From S2P Require Import Prelude.

Section Tree.
Context {P C : Type} (kids : P -> list (Z * nat)) (key : C -> Z) (parent : C -> option nat).
Implicit Types (ps : gmap nat P) (cs : gmap nat C).

Record tree ps cs : Prop := {
  tr_kid : forall p pr k c, ps !! p = Some pr -> (k, c) ∈ kids pr ->
    exists ch, cs !! c = Some ch /\ key ch = k /\ parent ch = Some p;
  tr_keys : forall p pr, ps !! p = Some pr -> NoDup (kids pr).*1;
  tr_parent : forall c ch, cs !! c = Some ch ->
    exists p pr, parent ch = Some p /\ ps !! p = Some pr /\ (key ch, c) ∈ kids pr
}.

Lemma tree_empty : tree ∅ ∅.
Proof. split; intros *; by rewrite ?lookup_empty. Qed.

(** A new child of a parent that is new too or has the other children. *)
Lemma tree_graft ps cs p c pr ch : tree ps cs -> cs !! c = None ->
  kids pr ≡ₚ default [] (kids <$> ps !! p) ++ [(key ch, c)] ->
  key ch ∉ (default [] (kids <$> ps !! p)).*1 -> parent ch = Some p ->
  tree (<[p := pr]> ps) (<[c := ch]> cs).
Proof.
  intros [T1 T2 T3] Hc Hk Hn Hp.
  assert (forall k c', (k, c') ∈ default [] (kids <$> ps !! p) ->
    exists ch', cs !! c' = Some ch' /\ key ch' = k /\ parent ch' = Some p) as Hold.
  { intros k c'. destruct (ps !! p) as [pr0|] eqn:E; simpl; [eauto|set_solver]. }
  split.
  - intros q qr k c' Hq Hin. destruct (decide (q = p)) as [->|Hne].
    + rewrite lookup_insert_eq in Hq. injection Hq as <-. rewrite Hk in Hin.
      apply elem_of_app in Hin as [Hin|[[= -> ->]|[]%elem_of_nil]%elem_of_cons].
      * destruct (Hold _ _ Hin) as (ch' & ? & ? & ?). exists ch'.
        rewrite lookup_insert_ne; [done|congruence].
      * exists ch. by rewrite lookup_insert_eq.
    + rewrite lookup_insert_ne in Hq by done. destruct (T1 _ _ _ _ Hq Hin) as (ch' & ? & ? & ?).
      exists ch'. rewrite lookup_insert_ne; [done|congruence].
  - intros q qr Hq. destruct (decide (q = p)) as [->|Hne].
    + rewrite lookup_insert_eq in Hq. injection Hq as <-. rewrite Hk, fmap_app.
      apply list.NoDup_app. split_and!; [|set_solver|simpl; by apply NoDup_singleton].
      destruct (ps !! p) eqn:E; simpl; [eauto|constructor].
    + rewrite lookup_insert_ne in Hq by done. eauto.
  - intros c' ch' Hc'. destruct (decide (c' = c)) as [->|Hne].
    + rewrite lookup_insert_eq in Hc'. injection Hc' as <-. exists p, pr. rewrite lookup_insert_eq.
      split_and!; [done..|]. rewrite Hk. set_solver.
    + rewrite lookup_insert_ne in Hc' by done. destruct (T3 _ _ Hc') as (q & qr & ? & Hq & Hin).
      destruct (decide (q = p)) as [->|Hne']; [|exists q, qr; by rewrite lookup_insert_ne].
      exists p, pr. rewrite lookup_insert_eq. split_and!; [done..|]. rewrite Hk, Hq. simpl. set_solver.
Qed.

(** A new parent without children. *)
Lemma tree_plant ps cs p pr : tree ps cs -> ps !! p = None -> kids pr = [] -> tree (<[p := pr]> ps) cs.
Proof.
  intros [T1 T2 T3] Hp Hk. split.
  - intros q qr k c. destruct (decide (q = p)) as [->|]; [|rewrite lookup_insert_ne by done; eauto].
    rewrite lookup_insert_eq. intros [= <-]. rewrite Hk. set_solver.
  - intros q qr. destruct (decide (q = p)) as [->|]; [|rewrite lookup_insert_ne by done; eauto].
    rewrite lookup_insert_eq. intros [= <-]. rewrite Hk. constructor.
  - intros c ch Hc. destruct (T3 _ _ Hc) as (q & qr & ? & ? & ?). exists q, qr.
    rewrite lookup_insert_ne; [done|congruence].
Qed.

(** Changes that keep the tables, up to their order, the keys and the parents. *)
Lemma tree_alter_parent ps cs p f : (forall pr, kids (f pr) ≡ₚ kids pr) -> tree ps cs -> tree (alter f p ps) cs.
Proof.
  intros Hf [T1 T2 T3].
  assert (forall q qr, alter f p ps !! q = Some qr -> exists qr0, ps !! q = Some qr0 /\ kids qr ≡ₚ kids qr0) as Ha.
  { intros q qr. destruct (decide (q = p)) as [->|]; [|rewrite lookup_alter_ne by done; eauto].
    rewrite lookup_alter_eq. destruct (ps !! p) as [pr|]; simpl; [|done]. intros [= <-]. eauto. }
  split.
  - intros q qr k c Hq Hin. destruct (Ha q qr Hq) as (qr0 & Hq0 & Hperm). rewrite Hperm in Hin. eauto.
  - intros q qr Hq. destruct (Ha q qr Hq) as (qr0 & Hq0 & ->). eauto.
  - intros c ch Hc. destruct (T3 _ _ Hc) as (q & qr & Hp & Hq & Hin).
    destruct (decide (q = p)) as [->|]; [|exists q, qr; by rewrite lookup_alter_ne].
    exists p, (f qr). rewrite lookup_alter_eq, Hq. simpl. by rewrite (Hf qr).
Qed.

Lemma tree_alter_child ps cs c f : (forall ch, key (f ch) = key ch /\ parent (f ch) = parent ch) ->
  tree ps cs -> tree ps (alter f c cs).
Proof.
  intros Hf [T1 T2 T3].
  assert (forall d dh, cs !! d = Some dh -> exists dh', alter f c cs !! d = Some dh' /\
    key dh' = key dh /\ parent dh' = parent dh) as Ha.
  { intros d dh Hd. destruct (decide (d = c)) as [->|]; [|exists dh; by rewrite lookup_alter_ne].
    exists (f dh). rewrite lookup_alter_eq, Hd. split; [done|apply Hf]. }
  split.
  - intros p pr k d Hp Hin. destruct (T1 _ _ _ _ Hp Hin) as (dh & Hd & <- & <-).
    destruct (Ha _ _ Hd) as (dh' & ? & ? & ?). by exists dh'.
  - exact T2.
  - intros d dh Hd. destruct (decide (d = c)) as [->|]; [|rewrite lookup_alter_ne in Hd by done; eauto].
    rewrite lookup_alter_eq in Hd. destruct (cs !! c) as [ch|] eqn:Hc; [|done]. injection Hd as <-.
    destruct (Hf ch) as [-> ->]. eauto.
Qed.

(** ** Enumerations *)

Definition kids_of ps (p : nat) : list nat := match ps !! p with Some pr => (kids pr).*2 | None => [] end.

Lemma kids_of_elem ps cs p c : tree ps cs -> c ∈ kids_of ps p ->
  exists ch, cs !! c = Some ch /\ parent ch = Some p.
Proof.
  intros [T1 _ _]. unfold kids_of. destruct (ps !! p) as [pr|] eqn:Hp; [|set_solver].
  intros ([k c'] & -> & Hin)%list_elem_of_fmap. destruct (T1 _ _ _ _ Hp Hin) as (ch & ? & _ & ?). by exists ch.
Qed.

Lemma kids_of_nodup ps cs p : tree ps cs -> NoDup (kids_of ps p).
Proof.
  intros T. unfold kids_of. destruct (ps !! p) as [pr|] eqn:Hp; [|constructor].
  pose proof (tr_keys _ _ T _ _ Hp) as Hn. apply NoDup_fmap_2_strong; [|by eapply NoDup_fmap_1].
  intros [k c] [k' c'] H1 H2 E. simpl in E. subst c'.
  destruct (tr_kid _ _ T _ _ _ _ Hp H1) as (ch & E1 & <- & _).
  destruct (tr_kid _ _ T _ _ _ _ Hp H2) as (ch' & E2 & <- & _). congruence.
Qed.

(** The children of a list of all the parents are all the children, once. *)
Lemma children_nodup ps cs l : tree ps cs -> NoDup l -> NoDup (l ≫= kids_of ps).
Proof.
  intros T. induction 1 as [|p l Hp Hl IH]; simpl; [constructor|]. apply list.NoDup_app.
  split_and!; [by eapply kids_of_nodup| |done].
  intros c Hc (q & Hc' & Hq)%list_elem_of_bind.
  destruct (kids_of_elem _ _ _ _ T Hc) as (ch & E1 & P1).
  destruct (kids_of_elem _ _ _ _ T Hc') as (ch' & E2 & P2). assert (p = q) as -> by congruence. done.
Qed.

Lemma children_elem ps cs l c : tree ps cs -> (forall p, p ∈ l <-> is_Some (ps !! p)) ->
  c ∈ (l ≫= kids_of ps) <-> is_Some (cs !! c).
Proof.
  intros T Hl. split.
  - intros (p & Hc & _)%list_elem_of_bind. destruct (kids_of_elem _ _ _ _ T Hc) as (ch & -> & _). by eexists.
  - intros [ch Hc]. destruct (tr_parent _ _ T _ _ Hc) as (p & pr & _ & Hp & Hin).
    apply list_elem_of_bind. exists p. split; [|apply Hl; by eexists].
    unfold kids_of. rewrite Hp. apply list_elem_of_fmap. by eexists (_, c).
Qed.
End Tree.
