(* ===== verification/SystemCorrect.v ===== *)
(** * The system is well built

    What [system_init] and [system_connect] leave, from an empty memory: looms,
    processes, threads and CPUs point at each other consistently, the global
    lists number all of them without gaps, and the system is coherent, the
    invariant that the emulation of events then keeps. *)

From S2P Require Import Prelude Tree Chan Pcf Heap Bay Mux Sort Prv Dispatch Thread Loom Event OvniModel OvniCorrect.
From S2P Require Import Coherence Model Emu Stream Recorder System.

(** ** Readers *)

Lemma quiet_load_loom l : quiet (load_loom l). Proof. unfold load_loom. quiet_tac. Qed.
Lemma quiet_any_rank l : quiet (any_rank l).
Proof. induction l as [|[k p] l IH]; simpl; [done|]. unfold load_proc. quiet_tac. Qed.
Lemma quiet_count_physical l : quiet (count_physical l).
Proof. induction l as [|c l IH]; simpl; [done|]. unfold load_cpu. quiet_tac. Qed.
#[export] Hint Resolve quiet_load_loom quiet_any_rank quiet_count_physical : ovni.

(** ** The invariant of the construction *)

Definition loom_kids (lo : loom) : list (Z * nat) := loom_cpus lo ++ [(-1, loom_vcpu lo)].
Definition proc_parent (pr : proc) : option nat := Some (proc_loom pr).
Definition thread_parent (th : thread) : option nat := Some (t_proc th).

Notation loom_proc_tree := (tree loom_procs proc_pid proc_parent).
Notation proc_thread_tree := (tree proc_threads t_tid thread_parent).
Notation loom_cpu_tree := (tree loom_kids cpu_phyid cpu_loom).

Definition blank_chan (c : chan) : Prop := chan_good c /\ chan_read c = value_null.

(** A thread that had no event; once frozen, it has its channels. *)
Record new_thread (chans : gmap addr chan) (t : nat) (th : thread) : Prop := {
  nt_state : t_state th = TH_ST_UNKNOWN;
  nt_running : t_is_running th = false;
  nt_active : t_is_active th = false;
  nt_cpu : t_cpu th = None;
  nt_chans : t_is_init th = true -> forall i, (i < 3)%nat -> is_Some (chans !! th_chan t i)
}.

Record new_cpu (chans : gmap addr chan) (c : nat) (cp : cpu) : Prop := {
  nc_idle : cpu_nthreads cp = 0 /\ cpu_nth_running cp = 0 /\ cpu_nth_active cp = 0 /\ cpu_threads cp = [] /\
    cpu_th_running cp = None /\ cpu_th_active cp = None;
  nc_virtual : cpu_is_virtual cp = (cpu_phyid cp =? -1);
  nc_chans : cpu_is_init cp = true -> forall i, (i < 5)%nat -> is_Some (chans !! cpu_chan c i)
}.

(** Who is who: the identity, parent and global index of every object. *)
Record names := mk_names {
  n_threads : gmap nat (Z * nat * Z);
  n_procs : gmap nat (Z * nat * Z);
  n_looms : gmap nat (string * Z);
  n_cpus : gmap nat (Z * option nat * Z)
}.

Definition thread_id (th : thread) := (t_tid th, t_proc th, t_gindex th).
Definition proc_id (pr : proc) := (proc_pid pr, proc_loom pr, proc_gindex pr).
Definition loom_id (lo : loom) := (loom_name lo, loom_gindex lo).
Definition cpu_id (cp : cpu) := (cpu_phyid cp, cpu_loom cp, cpu_gindex cp).

Definition names_of (h : heap) : names :=
  mk_names (thread_id <$> h_thread h) (proc_id <$> h_proc h) (loom_id <$> h_loom h) (cpu_id <$> h_cpu h).

Record wired (h : heap) : Prop := {
  b_procs : loom_proc_tree (h_loom h) (h_proc h);
  b_threads : proc_thread_tree (h_proc h) (h_thread h);
  b_cpus : loom_cpu_tree (h_loom h) (h_cpu h);
  b_thread : forall t th, h_thread h !! t = Some th -> new_thread (h_chan h) t th;
  b_cpu : forall c cp, h_cpu h !! c = Some cp -> new_cpu (h_chan h) c cp;
  b_chan : all_chans blank_chan h;
  b_mux : h_mux h = ∅;
  b_dense : dense (h_thread h) /\ dense (h_cpu h) /\ dense (h_proc h) /\ dense (h_loom h)
}.

Lemma dense_empty {A} : dense (∅ : gmap nat A).
Proof. intros i x. by rewrite lookup_empty. Qed.

(** What [wired] reads. *)
Lemma wired_ext h h' : h_thread h' = h_thread h -> h_cpu h' = h_cpu h -> h_proc h' = h_proc h ->
  h_loom h' = h_loom h -> h_chan h' = h_chan h -> h_mux h' = h_mux h -> wired h -> wired h'.
Proof.
  intros E1 E2 E3 E4 E5 E6 [P1 P2 P3 P4 P5 P6 P7 P8].
  split; rewrite ?E1, ?E2, ?E3, ?E4, ?E5, ?E6; try done. intros a c. cbn. rewrite E5. apply P6.
Qed.

(** *** Updates of one object *)

Lemma alter_cases {A} (f : A -> A) (m : gmap nat A) i (P : nat -> A -> Prop) :
  (forall j x, m !! j = Some x -> P j x) -> (forall x, m !! i = Some x -> P i x -> P i (f x)) ->
  forall j x, alter f i m !! j = Some x -> P j x.
Proof.
  intros HP Hf j x. destruct (decide (j = i)) as [->|]; [|rewrite lookup_alter_ne by done; apply HP].
  rewrite lookup_alter_eq. destruct (m !! i) as [y|] eqn:E; simpl; [|done]. intros [= <-]. eauto.
Qed.

Lemma fmap_alter_same {A B} (g : A -> B) (f : A -> A) (m : gmap nat A) i : (forall x, g (f x) = g x) ->
  g <$> alter f i m = g <$> m.
Proof.
  intros Hf. apply map_eq. intros j. rewrite !lookup_fmap. destruct (decide (j = i)) as [->|].
  - rewrite lookup_alter_eq. destruct (m !! i); simpl; [by rewrite Hf|done].
  - by rewrite lookup_alter_ne.
Qed.

Definition thread_keeps (f : thread -> thread) : Prop := forall th, t_tid (f th) = t_tid th /\ t_proc (f th) = t_proc th /\
  t_state (f th) = t_state th /\ t_is_running (f th) = t_is_running th /\ t_is_active (f th) = t_is_active th /\
  t_cpu (f th) = t_cpu th /\ t_is_init (f th) = t_is_init th.
Definition proc_keeps (f : proc -> proc) : Prop := forall pr, proc_pid (f pr) = proc_pid pr /\
  proc_loom (f pr) = proc_loom pr /\ proc_threads (f pr) ≡ₚ proc_threads pr.
Definition loom_keeps (f : loom -> loom) : Prop := forall lo, loom_name (f lo) = loom_name lo /\
  loom_procs (f lo) ≡ₚ loom_procs lo /\ loom_cpus (f lo) ≡ₚ loom_cpus lo /\ loom_vcpu (f lo) = loom_vcpu lo.

Lemma upd_thread_wired t f : thread_keeps f -> keeps wired (upd_thread t f).
Proof.
  intros Hf h [P1 P2 P3 P4 P5 P6 P7 (D1 & D2 & D3 & D4)]. split; simpl; try done.
  - apply tree_alter_child; [|done]. intros th. unfold thread_parent. destruct (Hf th) as (-> & -> & _). done.
  - apply alter_cases; [done|]. intros th _ [? ? ? ? ?]. destruct (Hf th) as (_ & _ & E1 & E2 & E3 & E4 & E5).
    split; by rewrite ?E1, ?E2, ?E3, ?E4, ?E5.
  - split_and!; try done. by apply dense_alter.
Qed.

Lemma upd_proc_wired p f : proc_keeps f -> keeps wired (upd_proc p f).
Proof.
  intros Hf h [P1 P2 P3 P4 P5 P6 P7 (D1 & D2 & D3 & D4)]. split; simpl; try done.
  - apply tree_alter_child; [|done]. intros pr. unfold proc_parent. destruct (Hf pr) as (-> & -> & _). done.
  - apply tree_alter_parent; [|done]. intros pr. apply Hf.
  - split_and!; try done. by apply dense_alter.
Qed.

Lemma upd_loom_wired l f : loom_keeps f -> keeps wired (upd_loom l f).
Proof.
  intros Hf h [P1 P2 P3 P4 P5 P6 P7 (D1 & D2 & D3 & D4)]. split; simpl; try done.
  - apply tree_alter_parent; [|done]. intros lo. apply Hf.
  - apply tree_alter_parent; [|done]. intros lo. unfold loom_kids. by destruct (Hf lo) as (_ & _ & -> & ->).
  - split_and!; try done. by apply dense_alter.
Qed.

Lemma upd_cpu_gindex_wired c i : keeps wired (upd_cpu c (set_cpu_gindex i)).
Proof.
  intros h [P1 P2 P3 P4 P5 P6 P7 (D1 & D2 & D3 & D4)]. split; simpl; try done.
  - by apply tree_alter_child.
  - apply alter_cases; [done|]. intros cp _ [? ? ?]. by split.
  - split_and!; try done. by apply dense_alter.
Qed.

Section Built.
Variable I : names.

(** Built, with these names. *)
Record built (h : heap) : Prop := { b_names : names_of h = I; b_wired : wired h }.

Lemma built_mod f : (forall h, h_thread (f h) = h_thread h /\ h_cpu (f h) = h_cpu h /\ h_proc (f h) = h_proc h /\
    h_loom (f h) = h_loom h /\ h_chan (f h) = h_chan h /\ h_mux (f h) = h_mux h) -> keeps built (mmod f).
Proof.
  intros Hf h [HN HW]. destruct (Hf h) as (E1 & E2 & E3 & E4 & ? & ?). split; [|by apply (wired_ext h)].
  rewrite <- HN. unfold names_of, mmod; simpl. by rewrite E1, E2, E3, E4.
Qed.

Lemma upd_thread_built t f : thread_keeps f -> (forall th, t_gindex (f th) = t_gindex th) -> keeps built (upd_thread t f).
Proof.
  intros Hf Hg h [HN HW]. split; [|by apply upd_thread_wired]. rewrite <- HN. unfold names_of; simpl.
  rewrite fmap_alter_same; [done|]. intros th. unfold thread_id. rewrite Hg. by destruct (Hf th) as (-> & -> & _).
Qed.

Lemma upd_proc_built p f : proc_keeps f -> (forall pr, proc_gindex (f pr) = proc_gindex pr) -> keeps built (upd_proc p f).
Proof.
  intros Hf Hg h [HN HW]. split; [|by apply upd_proc_wired]. rewrite <- HN. unfold names_of; simpl.
  rewrite fmap_alter_same; [done|]. intros pr. unfold proc_id. rewrite Hg. by destruct (Hf pr) as (-> & -> & _).
Qed.

Lemma upd_loom_built l f : loom_keeps f -> (forall lo, loom_gindex (f lo) = loom_gindex lo) -> keeps built (upd_loom l f).
Proof.
  intros Hf Hg h [HN HW]. split; [|by apply upd_loom_wired]. rewrite <- HN. unfold names_of; simpl.
  rewrite fmap_alter_same; [done|]. intros lo. unfold loom_id. rewrite Hg. by destruct (Hf lo) as (-> & _).
Qed.

(** *** Channels *)

Lemma store_built a c : blank_chan c -> keeps built (store a c).
Proof.
  intros Hc h [P0 [P1 P2 P3 P4 P5 P6 P7 P8]].
  assert (forall b, is_Some (h_chan h !! b) -> is_Some (<[a := c]> (h_chan h) !! b)) as Hk.
  { intros b Hb. destruct (decide (b = a)) as [->|]; [rewrite lookup_insert_eq; by eexists|by rewrite lookup_insert_ne]. }
  split; [exact P0|]. split; simpl; try done.
  - intros t th E. destruct (P4 t th E). split; auto.
  - intros d cp E. destruct (P5 d cp E). split; auto.
  - intros b cb. cbn. destruct (decide (b = a)) as [->|]; [rewrite lookup_insert_eq; by intros [= <-]|].
    rewrite lookup_insert_ne by done. apply P6.
Qed.

Lemma init_chan_built a name props : props = [] \/ props = [(CHAN_IGNORE_DUP, 1)] ->
  keeps built (init_chan a CHAN_SINGLE name props).
Proof.
  intros Hp. unfold init_chan, chan_init. case_match eqn:E; try apply keeps_die.
  case_match; [discriminate|]. injection E as <-. apply store_built.
  destruct Hp as [-> | ->]; (split; [split; [split; [by vm_compute|done]|]|done]); simpl; unfold c_true; simpl; naive_solver.
Qed.

Lemma init_chan_stores a ty name props h h' : init_chan a ty name props h = (Ok tt, h') ->
  is_Some (h_chan h' !! a) /\ h_thread h' = h_thread h /\ h_cpu h' = h_cpu h /\
  (forall b, is_Some (h_chan h !! b) -> is_Some (h_chan h' !! b)).
Proof.
  unfold init_chan. destruct (chan_init ty name) as [c| | | |]; [|discriminate..]. unfold store. cbn. intros [= <-].
  simpl. rewrite lookup_insert_eq. split_and!; [by eexists|done..|].
  intros b Hb. destruct (decide (b = a)) as [->|]; [rewrite lookup_insert_eq; by eexists|by rewrite lookup_insert_ne].
Qed.

(** The memory while the channels of one thread or CPU are made. *)
Definition making (ths : gmap nat thread) (cpus : gmap nat cpu) (done : list addr) (h : heap) : Prop :=
  built h /\ h_thread h = ths /\ h_cpu h = cpus /\ forall a, a ∈ done -> is_Some (h_chan h !! a).

Lemma init_chan_making ths cpus l a name props h h' : props = [] \/ props = [(CHAN_IGNORE_DUP, 1)] ->
  making ths cpus l h -> init_chan a CHAN_SINGLE name props h = (Ok tt, h') -> making ths cpus (a :: l) h'.
Proof.
  intros Hp (Hb & E1 & E2 & Hl) E. pose proof (init_chan_built a name props Hp h Hb) as Hb'. rewrite E in Hb'.
  destruct (init_chan_stores _ _ _ _ _ _ E) as (Ha & E3 & E4 & Hk).
  split_and!; [done|congruence|congruence|]. intros b [->|Hb1]%elem_of_cons; auto.
Qed.

Ltac make_chan E H :=
  let h1 := fresh "h" in let E1 := fresh "E" in
  apply mbind_Ok in E as ([] & h1 & E1 & E);
  eapply init_chan_making in E1; [|first [by left|by right]|exact H]; clear H; rename E1 into H.

Lemma freeze_thread_built t th h : built h -> h_thread h !! t = Some th ->
  (forall i, (i < 3)%nat -> is_Some (h_chan h !! th_chan t i)) -> built (put_thread t (set_t_is_init true th) h).2.
Proof.
  intros [P0 [P1 P2 P3 P4 P5 P6 P7 (D1 & D2 & D3 & D4)]] Ht Hc. 
  split.
  { rewrite <- P0. unfold names_of; simpl. rewrite <- (alter_lookup_insert (set_t_is_init true) _ _ _ Ht).
    by rewrite fmap_alter_same. }
  apply (wired_ext (set_h_thread (alter (set_t_is_init true) t) h));
    [simpl; first [done | by rewrite (alter_lookup_insert _ _ _ _ Ht)]..|].
  split; simpl; try done.
  - by apply tree_alter_child.
  - apply alter_cases; [done|]. intros th' _ [? ? ? ? ?]. by split.
  - split_and!; try done. by apply dense_alter.
Qed.

Lemma freeze_cpu_built c cp h : built h -> h_cpu h !! c = Some cp ->
  (forall i, (i < 5)%nat -> is_Some (h_chan h !! cpu_chan c i)) -> built (put_cpu c (set_cpu_is_init true cp) h).2.
Proof.
  intros [P0 [P1 P2 P3 P4 P5 P6 P7 (D1 & D2 & D3 & D4)]] Ht Hc. 
  split.
  { rewrite <- P0. unfold names_of; simpl. rewrite <- (alter_lookup_insert (set_cpu_is_init true) _ _ _ Ht).
    by rewrite fmap_alter_same. }
  apply (wired_ext (set_h_cpu (alter (set_cpu_is_init true) c) h));
    [simpl; first [done | by rewrite (alter_lookup_insert _ _ _ _ Ht)]..|].
  split; simpl; try done.
  - by apply tree_alter_child.
  - apply alter_cases; [done|]. intros cp' _ [? ? ?]. by split.
  - split_and!; try done. by apply dense_alter.
Qed.

Lemma thread_init_end_built t : keeps_ok built (thread_init_end t).
Proof.
  intros h [] h' Hb E. unfold thread_init_end in E. apply mbind_Ok in E as (th & ? & [Ht ->]%load_thread_Ok & E).
  do 2 (case_match; [discriminate|]).
  assert (making (h_thread h) (h_cpu h) [] h) as Hm by (split_and!; try done; set_solver).
  apply mbind_Ok in E as ([] & h1 & E1 & E). unfold th_chan_table, for_each in E1.
  do 3 make_chan E1 Hm. injection E1 as <-. injection E as <-.
  destruct Hm as (Hb1 & E1 & _ & Hl). apply freeze_thread_built; [done|by rewrite E1|].
  intros [|[|[|]]] ?; [..|lia]; apply Hl; set_solver.
Qed.

Lemma cpu_init_end_built c : keeps_ok built (cpu_init_end c).
Proof.
  intros h [] h' Hb E. unfold cpu_init_end in E. apply mbind_Ok in E as (cp & ? & [Hc ->]%load_cpu_Ok & E).
  case_match; [discriminate|]. apply mbind_Ok in E as (l & ? & [_ ->]%found_Ok & E).
  assert (making (h_thread h) (h_cpu h) [] h) as Hm by (split_and!; try done; set_solver).
  apply mbind_Ok in E as ([] & h1 & E1 & E). unfold cpu_chan_table, for_each in E1.
  do 5 make_chan E1 Hm. injection E1 as <-. injection E as <-.
  destruct Hm as (Hb1 & _ & E1 & Hl). apply freeze_cpu_built; [done|by rewrite E1|].
  intros [|[|[|[|[|]]]]] ?; [..|lia]; apply Hl; set_solver.
Qed.

(** *** The other operations on looms, processes and the bay *)

Ltac built_tac :=
  repeat first
    [ co_bind
    | apply keeps_ok_if
    | apply for_each_keeps_ok; intros ?
    | quiet_step
    | solve [apply keeps_ok_quiet; auto with ovni]
    | solve [apply keeps_ok_of_keeps; auto with ovni]
    | solve [apply keeps_ok_of_keeps, upd_loom_built; intros ?; done]
    | solve [apply keeps_ok_of_keeps, upd_proc_built; intros ?; done]
    | solve [apply keeps_ok_of_keeps, built_mod; done]
    | lazymatch goal with |- keeps_ok _ (match _ with _ => _ end) => case_match end ].

Lemma loom_set_rank_min_built l : keeps_ok built (loom_set_rank_min l).
Proof. unfold loom_set_rank_min, min_rank_step. built_tac. Qed.

Lemma loom_init_end_built l : keeps_ok built (loom_init_end l).
Proof. unfold loom_init_end, fill_entry. built_tac. Qed.

Lemma proc_init_end_built p : keeps_ok built (proc_init_end p).
Proof. unfold proc_init_end. built_tac. Qed.

Lemma loom_sort_built l : keeps_ok built (loom_sort l).
Proof.
  unfold loom_sort, proc_sort. built_tac.
  - apply keeps_ok_of_keeps, upd_loom_built; [|done]. intros lo. simpl. by rewrite !sort_by_perm.
  - apply keeps_ok_of_keeps, upd_proc_built; [|done]. intros pr. simpl. by rewrite sort_by_perm.
Qed.

Lemma match_host_built looms e n : keeps_ok built (match_host looms e n).
Proof. revert n. induction looms as [|l looms IH]; intros n; simpl; built_tac; apply IH. Qed.

Lemma init_end_loom_built l : keeps_ok built (init_end_loom l).
Proof.
  unfold init_end_loom, init_end_proc.
  built_tac; auto using thread_init_end_built, proc_init_end_built, cpu_init_end_built, loom_init_end_built.
Qed.

(** *** The phases of [system_init] after the creation *)

(** Built, with this system. *)
Definition built_with (sys : system) (s : syst) : Prop := built (st_heap s) /\ st_sys s = sys.

Lemma in_heap_built sys {A} (m : M heap A) : keeps_ok built m -> keeps_ok (built_with sys) (in_heap m).
Proof.
  intros Hm s a s' [Hb Hs] E. unfold in_heap in E. destruct (m (st_heap s)) as [r h] eqn:Em.
  injection E as -> <-. split; [|done]. by eapply Hm.
Qed.

Lemma in_stream_built sys {A} i (m : M stream A) : keeps_ok (built_with sys) (in_stream i m).
Proof.
  intros s a s' [Hb Hs] E. unfold in_stream in E. destruct (st_streams s !! i); [|discriminate].
  destruct (m s0). by injection E as -> <-.
Qed.

Lemma ranks_of_built looms a b : keeps_ok built (ranks_of looms a b).
Proof.
  revert a b. induction looms as [|l looms IH]; intros a b; simpl; [quiet_step|].
  built_tac; [apply loom_set_rank_min_built|apply IH..].
Qed.

Lemma set_sort_criteria_Ok sys s s' : built_with sys s -> set_sort_criteria s = (Ok tt, s') ->
  exists b, built_with (set_sort_by_rank b sys) s'.
Proof.
  intros Hb E. unfold set_sort_criteria in E. apply mbind_Ok in E as (? & ? & [= <- <-] & E).
  apply mbind_Ok in E as (r & s1 & E1 & E).
  destruct (in_heap_built _ _ (ranks_of_built _ _ _) _ _ _ Hb E1) as [Hb1 Hs].
  destruct r.1; injection E as <-.
  - exists true. split; [done|]. simpl. by rewrite Hs.
  - exists (sys_sort_by_rank sys). split; [done|]. rewrite Hs. by destruct sys.
Qed.

Lemma sort_lpt_Ok sys s s' : built_with sys s -> sort_lpt s = (Ok tt, s') ->
  exists looms, looms ≡ₚ sys_looms sys /\ built_with (set_looms looms sys) s'.
Proof.
  intros [Hb Hs] E. unfold sort_lpt in E. apply mbind_Ok in E as (? & ? & [= <- <-] & E).
  apply mbind_Ok in E as ([] & s1 & [= <-] & E). apply mbind_Ok in E as (? & ? & [= <- <-] & E). simpl in E.
  match type of E with context [sort_by ?le ?l] => exists (sort_by le l) end.
  rewrite Hs in *. split; [apply sort_by_perm|].
  match type of E with _ ?s1 = _ => assert (built_with (st_sys s1) s1) as Hb1 by done end.
  refine (for_each_keeps_ok _ _ _ _ _ _ _ Hb1 E). intros l. apply in_heap_built, loom_sort_built.
Qed.

Lemma init_end_system_Ok sys s s' : built_with sys s -> init_end_system s = (Ok tt, s') -> built_with sys s'.
Proof.
  intros Hb E. unfold init_end_system in E. apply mbind_Ok in E as (? & ? & [= <- <-] & E).
  refine (in_heap_built _ _ _ _ _ _ Hb E). apply for_each_keeps_ok, init_end_loom_built.
Qed.

Lemma report_libovni_version_Ok sys trace s s' : built_with sys s -> report_libovni_version trace s = (Ok tt, s') ->
  built_with sys s'.
Proof.
  intros Hb E. unfold report_libovni_version in E. apply mbind_Ok in E as (? & ? & [= <- <-] & E).
  refine (for_each_keeps_ok _ _ _ _ _ _ _ Hb E). intros t. built_tac.
Qed.

Lemma init_offsets_Ok sys table s s' : built_with sys s -> init_offsets table s = (Ok tt, s') -> built_with sys s'.
Proof.
  intros Hb E. unfold init_offsets in E. apply mbind_Ok in E as (? & ? & [= <- <-] & E).
  apply mbind_Ok in E as ([] & s1 & E1 & E).
  refine (for_each_keeps_ok _ _ _ _ _ _ _ (for_each_keeps_ok _ _ _ _ _ _ _ Hb E1) E).
  - intros i. unfold stream_offset.
    co_bind; [quiet_step|]. case_match; [|quiet_step].
    co_bind; [apply in_heap_built; built_tac|apply in_stream_built].
  - intros e. apply in_heap_built. unfold parse_clkoff_entry. co_bind; [apply match_host_built|built_tac].
Qed.
End Built.

(** ** Creation *)

(** More objects, the same names. *)
Record sub (I J : names) : Prop := {
  sub_threads : n_threads I ⊆ n_threads J;
  sub_procs : n_procs I ⊆ n_procs J;
  sub_looms : n_looms I ⊆ n_looms J;
  sub_cpus : n_cpus I ⊆ n_cpus J
}.

Lemma sub_refl I : sub I I.
Proof. by split. Qed.
Lemma sub_trans I J K : sub I J -> sub J K -> sub I K.
Proof. intros [] []. split; by etrans. Qed.

Lemma names_lookup {A B} (f : A -> B) (m : gmap nat A) i x : m !! i = Some x -> (f <$> m) !! i = Some (f x).
Proof. intros E. by rewrite lookup_fmap, E. Qed.

Lemma fmap_insert_sub {A B} (f : A -> B) (m : gmap nat A) i x : m !! i = None -> f <$> m ⊆ f <$> <[i := x]> m.
Proof. intros E. rewrite fmap_insert. apply insert_subseteq. by rewrite lookup_fmap, E. Qed.

Lemma dense_new {A} (m : gmap nat A) : dense m -> m !! size m = None.
Proof. intros Hd. destruct (m !! size m) eqn:E; [|done]. apply Hd in E. lia. Qed.

Lemma dense_add {A} (m : gmap nat A) x : dense m -> dense (<[size m := x]> m).
Proof. intros Hd. by apply dense_insert. Qed.

Lemma alter_insert_same {A} (f : A -> A) (m : gmap nat A) i x : alter f i (<[i := x]> m) = <[i := f x]> m.
Proof. rewrite (alter_lookup_insert f _ i x) by apply lookup_insert_eq. by rewrite insert_insert_eq. Qed.

(** The thread [create_thread] makes, its process and its memory. *)
Definition first_thread (p : nat) (md : metadata) : thread :=
  set_t_proc p (set_t_has_meta true (thread_init_begin (md_tid md))).
Definition with_thread (t : nat) (tid : Z) (pr : proc) : proc :=
  set_proc_nthreads (proc_nthreads pr + 1) (set_proc_threads (proc_threads pr ++ [(tid, t)]) pr).
Definition thread_added (p : nat) (md : metadata) (h : heap) : heap :=
  set_h_thread <[size (h_thread h) := first_thread p md]>
    (set_h_proc (alter (with_thread (size (h_thread h)) (md_tid md)) p) h).

Lemma create_thread_Ok p md h t h' : create_thread p md h = (Ok t, h') ->
  t = size (h_thread h) /\ h' = thread_added p md h /\
  exists pr, h_proc h !! p = Some pr /\ md_tid md ∉ (proc_threads pr).*1.
Proof.
  intros E. unfold create_thread in E.
  assert (thread_stream_get_tid md = md_tid md \/ thread_stream_get_tid md = -1) as Ht.
  { unfold thread_stream_get_tid. destruct (Z.eqb_spec (md_tid md) 0); auto. }
  destruct (Z.ltb_spec (thread_stream_get_tid md) 0) as [|Hp]; [discriminate|].
  destruct Ht as [Ht|Ht]; [|lia]. rewrite Ht in *.
  apply mbind_Ok in E as (pr & ? & [Hpr ->]%load_proc_Ok & E).
  unfold proc_find_thread in E. destruct (assoc (md_tid md) (proc_threads pr)) eqn:Ha; [discriminate|].
  apply assoc_None in Ha. set (t0 := size (h_thread h)) in *.
  apply mbind_Ok in E as (? & ? & [= <- <-] & E).
  apply mbind_Ok in E as ([] & h1 & [= <-] & E).
  apply mbind_Ok in E as ([] & h2 & E2 & E). unfold thread_load_metadata in E2.
  apply mbind_Ok in E2 as (th & ? & [Hth ->]%load_thread_Ok & E2). simpl in Hth. rewrite lookup_insert_eq in Hth.
  injection Hth as <-. do 2 (case_match; [discriminate|]). injection E2 as <-.
  apply mbind_Ok in E as ([] & h3 & E3 & E). injection E as <- <-. unfold proc_add_thread in E3.
  apply mbind_Ok in E3 as (pr' & ? & [Hpr' ->]%load_proc_Ok & E3). simpl in Hpr'. simplify_eq.
  case_match; [discriminate|].
  apply mbind_Ok in E3 as (th & ? & [Hth ->]%load_thread_Ok & E3). simpl in Hth.
  rewrite lookup_alter_eq, lookup_insert_eq in Hth. injection Hth as <-.
  case_match; [discriminate|]. injection E3 as <-. split_and!; [done| |by exists pr].
  unfold thread_added, set_h_thread, set_h_proc; simpl. f_equal. fold t0.
  rewrite !alter_insert_same. done.
Qed.

Lemma thread_added_wired p md h pr : wired h -> h_proc h !! p = Some pr -> md_tid md ∉ (proc_threads pr).*1 ->
  wired (thread_added p md h) /\ sub (names_of h) (names_of (thread_added p md h)).
Proof.
  intros [P1 P2 P3 P4 P5 P6 P7 (D1 & D2 & D3 & D4)] Hp Hn. pose proof (dense_new _ D1) as Ht. split.
  - unfold thread_added. split; simpl; try done.
    + by apply tree_alter_child.
    + rewrite (alter_lookup_insert _ _ _ _ Hp). apply tree_graft; try done; by rewrite Hp.
    + intros t th. destruct (decide (t = size (h_thread h))) as [->|]; [|rewrite lookup_insert_ne by done; apply P4].
      rewrite lookup_insert_eq. by intros [= <-].
    + split_and!; try done; [by apply dense_add|by apply dense_alter].
  - split; simpl; try done; [by apply fmap_insert_sub|]. by rewrite fmap_alter_same.
Qed.

(** *** Processes *)

Definition first_proc (l : nat) (pid : Z) : proc := set_proc_loom l (proc_init_begin pid).
Definition with_proc (p : nat) (pid : Z) (lo : loom) : loom :=
  set_loom_nprocs (loom_nprocs lo + 1) (set_loom_procs (loom_procs lo ++ [(pid, p)]) lo).
Definition proc_added (l : nat) (pid : Z) (h : heap) : heap :=
  set_h_proc <[size (h_proc h) := first_proc l pid]> (set_h_loom (alter (with_proc (size (h_proc h)) pid) l) h).

Lemma new_proc_Ok l pid h p h' : new_proc l pid h = (Ok p, h') ->
  p = size (h_proc h) /\ h' = proc_added l pid h /\ exists lo, h_loom h !! l = Some lo /\ pid ∉ (loom_procs lo).*1.
Proof.
  intros E. unfold new_proc in E. apply mbind_Ok in E as (? & ? & [= <- <-] & E).
  apply mbind_Ok in E as ([] & h1 & [= <-] & E). apply mbind_Ok in E as ([] & h2 & E2 & E). injection E as <- <-.
  unfold loom_add_proc in E2. apply mbind_Ok in E2 as (lo & ? & [Hl ->]%load_loom_Ok & E2). simpl in Hl.
  apply mbind_Ok in E2 as (pr & ? & [Hp ->]%load_proc_Ok & E2). simpl in Hp. rewrite lookup_insert_eq in Hp.
  injection Hp as <-. unfold loom_find_proc in E2. simpl in E2.
  destruct (assoc pid (loom_procs lo)) eqn:Ha; [discriminate|]. apply assoc_None in Ha.
  case_match; [discriminate|]. injection E2 as <-. split_and!; [done| |by exists lo].
  unfold proc_added, set_h_proc, set_h_loom; simpl. f_equal. by rewrite alter_insert_same.
Qed.

Lemma proc_added_wired l pid h lo : wired h -> h_loom h !! l = Some lo -> pid ∉ (loom_procs lo).*1 ->
  wired (proc_added l pid h) /\ sub (names_of h) (names_of (proc_added l pid h)).
Proof.
  intros [P1 P2 P3 P4 P5 P6 P7 (D1 & D2 & D3 & D4)] Hl Hn. pose proof (dense_new _ D3) as Ht. split.
  - unfold proc_added. split; simpl; try done.
    + rewrite (alter_lookup_insert _ _ _ _ Hl). apply tree_graft; try done; by rewrite Hl.
    + by apply tree_plant.
    + by apply tree_alter_parent.
    + split_and!; try done; [by apply dense_add|by apply dense_alter].
  - split; simpl; try done; [by apply fmap_insert_sub|]. by rewrite fmap_alter_same.
Qed.

Lemma proc_load_metadata_built I p md : keeps_ok (built I) (proc_load_metadata p md).
Proof.
  unfold proc_load_metadata, load_appid, load_rank.
  repeat first [co_bind | apply keeps_ok_if | quiet_step | solve [apply keeps_ok_quiet; auto with ovni]
    | solve [apply keeps_ok_of_keeps, upd_proc_built; intros ?; done]
    | lazymatch goal with |- keeps_ok _ (match _ with _ => _ end) => case_match end].
Qed.

Lemma create_proc_Ok l md h p h' : wired h -> create_proc l md h = (Ok p, h') ->
  wired h' /\ sub (names_of h) (names_of h') /\ n_threads (names_of h') = n_threads (names_of h) /\
  n_looms (names_of h') = n_looms (names_of h) /\
  exists g, n_procs (names_of h') !! p = Some (md_pid md, l, g).
Proof.
  intros Hw E. unfold create_proc in E.
  assert (proc_stream_get_pid md = md_pid md \/ proc_stream_get_pid md = -1) as Ht.
  { unfold proc_stream_get_pid. destruct (Z.eqb_spec (md_pid md) 0); auto. }
  destruct (Z.ltb_spec (proc_stream_get_pid md) 0) as [|Hp]; [discriminate|].
  destruct Ht as [Ht|Ht]; [|lia]. rewrite Ht in *.
  apply mbind_Ok in E as (lo & ? & [Hl ->]%load_loom_Ok & E).
  apply mbind_Ok in E as (p0 & h1 & E1 & E). apply mbind_Ok in E as ([] & h2 & E2 & E). injection E as <- <-.
  assert (wired h1 /\ sub (names_of h) (names_of h1) /\ n_threads (names_of h1) = n_threads (names_of h) /\
    n_looms (names_of h1) = n_looms (names_of h) /\
    exists g, n_procs (names_of h1) !! p0 = Some (md_pid md, l, g)) as (Hw1 & Hs & Hth & Hlo & g & Hg).
  { unfold loom_find_proc in E1. destruct (assoc (md_pid md) (loom_procs lo)) as [q|] eqn:Ha.
    - injection E1 as <- <-. split_and!; [done|apply sub_refl|done..|]. apply assoc_elem in Ha.
      destruct (tr_kid _ _ _ _ _ (b_procs _ Hw) _ _ _ _ Hl Ha) as (pr & Hpr & <- & [= <-]).
      exists (proc_gindex pr). simpl. by erewrite names_lookup.
    - apply new_proc_Ok in E1 as (-> & -> & lo' & Hl' & Hn). destruct (proc_added_wired l (md_pid md) h lo') as [? ?]; [done..|].
      split_and!; [done..|by apply fmap_alter_same|]. exists (-1). simpl. by rewrite fmap_insert, lookup_insert_eq. }
  destruct (proc_load_metadata_built (names_of h1) p0 md h1 tt h2) as [Hn Hw2]; [done|done|].
  rewrite Hn. split_and!; [done..|]. by exists g.
Qed.

(** *** Looms *)

Lemma loom_init_begin_Ok name h l h' : wired h -> loom_init_begin name h = (Ok l, h') ->
  wired h' /\ sub (names_of h) (names_of h') /\ n_threads (names_of h') = n_threads (names_of h) /\
  l = size (h_loom h) /\ exists lo, h_loom h' = <[l := lo]> (h_loom h) /\ loom_name lo = name.
Proof.
  intros [P1 P2 P3 P4 P5 P6 P7 (D1 & D2 & D3 & D4)] E. unfold loom_init_begin in E.
  do 2 (case_match; [discriminate|]). apply mbind_Ok in E as (? & ? & [= <- <-] & E).
  apply mbind_Ok in E as ([] & h1 & [= <-] & E). apply mbind_Ok in E as ([] & h2 & [= <-] & E). injection E as <- <-.
  pose proof (dense_new _ D2) as Hc. pose proof (dense_new _ D4) as Hl. split; [split|]; simpl; try done.
  - by apply tree_plant.
  - apply tree_graft; try done; rewrite Hl; simpl; [done|set_solver].
  - intros c cp. destruct (decide (c = size (h_cpu h))) as [->|]; [|rewrite lookup_insert_ne by done; apply P5].
    rewrite lookup_insert_eq. by intros [= <-].
  - split_and!; try done; by apply dense_add.
  - split_and!; [|done|done|by eexists]. split; simpl; try done; by apply fmap_insert_sub.
Qed.

Definition first_cpu (l : nat) (index phyid : Z) : cpu := set_cpu_loom (Some l) (cpu_init_begin index phyid false).
Definition with_cpu_entry (c : nat) (phyid : Z) (lo : loom) : loom :=
  set_loom_ncpus (loom_ncpus lo + 1) (set_loom_cpus (loom_cpus lo ++ [(phyid, c)]) lo).

Lemma load_cpu_entry_Ok l e h h' : wired h -> load_cpu_entry l e h = (Ok tt, h') ->
  h' = h \/ exists index phyid lo, h_loom h !! l = Some lo /\ phyid ∉ (loom_kids lo).*1 /\ 0 <= phyid /\
    h' = set_h_cpu <[size (h_cpu h) := first_cpu l index phyid]>
           (set_h_loom (alter (with_cpu_entry (size (h_cpu h)) phyid) l) h).
Proof.
  intros Hw E. unfold load_cpu_entry in E. apply mbind_Ok in E as ([i ph] & ? & [_ ->]%found_Ok & E). simpl in E.
  case_match; [discriminate|]. apply mbind_Ok in E as (lo & ? & [Hl ->]%load_loom_Ok & E).
  destruct (loom_find_cpu lo ph) as [c|] eqn:Hf.
  - apply mbind_Ok in E as (cp & ? & [_ ->]%load_cpu_Ok & E). left. case_match; [discriminate|]. by injection E as <-.
  - right. apply mbind_Ok in E as (? & ? & [= <- <-] & E). apply mbind_Ok in E as ([] & h1 & [= <-] & E).
    unfold loom_add_cpu in E. apply mbind_Ok in E as (lo' & ? & [Hl' ->]%load_loom_Ok & E). simpl in Hl'. simplify_eq.
    apply mbind_Ok in E as (cp & ? & [Hc ->]%load_cpu_Ok & E). simpl in Hc. rewrite lookup_insert_eq in Hc.
    injection Hc as <-. simpl in E. destruct (Z.ltb_spec ph 0); [discriminate|]. rewrite Hf in E.
    case_match; [discriminate|]. injection E as <-. exists i, ph, lo. split_and!; [done| |done|].
    + unfold loom_find_cpu in Hf. destruct (Z.eqb_spec ph (-1)); [lia|]. apply assoc_None in Hf.
      unfold loom_kids. rewrite fmap_app. simpl. set_solver.
    + unfold set_h_cpu, set_h_loom; simpl. f_equal. by rewrite alter_insert_same.
Qed.

Lemma load_cpu_entry_wired l e h h' : wired h -> load_cpu_entry l e h = (Ok tt, h') ->
  wired h' /\ sub (names_of h) (names_of h') /\ n_threads (names_of h') = n_threads (names_of h) /\
  n_looms (names_of h') = n_looms (names_of h).
Proof.
  intros Hw E. destruct (load_cpu_entry_Ok _ _ _ _ Hw E) as [->|(i & ph & lo & Hl & Hn & Hp & ->)].
  { split_and!; [done|apply sub_refl|done..]. }
  destruct Hw as [P1 P2 P3 P4 P5 P6 P7 (D1 & D2 & D3 & D4)]. pose proof (dense_new _ D2) as Hc.
  split_and!; [split| |done|]; simpl; try done.
  - by apply tree_alter_parent.
  - rewrite (alter_lookup_insert _ _ _ _ Hl). apply tree_graft; try done; rewrite Hl; [|done].
    unfold loom_kids. simpl. rewrite <- !app_assoc. apply Permutation_app_head, Permutation_swap.
  - intros c cp. destruct (decide (c = size (h_cpu h))) as [->|]; [|rewrite lookup_insert_ne by done; apply P5].
    rewrite lookup_insert_eq. intros [= <-]. split; [done| |done]. simpl. symmetry. apply Z.eqb_neq. lia.
  - split_and!; try done; [by apply dense_add|by apply dense_alter].
  - split; simpl; try done; [by rewrite fmap_alter_same|by apply fmap_insert_sub].
  - by apply fmap_alter_same.
Qed.

Lemma loom_load_metadata_Ok l md h h' : wired h -> loom_load_metadata l md h = (Ok tt, h') ->
  wired h' /\ sub (names_of h) (names_of h') /\ n_threads (names_of h') = n_threads (names_of h) /\
  n_looms (names_of h') = n_looms (names_of h).
Proof.
  unfold loom_load_metadata, load_cpus. destruct (md_cpus md) as [cpus|].
  2: { intros Hw [= <-]. split_and!; [done|apply sub_refl|done..]. }
  case_match; [discriminate|]. clear. revert h. induction cpus as [|e cpus IH]; intros h Hw E; simpl in E.
  - injection E as <-. split_and!; [done|apply sub_refl|done..].
  - apply mbind_Ok in E as ([] & h1 & E1 & E). apply load_cpu_entry_wired in E1 as (Hw1 & S1 & T1 & L1); [|done].
    destruct (IH h1 Hw1 E) as (Hw2 & S2 & T2 & L2). split_and!; [done|by eapply sub_trans|congruence..].
Qed.

Lemma find_loom_Ok looms id h r h' : find_loom looms id h = (Ok r, h') ->
  h' = h /\ forall l, r = Some l -> l ∈ looms /\ exists lo, h_loom h !! l = Some lo /\ loom_name lo = id.
Proof.
  revert r. induction looms as [|l looms IH]; intros r E; simpl in E; [by injection E as <- <-|].
  apply mbind_Ok in E as (lo & ? & [Hl ->]%load_loom_Ok & E). case_bool_decide.
  - injection E as <- <-. split; [done|]. intros ? [= <-]. split; [by left|by exists lo].
  - apply IH in E as [-> Hr]. split; [done|]. intros l' (? & ?)%Hr. split; [by right|done].
Qed.

(** A list of all the keys of a map, once. *)
Definition lists {A} (l : list nat) (m : gmap nat A) : Prop := NoDup l /\ forall i, i ∈ l <-> is_Some (m !! i).

Lemma lists_dom {A B} l (m : gmap nat A) (m' : gmap nat B) : (forall i, is_Some (m !! i) <-> is_Some (m' !! i)) ->
  lists l m -> lists l m'.
Proof. intros Hd [H1 H2]. split; [done|]. intros i. by rewrite H2. Qed.

Lemma lists_fmap {A B} (f : A -> B) l (m : gmap nat A) : lists l (f <$> m) <-> lists l m.
Proof. split; apply lists_dom; intros i; by rewrite lookup_fmap, fmap_is_Some. Qed.

Lemma lists_add {A} l (m : gmap nat A) i x : m !! i = None -> lists l m -> lists (l ++ [i]) (<[i := x]> m).
Proof.
  intros Hi [H1 H2]. split.
  - apply list.NoDup_app. split_and!; [done| |apply NoDup_singleton].
    intros j Hj ->%list_elem_of_singleton. apply H2 in Hj as [? ?]. congruence.
  - intros j. rewrite elem_of_app, H2, list_elem_of_singleton, lookup_insert_is_Some.
    destruct (decide (i = j)) as [->|]; naive_solver.
Qed.

(** The entry [e] is the thread, the process and the loom of the stream's metadata. *)
Definition placed (I : names) (e : lpt) (md : metadata) : Prop :=
  exists gt gp gl name, n_threads I !! lpt_thread e = Some (md_tid md, lpt_proc e, gt) /\
    n_procs I !! lpt_proc e = Some (md_pid md, lpt_loom e, gp) /\
    n_looms I !! lpt_loom e = Some (name, gl) /\ md_loom md = Some name.

Lemma placed_sub I J e md : sub I J -> placed I e md -> placed J e md.
Proof.
  intros [] (gt & gp & gl & name & ? & ? & ? & ?). exists gt, gp, gl, name.
  split_and!; [by eapply lookup_weaken..|done].
Qed.

Definition is_thread (im : nat * smeta) : bool := bool_decide (md_part (sm_md im.2) = Some "thread"%string).

(** The entry of a stream. *)
Definition entry (I : names) (e : lpt) (im : nat * smeta) : Prop := lpt_stream e = im.1 /\ placed I e (sm_md im.2).

Lemma entries_sub I J es ims : sub I J -> Forall2 (entry I) es ims -> Forall2 (entry J) es ims.
Proof. intros HS. apply Forall2_impl. intros e im [? ?]. split; [done|by eapply placed_sub]. Qed.

(** The system after the streams [read]. *)
Record creating (read : list (nat * smeta)) (s : syst) : Prop := {
  cr_wired : wired (st_heap s);
  cr_looms : lists (sys_looms (st_sys s)) (h_loom (st_heap s));
  cr_sys : st_sys s = mk_system (Z.of_nat (length (sys_looms (st_sys s)))) 0 0 0 0 false (sys_looms (st_sys s)) [] [] []
                        (sys_lpt (st_sys s));
  cr_lpt : Forall2 (entry (names_of (st_heap s))) (sys_lpt (st_sys s)) (List.filter is_thread read);
  cr_threads : lists (map lpt_thread (sys_lpt (st_sys s))) (h_thread (st_heap s))
}.

Lemma creating_heap h' read s : creating read s -> wired h' -> sub (names_of (st_heap s)) (names_of h') ->
  n_threads (names_of h') = n_threads (names_of (st_heap s)) ->
  lists (sys_looms (st_sys s)) (h_loom h') -> creating read (mk_syst (st_sys s) h' (st_streams s) (st_rec s)).
Proof.
  intros [C1 C2 C3 C4 C5] Hw Hs Ht Hl. split; simpl; try done; [by eapply entries_sub|].
  apply (lists_fmap thread_id). change (lists (map lpt_thread (sys_lpt (st_sys s))) (n_threads (names_of h'))).
  rewrite Ht. by apply lists_fmap.
Qed.

Lemma in_heap_Ok {A} (m : M heap A) s a s' : in_heap m s = (Ok a, s') ->
  exists h', m (st_heap s) = (Ok a, h') /\ s' = mk_syst (st_sys s) h' (st_streams s) (st_rec s).
Proof. unfold in_heap. destruct (m (st_heap s)) as [r h]. intros [= -> <-]. by exists h. Qed.

Lemma create_loom_Ok md read s l s' : creating read s -> create_loom md s = (Ok l, s') ->
  creating read s' /\ sys_lpt (st_sys s') = sys_lpt (st_sys s) /\ sub (names_of (st_heap s)) (names_of (st_heap s')) /\
  exists name g, md_loom md = Some name /\ n_looms (names_of (st_heap s')) !! l = Some (name, g).
Proof.
  intros Hc E. unfold create_loom in E. apply mbind_Ok in E as (name & ? & [Hname ->]%found_Ok & E).
  apply mbind_Ok in E as (? & ? & [= <- <-] & E).
  apply mbind_Ok in E as (fl & s1 & E1 & E). apply in_heap_Ok in E1 as (h1 & [-> Hfl]%find_loom_Ok & ->).
  apply mbind_Ok in E as (l0 & s2 & E2 & E). apply mbind_Ok in E as ([] & s3 & E3 & E). injection E as <- <-.
  apply in_heap_Ok in E3 as (h3 & E3 & ->).
  assert (creating read s2 /\ sys_lpt (st_sys s2) = sys_lpt (st_sys s) /\ sub (names_of (st_heap s)) (names_of (st_heap s2)) /\
    exists g, n_looms (names_of (st_heap s2)) !! l0 = Some (name, g)) as (Hc2 & Hlpt & HS & g & Hg).
  { destruct fl as [l'|].
    - injection E2 as <- <-. destruct (Hfl l' eq_refl) as (_ & lo & Hlo & <-).
      split_and!; [by destruct s|done|apply sub_refl|]. exists (loom_gindex lo). simpl. by erewrite names_lookup.
    - apply mbind_Ok in E2 as (l' & s4 & E4 & E2). apply in_heap_Ok in E4 as (h4 & E4 & ->).
      apply loom_init_begin_Ok in E4 as (Hw & HS & Ht & -> & lo & Hlo & <-); [|apply Hc].
      injection E2 as <- <-. destruct Hc as [C1 C2 C3 C4 C5]. simpl in *.
      split_and!; [|done|done|exists (loom_gindex lo); simpl; rewrite Hlo; erewrite names_lookup; [done|by rewrite lookup_insert_eq]].
      split; simpl; try done.
      + rewrite Hlo. apply lists_add; [|done]. apply dense_new, (b_dense _ C1).
      + rewrite C3. simpl. unfold add_loom; simpl. rewrite length_app. simpl. f_equal. lia.
      + by eapply entries_sub.
      + apply (lists_fmap thread_id) in C5. apply (lists_fmap thread_id).
        by rewrite Ht. }
  apply loom_load_metadata_Ok in E3 as (Hw & HS3 & Ht & Hl); [|apply Hc2].
  split_and!; [|done|by eapply sub_trans|exists name, g; split; [done|]; simpl in *; by rewrite Hl].
  apply creating_heap; try done. apply (lists_fmap loom_id). simpl in Hl. rewrite Hl. apply lists_fmap, Hc2.
Qed.

Lemma create_stream_Ok read s im s' : creating read s -> create_stream im s = (Ok tt, s') -> creating (read ++ [im]) s'.
Proof.
  intros Hc E. unfold create_stream in E. apply mbind_Ok in E as (ok & s0 & E0 & E).
  unfold is_thread_stream in E0. apply mbind_Ok in E0 as (part & ? & [Hpart ->]%found_Ok & E0).
  injection E0 as <- <-.
  assert (is_thread im = bool_decide (part = "thread"%string)) as Hi.
  { unfold is_thread. rewrite Hpart. by repeat case_bool_decide; simplify_eq. }
  assert (List.filter is_thread (read ++ [im]) = List.filter is_thread read ++ (if bool_decide (part = "thread"%string) then [im] else [])) as Hf.
  { rewrite List.filter_app. f_equal. simpl. by rewrite Hi. }
  destruct (bool_decide (part = "thread"%string)); simpl in E.
  2: { injection E as <-. destruct Hc. split; try done. by rewrite Hf, app_nil_r. }
  apply mbind_Ok in E as (l & s1 & E1 & E). apply create_loom_Ok with (read := read) in E1; [|done].
  destruct E1 as (Hc1 & Hlpt & HS1 & name & g & Hname & Hg).
  apply mbind_Ok in E as (p & s2 & E2 & E). apply in_heap_Ok in E2 as (h2 & E2 & ->).
  apply create_proc_Ok in E2 as (Hw2 & HS2 & Ht2 & Hl2 & gp & Hgp); [|apply Hc1].
  apply mbind_Ok in E as (t & s3 & E3 & E). apply in_heap_Ok in E3 as (h3 & E3 & ->). simpl in E3.
  apply create_thread_Ok in E3 as (-> & -> & pr & Hpr & Hn).
  destruct (thread_added_wired p (sm_md im.2) h2 pr) as [Hw3 HS3]; [done..|].
  injection E as <-. pose proof (dense_new _ (proj1 (b_dense _ Hw2))) as Hnew.
  destruct Hc1 as [C1 C2 C3 C4 C5]. simpl in *. split; simpl; try done.
  - apply (lists_fmap loom_id). rewrite Hl2. by apply lists_fmap.
  - by rewrite C3.
  - rewrite Hf. apply Forall2_app.
    + eapply entries_sub; [|exact C4]. by eapply sub_trans.
    + constructor; [|constructor]. split; [done|]. exists (-1), gp, g, name. simpl. split_and!; [| | |done].
      * by rewrite fmap_insert, lookup_insert_eq.
      * eapply lookup_weaken; [exact Hgp|apply HS3].
      * eapply lookup_weaken; [exact Hg|]. etrans; [apply HS2|apply HS3].
  - rewrite map_app. simpl. apply lists_add; [done|]. apply (lists_fmap thread_id). simpl in Ht2. rewrite Ht2.
    by apply lists_fmap.
Qed.

Lemma create_streams_Ok read ims s s' : creating read s -> for_each create_stream ims s = (Ok tt, s') ->
  creating (read ++ ims) s'.
Proof.
  revert read s. induction ims as [|im ims IH]; intros read s Hc E; simpl in E.
  - injection E as <-. by rewrite app_nil_r.
  - apply mbind_Ok in E as ([] & s1 & E1 & E). apply create_stream_Ok with (read := read) in E1; [|done].
    apply (IH (read ++ [im])) in E; [|done]. by rewrite <- app_assoc in E.
Qed.

Lemma creating_nil streams rec : creating [] (mk_syst system_zero empty_heap streams rec).
Proof.
  assert (forall A, lists [] (∅ : gmap nat A)) as Hl.
  { intros A. split; [constructor|]. intros i. rewrite lookup_empty. split; [set_solver|by intros [? ?]]. }
  by split.
Qed.

(** ** The global lists *)

Definition add_lists (ths ps cs : list nat) (s : system) : system :=
  mk_system (sys_nlooms s) (sys_nthreads s) (sys_nprocs s) (sys_ncpus s) (sys_nphycpus s) (sys_sort_by_rank s)
    (sys_looms s) (sys_procs s ++ ps) (sys_threads s ++ ths) (sys_cpus s ++ cs) (sys_lpt s).

Definition with_sys (f : system -> system) (s : syst) : syst := mk_syst (f (st_sys s)) (st_heap s) (st_streams s) (st_rec s).

Lemma add_lists_nil s : add_lists [] [] [] s = s.
Proof. unfold add_lists. rewrite !app_nil_r. by destruct s. Qed.
Lemma add_lists_twice a b c a' b' c' s :
  add_lists a' b' c' (add_lists a b c s) = add_lists (a ++ a') (b ++ b') (c ++ c') s.
Proof. unfold add_lists; simpl. by rewrite <- !app_assoc. Qed.
Lemma with_sys_twice f g s : with_sys g (with_sys f s) = with_sys (fun x => g (f x)) s.
Proof. done. Qed.

Lemma add_each {A} (f : A -> nat) (g : nat -> system -> system) (lists : list nat -> system -> system) l s u s' :
  (forall x, lists [] x = x) -> (forall a k x, lists k (g a x) = lists (a :: k) x) ->
  for_each (fun e => on_sys (g (f e))) l s = (Ok u, s') -> s' = with_sys (lists (map f l)) s.
Proof.
  intros H0 H1. revert s. induction l as [|e l IH]; intros s E; simpl in E.
  - injection E as _ <-. unfold with_sys. simpl. rewrite H0. by destruct s.
  - apply mbind_Ok in E as ([] & s1 & [= <-] & E). apply IH in E as ->. unfold with_sys; simpl. by rewrite H1.
Qed.

Lemma list_proc_Ok e s s' : list_proc e s = (Ok tt, s') ->
  s' = with_sys (add_lists (kids_of proc_threads (h_proc (st_heap s)) e.2) [e.2] []) s.
Proof.
  intros E. unfold list_proc in E. apply mbind_Ok in E as (pr & s1 & E1 & E).
  apply in_heap_Ok in E1 as (h1 & [Hp ->]%load_proc_Ok & ->).
  apply mbind_Ok in E as ([] & s2 & E2 & E). injection E as <-.
  eapply (add_each snd add_thread (fun k => add_lists k [] [])) in E2 as ->;
    [|apply add_lists_nil|intros a k x; unfold add_lists; simpl; by rewrite !app_nil_r, <- app_assoc].
  unfold with_sys, kids_of; simpl. rewrite Hp. unfold add_lists, add_proc; simpl. by rewrite !app_nil_r.
Qed.

Lemma list_procs_Ok l s u s' : for_each list_proc l s = (Ok u, s') ->
  s' = with_sys (add_lists (l.*2 ≫= kids_of proc_threads (h_proc (st_heap s))) l.*2 []) s.
Proof.
  revert s. induction l as [|e l IH]; intros s E; simpl in E.
  - injection E as _ <-. unfold with_sys; simpl. rewrite add_lists_nil. by destruct s.
  - apply mbind_Ok in E as ([] & s1 & ->%list_proc_Ok & ->%IH). rewrite with_sys_twice.
    unfold with_sys. by rewrite add_lists_twice.
Qed.

Lemma list_loom_Ok l s s' : list_loom l s = (Ok tt, s') ->
  s' = with_sys (add_lists (kids_of loom_procs (h_loom (st_heap s)) l ≫= kids_of proc_threads (h_proc (st_heap s)))
         (kids_of loom_procs (h_loom (st_heap s)) l) (kids_of loom_kids (h_loom (st_heap s)) l)) s.
Proof.
  intros E. unfold list_loom in E. apply mbind_Ok in E as (lo & s1 & E1 & E).
  apply in_heap_Ok in E1 as (h1 & [Hl ->]%load_loom_Ok & ->).
  apply mbind_Ok in E as ([] & s2 & ->%list_procs_Ok & E). apply mbind_Ok in E as ([] & s3 & E3 & E).
  injection E as <-. eapply (add_each snd add_cpu (fun k => add_lists [] [] k)) in E3 as ->;
    [|apply add_lists_nil|intros a k x; unfold add_lists; simpl; by rewrite !app_nil_r, <- app_assoc].
  unfold with_sys, kids_of; simpl. rewrite Hl. unfold add_lists, add_cpu, loom_kids; simpl.
  by rewrite !app_nil_r, fmap_app, app_assoc.
Qed.

Lemma init_global_lists_Ok s s' : init_global_lists s = (Ok tt, s') ->
  let ps := sys_looms (st_sys s) ≫= kids_of loom_procs (h_loom (st_heap s)) in
  s' = with_sys (add_lists (ps ≫= kids_of proc_threads (h_proc (st_heap s))) ps
         (sys_looms (st_sys s) ≫= kids_of loom_kids (h_loom (st_heap s)))) s.
Proof.
  intros E. unfold init_global_lists in E. apply mbind_Ok in E as (? & ? & [= <- <-] & E).
  generalize dependent s. intros s. generalize (sys_looms (st_sys s)). intros l. revert s.
  induction l as [|x l IH]; intros s E; simpl in E.
  - injection E as <-. unfold with_sys; simpl. rewrite add_lists_nil. by destruct s.
  - apply mbind_Ok in E as ([] & s1 & ->%list_loom_Ok & ->%IH). rewrite with_sys_twice.
    unfold with_sys. by rewrite add_lists_twice; simpl; rewrite bind_app.
Qed.

(** ** Indices *)

(** [l] has every object once, and the index of each is its position. *)
Definition numbered {K} (l : list nat) (m : gmap nat (K * Z)) : Prop :=
  lists l m /\ forall i x, l !! i = Some x -> snd <$> m !! x = Some (Z.of_nat i).

Section Number.
Context {A K : Type} (ident : A -> K * Z) (get : heap -> gmap nat A) (set : nat -> Z -> M heap unit).
Context (f : Z -> A -> A).
Hypothesis set_run : forall x i h, exists h', set x i h = (Ok tt, h') /\ get h' = alter (f i) x (get h).
Hypothesis f_ident : forall i a, ident (f i a) = ((ident a).1, i).

Lemma number_Ok l h u h' : number set l h = (Ok u, h') -> NoDup l ->
  fst <$> (ident <$> get h') = fst <$> (ident <$> get h) /\
  forall i x a, l !! i = Some x -> get h' !! x = Some a -> (ident a).2 = Z.of_nat i.
Proof.
  unfold number. revert h'. induction l as [|x l IH] using rev_ind; intros h' E Hn.
  - injection E as _ <-. split; [done|]. by intros [|i].
  - rewrite imap_app in E. rewrite for_each_app in E. apply mbind_Ok in E as ([] & h1 & E1 & E).
    apply list.NoDup_app in Hn as (Hn & Hx & _). destruct u, (IH h1 E1 Hn) as [IH1 IH2]. simpl in E.
    rewrite Nat.add_0_r in E.
    destruct (set_run x (Z.of_nat (length l)) h1) as (h2 & E2 & Hg). rewrite (mbind_run _ _ _ _ _ E2) in E.
    injection E as <-. split.
    + rewrite <- IH1, Hg, <- !map_fmap_compose. apply fmap_alter_same. intros a. simpl. by rewrite f_ident.
    + intros i y a Hi Ha. rewrite Hg in Ha. apply lookup_app_Some in Hi as [Hi|[Hlen Hi]].
      * rewrite lookup_alter_ne in Ha; [by eapply IH2|]. intros <-. apply (Hx x); [|set_solver].
        by eapply list_elem_of_lookup_2.
      * destruct (i - length l)%nat eqn:Ei; [|done]. injection Hi as <-. rewrite lookup_alter_eq in Ha.
        destruct (get h1 !! x); [|done]. injection Ha as <-. rewrite f_ident. simpl. f_equal. lia.
Qed.
End Number.

Lemma number_wired set l : (forall x i, keeps wired (set x i)) -> keeps_ok wired (number set l).
Proof. intros Hs. apply for_each_keeps_ok. intros ix. apply keeps_ok_of_keeps, Hs. Qed.

(** One kind of object gets its indices; the others stay. *)
Record reindexed {K} (l : list nat) (m m' : gmap nat (K * Z)) : Prop := {
  ri_same : fst <$> m' = fst <$> m;
  ri_index : lists l m -> numbered l m'
}.

Lemma reindex {A K} (ident : A -> K * Z) (get : heap -> gmap nat A) set f l h u h' :
  (forall x i h, exists h', set x i h = (Ok tt, h') /\ get h' = alter (f i) x (get h)) ->
  (forall i a, ident (f i a) = ((ident a).1, i)) -> number set l h = (Ok u, h') -> lists l (get h) ->
  reindexed l (ident <$> get h) (ident <$> get h').
Proof.
  intros H1 H2 E [Hn Hl]. destruct (number_Ok ident get set f H1 H2 l h u h' E Hn) as [Hs Hi]. split; [done|].
  intros Hk. split.
  - eapply lists_dom; [|exact Hk]. intros i. apply (f_equal (.!! i)) in Hs. rewrite !lookup_fmap in *.
    destruct (get h' !! i), (get h !! i); simpl in *; try done; rewrite ?is_Some_alt; done.
  - intros i x Hx. rewrite lookup_fmap. destruct (get h' !! x) as [a|] eqn:Ha; simpl; [by rewrite (Hi i x a)|].
    exfalso. assert (is_Some (get h !! x)) as [b Hb] by (apply Hl; by eapply list_elem_of_lookup_2).
    apply (f_equal (.!! x)) in Hs. by rewrite !lookup_fmap, Ha, Hb in Hs.
Qed.

Lemma number_other {B} (get : heap -> B) set l : (forall x i h, get (set x i h).2 = get h) ->
  forall h, get (number set l h).2 = get h.
Proof.
  intros Hs h. unfold number. assert (keeps (fun h' => get h' = get h) (for_each (fun ix => set ix.2 (Z.of_nat ix.1)) (imap pair l))) as K.
  { apply for_each_keeps. intros ix _ h' <-. apply Hs. }
  by apply K.
Qed.

(** What [init_global_indices] leaves. *)
Lemma init_global_indices_Ok s s' : wired (st_heap s) -> init_global_indices s = (Ok tt, s') ->
  lists (sys_looms (st_sys s)) (h_loom (st_heap s)) -> lists (sys_procs (st_sys s)) (h_proc (st_heap s)) ->
  lists (sys_threads (st_sys s)) (h_thread (st_heap s)) -> lists (sys_cpus (st_sys s)) (h_cpu (st_heap s)) ->
  let I := names_of (st_heap s) in let J := names_of (st_heap s') in
  wired (st_heap s') /\
  reindexed (sys_looms (st_sys s)) (n_looms I) (n_looms J) /\ reindexed (sys_procs (st_sys s)) (n_procs I) (n_procs J) /\
  reindexed (sys_threads (st_sys s)) (n_threads I) (n_threads J) /\ reindexed (sys_cpus (st_sys s)) (n_cpus I) (n_cpus J) /\
  exists nphy, st_sys s' = set_counters (Z.of_nat (length (sys_threads (st_sys s)))) (Z.of_nat (length (sys_procs (st_sys s))))
    (Z.of_nat (length (sys_cpus (st_sys s)))) nphy (st_sys s).
Proof.
  intros Hw E L1 L2 L3 L4. unfold init_global_indices in E. apply mbind_Ok in E as (? & ? & [= <- <-] & E).
  apply mbind_Ok in E as ([] & s1 & E1 & E). apply in_heap_Ok in E1 as (h1 & E1 & ->).
  apply mbind_Ok in E as ([] & s2 & E2 & E). apply in_heap_Ok in E2 as (h2 & E2 & ->). simpl in E2.
  apply mbind_Ok in E as ([] & s3 & E3 & E). apply in_heap_Ok in E3 as (h3 & E3 & ->). simpl in E3.
  apply mbind_Ok in E as ([] & s4 & E4 & E). apply in_heap_Ok in E4 as (h4 & E4 & ->). simpl in E4.
  apply mbind_Ok in E as (nphy & s5 & E5 & E). apply in_heap_Ok in E5 as (h5 & E5 & ->). simpl in E5.
  apply quiet_Ok in E5 as ->; [|apply quiet_count_physical]. injection E as <-. simpl in *.
  set (h := st_heap s) in *.
  assert (wired h4) as Hw4.
  { eapply number_wired in E4; [exact E4|apply upd_cpu_gindex_wired|].
    eapply number_wired in E3; [exact E3|intros; by apply upd_thread_wired|].
    eapply number_wired in E2; [exact E2|intros; by apply upd_proc_wired|].
    eapply number_wired in E1; [exact E1|intros; by apply upd_loom_wired|done]. }
  assert (h_loom h4 = h_loom h1 /\ h_proc h1 = h_proc h /\ h_thread h2 = h_thread h /\ h_cpu h3 = h_cpu h /\
    h_proc h4 = h_proc h2 /\ h_thread h4 = h_thread h3) as (Q1 & Q2 & Q3 & Q4 & Q5 & Q6).
  { assert (forall B (get : heap -> B) set l (h0 h' : heap), number set l h0 = (Ok tt, h') -> (forall x i h, get (set x i h).2 = get h) ->
      get h' = get h0) as HQ.
    { intros B get set l h0 h' En Hs. pose proof (number_other get set l Hs h0) as Hn. by rewrite En in Hn. }
    split_and!.
    - rewrite (HQ _ h_loom _ _ _ _ E4), (HQ _ h_loom _ _ _ _ E3), (HQ _ h_loom _ _ _ _ E2); done.
    - by rewrite (HQ _ h_proc _ _ _ _ E1).
    - rewrite (HQ _ h_thread _ _ _ _ E2), (HQ _ h_thread _ _ _ _ E1); done.
    - rewrite (HQ _ h_cpu _ _ _ _ E3), (HQ _ h_cpu _ _ _ _ E2), (HQ _ h_cpu _ _ _ _ E1); done.
    - rewrite (HQ _ h_proc _ _ _ _ E4), (HQ _ h_proc _ _ _ _ E3); done.
    - by rewrite (HQ _ h_thread _ _ _ _ E4). }
  split; [done|]. unfold names_of; simpl. rewrite Q1, Q5, Q6. split_and!; [..|by exists nphy].
  - eapply (reindex loom_id h_loom _ set_loom_gindex); [|done|exact E1|done]. by eexists.
  - rewrite <- Q2. eapply (reindex proc_id h_proc _ set_proc_gindex); [|done|exact E2|by rewrite Q2]. by eexists.
  - rewrite <- Q3. eapply (reindex thread_id h_thread _ set_t_gindex); [|done|exact E3|by rewrite Q3]. by eexists.
  - rewrite <- Q4. eapply (reindex cpu_id h_cpu _ set_cpu_gindex); [|done|exact E4|by rewrite Q4]. by eexists.
Qed.

Lemma reindexed_lookup {K} l (m m' : gmap nat (K * Z)) x k g : reindexed l m m' -> m !! x = Some (k, g) ->
  exists g', m' !! x = Some (k, g').
Proof.
  intros [Hs _] Hx. apply (f_equal (.!! x)) in Hs. rewrite !lookup_fmap, Hx in Hs.
  destruct (m' !! x) as [[k' g']|]; [|done]. injection Hs as ->. by exists g'.
Qed.

(** ** The system of a trace *)

(** The system is consistent with the [trace] it comes from. *)
Record ready (trace : list smeta) (s : syst) : Prop := {
  rd_wired : wired (st_heap s);
  rd_lpt : Forall2 (entry (names_of (st_heap s))) (sys_lpt (st_sys s)) (List.filter is_thread (imap pair trace));
  rd_lpt_threads : lists (map lpt_thread (sys_lpt (st_sys s))) (n_threads (names_of (st_heap s)));
  rd_looms : numbered (sys_looms (st_sys s)) (n_looms (names_of (st_heap s)));
  rd_procs : numbered (sys_procs (st_sys s)) (n_procs (names_of (st_heap s)));
  rd_threads : numbered (sys_threads (st_sys s)) (n_threads (names_of (st_heap s)));
  rd_cpus : numbered (sys_cpus (st_sys s)) (n_cpus (names_of (st_heap s)));
  rd_counts : sys_nlooms (st_sys s) = Z.of_nat (length (sys_looms (st_sys s))) /\
    sys_nprocs (st_sys s) = Z.of_nat (length (sys_procs (st_sys s))) /\
    sys_nthreads (st_sys s) = Z.of_nat (length (sys_threads (st_sys s))) /\
    sys_ncpus (st_sys s) = Z.of_nat (length (sys_cpus (st_sys s)))
}.

(** The lists of a created system are complete. *)
Lemma listed_children {P C} (kids : P -> list (Z * nat)) key parent (ps : gmap nat P) (cs : gmap nat C) l :
  tree kids key parent ps cs -> lists l ps -> lists (l ≫= kids_of kids ps) cs.
Proof.
  intros T [Hn Hl]. split; [by eapply children_nodup|]. intros c. by eapply children_elem.
Qed.

Lemma ready_of_names trace s s' : ready trace s -> built_with (names_of (st_heap s)) (st_sys s) s' -> ready trace s'.
Proof. intros [R1 R2 R3 R4 R5 R6 R7 R8] [[HN HW] HS]. split; rewrite ?HN, ?HS; done. Qed.

Lemma lists_perm {A} l l' (m : gmap nat A) : l ≡ₚ l' -> lists l m -> lists l' m.
Proof. intros Hp [H1 H2]. split; [by rewrite <- Hp|]. intros i. by rewrite <- Hp. Qed.

Lemma create_ready trace s1 s2 : creating (imap pair trace) s1 ->
  (set_sort_criteria ;;; sort_lpt ;;; init_global_lists ;;; init_global_indices) s1 = (Ok tt, s2) -> ready trace s2.
Proof.
  intros [C1 C2 C3 C4 C5] E. set (I := names_of (st_heap s1)) in *.
  assert (built_with I (st_sys s1) s1) as Hb by done.
  apply mbind_Ok in E as ([] & sa & Ea & E). apply (set_sort_criteria_Ok I (st_sys s1)) in Ea as (b & Hb1); [|done].
  apply mbind_Ok in E as ([] & sb & Eb & E).
  apply (sort_lpt_Ok I (set_sort_by_rank b (st_sys s1))) in Eb as (looms & Hp & Hb2); [|done].
  apply mbind_Ok in E as ([] & sc & ->%init_global_lists_Ok & E). simpl in E.
  destruct Hb2 as [[HN HW] HS]. rewrite HS in E. simpl in E.
  assert (lists looms (h_loom (st_heap sb))) as L1.
  { eapply lists_perm; [symmetry; exact Hp|]. apply (lists_fmap loom_id).
    change (loom_id <$> h_loom (st_heap sb)) with (n_looms (names_of (st_heap sb))). rewrite HN. by apply lists_fmap. }
  pose proof (listed_children _ _ _ _ _ _ (b_procs _ HW) L1) as L2.
  pose proof (listed_children _ _ _ _ _ _ (b_threads _ HW) L2) as L3.
  pose proof (listed_children _ _ _ _ _ _ (b_cpus _ HW) L1) as L4.
  rewrite C3 in HS. destruct sb as [sys hb streams rec]. cbn [st_sys st_heap] in *. subst sys.
  match type of E with _ ?s0 = _ =>
    destruct (init_global_indices_Ok s0 s2 HW E L1 L2 L3 L4) as (HW' & R1 & R2 & R3 & R4 & nphy & Hs) end.
  cbn [st_heap with_sys] in R1, R2, R3, R4. rewrite HN in *.
  apply (lists_fmap loom_id) in L1. apply (lists_fmap proc_id) in L2. apply (lists_fmap thread_id) in L3.
  apply (lists_fmap cpu_id) in L4.
  change (loom_id <$> h_loom hb) with (n_looms (names_of hb)) in L1.
  change (proc_id <$> h_proc hb) with (n_procs (names_of hb)) in L2.
  change (thread_id <$> h_thread hb) with (n_threads (names_of hb)) in L3.
  change (cpu_id <$> h_cpu hb) with (n_cpus (names_of hb)) in L4. rewrite HN in *.
  split; rewrite ?Hs; [done| | |by apply R1|by apply R2|by apply R3|by apply R4|].
  - revert C4. apply Forall2_impl. intros e im [He (gt & gp & gl & name & E1 & E2 & E3 & E4)]. split; [done|].
    eapply reindexed_lookup in E1 as [gt' E1]; [|exact R3]. eapply reindexed_lookup in E2 as [gp' E2]; [|exact R2].
    eapply reindexed_lookup in E3 as [gl' E3]; [|exact R1]. by exists gt', gp', gl', name.
  - apply (lists_fmap thread_id) in C5. apply (lists_fmap fst).
    rewrite (ri_same _ _ _ R3). by apply (lists_fmap fst).
  - split_and!; try done. cbn. by rewrite Hp.
Qed.

Lemma system_init_ready trace file sys0 streams rec s :
  system_init trace file (mk_syst sys0 empty_heap streams rec) = (Ok tt, s) -> ready trace s.
Proof.
  intros E. unfold system_init in E. apply mbind_Ok in E as ([] & s0 & [= <-] & E).
  apply mbind_Ok in E as ([] & s1 & E1 & E). apply create_streams_Ok with (read := []) in E1; [|apply creating_nil].
  apply mbind_Ok in E as ([] & sa & Ea & E). apply mbind_Ok in E as ([] & sb & Eb & E).
  apply mbind_Ok in E as ([] & sc & Ec & E). apply mbind_Ok in E as ([] & sd & Ed & E).
  assert (ready trace sd) as HR.
  { eapply create_ready; [exact E1|]. rewrite (mbind_run _ _ _ _ _ Ea), (mbind_run _ _ _ _ _ Eb).
    by rewrite (mbind_run _ _ _ _ _ Ec). }
  eapply ready_of_names; [exact HR|]. assert (built_with (names_of (st_heap sd)) (st_sys sd) sd) as Hb by (split; [split; [done|apply HR]|done]).
  apply mbind_Ok in E as ([] & se & Ee & E). apply (init_end_system_Ok _ _ _ _ Hb) in Ee.
  apply mbind_Ok in E as ([] & sf & Ef & E). apply (report_libovni_version_Ok _ _ _ _ _ Ee) in Ef.
  apply mbind_Ok in E as (table & sg & Eg & E). 
  assert (sg = sf) as ->.
  { destruct file as [given|contents]; simpl in Eg; [destruct given; [discriminate|]; by injection Eg as _ <-|].
    by apply found_Ok in Eg as [_ ->]. }
  by apply (init_offsets_Ok _ _ _ _ _ Ef) in E.
Qed.
