(* ===== verification/ConnectCorrect.v ===== *)
(** * The system is ready for its events

    [system_connect] gives every thread and CPU a row with its name in the
    traces of the recorder and registers their channels.  With [system_init],
    from an empty memory, it leaves a coherent system: what Emu.v needs to
    follow the events. *)

From stdpp Require Import pretty.
From S2P Require Import Prelude Tree Chan Pcf Heap Bay Mux Sort Prv Dispatch Thread Loom Event OvniModel OvniCorrect.
From S2P Require Import Coherence Model Emu Rt Stream Recorder System SystemCorrect.

(** ** Connecting keeps the construction *)

(** Wired, and nothing but channels, callbacks and traces changed since [h0]. *)
Definition connecting (h0 h : heap) : Prop := wired h /\ world h = world h0.

Section Connect.
Variable h0 : heap.

Lemma store_connecting a c : blank_chan c -> keeps_ok (connecting h0) (store a c).
Proof.
  intros Hc h [] h' [Hw HW] E. pose proof (store_built _ a c Hc h (Build_built _ h eq_refl Hw)) as [_ Hw'].
  unfold store in E. cbn in E. injection E as <-. by split.
Qed.

Lemma mod_connecting f : (forall h, h_mux (f h) = h_mux h /\ h_chan (f h) = h_chan h /\ world (f h) = world h) ->
  keeps_ok (connecting h0) (mmod f).
Proof.
  intros Hf h [] h' [Hw HW] [= <-]. destruct (Hf h) as (E1 & E2 & E3). split; [|congruence].
  injection E3 as ? ? ? ? _ _. by apply (wired_ext h).
Qed.

Ltac conn_tac := repeat first
  [ co_bind | apply keeps_ok_if | apply for_each_keeps_ok; intros ? | quiet_step
  | solve [apply keeps_ok_quiet; auto with ovni]
  | solve [apply mod_connecting; done]
  | lazymatch goal with |- keeps_ok _ (match _ with _ => _ end) => case_match end ].

Lemma bay_register_connecting a : keeps_ok (connecting h0) (bay_register a).
Proof.
  intros h [] h' [Hw HW] E. unfold bay_register in E. apply mbind_Ok in E as (c & h1 & E1 & E).
  pose proof (quiet_Ok _ _ _ _ (quiet_load a) E1) as ->.
  assert (h_chan h !! a = Some c) as Hc.
  { unfold load in E1. by apply mbind_Ok in E1 as (? & ? & [= <- <-] & [Hc _]%deref_Ok). }
  apply mbind_Ok in E as (? & ? & [= <- <-] & E). case_match; [discriminate|].
  apply mbind_Ok in E as ([] & h2 & E2 & E). apply store_connecting in E2; [| |done].
  - by eapply mod_connecting in E.
  - destruct (b_chan _ Hw a c Hc) as [[[? ?] ?] ?]. done.
Qed.

Lemma prv_register_connecting p row ty a flags : keeps_ok (connecting h0) (prv_register p row ty a flags).
Proof.
  unfold prv_register, bay_add_cb, bay_enable_cb, upd_prv, check_flags, load_prv. conn_tac.
Qed.

(** A thread that is connected was frozen. *)
Lemma thread_connect_Ok t prv h h' : connecting h0 h -> thread_connect t prv h = (Ok tt, h') ->
  connecting h0 h' /\ exists th, h_thread h0 !! t = Some th /\ t_is_init th = true.
Proof.
  intros Hc E. unfold thread_connect in E. apply mbind_Ok in E as (th & ? & [Ht ->]%load_thread_Ok & E).
  destruct (t_is_init th) eqn:Hi; [|discriminate]. apply mbind_Ok in E as (p & ? & [_ ->]%found_Ok & E). split.
  - refine (for_each_keeps_ok _ _ _ _ _ _ _ Hc E). intros [[[[i nm] props] ty] flags].
    co_bind; [apply bay_register_connecting|apply prv_register_connecting].
  - exists th. split; [|done]. destruct Hc as [_ W]. injection W as <- _ _ _ _ _. done.
Qed.

Lemma cpu_connect_Ok c prv h h' : connecting h0 h -> cpu_connect c prv h = (Ok tt, h') ->
  connecting h0 h' /\ exists cp, h_cpu h0 !! c = Some cp /\ cpu_is_init cp = true.
Proof.
  intros Hc E. unfold cpu_connect in E. apply mbind_Ok in E as (cp & ? & [Ht ->]%load_cpu_Ok & E).
  destruct (cpu_is_init cp) eqn:Hi; [|discriminate]. apply mbind_Ok in E as (p & ? & [_ ->]%found_Ok & E). split.
  - refine (for_each_keeps_ok _ _ _ _ _ _ _ Hc E). intros [[[i nm] ty] flags].
    co_bind; [apply bay_register_connecting|apply keeps_ok_if; [quiet_step|apply prv_register_connecting]].
  - exists cp. split; [|done]. destruct Hc as [_ W]. injection W as _ <- _ _ _ _. done.
Qed.
End Connect.

(** ** A wired system whose objects are all frozen is coherent *)

Lemma wired_coherent h : wired h -> (forall t th, h_thread h !! t = Some th -> t_is_init th = true) ->
  (forall c cp, h_cpu h !! c = Some cp -> cpu_is_init cp = true) -> coherent h.
Proof.
  intros Hw Ht Hc. assert (forall a, is_Some (h_chan h !! a) -> shows h a value_null) as Hs.
  { intros a [c Ha]. exists c. split; [done|]. by apply (b_chan _ Hw a c). }
  split; [|intros m mx; rewrite (b_mux _ Hw); by rewrite lookup_empty]. split.
  - intros a c Ha. by apply (b_chan _ Hw a c).
  - intros t th E. destruct (b_thread _ Hw t th E) as [E1 E2 E3 E4 E5]. specialize (E5 (Ht _ _ E)).
    split; rewrite ?E1, ?E2, ?E3, ?E4; try done; [apply Hs, E5; unfold TH_CHAN_STATE; lia| |apply Hs, E5; unfold TH_CHAN_CPU; lia].
    unfold tid_value. rewrite E1. apply Hs, E5. unfold TH_CHAN_TID. lia.
  - intros t th c E Eon. destruct (b_thread _ Hw t th E) as [_ _ _ E4 _]. congruence.
  - intros c cp E. destruct (b_cpu _ Hw c cp E) as [(I1 & I2 & I3 & I4 & I5 & I6) _ Hch]. specialize (Hch (Hc _ _ E)).
    split; [split|split]; rewrite ?I1, ?I4; try done.
    + apply NoDup_nil_2.
    + intros t. split; [set_solver|]. intros (th & Hth & Eon). destruct (b_thread _ Hw t th Hth). congruence.
    + unfold refreshed. rewrite I4. simpl. destruct cp; simpl in *. by subst.
    + simpl. lia.
    + right. split; [done|]. intros i Hi. by apply Hs, Hch.
Qed.

(** ** Names of the rows *)

Definition rows_of (name : string) (r : recorder) : option prf := pvt_prf <$> recorder_find_pvt r name.

Lemma find_name_upd {A} (f : A -> A) name n (l : list (string * A)) :
  find_name n (map (fun e => if bool_decide (e.1 = name) then (e.1, f e.2) else e) l) =
  if bool_decide (n = name) then f <$> find_name n l else find_name n l.
Proof.
  induction l as [|[m a] l IH]; simpl; [by case_bool_decide|].
  repeat (case_bool_decide; simplify_eq/=; try done).
Qed.

Lemma on_prf_Ok {A} name (op : M prf A) r h a r' h' : on_prf name op (r, h) = (Ok a, (r', h')) -> h' = h /\
  exists p f, rows_of name r = Some p /\ op p = (Ok a, f) /\ rows_of name r' = Some f /\
    forall n, n <> name -> rows_of n r' = rows_of n r.
Proof.
  intros E. unfold on_prf in E. apply mbind_Ok in E as (? & ? & [= <- <-] & E).
  apply mbind_Ok in E as (p & ? & [Hp ->]%deref_Ok & E). simpl in Hp. destruct (op (pvt_prf p)) as [res f] eqn:Eop.
  apply mbind_Ok in E as ([] & s1 & [= <-] & E). injection E as -> <- <-. split; [done|].
  exists (pvt_prf p), f. unfold rows_of, recorder_find_pvt in *; simpl.
  split_and!; [by rewrite Hp|done| |].
  - by rewrite (find_name_upd (fun p => mk_pvt (pvt_prv p) (pvt_pcf p) f)), bool_decide_eq_true_2, Hp.
  - intros n Hn. by rewrite (find_name_upd (fun p => mk_pvt (pvt_prv p) (pvt_pcf p) f)), bool_decide_eq_false_2.
Qed.

Lemma on_pcf_Ok {A} name (op : M pcf A) r h a r' h' : on_pcf name op (r, h) = (Ok a, (r', h')) -> h' = h /\
  forall n, rows_of n r' = rows_of n r.
Proof.
  intros E. unfold on_pcf in E. apply mbind_Ok in E as (? & ? & [= <- <-] & E).
  apply mbind_Ok in E as (p & ? & [Hp ->]%deref_Ok & E). simpl in Hp. destruct (op (pvt_pcf p)) as [res f] eqn:Eop.
  apply mbind_Ok in E as ([] & s1 & [= <-] & E). injection E as _ <- <-. split; [done|].
  intros n. unfold rows_of, recorder_find_pvt; simpl.
  rewrite (find_name_upd (fun p => mk_pvt (pvt_prv p) f (pvt_prf p))). case_bool_decide; [|done].
  by destruct (find_name n (rec_pvt r)).
Qed.

Lemma prf_add_Ok i l p p' : prf_add i l p = (Ok tt, p') ->
  0 <= i < prf_nrows p /\ prf_rows p !! i = None /\ p' = mk_prf (prf_nrows p) (<[i := l]> (prf_rows p)).
Proof.
  unfold prf_add, mbind, mget. destruct (Z.ltb_spec i 0); [discriminate|].
  destruct (Z.leb_spec (prf_nrows p) i); [discriminate|]. simpl.
  destruct (prf_rows p !! i) eqn:E; [discriminate|]. case_match; [discriminate|]. intros [= <-]. split_and!; [lia..|done|done].
Qed.

(** The loop that names the rows of a trace. *)
Section NameRows.
Context {S : Type} (rows : S -> option prf) (body : nat -> M S unit) (row : nat -> option (Z * string)) (P : S -> Prop) (Q : nat -> Prop).
Hypothesis body_names : forall x s s', P s -> body x s = (Ok tt, s') -> P s' /\ Q x /\
  exists i l p p', row x = Some (i, l) /\ rows s = Some p /\ prf_add i l p = (Ok tt, p') /\ rows s' = Some p'.

Lemma name_rows_Ok xs s s' p : P s -> rows s = Some p -> for_each body xs s = (Ok tt, s') -> P s' /\
  exists p', rows s' = Some p' /\ prf_nrows p' = prf_nrows p /\ prf_rows p ⊆ prf_rows p' /\
    forall x, x ∈ xs -> Q x /\ exists i l, row x = Some (i, l) /\ prf_rows p' !! i = Some l.
Proof.
  revert s p. induction xs as [|x xs IH]; intros s p HP Hp E; simpl in E.
  - injection E as <-. split; [done|]. exists p. split_and!; [done..|]. set_solver.
  - apply mbind_Ok in E as ([] & s1 & E1 & E). destruct (body_names x s s1 HP E1) as (HP1 & HQ & i & l & p0 & p1 & Hr & Hp0 & Ha & Hp1).
    assert (p0 = p) as -> by congruence. apply prf_add_Ok in Ha as (Hi & Hn & ->).
    destruct (IH s1 _ HP1 Hp1 E) as (HP2 & p' & E2 & E3 & E4 & E5). split; [done|]. exists p'. simpl in *.
    assert (prf_rows p' !! i = Some l) as Hl by (eapply lookup_weaken; [apply lookup_insert_eq|exact E4]).
    split_and!; [done..| |].
    + etrans; [by apply insert_subseteq|exact E4].
    + intros y [->|Hy]%elem_of_cons; [split; [done|by exists i, l]|by apply E5].
Qed.
End NameRows.

(** The row of a thread and of a CPU. *)
Definition thread_row (h : heap) (t : nat) : option (Z * string) :=
  th ← h_thread h !! t; pr ← h_proc h !! t_proc th; Some (t_gindex th, thread_label (proc_appid pr) (t_tid th)).
Definition cpu_row (h : heap) (c : nat) : option (Z * string) :=
  cp ← h_cpu h !! c; l ← cpu_loom cp; lo ← h_loom h !! l; Some (cpu_gindex cp, cpu_name lo cp).

Section System.
Variables (h0 : heap) (sys0 : system).

Definition connected (s : syst) : Prop := connecting h0 (st_heap s) /\ st_sys s = sys0.

Lemma in_rec_Ok {A} (m : M rheap A) s a s' : in_rec m s = (Ok a, s') ->
  exists r h, m (st_rec s, st_heap s) = (Ok a, (r, h)) /\ s' = mk_syst (st_sys s) h (st_streams s) r.
Proof. unfold in_rec. destruct (m _) as [res [r h]]. intros [= -> <-]. by exists r, h. Qed.

Lemma name_thread_Ok t s s' : connected s -> name_thread t s = (Ok tt, s') ->
  connected s' /\ (exists th, h_thread h0 !! t = Some th /\ t_is_init th = true) /\
  rows_of "cpu" (st_rec s') = rows_of "cpu" (st_rec s) /\
  exists i l p p', thread_row h0 t = Some (i, l) /\ rows_of "thread" (st_rec s) = Some p /\
    prf_add i l p = (Ok tt, p') /\ rows_of "thread" (st_rec s') = Some p'.
Proof.
  intros [Hc Hs] E. unfold name_thread in E. apply mbind_Ok in E as ([] & s1 & E1 & E).
  unfold connect_thread in E1. apply mbind_Ok in E1 as (? & ? & [= <- <-] & E1).
  apply in_heap_Ok in E1 as (h1 & E1 & ->). apply (thread_connect_Ok h0) in E1 as [Hc1 Hi]; [|done].
  apply mbind_Ok in E as (th & s2 & E2 & E). apply in_heap_Ok in E2 as (h2 & [Ht ->]%load_thread_Ok & ->).
  apply mbind_Ok in E as (pr & s3 & E3 & E). apply in_heap_Ok in E3 as (h3 & [Hp ->]%load_proc_Ok & ->).
  apply mbind_Ok in E as (name & s4 & E4 & E). unfold row_name in E4. case_match; [discriminate|]. injection E4 as <- <-.
  apply in_rec_Ok in E as (r & h & E & ->). apply on_prf_Ok in E as (-> & p & p' & Hp1 & Ha & Hp2 & Hn). simpl in *.
  pose proof (proj2 Hc1) as W. injection W as W1 _ W3 _ _ _. rewrite W1 in Ht. rewrite W3 in Hp.
  split_and!; [by split|done|by apply Hn|]. do 2 eexists. exists p, p'. unfold thread_row. rewrite Ht; simpl. rewrite Hp. done.
Qed.

Lemma name_cpu_Ok c s s' : connected s -> name_cpu c s = (Ok tt, s') ->
  connected s' /\ (exists cp, h_cpu h0 !! c = Some cp /\ cpu_is_init cp = true) /\
  rows_of "thread" (st_rec s') = rows_of "thread" (st_rec s) /\
  exists i l p p', cpu_row h0 c = Some (i, l) /\ rows_of "cpu" (st_rec s) = Some p /\
    prf_add i l p = (Ok tt, p') /\ rows_of "cpu" (st_rec s') = Some p'.
Proof.
  intros [Hc Hs] E. unfold name_cpu in E. apply mbind_Ok in E as ([] & s1 & E1 & E).
  unfold connect_cpu in E1. apply mbind_Ok in E1 as (? & ? & [= <- <-] & E1).
  apply in_heap_Ok in E1 as (h1 & E1 & ->). apply (cpu_connect_Ok h0) in E1 as [Hc1 Hi]; [|done].
  apply mbind_Ok in E as (cp & s2 & E2 & E). apply in_heap_Ok in E2 as (h2 & [Ht ->]%load_cpu_Ok & ->).
  apply mbind_Ok in E as (l & s3 & [Hl ->]%deref_Ok & E).
  apply mbind_Ok in E as (lo & s4 & E4 & E). apply in_heap_Ok in E4 as (h4 & [Hlo ->]%load_loom_Ok & ->).
  apply mbind_Ok in E as ([] & s5 & E5 & E). apply in_rec_Ok in E5 as (r & h & E5 & ->).
  apply on_prf_Ok in E5 as (-> & p & p' & Hp1 & Ha & Hp2 & Hn).
  apply in_rec_Ok in E as (r2 & h & E & ->). apply on_pcf_Ok in E as [-> Hn2]. simpl in *.
  pose proof (proj2 Hc1) as W. injection W as _ W2 _ W4 _ _. rewrite W2 in Ht. rewrite W4 in Hlo.
  split_and!; [by split|done|rewrite Hn2; by apply Hn|]. do 2 eexists. exists p, p'. unfold cpu_row.
  rewrite Ht; simpl. rewrite Hl; simpl. rewrite Hlo. rewrite Hn2. done.
Qed.
End System.

Lemma find_name_snoc {A} n name (a : A) l :
  find_name n (l ++ [(name, a)]) = match find_name n l with Some x => Some x
                                   | None => if bool_decide (name = n) then Some a else None end.
Proof.
  induction l as [|[m b] l IH]; simpl; [done|].
  by destruct (bool_decide (m = n)).
Qed.

Lemma recorder_add_pvt_Ok h0 name nrows r h a r' h' : connecting h0 h ->
  recorder_add_pvt name nrows (r, h) = (Ok a, (r', h')) -> connecting h0 h' /\
  rows_of name r' = Some (prf_open nrows) /\ forall n, n <> name -> rows_of n r' = rows_of n r.
Proof.
  intros Hc E. unfold recorder_add_pvt in E. apply mbind_Ok in E as (? & ? & [= <- <-] & E). simpl in E.
  destruct (recorder_find_pvt r name) eqn:Hf; [discriminate|]. apply mbind_Ok in E as (p & [r1 h1] & E1 & E).
  apply mbind_Ok in E as ([] & s2 & [= <-] & E). injection E as _ <- <-.
  unfold pvt_open in E1. do 3 (case_match; [discriminate|]). apply mbind_Ok in E1 as (? & ? & [= <- <-] & E1).
  apply mbind_Ok in E1 as ([] & s3 & E3 & E1). unfold on_heap, prv_open_file, mmod in E3. injection E3 as <-.
  injection E1 as <- <- <-. split; [|].
  - destruct Hc as [Hw W]. split; [|exact W]. by apply (wired_ext h).
  - unfold rows_of, recorder_find_pvt in *; simpl. split.
    + by rewrite find_name_snoc, Hf, bool_decide_eq_true_2.
    + intros n Hn. rewrite find_name_snoc, bool_decide_eq_false_2 by done. by destruct (find_name n (rec_pvt r)).
Qed.

(** Everything the loops of [system_connect] visit was frozen, and has its row. *)
Record named (l : list nat) (row : nat -> option (Z * string)) (n : Z) (p : prf) : Prop := {
  na_nrows : prf_nrows p = n;
  na_row : forall x, x ∈ l -> exists i s, row x = Some (i, s) /\ prf_rows p !! i = Some s
}.

Lemma system_connect_Ok s s' : wired (st_heap s) -> system_connect None s = (Ok tt, s') ->
  let h := st_heap s in let sys := st_sys s in
  connected h sys s' /\
  (forall t, t ∈ sys_threads sys -> exists th, h_thread h !! t = Some th /\ t_is_init th = true) /\
  (forall c, c ∈ sys_cpus sys -> exists cp, h_cpu h !! c = Some cp /\ cpu_is_init cp = true) /\
  exists pt pc, rows_of "thread" (st_rec s') = Some pt /\ rows_of "cpu" (st_rec s') = Some pc /\
    named (sys_threads sys) (thread_row h) (sys_nthreads sys) pt /\ named (sys_cpus sys) (cpu_row h) (sys_ncpus sys) pc.
Proof.
  intros Hw E h sys. unfold system_connect in E. apply mbind_Ok in E as (? & ? & [= <- <-] & E).
  assert (connecting h h) as Hc by done.
  apply mbind_Ok in E as (p1 & s1 & E1 & E). apply in_rec_Ok in E1 as (r1 & h1 & E1 & ->).
  apply (recorder_add_pvt_Ok h) in E1 as (Hc1 & R1 & _); [|done].
  apply mbind_Ok in E as (p2 & s2 & E2 & E). apply in_rec_Ok in E2 as (r2 & h2 & E2 & ->).
  apply (recorder_add_pvt_Ok h) in E2 as (Hc2 & R2 & R2'); [|done]. fold sys in E, R1, R2. simpl in R2'.
  apply mbind_Ok in E as ([] & s3 & E3 & E). apply mbind_Ok in E as ([] & s4 & E4 & E).
  set (c0 := rows_of "cpu" r2). assert (c0 = Some (prf_open (sys_ncpus sys))) as Ec0 by (unfold c0; by rewrite R2').
  set (sa0 := mk_syst sys h2 (st_streams s) r2). change (for_each name_thread (sys_threads sys) sa0 = (Ok tt, s3)) in E3.
  assert (connected h sys sa0 /\ rows_of "cpu" (st_rec sa0) = c0) as H0 by done.
  pose proof (fun HB => name_rows_Ok (fun s => rows_of "thread" (st_rec s)) name_thread (thread_row h)
    (fun s => connected h sys s /\ rows_of "cpu" (st_rec s) = c0)
    (fun t => exists th, h_thread h !! t = Some th /\ t_is_init th = true) HB _ sa0 s3 _
    H0 R2 E3) as L.
  destruct L as ([[Hc3 Hs3] Ec3] & pt & Rt3 & Nt & _ & Ht).
  { intros x sa sb [Hca Eca] Eb. destruct (name_thread_Ok h sys x sa sb Hca Eb) as (Hcb & ? & Ecb & ?).
    split; [|done]. split; [done|congruence]. }
  apply in_rec_Ok in E4 as (r4 & h4 & E4 & ->). apply on_pcf_Ok in E4 as [-> R4].
  pose proof (fun HB Hr => name_rows_Ok (fun s => rows_of "cpu" (st_rec s)) name_cpu (cpu_row h)
    (fun s => connected h sys s /\ rows_of "thread" (st_rec s) = Some pt)
    (fun c => exists cp, h_cpu h !! c = Some cp /\ cpu_is_init cp = true) HB (sys_cpus sys)
    (mk_syst (st_sys s3) (st_heap s3) (st_streams s3) r4) s' (prf_open (sys_ncpus sys))
    (conj (conj Hc3 Hs3) Hr)) as L. cbn [st_rec] in L.
  destruct L as ([Hc5 Et5] & pc & Rc5 & Nc & _ & Hcp).
  { intros x sa sb [Hca Eca] Eb. destruct (name_cpu_Ok h sys x sa sb Hca Eb) as (Hcb & ? & Ecb & ?).
    split; [|done]. split; [done|congruence]. }
  { by rewrite R4. }
  { rewrite R4. congruence. }
  { exact E. }
  split_and!; [done|intros; by apply Ht|intros; by apply Hcp|]. exists pt, pc. split_and!; [done..| |].
  - split; [done|]. intros x Hx. by apply Ht.
  - split; [done|]. intros x Hx. by apply Hcp.
Qed.
