(* ===== verification/Offsets.v ===== *)
(** * Clock offsets reach the streams (src/emu/clkoff.c, src/emu/system.c)

    The last phase of [system_init]: each loom takes the offset of its host in
    the table, and each stream of a thread the offset of its loom. *)

From S2P Require Import Prelude Tree Chan Pcf Heap Bay Mux Sort Prv Dispatch Thread Loom Event OvniModel OvniCorrect.
From S2P Require Import Coherence Model Emu Rt Stream Recorder System SystemCorrect.

(** ** Before it, no loom has an offset *)

Definition zero (h : heap) : Prop := forall l lo, h_loom h !! l = Some lo -> loom_clock_offset lo = 0.
(** Nor are the streams [X] touched. *)
Definition zero_st (X : list stream) (s : syst) : Prop := zero (st_heap s) /\ st_streams s = X.

Lemma zero_mod f : (forall h, h_loom (f h) = h_loom h) -> keeps_ok zero (mmod f).
Proof. intros Hf. apply keeps_ok_mod. intros h Hz l lo. rewrite Hf. apply Hz. Qed.

Lemma zero_upd_loom l f : (forall lo, loom_clock_offset (f lo) = loom_clock_offset lo) -> keeps_ok zero (upd_loom l f).
Proof.
  intros Hf. apply keeps_ok_mod. intros h Hz. unfold zero. simpl.
  apply (alter_cases f _ l (fun _ lo => loom_clock_offset lo = 0)); [exact Hz|]. intros lo _. by rewrite Hf.
Qed.

Lemma zero_new_loom h l lo : loom_clock_offset lo = 0 -> zero h -> zero (set_h_loom <[l := lo]> h).
Proof.
  intros Hl Hz i x. simpl. destruct (decide (i = l)) as [->|].
  - rewrite lookup_insert_eq. by intros [= <-].
  - rewrite lookup_insert_ne by done. apply Hz.
Qed.

Lemma quiet_find_loom looms id : quiet (find_loom looms id).
Proof. induction looms as [|l looms IH]; simpl; [done|]. unfold load_loom. quiet_tac. Qed.
#[export] Hint Resolve quiet_find_loom : ovni.

Ltac zero_tac := repeat first
  [ co_bind | apply keeps_ok_if | apply for_each_keeps_ok; intros ? | quiet_step
  | solve [apply keeps_ok_quiet; auto with ovni]
  | solve [apply zero_upd_loom; done]
  | solve [apply zero_mod; done]
  | lazymatch goal with |- keeps_ok _ (match _ with _ => _ end) => case_match end ].

Section Zero.
Variable X : list stream.

Lemma in_heap_zero {A} (m : M heap A) : keeps_ok zero m -> keeps_ok (zero_st X) (in_heap m).
Proof. intros Hm s a s' [Hz HX] (h' & E & ->)%in_heap_Ok. split; [by eapply Hm|done]. Qed.

Lemma on_sys_zero f : keeps_ok (zero_st X) (on_sys f).
Proof. by intros s [] s' Hz [= <-]. Qed.

Lemma loom_init_begin_zero name : keeps_ok zero (loom_init_begin name).
Proof.
  unfold loom_init_begin, put_cpu. zero_tac. apply keeps_ok_mod. intros h. by apply zero_new_loom.
Qed.

Lemma loom_load_metadata_zero l md : keeps_ok zero (loom_load_metadata l md).
Proof. unfold loom_load_metadata, load_cpus, load_cpu_entry, loom_add_cpu, put_cpu, upd_cpu. zero_tac. Qed.

Lemma create_proc_zero l md : keeps_ok zero (create_proc l md).
Proof.
  unfold create_proc, new_proc, loom_add_proc, proc_load_metadata, load_appid, load_rank, upd_proc. zero_tac.
Qed.

Lemma create_thread_zero p md : keeps_ok zero (create_thread p md).
Proof.
  unfold create_thread, thread_load_metadata, proc_add_thread, put_thread, upd_thread, upd_proc. zero_tac.
Qed.

Lemma create_stream_zero im : keeps_ok (zero_st X) (create_stream im).
Proof.
  unfold create_stream, is_thread_stream, create_loom. zero_tac;
    auto using in_heap_zero, on_sys_zero, loom_init_begin_zero, loom_load_metadata_zero, create_proc_zero, create_thread_zero.
  apply in_heap_zero. zero_tac.
Qed.

Lemma set_sort_criteria_zero : keeps_ok (zero_st X) set_sort_criteria.
Proof.
  unfold set_sort_criteria. co_bind; [quiet_step|]. co_bind; [apply in_heap_zero|zero_tac; apply on_sys_zero].
  generalize true, false. induction (sys_looms (st_sys a)) as [|l looms IH]; intros x y; simpl; [quiet_step|].
  unfold loom_set_rank_min, min_rank_step. zero_tac; apply IH.
Qed.

Lemma sort_lpt_zero : keeps_ok (zero_st X) sort_lpt.
Proof.
  unfold sort_lpt. zero_tac; [apply on_sys_zero|apply in_heap_zero].
  unfold loom_sort, proc_sort, upd_proc. zero_tac.
Qed.

Lemma init_global_lists_zero : keeps_ok (zero_st X) init_global_lists.
Proof. intros s [] s' Hz ->%init_global_lists_Ok. exact Hz. Qed.

Lemma init_global_indices_zero : keeps_ok (zero_st X) init_global_indices.
Proof.
  unfold init_global_indices, number, upd_proc, upd_thread, upd_cpu.
  zero_tac; first [apply on_sys_zero|apply in_heap_zero; zero_tac].
Qed.

Lemma init_end_system_zero : keeps_ok (zero_st X) init_end_system.
Proof.
  unfold init_end_system, init_end_loom, init_end_proc, thread_init_end, proc_init_end, cpu_init_end, loom_init_end, fill_entry,
    init_chan, store, put_thread, put_cpu, upd_proc. zero_tac. apply in_heap_zero. zero_tac.
Qed.

Lemma report_zero trace : keeps_ok (zero_st X) (report_libovni_version trace).
Proof. unfold report_libovni_version. zero_tac. Qed.
End Zero.

(** ** The table *)

Lemma cfind_None table name : cfind table name = None <-> name ∉ map ce_name table.
Proof.
  unfold cfind. induction table as [|e table IH]; simpl; [split; [set_solver|done]|].
  case_bool_decide as Hn; simpl; [split; [done|set_solver]|]. rewrite IH. set_solver.
Qed.

Lemma cparse_lines_names lines t t' : NoDup (map ce_name t) -> cparse_lines lines t = Some t' -> NoDup (map ce_name t').
Proof.
  revert t. induction lines as [|ln lines IH]; intros t Hn E; simpl in E; [by simplify_eq|].
  destruct ln as [| | |e]; [by eapply IH|by simplify_eq|done|].
  unfold cadd in E. destruct (cfind t (ce_name e)) eqn:Hf; [done|]. simpl in E. eapply IH; [|exact E].
  rewrite map_app. apply list.NoDup_app. apply cfind_None in Hf.
  split_and!; [done|set_solver|apply NoDup_singleton].
Qed.

Lemma load_clock_offsets_Ok {S} file (s s' : S) table : load_clock_offsets file s = (Ok table, s') ->
  s' = s /\ NoDup (map ce_name table).
Proof.
  destruct file as [given|contents]; simpl.
  - destruct given; [discriminate|]. intros [= <- <-]. split; [done|constructor].
  - intros [E ->]%found_Ok. split; [done|]. unfold clkoff_load, cparse in E.
    destruct contents as [lines|]; simpl in E; [|done].
    destruct (cparse_lines lines []) as [t|] eqn:Ep; simpl in E; [|done]. case_match; [done|]. injection E as ->.
    eapply cparse_lines_names; [|exact Ep]. constructor.
Qed.

(** The offset of a host: its median, zero without an entry. *)
Definition offset_of (table : clkoff) (host : string) : Z :=
  match cfind table host with Some e => ce_median e | None => 0 end.

Lemma offset_of_snoc table e host : cfind table (ce_name e) = None ->
  offset_of (table ++ [e]) host = if bool_decide (host = ce_name e) then ce_median e else offset_of table host.
Proof.
  intros Hf. unfold offset_of.
  assert (cfind (table ++ [e]) host = match cfind table host with Some x => Some x
            | None => if bool_decide (ce_name e = host) then Some e else None end) as ->.
  { unfold cfind. clear. induction table as [|x table IH]; simpl; [by case_bool_decide|]. by destruct (bool_decide (ce_name x = host)). }
  destruct (decide (host = ce_name e)) as [->|Hne].
  - by rewrite Hf, !bool_decide_eq_true_2.
  - rewrite !bool_decide_eq_false_2 by congruence. by destruct (cfind table host).
Qed.

(** ** The looms *)

(** Every loom of the list has the offset of its host, the entries of the table have a loom. *)
Record offsets_set (looms : list nat) (table : clkoff) (h : heap) : Prop := {
  os_loom : forall l lo, l ∈ looms -> h_loom h !! l = Some lo -> loom_clock_offset lo = offset_of table (loom_hostname lo);
  os_host : forall e, e ∈ table -> exists l lo, l ∈ looms /\ h_loom h !! l = Some lo /\ loom_hostname lo = ce_name e
}.

(** The offset of the host [e] in the looms of a list. *)
Definition give (looms : list nat) (e : clkoff_entry) (l : nat) (lo : loom) : loom :=
  if bool_decide (l ∈ looms /\ loom_hostname lo = ce_name e) then set_loom_clock_offset (ce_median e) lo else lo.

Lemma match_host_Ok looms e n h n' h' : match_host looms e n h = (Ok n', h') ->
  (forall l lo, h_loom h !! l = Some lo -> h_loom h' !! l = Some (give looms e l lo)) /\
  (forall l, is_Some (h_loom h' !! l) -> is_Some (h_loom h !! l)) /\
  n <= n' /\ (n < n' -> exists l lo, l ∈ looms /\ h_loom h !! l = Some lo /\ loom_hostname lo = ce_name e).
Proof.
  revert n h. induction looms as [|l looms IH]; intros n h E; simpl in E.
  - injection E as <- <-. split_and!; [|done|lia|lia]. intros l lo Hl. unfold give. by rewrite bool_decide_eq_false_2 by set_solver.
  - apply mbind_Ok in E as (lo & ? & [Hl ->]%load_loom_Ok & E).
    destruct (bool_decide (loom_hostname lo = ce_name e)) eqn:Hh; simpl in E.
    + apply bool_decide_eq_true in Hh. destruct (loom_clock_offset lo =? 0) eqn:Hz; [|discriminate].
      apply mbind_Ok in E as ([] & h1 & [= <-] & E). apply IH in E as (H1 & H2 & H3 & H4). simpl in *. split_and!.
      * intros i x Hi. destruct (decide (i = l)) as [->|Hne].
        -- simplify_eq. rewrite (H1 l (set_loom_clock_offset (ce_median e) lo)) by (by rewrite lookup_alter_eq, Hl).
           unfold give. simpl. rewrite (bool_decide_eq_true_2 (l ∈ l :: looms /\ _)) by (split; [by left|done]). by case_bool_decide.
        -- rewrite (H1 i x) by (by rewrite lookup_alter_ne). unfold give. f_equal.
           rewrite (bool_decide_ext (i ∈ looms /\ _) (i ∈ l :: looms /\ loom_hostname x = ce_name e)) by set_solver. done.
      * intros i Hi. apply H2 in Hi. by rewrite lookup_alter_is_Some in Hi.
      * lia.
      * intros _. exists l, lo. split; [by left|done].
    + apply bool_decide_eq_false in Hh. apply IH in E as (H1 & H2 & H3 & H4). split_and!; [|done|done|].
      * intros i x Hi. rewrite (H1 i x Hi). unfold give. f_equal.
        destruct (decide (i = l)) as [->|]; [simplify_eq; by rewrite !bool_decide_eq_false_2 by naive_solver|].
        rewrite (bool_decide_ext (i ∈ looms /\ _) (i ∈ l :: looms /\ loom_hostname x = ce_name e)) by set_solver. done.
      * intros (i & x & ? & ? & ?)%H4. exists i, x. split; [by right|done].
Qed.

Lemma give_hostname looms e l lo : loom_hostname (give looms e l lo) = loom_hostname lo.
Proof. unfold give. by case_bool_decide. Qed.

Lemma parse_entry_set looms table e h h' : cfind table (ce_name e) = None -> offsets_set looms table h ->
  parse_clkoff_entry looms e h = (Ok tt, h') -> offsets_set looms (table ++ [e]) h'.
Proof.
  intros Hf [O1 O2] E. unfold parse_clkoff_entry in E. apply mbind_Ok in E as (n & h1 & E1 & E).
  destruct (Z.eqb_spec n 0); [discriminate|]. injection E as ->.
  apply match_host_Ok in E1 as (H1 & H2 & H3 & H4). split.
  - intros l lo' Hin Hl'. destruct (H2 l) as [lo Hl]; [by eexists|]. rewrite (H1 l lo Hl) in Hl'. injection Hl' as <-.
    rewrite give_hostname, offset_of_snoc by done. unfold give.
    destruct (decide (loom_hostname lo = ce_name e)) as [Hh|Hh].
    + by rewrite !bool_decide_eq_true_2.
    + rewrite !bool_decide_eq_false_2 by naive_solver. by eapply O1.
  - intros x [Hx| ->%list_elem_of_singleton]%elem_of_app.
    + destruct (O2 x Hx) as (l & lo & ? & Hl & ?). exists l, (give looms e l lo). by rewrite give_hostname, (H1 l lo Hl).
    + destruct H4 as (l & lo & ? & Hl & ?); [lia|]. exists l, (give looms e l lo). by rewrite give_hostname, (H1 l lo Hl).
Qed.

(** What the system keeps while the offsets are given. *)
Definition same_rest (s s' : syst) : Prop := st_sys s' = st_sys s /\ st_streams s' = st_streams s.

Lemma parse_table_set looms table done s s' : NoDup (map ce_name (done ++ table)) ->
  offsets_set looms done (st_heap s) ->
  for_each (fun e => in_heap (parse_clkoff_entry looms e)) table s = (Ok tt, s') ->
  offsets_set looms (done ++ table) (st_heap s') /\ same_rest s s'.
Proof.
  revert done s. induction table as [|e table IH]; intros done s Hn Ho E; simpl in E.
  - injection E as <-. by rewrite app_nil_r.
  - apply mbind_Ok in E as ([] & s1 & (h1 & E1 & ->)%in_heap_Ok & E).
    assert (cfind done (ce_name e) = None) as Hf.
    { apply cfind_None. rewrite map_app in Hn. apply list.NoDup_app in Hn as (_ & Hd & _); simpl in Hd. intros Hin.
      apply (Hd _ Hin). apply elem_of_cons. by left. }
    apply (IH (done ++ [e])) in E as [Ho' [Hr1 Hr2]]; simpl in *.
    + by rewrite <- app_assoc in Ho'.
    + by rewrite <- app_assoc.
    + by apply (parse_entry_set _ _ _ (st_heap s)).
Qed.

(** ** The streams *)

(** The stream [i] after its turn. *)
Definition offset_stream (s : syst) (i : nat) (x x' : stream) : Prop :=
  match system_get_lpt (st_sys s) i with
  | None => x' = x
  | Some e => exists lo, h_loom (st_heap s) !! lpt_loom e = Some lo /\ x' = set_s_clock_offset (loom_clock_offset lo) x
  end.

Lemma stream_offset_Ok i s s' : stream_offset i s = (Ok tt, s') ->
  st_sys s' = st_sys s /\ st_heap s' = st_heap s /\ length (st_streams s') = length (st_streams s) /\
  (forall j, j <> i -> st_streams s' !! j = st_streams s !! j) /\
  (forall x, st_streams s !! i = Some x -> exists x', st_streams s' !! i = Some x' /\ offset_stream s i x x').
Proof.
  intros E. unfold stream_offset in E. apply mbind_Ok in E as (? & ? & [= <- <-] & E). unfold offset_stream.
  destruct (system_get_lpt (st_sys s) i) as [e|]; [|injection E as <-; split_and!; eauto].
  apply mbind_Ok in E as (lo & s1 & (h1 & [Hl ->]%load_loom_Ok & ->)%in_heap_Ok & E). unfold in_stream in E. simpl in E.
  destruct (st_streams s !! i) as [x|] eqn:Hx; [|discriminate].
  unfold stream_clkoff_set, mbind, mget in E. destruct (s_cur_ev x); [discriminate|]. destruct (negb (s_clock_offset x =? 0)); [discriminate|].
  injection E as <-. simpl. split_and!; [done..|by rewrite length_insert| |].
  - intros j Hj. by rewrite list_lookup_insert_ne.
  - intros ? [= <-]. eexists. rewrite list_lookup_insert_eq by (by apply lookup_lt_Some in Hx).
    split; [done|]. exists lo. done.
Qed.

Lemma stream_offsets_Ok n k s s' : for_each stream_offset (seq k n) s = (Ok tt, s') ->
  st_sys s' = st_sys s /\ st_heap s' = st_heap s /\
  (forall j, (j < k \/ k + n <= j)%nat -> st_streams s' !! j = st_streams s !! j) /\
  (forall j x, (k <= j < k + n)%nat -> st_streams s !! j = Some x ->
     exists x', st_streams s' !! j = Some x' /\ offset_stream s j x x').
Proof.
  revert k s. induction n as [|n IH]; intros k s E; simpl in E.
  - injection E as <-. split_and!; [done..|lia].
  - apply mbind_Ok in E as ([] & s1 & (A1 & A2 & _ & A3 & A4)%stream_offset_Ok & (B1 & B2 & B3 & B4)%IH).
    split_and!; [congruence..| |].
    + intros j Hj. rewrite B3 by lia. apply A3. lia.
    + intros j x Hj Hx. destruct (decide (j = k)) as [->|Hne].
      * destruct (A4 x Hx) as (x' & Hx' & Ho). exists x'. by rewrite B3 by lia.
      * destruct (B4 j x) as (x' & Hx' & Ho); [lia|by rewrite A3|]. exists x'. split; [done|].
        unfold offset_stream in *. by rewrite A1, A2 in Ho.
Qed.

(** ** Properties *)

(** C18. Clock offsets: once [system_init] succeeds from an empty memory, each loom
    has the offset that the table gives its host (zero without one), every host
    of the table is that of a loom, and each stream is left as it was but for its
    clock offset, which is that of its loom, or untouched if it is not of a
    thread. *)
Theorem clock_offsets_applied trace file sys0 streams rec s :
  system_init trace file (mk_syst sys0 empty_heap streams rec) = (Ok tt, s) ->
  exists table, (forall s0 : syst, load_clock_offsets file s0 = (Ok table, s0)) /\
    (forall l lo, h_loom (st_heap s) !! l = Some lo -> loom_clock_offset lo = offset_of table (loom_hostname lo)) /\
    (forall e, e ∈ table -> exists l lo, h_loom (st_heap s) !! l = Some lo /\ loom_hostname lo = ce_name e) /\
    forall i x, streams !! i = Some x -> exists x', st_streams s !! i = Some x' /\ offset_stream s i x x'.
Proof.
  intros E. pose proof (system_init_ready _ _ _ _ _ _ E) as R. apply rd_looms in R as [[_ RL]%lists_fmap _].
  unfold system_init in E. apply mbind_Ok in E as ([] & s0 & [= <-] & E).
  apply mbind_Ok in E as ([] & s1 & E1 & E). apply mbind_Ok in E as ([] & s2 & E2 & E).
  apply mbind_Ok in E as ([] & s3 & E3 & E). apply mbind_Ok in E as ([] & s4 & E4 & E).
  apply mbind_Ok in E as ([] & s5 & E5 & E). apply mbind_Ok in E as ([] & s6 & E6 & E).
  apply mbind_Ok in E as ([] & s7 & E7 & E). apply mbind_Ok in E as (table & s8 & E8 & E).
  destruct (load_clock_offsets_Ok _ _ _ _ E8) as [-> Hn].
  assert (zero_st streams s7) as [Hz HX].
  { eapply report_zero; [|exact E7]. eapply init_end_system_zero; [|exact E6].
    eapply init_global_indices_zero; [|exact E5]. eapply init_global_lists_zero; [|exact E4].
    eapply sort_lpt_zero; [|exact E3]. eapply set_sort_criteria_zero; [|exact E2].
    eapply for_each_keeps_ok; [intros im; apply (create_stream_zero streams)| |exact E1].
    split; [|done]. intros l lo. simpl. by rewrite lookup_empty. }
  exists table. split.
  { intros s9. destruct file as [given|contents]; simpl in *; [destruct given; [discriminate|]; by injection E8 as <-|].
    apply found_Ok in E8 as [E8 _]. by rewrite E8. }
  unfold init_offsets in E. apply mbind_Ok in E as (? & ? & [= <- <-] & E). apply mbind_Ok in E as ([] & s9 & E9 & E).
  apply (parse_table_set _ _ []) in E9 as [[O1 O2] [R1 R2]]; [|done|].
  2: { split; [|set_solver]. intros l lo _ Hl. by apply (Hz l). }
  apply stream_offsets_Ok in E as (S1 & S2 & _ & S4). rewrite <- S2 in *. rewrite S1, R1 in RL. split_and!.
  - intros l lo Hl. apply (O1 l); [apply RL; by eexists|done].
  - intros e (l & lo & _ & Hl & Hh)%O2. by exists l, lo.
  - intros i x Hx. destruct (S4 i x) as (x' & Hx' & Ho).
    + apply lookup_lt_Some in Hx. rewrite HX. lia.
    + by rewrite R2, HX.
    + exists x'. split; [done|]. unfold offset_stream in *. by rewrite S1, S2.
Qed.
