(* ===== verification/Ready.v ===== *)
(** * From the streams of a trace to a coherent system

    The properties of the construction of the system, and what they give for
    the emulation of events: no hypothesis on the memory is left. *)

From stdpp Require Import pretty.
From S2P Require Import Prelude Tree Chan Pcf Heap Bay Mux Sort Prv Dispatch Thread Loom Event OvniModel OvniCorrect.
From S2P Require Import Coherence Model Emu OvniDemo Rt Stream Recorder System SystemCorrect ConnectCorrect Offsets.

(** ** The streams and their objects *)

(** The objects of an entry are those the metadata names. *)
Record located (h : heap) (e : lpt) (md : metadata) : Prop := {
  lc_thread : exists th, h_thread h !! lpt_thread e = Some th /\ t_tid th = md_tid md /\ t_proc th = lpt_proc e;
  lc_proc : exists pr, h_proc h !! lpt_proc e = Some pr /\ proc_pid pr = md_pid md /\ proc_loom pr = lpt_loom e;
  lc_loom : exists lo, h_loom h !! lpt_loom e = Some lo /\ md_loom md = Some (loom_name lo)
}.

Lemma placed_located h e md : placed (names_of h) e md -> located h e md.
Proof.
  intros (gt & gp & gl & name & E1 & E2 & E3 & E4). simpl in *.
  apply lookup_fmap_Some in E1 as (th & [= E1 ? ?] & ?). apply lookup_fmap_Some in E2 as (pr & [= ? ? ?] & ?).
  apply lookup_fmap_Some in E3 as (lo & [= ? ?] & ?). split; [by exists th|by exists pr|]. exists lo. split; [done|congruence].
Qed.

(** The entries follow the streams of threads, so the first one of a stream is the only one. *)
Lemma entries_find I es ims i m : Forall2 (entry I) es ims -> NoDup ims.*1 -> (i, m) ∈ ims ->
  exists e, List.find (fun e => Nat.eqb (lpt_stream e) i) es = Some e /\ placed I e (sm_md m).
Proof.
  induction 1 as [|e [j n] es ims [He Hp] F IH]; [set_solver|]. simpl. intros [Hj Hn]%list.NoDup_cons Hin. simpl in He.
  destruct (Nat.eqb_spec (lpt_stream e) i) as [Heq|Hne].
  - exists e. split; [done|]. apply elem_of_cons in Hin as [[= -> ->]|Hin]; [done|].
    exfalso. apply Hj. apply list_elem_of_fmap. exists (i, m). split; [simpl; congruence|done].
  - apply IH; [done|]. apply elem_of_cons in Hin as [[= -> ->]|Hin]; [congruence|done].
Qed.

Lemma entries_none I es ims i : Forall2 (entry I) es ims -> i ∉ ims.*1 ->
  List.find (fun e => Nat.eqb (lpt_stream e) i) es = None.
Proof.
  induction 1 as [|e [j n] es ims [He Hp] F IH]; [done|]. simpl. intros Hi. simpl in He, Hi.
  destruct (Nat.eqb_spec (lpt_stream e) i) as [Heq|Hne]; [|apply IH; set_solver]. exfalso. apply Hi. apply elem_of_cons. left.
  congruence.
Qed.

Lemma thread_streams_elem trace i m :
  (i, m) ∈ List.filter is_thread (imap pair trace) <-> trace !! i = Some m /\ md_part (sm_md m) = Some "thread"%string.
Proof.
  rewrite list_elem_of_In, List.filter_In, <- list_elem_of_In, elem_of_lookup_imap. unfold is_thread. simpl.
  rewrite bool_decide_eq_true. naive_solver.
Qed.

Lemma nodup_filter_fst {A} (f : nat * A -> bool) l : NoDup l.*1 -> NoDup (List.filter f l).*1.
Proof.
  induction l as [|[i a] l IH]; simpl; [done|]. intros [Hi Hn]%list.NoDup_cons. case_match; simpl; [|by apply IH].
  apply list.NoDup_cons. split; [|by apply IH]. intros ([j b] & -> & Hin)%list_elem_of_fmap. apply Hi.
  apply list_elem_of_fmap. exists (j, b). split; [done|]. rewrite list_elem_of_In in *. by apply List.filter_In in Hin as [? _].
Qed.

Lemma imap_pair_nodup {A} (l : list A) : NoDup (imap pair l).*1.
Proof.
  assert ((imap pair l).*1 = seq 0 (length l)) as ->; [|apply NoDup_seq].
  rewrite fmap_imap. apply list_eq. intros i. rewrite list_lookup_imap. destruct (l !! i) as [a|] eqn:E; simpl.
  - symmetry. apply lookup_seq. apply lookup_lt_Some in E. lia.
  - symmetry. apply lookup_seq_ge. by apply lookup_ge_None in E.
Qed.

Lemma find_unique {A} (f : A -> nat) l x : NoDup (map f l) -> x ∈ l -> List.find (fun y => Nat.eqb (f y) (f x)) l = Some x.
Proof.
  induction l as [|y l IH]; simpl; [set_solver|]. intros [Hy Hn]%list.NoDup_cons [->|Hx]%elem_of_cons.
  - by rewrite Nat.eqb_refl.
  - destruct (Nat.eqb_spec (f y) (f x)) as [E|]; [|by apply IH]. exfalso. apply Hy. rewrite E.
    apply list_elem_of_fmap. by exists x.
Qed.

Lemma entries_streams I es ims : Forall2 (entry I) es ims -> map lpt_stream es = ims.*1.
Proof. induction 1 as [|e im es ims [He _] F IH]; simpl; [done|]. by rewrite He, IH. Qed.

(** The list of all the objects of one kind, by index. *)
Record indexed {A} (index : A -> Z) (l : list nat) (m : gmap nat A) : Prop := {
  ix_nodup : NoDup l;
  ix_all : forall x, x ∈ l <-> is_Some (m !! x);
  ix_index : forall i x a, l !! i = Some x -> m !! x = Some a -> index a = Z.of_nat i
}.

Lemma numbered_indexed {A K} (ident : A -> K * Z) l m : numbered l (ident <$> m) -> indexed (fun a => (ident a).2) l m.
Proof.
  intros [[Hn Hl]%lists_fmap Hi]. split; [done..|]. intros i x a Hx Ha. specialize (Hi i x Hx).
  rewrite lookup_fmap, Ha in Hi. simpl in Hi. by injection Hi.
Qed.

Lemma indexed_size {A} (index : A -> Z) l (m : gmap nat A) : indexed index l m -> length l = size m.
Proof.
  intros [Hn Ha _]. assert (list_to_set l = dom m) as E.
  { apply set_eq. intros x. rewrite elem_of_list_to_set, elem_of_dom. apply Ha. }
  rewrite <- size_dom, <- E. symmetry. by apply size_list_to_set.
Qed.

(** ** Properties *)

(** C16. From the streams to the objects: once [system_init] succeeds from an empty
    memory, every stream of a thread has an entry whose thread has the TID of
    its metadata, in the process with its PID, in the loom with its name; a
    stream that is not of a thread has none; and every thread of the system is
    that of a stream. *)
Theorem system_init_streams trace file sys0 streams rec s :
  system_init trace file (mk_syst sys0 empty_heap streams rec) = (Ok tt, s) ->
  (forall i m, trace !! i = Some m -> md_part (sm_md m) = Some "thread"%string ->
     exists e, system_get_lpt (st_sys s) i = Some e /\ located (st_heap s) e (sm_md m)) /\
  (forall i m, trace !! i = Some m -> md_part (sm_md m) <> Some "thread"%string -> system_get_lpt (st_sys s) i = None) /\
  (forall t th, h_thread (st_heap s) !! t = Some th ->
     exists i e, system_get_lpt (st_sys s) i = Some e /\ lpt_thread e = t).
Proof.
  intros E. apply system_init_ready in E as [_ HF [_ HT] _ _ _ _ _].
  pose proof (nodup_filter_fst is_thread _ (imap_pair_nodup trace)) as Hn. split_and!.
  - intros i m Hi Hm. assert ((i, m) ∈ List.filter is_thread (imap pair trace)) as Hin by by apply thread_streams_elem.
    destruct (entries_find _ _ _ _ _ HF Hn Hin) as (e & He & Hp). exists e. split; [done|by apply placed_located].
  - intros i m Hi Hm. eapply entries_none; [done|]. intros ([j n] & -> & Hin)%list_elem_of_fmap.
    apply thread_streams_elem in Hin as [? ?]. simpl in *. congruence.
  - intros t th Ht. assert (t ∈ map lpt_thread (sys_lpt (st_sys s))) as (e & -> & He)%list_elem_of_fmap.
    { apply HT. simpl. rewrite lookup_fmap, Ht. by eexists. }
    exists (lpt_stream e), e. split; [|done]. apply find_unique; [|done]. by rewrite (entries_streams _ _ _ HF).
Qed.

(** C17. Global indices: once [system_init] succeeds from an empty memory, the
    global lists of looms, processes, threads and CPUs have every object of
    their kind exactly once, the index of each object is its position, and the
    numbers of rows asked for the two traces are those of threads and CPUs. *)
Theorem system_init_indices trace file sys0 streams rec s :
  system_init trace file (mk_syst sys0 empty_heap streams rec) = (Ok tt, s) ->
  indexed loom_gindex (sys_looms (st_sys s)) (h_loom (st_heap s)) /\
  indexed proc_gindex (sys_procs (st_sys s)) (h_proc (st_heap s)) /\
  indexed t_gindex (sys_threads (st_sys s)) (h_thread (st_heap s)) /\
  indexed cpu_gindex (sys_cpus (st_sys s)) (h_cpu (st_heap s)) /\
  sys_nthreads (st_sys s) = Z.of_nat (size (h_thread (st_heap s))) /\
  sys_ncpus (st_sys s) = Z.of_nat (size (h_cpu (st_heap s))).
Proof.
  intros E. apply system_init_ready in E as [_ _ _ R1 R2 R3 R4 (_ & _ & C1 & C2)].
  split_and!; [by eapply (numbered_indexed loom_id)|by eapply (numbered_indexed proc_id)
    |by eapply (numbered_indexed thread_id)|by eapply (numbered_indexed cpu_id)| |].
  - rewrite C1. f_equal. by eapply indexed_size, (numbered_indexed thread_id).
  - rewrite C2. f_equal. by eapply indexed_size, (numbered_indexed cpu_id).
Qed.

(** ** The rows *)

Definition row_text (row : nat -> option (Z * string)) (x : nat) : string :=
  match row x with Some (_, l) => l | None => EmptyString end.

Lemma row_labels_Ok (f : nat -> string) rows l k : (forall j x, l !! j = Some x -> rows !! (k + Z.of_nat j) = Some (f x)) ->
  row_labels rows k (length l) = Some (map f l).
Proof.
  revert k. induction l as [|x l IH]; intros k H; simpl; [done|].
  rewrite (IH (k + 1)).
  - specialize (H 0%nat x eq_refl). rewrite Z.add_0_r in H. by rewrite H.
  - intros j y Hj. replace (k + 1 + Z.of_nat j) with (k + Z.of_nat (S j)) by lia. by apply H.
Qed.

Definition row_file (n : Z) (labels : list string) : list string :=
  ["LEVEL NODE SIZE 1"%string; "hostname"%string; EmptyString; "LEVEL THREAD SIZE " +:+ pretty n] ++ labels.

Lemma named_file {A} (index : A -> Z) l (m : gmap nat A) row n p : indexed index l m ->
  (forall x i s, row x = Some (i, s) -> exists a, m !! x = Some a /\ index a = i) ->
  named l row n p -> n = Z.of_nat (length l) -> prf_close p = Some (row_file n (map (row_text row) l)).
Proof.
  intros [Hn Ha Hi] Hr [N1 N2] ->. unfold prf_close. rewrite N1, Nat2Z.id.
  rewrite (row_labels_Ok (row_text row)); [done|]. intros j x Hj.
  destruct (N2 x) as (i & s & Hx & Hs); [by eapply list_elem_of_lookup_2|].
  destruct (Hr _ _ _ Hx) as (a & Hm & <-). rewrite (Hi _ _ _ Hj Hm) in Hs. unfold row_text. by rewrite Hx.
Qed.

Lemma thread_row_index h x i s : thread_row h x = Some (i, s) -> exists th, h_thread h !! x = Some th /\ t_gindex th = i.
Proof.
  unfold thread_row. destruct (h_thread h !! x) as [th|]; simpl; [|done]. destruct (h_proc h !! _); simpl; [|done].
  intros [= <- _]. by exists th.
Qed.
Lemma cpu_row_index h x i s : cpu_row h x = Some (i, s) -> exists cp, h_cpu h !! x = Some cp /\ cpu_gindex cp = i.
Proof.
  unfold cpu_row. destruct (h_cpu h !! x) as [cp|]; simpl; [|done]. destruct (cpu_loom cp); simpl; [|done].
  destruct (h_loom h !! _); simpl; [|done]. intros [= <- _]. by exists cp.
Qed.

Lemma on_prf_run {A} name (op : M prf A) r h p a f : rows_of name r = Some p -> op p = (Ok a, f) ->
  exists r', on_prf name op (r, h) = (Ok a, (r', h)).
Proof.
  unfold rows_of. destruct (recorder_find_pvt r name) as [pv|] eqn:E; simpl; [|done]. intros [= <-] Eop.
  unfold on_prf, mbind, mget, deref. simpl. rewrite E. simpl. rewrite Eop. by eexists.
Qed.

(** The set-up of the system of a trace in [emu_init], in an empty memory;
    [dir]: where the Paraver traces go. *)
Definition emu_setup (dir : string) (trace : list smeta) (file : offset_file) (acc : option (list accel)) : M syst unit :=
  system_init trace file ;;;
  in_rec (recorder_init dir) ;;;
  in_heap (mmod bay_init) ;;;
  system_connect acc.

(** An emulator that starts. *)
Definition start (streams : list stream) : syst := mk_syst system_zero empty_heap streams (mk_recorder EmptyString []).

Lemma emu_setup_connects dir trace file acc streams s' : emu_setup dir trace file acc (start streams) = (Ok tt, s') ->
  exists s, ready trace s /\ system_connect acc s = (Ok tt, s').
Proof.
  intros E. unfold emu_setup in E. apply mbind_Ok in E as ([] & s1 & E1 & E).
  pose proof (system_init_ready _ _ _ _ _ _ E1) as R.
  apply mbind_Ok in E as ([] & s2 & E2 & E). apply in_rec_Ok in E2 as (r & h & E2 & ->).
  unfold recorder_init in E2. case_match; [discriminate|]. injection E2 as <- <-.
  apply mbind_Ok in E as ([] & s3 & E3 & E). apply in_heap_Ok in E3 as (h & [= <-] & ->).
  eexists. split; [|exact E]. apply (ready_of_names trace s1); [done|]. split; [split; [done|]|done].
  by apply (wired_ext (st_heap s1)), R.
Qed.

Lemma emu_setup_Ok dir trace file streams s' : emu_setup dir trace file None (start streams) = (Ok tt, s') ->
  exists s, ready trace s /\ system_connect None s = (Ok tt, s') /\ coherent (st_heap s').
Proof.
  intros (s & R & E2)%emu_setup_connects. exists s. split_and!; [done..|].
  destruct (system_connect_Ok s s' (rd_wired _ _ R) E2) as ([[Hw W] _] & Ht & Hc & _).
  injection W as W1 W2 _ _ _ _. destruct R as [_ _ _ _ _ [[_ R1]%lists_fmap _] [[_ R2]%lists_fmap _] _].
  apply wired_coherent; [done|..]; [intros t th Eth|intros c cp Ecp].
  - rewrite W1 in Eth. destruct (Ht t) as (th' & ? & ?); [apply R1; by eexists|congruence].
  - rewrite W2 in Ecp. destruct (Hc c) as (cp' & ? & ?); [apply R2; by eexists|congruence].
Qed.

(** C19. Names of the rows: after a successful set-up from an empty memory no row of
    the thread and CPU traces lacks its name, so that their row files can be
    written, and they list the names of all threads and CPUs in the order of
    their global indices. *)
Theorem rows_named dir trace file streams s' : emu_setup dir trace file None (start streams) = (Ok tt, s') ->
  exists pt pc, rows_of "thread" (st_rec s') = Some pt /\ rows_of "cpu" (st_rec s') = Some pc /\
    prf_close pt = Some (row_file (sys_nthreads (st_sys s')) (map (row_text (thread_row (st_heap s'))) (sys_threads (st_sys s')))) /\
    prf_close pc = Some (row_file (sys_ncpus (st_sys s')) (map (row_text (cpu_row (st_heap s'))) (sys_cpus (st_sys s')))).
Proof.
  intros (s & R & E & _)%emu_setup_Ok.
  destruct (system_connect_Ok s s' (rd_wired _ _ R) E) as ([[_ W] Hs] & _ & _ & pt & pc & E1 & E2 & N1 & N2).
  injection W as W1 W2 W3 W4 _ _. rewrite Hs. exists pt, pc. split_and!; [done..| |].
  - replace (thread_row (st_heap s')) with (thread_row (st_heap s)) by (unfold thread_row; by rewrite W1, W3).
    eapply named_file; [apply (numbered_indexed thread_id), R|apply thread_row_index|done|apply R].
  - replace (cpu_row (st_heap s')) with (cpu_row (st_heap s)) by (unfold cpu_row; by rewrite W2, W4).
    eapply named_file; [apply (numbered_indexed cpu_id), R|apply cpu_row_index|done|apply R].
Qed.

(** C15. What the row of a CPU shows, from the streams on: take any trace whose
    system is set up with success from an empty memory, any further set-up of the
    models that keeps the system coherent, and any events processed with success;
    then two threads that run on the same physical CPU are the same thread, and
    the channels of that CPU show its TID, the PID of its process, its index and
    the count one. *)
Theorem emulation_shows {S} dir trace file streams s0 setup h0 (md : model S) prvs fuel xs h c cp t th p :
  emu_setup dir trace file None (start streams) = (Ok tt, s0) ->
  keeps_ok coherent setup -> setup (st_heap s0) = (Ok tt, h0) ->
  GoodModels md -> for_each (emu_process md prvs fuel) xs h0 = (Ok tt, h) ->
  h_cpu h !! c = Some cp -> cpu_is_virtual cp = false ->
  h_thread h !! t = Some th -> t_cpu th = Some c -> t_state th = TH_ST_RUNNING ->
  h_proc h !! t_proc th = Some p ->
  (forall u uh, h_thread h !! u = Some uh -> t_cpu uh = Some c -> t_state uh = TH_ST_RUNNING -> u = t) /\
  shows h (cpu_chan c CPU_CHAN_TID) (value_int64 (t_tid th)) /\
  shows h (cpu_chan c CPU_CHAN_PID) (value_int64 (proc_pid p)) /\
  shows h (cpu_chan c CPU_CHAN_THRUN) (value_int64 (t_gindex th)) /\
  shows h (cpu_chan c CPU_CHAN_NRUN) (value_int64 1).
Proof.
  intros (s & _ & _ & Hco)%emu_setup_Ok Hk Eset HM E. apply Hk in Eset; [|done].
  destruct (emu_run_step md prvs fuel xs h0 h HM Eset E) as [[Hs _] _]. by apply running_shown.
Qed.

(** C20. With a configuration of FPGA accelerators the set-up of a trace with some
    thread never succeeds: the code takes the success of [prf_add] for an
    error. *)
Theorem accelerators_never_connect dir trace file acc streams i m s' :
  trace !! i = Some m -> md_part (sm_md m) = Some "thread"%string ->
  emu_setup dir trace file (Some acc) (start streams) <> (Ok tt, s').
Proof.
  intros Hi Hm (s & R & E)%emu_setup_connects. destruct R as [Hw HF [_ HT] _ _ RT _ (_ & _ & Hnt & _)].
  apply (numbered_indexed thread_id) in RT as [_ Hall Hidx].
  unfold system_connect in E. apply mbind_Ok in E as (? & ? & [= <- <-] & E).
  assert (connecting (st_heap s) (st_heap s)) as Hc by done.
  apply mbind_Ok in E as (p1 & s1 & E2 & E). apply in_rec_Ok in E2 as (r1 & h1 & E2 & ->).
  apply (recorder_add_pvt_Ok (st_heap s)) in E2 as (Hc1 & _ & _); [|done].
  apply mbind_Ok in E as (p2 & s2 & E3 & E). apply in_rec_Ok in E3 as (r2 & h2 & E3 & ->).
  apply (recorder_add_pvt_Ok (st_heap s)) in E3 as (Hc2 & R2 & _); [|done]. simpl in R2.
  apply mbind_Ok in E as ([] & s3 & E4 & _).
  destruct (sys_threads (st_sys s)) as [|t ts] eqn:Et.
  { assert (is_Some (trace !! i)) by by eexists.
    assert ((i, m) ∈ List.filter is_thread (imap pair trace)) as Hin by by apply thread_streams_elem.
    pose proof (nodup_filter_fst is_thread _ (imap_pair_nodup trace)) as Hn.
    destruct (entries_find _ _ _ _ _ HF Hn Hin) as (e & _ & gt & gp & gl & name & He & _). simpl in He.
    apply lookup_fmap_Some in He as (th & _ & Hth). apply (not_elem_of_nil (lpt_thread e)). apply Hall. by eexists. }
  simpl in E4. apply mbind_Ok in E4 as ([] & s4 & E5 & E4). unfold connect_thread in E5.
  apply mbind_Ok in E5 as (? & ? & [= <- <-] & E5). apply in_heap_Ok in E5 as (h4 & E5 & ->).
  apply (thread_connect_Ok (st_heap s)) in E5 as [[_ W] _]; [|done]. simpl in E4.
  apply mbind_Ok in E4 as (th & s5 & E6 & E4). apply in_heap_Ok in E6 as (h5 & [Ht ->]%load_thread_Ok & ->).
  apply mbind_Ok in E4 as (pr & s6 & E7 & E4). apply in_heap_Ok in E7 as (h6 & [_ ->]%load_proc_Ok & ->).
  apply mbind_Ok in E4 as (name & s7 & E8 & E4). change (Z.of_nat 0 + 1 - Z.of_nat 0) with 1 in E8. unfold row_name in E8.
  destruct (Z.leb_spec 128 (slen (thread_label (proc_appid pr) 1))); [discriminate|]. injection E8 as <- <-.
  apply mbind_Ok in E4 as (? & ? & [= <- <-] & E4). simpl in *.
  injection W as W _ _ _ _ _. rewrite W in Ht. specialize (Hidx 0%nat t th eq_refl Ht). simpl in Hidx.
  destruct (on_prf_run "thread" (prf_add (t_gindex th) (thread_label (proc_appid pr) 1)) r2 h4 _ tt
    (mk_prf (sys_nthreads (st_sys s)) {[t_gindex th := thread_label (proc_appid pr) 1]}) R2) as (r' & Er).
  { unfold prf_add, mbind, mget. simpl. rewrite Hidx, Hnt. simpl. rewrite lookup_empty.
    destruct (Z.leb_spec MAX_PRF_LABEL (slen (thread_label (proc_appid pr) 1))) as [Hl|]; [|done].
    unfold MAX_PRF_LABEL in Hl. lia. }
  unfold in_rec in E4. simpl in E4. by rewrite Er in E4.
Qed.

(** ** A concrete trace

    Two threads of a process and a stream that is not of a thread. *)

Definition demo_smeta (part : string) (tid : Z) (cpus : option (list (option (Z * Z)))) : smeta :=
  mk_smeta (mk_metadata (Some part) (Some "node.0"%string) 20 tid 1 cpus (Some 1) (Some 0) (Some 2))
    (Some "1.11.0"%string) (Some "f1a2"%string).
Definition demo_trace : list smeta :=
  [ demo_smeta "thread" 21 (Some [Some (1, 7); Some (0, 4)]); demo_smeta "log" 0 None; demo_smeta "thread" 22 None ].

Definition demo_start : syst := start [].
Definition demo_inited : syst := (system_init demo_trace (NoFile false) demo_start).2.
Definition demo_ready : syst := (emu_setup "trace" demo_trace (NoFile false) None demo_start).2.

Lemma demo_init_run : system_init demo_trace (NoFile false) demo_start = (Ok tt, demo_inited).
Proof. unfold demo_inited. apply run_eta. vm_compute. reflexivity. Qed.
Lemma demo_setup_run : emu_setup "trace" demo_trace (NoFile false) None demo_start = (Ok tt, demo_ready).
Proof. unfold demo_ready. apply run_eta. vm_compute. reflexivity. Qed.

Lemma system_init_streams_witness : system_init demo_trace (NoFile false) demo_start = (Ok tt, demo_inited) /\
  (exists e, system_get_lpt (st_sys demo_inited) 2 = Some e /\ located (st_heap demo_inited) e (sm_md (demo_smeta "thread" 22 None))) /\
  system_get_lpt (st_sys demo_inited) 1 = None.
Proof.
  split; [exact demo_init_run|].
  destruct (system_init_streams _ _ _ _ _ _ demo_init_run) as (H1 & H2 & _).
  pose proof (H1 2%nat (demo_smeta "thread" 22 None) eq_refl eq_refl) as A.
  assert (md_part (sm_md (demo_smeta "log" 0 None)) <> Some "thread"%string) as Hlog by discriminate.
  pose proof (H2 1%nat (demo_smeta "log" 0 None) eq_refl Hlog) as B. split; [exact A|exact B].
Defined.

Lemma demo_lists : sys_cpus (st_sys demo_inited) = [2; 1; 0]%nat /\ sys_threads (st_sys demo_inited) = [0; 1]%nat.
Proof. vm_compute. split; reflexivity. Qed.

Lemma system_init_indices_witness : indexed cpu_gindex [2; 1; 0]%nat (h_cpu (st_heap demo_inited)) /\
  indexed t_gindex [0; 1]%nat (h_thread (st_heap demo_inited)).
Proof.
  destruct demo_lists as [<- <-].
  destruct (system_init_indices _ _ _ _ _ _ demo_init_run) as (_ & _ & H1 & H2 & _).
  split; [exact H2|exact H1].
Defined.

Lemma demo_rows : row_file (sys_nthreads (st_sys demo_ready))
    (map (row_text (thread_row (st_heap demo_ready))) (sys_threads (st_sys demo_ready))) =
  ["LEVEL NODE SIZE 1"; "hostname"; EmptyString; "LEVEL THREAD SIZE 2"; "TH 1.21"; "TH 1.22"]%string.
Proof. vm_compute. reflexivity. Qed.

Lemma rows_named_witness : exists pt, rows_of "thread" (st_rec demo_ready) = Some pt /\
  prf_close pt = Some ["LEVEL NODE SIZE 1"; "hostname"; EmptyString; "LEVEL THREAD SIZE 2"; "TH 1.21"; "TH 1.22"]%string.
Proof.
  rewrite <- demo_rows. destruct (rows_named _ _ _ _ _ demo_setup_run) as (pt & pc & H1 & _ & H2 & _).
  exists pt. split; [exact H1|exact H2].
Defined.

Lemma accelerators_never_connect_witness :
  emu_setup "trace" demo_trace (NoFile false) (Some [mk_accel "matmul" 1]) demo_start <> (Ok tt, demo_ready).
Proof. exact (accelerators_never_connect "trace" demo_trace (NoFile false) _ [] 0%nat _ demo_ready eq_refl eq_refl). Defined.

(** Thread 1 ends the run of OvniDemo.v running on the CPU of index 0. *)
Definition demo_shown : heap := (for_each (emu_process demo_models [] 64) demo_run (st_heap demo_ready)).2.
Lemma demo_shown_run : for_each (emu_process demo_models [] 64) demo_run (st_heap demo_ready) = (Ok tt, demo_shown).
Proof. unfold demo_shown. apply run_eta. vm_compute. reflexivity. Qed.

Definition shown_cpu : cpu := default (cpu_init_begin 0 0 false) (h_cpu demo_shown !! 2%nat).
Definition shown_thread : thread := default (thread_init_begin 0) (h_thread demo_shown !! 1%nat).
Definition shown_proc : proc := default (proc_init_begin 0) (h_proc demo_shown !! 0%nat).

Lemma demo_shown_view : h_cpu demo_shown !! 2%nat = Some shown_cpu /\ cpu_is_virtual shown_cpu = false /\
  h_thread demo_shown !! 1%nat = Some shown_thread /\ t_cpu shown_thread = Some 2%nat /\
  t_state shown_thread = TH_ST_RUNNING /\ h_proc demo_shown !! t_proc shown_thread = Some shown_proc /\
  t_tid shown_thread = 22 /\ proc_pid shown_proc = 20 /\ t_gindex shown_thread = 1.
Proof. vm_compute. split_and!; reflexivity. Qed.

Lemma emulation_shows_witness :
  t_tid shown_thread = 22 /\ shows demo_shown (cpu_chan 2 CPU_CHAN_TID) (value_int64 (t_tid shown_thread)) /\
  proc_pid shown_proc = 20 /\ shows demo_shown (cpu_chan 2 CPU_CHAN_PID) (value_int64 (proc_pid shown_proc)).
Proof.
  destruct demo_shown_view as (V1 & V2 & V3 & V4 & V5 & V6 & V7 & V8 & _).
  pose proof (keeps_ok_quiet coherent (mret tt) (quiet_ret tt)) as Hk.
  destruct (emulation_shows "trace" demo_trace (NoFile false) [] demo_ready (mret tt) (st_heap demo_ready) demo_models [] 64
    demo_run demo_shown 2 shown_cpu 1 shown_thread shown_proc demo_setup_run Hk eq_refl demo_models_good demo_shown_run
    V1 V2 V3 V4 V5 V6) as (_ & H1 & H2 & _).
  split; [exact V7|]. split; [exact H1|]. split; [exact V8|exact H2].
Defined.

(** The same trace with a table of offsets. *)
Definition demo_table : offset_file := OffsetFile (Some [LineEntry (mk_clkoff_entry "node" 1500); LineEmpty]).
Definition demo_streams : list stream := replicate 3 (opened stream_header 0 false).
Definition demo_synced : syst := (system_init demo_trace demo_table (start demo_streams)).2.
Lemma demo_synced_run :
  system_init demo_trace demo_table (start demo_streams) = (Ok tt, demo_synced).
Proof. unfold demo_synced. apply run_eta. vm_compute. reflexivity. Qed.

Lemma clock_offsets_applied_witness :
  system_init demo_trace demo_table (start demo_streams) = (Ok tt, demo_synced) /\
  exists x', st_streams demo_synced !! 2%nat = Some x' /\ offset_stream demo_synced 2 (opened stream_header 0 false) x'.
Proof.
  split; [exact demo_synced_run|].
  destruct (clock_offsets_applied _ _ _ _ _ _ demo_synced_run) as (table & _ & _ & _ & H).
  exact (H 2%nat (opened stream_header 0 false) eq_refl).
Defined.

Example demo_synced_offsets : map s_clock_offset (st_streams demo_synced) = [1500; 0; 1500].
Proof. vm_compute. reflexivity. Qed.
