(* ===== verification/Json.v ===== *)
(** * The metadata of a stream (src/parson.c, and its readers)

    The parser is not modelled: a value of JSON is the tree it returns, with
    the names of an object in the order of the file, and numbers that are whole
    and fit in an [int].  This file has the accessors of parson.c the emulator
    uses, and reads with them the metadata that the set-up of the system
    (System.v) starts from. *)

From Stdlib Require Import Ascii.
From S2P Require Import Prelude Chan Pcf Heap Bay Mux Prv Thread Loom Event Rt Stream Recorder System.

Inductive json :=
| JSONNull
| JSONString (s : string)
| JSONNumber (n : Z)
| JSONObject (o : list (string * json))
| JSONArray (a : list json)
| JSONBoolean (b : bool).

(** A pointer that may be NULL is an option. *)
Notation json_object := (list (string * json)).

(** ** Accessors *)

Definition json_value_get_object (v : option json) : option json_object :=
  match v with Some (JSONObject o) => Some o | _ => None end.
Definition json_value_get_array (v : option json) : option (list json) :=
  match v with Some (JSONArray a) => Some a | _ => None end.
Definition json_value_get_string (v : option json) : option string :=
  match v with Some (JSONString s) => Some s | _ => None end.
Definition json_value_get_number (v : option json) : Z :=
  match v with Some (JSONNumber n) => n | _ => 0 end.

Definition json_object_get_value (o : option json_object) (name : string) : option json :=
  l ← o; find_name name l.
Definition json_object_get_string o name := json_value_get_string (json_object_get_value o name).
Definition json_object_get_number o name := json_value_get_number (json_object_get_value o name).
Definition json_object_get_object o name := json_value_get_object (json_object_get_value o name).
Definition json_object_has_value o name : bool := bool_decide (is_Some (json_object_get_value o name)).

(** [strchr(name, '.')]: what is before and after the first dot. *)
Fixpoint split_dot (s : string) : option (string * string) :=
  match s with
  | EmptyString => None
  | String c s' =>
      if bool_decide (c = "."%char) then Some (EmptyString, s')
      else '(a, b) ← split_dot s'; Some (String c a, b)
  end.

(** The name has at most [n] dots. *)
Fixpoint dotget (n : nat) (o : option json_object) (name : string) : option json :=
  match split_dot name, n with
  | Some (a, b), S n' => dotget n' (json_value_get_object (json_object_get_value o a)) b
  | _, _ => json_object_get_value o name
  end.
Definition json_object_dotget_value (o : option json_object) (name : string) : option json :=
  dotget (String.length name) o name.
Definition json_object_dotget_string o name := json_value_get_string (json_object_dotget_value o name).
Definition json_object_dotget_number o name := json_value_get_number (json_object_dotget_value o name).
Definition json_object_dotget_object o name := json_value_get_object (json_object_dotget_value o name).
Definition json_object_dotget_array o name := json_value_get_array (json_object_dotget_value o name).

(** [json_number] of common.h: of a value that was tested. *)
Definition json_number (v : json) : Z := json_value_get_number (Some v).

(** ** What the set-up of the system reads *)

(** An element of [ovni.loom_cpus], [None] when it is not an object. *)
Definition loom_cpu_of (v : json) : option (Z * Z) :=
  c ← json_value_get_object (Some v);
  Some (json_object_get_number (Some c) "index", json_object_get_number (Some c) "phyid").

Definition metadata_of (meta : json_object) : metadata :=
  let m := Some meta in
  mk_metadata (json_object_dotget_string m "ovni.part") (json_object_dotget_string m "ovni.loom")
    (json_object_dotget_number m "ovni.pid") (json_object_dotget_number m "ovni.tid")
    (json_object_dotget_number m "ovni.finished")
    (map loom_cpu_of <$> json_object_dotget_array m "ovni.loom_cpus")
    (json_number <$> json_object_dotget_value m "ovni.app_id")
    (json_number <$> json_object_dotget_value m "ovni.rank")
    (json_number <$> json_object_dotget_value m "ovni.nranks").

Definition smeta_of (meta : json_object) : smeta :=
  let m := Some meta in
  mk_smeta (metadata_of meta) (json_object_dotget_string m "ovni.lib.version")
    (json_object_dotget_string m "ovni.lib.commit").

(** [json_object_dotget_object(t->meta, "ovni.require")], as model.c reads it:
    a value that is not a string is read as no value. *)
Definition require_of (meta : json_object) : option (list (string * string)) :=
  l ← json_object_dotget_object (Some meta) "ovni.require";
  Some (omap (M:=list) (fun kv : string * json => pair kv.1 <$> json_value_get_string (Some kv.2)) l).

(** ** Properties *)

(** A dotted name leads through the objects its parts name. *)
Lemma split_dot_app a b : split_dot a = None -> split_dot (a +:+ "." +:+ b) = Some (a, b).
Proof.
  induction a as [|c a IH]; simpl; [done|]. case_bool_decide; [done|].
  destruct (split_dot a) as [[? ?]|]; [done|]. intros _. by rewrite IH.
Qed.

Lemma split_dot_length s a b : split_dot s = Some (a, b) -> (String.length b < String.length s)%nat.
Proof.
  revert a. induction s as [|c s IH]; intros a; simpl; [done|]. case_bool_decide.
  - intros [= _ ->]. lia.
  - destruct (split_dot s) as [[a' b']|]; simpl; [|done]. intros [= _ ->]. specialize (IH a' eq_refl). lia.
Qed.

Lemma dotget_fuel n m o name : (String.length name <= n)%nat -> (String.length name <= m)%nat ->
  dotget n o name = dotget m o name.
Proof.
  revert m o name. induction n as [|n IH]; intros m o name Hn Hm.
  - destruct name; simpl in Hn; [by destruct m|lia].
  - destruct (split_dot name) as [[a b]|] eqn:E; [|by destruct m; simpl; rewrite E].
    pose proof (split_dot_length _ _ _ E). destruct m as [|m]; [lia|]. simpl. rewrite E. apply IH; lia.
Qed.

Lemma dotget_step o a b : split_dot a = None ->
  json_object_dotget_value o (a +:+ "." +:+ b) =
  json_object_dotget_value (json_object_get_object o a) b.
Proof.
  intros E. unfold json_object_dotget_value. pose proof (split_dot_app a b E) as E2.
  pose proof (split_dot_length _ _ _ E2) as Hl.
  destruct (String.length (a +:+ "." +:+ b)) as [|n] eqn:El; [lia|]. cbn [dotget]. rewrite E2.
  apply dotget_fuel; lia.
Qed.

Lemma dotget_leaf o name : split_dot name = None -> json_object_dotget_value o name = json_object_get_value o name.
Proof. intros E. unfold json_object_dotget_value. destruct (String.length name); simpl; by rewrite E. Qed.
