(* ===== verification/Track.v ===== *)
(** * The emulator and its tracking modules (src/emu/emu.h, extend.h, track.c)

    The state of the whole emulator: the system (System.v) and what the models
    hang on its objects.  A model gives every thread and every CPU an array of
    tracks: a track shows a channel of a thread in the Paraver trace, through a
    multiplexer when it is only shown while the thread is running or active. *)

From stdpp Require Import pretty.
From S2P Require Import Prelude Chan Pcf Heap Bay Mux Sort Prv Thread Loom Recorder System Json.

Inductive track_th := TRACK_TH_ANY | TRACK_TH_RUN | TRACK_TH_ACT.

#[export] Instance track_th_eq_dec : EqDecision track_th.
Proof. solve_decision. Defined.

(** A track: [tk_ch] is its own channel, [tk_out] its output, NULL until it is
    connected, and [tk_mux] the multiplexer in it. *)
Record track := mk_track { tk_mode : track_th; tk_ch : addr; tk_out : option addr; tk_mux : nat }.

(** Track number [i] of the array [n]. *)
Definition track_chan (n i : nat) : addr := Addr (OwnTrack n) i.

(** ** What the models add to the objects of the system *)

(** The breakdown of a model, and its part in a CPU: the two multiplexers and
    the channels they write. *)
Record breakdown_emu := mk_breakdown_emu { bd_nphycpus : Z; bd_sort : nat; bd_pvt : string; bd_enabled : bool }.
Record breakdown_cpu := mk_breakdown_cpu { bc_mux0 : nat; bc_tr : addr; bc_mux1 : nat; bc_tri : addr }.

(** The arrays of tracks, by the order of their creation; the number of
    multiplexers created; the arrays of the model of a character in threads
    ([EXT(thread, m)->track]) and CPUs, of the marks of the ovni model and of
    the hardware counters of nOS-V; and the breakdowns. *)
Record extn := mk_extn {
  x_arrays : list (list track);
  x_nmux : nat;
  x_thread : gmap (Z * nat) nat; x_cpu : gmap (Z * nat) nat;
  x_mark_th : gmap nat nat; x_mark_cpu : gmap nat nat;
  x_hwc_th : gmap nat nat; x_hwc_cpu : gmap nat nat;
  x_bd : gmap Z breakdown_emu; x_bd_cpu : gmap (Z * nat) breakdown_cpu
}.

Definition extn_zero : extn := mk_extn [] 0 ∅ ∅ ∅ ∅ ∅ ∅ ∅ ∅.

Definition set_x_arrays f (x : extn) : extn :=
  mk_extn (f (x_arrays x)) (x_nmux x) (x_thread x) (x_cpu x) (x_mark_th x) (x_mark_cpu x) (x_hwc_th x) (x_hwc_cpu x)
    (x_bd x) (x_bd_cpu x).
Definition set_x_nmux f (x : extn) : extn :=
  mk_extn (x_arrays x) (f (x_nmux x)) (x_thread x) (x_cpu x) (x_mark_th x) (x_mark_cpu x) (x_hwc_th x) (x_hwc_cpu x)
    (x_bd x) (x_bd_cpu x).
Definition set_x_thread f (x : extn) : extn :=
  mk_extn (x_arrays x) (x_nmux x) (f (x_thread x)) (x_cpu x) (x_mark_th x) (x_mark_cpu x) (x_hwc_th x) (x_hwc_cpu x)
    (x_bd x) (x_bd_cpu x).
Definition set_x_cpu f (x : extn) : extn :=
  mk_extn (x_arrays x) (x_nmux x) (x_thread x) (f (x_cpu x)) (x_mark_th x) (x_mark_cpu x) (x_hwc_th x) (x_hwc_cpu x)
    (x_bd x) (x_bd_cpu x).
Definition set_x_mark_th f (x : extn) : extn :=
  mk_extn (x_arrays x) (x_nmux x) (x_thread x) (x_cpu x) (f (x_mark_th x)) (x_mark_cpu x) (x_hwc_th x) (x_hwc_cpu x)
    (x_bd x) (x_bd_cpu x).
Definition set_x_mark_cpu f (x : extn) : extn :=
  mk_extn (x_arrays x) (x_nmux x) (x_thread x) (x_cpu x) (x_mark_th x) (f (x_mark_cpu x)) (x_hwc_th x) (x_hwc_cpu x)
    (x_bd x) (x_bd_cpu x).
Definition set_x_hwc_th f (x : extn) : extn :=
  mk_extn (x_arrays x) (x_nmux x) (x_thread x) (x_cpu x) (x_mark_th x) (x_mark_cpu x) (f (x_hwc_th x)) (x_hwc_cpu x)
    (x_bd x) (x_bd_cpu x).
Definition set_x_hwc_cpu f (x : extn) : extn :=
  mk_extn (x_arrays x) (x_nmux x) (x_thread x) (x_cpu x) (x_mark_th x) (x_mark_cpu x) (x_hwc_th x) (f (x_hwc_cpu x))
    (x_bd x) (x_bd_cpu x).
Definition set_x_bd f (x : extn) : extn :=
  mk_extn (x_arrays x) (x_nmux x) (x_thread x) (x_cpu x) (x_mark_th x) (x_mark_cpu x) (x_hwc_th x) (x_hwc_cpu x)
    (f (x_bd x)) (x_bd_cpu x).
Definition set_x_bd_cpu f (x : extn) : extn :=
  mk_extn (x_arrays x) (x_nmux x) (x_thread x) (x_cpu x) (x_mark_th x) (x_mark_cpu x) (x_hwc_th x) (x_hwc_cpu x)
    (x_bd x) (f (x_bd_cpu x)).

(** ** The emulator *)

Record emu_args := mk_emu_args { breakdown : bool; linter_mode : bool }.

(** [em_meta]: the metadata of every stream of the trace; [em_xtasks]: [enabled]
    of [model_xtasks_event]. *)
Record emu := mk_emu {
  em_args : emu_args; em_meta : list json_object; em_sys : syst; em_ext : extn; em_finished : bool; em_xtasks : bool
}.

Definition on_syst {A} (m : M syst A) : M emu A := fun e =>
  let '(r, s) := m (em_sys e) in (r, mk_emu (em_args e) (em_meta e) s (em_ext e) (em_finished e) (em_xtasks e)).
Definition on_heap {A} (m : M heap A) : M emu A := on_syst (in_heap m).
Definition on_rec {A} (m : M rheap A) : M emu A := on_syst (in_rec m).
Definition on_ext (f : extn -> extn) : M emu unit :=
  mmod (fun e => mk_emu (em_args e) (em_meta e) (em_sys e) (f (em_ext e)) (em_finished e) (em_xtasks e)).

Definition get_ext : M emu extn := let* e := mget in mret (em_ext e).
Definition get_sys : M emu system := let* e := mget in mret (st_sys (em_sys e)).
Definition get_heap : M emu heap := let* e := mget in mret (st_heap (em_sys e)).

(** [th->meta]: the metadata of the stream of a thread. *)
Definition em_thread_meta (e : emu) (t : nat) : option json_object :=
  l ← List.find (fun l => Nat.eqb (lpt_thread l) t) (sys_lpt (st_sys (em_sys e))); em_meta e !! lpt_stream l.
Definition thread_meta_of (t : nat) : M emu json_object := let* e := mget in deref (em_thread_meta e t).

(** [recorder_find_pvt], whose NULL is an error. *)
Definition find_pvt (name : string) : M emu pvt :=
  let* e := mget in found (recorder_find_pvt (st_rec (em_sys e)) name).

(** ** Memory of the models *)

(** [calloc] of an array of [k] tracks, each with its multiplexer. *)
Definition track_zero (n m i : nat) : track := mk_track TRACK_TH_ANY (track_chan n i) None (m + i).

Definition new_array (k : nat) : M emu nat :=
  let* x := get_ext in
  let n := length (x_arrays x) in
  on_ext (set_x_arrays (fun l => l ++ [map (track_zero n (x_nmux x)) (seq 0 k)])) ;;;
  on_ext (set_x_nmux (fun m => m + k)%nat) ;;;
  mret n.

Definition new_mux : M emu nat := let* x := get_ext in on_ext (set_x_nmux S) ;;; mret (x_nmux x).

Definition track_at (x : extn) (n i : nat) : option track := a ← x_arrays x !! n; a !! i.
Definition load_track (n i : nat) : M emu track := let* x := get_ext in deref (track_at x n i).
Definition upd_track (n i : nat) (f : track -> track) : M emu unit := on_ext (set_x_arrays (alter (alter f i) n)).

(** ** track.c *)

Definition th_suffix (mode : track_th) : string :=
  match mode with TRACK_TH_ANY => ".any" | TRACK_TH_RUN => ".run" | TRACK_TH_ACT => ".act" end.

Definition set_tk_mode (mode : track_th) (tk : track) : track := mk_track mode (tk_ch tk) (tk_out tk) (tk_mux tk).

Definition track_init (n i : nat) (mode : track_th) (name : string) : M emu unit :=
  if MAX_CHAN_NAME <=? slen name then mfail else
  let* tk := load_track n i in
  upd_track n i (set_tk_mode mode) ;;;
  on_heap (init_chan (tk_ch tk) CHAN_SINGLE (name +:+ th_suffix mode) []) ;;;
  on_heap (bay_register (tk_ch tk)).

Definition track_get_output (tk : track) : option addr := tk_out tk.

Definition set_tk_out (o : addr) (tk : track) : track := mk_track (tk_mode tk) (tk_ch tk) (Some o) (tk_mux tk).

Definition track_set_select (n i : nat) (sel : addr) (fsel : option mux_select_func) (ninputs : Z) : M emu unit :=
  let* tk := load_track n i in
  on_heap (mux_init (tk_mux tk) sel (tk_ch tk) fsel ninputs) ;;;
  upd_track n i (set_tk_out (tk_ch tk)).

Definition track_set_input (n i : nat) (index : Z) (inp : addr) : M emu unit :=
  let* tk := load_track n i in on_heap (mux_set_input (tk_mux tk) index inp).

Definition track_th_input_chan (n i : nat) (sel inp : addr) : M emu unit :=
  let* tk := load_track n i in
  match tk_mode tk with
  | TRACK_TH_ANY => upd_track n i (set_tk_out inp)
  | mode =>
      let fsel := if bool_decide (mode = TRACK_TH_RUN) then SelThreadRunning else SelThreadActive in
      track_set_select n i sel (Some fsel) 1 ;;;
      track_set_input n i 0 inp
  end.

(** [k] tracks of the array from [i0] on; [chans]: the channel of every index. *)
Definition track_connect_thread (n i0 : nat) (chans : nat -> addr) (sel : addr) (k : nat) : M emu unit :=
  for_each (fun i => track_th_input_chan n i sel (chans i)) (seq i0 k).

(** cpu.c: the channel that selects the threads of a CPU. *)
Definition cpu_get_th_chan (c : nat) : addr := cpu_chan c CPU_CHAN_THRUN.

(** Every thread is an input of a track of a CPU (the loops of model_cpu.c,
    ovni/mark.c and nosv/hwc.c). *)
Definition track_connect_cpu (n i : nat) (sel : addr) (inp : nat -> addr) : M emu unit :=
  let* sys := get_sys in
  track_set_select n i sel None (sys_nthreads sys) ;;;
  for_each (fun t =>
    let* th := on_heap (load_thread t) in
    track_set_input n i (t_gindex th) (inp t)) (sys_threads sys).
