(* ===== verification/ModelThread.v ===== *)
(** * The channels of a model (src/emu/model_thread.c, model_cpu.c, model_pvt.c)

    A model declares its channels in arrays indexed by channel; every thread
    has those channels, and every thread and CPU a track of each, shown in the
    trace of threads or CPUs. *)

From stdpp Require Import pretty.
From S2P Require Import Prelude Chan Pcf Heap Bay Mux Prv Thread Loom Event Recorder System Json Track Table.

(** ** Types of the Paraver traces (emu_prv.h) *)

Definition PRV_OVNI_FLUSH : Z := 7.
Definition PRV_NOSV_TASKID : Z := 10.
Definition PRV_NOSV_TYPE : Z := 11.
Definition PRV_NOSV_APPID : Z := 12.
Definition PRV_NOSV_SUBSYSTEM : Z := 13.
Definition PRV_NOSV_RANK : Z := 14.
Definition PRV_NOSV_BODYID : Z := 15.
Definition PRV_NOSV_IDLE : Z := 16.
Definition PRV_NOSV_BREAKDOWN : Z := 17.
Definition PRV_TAMPI_SUBSYSTEM : Z := 20.
Definition PRV_MPI_FUNCTION : Z := 25.
Definition PRV_NODES_SUBSYSTEM : Z := 30.
Definition PRV_NANOS6_TASKID : Z := 35.
Definition PRV_NANOS6_TYPE : Z := 36.
Definition PRV_NANOS6_SUBSYSTEM : Z := 37.
Definition PRV_NANOS6_RANK : Z := 38.
Definition PRV_NANOS6_THREAD : Z := 39.
Definition PRV_NANOS6_IDLE : Z := 40.
Definition PRV_NANOS6_BREAKDOWN : Z := 41.
Definition PRV_KERNEL_CS : Z := 45.
Definition PRV_OPENMP_SUBSYSTEM : Z := 50.
Definition PRV_OPENMP_LABEL : Z := 51.
Definition PRV_OPENMP_TASKID : Z := 52.
Definition PRV_OPENMP_BREAKDOWN : Z := 53.
Definition PRV_XTASKS_SUBSYSTEM : Z := 99.
Definition PRV_OVNI_MARK : Z := 100.
Definition PRV_NOSV_HWC : Z := 200.

(** ** Specifications (model_chan.h, model_pvt.h) *)

(** A label of a value; the arrays end where the list does. *)
Notation pcf_value_label := (Z * string)%type.

Record model_pvt_spec := mk_model_pvt_spec {
  pvt_type : list Z; pvt_prefix : list string; pvt_flags : option (list Z); pvt_label : list (option (list pcf_value_label))
}.

Record model_chan_spec := mk_model_chan_spec {
  nch : nat; chan_prefix : string; ch_names : list string; ch_stack : list bool;
  ch_dup : option (list Z); chan_pvt : model_pvt_spec; chan_track : list track_th
}.

(** [struct model_thread_spec] and [struct model_cpu_spec]: the channels, the
    character and name of the model, and the zeroed memory of its structure. *)
Record model_obj_spec := mk_model_obj_spec {
  spec_chan : model_chan_spec; spec_model : Ascii.ascii; spec_name : string; spec_zero : nat -> M heap unit
}.

(** An element of an array of the specification. *)
Definition at_ {A} (l : list A) (i : nat) : M emu A := deref (l !! i).

Definition obj_name (prefix kind : string) (gindex : Z) (name : string) : string :=
  prefix +:+ "." +:+ kind +:+ pretty gindex +:+ "." +:+ name.

(** ** model_thread.c *)

Definition init_model_chan (sp : model_obj_spec) (t : nat) (gindex : Z) (i : nat) : M emu unit :=
  let spec := spec_chan sp in
  let c := model_chan (spec_model sp) t i in
  let* stack := at_ (ch_stack spec) i in
  let* name := at_ (ch_names spec) i in
  let* props :=
    (match ch_dup spec with
     | None => mret []
     | Some dups => let* dup := at_ dups i in mret [(CHAN_ALLOW_DUP, dup)]
     end) in
  on_heap (init_chan c (if stack : bool then CHAN_STACK else CHAN_SINGLE)
    (obj_name (chan_prefix spec) "thread" gindex name) props) ;;;
  on_heap (bay_register c).

(** The array of tracks of a thread or a CPU. *)
Definition init_tracks (sp : model_obj_spec) (prefix kind : string) (gindex : Z) : M emu nat :=
  let spec := spec_chan sp in
  let* n := new_array (nch spec) in
  for_each (fun i =>
    let* name := at_ (ch_names spec) i in
    let* mode := at_ (chan_track spec) i in
    track_init n i mode (obj_name prefix kind gindex name)) (seq 0 (nch spec)) ;;;
  mret n.

Definition init_thread (sp : model_obj_spec) (t : nat) : M emu unit :=
  on_heap (spec_zero sp t) ;;;
  let* th := on_heap (load_thread t) in
  for_each (init_model_chan sp t (t_gindex th)) (seq 0 (nch (spec_chan sp))) ;;;
  let* n := init_tracks sp (chan_prefix (spec_chan sp)) "thread" (t_gindex th) in
  on_ext (set_x_thread <[(ch (spec_model sp), t) := n]>).

Definition model_thread_create (sp : model_obj_spec) : M emu unit :=
  let* sys := get_sys in for_each (init_thread sp) (sys_threads sys).

(** [EXT(thread, m)->track]. *)
Definition thread_tracks (m : Ascii.ascii) (t : nat) : M emu nat :=
  let* x := get_ext in deref (x_thread x !! (ch m, t)).
Definition cpu_tracks (m : Ascii.ascii) (c : nat) : M emu nat :=
  let* x := get_ext in deref (x_cpu x !! (ch m, c)).

(** ** model_pvt.c *)

Definition pcf_suffix (mode : track_th) : string :=
  match mode with
  | TRACK_TH_ANY => EmptyString | TRACK_TH_RUN => "of the RUNNING thread" | TRACK_TH_ACT => "of the ACTIVE thread"
  end.

Definition create_values (labels : option (list pcf_value_label)) : M pcf_type unit :=
  match labels with
  | None => mret tt
  | Some l => for_each (fun v => let* _ := pcf_add_value v.1 v.2 in mret tt) l
  end.

Definition create_pvt_type (pvt : model_pvt_spec) (i : nat) (mode : track_th) : M pcf unit :=
  let* type := deref (pvt_type pvt !! i) in
  if type =? -1 then mret tt else
  let* prefix := deref (pvt_prefix pvt !! i) in
  let label := prefix +:+ " " +:+ pcf_suffix mode in
  if MAX_PCF_LABEL <=? slen label then mfail else
  let* _ := pcf_add_type type label in
  let* labels := deref (pvt_label pvt !! i) in
  on_type type (create_values labels).

Definition init_pcf (chan : model_chan_spec) : M pcf unit :=
  for_each (fun i =>
    let* mode := deref (chan_track chan !! i) in
    create_pvt_type (chan_pvt chan) i mode) (seq 0 (nch chan)).

(** The outputs of the array [n] in the row of an object. *)
Definition connect_prv (spec : model_chan_spec) (p : nat) (row : Z) (n : nat) : M emu unit :=
  for_each (fun i =>
    let* tk := load_track n i in
    let* type := at_ (pvt_type (chan_pvt spec)) i in
    let* flags := (match pvt_flags (chan_pvt spec) with Some l => at_ l i | None => mret 0 end) in
    let* out := deref (track_get_output tk) in
    on_heap (prv_register p row type out flags)) (seq 0 (nch spec)).

Definition model_pvt_connect_thread (sp : model_obj_spec) : M emu unit :=
  let* sys := get_sys in
  let* pvt := find_pvt "thread" in
  for_each (fun t =>
    let* n := thread_tracks (spec_model sp) t in
    let* th := on_heap (load_thread t) in
    connect_prv (spec_chan sp) (pvt_prv pvt) (t_gindex th) n) (sys_threads sys) ;;;
  on_rec (on_pcf "thread" (init_pcf (spec_chan sp))).

Definition model_pvt_connect_cpu (sp : model_obj_spec) : M emu unit :=
  let* sys := get_sys in
  let* pvt := find_pvt "cpu" in
  for_each (fun c =>
    let* n := cpu_tracks (spec_model sp) c in
    let* cp := on_heap (load_cpu c) in
    connect_prv (spec_chan sp) (pvt_prv pvt) (cpu_gindex cp) n) (sys_cpus sys) ;;;
  on_rec (on_pcf "cpu" (init_pcf (spec_chan sp))).

Definition model_thread_connect (sp : model_obj_spec) : M emu unit :=
  let* sys := get_sys in
  for_each (fun t =>
    let* n := thread_tracks (spec_model sp) t in
    track_connect_thread n 0 (model_chan (spec_model sp) t) (th_chan t TH_CHAN_STATE) (nch (spec_chan sp)))
    (sys_threads sys) ;;;
  model_pvt_connect_thread sp.

(** ** model_cpu.c *)

Definition init_cpu (sp : model_obj_spec) (c : nat) : M emu unit :=
  on_heap (spec_zero sp c) ;;;
  let* cp := on_heap (load_cpu c) in
  let* n := init_tracks sp (spec_name sp) "cpu" (cpu_gindex cp) in
  on_ext (set_x_cpu <[(ch (spec_model sp), c) := n]>).

Definition model_cpu_create (sp : model_obj_spec) : M emu unit :=
  let* sys := get_sys in for_each (init_cpu sp) (sys_cpus sys).

Definition connect_cpu_tracks (sp : model_obj_spec) (c : nat) : M emu unit :=
  let* n := cpu_tracks (spec_model sp) c in
  for_each (fun i =>
    let* mode := at_ (chan_track (spec_chan sp)) i in
    if negb (bool_decide (mode = TRACK_TH_RUN)) then mfail else
    track_connect_cpu n i (cpu_get_th_chan c) (fun t => model_chan (spec_model sp) t i))
    (seq 0 (nch (spec_chan sp))).

Definition model_cpu_connect (sp : model_obj_spec) : M emu unit :=
  let* sys := get_sys in
  for_each (connect_cpu_tracks sp) (sys_cpus sys) ;;;
  model_pvt_connect_cpu sp.
