(* ===== verification/Mark.v ===== *)
(** * Marks of the user (src/emu/ovni/mark.c)

    The metadata of a thread declares its types of mark, with a title, a kind
    of channel and the labels of some values.  Threads may repeat a type, as
    long as they agree.  Every type has a channel in every thread, and is shown
    while the thread is active and in the CPU while it is running. *)

From stdpp Require Import pretty.
From S2P Require Import Prelude Chan Pcf Heap Bay Mux Prv Thread Loom Event Cstr OvniModel Model Recorder System Json Track ModelThread.

(** ** Declarations *)

(** [parse_number], and the reading of types. *)
Definition parse_number (str : string) : option Z := strtol str.

Definition find_label (t : mark_type) (value : Z) : option string :=
  snd <$> List.find (fun l : Z * string => l.1 =? value) (mk_labels t).

Definition set_mk_labels l (t : mark_type) : mark_type :=
  mk_mark_type (mk_type t) (mk_prvtype t) (mk_index t) (mk_ctype t) l (mk_title t).

Definition add_label (value : Z) (label : string) : M mark_type unit :=
  let* t := mget in
  match find_label t value with
  | Some l => require (bool_decide (l = label))
  | None =>
      if MAX_PCF_LABEL <=? slen label then mfail else
      mput (set_mk_labels (mk_labels t ++ [(value, label)]) t)
  end.

Definition parse_labels (labels : json_object) : M mark_type unit :=
  for_each (fun kv =>
    let* value := found (parse_number kv.1) in
    let* label := found (json_value_get_string (Some kv.2)) in
    add_label value label) labels.

(** An operation on the type [type] of the table. *)
Definition on_mark_type (type : Z) {A} (op : M mark_type A) : M ovni_mark_emu A := fun m =>
  match find_mark_type m type with
  | None => (Ub, m)
  | Some t => let '(r, t') := op t in
      (r, mk_ovni_mark_emu (map (fun u => if mk_type u =? type then t' else u) (mark_types m)) (mark_ntypes m))
  end.

Definition create_mark_type (type : Z) (ctype : chan_type) (title : string) : M ovni_mark_emu unit :=
  let* m := mget in
  match find_mark_type m type with
  | Some _ => mfail
  | None =>
      if MAX_PCF_LABEL <=? slen title then mfail else
      mput (mk_ovni_mark_emu
        (mark_types m ++ [mk_mark_type type (type + PRV_OVNI_MARK) (mark_ntypes m) ctype [] title]) (mark_ntypes m + 1))
  end.

Definition ctype_of (s : string) : option chan_type :=
  if bool_decide (s = "single"%string) then Some CHAN_SINGLE
  else if bool_decide (s = "stack"%string) then Some CHAN_STACK else None.

Definition parse_mark (typestr : string) (markval : json) : M ovni_mark_emu unit :=
  let* type := found (strtol typestr) in
  if (type <? 0) || (100 <=? type) then mfail else
  let* mark := found (json_value_get_object (Some markval)) in
  let* title := found (json_object_get_string (Some mark) "title") in
  let* chan_type := found (json_object_get_string (Some mark) "chan_type") in
  let* ctype := found (ctype_of chan_type) in
  let* m := mget in
  (match find_mark_type m type with
   | None => create_mark_type type ctype title
   | Some t =>
       if negb (bool_decide (mk_title t = title)) then mfail else
       if negb (bool_decide (mk_ctype t = ctype)) then mfail else mret tt
   end) ;;;
  if json_object_has_value (Some mark) "labels" then
    let* labels := found (json_object_get_object (Some mark) "labels") in
    on_mark_type type (parse_labels labels)
  else mret tt.

(** The marks in the metadata of a thread. *)
Definition scan_marks (meta : json_object) : M ovni_mark_emu unit :=
  match json_object_dotget_object (Some meta) "ovni.mark" with
  | None => mret tt
  | Some obj => for_each (fun kv => parse_mark kv.1 kv.2) obj
  end.

Definition mark_types_of (metas : list json_object) : M ovni_mark_emu unit := for_each scan_marks metas.

(** ** Channels *)

Definition on_mark {A} (op : M ovni_mark_emu A) : M heap A := fun h =>
  let '(r, m) := op (h_mark h) in (r, set_h_mark (fun _ => m) h).

Definition get_marks : M emu ovni_mark_emu := let* h := get_heap in mret (h_mark h).

Definition mark_name (kind : string) (gindex type : Z) : string := kind +:+ pretty gindex +:+ ".mark" +:+ pretty type.

(** The tracks of the marks of a thread or a CPU. *)
Definition init_mark_tracks (kind : string) (gindex : Z) (mode : track_th) : M emu nat :=
  let* m := get_marks in
  let* n := new_array (Z.to_nat (mark_ntypes m)) in
  for_each (fun t => track_init n (Z.to_nat (mk_index t)) mode (mark_name kind gindex (mk_type t))) (mark_types m) ;;;
  mret n.

Definition create_mark_chan (t : nat) : M emu unit :=
  let* m := get_marks in
  let* th := on_heap (load_thread t) in
  for_each (fun ty =>
    let c := mark_chan t (mk_index ty) in
    on_heap (init_chan c (mk_ctype ty) (mark_name "thread" (t_gindex th) (mk_type ty)) [(CHAN_ALLOW_DUP, 1)]) ;;;
    on_heap (bay_register c)) (mark_types m) ;;;
  let* n := init_mark_tracks "thread" (t_gindex th) TRACK_TH_ACT in
  on_ext (set_x_mark_th <[t := n]>).

Definition init_mark_cpu (c : nat) : M emu unit :=
  let* cp := on_heap (load_cpu c) in
  let* n := init_mark_tracks "cpu" (cpu_gindex cp) TRACK_TH_RUN in
  on_ext (set_x_mark_cpu <[c := n]>).

Definition mark_create : M emu unit :=
  let* sys := get_sys in
  on_heap (mmod (set_h_mark (fun _ => mk_ovni_mark_emu [] 0))) ;;;
  for_each (fun t => let* meta := thread_meta_of t in on_heap (on_mark (scan_marks meta))) (sys_threads sys) ;;;
  let* m := get_marks in
  if mark_ntypes m =? 0 then mret tt else
  for_each create_mark_chan (sys_threads sys) ;;;
  for_each init_mark_cpu (sys_cpus sys).

(** ** Connection *)

Definition mark_tracks (t : nat) : M emu nat := let* x := get_ext in deref (x_mark_th x !! t).
Definition mark_cpu_tracks (c : nat) : M emu nat := let* x := get_ext in deref (x_mark_cpu x !! c).

(** A track of a mark or a counter in the row of its object. *)
Definition connect_row (p : nat) (row type flags : Z) (n i : nat) : M emu unit :=
  let* tk := load_track n i in
  let* out := deref (track_get_output tk) in
  on_heap (prv_register p row type out flags).

Definition connect_thread_marks (p t : nat) : M emu unit :=
  let* m := get_marks in
  let* n := mark_tracks t in
  let* th := on_heap (load_thread t) in
  for_each (fun ty =>
    let i := Z.to_nat (mk_index ty) in
    track_connect_thread n i (fun i => mark_chan t (Z.of_nat i)) (th_chan t TH_CHAN_STATE) 1 ;;;
    connect_row p (t_gindex th) (mk_prvtype ty) PRV_SKIPDUPNULL n i) (mark_types m).

Definition connect_cpu_marks (p c : nat) : M emu unit :=
  let* m := get_marks in
  let* n := mark_cpu_tracks c in
  let* cp := on_heap (load_cpu c) in
  for_each (fun ty =>
    let i := Z.to_nat (mk_index ty) in
    track_connect_cpu n i (cpu_get_th_chan c) (fun t => mark_chan t (mk_index ty)) ;;;
    connect_row p (cpu_gindex cp) (mk_prvtype ty) PRV_SKIPDUPNULL n i) (mark_types m).

(** The cast of a value to [int]. *)
Definition create_mark_pcf (ty : mark_type) : M pcf unit :=
  let* _ := pcf_add_type (mk_prvtype ty) (mk_title ty) in
  on_type (mk_prvtype ty) (for_each (fun l : Z * string => let* _ := pcf_add_value (i32 l.1) l.2 in mret tt) (mk_labels ty)).

Definition mark_init_pcf (name : string) : M emu unit :=
  let* m := get_marks in on_rec (on_pcf name (for_each create_mark_pcf (mark_types m))).

Definition mark_connect : M emu unit :=
  let* m := get_marks in
  if mark_ntypes m =? 0 then mret tt else
  let* sys := get_sys in
  let* pvt := find_pvt "thread" in
  for_each (connect_thread_marks (pvt_prv pvt)) (sys_threads sys) ;;;
  mark_init_pcf "thread" ;;;
  let* pvt := find_pvt "cpu" in
  for_each (connect_cpu_marks (pvt_prv pvt)) (sys_cpus sys) ;;;
  mark_init_pcf "cpu".
