(* ===== verification/Hwc.v ===== *)
(** * Hardware counters of nOS-V (src/emu/nosv/hwc.c)

    The metadata of the threads names the counters; all threads that have them
    have the same.  Every counter has a channel in every thread, shown like the
    marks.  The event that sets them is in Nosv.v; the configuration files that
    [hwc_finish] writes are not modelled, only the length of their paths. *)

From stdpp Require Import pretty.
From S2P Require Import Prelude Chan Pcf Heap Bay Mux Prv Thread Loom Event Cstr Rt Model Recorder System Json Track ModelThread.
From S2P Require Import Nosv Mark.

(** ** Declarations *)

Definition set_hwc_name l (e : nosv_hwc_emu) : nosv_hwc_emu := mk_nosv_hwc_emu l (hwc_n e) (hwc_values e).

(** The index is a [size_t]. *)
Definition parse_hwc (indexstr : string) (hwcval : json) : M nosv_hwc_emu unit :=
  let* i := found (strtol indexstr) in
  let index := u64 i in
  if 100 <=? index then mfail else
  let* e := mget in
  if hwc_n e <=? index then mfail else
  let* hwc := found (json_value_get_object (Some hwcval)) in
  let* name := found (json_object_get_string (Some hwc) "name") in
  let* old := deref (hwc_name e !! Z.to_nat index) in
  match old with
  | None => mput (set_hwc_name (<[Z.to_nat index := Some name]> (hwc_name e)) e)
  | Some n => require (bool_decide (n = name))
  end.

Definition scan_hwc (meta : json_object) : M nosv_hwc_emu unit :=
  match json_object_dotget_object (Some meta) "nosv.hwc" with
  | None => mret tt
  | Some obj =>
      let n := Z.of_nat (length obj) in
      if n =? 0 then mret tt else
      let* e := mget in
      (if hwc_n e =? 0 then mput (mk_nosv_hwc_emu (replicate (length obj) None) n (hwc_values e))
       else if negb (hwc_n e =? n) then mfail else mret tt) ;;;
      for_each (fun kv => parse_hwc kv.1 kv.2) obj
  end.

(** ** Channels *)

Definition on_hwc {A} (op : M nosv_hwc_emu A) : M heap A := fun h =>
  let '(r, e) := op (h_hwc h) in (r, set_h_hwc (fun _ => e) h).

Definition get_hwc : M emu nosv_hwc_emu := let* h := get_heap in mret (h_hwc h).
Definition hwc_range : M emu (list nat) := let* e := get_hwc in mret (seq 0 (Z.to_nat (hwc_n e))).

Definition hwc_chan_name (kind : string) (gindex : Z) (i : nat) : string :=
  "nosv." +:+ kind +:+ pretty gindex +:+ ".hwc" +:+ pretty i.

Definition init_hwc_tracks (kind : string) (gindex : Z) (mode : track_th) : M emu nat :=
  let* ids := hwc_range in
  let* n := new_array (length ids) in
  for_each (fun i => track_init n i mode (hwc_chan_name kind gindex i)) ids ;;;
  mret n.

Definition create_hwc_chan (t : nat) : M emu unit :=
  let* ids := hwc_range in
  let* th := on_heap (load_thread t) in
  for_each (fun i =>
    on_heap (init_chan (hwc_chan t i) CHAN_SINGLE (hwc_chan_name "thread" (t_gindex th) i) [(CHAN_ALLOW_DUP, 1)]) ;;;
    on_heap (bay_register (hwc_chan t i))) ids ;;;
  let* n := init_hwc_tracks "thread" (t_gindex th) TRACK_TH_ACT in
  on_ext (set_x_hwc_th <[t := n]>).

Definition init_hwc_cpu (c : nat) : M emu unit :=
  let* cp := on_heap (load_cpu c) in
  let* n := init_hwc_tracks "cpu" (cpu_gindex cp) TRACK_TH_RUN in
  on_ext (set_x_hwc_cpu <[c := n]>).

Definition hwc_create : M emu unit :=
  let* sys := get_sys in
  for_each (fun t => let* meta := thread_meta_of t in on_heap (on_hwc (scan_hwc meta))) (sys_threads sys) ;;;
  let* e := get_hwc in
  if hwc_n e =? 0 then mret tt else
  on_heap (mmod (set_h_hwc (fun e => mk_nosv_hwc_emu (hwc_name e) (hwc_n e) (replicate (Z.to_nat (hwc_n e)) 0)))) ;;;
  for_each create_hwc_chan (sys_threads sys) ;;;
  for_each init_hwc_cpu (sys_cpus sys).

(** ** Connection *)

Definition hwc_flags : Z := Z.lor PRV_SKIPDUPNULL PRV_ZERO.

Definition hwc_tracks (t : nat) : M emu nat := let* x := get_ext in deref (x_hwc_th x !! t).
Definition hwc_cpu_tracks (c : nat) : M emu nat := let* x := get_ext in deref (x_hwc_cpu x !! c).

Definition connect_thread_hwc (p t : nat) : M emu unit :=
  let* ids := hwc_range in
  let* n := hwc_tracks t in
  let* th := on_heap (load_thread t) in
  for_each (fun i =>
    track_connect_thread n i (hwc_chan t) (th_chan t TH_CHAN_STATE) 1 ;;;
    connect_row p (t_gindex th) (PRV_NOSV_HWC + Z.of_nat i) hwc_flags n i) ids.

Definition connect_cpu_hwc (p c : nat) : M emu unit :=
  let* ids := hwc_range in
  let* n := hwc_cpu_tracks c in
  let* cp := on_heap (load_cpu c) in
  for_each (fun i =>
    track_connect_cpu n i (cpu_get_th_chan c) (fun t => hwc_chan t i) ;;;
    connect_row p (cpu_gindex cp) (PRV_NOSV_HWC + Z.of_nat i) hwc_flags n i) ids.

(** A counter without a name would be a NULL string. *)
Definition hwc_init_pcf (name : string) : M emu unit :=
  let* ids := hwc_range in
  let* e := get_hwc in
  for_each (fun i =>
    let* nm := deref (hwc_name e !! i ≫= id) in
    on_rec (on_pcf name (let* _ := pcf_add_type (PRV_NOSV_HWC + Z.of_nat i) nm in mret tt))) ids.

Definition hwc_connect : M emu unit :=
  let* e := get_hwc in
  if hwc_n e =? 0 then mret tt else
  let* sys := get_sys in
  let* pvt := find_pvt "thread" in
  for_each (connect_thread_hwc (pvt_prv pvt)) (sys_threads sys) ;;;
  hwc_init_pcf "thread" ;;;
  let* pvt := find_pvt "cpu" in
  for_each (connect_cpu_hwc (pvt_prv pvt)) (sys_cpus sys) ;;;
  hwc_init_pcf "cpu".

Definition hwc_path (dir kind name : string) : string := dir +:+ "/cfg/" +:+ kind +:+ "/nosv/hwc-" +:+ name +:+ ".cfg".

Definition hwc_finish : M emu unit :=
  let* ids := hwc_range in
  let* e := mget in
  let* hw := get_hwc in
  let dir := rec_dir (st_rec (em_sys e)) in
  for_each (fun i =>
    let* nm := deref (hwc_name hw !! i ≫= id) in
    if PATH_MAX <=? slen (hwc_path dir "thread" nm) then mfail else
    if PATH_MAX <=? slen (hwc_path dir "cpu" nm) then mfail else mret tt) ids.
