(* ===== verification/Breakdown.v ===== *)
(** * The breakdown views (src/emu/nosv/breakdown.c, nanos6/breakdown.c, openmp/breakdown.c)

    A breakdown view has a row per physical CPU with what it does: the type of
    the task it runs, the subsystem it is in or its idle state; the rows are
    sorted by value.  nOS-V and Nanos6 share the code but for their names; the
    view of OpenMP has one multiplexer instead of two and no idle state. *)

From Stdlib Require Import Ascii.
From stdpp Require Import pretty.
From S2P Require Import Prelude Chan Pcf Task Heap Bay Mux Sort Prv Thread Loom Event Recorder System Json Track.
From S2P Require Import ModelThread Table TaskModel.

(** What the files differ in: the character and name of the model, the type and
    label of the view, the constants its select functions compare with, and the
    channels of the CPU it reads. *)
Record bd_spec := mk_bd_spec {
  bs_model : ascii; bs_name : string; bs_type : Z; bs_label : string;
  bs_task_body : Z; bs_unknown : Z; bs_progressing : Z;
  bs_ss : nat; bs_tt : nat; bs_idle : nat
}.

Definition get_bd (m : ascii) : M emu breakdown_emu := let* x := get_ext in deref (x_bd x !! ch m).
Definition put_bd (m : ascii) (b : breakdown_emu) : M emu unit := on_ext (set_x_bd <[ch m := b]>).
Definition breakdown_zero : breakdown_emu := mk_breakdown_emu 0 0 EmptyString false.

Definition bd_cpu (m : ascii) (c : nat) : M emu breakdown_cpu := let* x := get_ext in deref (x_bd_cpu x !! (ch m, c)).

(** The physical CPUs, in order. *)
Fixpoint physical_cpus (cpus : list nat) : M emu (list nat) :=
  match cpus with
  | [] => mret []
  | c :: cpus' =>
      let* cp := on_heap (load_cpu c) in
      let* l := physical_cpus cpus' in
      mret (if cpu_is_virtual cp then l else c :: l)
  end.

(** ** Creation *)

Definition bd_chan_name (sp : bd_spec) (gindex : Z) (part : string) : string :=
  bs_name sp +:+ ".cpu" +:+ pretty gindex +:+ ".breakdown." +:+ part.

Definition new_bd_chan (sp : bd_spec) (c : nat) (a : addr) (part : string) : M emu unit :=
  let* cp := on_heap (load_cpu c) in
  on_heap (init_chan a CHAN_SINGLE (bd_chan_name sp (cpu_gindex cp) part) []).

(** The channels of the breakdown of a CPU are known by its first multiplexer. *)
Definition create_bd_cpu (sp : bd_spec) (c : nat) : M emu unit :=
  let* m0 := new_mux in
  let* m1 := new_mux in
  let tr := Addr (OwnOther m0) 0 in
  let tri := Addr (OwnOther m0) 1 in
  new_bd_chan sp c tr "tr" ;;;
  new_bd_chan sp c tri "tri" ;;;
  on_heap (bay_register tr) ;;;
  on_heap (bay_register tri) ;;;
  on_ext (set_x_bd_cpu <[(ch (bs_model sp), c) := mk_breakdown_cpu m0 tr m1 tri]>).

(** The view of OpenMP: only [mux0] and its output. *)
Definition create_bd_cpu_one (sp : bd_spec) (c : nat) : M emu unit :=
  let* m0 := new_mux in
  let out := Addr (OwnOther m0) 0 in
  new_bd_chan sp c out "out" ;;;
  on_heap (bay_register out) ;;;
  on_ext (set_x_bd_cpu <[(ch (bs_model sp), c) := mk_breakdown_cpu m0 out m0 out]>).

(** The trace, the sorter and the channels. *)
Definition breakdown_new (sp : bd_spec) (create_cpu : nat -> M emu unit) (enabled : bool) : M emu unit :=
  let* sys := get_sys in
  let nphycpus := sys_ncpus sys - sys_nlooms sys in
  let name := bs_name sp +:+ "-breakdown" in
  let* h := get_heap in
  let s := size (h_sort h) in
  let* _ := on_rec (recorder_add_pvt name nphycpus) in
  on_heap (sort_init s nphycpus (bs_name sp +:+ ".breakdown.sort")) ;;;
  put_bd (bs_model sp) (mk_breakdown_emu nphycpus s name enabled) ;;;
  let* cpus := physical_cpus (sys_cpus sys) in
  for_each create_cpu cpus.

Definition breakdown_create (sp : bd_spec) (create_cpu : nat -> M emu unit) : M emu unit :=
  let* e := mget in
  if negb (breakdown (em_args e)) then mret tt else breakdown_new sp create_cpu false.

(** How many threads can produce the breakdown of nOS-V: all must say. *)
Fixpoint count_breakdown (threads : list nat) : M emu Z :=
  match threads with
  | [] => mret 0
  | t :: threads' =>
      let* meta := thread_meta_of t in
      match json_object_dotget_value (Some meta) "nosv.can_breakdown" with
      | Some (JSONBoolean b) => let* n := count_breakdown threads' in mret (if b then n + 1 else n)
      | _ => mfail
      end
  end.

(** nOS-V enables the view only if all threads can produce it. *)
Definition nosv_breakdown_create (sp : bd_spec) : M emu unit :=
  let* e := mget in
  if negb (breakdown (em_args e)) then mret tt else
  let* sys := get_sys in
  let* n := count_breakdown (sys_threads sys) in
  if negb (n =? sys_nthreads sys) then mret tt else
  breakdown_new sp (create_bd_cpu sp) true.

(** ** Connection *)

(** [&mcpu->m.track[i].ch]. *)
Definition cpu_track_chan (m : ascii) (c i : nat) : M emu addr :=
  let* n := cpu_tracks m c in let* tk := load_track n i in mret (tk_ch tk).

Definition connect_bd_cpu (sp : bd_spec) (c : nat) : M emu unit :=
  let* b := bd_cpu (bs_model sp) c in
  let* ss := cpu_track_chan (bs_model sp) c (bs_ss sp) in
  let* tt := cpu_track_chan (bs_model sp) c (bs_tt sp) in
  let* idle := cpu_track_chan (bs_model sp) c (bs_idle sp) in
  on_heap (mux_init (bc_mux0 b) ss (bc_tr b) (Some (SelTr (bs_task_body sp))) 2) ;;;
  on_heap (mux_set_input (bc_mux0 b) 0 ss) ;;;
  on_heap (mux_set_input (bc_mux0 b) 1 tt) ;;;
  on_heap (mux_set_default (bc_mux0 b) (value_int64 (bs_unknown sp))) ;;;
  on_heap (mux_init (bc_mux1 b) idle (bc_tri b) (Some (SelIdle (bs_progressing sp))) 2) ;;;
  on_heap (mux_set_input (bc_mux1 b) 0 (bc_tr b)) ;;;
  on_heap (mux_set_input (bc_mux1 b) 1 idle).

Definition MUX0_LABEL : Z := 0.
Definition MUX0_SUBSYSTEM : Z := 1.

(** OpenMP: [bs_tt] is the channel of the label. *)
Definition connect_bd_cpu_one (sp : bd_spec) (c : nat) : M emu unit :=
  let* b := bd_cpu (bs_model sp) c in
  let* subsystem := cpu_track_chan (bs_model sp) c (bs_ss sp) in
  let* label := cpu_track_chan (bs_model sp) c (bs_tt sp) in
  on_heap (mux_init (bc_mux0 b) label (bc_tri b) (Some (SelMux0 MUX0_LABEL MUX0_SUBSYSTEM)) 2) ;;;
  on_heap (mux_set_input (bc_mux0 b) MUX0_LABEL label) ;;;
  on_heap (mux_set_input (bc_mux0 b) MUX0_SUBSYSTEM subsystem).

(** The physical CPU number [i] is input and row [i]. *)
Definition connect_bd_row (sp : bd_spec) (connect_cpu : nat -> M emu unit) (ic : nat * nat) : M emu unit :=
  let i := Z.of_nat ic.1 in
  connect_cpu ic.2 ;;;
  let* bd := get_bd (bs_model sp) in
  let* b := bd_cpu (bs_model sp) ic.2 in
  on_heap (sort_set_input (bd_sort bd) i (bc_tri b)) ;;;
  let* pvt := find_pvt (bd_pvt bd) in
  on_heap (prv_register (pvt_prv pvt) i (bs_type sp) (sort_get_output (bd_sort bd) i) (Z.lor PRV_SKIPDUP PRV_ZERO)).

Definition breakdown_rows (sp : bd_spec) (connect_cpu : nat -> M emu unit) : M emu unit :=
  let* sys := get_sys in
  let* cpus := physical_cpus (sys_cpus sys) in
  for_each (connect_bd_row sp connect_cpu) (imap pair cpus).

Definition breakdown_connect (sp : bd_spec) (connect_cpu : nat -> M emu unit) : M emu unit :=
  let* e := mget in
  if negb (breakdown (em_args e)) then mret tt else breakdown_rows sp connect_cpu.

Definition nosv_breakdown_connect (sp : bd_spec) : M emu unit :=
  let* e := mget in
  if negb (breakdown (em_args e)) then mret tt else
  let* bd := get_bd (bs_model sp) in
  if negb (bd_enabled bd) then mret tt else breakdown_rows sp (connect_bd_cpu sp).

(** ** End *)

(** The type of the view is not tested before its values are added. *)
Definition add_type_unchecked (id : Z) (label : string) : M pcf unit := fun p =>
  match pcf_add_type id label p with
  | (Ok _, p') => (Ok tt, p')
  | (_, p') => (Ub, p')
  end.

(** [task_create_pcf_types] for every process. *)
Definition add_task_types (m : ascii) (name : string) (type : Z) : M emu unit :=
  let* sys := get_sys in
  for_each (fun p =>
    let* ts := on_heap (load_tasks m p) in
    on_rec (on_pcf name (on_type type (task_create_pcf_types true (ts_types ts))))) (sys_procs sys).

(** [%4d]: padded on the left. *)
Definition pad_left (n : nat) (s : string) : string := spaces (n - String.length s) +:+ s.
Definition bd_row_name (nphycpus row : Z) : string := "~CPU " +:+ pad_left 4 (pretty (nphycpus - row)).

Definition name_bd_row (bd : breakdown_emu) (i : nat) : M emu unit :=
  let row := Z.of_nat i in
  let* name := row_name (bd_row_name (bd_nphycpus bd) row) in
  on_rec (on_prf (bd_pvt bd) (prf_add row name)).

(** [labels]: those of the channels whose values the view can show. *)
Definition breakdown_end (sp : bd_spec) (labels : list (list pcf_value_label)) : M emu unit :=
  let* bd := get_bd (bs_model sp) in
  on_rec (on_pcf (bd_pvt bd) (add_type_unchecked (bs_type sp) (bs_label sp))) ;;;
  for_each (fun l => on_rec (on_pcf (bd_pvt bd) (on_type (bs_type sp) (create_values (Some l))))) labels ;;;
  add_task_types (bs_model sp) (bd_pvt bd) (bs_type sp) ;;;
  for_each (name_bd_row bd) (seq 0 (Z.to_nat (bd_nphycpus bd))).

Definition breakdown_finish (sp : bd_spec) (labels : list (list pcf_value_label)) : M emu unit :=
  let* e := mget in
  if negb (breakdown (em_args e)) then mret tt else breakdown_end sp labels.

Definition nosv_breakdown_finish (sp : bd_spec) (labels : list (list pcf_value_label)) : M emu unit :=
  let* e := mget in
  if negb (breakdown (em_args e)) then mret tt else
  let* bd := get_bd (bs_model sp) in
  if negb (bd_enabled bd) then mret tt else breakdown_end sp labels.
