(* ===== verification/Specs.v ===== *)
(** * The channels of every model (src/emu/*/setup.c)

    What every model declares: the name of its channels, whether they are
    stacks and take duplicates, their type, name, flags and labels in the traces,
    and when they are shown. *)

From Stdlib Require Import Ascii.
From S2P Require Import Prelude Chan Pcf Heap Bay Mux Prv Thread Event OvniModel Recorder System Json Track ModelThread.
From S2P Require Import Mpi Tampi Nodes Kernel Nosv Nanos6 Openmp.

Definition val (v : Z) (label : string) : pcf_value_label := (v, label).

(** What the structure of a model has besides its channels and tracks, zeroed. *)
Definition zero_nothing (x : nat) : M heap unit := mret tt.
Definition zero_ovni_thread (t : nat) : M heap unit := put_ovni t (mk_ovni_thread 0 [] 0).

(** ** Ovni *)

Definition ovni_chan_name : list string := ["flush"]%string.
Definition ovni_chan_stack : list bool := [false].
Definition ovni_pvt_type : list Z := [PRV_OVNI_FLUSH].
Definition ovni_pcf_prefix : list string := ["Flushing ovni buffer"]%string.
Definition ovni_flushing_labels : list pcf_value_label := [val 1 "Flushing"].
Definition ovni_pcf_labels : list (option (list pcf_value_label)) := [Some ovni_flushing_labels].
Definition ovni_prv_flags : list Z := [PRV_SKIPDUP].
Definition ovni_pvt_spec : model_pvt_spec :=
  mk_model_pvt_spec ovni_pvt_type ovni_pcf_prefix (Some ovni_prv_flags) ovni_pcf_labels.
Definition ovni_th_track : list track_th := [TRACK_TH_ANY].
Definition ovni_th_chan : model_chan_spec :=
  mk_model_chan_spec 1 "ovni" ovni_chan_name ovni_chan_stack None ovni_pvt_spec ovni_th_track.
Definition ovni_cpu_track : list track_th := [TRACK_TH_RUN].
Definition ovni_cpu_chan : model_chan_spec :=
  mk_model_chan_spec 1 "ovni" ovni_chan_name ovni_chan_stack None ovni_pvt_spec ovni_cpu_track.
Definition ovni_th_spec : model_obj_spec := mk_model_obj_spec ovni_th_chan "O"%char "ovni" zero_ovni_thread.
Definition ovni_cpu_spec : model_obj_spec := mk_model_obj_spec ovni_cpu_chan "O"%char "ovni" zero_nothing.

(** ** NOS-V *)

Definition nosv_chan_name : list string :=
  [
    "bodyid"; "taskid"; "task_type"; "appid"; "subsystem"; "rank"; "idle"
  ]%string.
Definition nosv_chan_stack : list bool := [false; false; false; false; true; false; false].
Definition nosv_chan_dup : list Z := [1; 0; 1; 1; 1; 1; 0].
Definition nosv_pvt_type : list Z :=
  [
    PRV_NOSV_BODYID; PRV_NOSV_TASKID; PRV_NOSV_TYPE; PRV_NOSV_APPID; PRV_NOSV_SUBSYSTEM; PRV_NOSV_RANK;
    PRV_NOSV_IDLE
  ].
Definition nosv_pcf_prefix : list string :=
  [
    "nOS-V task body ID"; "nOS-V task ID"; "nOS-V task type"; "nOS-V task AppID"; "nOS-V subsystem";
    "nOS-V task MPI rank"; "nOS-V idle state"
  ]%string.
Definition nosv_ss_labels : list pcf_value_label :=
  [
    val Nosv.ST_UNKNOWN_SS "Unknown subsystem"; val Nosv.ST_SCHED_HUNGRY "Scheduler: Hungry";
    val Nosv.ST_SCHED_SERVING "Scheduler: Serving"; val Nosv.ST_SCHED_SUBMITTING "Scheduler: Submitting";
    val Nosv.ST_MEM_ALLOCATING "Memory: Allocating"; val Nosv.ST_MEM_FREEING "Memory: Freeing";
    val Nosv.ST_TASK_BODY "Task: In body"; val Nosv.ST_API_CREATE "API: Create";
    val Nosv.ST_API_DESTROY "API: Destroy"; val Nosv.ST_API_SUBMIT "API: Submit";
    val Nosv.ST_API_PAUSE "API: Pause"; val Nosv.ST_API_YIELD "API: Yield";
    val Nosv.ST_API_WAITFOR "API: Waitfor"; val Nosv.ST_API_SCHEDPOINT "API: Scheduling point";
    val Nosv.ST_API_ATTACH "API: Attach"; val Nosv.ST_API_DETACH "API: Detach";
    val Nosv.ST_API_MUTEX_LOCK "API: Mutex lock"; val Nosv.ST_API_MUTEX_TRYLOCK "API: Mutex trylock";
    val Nosv.ST_API_MUTEX_UNLOCK "API: Mutex unlock"; val Nosv.ST_API_BARRIER_WAIT "API: Barrier wait";
    val Nosv.ST_API_COND_WAIT "API: Cond wait"; val Nosv.ST_API_COND_SIGNAL "API: Cond signal";
    val Nosv.ST_API_COND_BCAST "API: Cond broadcast"; val Nosv.ST_WORKER "Thread: Worker";
    val Nosv.ST_DELEGATE "Thread: Delegate"; val Nosv.EV_SCHED_SEND "EV Scheduler: Send task";
    val Nosv.EV_SCHED_RECV "EV Scheduler: Recv task"; val Nosv.EV_SCHED_SELF "EV Scheduler: Self-assign task"
  ].
Definition nosv_worker_idle_labels : list pcf_value_label :=
  [
    val Nosv.ST_PROGRESSING "Progressing"; val Nosv.ST_RESTING "Resting";
    val Nosv.ST_ABSORBING "Absorbing noise"
  ].
Definition nosv_pcf_labels : list (option (list pcf_value_label)) :=
  [
    None; None; None; None; Some nosv_ss_labels; None; Some nosv_worker_idle_labels
  ].
Definition nosv_prv_flags : list Z :=
  [
    PRV_SKIPDUPNULL; PRV_SKIPDUPNULL; PRV_SKIPDUPNULL; PRV_SKIPDUPNULL; PRV_SKIPDUPNULL; PRV_SKIPDUPNULL;
    PRV_SKIPDUPNULL
  ].
Definition nosv_pvt_spec : model_pvt_spec :=
  mk_model_pvt_spec nosv_pvt_type nosv_pcf_prefix (Some nosv_prv_flags) nosv_pcf_labels.
Definition nosv_th_track : list track_th :=
  [
    TRACK_TH_RUN; TRACK_TH_RUN; TRACK_TH_RUN; TRACK_TH_RUN; TRACK_TH_ACT; TRACK_TH_RUN; TRACK_TH_RUN
  ].
Definition nosv_th_chan : model_chan_spec :=
  mk_model_chan_spec 7 "nosv" nosv_chan_name nosv_chan_stack (Some nosv_chan_dup) nosv_pvt_spec nosv_th_track.
Definition nosv_cpu_track : list track_th :=
  [
    TRACK_TH_RUN; TRACK_TH_RUN; TRACK_TH_RUN; TRACK_TH_RUN; TRACK_TH_RUN; TRACK_TH_RUN; TRACK_TH_RUN
  ].
Definition nosv_cpu_chan : model_chan_spec :=
  mk_model_chan_spec 7 "nosv" nosv_chan_name nosv_chan_stack None nosv_pvt_spec nosv_cpu_track.
Definition nosv_th_spec : model_obj_spec := mk_model_obj_spec nosv_th_chan "V"%char "nosv" zero_nothing.
Definition nosv_cpu_spec : model_obj_spec := mk_model_obj_spec nosv_cpu_chan "V"%char "nosv" zero_nothing.

(** ** Nanos6 *)

Definition nanos6_chan_name : list string :=
  [
    "taskid"; "task_type"; "subsystem"; "rank"; "thread_type"; "idle"
  ]%string.
Definition nanos6_chan_stack : list bool := [false; false; true; false; true; false].
Definition nanos6_chan_dup : list Z := [0; 1; 0; 1; 0; 0].
Definition nanos6_pvt_type : list Z :=
  [
    PRV_NANOS6_TASKID; PRV_NANOS6_TYPE; PRV_NANOS6_SUBSYSTEM; PRV_NANOS6_RANK; PRV_NANOS6_THREAD;
    PRV_NANOS6_IDLE
  ].
Definition nanos6_pcf_prefix : list string :=
  [
    "Nanos6 task ID"; "Nanos6 task type"; "Nanos6 subsystem"; "Nanos6 task MPI rank"; "Nanos6 thread type";
    "Nanos6 idle state"
  ]%string.
Definition nanos6_ss_labels : list pcf_value_label :=
  [
    val Nanos6.ST_UNKNOWN_SS "Unknown subsystem"; val Nanos6.ST_TASK_BODY "Task: Running body";
    val Nanos6.ST_TASK_CREATING "Task: Creating"; val Nanos6.ST_TASK_SUBMIT "Task: Submitting";
    val Nanos6.ST_TASK_SPAWNING "Task: Spawning function"; val Nanos6.ST_TASK_FOR "Task: Running task for";
    val Nanos6.ST_SCHED_SERVING "Scheduler: Serving tasks";
    val Nanos6.ST_SCHED_ADDING "Scheduler: Adding ready tasks";
    val Nanos6.ST_SCHED_PROCESSING "Scheduler: Processing ready tasks";
    val Nanos6.ST_DEP_REG "Dependency: Registering"; val Nanos6.ST_DEP_UNREG "Dependency: Unregistering";
    val Nanos6.ST_BLK_TASKWAIT "Blocking: Taskwait";
    val Nanos6.ST_BLK_BLOCKING "Blocking: Blocking current task";
    val Nanos6.ST_BLK_UNBLOCKING "Blocking: Unblocking remote task";
    val Nanos6.ST_BLK_WAITFOR "Blocking: Wait for deadline";
    val Nanos6.ST_HANDLING_TASK "Worker: Handling task"; val Nanos6.ST_WORKER_LOOP "Worker: Looking for work";
    val Nanos6.ST_SWITCH_TO "Worker: Switching to another thread";
    val Nanos6.ST_MIGRATE "Worker: Migrating CPU"; val Nanos6.ST_SUSPEND "Worker: Suspending thread";
    val Nanos6.ST_RESUME "Worker: Resuming another thread"; val Nanos6.ST_SPONGE "Worker: Sponge mode";
    val Nanos6.ST_ALLOCATING "Memory: Allocating"; val Nanos6.ST_FREEING "Memory: Freeing";
    val Nanos6.EV_SCHED_SEND "EV Scheduler: Send task"; val Nanos6.EV_SCHED_RECV "EV Scheduler: Recv task";
    val Nanos6.EV_SCHED_SELF "EV Scheduler: Self-assign task"; val Nanos6.EV_CPU_IDLE "EV CPU: Becomes idle";
    val Nanos6.EV_CPU_ACTIVE "EV CPU: Becomes active"; val Nanos6.EV_SIGNAL "EV Worker: Waking another thread"
  ].
Definition nanos6_thread_type_labels : list pcf_value_label :=
  [
    val Nanos6.ST_TH_EXTERNAL "External"; val Nanos6.ST_TH_WORKER "Worker"; val Nanos6.ST_TH_LEADER "Leader";
    val Nanos6.ST_TH_MAIN "Main"
  ].
Definition nanos6_worker_idle_labels : list pcf_value_label :=
  [
    val Nanos6.ST_PROGRESSING "Progressing"; val Nanos6.ST_RESTING "Resting";
    val Nanos6.ST_ABSORBING "Absorbing noise"
  ].
Definition nanos6_pcf_labels : list (option (list pcf_value_label)) :=
  [
    None; None; Some nanos6_ss_labels; None; Some nanos6_thread_type_labels; Some nanos6_worker_idle_labels
  ].
Definition nanos6_prv_flags : list Z :=
  [
    PRV_SKIPDUP; PRV_EMITDUP; PRV_SKIPDUP; PRV_EMITDUP; PRV_SKIPDUP; PRV_SKIPDUP
  ].
Definition nanos6_pvt_spec : model_pvt_spec :=
  mk_model_pvt_spec nanos6_pvt_type nanos6_pcf_prefix (Some nanos6_prv_flags) nanos6_pcf_labels.
Definition nanos6_th_track : list track_th :=
  [
    TRACK_TH_RUN; TRACK_TH_RUN; TRACK_TH_ACT; TRACK_TH_RUN; TRACK_TH_ANY; TRACK_TH_RUN
  ].
Definition nanos6_th_chan : model_chan_spec :=
  mk_model_chan_spec 6 "nanos6" nanos6_chan_name nanos6_chan_stack (Some nanos6_chan_dup) nanos6_pvt_spec nanos6_th_track.
Definition nanos6_cpu_track : list track_th :=
  [
    TRACK_TH_RUN; TRACK_TH_RUN; TRACK_TH_RUN; TRACK_TH_RUN; TRACK_TH_RUN; TRACK_TH_RUN
  ].
Definition nanos6_cpu_chan : model_chan_spec :=
  mk_model_chan_spec 6 "nanos6" nanos6_chan_name nanos6_chan_stack (Some nanos6_chan_dup) nanos6_pvt_spec nanos6_cpu_track.
Definition nanos6_th_spec : model_obj_spec := mk_model_obj_spec nanos6_th_chan "6"%char "nanos6" zero_nothing.
Definition nanos6_cpu_spec : model_obj_spec := mk_model_obj_spec nanos6_cpu_chan "6"%char "nanos6" zero_nothing.

(** ** OpenMP *)

Definition openmp_chan_name : list string := ["subsystem"; "label"; "task ID"]%string.
Definition openmp_chan_stack : list bool := [true; true; true].
Definition openmp_chan_dup : list Z := [1; 1; 1].
Definition openmp_pvt_type : list Z := [PRV_OPENMP_SUBSYSTEM; PRV_OPENMP_LABEL; PRV_OPENMP_TASKID].
Definition openmp_pcf_prefix : list string := ["OpenMP subsystem"; "OpenMP label"; "OpenMP task ID"]%string.
Definition openmp_subsystem_labels : list pcf_value_label :=
  [
    val Openmp.ST_WD_DISTRIBUTE "Work-distribution: Distribute";
    val Openmp.ST_WD_FOR_DYNAMIC_CHUNK "Work-distribution: Dynamic for chunk";
    val Openmp.ST_WD_FOR_DYNAMIC_INIT "Work-distribution: Dynamic for initialization";
    val Openmp.ST_WD_FOR_STATIC "Work-distribution: Static for chunk";
    val Openmp.ST_WD_SECTION "Work-distribution: Section"; val Openmp.ST_WD_SINGLE "Work-distribution: Single";
    val Openmp.ST_TASK_ALLOC "Task: Allocation"; val Openmp.ST_TASK_CHECK_DEPS "Task: Check deps";
    val Openmp.ST_TASK_DUP_ALLOC "Task: Duplicating"; val Openmp.ST_TASK_RELEASE_DEPS "Task: Releasing deps";
    val Openmp.ST_TASK_RUN "Task: Running task"; val Openmp.ST_TASK_RUN_IF0 "Task: Running task if0";
    val Openmp.ST_TASK_SCHEDULE "Task: Scheduling"; val Openmp.ST_TASK_TASKGROUP "Task: Taskgroup";
    val Openmp.ST_TASK_TASKWAIT "Task: Taskwait"; val Openmp.ST_TASK_TASKWAIT_DEPS "Task: Taskwait deps";
    val Openmp.ST_TASK_TASKYIELD "Task: Taskyield"; val Openmp.ST_CRITICAL_ACQ "Critical: Acquiring";
    val Openmp.ST_CRITICAL_REL "Critical: Releasing"; val Openmp.ST_CRITICAL_SECTION "Critical: Section";
    val Openmp.ST_BARRIER_FORK "Barrier: Fork"; val Openmp.ST_BARRIER_JOIN "Barrier: Join";
    val Openmp.ST_BARRIER_PLAIN "Barrier: Plain"; val Openmp.ST_BARRIER_TASK "Barrier: Task";
    val Openmp.ST_BARRIER_SPIN_WAIT "Barrier: Spin wait"; val Openmp.ST_RT_ATTACHED "Runtime: Attached";
    val Openmp.ST_RT_FORK_CALL "Runtime: Fork call"; val Openmp.ST_RT_INIT "Runtime: Initialization";
    val Openmp.ST_RT_MICROTASK_INTERNAL "Runtime: Internal microtask";
    val Openmp.ST_RT_MICROTASK_USER "Runtime: User microtask";
    val Openmp.ST_RT_WORKER_LOOP "Runtime: Worker main loop"
  ].
Definition openmp_pcf_labels : list (option (list pcf_value_label)) :=
  [
    Some openmp_subsystem_labels; None; None
  ].
Definition openmp_prv_flags : list Z := [PRV_SKIPDUPNULL; PRV_SKIPDUPNULL; PRV_SKIPDUPNULL].
Definition openmp_pvt_spec : model_pvt_spec :=
  mk_model_pvt_spec openmp_pvt_type openmp_pcf_prefix (Some openmp_prv_flags) openmp_pcf_labels.
Definition openmp_th_track : list track_th := [TRACK_TH_ACT; TRACK_TH_ACT; TRACK_TH_ACT].
Definition openmp_th_chan : model_chan_spec :=
  mk_model_chan_spec 3 "openmp" openmp_chan_name openmp_chan_stack (Some openmp_chan_dup) openmp_pvt_spec openmp_th_track.
Definition openmp_cpu_track : list track_th := [TRACK_TH_RUN; TRACK_TH_RUN; TRACK_TH_RUN].
Definition openmp_cpu_chan : model_chan_spec :=
  mk_model_chan_spec 3 "openmp" openmp_chan_name openmp_chan_stack (Some openmp_chan_dup) openmp_pvt_spec openmp_cpu_track.
Definition openmp_th_spec : model_obj_spec := mk_model_obj_spec openmp_th_chan "P"%char "openmp" zero_nothing.
Definition openmp_cpu_spec : model_obj_spec := mk_model_obj_spec openmp_cpu_chan "P"%char "openmp" zero_nothing.

(** ** MPI *)

Definition mpi_chan_name : list string := ["function"]%string.
Definition mpi_chan_stack : list bool := [true].
Definition mpi_pvt_type : list Z := [PRV_MPI_FUNCTION].
Definition mpi_pcf_prefix : list string := ["MPI function"]%string.
Definition mpi_function_labels : list pcf_value_label :=
  [
    val Mpi.ST_MPI_INIT "MPI_Init"; val Mpi.ST_MPI_INIT_THREAD "MPI_Init_thread";
    val Mpi.ST_MPI_FINALIZE "MPI_Finalize"; val Mpi.ST_MPI_WAIT "MPI_Wait";
    val Mpi.ST_MPI_WAITALL "MPI_Waitall"; val Mpi.ST_MPI_WAITANY "MPI_Waitany";
    val Mpi.ST_MPI_WAITSOME "MPI_Waitsome"; val Mpi.ST_MPI_TEST "MPI_Test";
    val Mpi.ST_MPI_TESTALL "MPI_Testall"; val Mpi.ST_MPI_TESTANY "MPI_Testany";
    val Mpi.ST_MPI_TESTSOME "MPI_Testsome"; val Mpi.ST_MPI_RECV "MPI_Recv"; val Mpi.ST_MPI_SEND "MPI_Send";
    val Mpi.ST_MPI_BSEND "MPI_Bsend"; val Mpi.ST_MPI_RSEND "MPI_Rsend"; val Mpi.ST_MPI_SSEND "MPI_Ssend";
    val Mpi.ST_MPI_SENDRECV "MPI_Sendrecv"; val Mpi.ST_MPI_SENDRECV_REPLACE "MPI_Sendrecv_replace";
    val Mpi.ST_MPI_IRECV "MPI_Irecv"; val Mpi.ST_MPI_ISEND "MPI_Isend"; val Mpi.ST_MPI_IBSEND "MPI_Ibsend";
    val Mpi.ST_MPI_IRSEND "MPI_Irsend"; val Mpi.ST_MPI_ISSEND "MPI_Issend";
    val Mpi.ST_MPI_ISENDRECV "MPI_Isendrecv"; val Mpi.ST_MPI_ISENDRECV_REPLACE "MPI_Isendrecv_replace";
    val Mpi.ST_MPI_ALLGATHER "MPI_Allgather"; val Mpi.ST_MPI_ALLREDUCE "MPI_Allreduce";
    val Mpi.ST_MPI_ALLTOALL "MPI_Alltoall"; val Mpi.ST_MPI_BARRIER "MPI_Barrier";
    val Mpi.ST_MPI_BCAST "MPI_Bcast"; val Mpi.ST_MPI_GATHER "MPI_Gather"; val Mpi.ST_MPI_REDUCE "MPI_Reduce";
    val Mpi.ST_MPI_REDUCE_SCATTER "MPI_Reduce_scatter";
    val Mpi.ST_MPI_REDUCE_SCATTER_BLOCK "MPI_Reduce_scatter_block"; val Mpi.ST_MPI_SCATTER "MPI_Scatter";
    val Mpi.ST_MPI_SCAN "MPI_Scan"; val Mpi.ST_MPI_EXSCAN "MPI_Exscan";
    val Mpi.ST_MPI_IALLGATHER "MPI_Iallgather"; val Mpi.ST_MPI_IALLREDUCE "MPI_Iallreduce";
    val Mpi.ST_MPI_IALLTOALL "MPI_Ialltoall"; val Mpi.ST_MPI_IBARRIER "MPI_Ibarrier";
    val Mpi.ST_MPI_IBCAST "MPI_Ibcast"; val Mpi.ST_MPI_IGATHER "MPI_Igather";
    val Mpi.ST_MPI_IREDUCE "MPI_Ireduce"; val Mpi.ST_MPI_IREDUCE_SCATTER "MPI_Ireduce_scatter";
    val Mpi.ST_MPI_IREDUCE_SCATTER_BLOCK "MPI_Ireduce_scatter_block"; val Mpi.ST_MPI_ISCATTER "MPI_Iscatter";
    val Mpi.ST_MPI_ISCAN "MPI_Iscan"; val Mpi.ST_MPI_IEXSCAN "MPI_Iexscan"
  ].
Definition mpi_pcf_labels : list (option (list pcf_value_label)) := [Some mpi_function_labels].
Definition mpi_prv_flags : list Z := [PRV_SKIPDUP].
Definition mpi_pvt_spec : model_pvt_spec :=
  mk_model_pvt_spec mpi_pvt_type mpi_pcf_prefix (Some mpi_prv_flags) mpi_pcf_labels.
Definition mpi_th_track : list track_th := [TRACK_TH_RUN].
Definition mpi_th_chan : model_chan_spec :=
  mk_model_chan_spec 1 "mpi" mpi_chan_name mpi_chan_stack None mpi_pvt_spec mpi_th_track.
Definition mpi_cpu_track : list track_th := [TRACK_TH_RUN].
Definition mpi_cpu_chan : model_chan_spec :=
  mk_model_chan_spec 1 "mpi" mpi_chan_name mpi_chan_stack None mpi_pvt_spec mpi_cpu_track.
Definition mpi_th_spec : model_obj_spec := mk_model_obj_spec mpi_th_chan "M"%char "mpi" zero_nothing.
Definition mpi_cpu_spec : model_obj_spec := mk_model_obj_spec mpi_cpu_chan "M"%char "mpi" zero_nothing.

(** ** TAMPI *)

Definition tampi_chan_name : list string := ["subsystem"]%string.
Definition tampi_chan_stack : list bool := [true].
Definition tampi_pvt_type : list Z := [PRV_TAMPI_SUBSYSTEM].
Definition tampi_pcf_prefix : list string := ["TAMPI subsystem"]%string.
Definition tampi_ss_labels : list pcf_value_label :=
  [
    val Tampi.ST_COMM_ISSUE_NONBLOCKING "Communication: Issuing a non-blocking operation";
    val Tampi.ST_GLOBAL_ARRAY_CHECK "Global array: Checking pending requests";
    val Tampi.ST_LIBRARY_INTERFACE "Library code: Interface function";
    val Tampi.ST_LIBRARY_POLLING "Library code: Polling function";
    val Tampi.ST_QUEUE_ADD "Queue: Adding to a queue";
    val Tampi.ST_QUEUE_TRANSFER "Queue: Transfering to global array";
    val Tampi.ST_REQUEST_TEST "Request: Testing a request";
    val Tampi.ST_REQUEST_COMPLETED "Request: Processing a completed request";
    val Tampi.ST_REQUEST_TESTALL "Request: Testing all requests";
    val Tampi.ST_REQUEST_TESTSOME "Request: Testing some requests";
    val Tampi.ST_TICKET_CREATE "Ticket: Creating a ticket"; val Tampi.ST_TICKET_WAIT "Ticket: Waiting a ticket"
  ].
Definition tampi_pcf_labels : list (option (list pcf_value_label)) := [Some tampi_ss_labels].
Definition tampi_prv_flags : list Z := [PRV_SKIPDUP].
Definition tampi_pvt_spec : model_pvt_spec :=
  mk_model_pvt_spec tampi_pvt_type tampi_pcf_prefix (Some tampi_prv_flags) tampi_pcf_labels.
Definition tampi_th_track : list track_th := [TRACK_TH_ACT].
Definition tampi_th_chan : model_chan_spec :=
  mk_model_chan_spec 1 "tampi" tampi_chan_name tampi_chan_stack None tampi_pvt_spec tampi_th_track.
Definition tampi_cpu_track : list track_th := [TRACK_TH_RUN].
Definition tampi_cpu_chan : model_chan_spec :=
  mk_model_chan_spec 1 "tampi" tampi_chan_name tampi_chan_stack None tampi_pvt_spec tampi_cpu_track.
Definition tampi_th_spec : model_obj_spec := mk_model_obj_spec tampi_th_chan "T"%char "tampi" zero_nothing.
Definition tampi_cpu_spec : model_obj_spec := mk_model_obj_spec tampi_cpu_chan "T"%char "tampi" zero_nothing.

(** ** NODES *)

Definition nodes_chan_name : list string := ["subsystem"]%string.
Definition nodes_chan_stack : list bool := [true].
Definition nodes_pvt_type : list Z := [PRV_NODES_SUBSYSTEM].
Definition nodes_pcf_prefix : list string := ["NODES subsystem"]%string.
Definition nodes_ss_labels : list pcf_value_label :=
  [
    val Nodes.ST_REGISTER "Dependencies: Registering task accesses";
    val Nodes.ST_UNREGISTER "Dependencies: Unregistering task accesses";
    val Nodes.ST_IF0_WAIT "If0: Waiting for an If0 task";
    val Nodes.ST_IF0_INLINE "If0: Executing an If0 task inline"; val Nodes.ST_TASKWAIT "Taskwait: Taskwait";
    val Nodes.ST_CREATE "Add Task: Creating a task"; val Nodes.ST_SUBMIT "Add Task: Submitting a task";
    val Nodes.ST_SPAWN "Spawn Function: Spawning a function"
  ].
Definition nodes_pcf_labels : list (option (list pcf_value_label)) := [Some nodes_ss_labels].
Definition nodes_prv_flags : list Z := [PRV_SKIPDUP].
Definition nodes_pvt_spec : model_pvt_spec :=
  mk_model_pvt_spec nodes_pvt_type nodes_pcf_prefix (Some nodes_prv_flags) nodes_pcf_labels.
Definition nodes_th_track : list track_th := [TRACK_TH_ACT].
Definition nodes_th_chan : model_chan_spec :=
  mk_model_chan_spec 1 "nodes" nodes_chan_name nodes_chan_stack None nodes_pvt_spec nodes_th_track.
Definition nodes_cpu_track : list track_th := [TRACK_TH_RUN].
Definition nodes_cpu_chan : model_chan_spec :=
  mk_model_chan_spec 1 "nodes" nodes_chan_name nodes_chan_stack None nodes_pvt_spec nodes_cpu_track.
Definition nodes_th_spec : model_obj_spec := mk_model_obj_spec nodes_th_chan "D"%char "nodes" zero_nothing.
Definition nodes_cpu_spec : model_obj_spec := mk_model_obj_spec nodes_cpu_chan "D"%char "nodes" zero_nothing.

(** ** The kernel *)

Definition kernel_chan_name : list string := ["context_switch"]%string.
Definition kernel_chan_stack : list bool := [true].
Definition kernel_pvt_type : list Z := [PRV_KERNEL_CS].
Definition kernel_pcf_prefix : list string := ["Kernel context switch"]%string.
Definition kernel_cs_labels : list pcf_value_label := [val Kernel.ST_CSOUT "Context switch: Out of the CPU"].
Definition kernel_pcf_labels : list (option (list pcf_value_label)) := [Some kernel_cs_labels].
Definition kernel_prv_flags : list Z := [PRV_SKIPDUP].
Definition kernel_pvt_spec : model_pvt_spec :=
  mk_model_pvt_spec kernel_pvt_type kernel_pcf_prefix (Some kernel_prv_flags) kernel_pcf_labels.
Definition kernel_th_track : list track_th := [TRACK_TH_ANY].
Definition kernel_th_chan : model_chan_spec :=
  mk_model_chan_spec 1 "kernel" kernel_chan_name kernel_chan_stack None kernel_pvt_spec kernel_th_track.
Definition kernel_cpu_track : list track_th := [TRACK_TH_RUN].
Definition kernel_cpu_chan : model_chan_spec :=
  mk_model_chan_spec 1 "kernel" kernel_chan_name kernel_chan_stack None kernel_pvt_spec kernel_cpu_track.
Definition kernel_th_spec : model_obj_spec := mk_model_obj_spec kernel_th_chan "K"%char "kernel" zero_nothing.
Definition kernel_cpu_spec : model_obj_spec := mk_model_obj_spec kernel_cpu_chan "K"%char "kernel" zero_nothing.

(** ** Xtasks (FPGA) *)

Definition xtasks_chan_name : list string := ["subsystem"]%string.
Definition xtasks_chan_stack : list bool := [true].
Definition xtasks_pvt_type : list Z := [PRV_XTASKS_SUBSYSTEM].
Definition xtasks_pcf_prefix : list string := ["FPGA xtasks subsystem"]%string.
Definition xtasks_ss_labels : list pcf_value_label :=
  [
    val 1 "Waiting for tasks"; val 2 "Seting lock"; val 3 "Unseting lock"; val 5 "Creating task";
    val 78 "Copying in localmem"; val 79 "Copying out localmem"; val 80 "Running user task";
    val 6660 "Reverse Offload user task"
  ].
Definition xtasks_pcf_labels : list (option (list pcf_value_label)) := [Some xtasks_ss_labels].
Definition xtasks_prv_flags : list Z := [0].
Definition xtasks_pvt_spec : model_pvt_spec :=
  mk_model_pvt_spec xtasks_pvt_type xtasks_pcf_prefix (Some xtasks_prv_flags) xtasks_pcf_labels.
Definition xtasks_th_track : list track_th := [TRACK_TH_ANY].
Definition xtasks_th_chan : model_chan_spec :=
  mk_model_chan_spec 1 "xtasks" xtasks_chan_name xtasks_chan_stack None xtasks_pvt_spec xtasks_th_track.
Definition xtasks_th_spec : model_obj_spec := mk_model_obj_spec xtasks_th_chan "X"%char "xtasks" zero_nothing.
