(* ===== verification/Setups.v ===== *)
(** * Set-up and end of every model (src/emu/*/setup.c), the emulator (emu.c)

    The hooks with which every model creates and connects its channels and ends,
    the list of models, and the functions of the emulator that run them. *)

From Stdlib Require Import Ascii.
From S2P Require Import Prelude Chan Pcf Task Heap Bay Mux Sort Prv Dispatch Thread Loom Event EvLists OvniModel Model Emu.
From S2P Require Import Table Mpi Tampi Nodes Kernel TaskModel Nosv Nanos6 Openmp Stream Recorder System Ready Json.
From S2P Require Import Track ModelThread Mark Hwc Breakdown Specs.

(** ** What the hooks share *)

(** [model_version_probe] for the version [version]. *)
Definition version_probe (name version : string) : M emu Z :=
  let* e := mget in
  let* metas := deref (mapM (em_thread_meta e) (sys_threads (st_sys (em_sys e)))) in
  fun s => (model_version_probe name version (map require_of metas), s).

Definition channels_create (th : model_obj_spec) (cpu : model_obj_spec) : M emu unit :=
  model_thread_create th ;;; model_cpu_create cpu.
Definition channels_connect (th : model_obj_spec) (cpu : model_obj_spec) : M emu unit :=
  model_thread_connect th ;;; model_cpu_connect cpu.

(** No thread ends with states on the stack of its channel [i]. *)
Definition end_lint (m : ascii) (i : nat) : M emu unit :=
  let* sys := get_sys in
  for_each (fun t =>
    let* c := on_heap (load (model_chan m t i)) in
    match c_stack c with [] => mret tt | _ => mfail end) (sys_threads sys).

(** The check of every model but nOS-V: only at the end of the complete trace. *)
Definition end_lint_finished (m : ascii) (i : nat) : M emu unit :=
  let* e := mget in if negb (em_finished e) then mret tt else end_lint m i.

Definition lint (check : M emu unit) : M emu unit :=
  let* e := mget in if linter_mode (em_args e) then check else mret tt.

(** [init_proc] of the task models. *)
Definition init_procs (m : ascii) : M emu unit :=
  let* sys := get_sys in
  for_each (fun p => on_heap (mmod (set_h_tasks <[(ch m, p) := mk_tasks [] ∅ ∅ ∅]>))) (sys_procs sys) ;;;
  put_bd m breakdown_zero.

(** [finish_pvt]: the types of the tasks in the type [type] of a trace. *)
Definition finish_pvt (m : ascii) (type : Z) (name : string) : M emu unit :=
  let* _ := find_pvt name in add_task_types m name type.

(** The default state of threads and of CPUs without a running thread. *)
Definition set_idle (m : ascii) (i : nat) (progressing resting : Z) : M emu unit :=
  let* sys := get_sys in
  for_each (fun t => on_heap (chan_set (model_chan m t i) (value_int64 progressing))) (sys_threads sys) ;;;
  for_each (fun c =>
    let* n := cpu_tracks m c in
    let* tk := load_track n i in
    on_heap (mux_set_default (tk_mux tk) (value_int64 resting))) (sys_cpus sys).

(** ** ovni *)

Definition model_ovni_probe : M emu Z := let* _ := version_probe "ovni" "1.1.0" in mret 1.
Definition model_ovni_create : M emu unit := channels_create ovni_th_spec ovni_cpu_spec ;;; mark_create.
Definition model_ovni_connect : M emu unit := channels_connect ovni_th_spec ovni_cpu_spec ;;; mark_connect.

(** All threads are checked before the error is returned. *)
Fixpoint all_dead (threads : list nat) (ok : bool) : M heap unit :=
  match threads with
  | [] => require ok
  | t :: threads' => let* th := load_thread t in all_dead threads' (ok && bool_decide (t_state th = TH_ST_DEAD))
  end.
Definition model_ovni_finish : M emu unit :=
  let* e := mget in
  if negb (em_finished e) then mret tt else on_heap (all_dead (sys_threads (st_sys (em_sys e))) true).

(** ** nOS-V *)

Definition nosv_bd : bd_spec :=
  mk_bd_spec "V" "nosv" PRV_NOSV_BREAKDOWN "CPU: nOS-V Runtime/Idle/Task breakdown" Nosv.ST_TASK_BODY Nosv.ST_UNKNOWN_SS
    Nosv.ST_PROGRESSING Nosv.CH_SUBSYSTEM Nosv.CH_TYPE Nosv.CH_IDLE.

Definition model_nosv_probe : M emu Z := version_probe "nosv" "2.6.0".
Definition model_nosv_create : M emu unit :=
  channels_create nosv_th_spec nosv_cpu_spec ;;;
  init_procs "V" ;;;
  on_heap (mmod (set_h_hwc (fun _ => mk_nosv_hwc_emu [] 0 []))) ;;;
  nosv_breakdown_create nosv_bd ;;;
  hwc_create.
Definition model_nosv_connect : M emu unit :=
  channels_connect nosv_th_spec nosv_cpu_spec ;;;
  nosv_breakdown_connect nosv_bd ;;;
  hwc_connect ;;;
  set_idle "V" Nosv.CH_IDLE Nosv.ST_PROGRESSING Nosv.ST_RESTING.

Definition nosv_finish_pvt (name : string) : M emu unit :=
  let* e := mget in
  if negb (em_finished e) then mret tt else
  let* pvt := find_pvt name in
  let* _ := found (pcf_find_type (pvt_pcf pvt) PRV_NOSV_TYPE) in
  add_task_types "V" name PRV_NOSV_TYPE.
Definition model_nosv_finish : M emu unit :=
  nosv_finish_pvt "thread" ;;;
  nosv_finish_pvt "cpu" ;;;
  nosv_breakdown_finish nosv_bd [nosv_ss_labels; nosv_worker_idle_labels] ;;;
  hwc_finish ;;;
  lint (end_lint "V" Nosv.CH_SUBSYSTEM).

(** ** Nanos6 *)

Definition nanos6_bd : bd_spec :=
  mk_bd_spec "6" "nanos6" PRV_NANOS6_BREAKDOWN "CPU: Nanos6 Runtime/Idle/Task breakdown" Nanos6.ST_TASK_BODY
    Nanos6.ST_UNKNOWN_SS Nanos6.ST_PROGRESSING Nanos6.CH_SUBSYSTEM Nanos6.CH_TYPE Nanos6.CH_IDLE.

Definition model_nanos6_probe : M emu Z := version_probe "nanos6" "1.1.0".
Definition model_nanos6_create : M emu unit :=
  channels_create nanos6_th_spec nanos6_cpu_spec ;;;
  init_procs "6" ;;;
  breakdown_create nanos6_bd (create_bd_cpu nanos6_bd).
Definition model_nanos6_connect : M emu unit :=
  channels_connect nanos6_th_spec nanos6_cpu_spec ;;;
  breakdown_connect nanos6_bd (connect_bd_cpu nanos6_bd) ;;;
  set_idle "6" Nanos6.CH_IDLE Nanos6.ST_PROGRESSING Nanos6.ST_RESTING.
Definition model_nanos6_finish : M emu unit :=
  finish_pvt "6" PRV_NANOS6_TYPE "thread" ;;;
  finish_pvt "6" PRV_NANOS6_TYPE "cpu" ;;;
  breakdown_finish nanos6_bd [nanos6_ss_labels; nanos6_worker_idle_labels] ;;;
  lint (end_lint_finished "6" Nanos6.CH_SUBSYSTEM).

(** ** OpenMP *)

Definition openmp_bd : bd_spec :=
  mk_bd_spec "P" "openmp" PRV_OPENMP_BREAKDOWN "CPU: OpenMP Runtime/Label breakdown" 0 0 0 Openmp.CH_SUBSYSTEM
    Openmp.CH_LABEL 0.

Definition model_openmp_probe : M emu Z := version_probe "openmp" "1.2.1".
Definition model_openmp_create : M emu unit :=
  channels_create openmp_th_spec openmp_cpu_spec ;;;
  init_procs "P" ;;;
  breakdown_create openmp_bd (create_bd_cpu_one openmp_bd).
Definition model_openmp_connect : M emu unit :=
  channels_connect openmp_th_spec openmp_cpu_spec ;;;
  breakdown_connect openmp_bd (connect_bd_cpu_one openmp_bd).
Definition model_openmp_finish : M emu unit :=
  finish_pvt "P" PRV_OPENMP_LABEL "thread" ;;;
  finish_pvt "P" PRV_OPENMP_LABEL "cpu" ;;;
  breakdown_finish openmp_bd [openmp_subsystem_labels] ;;;
  lint (end_lint_finished "P" Openmp.CH_SUBSYSTEM).

(** ** MPI, TAMPI, NODES and the kernel *)

Definition model_mpi_probe : M emu Z := version_probe "mpi" "1.0.0".
Definition model_mpi_create : M emu unit := channels_create mpi_th_spec mpi_cpu_spec.
Definition model_mpi_connect : M emu unit := channels_connect mpi_th_spec mpi_cpu_spec.
Definition model_mpi_finish : M emu unit := lint (end_lint_finished "M" Mpi.CH_FUNCTION).

Definition model_tampi_probe : M emu Z := version_probe "tampi" "1.0.0".
Definition model_tampi_create : M emu unit := channels_create tampi_th_spec tampi_cpu_spec.
Definition model_tampi_connect : M emu unit := channels_connect tampi_th_spec tampi_cpu_spec.
Definition model_tampi_finish : M emu unit := lint (end_lint_finished "T" Tampi.CH_SUBSYSTEM).

Definition model_nodes_probe : M emu Z := version_probe "nodes" "1.0.0".
Definition model_nodes_create : M emu unit := channels_create nodes_th_spec nodes_cpu_spec.
Definition model_nodes_connect : M emu unit := channels_connect nodes_th_spec nodes_cpu_spec.
Definition model_nodes_finish : M emu unit := lint (end_lint_finished "D" Nodes.CH_SUBSYSTEM).

Definition model_kernel_probe : M emu Z := version_probe "kernel" "1.0.0".
Definition model_kernel_create : M emu unit := channels_create kernel_th_spec kernel_cpu_spec.
Definition model_kernel_connect : M emu unit := channels_connect kernel_th_spec kernel_cpu_spec.

(** ** The FPGA

    Its channels are those of threads; it is not connected with the others but
    by its first event. *)

Definition model_xtasks_probe : M emu Z := version_probe "xtasks" "1.0.0".
Definition model_xtasks_create : M emu unit := model_thread_create xtasks_th_spec.
Definition model_xtasks_connect : M emu unit := model_thread_connect xtasks_th_spec.
Definition model_xtasks_finish : M emu unit := mret tt.

(** ** The list of models (models.c) *)

Definition model_ovni : model_spec emu :=
  mk_model_spec (Some "ovni"%string) (Some "1.1.0"%string) (ch "O") (Some ovni_evlist) None (Some model_ovni_probe)
    (Some model_ovni_create) (Some model_ovni_connect) (Some model_ovni_event) (Some model_ovni_finish).
Definition model_nanos6 : model_spec emu :=
  mk_model_spec (Some "nanos6"%string) (Some "1.1.0"%string) (ch "6") (Some nanos6_evlist) None (Some model_nanos6_probe)
    (Some model_nanos6_create) (Some model_nanos6_connect) (Some model_nanos6_event) (Some model_nanos6_finish).
Definition model_nosv : model_spec emu :=
  mk_model_spec (Some "nosv"%string) (Some "2.6.0"%string) (ch "V") (Some nosv_evlist) None (Some model_nosv_probe)
    (Some model_nosv_create) (Some model_nosv_connect) (Some model_nosv_event) (Some model_nosv_finish).
Definition model_nodes : model_spec emu :=
  mk_model_spec (Some "nodes"%string) (Some "1.0.0"%string) (ch "D") (Some nodes_evlist) None (Some model_nodes_probe)
    (Some model_nodes_create) (Some model_nodes_connect) (Some model_nodes_event) (Some model_nodes_finish).
Definition model_tampi : model_spec emu :=
  mk_model_spec (Some "tampi"%string) (Some "1.0.0"%string) (ch "T") (Some tampi_evlist) None (Some model_tampi_probe)
    (Some model_tampi_create) (Some model_tampi_connect) (Some model_tampi_event) (Some model_tampi_finish).
Definition model_mpi : model_spec emu :=
  mk_model_spec (Some "mpi"%string) (Some "1.0.0"%string) (ch "M") (Some mpi_evlist) None (Some model_mpi_probe)
    (Some model_mpi_create) (Some model_mpi_connect) (Some model_mpi_event) (Some model_mpi_finish).
Definition model_kernel : model_spec emu :=
  mk_model_spec (Some "kernel"%string) (Some "1.0.0"%string) (ch "K") (Some kernel_evlist) None (Some model_kernel_probe)
    (Some model_kernel_create) (Some model_kernel_connect) (Some model_kernel_event) None.
Definition model_openmp : model_spec emu :=
  mk_model_spec (Some "openmp"%string) (Some "1.2.1"%string) (ch "P") (Some openmp_evlist) None (Some model_openmp_probe)
    (Some model_openmp_create) (Some model_openmp_connect) (Some model_openmp_event) (Some model_openmp_finish).

Definition model_xtasks : model_spec emu :=
  mk_model_spec (Some "xtasks"%string) (Some "1.0.0"%string) (ch "X") (Some xtasks_evlist) None (Some model_xtasks_probe)
    (Some model_xtasks_create) None (Some model_xtasks_event) (Some model_xtasks_finish).

Definition models : list (model_spec emu) :=
  [model_ovni; model_nanos6; model_nosv; model_nodes; model_tampi; model_mpi; model_kernel; model_openmp; model_xtasks].

Fixpoint models_register (l : list (model_spec emu)) (md : model emu) : option (model emu) :=
  match l with
  | [] => Some md
  | spec :: l' => md' ← model_register md spec; models_register l' md'
  end.

(** ** The emulator (emu.c)

    The player is apart (Player.v): what the emulator does with each event it
    delivers is [emu_process]. *)

(** A trace: its directory, the metadata of its streams, the table of offsets,
    and the streams. *)
Record trace := mk_trace { tr_dir : string; tr_meta : list json_object; tr_offsets : offset_file; tr_streams : list stream }.

Definition emu_zero (args : emu_args) (t : trace) : emu :=
  mk_emu args (tr_meta t) (start (tr_streams t)) extn_zero false false.

(** [all]: the option that enables every model. *)
Definition emu_init (all : bool) (t : trace) : M emu (model emu) :=
  on_syst (emu_setup (tr_dir t) (map smeta_of (tr_meta t)) (tr_offsets t) None) ;;;
  let* md := found (models_register models model_init) in
  let* md := model_probe all md in
  model_create md ;;;
  mret md.

Definition emu_connect (md : model emu) (fuel : nat) : M emu unit :=
  model_connect md ;;;
  on_heap (bay_propagate fuel).

(** The Paraver streams of the recorder. *)
Definition emu_prvs (e : emu) : list nat := map (fun p => pvt_prv p.2) (rec_pvt (st_rec (em_sys e))).

(** What the hook of xtasks does before its first event: [model_event] has found
    the model registered and enabled. *)
Definition xtasks_enable (md : model emu) (x : ctx) : M emu unit :=
  let* e := mget in
  if negb (is_ch (ee_m (cx_ev x)) "X") || em_xtasks e then mret tt else
  if bool_decide (ch "X" ∉ md_registered md) || bool_decide (ch "X" ∉ md_enabled md) then mret tt else
  model_xtasks_connect ;;;
  mmod (fun e => mk_emu (em_args e) (em_meta e) (em_sys e) (em_ext e) (em_finished e) true).

(** [emu_step] from an event the player delivers on: as [emu_process]. *)
Definition emu_step (md : model emu) (fuel : nat) (x : ctx) : M emu unit :=
  let* e := mget in
  on_heap (recorder_advance (emu_prvs e) (ee_dclock (cx_ev x))) ;;;
  xtasks_enable md x ;;;
  on_heap (model_event md x (ee_m (cx_ev x))) ;;;
  on_heap (bay_propagate fuel).

Definition emu_steps (md : model emu) (fuel : nat) (xs : list ctx) : M emu unit := for_each (emu_step md fuel) xs.

(** No more events. *)
Definition emu_finished : M emu unit :=
  mmod (fun e => mk_emu (em_args e) (em_meta e) (em_sys e) (em_ext e) true (em_xtasks e)).

(** [emu_finish]: the lines of the traces, written even when a model fails,
    and whether all went well. *)
Definition emu_finish (md : model emu) : M emu (bool * list (list string * list string * list string)) := fun e =>
  let '(r, e1) := model_finish md e in
  match r with
  | Ok _ | Err =>
      let '(r2, e2) := on_rec recorder_finish e1 in
      match r2 with
      | Ok files => (Ok (match r with Ok _ => true | _ => false end, files), e2)
      | Err => (Err, e2) | Die => (Die, e2) | Ub => (Ub, e2) | Fuel => (Fuel, e2)
      end
  | Die => (Die, e1) | Ub => (Ub, e1) | Fuel => (Fuel, e1)
  end.
