(* ===== verification/Registry.v ===== *)
(** * The registered models (src/emu/models.c, src/emu/model.c)

    Registering the models succeeds and fills the table with each of them and
    its events; what the emulator accepts, the printer of the table describes. *)

From Stdlib Require Import Ascii.
From S2P Require Import Prelude Chan Heap Event Cstr EvSpec EvSignature EvLists OvniModel Model OvniDemo.
From S2P Require Import Table Mpi Tampi Nodes Kernel Nosv Nanos6 Openmp Declared Json Track Setups.

(** What the table holds after registering models of the list [l]. *)
Definition registered_from (l : list (model_spec emu)) (md : model emu) : Prop :=
  forall i spec, md_spec md !! i = Some spec ->
  exists s evlist evspec, s ∈ l /\ ms_model s = i /\ ms_evlist s = Some evlist /\
  model_evspec_init i evlist = Ok evspec /\ spec = with_evspec s evspec.

(** An event is described by [decl]: this is what the compiled table of the
    model that the program has for its character holds for its code, and the
    dumper prints the event by it. *)
Definition described (md : model emu) (ev : emu_ev) (buflen : Z) (decl : ev_spec) : Prop :=
  exists s evlist evspec, s ∈ models /\ ms_model s = ee_m ev /\ ms_evlist s = Some evlist /\
    model_evspec_init (ee_m ev) evlist = Ok evspec /\ model_evspec_find evspec (ev_mcv ev) = Some decl /\
    model_event_print md ev buflen = ev_spec_print decl (ee_payload ev) buflen.

Lemma model_register_Some (md md' : model emu) spec :
  model_register md spec = Some md' ->
  exists evlist evspec, ms_evlist spec = Some evlist /\ model_evspec_init (ms_model spec) evlist = Ok evspec /\
  md' = mk_model (<[ms_model spec := with_evspec spec evspec]> (md_spec md)) ({[ms_model spec]} ∪ md_registered md) (md_enabled md).
Proof.
  unfold model_register. destruct (ms_name spec); [|done]. simpl. case_bool_decide; [done|].
  destruct (ms_version spec); [|done]. simpl. destruct (ms_evlist spec) as [evlist|]; [|done]. simpl.
  case_bool_decide; [done|]. destruct (model_evspec_init _ _) as [evspec| | | |] eqn:E; try done.
  intros [= <-]. by eauto.
Qed.

Lemma models_register_from l : forall done md md', registered_from done md -> models_register l md = Some md' ->
  registered_from (done ++ l) md'.
Proof.
  induction l as [|s l IH]; intros done md md' Hd; simpl; [by intros [= <-]; rewrite app_nil_r|].
  destruct (model_register md s) as [md1|] eqn:E; [|discriminate]. simpl. intros H.
  change (s :: l) with ([s] ++ l). rewrite app_assoc. revert H. apply IH.
  apply model_register_Some in E as (evlist & evspec & He & Hi & ->). intros i spec. simpl.
  destruct (decide (ms_model s = i)) as [<-|Hne].
  - rewrite lookup_insert_eq. intros [= <-]. exists s, evlist, evspec. split_and!; try reflexivity; try assumption.
    apply elem_of_app. right. apply list_elem_of_here.
  - rewrite lookup_insert_ne by exact Hne. intros (s' & evl & evs & Hin & ?)%Hd. exists s', evl, evs.
    split; [|assumption]. apply elem_of_app. by left.
Qed.

(** A model that can be registered. *)
Record registrable (spec : model_spec emu) : Prop := {
  rg_name : is_Some (ms_name spec);
  rg_version : is_Some (ms_version spec);
  rg_evspec : ms_evspec spec = None;
  rg_events : exists evlist evspec, ms_evlist spec = Some evlist /\ model_evspec_init (ms_model spec) evlist = Ok evspec
}.

Lemma model_register_run (md : model emu) spec :
  registrable spec -> ms_model spec ∉ md_registered md ->
  exists md', model_register md spec = Some md' /\ md_registered md' = {[ms_model spec]} ∪ md_registered md.
Proof.
  intros [[n Hn] [v Hv] Hs (evlist & e & He & E)] Hr. unfold model_register. rewrite Hn, Hv, He, Hs. simpl.
  rewrite bool_decide_false by exact Hr. rewrite E. by eexists.
Qed.

Lemma models_register_run l : forall md : model emu,
  Forall registrable l -> NoDup (map ms_model l) -> (forall s, s ∈ l -> ms_model s ∉ md_registered md) ->
  exists md', models_register l md = Some md' /\ forall i, i ∈ md_registered md' <-> i ∈ map ms_model l \/ i ∈ md_registered md.
Proof.
  induction l as [|s l IH]; intros md Hl Hn Hr; cbn [models_register map].
  { exists md. split; [done|]. set_solver. }
  apply list.Forall_cons in Hl as [Hs Hl]. apply list.NoDup_cons in Hn as [Hnew Hn].
  destruct (model_register_run md s Hs) as (md1 & -> & R1); [apply Hr, list_elem_of_here|].
  destruct (IH md1 Hl Hn) as (md' & E & R).
  { intros s' Hs'. rewrite R1. intros [E%elem_of_singleton|E]%elem_of_union.
    - apply Hnew. rewrite <-E. by apply list_elem_of_fmap_2.
    - apply (Hr s'); [by apply list_elem_of_further|done]. }
  exists md'. split; [exact E|]. intros i. rewrite R, R1. set_solver.
Qed.

Lemma registrable_of (spec : model_spec emu) evlist :
  is_Some (ms_name spec) -> is_Some (ms_version spec) -> ms_evspec spec = None -> ms_evlist spec = Some evlist ->
  (match model_evspec_init (ms_model spec) evlist with Ok _ => true | _ => false end = true) -> registrable spec.
Proof.
  intros Hn Hv Hs He E. split; [done..|]. destruct (model_evspec_init (ms_model spec) evlist) as [e| | | |] eqn:Ei; try done.
  by eauto.
Qed.

Lemma models_registrable : Forall registrable models.
Proof.
  unfold models. repeat apply list.Forall_cons_2; [..|apply list.Forall_nil_2].
  all: eapply registrable_of; [by eexists|by eexists|reflexivity|reflexivity|].
  all: cbv [ms_model model_ovni model_nanos6 model_nosv model_nodes model_tampi model_mpi model_kernel model_openmp model_xtasks].
  all: vm_compute; reflexivity.
Qed.

Lemma models_characters : map ms_model models = map ch ["O"; "6"; "V"; "D"; "T"; "M"; "K"; "P"; "X"]%char.
Proof. reflexivity. Qed.

(** Registering the nine models of the program succeeds: their characters
    differ and all their event declarations compile, without repeated codes; and
    exactly those characters are registered. *)
Theorem models_register_succeeds :
  exists md, models_register models model_init = Some md /\
  forall i, i ∈ md_registered md <-> i ∈ map ch ["O"; "6"; "V"; "D"; "T"; "M"; "K"; "P"; "X"]%char.
Proof.
  destruct (models_register_run models model_init models_registrable) as (md & E & R).
  - rewrite models_characters. apply (bool_decide_unpack _). vm_compute. exact I.
  - intros s _. cbn [md_registered model_init]. by apply not_elem_of_empty.
  - exists md. split; [exact E|]. intros i. rewrite R, models_characters. cbn [md_registered model_init]. rewrite elem_of_empty. tauto.
Qed.

(** The hook of a model of the list, with its events. *)
Lemma models_hooks s evlist hook :
  s ∈ models -> ms_evlist s = Some evlist -> ms_event s = Some hook ->
  exists m codes any, ms_model s = ch m /\ (m, evlist, hook, codes, any) ∈ hooks.
Proof.
  intros Hin He Hh. unfold models in Hin. unfold hooks.
  repeat (apply elem_of_cons in Hin as [->|Hin];
    [injection He as <-; injection Hh as <-; eexists _, _, _; split; [reflexivity|];
     repeat (first [apply list_elem_of_here|apply list_elem_of_further])|]).
  by apply elem_of_nil in Hin.
Qed.

(** C40. The emulator and the dumper agree on the events there are: with the
    models of the program registered and any of them enabled, an event that the
    emulator takes without error is declared in the list of events of its model,
    that list compiles, the compiled table holds a declaration for the code of
    the event, and printing the event is printing that declaration; but for the
    bursts, the sorting marks and the old block of Nanos6, which the hooks take
    undeclared. *)
Theorem emulated_event_is_described md0 md x h h' buflen :
  models_register models model_init = Some md0 -> md_spec md = md_spec md0 -> md_registered md = md_registered md0 ->
  model_event md x (ee_m (cx_ev x)) h = (Ok tt, h') ->
  (exists decl, described md (cx_ev x) buflen decl) \/ tolerated (cx_ev x) = true.
Proof.
  intros Hreg Hspec Hr H. unfold model_event in H. case_bool_decide as Hin; [done|]. case_bool_decide; [done|].
  apply mbind_Ok in H as (spec & h1 & Hd & H). apply deref_Ok in Hd as [Hd ->].
  assert (registered_from models md0) as Hfrom.
  { apply (models_register_from models [] model_init md0); [|exact Hreg]. intros i spec'. simpl. by rewrite lookup_empty. }
  rewrite Hspec in Hd. pose proof (Hfrom _ _ Hd) as (s & evlist & evspec & Hs & Hm & He & Hi & ->).
  cbn [ms_event with_evspec] in H. destruct (ms_event s) as [hook|] eqn:Eh.
  2: { exfalso. unfold models in Hs.
       repeat (apply elem_of_cons in Hs as [->|Hs]; [discriminate Eh|]). by apply elem_of_nil in Hs. }
  destruct (models_hooks s evlist hook Hs He Eh) as (m & codes & any & Em & Hk).
  assert (model_evspec_init (ch m) evlist = Ok evspec) as Hi' by (rewrite <- Em, Hm; exact Hi).
  destruct (accepted_events_declared m evlist hook codes any evspec x h h' Hk Hi' H) as [[decl Hf]|Ht]; [left|by right].
  exists decl. exists s, evlist, evspec. do 5 (split; [done|]).
  unfold model_event_print. rewrite bool_decide_false by (intros Hno; exact (Hno Hin)). rewrite Hspec, Hd. simpl. by rewrite Hf.
Qed.

(** The models of the program with the ovni model enabled. *)
Definition demo_registry : model emu := default model_init (models_register models model_init).
Definition demo_enabled : model emu := mk_model (md_spec demo_registry) (md_registered demo_registry) {[ch "O"]}.

Lemma demo_registered : models_register models model_init = Some demo_registry.
Proof.
  unfold demo_registry. destruct (models_register_run models model_init models_registrable) as (md & E & _).
  - rewrite models_characters. apply (bool_decide_unpack _). vm_compute. exact I.
  - intros s _. cbn [md_registered model_init]. by apply not_elem_of_empty.
  - by rewrite E.
Qed.

Lemma emulated_event_is_described_witness :
  (exists decl, described demo_enabled (cx_ev demo_execute) 1024 decl) \/ tolerated (cx_ev demo_execute) = true.
Proof.
  apply (emulated_event_is_described demo_registry demo_enabled demo_execute demo_sys demo_running 1024 demo_registered).
  - unfold demo_enabled. cbn [md_spec]. reflexivity.
  - unfold demo_enabled. cbn [md_registered]. reflexivity.
  - apply run_eta. vm_compute. reflexivity.
Defined.
