(* ===== verification/Effect.v ===== *)
(** * What a callback of the patch bay may change

    A dirty callback changes the multiplexer it belongs to, the callbacks of
    its inputs and the channels it writes; the order of the other callbacks in
    their lists stays.  The connections of the network never change, and what
    follows from them ([net]) is kept by every callback. *)

From S2P Require Import Prelude Chan Heap Bay Mux Sort Prv Dispatch OvniCorrect Coherence.

(** ** Connections *)

(** What [mux_init] and [mux_set_input] fixed. *)
Definition conn_of (mx : mux) :=
  (m_ninputs mx, m_select_func mx, m_select mx, m_output mx, m_def mx,
   (fun i => (mi_index i, mi_chan i, mi_output i, mi_cb i)) <$> m_inputs mx).

Lemma conn_of_same mx mx' : conn_of mx' = conn_of mx -> same_conn mx mx' /\ m_select mx' = m_select mx.
Proof. unfold conn_of. intros [= ? ? ? ? ? ?]. by split. Qed.

Lemma conn_of_select mx x i b : conn_of (set_selected x (set_input i (input_select b) mx)) = conn_of mx.
Proof.
  destruct (same_conn_select mx x i b) as (_ & _ & _ & _ & E). unfold conn_of. by rewrite E.
Qed.

(** Channels of tracks and breakdowns: what multiplexers write. *)
Definition scratch (a : addr) : Prop := exists n, a_own a = OwnTrack n \/ a_own a = OwnOther n.

(** The network of multiplexers is well connected: callbacks of inputs and
    selects belong to one multiplexer and sit on its channels, and no two
    multiplexers share their output, which is a channel of their own. *)
Record net (h : heap) : Prop := {
  net_input : forall m mx i inp id, h_mux h !! m = Some mx -> m_inputs mx !! i = Some inp -> mi_cb inp = Some id ->
    exists a, mi_chan inp = Some a /\ mi_index inp = Z.of_nat i /\ mi_output inp = Some (m_output mx) /\
      cb_on h id (FnInput m (Z.of_nat i)) a;
  net_cb_input : forall id cb m i, h_cb h !! id = Some cb -> cb_func cb = FnInput m i ->
    exists mx inp, h_mux h !! m = Some mx /\ mux_get_input mx i = Some inp /\ mi_cb inp = Some id;
  net_cb_select : forall id cb m, h_cb h !! id = Some cb -> cb_func cb = FnSelect m ->
    exists mx, h_mux h !! m = Some mx /\ cb_on h id (FnSelect m) (m_select mx);
  net_select : forall m mx, h_mux h !! m = Some mx -> exists id, cb_on h id (FnSelect m) (m_select mx);
  net_output : forall m m' mx mx', h_mux h !! m = Some mx -> h_mux h !! m' = Some mx' ->
    m_output mx = m_output mx' -> m = m';
  net_scratch : forall m mx, h_mux h !! m = Some mx -> scratch (m_output mx);
  net_linked : forall m mx i inp a, h_mux h !! m = Some mx -> m_inputs mx !! i = Some inp -> mi_chan inp = Some a ->
    mi_cb inp <> None
}.

(** ** Effects *)

(** Callback [x] is not of an input of the muxes in [K]. *)
Definition spared (K : nat -> Prop) (h : heap) (x : nat) : Prop :=
  forall cb m i, h_cb h !! x = Some cb -> cb_func cb = FnInput m i -> ~ K m.

(** From [h] to [h'] only the muxes in [K], the callbacks of their inputs and
    the channels in [O] changed. *)
Record effect (K : nat -> Prop) (O : addr -> Prop) (h h' : heap) : Prop := {
  ef_step : prop_step h h';
  ef_conn : conn_of <$> h_mux h' = conn_of <$> h_mux h;
  ef_mux : forall m, ~ K m -> h_mux h' !! m = h_mux h !! m;
  ef_cb : forall x, spared K h x -> h_cb h' !! x = h_cb h !! x;
  ef_chan : forall a, ~ O a -> h_chan h' !! a = h_chan h !! a;
  ef_lists : forall name b, find_bay_chan name h = Some b -> exists b', find_bay_chan name h' = Some b' /\
    forall x y, spared K h x -> spared K h y ->
      (y ∈ bc_cbs BAY_CB_DIRTY b -> y ∈ bc_cbs BAY_CB_DIRTY b') /\
      (y ∈ after x (bc_cbs BAY_CB_DIRTY b) -> y ∈ after x (bc_cbs BAY_CB_DIRTY b'))
}.

Section Effect.
Variables (K : nat -> Prop) (O : addr -> Prop).

(** A change that leaves the lists of callbacks alone. *)
Lemma effect_same_lists h h' : prop_step h h' -> conn_of <$> h_mux h' = conn_of <$> h_mux h ->
  (forall m, ~ K m -> h_mux h' !! m = h_mux h !! m) -> h_cb h' = h_cb h ->
  (forall a, ~ O a -> h_chan h' !! a = h_chan h !! a) ->
  b_channels (h_bay h') = b_channels (h_bay h) -> effect K O h h'.
Proof.
  intros H1 H2 H3 E4 H5 E6. split; [done|done|done|by rewrite E4|done|].
  intros name b Hb. exists b. unfold find_bay_chan in *. by rewrite E6.
Qed.

Lemma effect_refl h : effect K O h h.
Proof. apply effect_same_lists; try done. apply prop_step_refl. Qed.

Lemma effect_spared h h' x : effect K O h h' -> spared K h x -> spared K h' x.
Proof.
  intros HE HS cb m i Hx Hf. destruct (fmap_eq_lookup _ _ _ _ _ (eq_sym (ps_funcs _ _ (ef_step _ _ _ _ HE))) Hx)
    as (cb0 & Hx0 & E0). by eapply HS; [exact Hx0|rewrite E0].
Qed.

Lemma effect_trans h1 h2 h3 : effect K O h1 h2 -> effect K O h2 h3 -> effect K O h1 h3.
Proof.
  intros E1 E2. pose proof E1 as [P1 C1 M1 B1 A1 L1]. pose proof E2 as [P2 C2 M2 B2 A2 L2]. split.
  - by eapply prop_step_trans.
  - congruence.
  - intros m Hm. by rewrite M2, M1.
  - intros x Hx. rewrite B2, B1; [done|done|by eapply effect_spared].
  - intros a Ha. by rewrite A2, A1.
  - intros name b Hb. destruct (L1 name b Hb) as (b1 & Hb1 & K1). destruct (L2 name b1 Hb1) as (b2 & Hb2 & K2).
    exists b2. split; [done|]. intros x y Hx Hy. destruct (K1 x y Hx Hy) as [I1 J1].
    destruct (K2 x y (effect_spared _ _ _ E1 Hx) (effect_spared _ _ _ E1 Hy)) as [I2 J2]. naive_solver.
Qed.

Lemma net_effect h h' : effect K O h h' -> net h -> net h'.
Proof.
  intros HE [N1 N2 N3 N4 N5 N6 N7]. destruct HE as [HP EC _ _ _ _].
  assert (forall m mx', h_mux h' !! m = Some mx' -> exists mx, h_mux h !! m = Some mx /\ conn_of mx' = conn_of mx) as back.
  { intros m mx' Hm. destruct (fmap_eq_lookup _ _ _ _ _ (eq_sym EC) Hm) as (mx & ? & ?). by exists mx. }
  assert (forall m mx, h_mux h !! m = Some mx -> exists mx', h_mux h' !! m = Some mx' /\ conn_of mx' = conn_of mx) as forth.
  { intros m mx Hm. by apply (fmap_eq_lookup _ _ _ _ _ EC). }
  assert (forall id cb', h_cb h' !! id = Some cb' -> exists cb, h_cb h !! id = Some cb /\ cb_func cb = cb_func cb') as cbs.
  { intros id cb' Hid. destruct (fmap_eq_lookup _ _ _ _ _ (eq_sym (ps_funcs _ _ HP)) Hid) as (cb & ? & ?). by exists cb. }
  split.
  - intros m mx' i inp' id Hm Hi Hid. destruct (back m mx' Hm) as (mx & Hm0 & [HS _]%conn_of_same).
    destruct (same_conn_lookup _ _ _ _ (same_conn_sym _ _ HS) Hi) as (inp & Hi0 & E1 & E2 & E3 & E4).
    destruct (N1 m mx i inp id Hm0 Hi0) as (a & ? & ? & ? & ?); [congruence|]. exists a.
    pose proof HS as (_ & _ & Eo & _). rewrite Eo. split_and!; try congruence. by eapply cb_on_step.
  - intros id cb' m i Hid Hf. destruct (cbs id cb' Hid) as (cb & Hid0 & E).
    destruct (N2 id cb m i Hid0) as (mx & inp & Hm & Hi & Hc); [congruence|].
    destruct (forth m mx Hm) as (mx' & Hm' & [HS _]%conn_of_same). unfold mux_get_input in *. exists mx'.
    destruct (i <? 0); [done|]. destruct (same_conn_lookup _ _ _ _ HS Hi) as (inp' & ? & _ & _ & _ & ?).
    exists inp'. by split_and!; [..|congruence].
  - intros id cb' m Hid Hf. destruct (cbs id cb' Hid) as (cb & Hid0 & E).
    destruct (N3 id cb m Hid0) as (mx & Hm & Hc); [congruence|].
    destruct (forth m mx Hm) as (mx' & Hm' & [_ Es]%conn_of_same). exists mx'. rewrite Es. split; [done|]. by eapply cb_on_step.
  - intros m mx' Hm. destruct (back m mx' Hm) as (mx & Hm0 & [_ Es]%conn_of_same).
    destruct (N4 m mx Hm0) as (id & Hc). exists id. rewrite Es. by eapply cb_on_step.
  - intros m1 m2 mx1' mx2' Hm1 Hm2 E. destruct (back _ _ Hm1) as (mx1 & ? & [(_ & _ & E1 & _) _]%conn_of_same).
    destruct (back _ _ Hm2) as (mx2 & ? & [(_ & _ & E2 & _) _]%conn_of_same). eapply N5; [done..|congruence].
  - intros m mx' Hm. destruct (back m mx' Hm) as (mx & ? & [(_ & _ & -> & _) _]%conn_of_same). by eapply N6.
  - intros m mx' i inp' a Hm Hi Ha. destruct (back m mx' Hm) as (mx & Hm0 & [HS _]%conn_of_same).
    destruct (same_conn_lookup _ _ _ _ (same_conn_sym _ _ HS) Hi) as (inp & Hi0 & _ & E2 & _ & <-).
    eapply N7; [done..|]. by rewrite E2.
Qed.
End Effect.

Lemma effect_mono (K K' : nat -> Prop) (O O' : addr -> Prop) h h' :
  (forall m, K m -> K' m) -> (forall a, O a -> O' a) -> effect K O h h' -> effect K' O' h h'.
Proof.
  intros HK HO [H1 H2 H3 H4 H5 H6].
  assert (forall x, spared K' h x -> spared K h x) as Hs by (intros x Hx cb m i Hc Hf Hm; by eapply Hx, HK).
  split; try done; auto.
  - intros name b Hb. destruct (H6 name b Hb) as (b' & Hb' & HL). exists b'. split; [done|].
    intros x y Hx Hy. apply HL; auto.
Qed.

(** ** Effects of computations that succeed *)

(** A consistent network that takes changes. *)
Definition live (h : heap) : Prop := bay_inv h /\ accepting h /\ net h.

Definition effects (K : nat -> Prop) (O : addr -> Prop) {A} (m : M heap A) : Prop :=
  forall h a h', live h -> m h = (Ok a, h') -> effect K O h h' /\ live h'.

Lemma live_effect K O h h' : effect K O h h' -> bay_inv h' -> live h -> live h'.
Proof.
  intros HE HB (_ & HA & HN). split_and!; [done| |by eapply net_effect].
  unfold accepting. by rewrite (ps_state _ _ (ef_step _ _ _ _ HE)).
Qed.

Section Effects.
Variables (K : nat -> Prop) (O : addr -> Prop).
Notation effects := (effects K O).

Lemma effects_quiet {A} (m : M heap A) : quiet m -> effects m.
Proof. intros Hq h a h' HL E. rewrite (quiet_Ok _ _ _ _ Hq E). split; [apply effect_refl|done]. Qed.

Lemma effects_bind {A B} (m : M heap A) (k : A -> M heap B) :
  effects m -> (forall a, effects (k a)) -> effects (mbind m k).
Proof.
  intros Hm Hk h b h' HL E. apply mbind_Ok in E as (a & h1 & E1 & E).
  destruct (Hm _ _ _ HL E1) as [X1 HL1]. destruct (Hk _ _ _ _ HL1 E) as [X2 HL2].
  split; [by eapply effect_trans|done].
Qed.

Lemma effects_if {A} (b : bool) (m1 m2 : M heap A) : effects m1 -> effects m2 -> effects (if b then m1 else m2).
Proof. by destruct b. Qed.

Lemma effects_run_op op a : O a -> effects (run_op op a).
Proof.
  intros Ha h [] h' HL E. pose proof HL as (HB & HA & HN).
  destruct (run_op_heap op a h HB HA) as [(r & E1 & _)|(c & c' & Hc & _ & Hm & _ & E1 & HB')]; rewrite E in E1.
  { injection E1 as _ ->. split; [apply effect_refl|done]. }
  injection E1 as ->.
  assert (effect K O h (heap_written a c' (newly_dirty c) h)) as X.
  { apply effect_same_lists; try done; [apply prop_step_written|]. intros b Hb.
    rewrite heap_written_chan, decide_False; [done|]. by intros <-. }
  split; [done|by eapply live_effect].
Qed.
Lemma effects_chan_set a v : O a -> effects (chan_set a v).
Proof. apply (effects_run_op (OpSet v)). Qed.

Lemma effects_upd_mux m x i b : K m -> effects (upd_mux m (fun mx => set_selected x (set_input i (input_select b) mx))).
Proof.
  intros Hm h [] h' HL [= <-]. set (f := fun mx => _). set (h' := set_h_mux _ _).
  assert (effect K O h h') as X.
  { apply effect_same_lists; try done; [apply prop_step_mux| |].
    - apply map_eq. intros j. rewrite !lookup_fmap. simpl. destruct (decide (j = m)) as [->|]; [|by rewrite lookup_alter_ne].
      rewrite lookup_alter_eq. destruct (h_mux h !! m) as [mx|]; [|done]. simpl. f_equal. apply conn_of_select.
    - intros j Hj. simpl. rewrite lookup_alter_ne; [done|]. by intros ->. }
  split; [done|]. eapply live_effect; [exact X|apply bay_inv_mux, HL|done].
Qed.

(** Enabling or disabling the callback of an input. *)
Lemma not_spared m i h x cb : K m -> h_cb h !! x = Some cb -> cb_func cb = FnInput m i -> ~ spared K h x.
Proof. intros Hm Hx Hf HS. by eapply HS. Qed.

Lemma effect_enabling id cb e m i h h' : K m -> h_cb h !! id = Some cb -> cb_func cb = FnInput m i ->
  enabling id cb e h h' ->
  (forall name b, find_bay_chan name h = Some b -> exists b', find_bay_chan name h' = Some b' /\
    forall x y, x <> id -> y <> id ->
      (y ∈ bc_cbs BAY_CB_DIRTY b -> y ∈ bc_cbs BAY_CB_DIRTY b') /\
      (y ∈ after x (bc_cbs BAY_CB_DIRTY b) -> y ∈ after x (bc_cbs BAY_CB_DIRTY b'))) ->
  effect K O h h'.
Proof.
  intros Hm Hid Hf [HB HP Hc Hmx Hcb] HL.
  assert (forall x, spared K h x -> x <> id) as Hne by (intros x Hx ->; by eapply not_spared).
  split; [done|by rewrite Hmx|by rewrite Hmx| |by rewrite Hc|].
  - intros x Hx. rewrite Hcb, lookup_insert_ne; [done|]. by intros <-; eapply Hne.
  - intros name b Hb. destruct (HL name b Hb) as (b' & Hb' & Hl). exists b'. split; [done|]. auto.
Qed.

Lemma after_notin (x : nat) l : x ∉ l -> after x l = [].
Proof.
  induction l as [|y l IH]; simpl; [done|]. intros [? ?]%not_elem_of_cons. rewrite decide_False by done. by apply IH.
Qed.

Lemma disable_effect id cb m i h h' : live h -> K m -> h_cb h !! id = Some cb -> cb_func cb = FnInput m i ->
  bay_disable_cb id h = (Ok tt, h') -> effect K O h h' /\ live h'.
Proof.
  intros HL Hm Hid Hf E. pose proof HL as (HB & _).
  destruct (bay_disable_frame id cb h HB Hid) as (h1 & E1 & Hen). rewrite E in E1. injection E1 as <-.
  assert (effect K O h h') as X; [|split; [done|eapply live_effect; [done|apply Hen|done]]].
  eapply effect_enabling; [done..|]. intros name b Hb.
  destruct (disable_lists id h h' name b HB E Hb) as (b' & Hb' & _ & Hl). exists b'. split; [done|].
  intros x y Hx Hy. rewrite Hl. split; [by rewrite elem_of_disable|].
  destruct (decide (x ∈ bc_cbs BAY_CB_DIRTY b)); [|rewrite after_notin by done; by intros ?%elem_of_nil].
  rewrite after_disable by done. by rewrite elem_of_disable.
Qed.

Lemma enable_effect id cb m i h h' : live h -> K m -> h_cb h !! id = Some cb -> cb_func cb = FnInput m i ->
  bay_enable_cb id h = (Ok tt, h') -> effect K O h h' /\ live h'.
Proof.
  intros HL Hm Hid Hf E. pose proof HL as (HB & _).
  destruct (bay_enable_frame id cb h HB Hid) as (h1 & E1 & Hen). rewrite E in E1. injection E1 as <-.
  assert (effect K O h h') as X; [|split; [done|eapply live_effect; [done|apply Hen|done]]].
  eapply effect_enabling; [done..|]. intros name b Hb.
  destruct (enable_lists id h h' name b HB E Hb) as (b' & Hb' & _ & Hl). exists b'. split; [done|].
  intros x y Hx Hy. destruct (Hl BAY_CB_DIRTY) as [-> | ->]; [done|]. split; [intros; apply elem_of_app; by left|].
  destruct (decide (x ∈ bc_cbs BAY_CB_DIRTY b)); [|rewrite after_notin by done; by intros ?%elem_of_nil].
  rewrite after_app_in by done. intros. apply elem_of_app. by left.
Qed.
End Effects.

Ltac eff_step := solve [apply effects_quiet; quiet_tac].
Ltac eff_bind := lazymatch goal with |- effects _ _ (mbind _ _) => apply effects_bind; [|intros ?] end.

(** ** The callbacks *)

(** What the callbacks of a multiplexer write. *)
Definition mux_output (m : nat) (h : heap) (a : addr) : Prop := exists mx, h_mux h !! m = Some mx /\ a = m_output mx.

Lemma deselect_effect m mx h h' (O : addr -> Prop) : live h -> h_mux h !! m = Some mx ->
  deselect m mx h = (Ok tt, h') -> effect (fun x => x = m) O h h' /\ live h'.
Proof.
  intros HL Hm E. unfold deselect in E. destruct (0 <=? m_selected mx); [|injection E as <-; split; [apply effect_refl|done]].
  apply mbind_Ok in E as (inp & ? & [Hi ->]%deref_Ok & E). apply mbind_Ok in E as (id & ? & [Hid ->]%deref_Ok & E).
  apply mbind_Ok in E as ([] & h1 & E1 & E).
  unfold mux_get_input in Hi. case_match; [done|].
  destruct (net_input _ (proj2 (proj2 HL)) m mx _ inp id Hm Hi Hid) as (a & _ & _ & _ & cb & b & Hcb & Hf & _).
  destruct (disable_effect (fun x => x = m) O id cb m _ h h1 HL eq_refl Hcb Hf E1) as [X1 HL1].
  destruct (effects_upd_mux (fun x => x = m) O m (-1) (m_selected mx) false eq_refl h1 tt h' HL1 E) as [X2 HL2].
  split; [by eapply effect_trans|done].
Qed.

Lemma reselect_effect m mx res h h' (O : addr -> Prop) : live h -> h_mux h !! m = Some mx ->
  reselect m mx res h = (Ok tt, h') -> effect (fun x => x = m) O h h' /\ live h'.
Proof.
  intros HL Hm E. destruct res as [i|]; simpl in E; [|injection E as <-; split; [apply effect_refl|done]].
  apply mbind_Ok in E as (inp & ? & [Hi ->]%deref_Ok & E). apply mbind_Ok in E as (id & ? & [Hid ->]%deref_Ok & E).
  apply mbind_Ok in E as ([] & h1 & E1 & E).
  unfold mux_get_input in Hi. case_match; [done|].
  destruct (net_input _ (proj2 (proj2 HL)) m mx _ inp id Hm Hi Hid) as (a & _ & _ & _ & cb & b & Hcb & Hf & _).
  destruct (enable_effect (fun x => x = m) O id cb m _ h h1 HL eq_refl Hcb Hf E1) as [X1 HL1].
  destruct (effects_upd_mux (fun x => x = m) O m (mi_index inp) i true eq_refl h1 tt h' HL1 E) as [X2 HL2].
  split; [by eapply effect_trans|done].
Qed.

(** The steps of a select callback that succeeds. *)
Record selected (m : nat) (a : addr) (mx mx1 : mux) (c : chan) (res : option Z) (v : value) (h h1 h2 h' : heap) : Prop := {
  sl_mux : h_mux h !! m = Some mx;
  sl_chan : h_chan h !! a = Some c;
  sl_deselect : deselect m mx h = (Ok tt, h1);
  sl_mux1 : h_mux h1 !! m = Some mx1;
  sl_pick : select_input mx1 (chan_read c) h1 = (Ok res, h1);
  sl_reselect : reselect m mx1 res h1 = (Ok tt, h2);
  sl_value : shown_value mx1 res h2 = (Ok v, h2);
  sl_set : chan_set (m_output mx1) v h2 = (Ok tt, h')
}.

Lemma quiet_shown_value mx res : quiet (shown_value mx res).
Proof. destruct res; simpl; [unfold read_input, load|]; quiet_tac. Qed.

Lemma cb_select_Ok m a h h' : cb_select m a h = (Ok tt, h') ->
  exists mx mx1 c res v h1 h2, selected m a mx mx1 c res v h h1 h2 h'.
Proof.
  intros E. unfold cb_select in E. apply mbind_Ok in E as (mx & s & E0 & E).
  apply mbind_Ok in E0 as (? & ? & [= <- <-] & [Hm ->]%deref_Ok).
  apply mbind_Ok in E as (c & s & [Hc ->]%load_Ok & E). fold (deselect m mx) in E.
  apply mbind_Ok in E as ([] & h1 & E1 & E). apply mbind_Ok in E as (mx1 & s & E0 & E).
  apply mbind_Ok in E0 as (? & ? & [= <- <-] & [Hm1 ->]%deref_Ok).
  apply mbind_Ok in E as (res & s & E2 & E). pose proof (quiet_select_input mx1 (chan_read c)) as Hq.
  pose proof (quiet_Ok _ _ _ _ Hq E2) as ->. fold (reselect m mx1 res) in E.
  apply mbind_Ok in E as ([] & h2 & E3 & E). fold (shown_value mx1 res) in E.
  apply mbind_Ok in E as (v & s & E4 & E). pose proof (quiet_Ok _ _ _ _ (quiet_shown_value mx1 res) E4) as ->.
  by exists mx, mx1, c, res, v, h1, h2.
Qed.

Lemma selected_effect m a mx mx1 c res v h h1 h2 h' : live h -> selected m a mx mx1 c res v h h1 h2 h' ->
  effect (fun x => x = m) (fun _ => False) h h1 /\ effect (fun x => x = m) (fun _ => False) h1 h2 /\ live h1 /\ live h2 /\
  conn_of mx1 = conn_of mx /\ effect (fun x => x = m) (fun b => b = m_output mx) h h' /\ live h'.
Proof.
  intros HL [Hm Hc Ed Hm1 Ep Er Ev Es].
  destruct (deselect_effect m mx h h1 (fun _ => False) HL Hm Ed) as [X1 HL1].
  destruct (reselect_effect m mx1 res h1 h2 (fun _ => False) HL1 Hm1 Er) as [X2 HL2].
  assert (conn_of mx1 = conn_of mx) as EC.
  { destruct (fmap_eq_lookup _ _ _ _ _ (ef_conn _ _ _ _ X1) Hm) as (mx' & Hm' & E). congruence. }
  destruct (effects_chan_set (fun x => x = m) (fun b => b = m_output mx1) (m_output mx1) v eq_refl h2 tt h' HL2 Es) as [X3 HL3].
  assert (m_output mx1 = m_output mx) as Eo by (by apply conn_of_same in EC as [(_ & _ & ? & _) _]).
  rewrite Eo in X3. split_and!; try done.
  assert (forall s s', effect (fun x => x = m) (fun _ => False) s s' -> effect (fun x => x = m) (fun b => b = m_output mx) s s') as W
    by (intros s s'; apply effect_mono; [done|tauto]).
  eapply effect_trans; [by apply W|]. eapply effect_trans; [by apply W|done].
Qed.

Lemma cb_select_effect m a h h' : live h -> cb_select m a h = (Ok tt, h') ->
  effect (fun x => x = m) (mux_output m h) h h' /\ live h'.
Proof.
  intros HL (mx & mx1 & c & res & v & h1 & h2 & HS)%cb_select_Ok.
  destruct (selected_effect _ _ _ _ _ _ _ _ _ _ _ HL HS) as (_ & _ & _ & _ & _ & X & HL').
  split; [|done]. refine (effect_mono _ _ _ _ _ _ _ _ X); [done|]. intros b ->. exists mx. split; [apply HS|done].
Qed.

Lemma cb_input_Ok m i a h h' : cb_input m i a h = (Ok tt, h') ->
  exists mx inp c o, h_mux h !! m = Some mx /\ mux_get_input mx i = Some inp /\ h_chan h !! a = Some c /\
    mi_output inp = Some o /\ chan_set o (chan_read c) h = (Ok tt, h').
Proof.
  intros E. unfold cb_input in E. apply mbind_Ok in E as (mx & s & E0 & E).
  apply mbind_Ok in E0 as (? & ? & [= <- <-] & [Hm ->]%deref_Ok).
  apply mbind_Ok in E as (inp & ? & [Hi ->]%deref_Ok & E). apply mbind_Ok in E as (c & ? & [Hc ->]%load_Ok & E).
  apply mbind_Ok in E as (o & ? & [Ho ->]%deref_Ok & E). by exists mx, inp, c, o.
Qed.

Lemma cb_input_effect id cb m i a h h' : live h -> h_cb h !! id = Some cb -> cb_func cb = FnInput m i ->
  cb_input m i a h = (Ok tt, h') -> effect (fun _ => False) (mux_output m h) h h' /\ live h'.
Proof.
  intros HL Hid Hf (mx & inp & c & o & Hm & Hi & _ & Ho & E)%cb_input_Ok. pose proof HL as (HB & HA & HN).
  destruct (net_cb_input _ HN id cb m i Hid Hf) as (mx0 & inp0 & Hm0 & Hi0 & Hc0). simplify_eq.
  pose proof Hi as Hi1. unfold mux_get_input in Hi1. case_match; [done|].
  destruct (net_input _ HN m mx _ inp id Hm Hi1 Hc0) as (? & _ & _ & Eo & _). simplify_eq.
  eapply effects_chan_set; [|done|exact E]. by exists mx.
Qed.

(** *** Sorters *)

Definition sort_output (s : nat) (a : addr) : Prop := a_own a = OwnSort s.

Lemma write_outputs_effects s l i : effects (fun _ => False) (sort_output s) (write_outputs s l i).
Proof.
  revert i. induction l as [|x l IH]; intros i; simpl; [eff_step|].
  eff_bind; [apply effects_quiet, quiet_load|]. eff_bind; [|apply IH]. case_match; [eff_step|by apply effects_chan_set].
Qed.

Lemma effect_sort f h (O : addr -> Prop) : live h -> effect (fun _ => False) O h (set_h_sort f h) /\ live (set_h_sort f h).
Proof.
  intros HL. assert (effect (fun _ => False) O h (set_h_sort f h)) as X.
  { apply effect_same_lists; try done. split; try done. exists []. by rewrite app_nil_r. }
  split; [done|]. eapply live_effect; [exact X|apply bay_inv_sort, HL|done].
Qed.

Lemma on_sorted_effects s m (O : addr -> Prop) : effects (fun _ => False) O (on_sorted s m).
Proof.
  unfold on_sorted. eff_bind; [apply effects_quiet, quiet_load_sort|]. intros h [] h' HL E.
  destruct (m (s_sorted a)) as [r arr]. injection E as _ <-. by apply effect_sort.
Qed.

Lemma store_sort_effects s x (O : addr -> Prop) : effects (fun _ => False) O (store_sort s x).
Proof. intros h [] h' HL [= <-]. by apply effect_sort. Qed.

Lemma sort_cb_input_effects s i a : effects (fun _ => False) (sort_output s) (sort_cb_input s i a).
Proof.
  unfold sort_cb_input. eff_bind; [apply effects_quiet, quiet_load|]. eff_bind; [apply effects_quiet, quiet_load_sort|].
  eff_bind; [eff_step|]. apply effects_if; [eff_step|]. eff_bind; [apply store_sort_effects|].
  eff_bind; [apply effects_if; [apply on_sorted_effects|apply store_sort_effects]|].
  eff_bind; [apply effects_quiet, quiet_load_sort|]. apply write_outputs_effects.
Qed.
