(* ===== verification/Flow.v ===== *)
(** * Values flow through the tracks

    A track multiplexer reads channels that only events write.  From one event
    to the next it is either settled (its output shows what its select channel
    chooses) or a callback that will settle it waits on a dirty channel.  A
    propagation that succeeds runs every waiting callback, so that it ends with
    all track multiplexers settled. *)

From S2P Require Import Prelude Chan Heap Bay Mux Sort Prv Dispatch OvniCorrect Coherence Effect.

(** Channels that events write. *)
Definition base (a : addr) : Prop :=
  match a_own a with OwnTrack _ | OwnSort _ | OwnOther _ => False | _ => True end.

(** The multiplexers of tracks: their select and inputs are written by events,
    and what they choose depends on the select value only. *)
Record level1 (mx : mux) : Prop := {
  l1_func : m_select_func mx = None \/ m_select_func mx = Some SelThreadActive \/ m_select_func mx = Some SelThreadRunning;
  l1_select : base (m_select mx);
  l1_inputs : forall inp a, inp ∈ m_inputs mx -> mi_chan inp = Some a -> base a
}.

(** The choice for value [v] of the select channel. *)
Definition picks (mx : mux) (v : value) (res : option Z) : Prop := forall h, select_input mx v h = (Ok res, h).

(** The output shows the chosen input, or the default. *)
Definition follows (mx : mux) (res : option Z) (h : heap) : Prop :=
  exists w, shown_value mx res h = (Ok w, h) /\ shows h (m_output mx) w.

(** The select callback of mux [m] is in [R]. *)
Definition select_waits (R : nat -> Prop) (m : nat) (h : heap) : Prop :=
  exists id cb, h_cb h !! id = Some cb /\ cb_func cb = FnSelect m /\ R id.

(** The callback of the chosen input is in [R]. *)
Definition input_waits (R : nat -> Prop) (mx : mux) (res : option Z) : Prop :=
  exists i inp id, res = Some i /\ mux_get_input mx i = Some inp /\ mi_cb inp = Some id /\ R id.

(** Nothing was ever selected. *)
Definition asleep (mx : mux) (v : value) (h : heap) : Prop :=
  v = value_null /\ enabled_only mx (-1) true h /\ shows h (m_output mx) value_null.

(** [R]: the callbacks that are still to run. *)
Definition flow (R : nat -> Prop) (m : nat) (mx : mux) (h : heap) : Prop :=
  enabled_only mx (m_selected mx) false h /\
  (select_waits R m h \/
   exists v, shows h (m_select mx) v /\
     (asleep mx v h \/
      exists res, picks mx v res /\ enabled_only mx (res_index res) true h /\ (follows mx res h \/ input_waits R mx res))).

Definition flows (R : nat -> Prop) (h : heap) : Prop :=
  forall m mx, h_mux h !! m = Some mx -> level1 mx -> flow R m mx h.

(** ** The parts of a flow that connections decide *)

Lemma level1_conn mx mx' : conn_of mx' = conn_of mx -> level1 mx -> level1 mx'.
Proof.
  intros EC [H1 H2 H3]. pose proof EC as [HS Es]%conn_of_same. pose proof HS as (_ & Ef & _).
  split; [by rewrite Ef|by rewrite Es|]. intros inp a (i & Hi)%list_elem_of_lookup Ha.
  destruct (same_conn_lookup _ _ _ _ (same_conn_sym _ _ HS) Hi) as (inp0 & Hi0 & _ & E & _).
  eapply H3; [by eapply list_elem_of_lookup_2|congruence].
Qed.

Lemma picks_conn mx mx' v res : conn_of mx' = conn_of mx -> picks mx v res -> picks mx' v res.
Proof.
  intros [HS _]%conn_of_same Hp h. destruct (select_input_agree mx mx' h h HS eq_refl v) as (E1 & _ & E2).
  rewrite Hp in E1. simpl in E1. rewrite (surjective_pairing (select_input mx' v h)). by rewrite <- E1, E2.
Qed.

Lemma level1_picks mx v res h : level1 mx -> select_input mx v h = (Ok res, h) -> picks mx v res.
Proof.
  intros [Hf _ _] E h'. unfold select_input in *.
  destruct Hf as [Hf|[Hf|Hf]]; rewrite Hf in E |- *;
    unfold default_select, thread_select_active, thread_select_running in *;
    repeat (case_match; try discriminate); by injection E as <-.
Qed.

Lemma enabled_only_conn mx mx' s b h h' : conn_of mx' = conn_of mx ->
  (forall i inp id, m_inputs mx !! i = Some inp -> mi_cb inp = Some id -> h_cb h' !! id = h_cb h !! id) ->
  enabled_only mx s b h -> enabled_only mx' s b h'.
Proof.
  intros [HS _]%conn_of_same Hcb HE i inp' id cb Hi Hid Hc.
  destruct (same_conn_lookup _ _ _ _ (same_conn_sym _ _ HS) Hi) as (inp & Hi0 & _ & _ & _ & E4).
  apply (HE i inp id cb); [done|congruence|]. rewrite <- (Hcb i inp id); [done..|congruence].
Qed.

(** What a mux shows depends on its input channels. *)
Lemma shown_value_frame mx mx' res h h' : conn_of mx' = conn_of mx ->
  (forall inp a, inp ∈ m_inputs mx -> mi_chan inp = Some a -> h_chan h' !! a = h_chan h !! a) ->
  forall w, shown_value mx res h = (Ok w, h) -> shown_value mx' res h' = (Ok w, h').
Proof.
  intros EC Hch w. pose proof EC as [HS _]%conn_of_same. pose proof HS as (_ & _ & _ & Ed & _).
  destruct res as [i|]; simpl; [|by intros [= <-]; rewrite Ed]. unfold read_input, mux_get_input. intros E.
  apply mbind_Ok in E as (inp & ? & [Hi ->]%deref_Ok & E). apply mbind_Ok in E as (a & ? & [Ha ->]%deref_Ok & E).
  apply mbind_Ok in E as (c & ? & [Hc ->]%load_Ok & [= <-]). destruct (i <? 0); [done|].
  destruct (same_conn_lookup _ _ _ _ HS Hi) as (inp' & -> & _ & Ea & _).
  rewrite (mbind_run _ _ _ inp' h') by done. rewrite Ea, Ha, (mbind_run _ _ _ a h') by done.
  erewrite (mbind_run (load a) _ _ c h'); [done|]. apply load_Ok. split; [|done].
  simpl. rewrite (Hch inp a); [exact Hc|by eapply list_elem_of_lookup_2|done].
Qed.

(** ** Callbacks of other multiplexers *)

Section Frame.
Variables (K : nat -> Prop) (O : addr -> Prop) (R R' : nat -> Prop) (m : nat) (mx : mux) (h h' : heap).
Hypothesis HL : live h.
Hypothesis HE : effect K O h h'.
Hypothesis Hm : h_mux h !! m = Some mx.
Hypothesis HmK : ~ K m.
Hypothesis H1 : level1 mx.
Hypothesis Hbase : forall a, base a -> ~ O a.

Lemma effect_inputs i inp id : m_inputs mx !! i = Some inp -> mi_cb inp = Some id -> h_cb h' !! id = h_cb h !! id.
Proof.
  intros Hi Hid. apply (ef_cb _ _ _ _ HE). destruct (net_input _ (proj2 (proj2 HL)) m mx i inp id Hm Hi Hid)
    as (a & _ & _ & _ & cb & b & Hcb & Hf & _).
  intros cb' m' i' Hcb' Hf'. assert (cb' = cb) as -> by congruence. rewrite Hf in Hf'. by injection Hf' as <- _.
Qed.

Lemma flow_frame : ~ O (m_output mx) ->
  (forall id cb, h_cb h !! id = Some cb -> cb_func cb = FnSelect m \/ (exists i, cb_func cb = FnInput m i) -> R id -> R' id) ->
  flow R m mx h -> flow R' m mx h'.
Proof.
  intros Ho HR [Hen Hf].
  assert (forall s b, enabled_only mx s b h -> enabled_only mx s b h') as He
    by (intros s b; apply enabled_only_conn; [done|apply effect_inputs]).
  assert (forall a v, ~ O a -> shows h a v -> shows h' a v) as Hs.
  { intros a v Ha (c & Hc & Hv). exists c. by rewrite (ef_chan _ _ _ _ HE). }
  split; [by apply He|]. destruct Hf as [(id & cb & Hc & Hfn & Hr)|(v & Hsel & Hf)].
  - left. exists id, cb. rewrite (ef_cb _ _ _ _ HE); [|intros cb' ? ? ? ?; simplify_eq; congruence].
    split_and!; [done..|]. apply (HR id cb); [done|by left|done].
  - right. exists v. split; [apply Hs; [by apply Hbase, H1|done]|].
    destruct Hf as [(-> & He1 & Ho1)|(res & Hp & He1 & Hf)]; [left; split_and!; auto|].
    right. exists res. split_and!; [done|by apply He|].
    destruct Hf as [(w & Hw & Hsw)|(i & inp & id & -> & Hi & Hid & Hr)].
    + left. exists w. split; [|by apply Hs]. eapply shown_value_frame; [done| |exact Hw].
      intros inp a Hin Ha. apply (ef_chan _ _ _ _ HE), Hbase. by eapply H1.
    + right. exists i, inp, id. split_and!; [done..|].
      pose proof Hi as Hi1. unfold mux_get_input in Hi1. case_match; [done|].
      destruct (net_input _ (proj2 (proj2 HL)) m mx _ inp id Hm Hi1 Hid) as (a & _ & _ & _ & cb & b & Hcb & Hfn & _).
      apply (HR id cb); [done|right; by eexists|done].
Qed.
End Frame.

(** ** The select callback of the multiplexer *)

(** Toggling the callback of input [i] when no other input is enabled. *)
Lemma toggled_enabled m mx mx' i inp id cb e h h' : live h -> h_mux h !! m = Some mx -> conn_of mx' = conn_of mx ->
  mux_get_input mx i = Some inp -> mi_cb inp = Some id -> h_cb h !! id = Some cb ->
  h_cb h' = <[id := set_enabled e cb]> (h_cb h) -> enabled_only mx i false h ->
  enabled_only mx' (if e then i else -1) true h'.
Proof.
  intros HL Hm EC Hi Hid Hcb Hcbs HE. unfold mux_get_input in Hi. destruct (Z.ltb_spec i 0); [done|].
  assert (forall j inpj, m_inputs mx !! j = Some inpj -> mi_cb inpj = Some id -> Z.of_nat j = i) as inj.
  { intros j inpj Hj Hidj.
    destruct (net_input _ (proj2 (proj2 HL)) m mx j inpj id Hm Hj Hidj) as (? & _ & _ & _ & cb1 & ? & Hc1 & F1 & _).
    destruct (net_input _ (proj2 (proj2 HL)) m mx _ inp id Hm Hi Hid) as (? & _ & _ & _ & cb2 & ? & Hc2 & F2 & _).
    assert (cb1 = cb2) as -> by congruence. rewrite F1 in F2. injection F2. lia. }
  intros j inp' id' cb' Hj Hid' Hc'. pose proof EC as [HS _]%conn_of_same.
  destruct (same_conn_lookup _ _ _ _ (same_conn_sym _ _ HS) Hj) as (inpj & Hj0 & _ & _ & _ & Ej).
  rewrite Hid' in Ej. rewrite Hcbs, lookup_insert in Hc'. destruct (decide (id = id')) as [->|Hne].
  - injection Hc' as <-. simpl. rewrite (inj j inpj Hj0 Ej). destruct e; split; try done. lia.
  - assert (Z.of_nat j <> i) as Hji.
    { intros <-. rewrite Nat2Z.id in Hi. congruence. }
    destruct (HE j inpj id' cb' Hj0 Ej Hc') as [Hon _]. split.
    + intros Hen. by destruct Hji; symmetry; apply Hon.
    + intros _ Hs. destruct e; [by destruct Hji|lia].
Qed.

Lemma mux_chosen m mx i inp id h : live h -> h_mux h !! m = Some mx -> mux_get_input mx i = Some inp -> mi_cb inp = Some id ->
  mi_index inp = i /\ 0 <= i /\ exists cb, h_cb h !! id = Some cb /\ cb_func cb = FnInput m i.
Proof.
  intros HL Hm Hi Hid. unfold mux_get_input in Hi. destruct (Z.ltb_spec i 0); [done|].
  destruct (net_input _ (proj2 (proj2 HL)) m mx _ inp id Hm Hi Hid) as (? & _ & E & _ & cb & ? & Hc & F & _).
  rewrite Z2Nat.id in E, F by lia. split_and!; [done..|]. by exists cb.
Qed.

Lemma enabled_only_weaken mx s h : enabled_only mx s true h -> enabled_only mx s false h.
Proof. intros HE i inp id cb Hi Hid Hc. split; [by eapply HE|done]. Qed.

Lemma deselect_enabled m mx mx1 h h1 : live h -> h_mux h !! m = Some mx -> enabled_only mx (m_selected mx) false h ->
  deselect m mx h = (Ok tt, h1) -> h_mux h1 !! m = Some mx1 -> enabled_only mx1 (-1) true h1 /\ m_selected mx1 < 0.
Proof.
  intros HL Hm HE E Hm1. unfold deselect in E. destruct (Z.leb_spec 0 (m_selected mx)) as [Hs|Hs].
  - apply mbind_Ok in E as (inp & ? & [Hi ->]%deref_Ok & E). apply mbind_Ok in E as (id & ? & [Hid ->]%deref_Ok & E).
    apply mbind_Ok in E as ([] & h' & E1 & [= <-]). simpl in Hm1. rewrite lookup_alter_eq in Hm1.
    destruct (mux_chosen m mx _ inp id h HL Hm Hi Hid) as (_ & _ & cb & Hcb & Hf).
    destruct (bay_disable_frame id cb h (proj1 HL) Hcb) as (h2 & E2 & [_ _ _ Hmx Hcbs]). rewrite E2 in E1. injection E1 as <-.
    rewrite Hmx, Hm in Hm1. injection Hm1 as <-. split; [|simpl; lia].
    by apply (toggled_enabled m mx _ (m_selected mx) inp id cb false h h2); [..|apply conn_of_select| | | | |].
  - injection E as <-. assert (mx1 = mx) as -> by congruence. split; [|lia].
    intros i inp id cb Hi Hid Hc. destruct (HE i inp id cb Hi Hid Hc) as [Hon _]. split; [|lia].
    intros Hen. specialize (Hon Hen). lia.
Qed.

Lemma reselect_enabled m mx mx1 res h h1 : live h -> h_mux h !! m = Some mx -> enabled_only mx (-1) true h ->
  m_selected mx < 0 -> reselect m mx res h = (Ok tt, h1) -> h_mux h1 !! m = Some mx1 ->
  enabled_only mx1 (res_index res) true h1 /\ enabled_only mx1 (m_selected mx1) false h1.
Proof.
  intros HL Hm HE Hs E Hm1. destruct res as [i|]; simpl in E |- *.
  - apply mbind_Ok in E as (inp & ? & [Hi ->]%deref_Ok & E). apply mbind_Ok in E as (id & ? & [Hid ->]%deref_Ok & E).
    apply mbind_Ok in E as ([] & h' & E1 & [= <-]). simpl in Hm1. rewrite lookup_alter_eq in Hm1.
    destruct (mux_chosen m mx _ inp id h HL Hm Hi Hid) as (Hix & Hi0 & cb & Hcb & Hf).
    destruct (bay_enable_frame id cb h (proj1 HL) Hcb) as (h2 & E2 & [_ _ _ Hmx Hcbs]). rewrite E2 in E1. injection E1 as <-.
    rewrite Hmx, Hm in Hm1. injection Hm1 as <-. rewrite Hix.
    assert (enabled_only mx i false h) as HE'.
    { intros j inpj idj cbj Hj Hidj Hcj. destruct (HE j inpj idj cbj Hj Hidj Hcj) as [Hon _]. split; [|done].
      intros Hen. specialize (Hon Hen). lia. }
    assert (enabled_only (set_selected i (set_input i (input_select true) mx)) i true h2) as HT
      by (by apply (toggled_enabled m mx _ i inp id cb true h h2); [..|apply conn_of_select| | | | |]).
    split; [exact HT|by apply enabled_only_weaken].
  - injection E as <-. assert (mx1 = mx) as -> by congruence. split; [done|].
    intros i inp id cb Hi Hid Hc. destruct (HE i inp id cb Hi Hid Hc) as [Hon _]. split; [|done].
    intros Hen. specialize (Hon Hen). lia.
Qed.

Lemma scratch_not_base a : scratch a -> ~ base a.
Proof. unfold scratch, base. intros (n & [-> | ->]); tauto. Qed.

(** Running the select callback settles the multiplexer. *)
Lemma flow_select R m mx a h h' : live h -> all_chans chan_good h -> h_mux h !! m = Some mx -> level1 mx ->
  enabled_only mx (m_selected mx) false h -> a = m_select mx -> cb_select m a h = (Ok tt, h') ->
  exists mx', h_mux h' !! m = Some mx' /\ flow R m mx' h'.
Proof.
  intros HL Hg Hm H1 HE -> E. apply cb_select_Ok in E as (mx0 & mx1 & c & res & v & h1 & h2 & HS).
  assert (mx0 = mx) as -> by (destruct HS; congruence).
  destruct (selected_effect _ _ _ _ _ _ _ _ _ _ _ HL HS) as (X1 & X2 & HL1 & HL2 & EC & X & HL').
  destruct HS as [_ Hc Ed Hm1 Ep Er Ev Es].
  destruct (deselect_enabled m mx mx1 h h1 HL Hm HE Ed Hm1) as [HE1 Hs1].
  destruct (fmap_eq_lookup _ _ _ _ _ (ef_conn _ _ _ _ X2) Hm1) as (mx2 & Hm2 & EC2).
  destruct (reselect_enabled m mx1 mx2 res h1 h2 HL1 Hm1 HE1 Hs1 Er Hm2) as [HE2 HE3].
  assert (all_chans chan_good h2) as Hg2.
  { intros b cb Hb. apply (Hg b). cbn in Hb |- *. rewrite <- Hb. symmetry.
    rewrite (ef_chan _ _ _ _ X2), (ef_chan _ _ _ _ X1); tauto. }
  assert (h_mux h' = h_mux h2 /\ h_cb h' = h_cb h2) as [Emux Ecb].
  { split; [by pose proof (run_op_muxes (OpSet v) (m_output mx1) h2) as Em; simpl in Em; rewrite Es in Em|].
    destruct (run_op_heap (OpSet v) (m_output mx1) h2 (proj1 HL2) (proj1 (proj2 HL2))) as
      [(r & E1 & _)|(cc & cc' & _ & _ & _ & _ & E1 & _)]; simpl in E1; rewrite Es in E1;
      injection E1; by intros -> || (intros -> ?). }
  destruct (chan_set_run _ _ _ _ Hg2 Es) as (_ & Ho & Hch & _).
  assert (m_output mx1 = m_output mx) as Eo by (by apply conn_of_same in EC as [(_ & _ & ? & _) _]).
  exists mx2. split; [by rewrite Emux|].
  assert (conn_of mx2 = conn_of mx) as EC' by congruence.
  assert (forall s b, enabled_only mx2 s b h2 -> enabled_only mx2 s b h') as He
    by (intros s b; apply enabled_only_conn; [done|by rewrite Ecb]).
  split; [by apply He|]. right.
  assert (forall b, base b -> h_chan h' !! b = h_chan h !! b) as Hb.
  { intros b Hb. apply (ef_chan _ _ _ _ X). intros ->.
    apply (scratch_not_base (m_output mx)); [by eapply net_scratch; [apply HL|exact Hm]|done]. }
  pose proof EC' as [_ Esel]%conn_of_same. exists (chan_read c). rewrite Esel. split.
  { exists c. split; [|done]. by rewrite Hb by apply H1. }
  right. exists res. split_and!.
  - apply (picks_conn mx1); [congruence|]. eapply level1_picks; [by eapply level1_conn|exact Ep].
  - by apply He.
  - left. exists v. split.
    + eapply (shown_value_frame mx1); [congruence| |exact Ev]. intros inp b Hin Ha. apply Hch. rewrite Eo. intros ->.
      apply (scratch_not_base (m_output mx)); [by eapply net_scratch; [apply HL|exact Hm]|].
      by eapply (level1_conn mx mx1 EC H1).
    + pose proof EC' as [(_ & _ & -> & _) _]%conn_of_same. by rewrite <- Eo.
Qed.

(** Running the callback of the chosen input does, too. *)
Lemma flow_input (R R' : nat -> Prop) m mx i inp id cb a h h' : live h -> all_chans chan_good h ->
  h_mux h !! m = Some mx -> level1 mx -> h_cb h !! id = Some cb -> cb_func cb = FnInput m i -> cb_enabled cb = true ->
  mux_get_input mx i = Some inp -> mi_cb inp = Some id -> mi_chan inp = Some a ->
  (forall x, x <> id -> R x -> R' x) ->
  cb_input m i a h = (Ok tt, h') -> flow R m mx h -> h_mux h' = h_mux h /\ flow R' m mx h'.
Proof.
  intros HL Hg Hm H1 Hcb Hf Hen Hi Hid Ha HR E [He Hfl].
  destruct (cb_input_effect id cb m i a h h' HL Hcb Hf E) as [X _].
  apply cb_input_Ok in E as (mx0 & inp0 & c & o & Hm0 & Hi0 & Hc & Ho & E). simplify_eq.
  destruct (mux_chosen m mx i inp id h HL Hm Hi Hid) as (Hix & Hi0 & _).
  pose proof Hi as Hin. unfold mux_get_input in Hin. destruct (Z.ltb_spec i 0); [done|].
  destruct (net_input _ (proj2 (proj2 HL)) m mx _ inp id Hm Hin Hid) as (? & _ & _ & Eo & _). rewrite Ho in Eo. injection Eo as ->.
  destruct (chan_set_run _ _ _ _ Hg E) as (_ & Hs & Hch & _).
  assert (forall b, base b -> h_chan h' !! b = h_chan h !! b) as Hb.
  { intros b Hb. apply Hch. intros ->. apply (scratch_not_base (m_output mx)); [by eapply net_scratch; [apply HL|exact Hm]|done]. }
  assert (h_mux h' = h_mux h) as Em by (apply map_eq; intros j; apply (ef_mux _ _ _ _ X j); tauto).
  assert (forall s b, enabled_only mx s b h -> enabled_only mx s b h') as Hk.
  { intros s b. apply enabled_only_conn; [done|]. intros k inpk idk Hk Hidk. apply (effect_inputs _ _ m mx h h' HL X Hm (fun F => F) _ _ _ Hk Hidk). }
  split; [done|]. split; [by apply Hk|]. destruct Hfl as [(s & cbs & Hc1 & Hf1 & Hr)|(v & (cs & Hcs & Hv) & Hfl)].
  - left. exists s, cbs. rewrite (ef_cb _ _ _ _ X); [|by intros ? ? ? ? ? ?]. split_and!; [done..|]. apply HR; [|done].
    intros ->. congruence.
  - right. exists v. split; [exists cs; by rewrite Hb by apply H1|].
    destruct Hfl as [(_ & Hoff & _)|(res & Hp & Hon & _)].
    { destruct (Hoff _ inp id cb Hin Hid Hcb) as [Hoff' _]. specialize (Hoff' Hen). lia. }
    right. exists res. split_and!; [done|by apply Hk|]. left.
    destruct (Hon _ inp id cb Hin Hid Hcb) as [Hres _]. specialize (Hres Hen). rewrite Z2Nat.id in Hres by lia.
    destruct res as [r|]; simpl in Hres; [subst r|lia]. exists (chan_read c). split; [|done].
    simpl. unfold read_input. rewrite Hi, (mbind_run _ _ _ inp h') by done. rewrite Ha, (mbind_run _ _ _ a h') by done.
    erewrite (mbind_run (load a) _ _ c h'); [done|]. apply load_Ok. split; [|done]. simpl. rewrite Hb; [done|].
    by eapply H1; [eapply list_elem_of_lookup_2|].
Qed.

(** ** Any dirty callback *)

Definition touched (f : bay_cb_func) (m : nat) : Prop := f = FnSelect m.

Definition writes (f : bay_cb_func) (h : heap) (a : addr) : Prop :=
  match f with FnSelect m | FnInput m _ => mux_output m h a | FnSort s _ => sort_output s a | FnPrv _ _ => False end.

Lemma call_effect id cb a h h' : live h -> h_cb h !! id = Some cb -> cb_call (cb_func cb) a h = (Ok tt, h') ->
  effect (touched (cb_func cb)) (writes (cb_func cb) h) h h' /\ live h'.
Proof.
  intros HL Hid E. destruct (cb_func cb) as [m|m i|s i|p k] eqn:Hf; simpl in E.
  - destruct (cb_select_effect m a h h' HL E) as [X HL']. split; [|done].
    refine (effect_mono _ _ _ _ _ _ _ _ X); [by intros ? ->|done].
  - destruct (cb_input_effect id cb m i a h h' HL Hid Hf E) as [X HL']. split; [|done].
    by refine (effect_mono _ _ _ _ _ _ _ _ X).
  - destruct (sort_cb_input_effects s i a h tt h' HL E) as [X HL']. split; [|done].
    by refine (effect_mono _ _ _ _ _ _ _ _ X).
  - pose proof (cb_prv_only p k a h) as (E1 & E2 & E3 & E4). rewrite E in E1, E2, E3, E4. simpl in *.
    assert (effect (touched (FnPrv p k)) (writes (FnPrv p k) h) h h') as X.
    { apply effect_same_lists; try congruence; [split; rewrite ?E2, ?E3; try done; exists []; by rewrite app_nil_r|..];
        intros; congruence. }
    split; [done|]. eapply live_effect; [exact X| |done]. eapply bay_inv_ext; [done..|apply HL].
Qed.

Lemma is_input f m : {exists i, f = FnInput m i} + {~ exists i, f = FnInput m i}.
Proof.
  destruct f as [k|k i|s i|p i]; [right; by intros (? & [=])| |right; by intros (? & [=])..].
  destruct (decide (k = m)) as [->|Hk]; [left; by exists i|right]. by intros (? & [= ? ?]).
Qed.

Lemma flows_step (R R' : nat -> Prop) id cb a b h h' : live h -> all_chans chan_good h -> h_cb h !! id = Some cb ->
  cb_enabled cb = true -> find_bay_chan (cb_bchan cb) h = Some b -> a = bc_chan b ->
  cb_call (cb_func cb) a h = (Ok tt, h') ->
  (forall x, spared (touched (cb_func cb)) h x -> x <> id -> R x -> R' x) -> flows R h -> flows R' h'.
Proof.
  intros HL Hg Hid Hen Hb -> E HR HF m mx' Hm' H1'. pose proof HL as (_ & _ & HN).
  destruct (call_effect id cb _ h h' HL Hid E) as [X HL'].
  destruct (fmap_eq_lookup _ _ _ _ _ (eq_sym (ef_conn _ _ _ _ X)) Hm') as (mx & Hm & EC).
  assert (level1 mx) as H1 by by eapply level1_conn. specialize (HF m mx Hm H1).
  destruct (decide (cb_func cb = FnSelect m)) as [Hf|Hns].
  - rewrite Hf in E. destruct (net_cb_select _ HN id cb m Hid Hf) as (mx0 & Hm0 & cb0 & b0 & Hc0 & _ & _ & Hb0 & Hs).
    simplify_eq. destruct (flow_select R' m mx _ h h' HL Hg Hm H1 (proj1 HF) Hs E) as (mx2 & Hm2 & HF2). by simplify_eq.
  - destruct (is_input (cb_func cb) m) as [(i & Hf)|Hni].
    + rewrite Hf in E. destruct (net_cb_input _ HN id cb m i Hid Hf) as (mx0 & inp & Hm0 & Hi & Hc). simplify_eq.
      pose proof Hi as Hin. unfold mux_get_input in Hin. case_match; [done|].
      destruct (net_input _ HN m mx _ inp id Hm Hin Hc) as (a & Ha & _ & _ & cb0 & b0 & Hc0 & _ & _ & Hb0 & <-). simplify_eq.
      destruct (flow_input R R' m mx i inp id cb _ h h' HL Hg Hm H1 Hid Hf Hen Hi Hc Ha) as [Em HF']; try done.
      { intros x Hx. apply HR; [|done]. intros ? ? ? _ _. rewrite Hf. by intros [=]. }
      assert (mx' = mx) as -> by congruence. done.
    + assert (mx' = mx) as ->.
      { rewrite (ef_mux _ _ _ _ X) in Hm' by (unfold touched; congruence). congruence. }
      eapply (flow_frame _ _ R R' m mx h h' HL X Hm); try done.
      * unfold writes. intros c Hc. destruct (cb_func cb) as [k|k i|s i|? ?]; [..|tauto].
        1,2: intros (mxk & Hk & ->); by eapply scratch_not_base; [eapply net_scratch|].
        unfold sort_output. intros Ec. unfold base in Hc. by rewrite Ec in Hc.
      * unfold writes. destruct (cb_func cb) as [k|k i|s i|? ?] eqn:Hf; [..|tauto].
        -- intros (mxk & Hk & Ek). apply Hns. f_equal. by eapply (net_output _ HN).
        -- intros (mxk & Hk & Ek). apply Hni. exists i. f_equal. by eapply (net_output _ HN).
        -- unfold sort_output. destruct (net_scratch _ HN m mx Hm) as (n & [-> | ->]); done.
      * intros x cbx Hx Hfx. apply HR.
        -- intros cby k j Hy Hfy. assert (cby = cbx) as -> by congruence. unfold touched.
           destruct Hfx as [?|(i & ?)]; intros ?; [congruence|]. apply Hns. congruence.
        -- intros ->. assert (cbx = cb) as -> by congruence. destruct Hfx as [?|?]; tauto.
Qed.

(** ** The dirty phase *)

(** What [foreach_cb] has still to run from its cursor. *)
Definition in_cursor (cur : option nat) (l : list nat) (x : nat) : Prop :=
  match cur with None => False | Some id => x = id \/ x ∈ after id l end.

(** The callbacks of the dirty channels from position [k] on. *)
Definition rest (h : heap) (k : nat) (x : nat) : Prop :=
  exists j name b, (k <= j)%nat /\ b_dirty (h_bay h) !! j = Some name /\ find_bay_chan name h = Some b /\
    x ∈ bc_cbs BAY_CB_DIRTY b.

Lemma flows_mono (R R' : nat -> Prop) h : (forall x, R x -> R' x) -> flows R h -> flows R' h.
Proof.
  intros HR HF m mx Hm H1. destruct (HF m mx Hm H1) as [He [(id & cb & ? & ? & ?)|(v & Hs & Hf)]]; (split; [done|]).
  - left. exists id, cb. auto.
  - right. exists v. split; [done|]. destruct Hf as [|(res & ? & ? & [?|(i & inp & id & ? & ? & ? & ?)])]; [by left|right..].
    + exists res. auto.
    + exists res. split_and!; [done..|]. right. exists i, inp, id. auto.
Qed.

Lemma rest_effect K O h h' k x : effect K O h h' -> spared K h x -> rest h k x -> rest h' k x.
Proof.
  intros HE Hx (j & name & b & Hj & Hd & Hb & Hin). destruct (ps_dirty _ _ (ef_step _ _ _ _ HE)) as [l El].
  destruct (ef_lists _ _ _ _ HE name b Hb) as (b' & Hb' & HL). exists j, name, b'. split_and!; [done| |done|].
  - rewrite El. by apply lookup_app_l_Some.
  - by apply (HL x x Hx Hx).
Qed.

Section DirtyPhase.
Variable X : gmap nat thread.

(** A state of the dirty phase. *)
Definition dirtying (h : heap) : Prop := live h /\ coherent_at X h /\ b_state (h_bay h) = BAY_PROPAGATING.

Lemma dirtying_good h : dirtying h -> all_chans chan_good h.
Proof. intros (_ & [[Hs _] _] & _). apply Hs. Qed.

Lemma call_dirtying id cb a h h' : dirtying h -> h_cb h !! id = Some cb -> cb_call (cb_func cb) a h = (Ok tt, h') -> dirtying h'.
Proof.
  intros (HL & Hco & Hst) Hid E. destruct (call_effect id cb a h h' HL Hid E) as [HE HL'].
  split_and!; [done|by eapply cb_call_coherent|]. by rewrite (ps_state _ _ (ef_step _ _ _ _ HE)).
Qed.

Lemma foreach_cb_flows fuel name cur k b h h' : dirtying h -> b_dirty (h_bay h) !! k = Some name ->
  find_bay_chan name h = Some b -> (forall x, cur = Some x -> x ∈ bc_cbs BAY_CB_DIRTY b) ->
  flows (fun x => in_cursor cur (bc_cbs BAY_CB_DIRTY b) x \/ rest h (S k) x) h ->
  foreach_cb fuel name BAY_CB_DIRTY cur h = (Ok tt, h') -> dirtying h' /\ flows (rest h' (S k)) h'.
Proof.
  revert cur b h. induction fuel as [|fuel IH]; intros [id|] b h HD Hk Hb Hin HF E; simpl in E; try discriminate.
  1,3: injection E as <-; split; [done|]; eapply flows_mono; [|exact HF]; simpl; tauto.
  apply mbind_Ok in E as (? & ? & [= <- <-] & E). apply mbind_Ok in E as (cb & ? & [Hid ->]%deref_Ok & E).
  apply mbind_Ok in E as (b0 & ? & [Hb0 ->]%deref_Ok & E). apply mbind_Ok in E as ([] & h1 & E1 & E).
  apply mbind_Ok in E as (? & ? & [= <- <-] & E). apply mbind_Ok in E as (b1 & ? & [Hb1 ->]%deref_Ok & E).
  assert (b0 = b) as -> by congruence. pose proof HD as (HL & _). pose proof HL as (HB & _).
  destruct (bi_cbs h HB name b _ id Hb (Hin id eq_refl)) as (cb0 & Hc0 & <- & Hty & Hen).
  assert (cb0 = cb) as -> by congruence.
  destruct (call_effect id cb _ h h1 HL Hid E1) as [HE HL1].
  assert (spared (touched (cb_func cb)) h id) as Hsp.
  { intros cb1 m i Hc Hf Ht. unfold touched in Ht. congruence. }
  destruct (ef_lists _ _ _ _ HE _ b Hb) as (b1' & Hb1' & HLs). assert (b1' = b1) as -> by congruence.
  assert (NoDup (bc_cbs BAY_CB_DIRTY b1)) as Hnd by (eapply bi_cbs_nodup; [apply HL1|exact Hb1]).
  apply (IH (head (after id (bc_cbs BAY_CB_DIRTY b1))) b1 h1); try done.
  - eapply call_dirtying; [exact HD|exact Hid|exact E1].
  - destruct (ps_dirty _ _ (ef_step _ _ _ _ HE)) as [l ->]. by apply lookup_app_l_Some.
  - intros x Hx%head_elem. by eapply after_sub.
  - eapply (flows_step _ _ id cb _ b h h1); [done|by apply dirtying_good|done|done|done|reflexivity|exact E1| |exact HF].
    intros x Hx Hne [Hc|Hr]; [left|right; by eapply rest_effect].
    destruct Hc as [?|Hc]; [done|]. apply (HLs id x Hsp Hx) in Hc. 
    destruct (after id (bc_cbs BAY_CB_DIRTY b1)) as [|y r] eqn:Ea; [by apply elem_of_nil in Hc|].
    change (x = y \/ x ∈ after y (bc_cbs BAY_CB_DIRTY b1)). rewrite (after_step _ _ _ _ Hnd Ea). by apply elem_of_cons in Hc.
Qed.

Lemma foreach_dirty_flows fuel cfuel k h h' : dirtying h -> flows (rest h k) h ->
  foreach_dirty fuel (fun n => propagate_chan cfuel n BAY_CB_DIRTY) k h = (Ok tt, h') -> dirtying h' /\ flows (fun _ => False) h'.
Proof.
  revert k h. induction fuel as [|fuel IH]; intros k h HD HF E; simpl in E;
    apply mbind_Ok in E as (? & ? & [= <- <-] & E);
    (destruct (b_dirty (h_bay h) !! k) as [name|] eqn:Hk;
      [|injection E as <-; split; [done|]; eapply flows_mono; [|exact HF];
        intros x (j & n & b & Hj & Hd & _); apply lookup_ge_None in Hk; apply lookup_lt_Some in Hd; lia]); [discriminate|].
  apply mbind_Ok in E as ([] & h1 & E1 & E). unfold propagate_chan in E1.
  apply mbind_Ok in E1 as (? & ? & [= <- <-] & E1). apply mbind_Ok in E1 as (b & ? & [Hb ->]%deref_Ok & E1).
  destruct (foreach_cb_flows cfuel name (head (bc_cbs BAY_CB_DIRTY b)) k b h h1 HD Hk Hb) as [HD1 HF1]; [by intros x ?%head_elem| |done|].
  - eapply flows_mono; [|exact HF]. intros x (j & n & b' & Hj & Hd & Hb' & Hx).
    destruct (decide (j = k)) as [->|]; [|right; exists j, n, b'; split_and!; try done; lia]. left.
    assert (n = name) as -> by congruence. assert (b' = b) as -> by congruence.
    destruct (bc_cbs BAY_CB_DIRTY b) as [|y r]; [by apply elem_of_nil in Hx|]. simpl. rewrite decide_True by done.
    by apply elem_of_cons in Hx.
  - by apply (IH (S k) h1).
Qed.
End DirtyPhase.

(** ** The other phases *)

Lemma flows_same R h h' : h_mux h' = h_mux h -> h_cb h' = h_cb h ->
  (forall a c, h_chan h !! a = Some c -> exists c', h_chan h' !! a = Some c' /\ chan_read c' = chan_read c) ->
  flows R h -> flows R h'.
Proof.
  intros Em Ec Hch HF m mx Hm H1. rewrite Em in Hm.
  assert (forall a v, shows h a v -> shows h' a v) as Hs.
  { intros a v (c & Hc & <-). by apply Hch. }
  assert (forall s b, enabled_only mx s b h -> enabled_only mx s b h') as He
    by (intros s b; apply enabled_only_conn; [done|by rewrite Ec]).
  assert (forall res w, shown_value mx res h = (Ok w, h) -> shown_value mx res h' = (Ok w, h')) as Hv.
  { intros [i|] w; simpl; [|by intros [= <-]]. unfold read_input. intros E.
    apply mbind_Ok in E as (inp & ? & [Hi ->]%deref_Ok & E). apply mbind_Ok in E as (a & ? & [Ha ->]%deref_Ok & E).
    apply mbind_Ok in E as (c & ? & [Hc ->]%load_Ok & [= <-]). destruct (Hch a c Hc) as (c' & Hc' & <-).
    rewrite Hi, (mbind_run _ _ _ inp h') by done. rewrite Ha, (mbind_run _ _ _ a h') by done.
    by erewrite (mbind_run (load a) _ _ c' h') by by apply load_Ok. }
  destruct (HF m mx Hm H1) as [He0 [(id & cb & ? & ? & ?)|(v & Hsel & Hf)]]; (split; [by apply He|]).
  - left. exists id, cb. by rewrite Ec.
  - right. exists v. split; [by apply Hs|]. destruct Hf as [(-> & ? & ?)|(res & ? & ? & Hf)]; [left; split_and!; auto|right].
    exists res. split_and!; [done|by apply He|]. destruct Hf as [(w & ? & ?)|?]; [left|by right]. exists w. auto.
Qed.

Section EmitPhase.
Variable h0 : heap.
Hypothesis HB : bay_inv h0.
Hypothesis HC : client_inv h0.

Lemma foreach_cb_emits fuel name cur h h' : only_prv h0 h ->
  (forall x b, cur = Some x -> find_bay_chan name h0 = Some b -> x ∈ bc_cbs BAY_CB_EMIT b) ->
  foreach_cb fuel name BAY_CB_EMIT cur h = (Ok tt, h') -> only_prv h0 h'.
Proof.
  revert cur h. induction fuel as [|fuel IH]; intros [id|] h HP Hin E; simpl in E; try discriminate; try by injection E as <-.
  apply mbind_Ok in E as (? & ? & [= <- <-] & E). apply mbind_Ok in E as (cb & ? & [Hid ->]%deref_Ok & E).
  apply mbind_Ok in E as (b & ? & [Hb ->]%deref_Ok & E). apply mbind_Ok in E as ([] & h1 & E1 & E).
  apply mbind_Ok in E as (? & ? & [= <- <-] & E). apply mbind_Ok in E as (b1 & ? & [Hb1 ->]%deref_Ok & E).
  pose proof HP as (P1 & P2 & P3 & P4). unfold find_bay_chan in Hb. rewrite P2 in Hb. fold (find_bay_chan name h0) in Hb.
  destruct (bi_cbs h0 HB name b _ id Hb (Hin id b eq_refl Hb)) as (cb0 & Hc0 & _ & Hty & _). rewrite P3 in Hid. simplify_eq.
  rewrite (ci_type _ HC id cb Hid) in Hty. destruct (cb_func cb) as [| | |p k] eqn:Hf; try discriminate. simpl in E1.
  pose proof (cb_prv_only p k (bc_chan b) h) as (Q1 & Q2 & Q3 & Q4). rewrite E1 in Q1, Q2, Q3, Q4. simpl in *.
  assert (only_prv h0 h1) as HP1 by (split_and!; congruence). apply (IH (head (after id (bc_cbs BAY_CB_EMIT b1))) h1 HP1); [|done].
  intros x b2 Hx%head_elem%after_sub Hb2. destruct HP1 as (_ & P5 & _). unfold find_bay_chan in *.
  rewrite P5, Hb2 in Hb1. by injection Hb1 as <-.
Qed.

Lemma foreach_dirty_emits fuel cfuel k h h' : only_prv h0 h ->
  foreach_dirty fuel (fun n => propagate_chan cfuel n BAY_CB_EMIT) k h = (Ok tt, h') -> only_prv h0 h'.
Proof.
  revert k h. induction fuel as [|fuel IH]; intros k h HP E; simpl in E;
    apply mbind_Ok in E as (? & ? & [= <- <-] & E);
    (destruct (b_dirty (h_bay h) !! k) as [name|] eqn:Hk; [|by injection E as <-]); [discriminate|].
  apply mbind_Ok in E as ([] & h1 & E1 & E). unfold propagate_chan in E1.
  apply mbind_Ok in E1 as (? & ? & [= <- <-] & E1). apply mbind_Ok in E1 as (b & ? & [Hb ->]%deref_Ok & E1).
  apply (IH (S k) h1); [|done]. eapply foreach_cb_emits; [done| |exact E1].
  intros x b' Hx%head_elem Hb'. destruct HP as (_ & P2 & _). unfold find_bay_chan in *. rewrite P2 in Hb. congruence.
Qed.
End EmitPhase.

(** ** A whole propagation *)

Lemma flushed_read l c : chan_read (flushed l c) = chan_read c.
Proof. unfold flushed. by repeat case_match. Qed.

Lemma net_ext h h' : h_mux h' = h_mux h -> h_cb h' = h_cb h -> b_channels (h_bay h') = b_channels (h_bay h) -> net h -> net h'.
Proof.
  intros E1 E2 E3 [N1 N2 N3 N4 N5 N6 N7].
  assert (forall id f a, cb_on h id f a -> cb_on h' id f a) as Hon.
  { intros id f a (cb & b & ? & ? & ? & ? & ?). exists cb, b. unfold find_bay_chan in *. rewrite E2, E3. by split_and!. }
  split; rewrite ?E1, ?E2.
  - intros m mx i inp id ? ? ?. destruct (N1 m mx i inp id) as (a & ? & ? & ? & ?); [done..|]. exists a. auto.
  - done.
  - intros id cb m ? ?. destruct (N3 id cb m) as (mx & ? & ?); [done..|]. exists mx. auto.
  - intros m mx ?. destruct (N4 m mx) as (id & ?); [done|]. exists id. auto.
  - done.
  - done.
  - done.
Qed.

(** The select callbacks of muxes are enabled. *)
Definition selects_on (h : heap) : Prop :=
  forall id cb m, h_cb h !! id = Some cb -> cb_func cb = FnSelect m -> cb_enabled cb = true.

Lemma selects_on_effect K O h h' : effect K O h h' -> selects_on h -> selects_on h'.
Proof.
  intros HE HS id cb m Hid Hf.
  destruct (fmap_eq_lookup _ _ _ _ _ (eq_sym (ps_funcs _ _ (ef_step _ _ _ _ HE))) Hid) as (cb0 & Hid0 & E0).
  assert (spared K h id) as Hsp by (intros cb' k i Hc Hfc; assert (cb' = cb0) as -> by congruence; congruence).
  rewrite (ef_cb _ _ _ _ HE _ Hsp) in Hid. by eapply HS.
Qed.

(** Between events: nothing is dirty, and every track multiplexer is settled or
    waits for a callback of a dirty channel. *)
Record flowing (h : heap) : Prop := {
  fw_bay : bay_inv h;
  fw_client : client_inv h;
  fw_net : net h;
  fw_selects : selects_on h;
  fw_state : b_state (h_bay h) = BAY_READY;
  fw_flows : flows (rest h 0) h
}.

(** What a finished propagation leaves. *)
Record calm (h : heap) : Prop := {
  cm_flowing : flowing h;
  cm_dirty : b_dirty (h_bay h) = [];
  cm_flows : flows (fun _ => False) h
}.

(** With the connections [C]. *)
Definition linked (C : gmap nat _) (h : heap) : Prop := conn_of <$> h_mux h = C.

Lemma dirty_phase_selects X C fuel cfuel k h h' : dirtying X h -> selects_on h /\ linked C h ->
  foreach_dirty fuel (fun n => propagate_chan cfuel n BAY_CB_DIRTY) k h = (Ok tt, h') -> selects_on h' /\ linked C h'.
Proof.
  intros HD HS E.
  assert (forall name cur cf h h', dirtying X h /\ selects_on h /\ linked C h ->
    foreach_cb cf name BAY_CB_DIRTY cur h = (Ok tt, h') -> dirtying X h' /\ selects_on h' /\ linked C h') as Hcb.
  { clear. intros name cur cf. revert cur. induction cf as [|cf IH]; intros [id|] h h' [HD HS] E; simpl in E; try discriminate; try by injection E as <-.
    apply mbind_Ok in E as (? & ? & [= <- <-] & E). apply mbind_Ok in E as (cb & ? & [Hid ->]%deref_Ok & E).
    apply mbind_Ok in E as (b0 & ? & [Hb0 ->]%deref_Ok & E). apply mbind_Ok in E as ([] & h1 & E1 & E).
    apply mbind_Ok in E as (? & ? & [= <- <-] & E). apply mbind_Ok in E as (b1 & ? & [Hb1 ->]%deref_Ok & E).
    eapply IH; [|exact E]. split; [eapply call_dirtying; [exact HD|exact Hid|exact E1]|].
    destruct (call_effect id cb _ h h1 (proj1 HD) Hid E1) as [HE _]. destruct HS as [HS HC].
    split; [by eapply selects_on_effect|]. unfold linked. by rewrite (ef_conn _ _ _ _ HE). }
  revert k h HD HS E. induction fuel as [|fuel IH]; intros k h HD HS E; simpl in E;
    apply mbind_Ok in E as (? & ? & [= <- <-] & E);
    (destruct (b_dirty (h_bay h) !! k) as [name|] eqn:Hk; [|by injection E as <-]); [discriminate|].
  apply mbind_Ok in E as ([] & h1 & E1 & E). unfold propagate_chan in E1.
  apply mbind_Ok in E1 as (? & ? & [= <- <-] & E1). apply mbind_Ok in E1 as (b & ? & [Hb ->]%deref_Ok & E1).
  destruct (Hcb _ _ _ _ _ (conj HD HS) E1) as [HD1 HS1]. by apply (IH (S k) h1).
Qed.

Lemma propagate_flows fuel h h' : coherent h -> flowing h -> bay_propagate fuel h = (Ok tt, h') ->
  calm h' /\ conn_of <$> h_mux h' = conn_of <$> h_mux h.
Proof.
  intros Hco [HB HC HN HS Hst HF] E. set (X := h_thread h).
  pose proof (proj1 (bay_propagate_phases fuel h HB HC)) as Hres. rewrite E in Hres. specialize (Hres eq_refl).
  assert (bay_inv h' /\ client_inv h') as [HB' HC'].
  { destruct Hres as (h2 & HB2 & HC2 & _ & Er). simpl in Er. rewrite Er. split; [by apply settled_inv|].
    exact (cb_inv_state _ BAY_READY (cb_inv_dirty _ (fun _ => []) (cb_inv_chan _ _ HC2))). }
  clear Hres. unfold bay_propagate in E. apply mbind_Ok in E as ([] & h1 & [= <-] & E).
  set (h1 := set_h_bay (set_b_state BAY_PROPAGATING) h) in *.
  assert (dirtying X h1) as HD1.
  { split_and!; [split_and!|..]; [by destruct HB; split|by right|by apply (net_ext h)|by apply (coherent_ext X h)|done]. }
  assert (flows (rest h1 0) h1) as HF1 by (apply (flows_same _ h); [done|done|by intros a c ?; exists c|exact HF]).
  apply mbind_Ok in E as ([] & h2 & E1 & E).
  destruct (foreach_dirty_flows X fuel fuel 0 h1 h2 HD1 HF1 E1) as [HD2 HF2].
  assert (selects_on h2 /\ linked (conn_of <$> h_mux h) h2) as [HS2 HL2]
    by (eapply (dirty_phase_selects X); [exact HD1|by split|exact E1]).
  destruct (phase_loop BAY_CB_DIRTY BAY_PROPAGATING fuel fuel 0 h1 dirty_law) as ((_ & HC2 & _) & _ & _).
  { split_and!; [apply HD1|by apply cb_inv_state|done]. }
  rewrite E1 in HC2. simpl in HC2. change (client_inv h2) in HC2. apply mbind_Ok in E as ([] & h3 & [= <-] & E).
  set (h3 := set_h_bay (set_b_state BAY_EMITTING) h2) in *. apply mbind_Ok in E as ([] & h4 & E2 & E).
  assert (bay_inv h2) as HB2 by apply HD2.
  assert (only_prv h3 h4) as (Q1 & Q2 & Q3 & Q4).
  { eapply (foreach_dirty_emits h3); [by destruct HB2; split|by apply (client_inv_ext h2)|done|exact E2]. }
  apply mbind_Ok in E as ([] & h5 & [= <-] & E). set (h5 := set_h_bay (set_b_state BAY_FLUSHING) h4) in *.
  apply mbind_Ok in E as ([] & h6 & E3 & [= <-]).
  assert (bay_inv h5) as HB5.
  { apply (bay_inv_ext h3 h4) in Q3; [|done..|by destruct HB2; split]. by destruct Q3; split. }
  destruct (flush_loop_any h5 fuel HB5) as [E4|[E4 _]]; [|by rewrite E3 in E4]. rewrite E4 in E3. injection E3 as <-.
  set (hf := set_h_bay _ (flush_heap _ _)).
  assert (flows (fun _ => False) hf) as HFf.
  { apply (flows_same _ h2); [exact Q4|exact Q3| |exact HF2]. intros a c Hc. simpl. rewrite Q1. simpl. rewrite lookup_fmap, Hc.
    simpl. eexists. split; [done|]. by rewrite flushed_read. }
  split; [|unfold linked in HL2; rewrite <- HL2; simpl; by rewrite Q4].
  split; [|done|done]. split; [done|done| | |done|by eapply flows_mono; [|exact HFf]].
  - apply (net_ext h2); [exact Q4|exact Q3| |apply HD2]. simpl. by rewrite Q2.
  - intros id cb m. simpl. rewrite Q3. apply HS2.
Qed.

(** ** Events *)

Lemma flowing_ext h h' : h_chan h' = h_chan h -> h_bay h' = h_bay h -> h_cb h' = h_cb h -> h_mux h' = h_mux h ->
  flowing h -> flowing h'.
Proof.
  intros E1 E2 E3 E4 [H1 H2 H3 H4 H5 H6]. split.
  - by eapply bay_inv_ext.
  - by eapply client_inv_ext.
  - eapply net_ext; [done..|by rewrite E2|done].
  - unfold selects_on. by rewrite E3.
  - by rewrite E2.
  - eapply flows_same; [done|done|rewrite E1; intros a c ?; by exists c|].
    eapply flows_mono; [|exact H6]. intros x (j & n & b & ?). exists j, n, b. unfold find_bay_chan in *. by rewrite E2.
Qed.

Lemma rest_written h a c c' x : rest h 0 x -> rest (heap_written a c' (newly_dirty c) h) 0 x.
Proof.
  intros (j & n & b & Hj & Hd & Hb & Hx). exists j, n, b. split_and!; [done| |done|done]. simpl. by apply lookup_app_l_Some.
Qed.

(** The enabled callbacks of a channel that is written are to run. *)
Lemma written_rest h a c c' id f cb : bay_inv h -> bay_inv (heap_written a c' (newly_dirty c) h) ->
  cb_on h id f a -> h_cb h !! id = Some cb -> cb_enabled cb = true -> rest (heap_written a c' (newly_dirty c) h) 0 id.
Proof.
  intros HB HB' (cb0 & b & Hid & _ & Hty & Hb & <-) Hid' Hen. assert (cb0 = cb) as -> by congruence.
  destruct (bi_cb h HB id cb Hid) as (_ & b0 & Hb0 & Hin). assert (b0 = b) as -> by congruence. specialize (Hin Hen).
  rewrite Hty in Hin. set (h' := heap_written _ _ _ _) in *.
  assert (cb_bchan cb ∈ b_dirty (h_bay h')) as Hd.
  { apply (bi_dirty h' HB'). exists b, (with_dirty true c'). split_and!; [done| |done].
    unfold h'. by rewrite heap_written_chan, decide_True. }
  apply list_elem_of_lookup in Hd as [j Hj]. exists j, (cb_bchan cb), b. split_and!; [lia|done..].
Qed.

Lemma run_op_flowing op a : base a -> keeps_ok flowing (run_op op a).
Proof.
  intros Ha h [] h' [HB HC HN HS Hst HF] E.
  destruct (run_op_heap op a h HB (or_introl Hst)) as [(r & E1 & _)|(c & c' & Hc & _ & _ & _ & E1 & HB')]; rewrite E in E1.
  { injection E1 as _ ->. done. }
  injection E1 as ->. set (h1 := heap_written a c' (newly_dirty c) h) in *.
  split; [done|by apply (client_inv_ext h)|by apply (net_ext h)|done|done|].
  intros m mx Hm H1. change (h_mux h !! m = Some mx) in Hm. destruct (HF m mx Hm H1) as [He Hfl]. split; [done|].
  assert (forall b, b <> a -> h_chan h1 !! b = h_chan h !! b) as Hch.
  { intros b Hb. unfold h1. by rewrite heap_written_chan, decide_False. }
  assert (forall b v, b <> a -> shows h b v -> shows h1 b v) as Hs.
  { intros b v Hb (cb & ? & ?). exists cb. by rewrite Hch. }
  assert (m_output mx <> a) as Hout.
  { intros E1. apply (scratch_not_base (m_output mx)); [by eapply net_scratch|by rewrite E1]. }
  destruct (decide (a = m_select mx)) as [->|Hsel].
  { left. destruct (net_select _ HN m mx Hm) as (id & Hon). pose proof Hon as (cb & b & Hid & Hf & _).
    exists id, cb. split_and!; [done..|]. eapply written_rest; [done..|exact Hon|exact Hid|]. by eapply HS. }
  destruct Hfl as [(id & cb & ? & ? & Hr)|(v & Hv & Hfl)].
  { left. exists id, cb. split_and!; [done..|by apply rest_written]. }
  right. exists v. split; [by apply Hs|]. destruct Hfl as [(-> & ? & Ho)|(res & Hp & Hon & Hfl)].
  { left. split_and!; [done..|by apply Hs]. }
  right. exists res. split_and!; [done..|]. destruct Hfl as [(w & Hw & Hsw)|(i & inp & id & ? & ? & ? & Hr)].
  2:{ right. exists i, inp, id. split_and!; [done..|by apply rest_written]. }
  destruct res as [i|]; [|left; exists w; split; [by injection Hw as <-|by apply Hs]].
  simpl in Hw. pose proof Hw as Hr. unfold read_input in Hr. apply mbind_Ok in Hr as (inp & ? & [Hi ->]%deref_Ok & Hr).
  apply mbind_Ok in Hr as (b & ? & [Hb ->]%deref_Ok & Hr). apply mbind_Ok in Hr as (cc & ? & [Hcc ->]%load_Ok & [= Hwv]).
  destruct (decide (b = a)) as [->|Hne].
  - unfold mux_get_input in Hi. destruct (Z.ltb_spec i 0) as [|Hi0]; [done|].
    destruct (mi_cb inp) as [id|] eqn:Hid; [|].
    + destruct (net_input _ HN m mx _ inp id Hm Hi Hid) as (b & Hb' & _ & _ & Hcb). rewrite Hb in Hb'. injection Hb' as <-.
      right. exists i, inp, id. split_and!; [done| |done|].
      { unfold mux_get_input. by rewrite (proj2 (Z.ltb_ge _ _)) by lia. }
      pose proof Hcb as (cb & bb & Hc1 & _). eapply written_rest; [done..|exact Hcb|exact Hc1|].
      destruct (Hon _ inp id cb Hi Hid Hc1) as [_ Hen]. apply Hen; [done|]. simpl. lia.
    + exfalso. by eapply (net_linked _ HN).
  - left. exists w. split; [|by apply Hs]. simpl. unfold read_input.
    rewrite Hi, (mbind_run _ _ _ inp h1) by done. rewrite Hb, (mbind_run _ _ _ b h1) by done.
    erewrite (mbind_run (load b) _ _ cc h1); [by rewrite Hwv|]. apply load_Ok. split; [|done]. simpl. rewrite <- Hcc.
    by apply Hch.
Qed.
