(* ===== verification/FlowHooks.v ===== *)
(** * Runs of the emulator keep the tracks flowing

    The event hooks of the models write channels that no multiplexer writes and
    touch neither the bay nor the multiplexers, which is all that [Flow.v] asks
    of them. *)

From Stdlib Require Import Ascii.
From S2P Require Import Prelude Chan Pcf Task Heap Bay Mux Sort Prv Dispatch Thread Loom Event OvniModel OvniCorrect.
From S2P Require Import Coherence Model Emu Table TaskModel Nosv Nanos6 Openmp Kernel Mpi Tampi Nodes Hooks Effect Flow.

(** ** What the emulator asks of an event hook *)

(** Flowing, with the connections [C] of the multiplexers. *)
Definition flowing_at (C : gmap nat _) (h : heap) : Prop := flowing h /\ linked C h.

Class FlowHook (event : ctx -> M heap unit) : Prop := { fh_step : forall C x, keeps_ok (flowing_at C) (event x) }.

Class FlowModels {S} (md : model S) : Prop := {
  fm_event : forall i spec event, md_spec md !! i = Some spec -> ms_event spec = Some event -> FlowHook event
}.

Section At.
Variable C : gmap nat (Z * option mux_select_func * addr * addr * value * list (Z * option addr * option addr * option nat)).

Lemma mod_flowing f : (forall h, h_chan (f h) = h_chan h /\ h_bay (f h) = h_bay h /\ h_cb (f h) = h_cb h /\ h_mux (f h) = h_mux h) ->
  keeps_ok (flowing_at C) (mmod f).
Proof. intros Hf. apply keeps_ok_mod. intros h [HF HC]. destruct (Hf h) as (? & ? & ? & Em).
  split; [by apply (flowing_ext h)|]. unfold linked. by rewrite Em.
Qed.

Lemma run_op_flowing_at op a : base a -> keeps_ok (flowing_at C) (run_op op a).
Proof.
  intros Ha h [] h' [HF HC] E. split; [by eapply run_op_flowing|].
  pose proof (run_op_muxes op a h) as Em. rewrite E in Em. simpl in Em. unfold linked. by rewrite Em.
Qed.

Lemma on_tasks_flowing {A} m p (op : M tasks A) : keeps_ok (flowing_at C) (on_tasks m p op).
Proof.
  intros h a h' HF E. unfold on_tasks in E. destruct (h_tasks h !! (ch m, p)) as [ts|]; [|discriminate].
  destruct (op ts) as [r ts']. injection E as _ <-. destruct HF as [HF HC]. split; [by apply (flowing_ext h)|done].
Qed.

Lemma run_entry_flowing m t e : keeps_ok (flowing_at C) (run_entry m t e).
Proof.
  destruct e as [[[i []] st]|]; simpl; try quiet_step.
  - by apply (run_op_flowing_at (OpPush _)).
  - by apply (run_op_flowing_at (OpPop _)).
  - by apply (run_op_flowing_at (OpSet _)).
Qed.

Lemma for_each_flowing {A} (f : A -> M heap unit) l :
  (forall a, keeps_ok (flowing_at C) (f a)) -> keeps_ok (flowing_at C) (for_each f l).
Proof. intros Hf. induction l as [|a l IH]; simpl; [quiet_step|]. by co_bind. Qed.
End At.

Ltac fl_tac :=
  repeat first
    [ co_bind | quiet_step | solve [apply on_tasks_flowing] | solve [apply run_entry_flowing]
    | solve [apply (run_op_flowing_at _ (OpSet _)); exact I]
    | solve [apply (run_op_flowing_at _ (OpPush _)); exact I]
    | solve [apply (run_op_flowing_at _ (OpPop _)); exact I]
    | solve [by apply mod_flowing]
    | lazymatch goal with |- keeps_ok _ (match _ with _ => _ end) => case_match end
    | lazymatch goal with |- keeps_ok _ (if _ then _ else _) => case_match end
    | lazymatch goal with |- keeps_ok _ (for_each _ _) => apply for_each_flowing; intros ? end ].

(** ** The hooks *)

#[export] Instance nosv_flow : FlowHook model_nosv_event.
Proof.
  split. intros C x. open_nosv.
  fl_tac.
Qed.

#[export] Instance nanos6_flow : FlowHook model_nanos6_event.
Proof.
  split. intros C x. open_nanos6.
  fl_tac.
Qed.

#[export] Instance openmp_flow : FlowHook model_openmp_event.
Proof.
  split. intros C x. open_openmp.
  fl_tac.
Qed.

#[export] Instance mpi_flow : FlowHook model_mpi_event.
Proof. split. intros C x. open_table. fl_tac. Qed.
#[export] Instance tampi_flow : FlowHook model_tampi_event.
Proof. split. intros C x. open_table. fl_tac. Qed.
#[export] Instance nodes_flow : FlowHook model_nodes_event.
Proof. split. intros C x. open_table. fl_tac. Qed.
#[export] Instance xtasks_flow : FlowHook model_xtasks_event.
Proof. split. intros C x. open_xtasks. fl_tac. Qed.
#[export] Instance kernel_flow : FlowHook model_kernel_event.
Proof. split. intros C x. unfold model_kernel_event, Kernel.process_ev, context_switch, set_out_of_cpu, load_thread. fl_tac. Qed.

Lemma cpu_update_flowing C c : keeps_ok (flowing_at C) (cpu_update c).
Proof.
  unfold cpu_update, load_cpu, load_thread, load_proc, upd_cpu. repeat first [progress fl_tac | apply keeps_ok_quiet, count_threads_quiet].
Qed.

#[export] Instance ovni_flow : FlowHook model_ovni_event.
Proof.
  assert (forall l tid, quiet (find_in_procs l tid)) as Hq.
  { intros l tid. induction l as [|[k p] l IH]; simpl; [done|]. unfold load_proc. quiet_tac. }
  split. intros C x. open_ovni.
  repeat first [progress fl_tac | apply cpu_update_flowing | apply keeps_ok_quiet, Hq].
Qed.

(** ** Runs *)

Lemma recorder_advance_flowing C prvs t : keeps_ok (flowing_at C) (recorder_advance prvs t).
Proof. unfold recorder_advance, prv_advance, load_prv. fl_tac. Qed.

(** An event and the propagation that follows. *)
Lemma event_calm {S} (md : model S) fuel x C h h' : GoodModels md -> FlowModels md -> coherent h -> flowing_at C h ->
  (model_event md x (ee_m (cx_ev x)) ;;; bay_propagate fuel) h = (Ok tt, h') -> coherent h' /\ calm h' /\ linked C h'.
Proof.
  intros HM HFM Hco HF E. apply mbind_Ok in E as ([] & h2 & E2 & E).
  assert (coherent h2 /\ flowing_at C h2) as [Hco2 [HF2 HC2]].
  { unfold model_event in E2. do 2 (case_match; [discriminate|]).
    apply mbind_Ok in E2 as (spec & ? & [Hspec ->]%deref_Ok & E2).
    destruct (ms_event spec) as [event|] eqn:Hev; [|by injection E2 as <-].
    destruct (gm_event _ _ _ Hspec Hev) as [Hh]. destruct (fm_event _ _ _ Hspec Hev) as [Hf].
    split; [by apply (Hh x h h2)|by apply (Hf C x h tt h2)]. }
  destruct (propagate_flows fuel h2 h' Hco2 HF2 E) as [Hca Hc].
  split; [|split; [done|unfold linked; by rewrite Hc]].
  apply (bay_propagate_coherent (h_thread h2) fuel h2 tt h'); [by split|done].
Qed.

Lemma emu_process_calm {S} (md : model S) prvs fuel x C h h' : GoodModels md -> FlowModels md -> coherent h -> flowing_at C h ->
  emu_process md prvs fuel x h = (Ok tt, h') -> coherent h' /\ calm h' /\ linked C h'.
Proof.
  intros HM HFM Hco HF E. unfold emu_process in E. apply mbind_Ok in E as ([] & h1 & E1 & E).
  pose proof (recorder_advance_coherent (h_thread h) _ _ _ _ _ (coherent_at_self h Hco) E1) as [Hco1 _].
  apply (recorder_advance_flowing C) in E1; [|done]. by apply (event_calm md fuel x C h1 h').
Qed.

Lemma emu_run_calm {S} (md : model S) prvs fuel xs C h h' : GoodModels md -> FlowModels md -> coherent h -> calm h ->
  linked C h -> for_each (emu_process md prvs fuel) xs h = (Ok tt, h') -> coherent h' /\ calm h' /\ linked C h'.
Proof.
  intros HM HFM. revert h. induction xs as [|x xs IH]; intros h Hco Hca HC E; simpl in E; [by injection E as <-|].
  apply mbind_Ok in E as ([] & h1 & E1 & E).
  apply (emu_process_calm md prvs fuel x C) in E1 as (H1 & C1 & L1); [|done..|split; [apply Hca|done]]. by apply (IH h1).
Qed.
