(* ===== verification/Views.v ===== *)
(** * What the tracks show over a run of the emulator

    The rows of threads and CPUs in the traces are tracks: multiplexers that
    show a channel of a model while the thread runs, is active, or runs on the
    CPU.  From a settled start, after any events, every track shows what it is
    for: the value of the tracked channel exactly while its thread is in the
    states of the track, and for a CPU that of the thread that runs there. *)

From Stdlib Require Import Ascii.
From S2P Require Import Prelude Chan Heap Bay Mux Sort Prv Dispatch Thread Loom Event OvniModel OvniCorrect.
From S2P Require Import Coherence Model Emu Effect Flow FlowHooks.

(** ** A settled multiplexer *)

Lemma calm_follows h m mx : calm h -> h_mux h !! m = Some mx -> level1 mx ->
  exists v, shows h (m_select mx) v /\ (asleep mx v h \/ exists res, picks mx v res /\ follows mx res h).
Proof.
  intros [_ _ Hf] Hm H1. destruct (Hf m mx Hm H1) as [_ [(id & cb & _ & _ & [])|(v & Hv & Hs)]].
  exists v. split; [done|]. destruct Hs as [Ha|(res & Hp & _ & [Hw|(i & inp & id & _ & _ & _ & [])])]; [by left|]. right. by eauto.
Qed.

Lemma shows_same h a v w : shows h a v -> shows h a w -> v = w.
Proof. intros (c & Hc & Ev) (c' & Hc' & Ew). congruence. Qed.

Lemma picks_unique mx v res res' h : picks mx v res -> select_input mx v h = (Ok res', h) -> res' = res.
Proof. intros Hp E. rewrite Hp in E. by injection E. Qed.

Lemma follows_default mx h : follows mx None h -> shows h (m_output mx) (m_def mx).
Proof. by intros (w & [= <-] & Hw). Qed.

Lemma follows_input mx i h : follows mx (Some i) h ->
  exists inp a w, mux_get_input mx i = Some inp /\ mi_chan inp = Some a /\ shows h a w /\ shows h (m_output mx) w.
Proof.
  intros (w & E & Hw). simpl in E. unfold read_input in E.
  apply mbind_Ok in E as (inp & ? & [Hi ->]%deref_Ok & E). apply mbind_Ok in E as (a & ? & [Ha ->]%deref_Ok & E).
  apply mbind_Ok in E as (c & ? & [Hc ->]%load_Ok & [= <-]). exists inp, a, (chan_read c). split_and!; [done..| |done].
  exists c. done.
Qed.

(** ** The tracks of threads and CPUs *)

(** A track of thread [t] over channel [a]: shown while the thread is active, or
    while it runs. *)
Record thread_track (active : bool) (t : nat) (a : addr) (mx : mux) : Prop := {
  tt_func : m_select_func mx = Some (if active then SelThreadActive else SelThreadRunning);
  tt_select : m_select mx = th_chan t TH_CHAN_STATE;
  tt_ninputs : m_ninputs mx = 1;
  tt_inputs : exists inp, m_inputs mx = [inp] /\ mi_chan inp = Some a;
  tt_def : m_def mx = value_null;
  tt_base : base a
}.

(** A track of CPU [c] over the channels that threads have for it, by the
    index of the thread. *)
Record cpu_track (c : nat) (chans : list (option addr)) (mx : mux) : Prop := {
  ct_func : m_select_func mx = None;
  ct_select : m_select mx = cpu_chan c CPU_CHAN_THRUN;
  ct_inputs : map mi_chan (m_inputs mx) = chans;
  ct_base : forall a, Some a ∈ chans -> base a
}.

Definition shown_in (active : bool) (st : thread_state) : bool := if active then is_active_state st else is_running_state st.

Lemma thread_track_level1 active t a mx : thread_track active t a mx -> level1 mx.
Proof.
  intros [Hf Hs _ (inp & Hi & Ha) _ Hb]. split; [rewrite Hf; destruct active; auto|by rewrite Hs|].
  intros inp' b Hin Hc. rewrite Hi in Hin. apply list_elem_of_singleton in Hin as ->. congruence.
Qed.

Lemma cpu_track_level1 c chans mx : cpu_track c chans mx -> level1 mx.
Proof.
  intros [Hf Hs Hi Hb]. split; [by left|by rewrite Hs|]. intros inp a Hin Ha. apply Hb. rewrite <-Hi, <-Ha.
  by apply list_elem_of_fmap_2.
Qed.

Lemma thread_track_shows active t a mx m h th v : coherent h -> calm h -> h_mux h !! m = Some mx -> thread_track active t a mx ->
  h_thread h !! t = Some th -> shows h a v ->
  shows h (m_output mx) (if shown_in active (t_state th) then v else value_null).
Proof.
  intros [Hsys _] Hcalm Hm HT Hth Hv. pose proof (thread_track_level1 _ _ _ _ HT) as H1.
  destruct HT as [Hf Hs Hn (inp & Hi & Ha) Hd _]. destruct (calm_follows h m mx Hcalm Hm H1) as (w & Hw & Hset).
  pose proof (tv_state _ _ _ (si_thread _ Hsys t th Hth)) as Hst. rewrite Hs in Hw.
  pose proof (shows_same _ _ _ _ Hst Hw) as <-.
  destruct Hset as [(E & _ & Ho)|(res & Hp & Hfo)].
  { assert (t_state th = TH_ST_UNKNOWN) as -> by (by destruct (t_state th)). by destruct active. }
  assert (res = if shown_in active (t_state th) then Some 0 else None) as ->.
  { symmetry. apply (picks_unique mx _ _ _ h Hp). destruct (decide (t_state th = TH_ST_UNKNOWN)) as [->|Hne].
    - unfold select_input. rewrite Hf. by destruct active.
    - replace (state_value (t_state th)) with (value_int64 (thread_state_Z (t_state th))) by (by destruct (t_state th)).
      unfold shown_in. destruct active; [by apply select_active_spec|by apply select_running_spec]. }
  destruct (shown_in active (t_state th)).
  - destruct (follows_input mx 0 h Hfo) as (inp' & a' & w & Hg & Ha' & Hw' & Ho). unfold mux_get_input in Hg.
    rewrite Hi in Hg. simpl in Hg. assert (inp' = inp) as -> by congruence. assert (a' = a) as -> by congruence.
    by rewrite (shows_same _ _ _ _ Hv Hw').
  - rewrite <-Hd. by apply follows_default.
Qed.

(** What the select channel of a CPU track holds. *)
Lemma cpu_running_shown h c cp : sys_inv h -> h_cpu h !! c = Some cp ->
  shows h (cpu_chan c CPU_CHAN_THRUN) (of_thread (h_thread h) (fun th => value_int64 (t_gindex th)) (cpu_th_running cp)) \/
  (cpu_threads cp = [] /\ shows h (cpu_chan c CPU_CHAN_THRUN) value_null).
Proof.
  intros Hsys Hc. destruct (si_cpu _ Hsys c cp Hc) as [_ [_ _ [Hs|[He Hs]]]]; [left; apply Hs|right].
  split; [done|]. apply Hs. unfold CPU_CHAN_THRUN. lia.
Qed.

Lemma cpu_track_shows c chans mx m h cp t th p : coherent h -> calm h -> h_mux h !! m = Some mx -> cpu_track c chans mx ->
  h_cpu h !! c = Some cp -> cpu_is_virtual cp = false ->
  h_thread h !! t = Some th -> t_cpu th = Some c -> t_state th = TH_ST_RUNNING -> h_proc h !! t_proc th = Some p ->
  exists a v, chans !! Z.to_nat (t_gindex th) = Some (Some a) /\ shows h a v /\ shows h (m_output mx) v.
Proof.
  intros [Hsys _] Hcalm Hm HT Hc Hv Ht Hon Hst Hp.
  destruct (running_shown h c cp t th p Hsys Hc Hv Ht Hon Hst Hp) as (_ & _ & _ & Hrun & _).
  destruct (calm_follows h m mx Hcalm Hm (cpu_track_level1 _ _ _ HT)) as (w & Hw & Hset). destruct HT as [Hf Hs Hi Hb].
  rewrite Hs in Hw. pose proof (shows_same _ _ _ _ Hrun Hw) as <-.
  destruct Hset as [(E & _)|(res & Hpk & Hfo)]; [done|].
  specialize (Hpk h). unfold select_input in Hpk. rewrite Hf in Hpk. unfold default_select in Hpk. simpl in Hpk.
  destruct ((t_gindex th <? 0) || (m_ninputs mx <=? t_gindex th)) eqn:Eb; [done|]. injection Hpk as <-.
  destruct (follows_input mx _ h Hfo) as (inp & a & v & Hg & Ha & Hva & Ho). unfold mux_get_input in Hg.
  destruct (t_gindex th <? 0); [done|]. exists a, v. split_and!; [|done..].
  rewrite <-Hi. change (map mi_chan (m_inputs mx)) with (mi_chan <$> m_inputs mx). rewrite list_lookup_fmap.
  rewrite Hg. simpl. by rewrite Ha.
Qed.

Lemma no_runner h c cp : sys_inv h -> h_cpu h !! c = Some cp ->
  (forall u uh, h_thread h !! u = Some uh -> t_cpu uh = Some c -> t_state uh <> TH_ST_RUNNING) ->
  shows h (cpu_chan c CPU_CHAN_THRUN) value_null.
Proof.
  intros Hsys Hc Hno. destruct (cpu_running_shown h c cp Hsys Hc) as [Hs|[_ Hs]]; [|done].
  destruct (si_cpu _ Hsys c cp Hc) as [[_ _ Hl] [Hf _ _]].
  assert (runs (h_thread h) (cpu_threads cp) = []) as E.
  { destruct (runs (h_thread h) (cpu_threads cp)) as [|u l] eqn:E; [done|exfalso].
    assert (In u (runs (h_thread h) (cpu_threads cp))) as Hu by (rewrite E; by left).
    apply List.filter_In in Hu as [Hu Hr]. apply list_elem_of_In, Hl in Hu as (uh & Eu & Huc).
    unfold in_state_of in Hr. rewrite Eu in Hr. specialize (Hno u uh Eu Huc). by destruct (t_state uh). }
  assert (cpu_th_running cp = None) as Er by (rewrite <-Hf; simpl; by rewrite E).
  by rewrite Er in Hs.
Qed.

Lemma cpu_track_idle c chans mx m h cp : coherent h -> calm h -> h_mux h !! m = Some mx -> cpu_track c chans mx ->
  h_cpu h !! c = Some cp ->
  (forall u uh, h_thread h !! u = Some uh -> t_cpu uh = Some c -> t_state uh <> TH_ST_RUNNING) ->
  shows h (m_output mx) (m_def mx) \/ shows h (m_output mx) value_null.
Proof.
  intros [Hsys _] Hcalm Hm HT Hc Hno. pose proof (no_runner h c cp Hsys Hc Hno) as Hs.
  destruct (calm_follows h m mx Hcalm Hm (cpu_track_level1 _ _ _ HT)) as (w & Hw & Hset). destruct HT as [Hf Hsel Hi Hb].
  rewrite Hsel in Hw. pose proof (shows_same _ _ _ _ Hs Hw) as <-.
  destruct Hset as [(_ & _ & Ho)|(res & Hpk & Hfo)]; [by right|left].
  assert (res = None) as ->; [|by apply follows_default].
  symmetry. apply (picks_unique mx _ _ _ h Hpk). unfold select_input. by rewrite Hf.
Qed.

(** ** Over a run *)

Lemma thread_track_conn active t a mx mx' : conn_of mx' = conn_of mx -> thread_track active t a mx -> thread_track active t a mx'.
Proof.
  unfold conn_of. intros [= En Ef Es Eo Ed Ei] [Hf Hs Hn (inp & Hi & Ha) Hd Hb]. split; try congruence.
  rewrite Hi in Ei. destruct (m_inputs mx') as [|inp' [|]]; try discriminate. exists inp'. split; [done|].
  injection Ei as _ E _ _. congruence.
Qed.

Lemma cpu_track_conn c chans mx mx' : conn_of mx' = conn_of mx -> cpu_track c chans mx -> cpu_track c chans mx'.
Proof.
  unfold conn_of. intros [= En Ef Es Eo Ed Ei] [Hf Hs Hi Hb]. split; [congruence|congruence| |exact Hb].
  rewrite <-Hi. clear - Ei. revert Ei. generalize (m_inputs mx) as l. induction (m_inputs mx') as [|i' l' IH]; intros [|i l] Ei; try done.
  injection Ei as _ E _ _ Ei. simpl. f_equal; [done|by apply IH].
Qed.

(** What every track shows, by the connections [muxes]. *)
Record views (muxes : gmap nat mux) (h : heap) : Prop := {
  vw_thread : forall m mx active t a th v, muxes !! m = Some mx -> thread_track active t a mx ->
    h_thread h !! t = Some th -> shows h a v ->
    shows h (m_output mx) (if shown_in active (t_state th) then v else value_null);
  vw_cpu : forall m mx c chans cp t th p, muxes !! m = Some mx -> cpu_track c chans mx ->
    h_cpu h !! c = Some cp -> cpu_is_virtual cp = false ->
    h_thread h !! t = Some th -> t_cpu th = Some c -> t_state th = TH_ST_RUNNING -> h_proc h !! t_proc th = Some p ->
    exists a v, chans !! Z.to_nat (t_gindex th) = Some (Some a) /\ shows h a v /\ shows h (m_output mx) v;
  vw_idle : forall m mx c chans cp, muxes !! m = Some mx -> cpu_track c chans mx -> h_cpu h !! c = Some cp ->
    (forall u uh, h_thread h !! u = Some uh -> t_cpu uh = Some c -> t_state uh <> TH_ST_RUNNING) ->
    shows h (m_output mx) (m_def mx) \/ shows h (m_output mx) value_null
}.

Lemma calm_views muxes h : coherent h -> calm h -> linked (conn_of <$> muxes) h -> views muxes h.
Proof.
  intros Hco Hcalm HL.
  assert (forall m mx, muxes !! m = Some mx -> exists mx', h_mux h !! m = Some mx' /\ conn_of mx' = conn_of mx) as Hmux.
  { intros m mx Hm. unfold linked in HL. assert ((conn_of <$> h_mux h) !! m = Some (conn_of mx)) as E.
    { rewrite HL, lookup_fmap, Hm. done. }
    apply lookup_fmap_Some in E as (mx' & E & Hm'). eauto. }
  assert (forall mx mx', conn_of mx' = conn_of mx -> m_output mx' = m_output mx /\ m_def mx' = m_def mx) as Hout.
  { unfold conn_of. intros mx mx' [= _ _ _ ? ? _]. done. }
  split.
  - intros m mx active t a th v (mx' & Hm & EC)%Hmux HT Hth Hv. destruct (Hout _ _ EC) as [<- _].
    eapply thread_track_shows; [done..| |done|done]. by eapply thread_track_conn.
  - intros m mx c chans cp t th p (mx' & Hm & EC)%Hmux HT Hc Hvc Ht Hon Hst Hp. destruct (Hout _ _ EC) as [<- _].
    eapply (cpu_track_shows c chans mx' m h); [done..| |done|done|done|done|done|done]. by eapply cpu_track_conn.
  - intros m mx c chans cp (mx' & Hm & EC)%Hmux HT Hc Hno. destruct (Hout _ _ EC) as [<- <-].
    eapply (cpu_track_idle c chans mx' m h); [done..| |done|done]. by eapply cpu_track_conn.
Qed.

(** From a settled start, every track shows what it is for after any events. *)
Lemma run_views {S} (md : model S) prvs fuel xs h0 h : GoodModels md -> FlowModels md -> coherent h0 -> calm h0 ->
  for_each (emu_process md prvs fuel) xs h0 = (Ok tt, h) -> views (h_mux h0) h.
Proof.
  intros HM HF Hco Hcalm E.
  destruct (emu_run_calm md prvs fuel xs _ h0 h HM HF Hco Hcalm eq_refl E) as (Hco' & Hcalm' & HL).
  by apply calm_views.
Qed.
