(* ===== verification/Wiring.v ===== *)
(** * The network while the models connect it

    The multiplexers of a model are built one by one between channels that all
    exist by then.  [wiring] is what every step of the construction keeps: a
    consistent bay, callbacks that belong to their multiplexers, nothing
    selected, and nothing shown but what models wrote on channels of their own.
    When the construction ends it is a coherent, flowing network. *)

From S2P Require Import Prelude Chan Heap Bay Mux Sort Prv Dispatch Network Thread OvniModel OvniCorrect.
From S2P Require Import Coherence Effect Flow.

(** Channels of a model in a thread: what models may write during the set-up. *)
Definition written (a : addr) : Prop := exists m t, a_own a = OwnModel m t.

Section Wiring.

(** Which multiplexer writes which channel. *)
Variable Sl : nat -> addr -> Prop.
Hypothesis Sl_inj : forall m m' a, Sl m a -> Sl m' a -> m = m'.
Hypothesis Sl_scratch : forall m a, Sl m a -> scratch a.

Record wired_mux (m : nat) (mx : mux) (h : heap) : Prop := {
  wm_part : mux_part m mx h;
  wm_slot : Sl m (m_output mx);
  wm_output : is_Some (h_chan h !! m_output mx);
  wm_select : ~ written (m_select mx);
  wm_on : exists id, cb_on h id (FnSelect m) (m_select mx)
}.

Record wiring (h : heap) : Prop := {
  w_bay : bay_inv h;
  w_client : client_inv h;
  w_ready : b_state (h_bay h) = BAY_READY;
  w_sys : sys_inv h;
  w_reg : forall a c, h_chan h !! a = Some c -> registered h a;
  w_null : forall a c, h_chan h !! a = Some c -> ~ written a -> chan_read c = value_null;
  w_plain : forall a c, h_chan h !! a = Some c -> scratch a -> c_true (c_ignore_dup c) = false;
  w_on : selects_on h;
  w_off : forall id cb m i, h_cb h !! id = Some cb -> cb_func cb = FnInput m i -> cb_enabled cb = false;
  w_mux : forall m mx, h_mux h !! m = Some mx -> wired_mux m mx h;
  w_input : forall id cb m i, h_cb h !! id = Some cb -> cb_func cb = FnInput m i ->
    exists mx inp, h_mux h !! m = Some mx /\ mux_get_input mx i = Some inp /\ mi_cb inp = Some id;
  w_selects : forall id cb m, h_cb h !! id = Some cb -> cb_func cb = FnSelect m ->
    exists mx, h_mux h !! m = Some mx /\ cb_on h id (FnSelect m) (m_select mx)
}.

(** ** What the end of the construction gives *)

Lemma wired_input m mx i inp id h : wired_mux m mx h -> m_inputs mx !! i = Some inp -> mi_cb inp = Some id ->
  exists a, inp = mk_mux_input (Z.of_nat i) (Some a) false (Some (m_output mx)) (Some id) /\ cb_on h id (FnInput m (Z.of_nat i)) a.
Proof.
  intros Hm Hi Hid. destruct (mp_input _ _ _ (wm_part _ _ _ Hm) i inp Hi) as [->|(a & id' & -> & Hon & _)]; [done|].
  simpl in Hid. injection Hid as ->. by exists a.
Qed.

Lemma wiring_net h : wiring h -> net h.
Proof.
  intros W. split.
  - intros m mx i inp id Hm Hi Hid. destruct (wired_input m mx i inp id h (w_mux _ W m mx Hm) Hi Hid) as (a & -> & Hon).
    by exists a.
  - apply (w_input _ W).
  - apply (w_selects _ W).
  - intros m mx Hm. apply (w_mux _ W m mx Hm).
  - intros m m' mx mx' Hm Hm' E. pose proof (wm_slot _ _ _ (w_mux _ W m mx Hm)) as S1.
    pose proof (wm_slot _ _ _ (w_mux _ W m' mx' Hm')) as S2. rewrite <-E in S2. by eapply Sl_inj.
  - intros m mx Hm. eapply Sl_scratch, (w_mux _ W m mx Hm).
  - intros m mx i inp a Hm Hi Ha. destruct (mp_input _ _ _ (wm_part _ _ _ (w_mux _ W m mx Hm)) i inp Hi) as [->|(? & ? & -> & _)]; done.
Qed.

Lemma scratch_outside a : scratch a -> outside a.
Proof. intros (n & [E|E]); split; intros ?; congruence. Qed.

Lemma wiring_coherent h : wiring h -> coherent h.
Proof.
  intros W. split; [apply W|]. intros m mx Hm. pose proof (w_mux _ W m mx Hm) as HW.
  assert (outside (m_output mx)) as Ho by (eapply scratch_outside, Sl_scratch, HW). split; [done|].
  intros inp o (i & Hi)%list_elem_of_lookup Hout.
  destruct (mp_input _ _ _ (wm_part _ _ _ HW) i inp Hi) as [->|(? & ? & -> & _)]; [done|]. by injection Hout as <-.
Qed.

Lemma wiring_disabled m mx s h : wiring h -> h_mux h !! m = Some mx -> enabled_only mx s false h.
Proof.
  intros W Hm i inp id cb Hi Hid Hcb.
  destruct (wired_input m mx i inp id h (w_mux _ W m mx Hm) Hi Hid) as (a & _ & cb' & b & Hcb' & Hf & _).
  assert (cb' = cb) as -> by congruence. rewrite (w_off _ W id cb m _ Hcb Hf). done.
Qed.

Lemma cb_on_chan h id f a : bay_inv h -> cb_on h id f a -> is_Some (h_chan h !! a).
Proof. intros HB (cb & b & _ & _ & _ & Hb & <-). destruct (bi_reg _ HB _ _ Hb) as (_ & c & Hc & _). by exists c. Qed.

Lemma wiring_shows_null h a : wiring h -> is_Some (h_chan h !! a) -> ~ written a -> shows h a value_null.
Proof. intros W [c Hc] Ha. exists c. split; [done|]. by eapply w_null. Qed.

Lemma wiring_flowing h : wiring h -> flowing h.
Proof.
  intros W. pose proof (wiring_net h W) as HN. split; try apply W; [done|].
  intros m mx Hm H1. pose proof (w_mux _ W m mx Hm) as HW. split; [by eapply wiring_disabled|]. right. exists value_null.
  destruct (wm_on _ _ _ HW) as (id & Hon). split.
  { apply wiring_shows_null; [done|by eapply cb_on_chan; [apply W|]|apply HW]. }
  left. split; [done|]. split.
  - intros i inp id' cb Hi Hid Hcb. destruct (wiring_disabled m mx (-1) h W Hm i inp id' cb Hi Hid Hcb) as [He _].
    split; [done|]. intros _ ?. lia.
  - apply wiring_shows_null; [done|apply HW|]. intros (k & t & E).
    destruct (Sl_scratch _ _ (wm_slot _ _ _ HW)) as (n & [E'|E']); congruence.
Qed.

(** ** Steps of the construction *)

Lemma registered_added h h' a : h_chan h' = h_chan h ->
  bc_chan <$> b_channels (h_bay h') = bc_chan <$> b_channels (h_bay h) -> registered h a -> registered h' a.
Proof.
  intros Ec Eb (c & b & Hc & Hb & Ha). destruct (fmap_eq_lookup _ _ _ _ _ Eb Hb) as (b' & Hb' & E).
  exists c, b'. rewrite Ec. split_and!; [done|done|congruence].
Qed.

Lemma bay_add_cb_world ty a f en h id h' : bay_add_cb ty a f en h = (Ok id, h') -> world h' = world h.
Proof.
  intros E. assert (keeps (fun s => world s = world h) (bay_add_cb ty a f en)) as K.
  { unfold bay_add_cb, bay_enable_cb, load; cbn.
    repeat first [progress kbind | apply keeps_get | apply keeps_deref | apply keeps_found | apply keeps_ret | apply keeps_fail
      | apply keeps_die | by intros s <- | case_match]. }
  specialize (K h eq_refl). by rewrite E in K.
Qed.

Lemma mux_init_world m sel out f n h h' : mux_init m sel out f n h = (Ok tt, h') -> world h' = world h.
Proof.
  intros E. unfold mux_init in E. apply mbind_Ok in E as (oc & s & [_ ->]%load_Ok & E). do 2 (case_bool_decide; try done). simpl in E.
  apply mbind_Ok in E as (sc & s & [_ ->]%load_Ok & E). apply mbind_Ok in E as (? & s & [= <- <-] & E).
  apply mbind_Ok in E as (? & s & [_ ->]%found_Ok & E). apply mbind_Ok in E as (? & s & [_ ->]%found_Ok & E).
  apply mbind_Ok in E as ([] & s & [= <-] & E). apply mbind_Ok in E as ([] & s & [= <-] & E).
  apply mbind_Ok in E as (id & s & E1 & [= <-]). by apply bay_add_cb_world in E1.
Qed.

(** What [mux_set_input] adds. *)
Lemma mux_set_input_shape m mx i a h h' : bay_inv h -> h_mux h !! m = Some mx -> mux_set_input m i a h = (Ok tt, h') ->
  bay_inv h' /\ 0 <= i /\ world h' = world h /\ exists c id mx',
    h_chan h !! a = Some c /\ h_chan h' = h_chan h /\ h_mux h' = <[m := mx']> (h_mux h) /\ m_select mx' = m_select mx /\
    h_cb h !! id = None /\ h_cb h' = <[id := mk_bay_cb (FnInput m i) (c_name c) false BAY_CB_DIRTY]> (h_cb h) /\
    bc_chan <$> b_channels (h_bay h') = bc_chan <$> b_channels (h_bay h) /\ b_state (h_bay h') = b_state (h_bay h).
Proof.
  intros HI Hm E. unfold mux_set_input in E. rewrite (mbind_run _ _ _ _ _ (load_mux_run m mx h Hm)) in E.
  case_bool_decide; [done|]. apply mbind_Ok in E as (inp & s & [Hget ->]%deref_Ok & E).
  destruct (mi_chan inp); [done|]. assert (0 <= i) by (unfold mux_get_input in Hget; destruct (Z.ltb_spec i 0); [done|lia]).
  apply mbind_Ok in E as ([] & h1 & E1 & E). rewrite upd_mux_run, (alter_known _ m mx) in E1 by done. injection E1 as <-.
  set (h1 := set_h_mux _ h) in E. apply mbind_Ok in E as (id & h2 & E1 & E). rewrite upd_mux_run in E. injection E as <-.
  assert (bay_inv h1) as HI1 by (by apply bay_inv_mux).
  destruct (bay_add_cb_inv _ _ _ _ _ _ _ HI1 E1) as (HI2 & Ech & Em & _ & _ & (g & nm & [= <-] & Hf & Ecb) & Ebc & _ & Est).
  pose proof (bay_add_cb_world _ _ _ _ _ _ _ E1) as EW.
  assert (is_Some (h_chan h1 !! a)) as [c Hc].
  { unfold bay_add_cb in E1. rewrite (mbind_run _ _ _ (FnInput m i) h1) in E1 by done. apply mbind_Ok in E1 as (c & ? & [Hc _]%load_Ok & _). by exists c. }
  destruct (bay_add_cb_name _ _ _ _ h1 _ _ c Hc E1) as (cb & Hcb & Hn). rewrite Ecb, lookup_insert_eq in Hcb. injection Hcb as <-. simpl in Hn. subst nm.
  assert (h_mux h2 !! m = Some (set_input i (fun inp0 => mk_mux_input i (Some a) (mi_selected inp0) (Some (m_output mx)) (mi_cb inp0)) mx)) as Hm2
    by (by rewrite Em; simpl; rewrite lookup_alter_eq, Hm).
  split; [by apply bay_inv_mux|]. split; [done|]. split; [exact EW|]. eexists c, id, (set_input i _ (set_input i _ mx)).
  split_and!; [done|done| |reflexivity|exact Hf|exact Ecb|exact Ebc|exact Est].
  apply map_eq. intros j. simpl. destruct (decide (m = j)) as [<-|Hne].
  - rewrite lookup_insert_eq, lookup_alter_eq, Em. simpl. rewrite lookup_alter_eq, Hm. reflexivity.
  - rewrite lookup_insert_ne, lookup_alter_ne, Em by done. simpl. by rewrite lookup_alter_ne.
Qed.

(** A new callback leaves the others in place. *)
Lemma wired_mux_added m mx h h' id0 cb0 : h_cb h !! id0 = None -> h_cb h' = <[id0 := cb0]> (h_cb h) ->
  bc_chan <$> b_channels (h_bay h') = bc_chan <$> b_channels (h_bay h) ->
  (forall a, is_Some (h_chan h !! a) -> is_Some (h_chan h' !! a)) -> wired_mux m mx h -> wired_mux m mx h'.
Proof.
  intros Hf Ecb Ebc Hch [H1 H2 H3 H4 (id & Hon)]. split; [by eapply mux_part_added|done|auto|done|].
  exists id. by eapply cb_on_added.
Qed.

(** Callbacks of rows and sorters. *)
Definition of_other (f : bay_cb_func) : Prop := (exists p k, f = FnPrv p k) \/ (exists s i, f = FnSort s i).

Lemma wiring_add_cb ty a g en h id h' : wiring h -> of_other g -> ty = func_type g ->
  bay_add_cb ty a (Some g) en h = (Ok id, h') -> wiring h' /\ world h' = world h /\ h_mux h' = h_mux h.
Proof.
  intros W Hg Hty E.
  destruct (bay_add_cb_inv ty a (Some g) en h h' id (w_bay _ W) E) as
    (HB & Ech & Em & _ & _ & (g' & nm & [= <-] & Hf & Ecb) & Ebc & _ & Est).
  pose proof (bay_add_cb_world ty a (Some g) en h id h' E) as EW.
  split; [|done]. pose proof (w_sys _ W) as HS. injection EW as E1 E2 E3 _ _ _.
  assert (forall id' cb, h_cb h' !! id' = Some cb -> ~ of_other (cb_func cb) -> h_cb h !! id' = Some cb) as Hold.
  { intros id' cb Hc Ho. rewrite Ecb, lookup_insert in Hc. case_decide; [|done]. injection Hc as <-. by destruct Ho. }
  assert (forall m, ~ of_other (FnSelect m)) as NS by (intros m [(? & ? & [=])|(? & ? & [=])]).
  assert (forall m i, ~ of_other (FnInput m i)) as NI by (intros m i [(? & ? & [=])|(? & ? & [=])]).
  split; rewrite ?Em, ?Ech, ?Est; try apply W; try done.
  - by eapply client_inv_added; [..|apply W].
  - apply (sys_inv_frame h); [done|intros b c; simpl; rewrite Ech; apply HS|done..|]. intros. by rewrite Ech.
  - intros b c Hb. eapply registered_added; [done|done|]. by eapply (w_reg _ W).
  - intros id' cb m Hc Hfn. eapply (w_on _ W); [|done]. apply Hold; [done|]. by rewrite Hfn.
  - intros id' cb m i Hc Hfn. eapply (w_off _ W); [|done]. apply Hold; [done|]. by rewrite Hfn.
  - intros m mx Hm. eapply wired_mux_added; [exact Hf|exact Ecb|done|by rewrite Ech|]. by apply (w_mux _ W).
  - intros id' cb m i Hc Hfn. eapply (w_input _ W); [|done]. apply Hold; [done|]. by rewrite Hfn.
  - intros id' cb m Hc Hfn. destruct (w_selects _ W id' cb m) as (mx & Hm & Hon); [|done|].
    { apply Hold; [done|]. by rewrite Hfn. }
    exists mx. split; [done|]. by eapply cb_on_added.
Qed.

(** Memory the network does not look at. *)
Lemma wiring_ext h h' : h_chan h' = h_chan h -> h_bay h' = h_bay h -> h_cb h' = h_cb h -> h_mux h' = h_mux h ->
  h_thread h' = h_thread h -> h_cpu h' = h_cpu h -> h_proc h' = h_proc h -> wiring h -> wiring h'.
Proof.
  intros E1 E2 E3 E4 E5 E6 E7 W.
  assert (forall id f a, cb_on h id f a -> cb_on h' id f a) as Hon.
  { intros id f a (cb & b & ?). exists cb, b. unfold find_bay_chan in *. by rewrite E2, E3. }
  split; rewrite ?E1, ?E2, ?E3, ?E4; try apply W.
  - by eapply bay_inv_ext; [..|apply W].
  - by eapply client_inv_ext; [..|apply W].
  - apply (sys_inv_frame h); [apply W|intros b c; simpl; rewrite E1; apply (w_sys _ W)|done..|]. intros. by rewrite E1.
  - intros a c Hc. destruct (w_reg _ W a c Hc) as (c' & b & ?). exists c', b. unfold find_bay_chan in *. by rewrite E1, E2.
  - unfold selects_on. rewrite E3. apply W.
  - intros m mx Hm. destruct (w_mux _ W m mx Hm) as [[P1 P2 P3] H2 H3 H4 (id & H5)]. split; [|done|by rewrite E1|done|by eauto].
    split; [done|done|]. intros i inp Hi. destruct (P3 i inp Hi) as [?|(a & id' & ? & ? & ?)]; [by left|right].
    exists a, id'. rewrite E3. auto.
  - intros id cb m Hc Hf. destruct (w_selects _ W id cb m Hc Hf) as (mx & ? & ?). eauto.
Qed.

(** Connecting a multiplexer that is not connected yet. *)
Lemma wiring_mux_init m sel out f n h h' : wiring h -> h_mux h !! m = None -> Sl m out -> ~ written sel -> 0 <= n ->
  mux_init m sel out f n h = (Ok tt, h') -> wiring h' /\ world h' = world h /\
  h_mux h' = <[m := mk_mux n 0 (replicate (Z.to_nat n) mux_input_zero) f sel out value_null]> (h_mux h).
Proof.
  intros W Hm HSl Hsel Hn E. pose proof (mux_init_part m sel out f n h h' (w_bay _ W) (w_client _ W) Hn E) as (_ & HC & mx' & Hm' & HP & _).
  pose proof (mux_init_world m sel out f n h h' E) as EW. pose proof EW as EW'. injection EW' as E1 E2 E3 _ _ _.
  destruct (mux_init_shape m sel out f n h h' (w_bay _ W) E) as
    (HB & Hne & oc & sc & id & Hoc & Hty & Hsc & Ech & Em & Hf & Ecb & Ebc & Est).
  split; [|by split]. set (mx := mk_mux _ _ _ _ _ _ _) in *.
  assert (mx' = mx) as -> by (rewrite Em, lookup_insert_eq in Hm'; by injection Hm').
  assert (forall a c, h_chan h' !! a = Some c -> exists c0, h_chan h !! a = Some c0 /\
    chan_read c = chan_read c0 /\ c_name c = c_name c0 /\ c_ignore_dup c = c_ignore_dup c0) as Hold.
  { intros a c. rewrite Ech, lookup_insert. case_decide as Ea; [subst a; intros [= <-]; by exists oc|]. intros Hc. by exists c. }
  assert (forall a, is_Some (h_chan h !! a) -> is_Some (h_chan h' !! a)) as Hkeep.
  { intros a Ha. rewrite Ech, lookup_insert. case_decide; [by eexists|done]. }
  assert (cb_on h' id (FnSelect m) sel) as Hon.
  { destruct (w_reg _ W sel sc Hsc) as (sc' & b & Hsc' & Hb & Ha). assert (sc' = sc) as -> by congruence.
    destruct (fmap_eq_lookup _ _ _ _ _ Ebc Hb) as (b' & Hb' & Eb). eexists _, b'.
    split_and!; [rewrite Ecb; apply lookup_insert_eq|done|done|done|congruence]. }
  assert (forall id' cb, h_cb h' !! id' = Some cb -> id' = id /\ cb_func cb = FnSelect m /\ cb_enabled cb = true \/
    id' <> id /\ h_cb h !! id' = Some cb) as Hcbs.
  { intros id' cb. rewrite Ecb, lookup_insert. case_decide; [intros [= <-]; by left|by right]. }
  assert (forall m' mx0, h_mux h !! m' = Some mx0 -> m' <> m /\ h_mux h' !! m' = Some mx0) as Hmux.
  { intros m' mx0 Hm0. assert (m' <> m) by congruence. split; [done|]. by rewrite Em, lookup_insert_ne. }
  assert (forall id' f' a, cb_on h id' f' a -> cb_on h' id' f' a) as Hon'.
  { intros id' f' a Ho. by apply (cb_on_added h h' id _ id' f' a Hf Ecb Ebc Ho). }
  split; try done.
  - rewrite Est. apply W.
  - apply (sys_inv_frame h); [apply W| |done..|].
    + intros a c. simpl. rewrite Ech, lookup_insert. case_decide as Ea; [|apply (w_sys _ W)]. intros [= <-]. subst a.
      destruct (si_good _ (w_sys _ W) out oc Hoc) as [Hw _]. split; [done|].
      change (c_ignore_dup (mux_out_chan oc)) with (c_ignore_dup oc). rewrite (w_plain _ W out oc Hoc); [by intros [_ ?]|by eapply Sl_scratch].
    + intros o i Ho. rewrite Ech, lookup_insert_ne; [done|]. intros ->. destruct (Sl_scratch _ _ HSl) as (k & Hk). simpl in Hk. naive_solver.
  - intros a c Hc. destruct (Hold a c Hc) as (c0 & Hc0 & _ & En & _). destruct (w_reg _ W a c0 Hc0) as (c1 & b & Hc1 & Hb & Ha).
    assert (c1 = c0) as -> by congruence. destruct (fmap_eq_lookup _ _ _ _ _ Ebc Hb) as (b' & Hb' & Eb).
    exists c, b'. rewrite En. split_and!; [done|done|congruence].
  - intros a c Hc Ha. destruct (Hold a c Hc) as (c0 & Hc0 & -> & _). by eapply w_null.
  - intros a c Hc Ha. destruct (Hold a c Hc) as (c0 & Hc0 & _ & _ & ->). by eapply w_plain.
  - intros id' cb k Hc Hfn. destruct (Hcbs id' cb Hc) as [(_ & _ & ?)|[_ Hc']]; [done|]. by eapply w_on.
  - intros id' cb k i Hc Hfn. destruct (Hcbs id' cb Hc) as [(_ & ? & _)|[_ Hc']]; [congruence|]. by eapply w_off.
  - intros m' mx0 Hm0. rewrite Em, lookup_insert in Hm0. case_decide as Em'.
    + subst m'. injection Hm0 as <-. split; [done|done|apply Hkeep; by eexists|done|by exists id].
    + eapply wired_mux_added; [exact Hf|exact Ecb|done|done|]. by eapply w_mux.
  - intros id' cb k i Hc Hfn. destruct (Hcbs id' cb Hc) as [(_ & ? & _)|[_ Hc']]; [congruence|].
    destruct (w_input _ W id' cb k i Hc' Hfn) as (mx0 & inp & Hm0 & ? & ?). exists mx0, inp. split_and!; [|done..]. by apply Hmux.
  - intros id' cb k Hc Hfn. destruct (Hcbs id' cb Hc) as [(-> & Hf' & _)|[_ Hc']].
    + assert (k = m) as -> by congruence. by exists mx.
    + destruct (w_selects _ W id' cb k Hc' Hfn) as (mx0 & Hm0 & Ho). exists mx0. split; [by apply Hmux|by apply Hon'].
Qed.

(** Connecting an input. *)
Lemma wiring_set_input m i a h h' : wiring h -> mux_set_input m i a h = (Ok tt, h') -> wiring h' /\ world h' = world h /\
  (forall m', m' <> m -> h_mux h' !! m' = h_mux h !! m') /\
  exists mx mx' id, h_mux h !! m = Some mx /\ h_mux h' !! m = Some mx' /\ mux_get_input mx i = Some mux_input_zero /\
    m_inputs mx' = <[Z.to_nat i := mk_mux_input i (Some a) false (Some (m_output mx)) (Some id)]> (m_inputs mx) /\
    m_ninputs mx' = m_ninputs mx /\ m_select_func mx' = m_select_func mx /\ m_select mx' = m_select mx /\
    m_output mx' = m_output mx /\ m_def mx' = m_def mx.
Proof.
  intros W E. assert (exists mx, h_mux h !! m = Some mx) as (mx & Hm).
  { unfold mux_set_input, load_mux in E. apply mbind_Ok in E as (mx & ? & E & _). apply mbind_Ok in E as (? & ? & [= <- <-] & [Hm _]%deref_Ok).
    by exists mx. }
  pose proof (w_mux _ W m mx Hm) as HWm.
  destruct (mux_set_input_shape m mx i a h h' (w_bay _ W) Hm E) as
    (HB & Hi & EW & c & id & mx' & Hc & Ech & Em & Esel & Hf & Ecb & Ebc & Est).
  destruct (mux_set_input_run m mx i a h h' (w_bay _ W) (w_client _ W) Hm (wm_part _ _ _ HWm) Hi (w_reg _ W a c Hc) E) as
    (_ & HC & _ & Hget & _ & mx1 & id1 & Hm1 & HP & Hin & Hn & Hfn & Ho & Hd & _).
  assert (mx1 = mx') as -> by (rewrite Em, lookup_insert_eq in Hm1; by injection Hm1).
  pose proof EW as EW'. injection EW' as E1 E2 E3 _ _ _.
  assert (mi_cb mux_input_zero = None) as Hz by done.
  assert (id1 = id) as ->.
  { destruct (mp_input _ _ _ HP (Z.to_nat i) (mk_mux_input i (Some a) false (Some (m_output mx)) (Some id1))) as [?|(a1 & id2 & [= _ -> _ <-] & (cb & b & Hcb & Hfc & _) & _)]; [|done|].
    - rewrite Hin. apply list_lookup_insert_eq. unfold mux_get_input in Hget. destruct (i <? 0); [done|]. by eapply lookup_lt_Some.
    - rewrite Z2Nat.id in Hfc by done. destruct (decide (id1 = id)) as [|Hne]; [done|exfalso]. rewrite Ecb, lookup_insert_ne in Hcb by done.
      destruct (w_input _ W id1 cb m i Hcb Hfc) as (mx2 & inp2 & Hm2 & Hg2 & Hc2). simplify_eq. }
  split; [|split; [done|split; [intros m' ?; by rewrite Em, lookup_insert_ne|by exists mx, mx', id; split_and!]]].
  assert (forall id' f' b, cb_on h id' f' b -> cb_on h' id' f' b) as Hon'.
  { intros id' f' b Hb. by apply (cb_on_added h h' id _ id' f' b Hf Ecb Ebc Hb). }
  assert (forall id' cb, h_cb h' !! id' = Some cb -> id' = id /\ cb_func cb = FnInput m i /\ cb_enabled cb = false \/
    id' <> id /\ h_cb h !! id' = Some cb) as Hcbs.
  { intros id' cb. rewrite Ecb, lookup_insert. case_decide; [intros [= <-]; by left|by right]. }
  assert (forall m' mx0, h_mux h !! m' = Some mx0 -> exists mx2, h_mux h' !! m' = Some mx2 /\ m_select mx2 = m_select mx0 /\
    m_output mx2 = m_output mx0 /\ forall j inp, mux_get_input mx0 j = Some inp -> mi_cb inp <> None -> mux_get_input mx2 j = Some inp) as Hmux.
  { intros m' mx0 Hm0. rewrite Em. destruct (decide (m' = m)) as [->|Hne]; [|rewrite lookup_insert_ne by done; by exists mx0].
    rewrite lookup_insert_eq. assert (mx0 = mx) as -> by congruence. exists mx'. split_and!; [done..|]. intros j inp Hj Hcb.
    unfold mux_get_input in *. destruct (Z.ltb_spec j 0); [done|]. rewrite Hin. destruct (decide (j = i)) as [->|Hji].
    - exfalso. destruct (Z.ltb_spec i 0); [done|]. congruence.
    - rewrite list_lookup_insert_ne; [done|lia]. }
  split; rewrite ?Ech; try done; try apply W.
  - rewrite Est. apply W.
  - apply (sys_inv_frame h); [apply W|intros b cb; simpl; rewrite Ech; apply (w_sys _ W)|done..|]. intros. by rewrite Ech.
  - intros b cb Hb. eapply registered_added; [done|done|]. by eapply w_reg.
  - intros id' cb k Hk Hfk. destruct (Hcbs id' cb Hk) as [(_ & ? & _)|[_ Hc']]; [congruence|]. by eapply w_on.
  - intros id' cb k j Hk Hfk. destruct (Hcbs id' cb Hk) as [(_ & _ & ?)|[_ Hc']]; [done|]. by eapply w_off.
  - intros m' mx0 Hm0. rewrite Em, lookup_insert in Hm0. case_decide as Em'.
    + subst m'. injection Hm0 as <-. destruct HWm as [_ H2 H3 H4 (sid & H5)]. split; [done|by rewrite Ho|by rewrite Ho, Ech|by rewrite Esel|].
      exists sid. rewrite Esel. by apply Hon'.
    + eapply wired_mux_added; [exact Hf|exact Ecb|done|by rewrite Ech|]. by eapply w_mux.
  - intros id' cb k j Hk Hfk. destruct (Hcbs id' cb Hk) as [(-> & Hf' & _)|[_ Hc']].
    + assert (k = m /\ j = i) as [-> ->] by (by split; congruence).
      exists mx', (mk_mux_input i (Some a) false (Some (m_output mx)) (Some id)). split_and!; [done| |done].
      unfold mux_get_input in *. destruct (i <? 0); [done|]. rewrite Hin. apply list_lookup_insert_eq. by eapply lookup_lt_Some.
    + destruct (w_input _ W id' cb k j Hc' Hfk) as (mx0 & inp & Hm0 & Hg & Hcb). destruct (Hmux k mx0 Hm0) as (mx2 & ? & _ & _ & Hj).
      exists mx2, inp. split_and!; [done| |done]. apply Hj; [done|]. by rewrite Hcb.
  - intros id' cb k Hk Hfk. destruct (Hcbs id' cb Hk) as [(_ & ? & _)|[_ Hc']]; [congruence|].
    destruct (w_selects _ W id' cb k Hc' Hfk) as (mx0 & Hm0 & Hon). destruct (Hmux k mx0 Hm0) as (mx2 & ? & Es & _).
    exists mx2. rewrite Es. split; [done|by apply Hon'].
Qed.

(** Writing a channel of a model. *)
Lemma wiring_write op a h h' : wiring h -> written a -> run_op op a h = (Ok tt, h') -> wiring h' /\ world h' = world h /\ h_mux h' = h_mux h.
Proof.
  intros W (k & t & Ha) E. destruct (run_op_inv op a h h' (w_sys _ W)) as [HS _]; [congruence..|done|].
  pose proof (run_op_world op a h) as EW. rewrite E in EW.
  destruct (run_op_heap op a h (w_bay _ W) (or_introl (w_ready _ W))) as [(r & E2 & _)|(c & c' & Hc & _ & Hmeta & _ & E2 & HB)];
    rewrite E in E2; injection E2; [by intros -> _|intros -> ].
  split; [|done]. assert (forall b, b <> a -> h_chan (heap_written a c' (newly_dirty c) h) !! b = h_chan h !! b) as Hch.
  { intros b Hb. by rewrite heap_written_chan, decide_False. }
  split; try done; try apply W.
  - apply (client_inv_ext h); [done..|apply W].
  - intros b cb Hb. destruct (decide (b = a)) as [->|Hne].
    + destruct (w_reg _ W a c Hc) as (c0 & b0 & Hc0 & Hb0 & Hba). assert (c0 = c) as -> by congruence.
      exists cb, b0. split_and!; [done| |done]. rewrite heap_written_chan, decide_True in Hb by done. injection Hb as <-.
      simpl. destruct Hmeta as (_ & _ & _ & _ & _ & _ & _ & ->). exact Hb0.
    + rewrite Hch in Hb by done. destruct (w_reg _ W b cb Hb) as (c0 & b0 & Hc0 & Hb0 & Hba). exists c0, b0.
      rewrite Hch by done. by split_and!.
  - intros b cb Hb Hw. rewrite Hch in Hb; [by eapply w_null|]. intros ->. apply Hw. by exists k, t.
  - intros b cb Hb Hs. rewrite Hch in Hb; [by eapply w_plain|]. intros ->. destruct Hs as (n & [?|?]); congruence.
  - intros m mx Hm. destruct (w_mux _ W m mx Hm) as [H1 H2 H3 H4 H5]. split; [by destruct H1; split|done| |done|done].
    destruct (decide (m_output mx = a)) as [->|Hne]; [rewrite heap_written_chan, decide_True by done; by eexists|by rewrite Hch].
Qed.

(** The default of a multiplexer. *)
Lemma wiring_default m v h h' : wiring h -> mux_set_default m v h = (Ok tt, h') -> wiring h' /\ world h' = world h /\
  forall m', m' <> m -> h_mux h' !! m' = h_mux h !! m'.
Proof.
  intros W [= <-]. set (h' := set_h_mux _ h). split; [|split; [done|intros m' ?; simpl; by rewrite lookup_alter_ne]].
  assert (forall m' mx', h_mux h' !! m' = Some mx' -> exists mx, h_mux h !! m' = Some mx /\ m_ninputs mx' = m_ninputs mx /\
    m_selected mx' = m_selected mx /\ m_inputs mx' = m_inputs mx /\ m_select mx' = m_select mx /\ m_output mx' = m_output mx) as Hold.
  { intros m' mx'. simpl. rewrite lookup_alter. case_decide as Em; [|intros ?; by exists mx'].
    subst m'. destruct (h_mux h !! m) as [mx|]; [|done]. intros [= <-]. by exists mx. }
  assert (forall m' mx, h_mux h !! m' = Some mx -> exists mx', h_mux h' !! m' = Some mx' /\ m_inputs mx' = m_inputs mx /\
    m_select mx' = m_select mx) as Hnew.
  { intros m' mx Hm. simpl. rewrite lookup_alter. case_decide as Em; [subst m'; rewrite Hm; by eexists|by exists mx]. }
  split; try done; try apply W.
  - apply bay_inv_mux, W.
  - destruct (w_client _ W) as [H1 H2]. split; [exact H1|]. intros m' mx' inp id (mx & Hm & _ & _ & Ei & _)%Hold. rewrite Ei. by apply (H2 m').
  - apply (sys_inv_frame h); try done; apply W.
  - intros m' mx' (mx & Hm & En & Es & Ei & Esel & Eo)%Hold. destruct (w_mux _ W m' mx Hm) as [[P1 P2 P3] H2 H3 H4 H5].
    split; rewrite ?Eo, ?Esel; try done. split; rewrite ?En, ?Es, ?Ei, ?Eo; done.
  - intros id cb k i Hc Hf. destruct (w_input _ W id cb k i Hc Hf) as (mx & inp & Hm & Hg & ?). destruct (Hnew k mx Hm) as (mx' & ? & Ei & _).
    exists mx', inp. unfold mux_get_input in *. by rewrite Ei.
  - intros id cb k Hc Hf. destruct (w_selects _ W id cb k Hc Hf) as (mx & Hm & Ho). destruct (Hnew k mx Hm) as (mx' & ? & _ & Es).
    exists mx'. by rewrite Es.
Qed.

Lemma wiring_prv_register p row type a flags h h' : wiring h -> prv_register p row type a flags h = (Ok tt, h') ->
  wiring h' /\ world h' = world h /\ h_mux h' = h_mux h.
Proof.
  intros W E. unfold prv_register in E. apply mbind_Ok in E as (pv & h1 & E1 & E). assert (h1 = h) as ->.
  { unfold load_prv in E1. by apply mbind_Ok in E1 as (? & ? & [= <- <-] & [_ ->]%deref_Ok). }
  case_match; [done|]. apply mbind_Ok in E as ([] & h1 & E2 & E). assert (h1 = h) as ->.
  { unfold check_flags in E2. repeat case_match; by injection E2. }
  apply mbind_Ok in E as (id & h1 & E3 & [= <-]).
  destruct (wiring_add_cb _ _ _ _ _ _ _ W (or_introl (ex_intro _ p (ex_intro _ _ eq_refl))) eq_refl E3) as (W1 & EW & Em).
  split; [by apply (wiring_ext h1)|]. by split.
Qed.

Lemma wiring_sort_set_input s i a h h' : wiring h -> sort_set_input s i a h = (Ok tt, h') ->
  wiring h' /\ world h' = world h /\ h_mux h' = h_mux h.
Proof.
  intros W E. unfold sort_set_input in E. apply mbind_Ok in E as (st & h1 & E1 & E). assert (h1 = h) as ->.
  { unfold load_sort in E1. by apply mbind_Ok in E1 as (? & ? & [= <- <-] & [_ ->]%deref_Ok). }
  apply mbind_Ok in E as (inp & ? & [_ ->]%deref_Ok & E). case_match; [done|].
  apply mbind_Ok in E as ([] & h1 & [= <-] & E). apply mbind_Ok in E as (id & h2 & E2 & [= <-]).
  eapply (wiring_add_cb _ _ (FnSort s i)) in E2 as (W1 & EW & Em); [|by apply (wiring_ext h)|right; by eauto|done].
  split; [done|]. by split.
Qed.
End Wiring.
