(* ===== verification/Connecting.v ===== *)
(** * The connection of the tracks

    Every array of tracks and every breakdown of a CPU has its multiplexers.  A
    model connects those of its own arrays, each once: that is the footprint of
    its steps.  At the end the tracks of a thread follow its channels while it
    is running or active, and those of a CPU the channels of all threads. *)

From Stdlib Require Import Ascii.
From S2P Require Import Prelude Footprint Chan Pcf Heap Bay Mux Sort Prv Dispatch Network Thread Loom Event OvniModel OvniCorrect.
From S2P Require Import Coherence Model Recorder System SystemCorrect ConnectCorrect Json Table Track ModelThread Mark Nosv Hwc Breakdown Specs.
From S2P Require Import Effect Flow Views Wiring.

(** ** Declarations *)

(** The channels that models declare, but for the FPGA, whose channels are not
    connected with the others. *)
Definition chan_specs : list (Z * model_obj_spec * model_obj_spec) :=
  [ (ch "O", ovni_th_spec, ovni_cpu_spec); (ch "6", nanos6_th_spec, nanos6_cpu_spec); (ch "V", nosv_th_spec, nosv_cpu_spec);
    (ch "D", nodes_th_spec, nodes_cpu_spec); (ch "T", tampi_th_spec, tampi_cpu_spec); (ch "M", mpi_th_spec, mpi_cpu_spec);
    (ch "K", kernel_th_spec, kernel_cpu_spec); (ch "P", openmp_th_spec, openmp_cpu_spec) ].

Lemma chan_specs_model z th cpu : (z, th, cpu) ∈ chan_specs -> ch (spec_model th) = z /\ ch (spec_model cpu) = z.
Proof. unfold chan_specs. rewrite !elem_of_cons, elem_of_nil. intros H. repeat destruct H as [[= -> -> ->]|H]; done. Qed.

Lemma chan_specs_unique z th cpu th' cpu' : (z, th, cpu) ∈ chan_specs -> (z, th', cpu') ∈ chan_specs -> th = th' /\ cpu = cpu'.
Proof.
  unfold chan_specs. rewrite !elem_of_cons, !elem_of_nil. intros H H'.
  repeat destruct H as [[= -> -> ->]|H]; try done; repeat destruct H' as [[=]|H']; by subst.
Qed.

Ltac spec_tac := unfold chan_specs; repeat first [apply list_elem_of_here | apply list_elem_of_further].

(** ** Owners *)

(** Who has an array of tracks, and who a multiplexer. *)
Inductive array_owner :=
| AThread (m : Z) (t : nat) | ACpu (m : Z) (c : nat)
| AMarkThread (t : nat) | AMarkCpu (c : nat)
| AHwcThread (t : nat) | AHwcCpu (c : nat).
Inductive mux_owner := MTrack (n i : nat) | MBreakdown (k : Z * nat).

(** When the tracks of a thread are shown. *)
Definition owner_mode (o : array_owner) (i : nat) : option track_th :=
  match o with
  | AThread z t =>
      if z =? ch "X" then chan_track (spec_chan xtasks_th_spec) !! i else
      spec ← List.find (fun x => x.1.1 =? z) chan_specs; chan_track (spec_chan spec.1.2) !! i
  | AMarkThread t => Some TRACK_TH_ACT
  | _ => None
  end.

Lemma thread_mode z th cpu t i : (z, th, cpu) ∈ chan_specs -> owner_mode (AThread z t) i = chan_track (spec_chan th) !! i.
Proof. unfold chan_specs. rewrite !elem_of_cons, elem_of_nil. intros H. repeat destruct H as [[= -> -> ->]|H]; [reflexivity..|done]. Qed.

(** The memory of the models: who owns what, and where it lies. *)
Record ext_wf (O : nat -> option mux_owner) (A : nat -> option array_owner) (x : extn) : Prop := {
  xw_track : forall n i tk, track_at x n i = Some tk -> tk_ch tk = track_chan n i /\ O (tk_mux tk) = Some (MTrack n i);
  xw_bd : forall k b, x_bd_cpu x !! k = Some b -> O (bc_mux0 b) = Some (MBreakdown k) /\ O (bc_mux1 b) = Some (MBreakdown k) /\
    bc_tr b = Addr (OwnOther (bc_mux0 b)) 0 /\
    (k.1 = ch "P" /\ bc_mux1 b = bc_mux0 b /\ bc_tri b = bc_tr b \/
     k.1 <> ch "P" /\ bc_mux1 b <> bc_mux0 b /\ bc_tri b = Addr (OwnOther (bc_mux0 b)) 1);
  xw_thread : forall m t n, x_thread x !! (m, t) = Some n -> A n = Some (AThread m t);
  xw_cpu : forall m c n, x_cpu x !! (m, c) = Some n -> A n = Some (ACpu m c);
  xw_mark_th : forall t n, x_mark_th x !! t = Some n -> A n = Some (AMarkThread t);
  xw_mark_cpu : forall c n, x_mark_cpu x !! c = Some n -> A n = Some (AMarkCpu c);
  xw_hwc_th : forall t n, x_hwc_th x !! t = Some n -> A n = Some (AHwcThread t);
  xw_hwc_cpu : forall c n, x_hwc_cpu x !! c = Some n -> A n = Some (AHwcCpu c);
  xw_mux : forall m, is_Some (O m) -> (m < x_nmux x)%nat;
  xw_array : forall n, is_Some (A n) -> (n < length (x_arrays x))%nat;
  xw_mode : forall n o i tk m, A n = Some o -> track_at x n i = Some tk -> owner_mode o i = Some m -> tk_mode tk = m
}.

(** Which channel a multiplexer writes. *)
Definition slot (x : extn) (m : nat) (a : addr) : Prop :=
  (exists n i tk, track_at x n i = Some tk /\ m = tk_mux tk /\ a = tk_ch tk) \/
  (exists k b, x_bd_cpu x !! k = Some b /\ (m = bc_mux0 b /\ a = bc_tr b \/ m = bc_mux1 b /\ a = bc_tri b)).

Lemma slot_inj O A x m m' a : ext_wf O A x -> slot x m a -> slot x m' a -> m = m'.
Proof.
  intros W [(n & i & tk & Ht & -> & ->)|(k & b & Hb & Hm)] [(n' & i' & tk' & Ht' & -> & E)|(k' & b' & Hb' & Hm')].
  - destruct (xw_track _ _ _ W _ _ _ Ht) as [E1 _]. destruct (xw_track _ _ _ W _ _ _ Ht') as [E2 _].
    rewrite E1, E2 in E. injection E as -> ->. congruence.
  - destruct (xw_track _ _ _ W _ _ _ Ht) as [E1 _]. destruct (xw_bd _ _ _ W _ _ Hb') as (_ & _ & E2 & E3).
    exfalso. rewrite E1, E2 in *. unfold track_chan in *. destruct Hm' as [[_ ?]|[_ ?]], E3 as [(_ & _ & ?)|(_ & _ & ?)]; congruence.
  - destruct (xw_track _ _ _ W _ _ _ Ht') as [E1 _]. destruct (xw_bd _ _ _ W _ _ Hb) as (_ & _ & E2 & E3).
    exfalso. rewrite E1, E2 in *. unfold track_chan in *. destruct Hm as [[_ ?]|[_ ?]], E3 as [(_ & _ & ?)|(_ & _ & ?)]; congruence.
  - destruct (xw_bd _ _ _ W _ _ Hb) as (O1 & _ & E2 & E3). destruct (xw_bd _ _ _ W _ _ Hb') as (O1' & _ & E2' & E3').
    assert (bc_mux0 b = bc_mux0 b') as E0.
    { destruct Hm as [[_ ->]|[_ ->]], Hm' as [[_ E]|[_ E]], E3 as [(_ & _ & F)|(_ & _ & F)], E3' as [(_ & _ & F')|(_ & _ & F')]; rewrite ?F, ?F', ?E2, ?E2' in E; by injection E. }
    assert (k = k') as <- by congruence. assert (b = b') as <- by congruence.
    destruct Hm as [[-> ->]|[-> ->]], Hm' as [[-> E]|[-> E]], E3 as [(_ & F1 & F)|(_ & F1 & F)]; try congruence; rewrite F, E2 in E; discriminate.
Qed.

Lemma slot_scratch O A x m a : ext_wf O A x -> slot x m a -> scratch a.
Proof.
  intros W [(n & i & tk & Ht & _ & ->)|(k & b & Hb & Hm)].
  - destruct (xw_track _ _ _ W _ _ _ Ht) as [-> _]. exists n. by left.
  - destruct (xw_bd _ _ _ W _ _ Hb) as (_ & _ & E2 & E3). exists (bc_mux0 b). right.
    destruct Hm as [[_ ->]|[_ ->]], E3 as [(_ & _ & F)|(_ & _ & F)]; rewrite ?F, ?E2; done.
Qed.

(** ** Connecting leaves the memory of the models but for the outputs *)

Definition track_key (tk : track) := (tk_mode tk, tk_ch tk, tk_mux tk).

Record same_ext (x0 x : extn) : Prop := {
  se_arrays : map (map track_key) (x_arrays x) = map (map track_key) (x_arrays x0);
  se_thread : x_thread x = x_thread x0; se_cpu : x_cpu x = x_cpu x0;
  se_mark_th : x_mark_th x = x_mark_th x0; se_mark_cpu : x_mark_cpu x = x_mark_cpu x0;
  se_hwc_th : x_hwc_th x = x_hwc_th x0; se_hwc_cpu : x_hwc_cpu x = x_hwc_cpu x0;
  se_bd_cpu : x_bd_cpu x = x_bd_cpu x0
}.

Lemma same_ext_track x0 x n i tk : same_ext x0 x -> track_at x n i = Some tk ->
  exists tk0, track_at x0 n i = Some tk0 /\ track_key tk = track_key tk0.
Proof.
  intros HS Ht. unfold track_at in *. destruct (x_arrays x !! n) as [a|] eqn:Ea; [|done]. simpl in Ht.
  assert (map (map track_key) (x_arrays x) !! n = Some (map track_key a)) as E by (change (map (map track_key)) with (fmap (M := list) (map track_key)); by rewrite list_lookup_fmap, Ea).
  rewrite (se_arrays _ _ HS) in E. change (map (map track_key)) with (fmap (M := list) (map track_key)) in E.
  rewrite list_lookup_fmap in E. destruct (x_arrays x0 !! n) as [a0|]; [|done]. simpl in E. injection E as E. simpl.
  assert (map track_key a !! i = Some (track_key tk)) as E' by (change (map track_key) with (fmap (M := list) track_key); by rewrite list_lookup_fmap, Ht).
  rewrite <- E in E'. change (map track_key) with (fmap (M := list) track_key) in E'. rewrite list_lookup_fmap in E'.
  destruct (a0 !! i) as [tk0|]; [|done]. exists tk0. split; [done|]. simpl in E'. congruence.
Qed.

Lemma same_ext_upd x0 x n i f : (forall tk, track_key (f tk) = track_key tk) -> same_ext x0 x ->
  same_ext x0 (set_x_arrays (alter (alter f i) n) x).
Proof.
  intros Hf [H1 H2 H3 H4 H5 H6 H7 H8]. split; try done. rewrite <- H1. simpl.
  change (map (map track_key)) with (fmap (M := list) (fmap (M := list) track_key)).
  apply list_eq. intros j. rewrite !list_lookup_fmap, list_lookup_alter. case_decide; [|done]. subst j.
  destruct (x_arrays x !! n) as [a|]; [|done]. simpl. f_equal. apply list_eq. intros j. rewrite !list_lookup_fmap, list_lookup_alter.
  case_decide; [|done]. subst j. destruct (a !! i) as [tk|]; [|done]. simpl. by rewrite Hf.
Qed.

(** ** Multiplexers as resources *)

Definition heap_of (e : emu) : heap := st_heap (em_sys e).

#[export] Program Instance mux_resources : Resources emu nat := {
  fresh m e := h_mux (heap_of e) !! m = None;
  same m e e' := h_mux (heap_of e') !! m = h_mux (heap_of e) !! m
}.
Solve Obligations with (simpl; intros; congruence).

Lemma on_heap_Ok {A} (m : M heap A) e a e' : on_heap m e = (Ok a, e') ->
  m (heap_of e) = (Ok a, heap_of e') /\ em_ext e' = em_ext e /\ st_sys (em_sys e') = st_sys (em_sys e).
Proof.
  unfold on_heap, on_syst, in_heap, heap_of. destruct (m (st_heap (em_sys e))) as [r h]. intros [= -> <-]. done.
Qed.

Lemma on_ext_Ok f e u e' : on_ext f e = (Ok u, e') -> em_ext e' = f (em_ext e) /\ em_sys e' = em_sys e.
Proof. by intros [= _ <-]. Qed.

Section Connect.
Variables (x0 : extn) (sys0 : system) (ths0 : gmap nat thread) (cs0 : gmap nat cpu) (mk0 : ovni_mark_emu).
Variables (O : nat -> option mux_owner) (A : nat -> option array_owner).
Hypothesis HX : ext_wf O A x0.

Record wired_e (e : emu) : Prop := {
  we_net : wiring (slot x0) (heap_of e);
  we_ext : same_ext x0 (em_ext e);
  we_sys : st_sys (em_sys e) = sys0;
  we_threads : h_thread (heap_of e) = ths0;
  we_cpus : h_cpu (heap_of e) = cs0;
  we_mark : h_mark (heap_of e) = mk0
}.

Notation connects := (uses wired_e).

Lemma wired_heap e e' : wired_e e -> wiring (slot x0) (heap_of e') -> world (heap_of e') = world (heap_of e) ->
  em_ext e' = em_ext e -> st_sys (em_sys e') = st_sys (em_sys e) -> wired_e e'.
Proof.
  intros [H1 H2 H3 H4 H5 H6] W EW Ex Es. injection EW as E1 E2 _ _ _ E6. split; [done|by rewrite Ex|congruence..].
Qed.

(** An operation on the memory. *)
Lemma connects_heap {B} T (op : M heap B) :
  (forall h b h', wiring (slot x0) h -> op h = (Ok b, h') -> wiring (slot x0) h' /\ world h' = world h /\
     forall m, ~ T m -> h_mux h' !! m = h_mux h !! m) -> connects nothing T (on_heap op) always.
Proof.
  intros Hop e b e' He _ (E & Ex & Es)%on_heap_Ok. destruct (Hop _ _ _ (we_net _ He) E) as (W & EW & Hm).
  split; [by eapply wired_heap|]. split; [exact Hm|done].
Qed.

Lemma connects_prv_register p row type a flags T : connects nothing T (on_heap (prv_register p row type a flags)) always.
Proof.
  apply connects_heap. intros h [] h' W E. destruct (wiring_prv_register _ _ _ _ _ _ _ _ W E) as (? & ? & Em).
  split_and!; [done..|]. intros m _. by rewrite Em.
Qed.

Lemma connects_sort_input s i a T : connects nothing T (on_heap (sort_set_input s i a)) always.
Proof.
  apply connects_heap. intros h [] h' W E. destruct (wiring_sort_set_input _ _ _ _ _ _ W E) as (? & ? & Em).
  split_and!; [done..|]. intros m _. by rewrite Em.
Qed.

Lemma connects_write op a T : written a -> connects nothing T (on_heap (run_op op a)) always.
Proof.
  intros Ha. apply connects_heap. intros h [] h' W E. destruct (wiring_write _ _ _ _ _ W Ha E) as (? & ? & Em).
  split_and!; [done..|]. intros m _. by rewrite Em.
Qed.

Lemma connects_default m v (T : nat -> Prop) : T m -> connects nothing T (on_heap (mux_set_default m v)) always.
Proof.
  intros HT. apply connects_heap. intros h [] h' W E. destruct (wiring_default _ _ _ _ _ W E) as (? & ? & Hm).
  split_and!; [done..|]. intros k Hk. apply Hm. by intros ->.
Qed.

Lemma connects_set_input m i a (T : nat -> Prop) : T m -> connects nothing T (on_heap (mux_set_input m i a)) always.
Proof.
  intros HT. apply connects_heap. intros h [] h' W E. destruct (wiring_set_input _ _ _ _ _ _ W E) as (? & ? & Hm & _).
  split_and!; [done..|]. intros k Hk. apply Hm. by intros ->.
Qed.

Lemma connects_mux_init m sel out f n : slot x0 m out -> ~ written sel -> 0 <= n ->
  connects (fun k => k = m) (fun k => k = m) (on_heap (mux_init m sel out f n)) always.
Proof.
  intros Hs Hw Hn e [] e' He Hf (E & Ex & Es)%on_heap_Ok.
  destruct (wiring_mux_init (slot x0) (fun k b => slot_scratch O A x0 k b HX) m sel out f n _ _ (we_net _ He) (Hf m eq_refl) Hs Hw Hn E)
    as (W & EW & Em).
  split; [by eapply wired_heap|]. split; [|done]. intros k Hk. simpl. rewrite Em. by rewrite lookup_insert_ne.
Qed.

(** What the connection reads. *)
Lemma read_track n i e tk e' : wired_e e -> load_track n i e = (Ok tk, e') ->
  e' = e /\ exists tk0, track_at x0 n i = Some tk0 /\ track_key tk = track_key tk0.
Proof.
  intros He E. unfold load_track, get_ext in E. apply mbind_Ok in E as (x & ? & E1 & [Ht ->]%deref_Ok).
  apply mbind_Ok in E1 as (? & ? & [= <- <-] & [= <- <-]). split; [done|]. by eapply same_ext_track; [apply He|].
Qed.

Lemma read_thread t e th e' : wired_e e -> on_heap (load_thread t) e = (Ok th, e') -> e' = e /\ ths0 !! t = Some th.
Proof.
  intros He E. pose proof E as E0. apply on_heap_Ok in E as (E & _). apply load_thread_Ok in E as [Ht _].
  rewrite (we_threads _ He) in Ht. split; [|done].
  unfold on_heap, on_syst, in_heap in E0. unfold load_thread, mbind, mget, deref, mret in E0. simpl in E0.
  destruct (h_thread _ !! t); [|done]. injection E0 as _ <-. by destruct e as [? ? [] ? ?].
Qed.

Lemma read_sys e s e' : wired_e e -> get_sys e = (Ok s, e') -> e' = e /\ s = sys0.
Proof. intros He [= <- <-]. split; [done|apply He]. Qed.

Lemma read_ext e x e' : wired_e e -> get_ext e = (Ok x, e') -> e' = e /\ same_ext x0 x.
Proof. intros He [= <- <-]. split; [done|apply He]. Qed.

Lemma connects_upd_track n i f : (forall tk, track_key (f tk) = track_key tk) ->
  connects nothing nothing (upd_track n i f) always.
Proof.
  intros Hf e [] e' He _ [Ex Es]%on_ext_Ok. split; [|split; [intros m _; simpl; unfold heap_of; by rewrite Es|done]].
  destruct He as [H1 H2 H3 H4 H5 H6]. split; unfold heap_of in *; rewrite ?Es, ?Ex; try done. by apply same_ext_upd.
Qed.

(** ** Tracks of threads *)

Definition track_mux_of (n i : nat) : nat -> Prop := fun m => O m = Some (MTrack n i).

Definition thread_tracked (t : nat) (a : addr) (tk : track) (h : heap) : Prop :=
  tk_mode tk <> TRACK_TH_ANY ->
  exists mx, h_mux h !! tk_mux tk = Some mx /\ thread_track (bool_decide (tk_mode tk = TRACK_TH_ACT)) t a mx /\ m_output mx = tk_ch tk.

Lemma key_of_track n i tk tk0 : track_at x0 n i = Some tk0 -> track_key tk = track_key tk0 ->
  tk_mode tk = tk_mode tk0 /\ tk_mux tk = tk_mux tk0 /\ tk_ch tk = tk_ch tk0 /\ track_mux_of n i (tk_mux tk0) /\ slot x0 (tk_mux tk0) (tk_ch tk0).
Proof.
  intros Ht [= -> -> ->]. split_and!; try done; [by apply (xw_track _ _ _ HX)|]. left. by exists n, i, tk0.
Qed.

(** The multiplexer of a track, right after [track_set_select]. *)
Lemma set_select_Ok n i sel fsel k e e' : wired_e e -> (forall m, track_mux_of n i m -> fresh m e) -> ~ written sel -> 0 <= k ->
  track_set_select n i sel fsel k e = (Ok tt, e') -> wired_e e' /\ exists tk, track_at x0 n i = Some tk /\
    h_mux (heap_of e') = <[tk_mux tk := mk_mux k 0 (replicate (Z.to_nat k) mux_input_zero) fsel sel (tk_ch tk) value_null]> (h_mux (heap_of e)).
Proof.
  intros He Hf Hw Hk E. unfold track_set_select in E. apply mbind_Ok in E as (tk & e1 & E1 & E).
  destruct (read_track n i e tk e1 He E1) as [-> (tk0 & Ht & HK)]. destruct (key_of_track n i tk tk0 Ht HK) as (_ & Em & Ec & Ho & Hsl).
  apply mbind_Ok in E as ([] & e1 & (E2 & Ex & Es)%on_heap_Ok & E). rewrite Em, Ec in E2.
  destruct (wiring_mux_init (slot x0) (fun k b => slot_scratch O A x0 k b HX) _ _ _ _ _ _ _ (we_net _ He) (Hf _ Ho) Hsl Hw Hk E2) as (W & EW & EM).
  assert (wired_e e1) as He1 by by eapply wired_heap.
  destruct (connects_upd_track n i (set_tk_out (tk_ch tk)) (fun _ => eq_refl) e1 tt e' He1 ltac:(done) E) as (He' & Hsame & _).
  split; [done|]. exists tk0. split; [done|]. rewrite <- EM. apply map_eq. intros j. apply (Hsame j). by intros [].
Qed.

Lemma set_input_Ok n i k a e e' : wired_e e -> track_set_input n i k a e = (Ok tt, e') -> wired_e e' /\
  exists tk mx mx' id, track_at x0 n i = Some tk /\ (forall m, m <> tk_mux tk -> same m e e') /\
    h_mux (heap_of e) !! tk_mux tk = Some mx /\ h_mux (heap_of e') !! tk_mux tk = Some mx' /\ mux_get_input mx k = Some mux_input_zero /\
    m_inputs mx' = <[Z.to_nat k := mk_mux_input k (Some a) false (Some (m_output mx)) (Some id)]> (m_inputs mx) /\
    m_ninputs mx' = m_ninputs mx /\ m_select_func mx' = m_select_func mx /\ m_select mx' = m_select mx /\
    m_output mx' = m_output mx /\ m_def mx' = m_def mx.
Proof.
  intros He E. unfold track_set_input in E. apply mbind_Ok in E as (tk & e1 & E1 & E).
  destruct (read_track n i e tk e1 He E1) as [-> (tk0 & Ht & HK)]. destruct (key_of_track n i tk tk0 Ht HK) as (_ & Em & _).
  apply on_heap_Ok in E as (E & Ex & Es). rewrite Em in E.
  destruct (wiring_set_input _ _ _ _ _ _ (we_net _ He) E) as (W & EW & Hs & mx & mx' & id & H). split; [by eapply wired_heap|].
  exists tk0, mx, mx', id. split; [done|]. split; [exact Hs|exact H].
Qed.

Lemma th_chan_unwritten t i : ~ written (th_chan t i).
Proof. by intros (m & u & [=]). Qed.
Lemma cpu_chan_unwritten t i : ~ written (cpu_chan t i).
Proof. by intros (m & u & [=]). Qed.

Lemma connects_thread_track n i t a : base a ->
  connects (track_mux_of n i) (track_mux_of n i) (track_th_input_chan n i (th_chan t TH_CHAN_STATE) a)
    (fun e => exists tk, track_at x0 n i = Some tk /\ thread_tracked t a tk (heap_of e)).
Proof.
  intros Ha e [] e' He Hf E. unfold track_th_input_chan in E. apply mbind_Ok in E as (tk & e1 & E1 & E).
  destruct (read_track n i e tk e1 He E1) as [-> (tk0 & Ht & HK)]. destruct (key_of_track n i tk tk0 Ht HK) as (Emode & Em & Ec & Ho & Hsl).
  destruct (decide (tk_mode tk = TRACK_TH_ANY)) as [Hany|Hany].
  { rewrite Hany in E. destruct (connects_upd_track n i (set_tk_out a) (fun tk => eq_refl) e tt e' He ltac:(done) E) as (He' & Hsame & _).
    split; [done|]. split; [intros m _; apply Hsame; by intros []|]. exists tk0. split; [done|]. intros ?. congruence. }
  set (fsel := if bool_decide (tk_mode tk = TRACK_TH_RUN) then SelThreadRunning else SelThreadActive).
  assert ((track_set_select n i (th_chan t TH_CHAN_STATE) (Some fsel) 1 ;;; track_set_input n i 0 a) e = (Ok tt, e')) as E'
    by (unfold fsel; destruct (tk_mode tk); [done|exact E..]). clear E.
  apply mbind_Ok in E' as ([] & e1 & E2 & E3).
  destruct (set_select_Ok n i _ _ 1 e e1 He Hf (th_chan_unwritten _ _) ltac:(lia) E2) as (He1 & tk1 & Ht1 & EM). assert (tk1 = tk0) as -> by congruence.
  destruct (set_input_Ok n i 0 a e1 e' He1 E3) as (He' & tk1 & mx & mx' & id & Ht2 & Hs & Hmx & Hmx' & _ & Hin & Hn & Hfn & Hsel & Hout & Hdef).
  assert (tk1 = tk0) as -> by congruence. rewrite EM, lookup_insert_eq in Hmx. injection Hmx as <-. simpl in Hin, Hn, Hfn, Hsel, Hout, Hdef.
  split; [done|]. split.
  - intros m Hm. assert (m <> tk_mux tk0) as Hne by (by intros ->). specialize (Hs m Hne). simpl in Hs |- *. rewrite Hs, EM.
    by rewrite lookup_insert_ne.
  - exists tk0. split; [done|]. intros _. exists mx'. split; [done|]. split; [|done].
    split; [|done|done| |done|done].
    + rewrite Hfn. unfold fsel. rewrite Emode in *. by destruct (tk_mode tk0).
    + eexists. by split.
Qed.

(** ** Tracks of CPUs *)

Notation chans mx := (mi_chan <$> m_inputs mx).

(** The track of CPU [c] whose input for every thread [t] is [inp t]. *)
Definition cpu_tracked (c : nat) (inp : nat -> addr) (tk : track) (h : heap) : Prop :=
  exists mx, h_mux h !! tk_mux tk = Some mx /\ cpu_track c (chans mx) mx /\ m_output mx = tk_ch tk /\
    forall t th, t ∈ sys_threads sys0 -> ths0 !! t = Some th -> chans mx !! Z.to_nat (t_gindex th) = Some (Some (inp t)).

Lemma chans_set mx mx' k a id : mux_get_input mx k = Some mux_input_zero ->
  m_inputs mx' = <[Z.to_nat k := mk_mux_input k (Some a) false (Some (m_output mx)) (Some id)]> (m_inputs mx) ->
  chans mx' = <[Z.to_nat k := Some a]> (chans mx) /\ chans mx !! Z.to_nat k = Some None.
Proof.
  intros Hg ->. split; [by rewrite list_fmap_insert|]. unfold mux_get_input in Hg. destruct (k <? 0); [done|].
  by rewrite list_lookup_fmap, Hg.
Qed.

Lemma cpu_inputs n i inp l tk e e' mx : wired_e e -> (forall t, base (inp t)) -> track_at x0 n i = Some tk ->
  h_mux (heap_of e) !! tk_mux tk = Some mx -> (forall a, Some a ∈ chans mx -> base a) ->
  for_each (fun t => let* th := on_heap (load_thread t) in track_set_input n i (t_gindex th) (inp t)) l e = (Ok tt, e') ->
  wired_e e' /\ (forall m, m <> tk_mux tk -> same m e e') /\ exists mx', h_mux (heap_of e') !! tk_mux tk = Some mx' /\
    m_select_func mx' = m_select_func mx /\ m_select mx' = m_select mx /\ m_output mx' = m_output mx /\
    (forall a, Some a ∈ chans mx' -> base a) /\ (forall j a, chans mx !! j = Some (Some a) -> chans mx' !! j = Some (Some a)) /\
    forall t th, t ∈ l -> ths0 !! t = Some th -> chans mx' !! Z.to_nat (t_gindex th) = Some (Some (inp t)).
Proof.
  intros He Hb Ht. revert e mx He. induction l as [|t l IH]; intros e mx He Hmx Hbase E; simpl in E.
  { injection E as <-. split; [done|]. split; [intros; apply same_refl|]. exists mx. split_and!; try done. intros ? ? []%elem_of_nil. }
  apply mbind_Ok in E as ([] & e1 & E1 & E). apply mbind_Ok in E1 as (th & e2 & E2 & E1).
  destruct (read_thread t e th e2 He E2) as [-> Hth].
  destruct (set_input_Ok n i _ _ e e1 He E1) as (He1 & tk1 & mx0 & mx1 & id & Ht1 & Hs1 & Hmx0 & Hmx1 & Hg & Hin & _ & Hf1 & Hsel1 & Ho1 & _).
  assert (tk1 = tk) as -> by congruence. assert (mx0 = mx) as -> by congruence. destruct (chans_set _ _ _ _ _ Hg Hin) as [Hc Hz].
  destruct (IH e1 mx1 He1 Hmx1) as (He' & Hs2 & mx' & Hmx' & Hf2 & Hsel2 & Ho2 & Hb2 & Hk & Hl); [|done|].
  { intros a. rewrite Hc. intros (j & Hj)%list_elem_of_lookup. rewrite list_lookup_insert in Hj. case_decide; [injection Hj as <-; apply Hb|].
    apply Hbase. by eapply list_elem_of_lookup_2. }
  assert (forall j a, chans mx1 !! j = Some (Some a) -> chans mx' !! j = Some (Some a)) as Hk' by done.
  split; [done|]. split; [intros m Hm; eapply same_trans; [by apply Hs1|by apply Hs2]|]. exists mx'. split_and!; try congruence; try done.
  - intros j a Hj. apply Hk. rewrite Hc, list_lookup_insert_ne; [done|]. intros <-. congruence.
  - intros u uh [->|Hu]%elem_of_cons Huh; [|by apply Hl]. assert (uh = th) as -> by congruence. apply Hk. rewrite Hc.
    apply list_lookup_insert_eq. by eapply lookup_lt_Some.
Qed.

Lemma connects_cpu_track n i c inp : (forall t, base (inp t)) -> 0 <= sys_nthreads sys0 ->
  connects (track_mux_of n i) (track_mux_of n i) (track_connect_cpu n i (cpu_get_th_chan c) inp)
    (fun e => exists tk, track_at x0 n i = Some tk /\ cpu_tracked c inp tk (heap_of e)).
Proof.
  intros Hb Hn e [] e' He Hf E. unfold track_connect_cpu in E. apply mbind_Ok in E as (sys & e1 & E1 & E).
  destruct (read_sys e sys e1 He E1) as [-> ->]. apply mbind_Ok in E as ([] & e1 & E2 & E).
  destruct (set_select_Ok n i _ _ _ e e1 He Hf (cpu_chan_unwritten _ _) Hn E2) as (He1 & tk & Ht & EM).
  set (mx0 := mk_mux _ _ _ _ _ _ _) in EM.
  destruct (cpu_inputs n i inp (sys_threads sys0) tk e1 e' mx0 He1 Hb Ht) as (He' & Hs & mx & Hmx & Hf1 & Hsel & Ho & Hb' & _ & Hl); [by rewrite EM, lookup_insert_eq| |exact E|].
  { simpl. intros a. rewrite fmap_replicate. intros [Ha _]%elem_of_replicate. done. }
  simpl in Hf1, Hsel, Ho. split; [done|]. split.
  - intros m Hm. assert (m <> tk_mux tk) as Hne by (intros ->; apply Hm; by apply (xw_track _ _ _ HX)). specialize (Hs m Hne). simpl in Hs |- *.
    rewrite Hs, EM. by rewrite lookup_insert_ne.
  - exists tk. split; [done|]. exists mx. split_and!; [done| |done|done]. by split.
Qed.

(** ** Steps that connect nothing *)

Definition inert {B} (op : M emu B) : Prop := connects nothing nothing op always.

Lemma inert_uses {B} T (op : M emu B) : inert op -> connects nothing T op always.
Proof. intros Hi. by eapply uses_mono; [exact Hi|..]. Qed.

Lemma inert_quiet {B} (op : M emu B) : quiet op -> inert op.
Proof. intros Hq e b e' He _ E. rewrite (quiet_Ok _ _ _ _ Hq E). split; [done|]. split; [|done]. intros m _. apply same_refl. Qed.

Lemma inert_bind {B C} (m : M emu B) (k : B -> M emu C) : inert m -> (forall b, inert (k b)) -> inert (mbind m k).
Proof. apply uses_then. Qed.

Lemma inert_if {B} (b : bool) (m1 m2 : M emu B) : inert m1 -> inert m2 -> inert (if b then m1 else m2).
Proof. by destruct b. Qed.

Lemma inert_for_each {B} (f : B -> M emu unit) l : (forall b, inert (f b)) -> inert (for_each f l).
Proof.
  intros Hf. induction l as [|b l IH]; simpl; [by apply inert_quiet|]. by apply inert_bind.
Qed.

Lemma inert_pcf {B} name (op : M pcf B) : inert (on_rec (on_pcf name op)).
Proof.
  intros e b e' He _ E. unfold on_rec, on_syst in E. destruct (in_rec (on_pcf name op) (em_sys e)) as [r s] eqn:E1. injection E as -> <-.
  apply in_rec_Ok in E1 as (r & h & [-> _]%on_pcf_Ok & ->). simpl. split; [|by split]. destruct He. by split.
Qed.

Lemma inert_prv_register p row type a flags : inert (on_heap (prv_register p row type a flags)).
Proof. apply connects_prv_register. Qed.
Lemma inert_sort_input s i a : inert (on_heap (sort_set_input s i a)).
Proof. apply connects_sort_input. Qed.

Lemma quiet_thread_tracks m t : quiet (thread_tracks m t). Proof. unfold thread_tracks, get_ext. quiet_tac. Qed.
Lemma quiet_cpu_tracks m t : quiet (cpu_tracks m t). Proof. unfold cpu_tracks, get_ext. quiet_tac. Qed.
Lemma quiet_find_pvt name : quiet (find_pvt name). Proof. unfold find_pvt. quiet_tac. Qed.
Lemma quiet_load_track n i : quiet (load_track n i). Proof. unfold load_track, get_ext. quiet_tac. Qed.
Lemma quiet_get_sys : quiet get_sys. Proof. unfold get_sys. quiet_tac. Qed.
Lemma quiet_get_heap : quiet get_heap. Proof. unfold get_heap. quiet_tac. Qed.

Lemma quiet_on_heap {B} (op : M heap B) : quiet op -> quiet (on_heap op).
Proof.
  intros Hq e. unfold on_heap, on_syst, in_heap. specialize (Hq (st_heap (em_sys e))). destruct (op (st_heap (em_sys e))) as [r h].
  simpl in *. subst h. by destruct e as [? ? [] ? ?].
Qed.

Lemma quiet_load_cpu_e c : quiet (on_heap (load_cpu c)).
Proof. apply quiet_on_heap. unfold load_cpu. quiet_tac. Qed.
Lemma quiet_load_thread_e t : quiet (on_heap (load_thread t)).
Proof. apply quiet_on_heap. unfold load_thread. quiet_tac. Qed.
End Connect.

#[export] Hint Resolve quiet_thread_tracks quiet_cpu_tracks quiet_find_pvt quiet_load_track quiet_get_sys quiet_get_heap
  quiet_load_cpu_e quiet_load_thread_e inert_pcf inert_prv_register inert_sort_input : connect.

Ltac inert_tac := repeat first
  [ lazymatch goal with |- inert _ _ _ _ _ (mbind _ _) => apply inert_bind; [|intros ?] end
  | lazymatch goal with |- inert _ _ _ _ _ (for_each _ _) => apply inert_for_each; intros ? end
  | solve [apply inert_quiet; eauto 2 with connect] | solve [apply inert_quiet; quiet_tac]
  | solve [eauto 2 with connect]
  | lazymatch goal with |- inert _ _ _ _ _ (if _ then _ else _) => apply inert_if end
  | case_match ].
