(* ===== verification/Running.v ===== *)
(** * The emulator over the events (src/emu/emu.c)

    What every step of the emulator keeps, the late connection of the model of
    the FPGA included: that adds rows to the trace while the emulation runs,
    which no multiplexer notices. *)

From Stdlib Require Import Ascii.
From S2P Require Import Prelude Footprint Chan Pcf Heap Bay Mux Sort Prv Dispatch Network Thread Loom Event OvniModel OvniCorrect.
From S2P Require Import Coherence Model Emu Roster Table Recorder System ConnectCorrect Json Track ModelThread Mark Hwc Breakdown Specs Setups.
From S2P Require Import Effect Flow FlowHooks Views Wiring Connecting.

(** ** A callback that draws, added to a settled network *)

Definition calm_at (C : gmap nat _) (h : heap) : Prop := coherent h /\ calm h /\ linked C h.

Lemma calm_ext C h h' : h_chan h' = h_chan h -> h_bay h' = h_bay h -> h_cb h' = h_cb h -> h_mux h' = h_mux h ->
  world h' = world h -> calm_at C h -> calm_at C h'.
Proof.
  intros E1 E2 E3 E4 W (Hco & [H1 H2 H3] & HC). split_and!.
  - by apply (coherent_ext (h_thread h) h).
  - split; [by apply (flowing_ext h)|by rewrite E2|]. by apply (flows_same _ h); [..|intros a c ?; exists c; rewrite E1|].
  - unfold linked. by rewrite E4.
Qed.

Section Added.
Variables (h h' : heap) (id0 : nat) (cb0 : bay_cb).
Hypothesis Hfresh : h_cb h !! id0 = None.
Hypothesis Hcb : h_cb h' = <[id0 := cb0]> (h_cb h).
Hypothesis Hdraws : exists p k, cb_func cb0 = FnPrv p k.
Hypothesis Hch : h_chan h' = h_chan h.
Hypothesis Hmux : h_mux h' = h_mux h.
Hypothesis Hreg : bc_chan <$> b_channels (h_bay h') = bc_chan <$> b_channels (h_bay h).

Lemma added_old id cb : h_cb h' !! id = Some cb -> (forall p k, cb_func cb <> FnPrv p k) -> h_cb h !! id = Some cb.
Proof.
  destruct Hdraws as (p & k & E). intros Hid Hf. rewrite Hcb, lookup_insert in Hid. case_decide; [|done].
  injection Hid as <-. by destruct (Hf p k).
Qed.

Lemma added_net : net h -> net h'.
Proof.
  intros [N1 N2 N3 N4 N5 N6 N7].
  assert (forall id f a, cb_on h id f a -> cb_on h' id f a) as Hon by (intros id f a H; by eapply cb_on_added).
  split; rewrite ?Hmux; try done.
  - intros m mx i inp id Hm Hi Hid. destruct (N1 m mx i inp id Hm Hi Hid) as (a & ? & ? & ? & ?). exists a. auto.
  - intros id cb m i Hid Hf. apply (N2 id cb m i); [|done]. apply added_old; [done|]. intros p k. by rewrite Hf.
  - intros id cb m Hid Hf. destruct (N3 id cb m) as (mx & ? & ?); [|done|exists mx; auto].
    apply added_old; [done|]. intros p k. by rewrite Hf.
  - intros m mx Hm. destruct (N4 m mx Hm) as (id & ?). exists id. auto.
Qed.

Lemma added_flows : net h -> flows (fun _ => False) h -> flows (fun _ => False) h'.
Proof.
  intros HN HF m mx Hm H1. rewrite Hmux in Hm. destruct (HF m mx Hm H1) as [He Hf].
  assert (forall a v, shows h a v -> shows h' a v) as Hs by (intros a v (c & ? & ?); exists c; by rewrite Hch).
  assert (forall s b, enabled_only mx s b h -> enabled_only mx s b h') as Hen.
  { intros s b. apply enabled_only_conn; [done|]. intros i inp id Hi Hid.
    destruct (net_input _ HN m mx i inp id Hm Hi Hid) as (a & _ & _ & _ & cb & ? & E & _).
    rewrite Hcb, lookup_insert_ne; [done|]. intros ->. congruence. }
  split; [by apply Hen|]. destruct Hf as [(? & ? & _ & _ & [])|(v & Hv & Hf)]. right. exists v. split; [by apply Hs|].
  destruct Hf as [(-> & ? & ?)|(res & Hp & ? & [(w & Hw & Ho)|(? & ? & ? & _ & _ & _ & [])])]; [left; split_and!; auto|right].
  exists res. split_and!; [done|by apply Hen|left]. exists w. split; [|by apply Hs].
  eapply shown_value_frame; [done| |exact Hw]. intros. by rewrite Hch.
Qed.
End Added.

(** A new row of the trace. *)
Lemma add_draw_calm C a p k en h id h' : calm_at C h -> bay_add_cb BAY_CB_EMIT a (Some (FnPrv p k)) en h = (Ok id, h') ->
  calm_at C h'.
Proof.
  intros (Hco & [[F1 F2 F3 F4 F5 F6] Hd HF] & HC) E.
  destruct (bay_add_cb_inv _ _ _ _ _ _ _ F1 E) as (HB & Ech & Em & _ & _ & (g & nm & [= <-] & Hf & Ecb) & Ebc & Ed & Est).
  pose proof (bay_add_cb_world _ _ _ _ _ _ _ E) as W.
  set (cb0 := mk_bay_cb (FnPrv p k) nm en BAY_CB_EMIT) in *.
  assert (exists p k, cb_func cb0 = FnPrv p k) as Hdr by (by exists p, k).
  assert (flows (fun _ => False) h') as HF' by by apply (added_flows h h' id cb0).
  split_and!.
  - by apply (coherent_ext (h_thread h) h).
  - split; [split|by rewrite Ed|done].
    + done.
    + by apply (client_inv_added h h' id cb0).
    + by apply (added_net h h' id cb0).
    + intros i cb m Hi Hfn. apply (F4 i cb m); [|done]. apply (added_old h h' id cb0 Ecb Hdr); [done|]. intros ? ?. by rewrite Hfn.
    + by rewrite Est.
    + eapply flows_mono; [|exact HF']. by intros x [].
  - unfold linked. by rewrite Em.
Qed.

Lemma prv_register_calm C p row type a flags : keeps_ok (calm_at C) (prv_register p row type a flags).
Proof.
  intros h [] h' Hh E. unfold prv_register in E. apply mbind_Ok in E as (pv & h1 & E1 & E). assert (h1 = h) as ->.
  { unfold load_prv in E1. by apply mbind_Ok in E1 as (? & ? & [= <- <-] & [_ ->]%deref_Ok). }
  case_match; [done|]. apply mbind_Ok in E as ([] & h1 & E2 & E). assert (h1 = h) as ->.
  { unfold check_flags in E2. repeat case_match; by injection E2. }
  apply mbind_Ok in E as (id & h1 & E3 & [= <-]). apply (calm_ext C h1); [done..|]. by eapply add_draw_calm.
Qed.

Lemma prv_register_roster R p row type a flags : keeps_ok (fun h => roster h = R) (prv_register p row type a flags).
Proof.
  unfold prv_register, load_prv, check_flags. co_bind; [quiet_step|]. case_match; [quiet_step|]. co_bind; [quiet_step|].
  co_bind; [|by apply roster_mod]. intros h id h' Hh E. by apply (roster_world R h); [apply (bay_add_cb_world _ _ _ _ _ _ _ E)|].
Qed.

Lemma recorder_advance_calm C prvs t : keeps_ok (calm_at C) (recorder_advance prvs t).
Proof.
  unfold recorder_advance. apply for_each_keeps_ok. intros p. unfold prv_advance, load_prv.
  co_bind; [quiet_step|]. case_match; [quiet_step|]. apply keeps_ok_mod. intros h. by apply calm_ext.
Qed.

(** ** A step of the emulator *)

(** The system of a connected emulator, while it runs: [x0] is the memory of
    the models, [C] the connections, [R] who the threads and CPUs are. *)
Record running (x0 : extn) (sys0 : system) (C : gmap nat _) (R : _) (e : emu) : Prop := {
  rn_ext : same_ext x0 (em_ext e);
  rn_sys : st_sys (em_sys e) = sys0;
  rn_calm : calm_at C (heap_of e);
  rn_roster : roster (heap_of e) = R
}.

Section Run.
Variables (x0 : extn) (sys0 : system).
Variable C : gmap nat (Z * option mux_select_func * addr * addr * value * list (Z * option addr * option addr * option nat)).
Variable R : gmap nat (Z * Z * nat) * gmap nat (Z * bool) * gmap nat proc.
Variables (O : nat -> option mux_owner) (A : nat -> option array_owner).
Hypothesis HX : ext_wf O A x0.
Notation runs := (running x0 sys0 C R).

Lemma runs_heap {B} (op : M heap B) : keeps_ok (calm_at C) op -> keeps_ok (fun h => roster h = R) op -> keeps_ok runs (on_heap op).
Proof.
  intros H1 H2 e b e' [] (E & Ex & Es)%on_heap_Ok. split; [by rewrite Ex|congruence|by eapply H1|by eapply H2].
Qed.

Lemma runs_pcf {B} name (op : M pcf B) : keeps_ok runs (on_rec (on_pcf name op)).
Proof.
  intros e b e' [] E. unfold on_rec, on_syst in E. destruct (in_rec (on_pcf name op) (em_sys e)) as [r s] eqn:E1. injection E as -> <-.
  apply in_rec_Ok in E1 as (r & h & [-> _]%on_pcf_Ok & ->). by split.
Qed.

Lemma runs_upd_track n i f : (forall tk, track_key (f tk) = track_key tk) -> keeps_ok runs (upd_track n i f).
Proof.
  intros Hf e [] e' [] [Ex Es]%on_ext_Ok. split; unfold heap_of in *; rewrite ?Ex, ?Es; try done. by apply same_ext_upd.
Qed.

(** The track of a thread in the model of the FPGA is its channel. *)
Lemma runs_xtasks_track t n sel a : A n = Some (AThread (ch "X") t) -> keeps_ok runs (track_th_input_chan n 0 sel a).
Proof.
  intros Hn e [] e' He E. unfold track_th_input_chan in E. apply mbind_Ok in E as (tk & e1 & E1 & E).
  unfold load_track, get_ext in E1. apply mbind_Ok in E1 as (x & e2 & E1 & [Ht ->]%deref_Ok).
  apply mbind_Ok in E1 as (? & ? & [= <- <-] & [= <- <-]).
  destruct (same_ext_track x0 _ n 0 tk (rn_ext _ _ _ _ _ He) Ht) as (tk0 & Ht0 & HK). injection HK as Hmode _ _.
  assert (tk_mode tk = TRACK_TH_ANY) as Hany by (rewrite Hmode; by apply (xw_mode _ _ _ HX n (AThread (ch "X") t) 0 tk0)).
  rewrite Hany in E. by apply (runs_upd_track n 0 (set_tk_out a) (fun _ => eq_refl) e tt e').
Qed.

Lemma runs_xtasks_connect : keeps_ok runs model_xtasks_connect.
Proof.
  unfold model_xtasks_connect, model_thread_connect. co_bind; [quiet_step|]. co_bind.
  - apply for_each_keeps_ok. intros t e [] e' He E. apply mbind_Ok in E as (n & e1 & E1 & E).
    unfold thread_tracks, get_ext in E1. apply mbind_Ok in E1 as (x & e2 & E1 & [Hn ->]%deref_Ok).
    apply mbind_Ok in E1 as (? & ? & [= <- <-] & [= <- <-]). rewrite (se_thread _ _ (rn_ext _ _ _ _ _ He)) in Hn.
    assert (keeps_ok runs (track_connect_thread n 0 (model_chan "X" t) (th_chan t TH_CHAN_STATE) 1)) as Hk; [|by eapply Hk].
    unfold track_connect_thread. simpl. co_bind; [|quiet_step]. apply (runs_xtasks_track t). by apply (xw_thread _ _ _ HX).
  - unfold model_pvt_connect_thread. co_bind; [quiet_step|]. co_bind; [apply keeps_ok_quiet, quiet_find_pvt|]. co_bind; [|apply runs_pcf].
    apply for_each_keeps_ok. intros t. co_bind; [apply keeps_ok_quiet, quiet_thread_tracks|].
    co_bind; [apply keeps_ok_quiet, quiet_load_thread_e|]. unfold connect_prv. apply for_each_keeps_ok. intros i.
    co_bind; [apply keeps_ok_quiet, quiet_load_track|]. do 3 (co_bind; [try quiet_step|]).
    apply runs_heap; [apply prv_register_calm|apply prv_register_roster].
Qed.

Lemma runs_xtasks_enable md x : keeps_ok runs (xtasks_enable md x).
Proof.
  unfold xtasks_enable. co_bind; [quiet_step|]. do 2 (case_match; [quiet_step|]).
  co_bind; [apply runs_xtasks_connect|]. apply keeps_ok_mod. intros e []. by split.
Qed.

(** Any step of the emulator that succeeds keeps the network settled. *)
Lemma runs_step md fuel x : GoodModels md -> FlowModels md -> RosterModels md -> keeps_ok runs (emu_step md fuel x).
Proof.
  intros HM HF HR. unfold emu_step. co_bind; [quiet_step|]. co_bind; [apply runs_heap; [apply recorder_advance_calm|apply roster_advance]|].
  co_bind; [apply runs_xtasks_enable|]. intros e [] e' [Hx Hs (Hco & Hca & HC) Hr] E.
  apply mbind_Ok in E as ([] & e1 & (E1 & Ex1 & Es1)%on_heap_Ok & (E2 & Ex2 & Es2)%on_heap_Ok).
  split; [by rewrite Ex2, Ex1|congruence| |].
  - apply (event_calm md fuel x C (heap_of e)); [done..|by split; [apply Hca|]|]. by rewrite (mbind_run _ _ _ tt (heap_of e1)).
  - apply (roster_event R md x HR) in E1; [|done]. by apply (roster_propagate R fuel) in E2.
Qed.

Lemma runs_steps md fuel xs : GoodModels md -> FlowModels md -> RosterModels md -> keeps_ok runs (emu_steps md fuel xs).
Proof. intros HM HF HR. apply for_each_keeps_ok. intros x. by apply runs_step. Qed.
End Run.
