(* ===== verification/ModelConnect.v ===== *)
(** * The connection of every model

    What [model_connect] of every model leaves: the tracks of its threads and
    CPUs, of the marks and the hardware counters follow their channels. *)

From Stdlib Require Import Ascii.
From S2P Require Import Prelude Footprint Chan Pcf Heap Bay Mux Sort Prv Dispatch Network Thread Loom Event OvniModel OvniCorrect.
From S2P Require Import Coherence Model Recorder System SystemCorrect ConnectCorrect Json Table Track ModelThread Mark Nosv Hwc.
From S2P Require Import Breakdown Specs Setups Effect Flow Views Wiring Connecting.

Lemma nodup_fmap_inj {B C} (f : B -> C) l a b : NoDup (f <$> l) -> a ∈ l -> b ∈ l -> f a = f b -> a = b.
Proof.
  intros Hn (i & Hi)%list_elem_of_lookup (j & Hj)%list_elem_of_lookup E.
  assert (i = j) as <-; [|congruence]. eapply NoDup_lookup; [exact Hn|by rewrite list_lookup_fmap, Hi|by rewrite list_lookup_fmap, Hj, E].
Qed.

Section Connect.
Context (x0 : extn) (sys0 : system) (ths0 : gmap nat thread) (cs0 : gmap nat cpu) (mk0 : ovni_mark_emu).
Context (O : nat -> option mux_owner) (A : nat -> option array_owner) (HX : ext_wf O A x0).
Hypothesis Hn : 0 <= sys_nthreads sys0.
Hypothesis threads_nodup : NoDup (sys_threads sys0).
Hypothesis cpus_nodup : NoDup (sys_cpus sys0).

Notation wired := (wired_e x0 sys0 ths0 cs0 mk0).
Notation connects := (uses wired).
Notation inert := (inert x0 sys0 ths0 cs0 mk0).
Notation thread_tracked := thread_tracked.
Notation cpu_tracked := (cpu_tracked sys0 ths0).
Notation mux_of := (track_mux_of O).

(** ** Footprints *)

(** The multiplexers of the arrays of an owner, and of a breakdown. *)
Definition array_muxes (o : array_owner) : nat -> Prop := fun m => exists n i, O m = Some (MTrack n i) /\ A n = Some o.
Definition bd_muxes (k : Z * nat) : nat -> Prop := fun m => O m = Some (MBreakdown k).

Lemma array_muxes_inj o o' m : array_muxes o m -> array_muxes o' m -> o = o'.
Proof. intros (n & i & H1 & H2) (n' & i' & H1' & H2'). congruence. Qed.

Lemma in_array n i o m : A n = Some o -> mux_of n i m -> array_muxes o m.
Proof. intros HA HO. by exists n, i. Qed.

(** The conclusion about a track is about its multiplexer. *)
Lemma tracked_local n i (P : track -> heap -> Prop) :
  (forall tk h h', h_mux h' !! tk_mux tk = h_mux h !! tk_mux tk -> P tk h -> P tk h') ->
  local wired (mux_of n i) (fun e => exists tk, track_at x0 n i = Some tk /\ P tk (heap_of e)).
Proof.
  intros HP e e' _ Hs (tk & Ht & H). exists tk. split; [done|]. eapply HP; [|exact H]. apply (Hs (tk_mux tk)).
  by apply (xw_track _ _ _ HX).
Qed.

Lemma thread_tracked_same t a tk h h' : h_mux h' !! tk_mux tk = h_mux h !! tk_mux tk ->
  thread_tracked t a tk h -> thread_tracked t a tk h'.
Proof. intros E H Hm. destruct (H Hm) as (mx & ? & ?). exists mx. by rewrite E. Qed.
Lemma cpu_tracked_same c inp tk h h' : h_mux h' !! tk_mux tk = h_mux h !! tk_mux tk ->
  cpu_tracked c inp tk h -> cpu_tracked c inp tk h'.
Proof. intros E (mx & ? & ?). exists mx. by rewrite E. Qed.

(** The tracks [l] of an array, one by one. *)
Lemma connects_tracks {B} n o (idx : B -> nat) (P : B -> track -> heap -> Prop) (f : B -> M emu unit) l :
  A n = Some o -> NoDup (idx <$> l) ->
  (forall b tk h h', h_mux h' !! tk_mux tk = h_mux h !! tk_mux tk -> P b tk h -> P b tk h') ->
  (forall b, b ∈ l -> connects (mux_of n (idx b)) (mux_of n (idx b)) (f b)
     (fun e => exists tk, track_at x0 n (idx b) = Some tk /\ P b tk (heap_of e))) ->
  connects (array_muxes o) (array_muxes o) (for_each f l)
    (fun e => forall b, b ∈ l -> exists tk, track_at x0 n (idx b) = Some tk /\ P b tk (heap_of e)).
Proof.
  intros HA Hl HP Hf. eapply uses_mono.
  - apply (uses_for_each wired (fun b => mux_of n (idx b)) (fun b => mux_of n (idx b))
      (fun b e => exists tk, track_at x0 n (idx b) = Some tk /\ P b tk (heap_of e))); [by eapply NoDup_fmap_1|done|done| |].
    + intros a b r Ha Hb E1 E2. unfold track_mux_of in *. rewrite E1 in E2. injection E2 as E.
      by eapply (nodup_fmap_inj idx).
    + intros b _. apply tracked_local, HP.
  - intros m (b & _ & Hm). by eapply in_array.
  - intros m (b & _ & Hm). by eapply in_array.
  - done.
Qed.

(** ** Rows: nothing is connected *)

Lemma inert_connect_prv spec p row n : inert (connect_prv spec p row n).
Proof. unfold connect_prv, at_. inert_tac. Qed.

Lemma inert_connect_row p row ty flags n i : inert (connect_row p row ty flags n i).
Proof. unfold connect_row. inert_tac. Qed.

Lemma inert_pvt_thread sp : inert (model_pvt_connect_thread sp).
Proof. unfold model_pvt_connect_thread. inert_tac. apply inert_connect_prv. Qed.

Lemma inert_pvt_cpu sp : inert (model_pvt_connect_cpu sp).
Proof. unfold model_pvt_connect_cpu. inert_tac. apply inert_connect_prv. Qed.

(** ** The channels of a model *)

(** What the tracks of a thread, and of a CPU, follow. *)
Definition model_thread_tracked (sp : model_obj_spec) (t : nat) (e : emu) : Prop :=
  exists n, x_thread x0 !! (ch (spec_model sp), t) = Some n /\ forall i, (i < nch (spec_chan sp))%nat ->
    exists tk, track_at x0 n i = Some tk /\ thread_tracked t (model_chan (spec_model sp) t i) tk (heap_of e).
Definition model_cpu_tracked (sp : model_obj_spec) (c : nat) (e : emu) : Prop :=
  exists n, x_cpu x0 !! (ch (spec_model sp), c) = Some n /\ forall i, (i < nch (spec_chan sp))%nat ->
    exists tk, track_at x0 n i = Some tk /\ cpu_tracked c (fun t => model_chan (spec_model sp) t i) tk (heap_of e).

Lemma read_array {B} (f : extn -> option B) e n e' : wired e ->
  (let* x := get_ext in deref (f x)) e = (Ok n, e') -> e' = e /\ f (em_ext e) = Some n.
Proof.
  intros He E. apply mbind_Ok in E as (x & ? & E1 & [Hx ->]%deref_Ok). by apply mbind_Ok in E1 as (? & ? & [= <- <-] & [= <- <-]).
Qed.

Lemma seq_elem i k : i ∈ seq 0 k <-> (i < k)%nat.
Proof. rewrite elem_of_seq. lia. Qed.

Lemma tracks_local o {B} n (l : list B) (idx : B -> nat) (P : B -> track -> heap -> Prop) : A n = Some o ->
  (forall b tk h h', h_mux h' !! tk_mux tk = h_mux h !! tk_mux tk -> P b tk h -> P b tk h') ->
  local wired (array_muxes o) (fun e => forall b, b ∈ l -> exists tk, track_at x0 n (idx b) = Some tk /\ P b tk (heap_of e)).
Proof.
  intros HA HP e e' He' Hs H b Hb. revert e e' He' Hs H. intros e e' He' Hs H.
  apply (tracked_local n (idx b) (P b) (HP b) e e' He'); [|by apply H]. intros m Hm. apply Hs. by eapply in_array.
Qed.

Lemma connects_init_thread sp t :
  connects (array_muxes (AThread (ch (spec_model sp)) t)) (array_muxes (AThread (ch (spec_model sp)) t))
    (let* n := thread_tracks (spec_model sp) t in
     track_connect_thread n 0 (model_chan (spec_model sp) t) (th_chan t TH_CHAN_STATE) (nch (spec_chan sp)))
    (model_thread_tracked sp t).
Proof.
  apply (uses_read wired (fun n => x_thread x0 !! (ch (spec_model sp), t) = Some n)).
  { intros e n e' He E. apply (read_array (fun x => x_thread x !! _)) in E as [-> E]; [|done]. split; [done|].
    by rewrite (se_thread _ _ (we_ext _ _ _ _ _ _ He)) in E. }
  intros n Hx. pose proof (xw_thread _ _ _ HX _ _ _ Hx) as HA. eapply uses_mono.
  - apply (connects_tracks n _ (fun i => i) (fun i tk => thread_tracked t (model_chan (spec_model sp) t i) tk) _ _ HA).
    + rewrite list_fmap_id. apply NoDup_seq.
    + intros. by eapply thread_tracked_same.
    + intros i _. by apply (connects_thread_track x0 sys0 ths0 cs0 mk0 O A HX).
  - done.
  - done.
  - intros e _ H. exists n. split; [done|]. intros i Hi. apply H. by apply seq_elem.
Qed.

Lemma connects_init_cpu sp c :
  connects (array_muxes (ACpu (ch (spec_model sp)) c)) (array_muxes (ACpu (ch (spec_model sp)) c))
    (connect_cpu_tracks sp c) (model_cpu_tracked sp c).
Proof.
  apply (uses_read wired (fun n => x_cpu x0 !! (ch (spec_model sp), c) = Some n)).
  { intros e n e' He E. apply (read_array (fun x => x_cpu x !! _)) in E as [-> E]; [|done]. split; [done|].
    by rewrite (se_cpu _ _ (we_ext _ _ _ _ _ _ He)) in E. }
  intros n Hx. pose proof (xw_cpu _ _ _ HX _ _ _ Hx) as HA. eapply uses_mono.
  - apply (connects_tracks n _ (fun i => i) (fun i tk => cpu_tracked c (fun t => model_chan (spec_model sp) t i) tk) _ _ HA).
    + rewrite list_fmap_id. apply NoDup_seq.
    + intros. by eapply cpu_tracked_same.
    + intros i _. apply (uses_read wired (fun _ => True)).
      { intros e mode e' He E. split; [|done]. by apply (quiet_Ok _ _ _ _ (quiet_deref _) E). }
      intros mode _. destruct (negb _); [by apply uses_fails|]. by apply (connects_cpu_track x0 sys0 ths0 cs0 mk0 O A HX).
  - done.
  - done.
  - intros e _ H. exists n. split; [done|]. intros i Hi. apply H. by apply seq_elem.
Qed.

Lemma model_thread_local sp t : local wired (array_muxes (AThread (ch (spec_model sp)) t)) (model_thread_tracked sp t).
Proof.
  intros e e' He' Hs (n & Hx & H). exists n. split; [done|]. intros i Hi.
  assert (local wired (array_muxes (AThread (ch (spec_model sp)) t)) (fun e => forall i, i ∈ seq 0 (nch (spec_chan sp)) ->
    exists tk, track_at x0 n i = Some tk /\ (fun i tk => thread_tracked t (model_chan (spec_model sp) t i) tk) i tk (heap_of e))) as L.
  { apply (tracks_local _ n _ (fun i => i) (fun i tk => thread_tracked t (model_chan (spec_model sp) t i) tk)); [by apply (xw_thread _ _ _ HX)|]. intros. by eapply thread_tracked_same. }
  apply (L e e' He' Hs); [|by apply seq_elem]. intros j Hj%seq_elem. by apply H.
Qed.

Lemma model_cpu_local sp c : local wired (array_muxes (ACpu (ch (spec_model sp)) c)) (model_cpu_tracked sp c).
Proof.
  intros e e' He' Hs (n & Hx & H). exists n. split; [done|]. intros i Hi.
  assert (local wired (array_muxes (ACpu (ch (spec_model sp)) c)) (fun e => forall i, i ∈ seq 0 (nch (spec_chan sp)) ->
    exists tk, track_at x0 n i = Some tk /\ (fun i tk => cpu_tracked c (fun t => model_chan (spec_model sp) t i) tk) i tk (heap_of e))) as L.
  { apply (tracks_local _ n _ (fun i => i) (fun i tk => cpu_tracked c (fun t => model_chan (spec_model sp) t i) tk)); [by apply (xw_cpu _ _ _ HX)|]. intros. by eapply cpu_tracked_same. }
  apply (L e e' He' Hs); [|by apply seq_elem]. intros j Hj%seq_elem. by apply H.
Qed.

(** *** All threads and CPUs *)

Definition thread_muxes (z : Z) : nat -> Prop := fun m => exists t, t ∈ sys_threads sys0 /\ array_muxes (AThread z t) m.
Definition cpu_muxes (z : Z) : nat -> Prop := fun m => exists c, c ∈ sys_cpus sys0 /\ array_muxes (ACpu z c) m.

Definition channels_tracked (th cpu : model_obj_spec) (e : emu) : Prop :=
  (forall t, t ∈ sys_threads sys0 -> model_thread_tracked th t e) /\ (forall c, c ∈ sys_cpus sys0 -> model_cpu_tracked cpu c e).

(** A loop over the threads or CPUs of the system. *)
Lemma connects_loop (l : list nat) (o : nat -> array_owner) (Q : nat -> emu -> Prop) (f : nat -> M emu unit) :
  NoDup l -> (forall a b, o a = o b -> a = b) ->
  (forall t, connects (array_muxes (o t)) (array_muxes (o t)) (f t) (Q t)) -> (forall t, local wired (array_muxes (o t)) (Q t)) ->
  connects (fun m => exists t, t ∈ l /\ array_muxes (o t) m) (fun m => exists t, t ∈ l /\ array_muxes (o t) m)
    (for_each f l) (fun e => forall t, t ∈ l -> Q t e).
Proof.
  intros Hnd Ho Hf HQ. apply (uses_for_each wired (fun t => array_muxes (o t)) (fun t => array_muxes (o t)) Q f l Hnd).
  - intros t _. apply Hf.
  - done.
  - intros a b m _ _ Ha Hb. by apply Ho, (array_muxes_inj _ _ m).
  - intros t _. apply HQ.
Qed.

Lemma loop_local (l : list nat) (o : nat -> array_owner) (Q : nat -> emu -> Prop) : (forall t, local wired (array_muxes (o t)) (Q t)) ->
  local wired (fun m => exists t, t ∈ l /\ array_muxes (o t) m) (fun e => forall t, t ∈ l -> Q t e).
Proof. intros HQ e e' He' Hs H t Ht. apply (HQ t e e' He'); [|by apply H]. intros m Hm. apply Hs. by exists t. Qed.

(** Steps that connect nothing, afterwards. *)
Lemma connects_inert {B C} N T Q (m : M emu B) (k : B -> M emu C) : connects N T m Q -> (forall b, inert (k b)) -> local wired T Q ->
  connects N T (mbind m k) Q.
Proof.
  intros Hm Hk HQ. eapply uses_mono; [apply (uses_seq wired T N T Q nothing nothing always m k Hm Hk)|..].
  all: first [done | by intros ? [] | by intros ? _ [] | by intros ? [|[]] | by intros ? _ [? _]].
Qed.

Lemma uses_seq2 {B} N1 T1 Q1 N2 T2 Q2 (m1 : M emu unit) (m2 : M emu B) D :
  connects N1 T1 m1 Q1 -> connects N2 T2 m2 Q2 -> (forall r, N2 r -> ~ T1 r) -> local wired D Q1 -> (forall r, D r -> ~ T2 r) ->
  connects (fun r => N1 r \/ N2 r) (fun r => T1 r \/ T2 r) (m1 ;;; m2) (fun e => Q1 e /\ Q2 e).
Proof. intros H1 H2. apply uses_seq; [done|by intros _]. Qed.

Lemma connects_channels th cpu z : ch (spec_model th) = z -> ch (spec_model cpu) = z ->
  connects (fun m => thread_muxes z m \/ cpu_muxes z m) (fun m => thread_muxes z m \/ cpu_muxes z m)
    (channels_connect th cpu) (channels_tracked th cpu).
Proof.
  intros Hth Hcpu.
  assert (local wired (thread_muxes z) (fun e => forall t, t ∈ sys_threads sys0 -> model_thread_tracked th t e)) as HL.
  { apply (loop_local _ (AThread z)). rewrite <- Hth. apply model_thread_local. }
  refine (uses_seq2 _ _ _ _ _ _ _ _ (thread_muxes z) _ _ _ HL _).
  - apply (uses_read wired (fun sys => sys = sys0)); [intros e s e' He E; by apply (read_sys x0 sys0 ths0 cs0 mk0)|]. intros ? ->.
    apply connects_inert; [|intros _; apply inert_pvt_thread|exact HL]. unfold thread_muxes. rewrite <- Hth.
    apply (connects_loop _ (AThread (ch (spec_model th)))); [done|by intros ? ? [=]| |].
    + intros t. apply connects_init_thread.
    + intros t. apply model_thread_local.
  - apply (uses_read wired (fun sys => sys = sys0)); [intros e s e' He E; by apply (read_sys x0 sys0 ths0 cs0 mk0)|]. intros ? ->.
    unfold cpu_muxes. rewrite <- Hcpu. apply connects_inert; [|intros _; apply inert_pvt_cpu|].
    + apply (connects_loop _ (ACpu (ch (spec_model cpu)))); [done|by intros ? ? [=]| |].
      * intros t. apply connects_init_cpu.
      * intros t. apply model_cpu_local.
    + apply (loop_local _ (ACpu _)), model_cpu_local.
  - intros m (c & _ & Hc) (t & _ & Ht). by pose proof (array_muxes_inj _ _ _ Hc Ht).
  - intros m (t & _ & Ht) (c & _ & Hc). by pose proof (array_muxes_inj _ _ _ Hc Ht).
Qed.

(** ** Marks and counters *)

Hypothesis Hmark : NoDup ((fun ty => Z.to_nat (mk_index ty)) <$> mark_types mk0).

Lemma read_marks e m e' : wired e -> get_marks e = (Ok m, e') -> e' = e /\ m = mk0.
Proof. intros He E. apply mbind_Ok in E as (h & ? & E & [= <- <-]). injection E as <- <-. split; [done|apply He]. Qed.

(** One track of a thread. *)
Lemma connects_one n i t a ch : ch i = a -> base a ->
  connects (mux_of n i) (mux_of n i) (track_connect_thread n i ch (th_chan t TH_CHAN_STATE) 1)
    (fun e => exists tk, track_at x0 n i = Some tk /\ thread_tracked t a tk (heap_of e)).
Proof.
  intros <- Hb. unfold track_connect_thread. simpl. apply connects_inert.
  - by apply (connects_thread_track x0 sys0 ths0 cs0 mk0 O A HX).
  - intros _. by apply inert_quiet.
  - apply tracked_local. intros. by eapply thread_tracked_same.
Qed.

Definition mark_thread_tracked (t : nat) (e : emu) : Prop :=
  exists n, x_mark_th x0 !! t = Some n /\ forall ty, ty ∈ mark_types mk0 ->
    exists tk, track_at x0 n (Z.to_nat (mk_index ty)) = Some tk /\ thread_tracked t (mark_chan t (mk_index ty)) tk (heap_of e).
Definition mark_cpu_tracked (c : nat) (e : emu) : Prop :=
  exists n, x_mark_cpu x0 !! c = Some n /\ forall ty, ty ∈ mark_types mk0 ->
    exists tk, track_at x0 n (Z.to_nat (mk_index ty)) = Some tk /\ cpu_tracked c (fun t => mark_chan t (mk_index ty)) tk (heap_of e).

Lemma connects_thread_marks p t :
  connects (array_muxes (AMarkThread t)) (array_muxes (AMarkThread t)) (connect_thread_marks p t) (mark_thread_tracked t).
Proof.
  apply (uses_read wired (fun m => m = mk0)); [apply read_marks|]. intros ? ->.
  apply (uses_read wired (fun n => x_mark_th x0 !! t = Some n)).
  { intros e n e' He E. apply (read_array (fun x => x_mark_th x !! _)) in E as [-> E]; [|done]. split; [done|].
    by rewrite (se_mark_th _ _ (we_ext _ _ _ _ _ _ He)) in E. }
  intros n Hx. apply (uses_read wired (fun _ => True)); [intros e th e' He E; by rewrite (quiet_Ok _ _ _ _ (quiet_load_thread_e t) E)|].
  intros th _. eapply uses_mono.
  - apply (connects_tracks n (AMarkThread t) (fun ty => Z.to_nat (mk_index ty)) (fun ty tk => thread_tracked t (mark_chan t (mk_index ty)) tk));
      [by apply (xw_mark_th _ _ _ HX)|done|intros; by eapply thread_tracked_same|].
    intros ty _. apply connects_inert.
    + apply (connects_one n _ t (mark_chan t (mk_index ty))); [unfold mark_chan; f_equal; lia|done].
    + intros _. apply inert_connect_row.
    + apply tracked_local. intros. by eapply thread_tracked_same.
  - done.
  - done.
  - intros e _ H. by exists n.
Qed.

Lemma connects_cpu_marks p c :
  connects (array_muxes (AMarkCpu c)) (array_muxes (AMarkCpu c)) (connect_cpu_marks p c) (mark_cpu_tracked c).
Proof.
  apply (uses_read wired (fun m => m = mk0)); [apply read_marks|]. intros ? ->.
  apply (uses_read wired (fun n => x_mark_cpu x0 !! c = Some n)).
  { intros e n e' He E. apply (read_array (fun x => x_mark_cpu x !! _)) in E as [-> E]; [|done]. split; [done|].
    by rewrite (se_mark_cpu _ _ (we_ext _ _ _ _ _ _ He)) in E. }
  intros n Hx. apply (uses_read wired (fun _ => True)); [intros e th e' He E; by rewrite (quiet_Ok _ _ _ _ (quiet_load_cpu_e c) E)|].
  intros cp _. eapply uses_mono.
  - apply (connects_tracks n (AMarkCpu c) (fun ty => Z.to_nat (mk_index ty)) (fun ty tk => cpu_tracked c (fun t => mark_chan t (mk_index ty)) tk));
      [by apply (xw_mark_cpu _ _ _ HX)|done|intros; by eapply cpu_tracked_same|].
    intros ty _. apply connects_inert.
    + by apply (connects_cpu_track x0 sys0 ths0 cs0 mk0 O A HX).
    + intros _. apply inert_connect_row.
    + apply tracked_local. intros. by eapply cpu_tracked_same.
  - done.
  - done.
  - intros e _ H. by exists n.
Qed.

(** Objects of two kinds, one after the other. *)
Definition object_muxes (o o' : nat -> array_owner) : nat -> Prop := fun m =>
  (exists t, t ∈ sys_threads sys0 /\ array_muxes (o t) m) \/ (exists c, c ∈ sys_cpus sys0 /\ array_muxes (o' c) m).

Lemma connects_both o o' (Q Q' : nat -> emu -> Prop) (f f' : nat -> nat -> M emu unit) (k k' : M emu unit) :
  (forall a b, o a = o b -> a = b) -> (forall a b, o' a = o' b -> a = b) -> (forall a b, o a <> o' b) ->
  (forall p t, connects (array_muxes (o t)) (array_muxes (o t)) (f p t) (Q t)) -> (forall t, local wired (array_muxes (o t)) (Q t)) ->
  (forall p c, connects (array_muxes (o' c)) (array_muxes (o' c)) (f' p c) (Q' c)) -> (forall c, local wired (array_muxes (o' c)) (Q' c)) ->
  inert k -> inert k' ->
  connects (object_muxes o o') (object_muxes o o')
    (let* pvt := find_pvt "thread" in for_each (f (pvt_prv pvt)) (sys_threads sys0) ;;; k ;;;
     let* pvt := find_pvt "cpu" in for_each (f' (pvt_prv pvt)) (sys_cpus sys0) ;;; k')
    (fun e => (forall t, t ∈ sys_threads sys0 -> Q t e) /\ (forall c, c ∈ sys_cpus sys0 -> Q' c e)).
Proof.
  intros Ho Ho' Hoo Hf HQ Hf' HQ' Hk Hk'.
  apply (uses_read wired (fun _ => True)); [intros e p e' He E; by rewrite (quiet_Ok _ _ _ _ (quiet_find_pvt _) E)|]. intros p _.
  assert (forall a b m, array_muxes (o a) m -> array_muxes (o' b) m -> False) as Hd.
  { intros a b m H1 H2. by apply (Hoo a b), (array_muxes_inj _ _ m). }
  refine (uses_seq wired (fun m => exists t, t ∈ sys_threads sys0 /\ array_muxes (o t) m) _ _ _ _ _ _ _ _ _ _ _ _ _).
  - apply connects_loop; [done|done|apply Hf|done].
  - intros _. eapply uses_mono; [apply (uses_seq wired nothing nothing nothing always)|..].
    + exact Hk.
    + intros _. apply (uses_read wired (fun _ => True)); [intros e p' e' He E; by rewrite (quiet_Ok _ _ _ _ (quiet_find_pvt _) E)|]. intros p' _.
      apply connects_inert; [|by intros _|by apply loop_local]. apply connects_loop; [done|done|apply Hf'|done].
    + by intros m _ [].
    + done.
    + by intros m [].
    + intros m [[]|H]; exact H.
    + intros m [[]|H]; exact H.
    + by intros e _ [_ H].
  - intros m (c & _ & Hc) (t & _ & Ht). by eapply Hd.
  - by apply loop_local.
  - intros m (t & _ & Ht) (c & _ & Hc). by eapply Hd.
Qed.

Definition marks_tracked (e : emu) : Prop := mark_ntypes mk0 <> 0 ->
  (forall t, t ∈ sys_threads sys0 -> mark_thread_tracked t e) /\ (forall c, c ∈ sys_cpus sys0 -> mark_cpu_tracked c e).

Lemma mark_thread_local t : local wired (array_muxes (AMarkThread t)) (mark_thread_tracked t).
Proof.
  intros e e' He' Hs (n & Hx & H). exists n. split; [done|].
  assert (local wired (array_muxes (AMarkThread t)) (fun e => forall ty, ty ∈ mark_types mk0 ->
    exists tk, track_at x0 n (Z.to_nat (mk_index ty)) = Some tk /\ thread_tracked t (mark_chan t (mk_index ty)) tk (heap_of e))) as L.
  { apply (tracks_local _ n _ (fun ty => Z.to_nat (mk_index ty)) (fun ty tk => thread_tracked t (mark_chan t (mk_index ty)) tk));
      [by apply (xw_mark_th _ _ _ HX)|]. intros. by eapply thread_tracked_same. }
  by apply (L e e' He' Hs).
Qed.

Lemma mark_cpu_local c : local wired (array_muxes (AMarkCpu c)) (mark_cpu_tracked c).
Proof.
  intros e e' He' Hs (n & Hx & H). exists n. split; [done|].
  assert (local wired (array_muxes (AMarkCpu c)) (fun e => forall ty, ty ∈ mark_types mk0 ->
    exists tk, track_at x0 n (Z.to_nat (mk_index ty)) = Some tk /\ cpu_tracked c (fun t => mark_chan t (mk_index ty)) tk (heap_of e))) as L.
  { apply (tracks_local _ n _ (fun ty => Z.to_nat (mk_index ty)) (fun ty tk => cpu_tracked c (fun t => mark_chan t (mk_index ty)) tk));
      [by apply (xw_mark_cpu _ _ _ HX)|]. intros. by eapply cpu_tracked_same. }
  by apply (L e e' He' Hs).
Qed.

Lemma inert_mark_pcf name : inert (mark_init_pcf name).
Proof.
  apply inert_bind; [apply inert_quiet; unfold get_marks, get_heap; quiet_tac|]. intros m. apply inert_pcf.
Qed.

Lemma connects_marks :
  connects (object_muxes AMarkThread AMarkCpu) (object_muxes AMarkThread AMarkCpu) mark_connect marks_tracked.
Proof.
  apply (uses_read wired (fun m => m = mk0)); [apply read_marks|]. intros ? ->.
  destruct (Z.eqb_spec (mark_ntypes mk0) 0) as [E0|E0].
  { eapply uses_mono; [apply uses_ret|by intros ? []|by intros ? []|]. intros e _ _ ?. done. }
  apply (uses_read wired (fun sys => sys = sys0)); [intros e s e' He E; by apply (read_sys x0 sys0 ths0 cs0 mk0)|]. intros ? ->.
  eapply uses_mono; [apply (connects_both AMarkThread AMarkCpu mark_thread_tracked mark_cpu_tracked)|done|done|by intros e _ H _].
  - by intros ? ? [=].
  - by intros ? ? [=].
  - done.
  - apply connects_thread_marks.
  - apply mark_thread_local.
  - apply connects_cpu_marks.
  - apply mark_cpu_local.
  - apply inert_mark_pcf.
  - apply inert_mark_pcf.
Qed.

(** *** Hardware counters *)

Lemma read_hwc e ids e' : hwc_range e = (Ok ids, e') -> e' = e /\ NoDup ids.
Proof. intros [= <- <-]. split; [done|apply NoDup_seq]. Qed.

Lemma local_always {S' R'} `{Resources S' R'} (Inv : S' -> Prop) (T : R' -> Prop) : local Inv T always.
Proof. done. Qed.

Lemma connects_thread_hwc p t :
  connects (array_muxes (AHwcThread t)) (array_muxes (AHwcThread t)) (connect_thread_hwc p t) always.
Proof.
  apply (uses_read wired (fun ids => NoDup ids)); [intros e ids e' _; apply read_hwc|]. intros ids Hids.
  apply (uses_read wired (fun n => x_hwc_th x0 !! t = Some n)).
  { intros e n e' He E. apply (read_array (fun x => x_hwc_th x !! _)) in E as [-> E]; [|done]. split; [done|].
    by rewrite (se_hwc_th _ _ (we_ext _ _ _ _ _ _ He)) in E. }
  intros n Hx. apply (uses_read wired (fun _ => True)); [intros e th e' He E; by rewrite (quiet_Ok _ _ _ _ (quiet_load_thread_e t) E)|].
  intros th _. eapply uses_mono.
  - apply (connects_tracks n (AHwcThread t) (fun i => i) (fun i tk => thread_tracked t (hwc_chan t i) tk));
      [by apply (xw_hwc_th _ _ _ HX)|by rewrite list_fmap_id|intros; by eapply thread_tracked_same|].
    intros i _. apply connects_inert.
    + by apply (connects_one n _ t (hwc_chan t i)).
    + intros _. apply inert_connect_row.
    + apply tracked_local. intros. by eapply thread_tracked_same.
  - done.
  - done.
  - done.
Qed.

Lemma connects_cpu_hwc p c :
  connects (array_muxes (AHwcCpu c)) (array_muxes (AHwcCpu c)) (connect_cpu_hwc p c) always.
Proof.
  apply (uses_read wired (fun ids => NoDup ids)); [intros e ids e' _; apply read_hwc|]. intros ids Hids.
  apply (uses_read wired (fun n => x_hwc_cpu x0 !! c = Some n)).
  { intros e n e' He E. apply (read_array (fun x => x_hwc_cpu x !! _)) in E as [-> E]; [|done]. split; [done|].
    by rewrite (se_hwc_cpu _ _ (we_ext _ _ _ _ _ _ He)) in E. }
  intros n Hx. apply (uses_read wired (fun _ => True)); [intros e th e' He E; by rewrite (quiet_Ok _ _ _ _ (quiet_load_cpu_e c) E)|].
  intros cp _. eapply uses_mono.
  - apply (connects_tracks n (AHwcCpu c) (fun i => i) (fun i tk => cpu_tracked c (fun t => hwc_chan t i) tk));
      [by apply (xw_hwc_cpu _ _ _ HX)|by rewrite list_fmap_id|intros; by eapply cpu_tracked_same|].
    intros i _. apply connects_inert.
    + by apply (connects_cpu_track x0 sys0 ths0 cs0 mk0 O A HX).
    + intros _. apply inert_connect_row.
    + apply tracked_local. intros. by eapply cpu_tracked_same.
  - done.
  - done.
  - done.
Qed.

Lemma inert_hwc_pcf name : inert (hwc_init_pcf name).
Proof. unfold hwc_init_pcf, hwc_range, get_hwc, get_heap. inert_tac. Qed.

Lemma connects_hwc : connects (object_muxes AHwcThread AHwcCpu) (object_muxes AHwcThread AHwcCpu) hwc_connect always.
Proof.
  apply (uses_read wired (fun _ => True)); [by intros e h e' He [= <- <-]|]. intros hw _. apply uses_if.
  { eapply uses_mono; [apply uses_ret|by intros ? []|by intros ? []|done]. }
  apply (uses_read wired (fun sys => sys = sys0)); [intros e s e' He E; by apply (read_sys x0 sys0 ths0 cs0 mk0)|]. intros ? ->.
  eapply uses_mono; [apply (connects_both AHwcThread AHwcCpu (fun _ => always) (fun _ => always))|done|done|done].
  - by intros ? ? [=].
  - by intros ? ? [=].
  - done.
  - apply connects_thread_hwc.
  - done.
  - apply connects_cpu_hwc.
  - done.
  - apply inert_hwc_pcf.
  - apply inert_hwc_pcf.
Qed.

(** ** Breakdowns *)

Lemma read_bd_cpu m c e b e' : wired e -> bd_cpu m c e = (Ok b, e') -> e' = e /\ x_bd_cpu x0 !! (ch m, c) = Some b.
Proof.
  intros He E. apply (read_array (fun x => x_bd_cpu x !! _)) in E as [-> E]; [|done]. split; [done|].
  by rewrite (se_bd_cpu _ _ (we_ext _ _ _ _ _ _ He)) in E.
Qed.

Lemma read_cpu_chan m c i e a e' : wired e -> cpu_track_chan m c i e = (Ok a, e') -> e' = e /\ ~ written a.
Proof.
  intros He E. unfold cpu_track_chan in E. apply mbind_Ok in E as (n & e1 & E1 & E).
  pose proof (quiet_Ok _ _ _ _ (quiet_cpu_tracks m c) E1) as ->. apply mbind_Ok in E as (tk & e1 & E2 & E). injection E as <- <-.
  destruct (read_track x0 sys0 ths0 cs0 mk0 n i e tk e1 He E2) as [-> (tk0 & Ht & [= _ -> _])]. split; [done|].
  destruct (xw_track _ _ _ HX _ _ _ Ht) as [-> _]. by intros (? & ? & [=]).
Qed.

Lemma connects_bd_cpu sp c : ch (bs_model sp) <> ch "P" ->
  connects (bd_muxes (ch (bs_model sp), c)) (bd_muxes (ch (bs_model sp), c)) (connect_bd_cpu sp c) always.
Proof.
  intros Hz. apply (uses_read wired (fun b => x_bd_cpu x0 !! (ch (bs_model sp), c) = Some b)); [by intros; eapply read_bd_cpu|]. intros b Hb.
  destruct (xw_bd _ _ _ HX _ _ Hb) as (O0 & O1 & _ & [(? & _)|(_ & Hne & _)]); [done|].
  assert (slot x0 (bc_mux0 b) (bc_tr b) /\ slot x0 (bc_mux1 b) (bc_tri b)) as [S0 S1] by (split; right; eauto 10).
  do 3 (apply (uses_read wired (fun a => ~ written a)); [by intros; eapply read_cpu_chan|]; intros ? ?).
  apply (uses_first wired (fun m => m = bc_mux0 b) (fun m => m = bc_mux0 b) (fun m => m = bc_mux1 b));
    [by apply (connects_mux_init x0 sys0 ths0 cs0 mk0 O A HX)|intros _|by intros m ->..|intros m -> E; by apply Hne].
  do 3 (apply (uses_first wired nothing (fun m => m = bc_mux0 b) (fun m => m = bc_mux1 b));
    [first [by apply connects_set_input | by apply connects_default]|intros _|by intros m []|done|by intros m ->|intros m -> E; by apply Hne]).
  apply (uses_first wired (fun m => m = bc_mux1 b) (fun m => m = bc_mux1 b) nothing);
    [by apply (connects_mux_init x0 sys0 ths0 cs0 mk0 O A HX)|intros _|done|by intros m []|by intros m ->|by intros m []].
  apply uses_then; [by apply connects_set_input|intros _; by apply connects_set_input].
Qed.

Lemma connects_bd_cpu_one sp c : ch (bs_model sp) = ch "P" ->
  connects (bd_muxes (ch (bs_model sp), c)) (bd_muxes (ch (bs_model sp), c)) (connect_bd_cpu_one sp c) always.
Proof.
  intros Hz. apply (uses_read wired (fun b => x_bd_cpu x0 !! (ch (bs_model sp), c) = Some b)); [by intros; eapply read_bd_cpu|]. intros b Hb.
  destruct (xw_bd _ _ _ HX _ _ Hb) as (O0 & O1 & _ & [(_ & Em & _)|(? & _)]); [|done].
  assert (slot x0 (bc_mux0 b) (bc_tri b)) as S0 by (rewrite <- Em; right; eauto 10).
  do 2 (apply (uses_read wired (fun a => ~ written a)); [by intros; eapply read_cpu_chan|]; intros ? ?).
  apply (uses_first wired (fun m => m = bc_mux0 b) (fun m => m = bc_mux0 b) nothing);
    [by apply (connects_mux_init x0 sys0 ths0 cs0 mk0 O A HX)|intros _|by intros m ->|by intros m []|by intros m ->|by intros m []].
  apply uses_then; [by apply connects_set_input|intros _; by apply connects_set_input].
Qed.

Lemma physical_cpus_Ok l e l' e' : physical_cpus l e = (Ok l', e') -> e' = e /\ l' `sublist_of` l.
Proof.
  revert l' e'. induction l as [|c l IH]; intros l' e' E; simpl in E; [injection E as <- <-; by split|].
  apply mbind_Ok in E as (cp & e1 & E1 & E). pose proof (quiet_Ok _ _ _ _ (quiet_load_cpu_e c) E1) as ->.
  apply mbind_Ok in E as (k & e1 & E2 & E). destruct (IH _ _ E2) as [-> Hk]. injection E as <- <-. split; [done|].
  destruct (cpu_is_virtual cp); [by apply sublist_cons|by apply sublist_skip].
Qed.

Definition breakdown_muxes (z : Z) : nat -> Prop := fun m => exists c, bd_muxes (z, c) m.

Lemma connects_rows sp connect_cpu :
  (forall c, connects (bd_muxes (ch (bs_model sp), c)) (bd_muxes (ch (bs_model sp), c)) (connect_cpu c) always) ->
  connects (breakdown_muxes (ch (bs_model sp))) (breakdown_muxes (ch (bs_model sp))) (breakdown_rows sp connect_cpu) always.
Proof.
  intros Hc. apply (uses_read wired (fun sys => sys = sys0)); [intros e s e' He E; by apply (read_sys x0 sys0 ths0 cs0 mk0)|]. intros ? ->.
  apply (uses_read wired (fun l => NoDup l)).
  { intros e l e' _ [-> Hs]%physical_cpus_Ok. split; [done|]. exact (sublist_NoDup _ _ cpus_nodup Hs). }
  intros l Hl. assert ((imap pair l).*2 = l) as E2.
  { rewrite fmap_imap. apply list_eq. intros i. rewrite list_lookup_imap. by destruct (l !! i). }
  eapply uses_mono.
  - apply (uses_for_each wired (fun ic => bd_muxes (ch (bs_model sp), ic.2)) (fun ic => bd_muxes (ch (bs_model sp), ic.2)) (fun _ => always)).
    + eapply (NoDup_fmap_1 snd). by rewrite E2.
    + intros ic _. unfold connect_bd_row. apply uses_then; [apply Hc|]. intros _. apply inert_uses. unfold get_bd, bd_cpu, get_ext. inert_tac.
    + done.
    + intros a b m Ha Hb H1 H2. unfold bd_muxes in *. apply (nodup_fmap_inj snd (imap pair l)); [by rewrite E2|done|done|]. congruence.
    + done.
  - intros m (ic & _ & Hm). by exists ic.2.
  - intros m (ic & _ & Hm). by exists ic.2.
  - done.
Qed.

Lemma connects_nothing {B} N T (b : B) : connects N T (mret b) always.
Proof. eapply uses_mono; [apply uses_ret|by intros ? []|by intros ? []|done]. Qed.

(** *** The default state of threads and CPUs *)

Lemma connects_idle m i a b : connects nothing (cpu_muxes (ch m)) (set_idle m i a b) always.
Proof.
  apply (uses_read wired (fun sys => sys = sys0)); [intros e s e' He E; by apply (read_sys x0 sys0 ths0 cs0 mk0)|]. intros ? ->.
  apply uses_then.
  - apply inert_uses, inert_for_each. intros t. apply (connects_write x0 sys0 ths0 cs0 mk0 (OpSet _)). by eexists _, _.
  - intros _. eapply uses_mono.
    + apply (uses_for_each wired (fun _ => nothing) (fun c => array_muxes (ACpu (ch m) c)) (fun _ => always)); [done| |by intros ? ? []| |done].
      * intros c _. apply (uses_read wired (fun n => x_cpu x0 !! (ch m, c) = Some n)).
        { intros e n e' He E. apply (read_array (fun x => x_cpu x !! _)) in E as [-> E]; [|done]. split; [done|].
          by rewrite (se_cpu _ _ (we_ext _ _ _ _ _ _ He)) in E. }
        intros n Hx. apply (uses_read wired (fun tk => array_muxes (ACpu (ch m) c) (tk_mux tk))).
        { intros e tk e' He E. destruct (read_track x0 sys0 ths0 cs0 mk0 n i e tk e' He E) as [-> (tk0 & Ht & [= _ _ ->])]. split; [done|].
          eapply in_array; [by apply (xw_cpu _ _ _ HX)|]. by apply (xw_track _ _ _ HX _ _ _ Ht). }
        intros tk Htk. by apply connects_default.
      * intros c c' k _ _ H1 H2. by injection (array_muxes_inj _ _ _ H1 H2).
    + by intros k (c & _ & []).
    + done.
    + done.
Qed.

Lemma cpu_tracked_default c inp tk m v h : cpu_tracked c inp tk h -> cpu_tracked c inp tk (mux_set_default m v h).2.
Proof.
  intros (mx & Hm & [H1 H2 H3 H4] & H5 & H6). simpl. destruct (decide (tk_mux tk = m)) as [<-|Hne].
  - eexists. simpl. rewrite lookup_alter_eq, Hm. split; [reflexivity|]. split; [by split|by split].
  - exists mx. simpl. rewrite lookup_alter_ne by done. by split_and!.
Qed.

(** CPUs are still tracked when their default is set. *)
Lemma idle_cpu_tracked m i a b sp c e e' : wired e -> model_cpu_tracked sp c e -> set_idle m i a b e = (Ok tt, e') -> model_cpu_tracked sp c e'.
Proof.
  intros He (n & Hx & HQ) E. exists n. split; [done|]. intros j Hj. destruct (HQ j Hj) as (tk & Ht & Hc). exists tk. split; [done|].
  set (P := fun e => wired e /\ cpu_tracked c (fun t => model_chan (spec_model sp) t j) tk (heap_of e)).
  enough (P e') as [_ ?] by done. assert (P e) as HP by done. clear HQ Hc He.
  assert (forall op : M emu unit, inert op -> keeps_ok P op) as Hin.
  { intros op Ho s u s' [Hs Hp] Eo. destruct (Ho s u s' Hs ltac:(done) Eo) as (? & Hsame & _). split; [done|].
    eapply cpu_tracked_same; [|exact Hp]. apply (Hsame (tk_mux tk)). by intros []. }
  unfold set_idle in E. apply mbind_Ok in E as (sys & e1 & E1 & E). rewrite (quiet_Ok _ _ _ _ quiet_get_sys E1) in E.
  apply mbind_Ok in E as ([] & e2 & E2 & E). assert (P e2) as HP2.
  { revert E2. apply Hin; [|done]. apply inert_for_each. intros t. apply (connects_write x0 sys0 ths0 cs0 mk0 (OpSet _)). by eexists _, _. }
  clear HP E2. revert E. apply (for_each_keeps_ok P); [|done]. clear. intros k s u s' HP E.
  apply mbind_Ok in E as (n & s1 & E1 & E). rewrite (quiet_Ok _ _ _ _ (quiet_cpu_tracks m k) E1) in E.
  apply mbind_Ok in E as (tk' & s2 & E2 & E). rewrite (quiet_Ok _ _ _ _ (quiet_load_track n i) E2) in E.
  destruct HP as [Hs Hp]. split.
  - eapply (connects_default x0 sys0 ths0 cs0 mk0 (tk_mux tk') _ (fun m => m = tk_mux tk')); [done|exact Hs|by intros ? []|exact E].
  - apply on_heap_Ok in E as (E & _). pose proof (cpu_tracked_default c _ tk (tk_mux tk') (value_int64 b) _ Hp) as Hd.
    by rewrite E in Hd.
Qed.
(** ** Models *)

(** The multiplexers of a model. *)
Definition model_muxes (z : Z) : nat -> Prop := fun m =>
  (thread_muxes z m \/ cpu_muxes z m) \/ breakdown_muxes z m \/
  (z = ch "O" /\ object_muxes AMarkThread AMarkCpu m) \/ (z = ch "V" /\ object_muxes AHwcThread AHwcCpu m).

Lemma bd_not_array z o m : breakdown_muxes z m -> array_muxes o m -> False.
Proof. intros (c & Hc) (n & i & Hm & _). unfold bd_muxes in Hc. congruence. Qed.

Ltac owners := repeat match goal with
  | H : thread_muxes _ _ |- _ => destruct H as (? & _ & H)
  | H : cpu_muxes _ _ |- _ => destruct H as (? & _ & H)
  | H : object_muxes _ _ _ |- _ => destruct H as [(? & _ & H)|(? & _ & H)]
  | H : _ \/ _ |- _ => destruct H as [H|H]
  | H : _ /\ _ |- _ => destruct H as [_ H]
  | H1 : array_muxes ?o _, H2 : array_muxes ?o' _ |- _ =>
      lazymatch goal with E : o = o' |- _ => fail | _ => pose proof (array_muxes_inj _ _ _ H1 H2) end
  | H1 : breakdown_muxes _ _, H2 : array_muxes _ _ |- _ => destruct (bd_not_array _ _ _ H1 H2)
  end; try discriminate.

Lemma model_muxes_inj z z' m : model_muxes z m -> model_muxes z' m -> z = z'.
Proof.
  intros H H'. destruct H as [[H|H]|[H|[[Ez H]|[Ez H]]]], H' as [[H'|H']|[H'|[[Ez' H']|[Ez' H']]]]; try congruence; try (owners; fail).
  - owners. by injection H0.
  - owners. by injection H0.
  - destruct H as (c & H), H' as (c' & H'). unfold bd_muxes in *. congruence.
Qed.

(** What the connection of the model of character [z] leaves. *)
Definition model_tracked (z : Z) (e : emu) : Prop :=
  (forall th cpu, (z, th, cpu) ∈ chan_specs -> channels_tracked th cpu e) /\ (z = ch "O" -> marks_tracked e).

Lemma channels_local th cpu z : ch (spec_model th) = z -> ch (spec_model cpu) = z ->
  local wired (fun m => thread_muxes z m \/ cpu_muxes z m) (channels_tracked th cpu).
Proof.
  intros <- Hc e e' He' Hs [H1 H2]. split.
  - intros t Ht. apply (model_thread_local th t e e' He'); [|by apply H1]. intros m Hm. apply Hs. left. by exists t.
  - intros c Hcs. apply (model_cpu_local cpu c e e' He'); [|by apply H2]. intros m Hm. apply Hs. right. exists c. by rewrite <- Hc.
Qed.

Lemma marks_local : local wired (object_muxes AMarkThread AMarkCpu) marks_tracked.
Proof.
  intros e e' He' Hs H Hne. destruct (H Hne) as [H1 H2]. split.
  - intros t Ht. apply (mark_thread_local t e e' He'); [|by apply H1]. intros m Hm. apply Hs. left. by exists t.
  - intros c Hc. apply (mark_cpu_local c e e' He'); [|by apply H2]. intros m Hm. apply Hs. right. by exists c.
Qed.

Lemma model_tracked_local z : local wired (model_muxes z) (model_tracked z).
Proof.
  intros e e' He' Hs [H1 H2]. split.
  - intros th cpu Hin. destruct (chan_specs_model _ _ _ Hin) as [E1 E2].
    apply (channels_local th cpu z E1 E2 e e' He'); [|by apply H1]. intros m Hm. apply Hs. by left.
  - intros E. apply (marks_local e e' He'); [|by apply H2]. intros m Hm. apply Hs. right. right. by left.
Qed.

Lemma tracked_of_channels z th cpu e : (z, th, cpu) ∈ chan_specs -> channels_tracked th cpu e -> (z = ch "O" -> marks_tracked e) -> model_tracked z e.
Proof.
  intros Hin Hc Hm. split; [|done]. intros th' cpu' Hin'. by destruct (chan_specs_unique _ _ _ _ _ Hin Hin') as [<- <-].
Qed.

Lemma connects_simple z th cpu : (z, th, cpu) ∈ chan_specs -> z <> ch "O" ->
  connects (model_muxes z) (model_muxes z) (channels_connect th cpu) (model_tracked z).
Proof.
  intros Hin Hz. destruct (chan_specs_model _ _ _ Hin) as [E1 E2].
  eapply uses_mono; [by apply (connects_channels th cpu z)|by intros m H; left|by intros m H; left|].
  intros e _ H. by eapply tracked_of_channels.
Qed.

Lemma connects_ovni : connects (model_muxes (ch "O")) (model_muxes (ch "O")) model_ovni_connect (model_tracked (ch "O")).
Proof.
  eapply uses_mono.
  - refine (uses_seq wired (fun m => thread_muxes (ch "O") m \/ cpu_muxes (ch "O") m) _ _ _ _ _ _ _ _ _ _ _ _ _).
    + by apply (connects_channels ovni_th_spec ovni_cpu_spec (ch "O")).
    + intros _. apply connects_marks.
    + intros m H H'. owners.
    + by apply channels_local.
    + intros m H H'. owners.
  - intros m [H|H]; [by left|right; right; by left].
  - intros m [H|H]; [by left|right; right; by left].
  - intros e _ [H1 H2]. eapply tracked_of_channels; [spec_tac|done|done].
Qed.

(** nOS-V and Nanos6: what is connected after the channels, and the idle state. *)
Lemma connects_idling m i a b th cpu (more : M emu unit) N : (ch m, th, cpu) ∈ chan_specs -> ch m <> ch "O" ->
  connects N N more always -> (forall k, N k -> breakdown_muxes (ch m) k \/ (ch m = ch "V" /\ object_muxes AHwcThread AHwcCpu k)) ->
  connects (model_muxes (ch m)) (model_muxes (ch m)) ((channels_connect th cpu ;;; more) ;;; set_idle m i a b) (model_tracked (ch m)).
Proof.
  intros Hin Hz Hm HN. destruct (chan_specs_model _ _ _ Hin) as [E1 E2].
  eapply uses_mono; [|done|done|intros e _ H; by eapply tracked_of_channels].
  eapply uses_mono.
  - apply (uses_kept wired (model_muxes (ch m)) (model_muxes (ch m)) (channels_tracked th cpu)).
    + eapply uses_mono.
      * refine (uses_seq wired (fun k => thread_muxes (ch m) k \/ cpu_muxes (ch m) k) _ _ _ _ _ _ _ _ _ _ _ _ _).
        -- by apply (connects_channels th cpu (ch m)).
        -- intros _. exact Hm.
        -- intros k H H'. apply HN in H. owners.
        -- by apply channels_local.
        -- intros k H H'. apply HN in H'. owners.
      * intros k [H|H]; [by left|right]. destruct (HN k H) as [?|?]; [by left|by right; right].
      * intros k [H|H]; [by left|right]. destruct (HN k H) as [?|?]; [by left|by right; right].
      * by intros e _ [H _].
    + intros _. eapply uses_mono; [apply connects_idle|done|by intros k H; left; right|done].
    + intros _ e [] e' He [Q1 Q2] E. destruct (connects_idle m i a b e tt e' He ltac:(by intros ? []) E) as (He' & Hs & _). split.
      * intros t Ht. apply (model_thread_local th t e e' He'); [|by apply Q1]. intros k Hk. apply Hs. intros H. rewrite E1 in Hk. owners.
      * intros c Hc. eapply idle_cpu_tracked; [exact He|by apply Q2|exact E].
  - done.
  - done.
  - done.
Qed.

Lemma bind_group {S'} (m1 m2 m3 : M S' unit) s : ((m1 ;;; m2) ;;; m3) s = (m1 ;;; m2 ;;; m3) s.
Proof. unfold mbind. by destruct (m1 s) as [[]]. Qed.
Lemma bind_group4 {S'} (m1 m2 m3 m4 : M S' unit) s : ((m1 ;;; m2 ;;; m3) ;;; m4) s = (m1 ;;; m2 ;;; m3 ;;; m4) s.
Proof. unfold mbind. destruct (m1 s) as [[] s1]; try done. by destruct (m2 s1) as [[]]. Qed.

Lemma connects_nanos6_bd : connects (breakdown_muxes (ch "6")) (breakdown_muxes (ch "6")) (breakdown_connect nanos6_bd (connect_bd_cpu nanos6_bd)) always.
Proof.
  apply (uses_read wired (fun _ => True)); [by intros e x e' He [= <- <-]|]. intros e _. destruct (negb _); [apply connects_nothing|].
  apply (connects_rows nanos6_bd). intros c. by apply (connects_bd_cpu nanos6_bd).
Qed.

Lemma connects_nanos6 : connects (model_muxes (ch "6")) (model_muxes (ch "6")) model_nanos6_connect (model_tracked (ch "6")).
Proof.
  eapply uses_ext; [apply bind_group|]. eapply connects_idling; [spec_tac|done|apply connects_nanos6_bd|]. by left.
Qed.

Lemma connects_nosv_bd : connects (breakdown_muxes (ch "V")) (breakdown_muxes (ch "V")) (nosv_breakdown_connect nosv_bd) always.
Proof.
  apply (uses_read wired (fun _ => True)); [by intros e x e' He [= <- <-]|]. intros e _. destruct (negb _); [apply connects_nothing|].
  apply (uses_read wired (fun _ => True)); [intros e1 bd e' He E; split; [|done]; by eapply read_array in E as [-> _]|]. intros bd _.
  destruct (negb _); [apply connects_nothing|].
  apply (connects_rows nosv_bd). intros c. by apply (connects_bd_cpu nosv_bd).
Qed.

Lemma connects_nosv : connects (model_muxes (ch "V")) (model_muxes (ch "V")) model_nosv_connect (model_tracked (ch "V")).
Proof.
  eapply uses_ext; [apply bind_group4|].
  apply (connects_idling "V" _ _ _ _ _ _ (fun m => breakdown_muxes (ch "V") m \/ object_muxes AHwcThread AHwcCpu m)); [spec_tac|done| |].
  - eapply uses_first; [apply connects_nosv_bd|intros _| | | |].
    + eapply uses_mono; [apply connects_hwc|intros m H; exact H|intros m H; right; exact H|done].
    + by left.
    + by right.
    + by left.
    + intros m H H'. owners.
  - intros m [H|H]; [by left|by right].
Qed.

Lemma connects_openmp : connects (model_muxes (ch "P")) (model_muxes (ch "P")) model_openmp_connect (model_tracked (ch "P")).
Proof.
  eapply uses_mono.
  - refine (uses_seq wired (fun m => thread_muxes (ch "P") m \/ cpu_muxes (ch "P") m) _ _ _ (breakdown_muxes (ch "P")) (breakdown_muxes (ch "P")) always _ _ _ _ _ _ _).
    + by apply (connects_channels openmp_th_spec openmp_cpu_spec (ch "P")).
    + intros _. apply (uses_read wired (fun _ => True)); [by intros e x e' He [= <- <-]|]. intros e _. destruct (negb _); [apply connects_nothing|].
      apply (connects_rows openmp_bd). intros c. by apply (connects_bd_cpu_one openmp_bd).
    + intros m H H'. owners.
    + by apply channels_local.
    + intros m H H'. owners.
  - intros m [H|H]; [by left|right; by left].
  - intros m [H|H]; [by left|right; by left].
  - intros e _ [H1 _]. eapply tracked_of_channels; [spec_tac|done|done].
Qed.

(** The model of the FPGA is not connected with the others: it owns no
    multiplexer. *)
Lemma tracked_xtasks e : model_tracked (ch "X") e.
Proof.
  split; [|by intros [=]]. unfold chan_specs. intros th cpu. rewrite !elem_of_cons, elem_of_nil.
  intros H. by repeat destruct H as [[=]|H].
Qed.

(** Every model of the list connects its own multiplexers. *)
Lemma models_connect spec : spec ∈ models ->
  match ms_connect spec with
  | Some con => connects (model_muxes (ms_model spec)) (model_muxes (ms_model spec)) con (model_tracked (ms_model spec))
  | None => forall e, model_tracked (ms_model spec) e
  end.
Proof.
  unfold models. rewrite !elem_of_cons, elem_of_nil. intros H.
  repeat destruct H as [->|H]; [..|done]; cbv iota beta.
  - apply connects_ovni.
  - apply connects_nanos6.
  - apply connects_nosv.
  - apply connects_simple; [spec_tac|done].
  - apply connects_simple; [spec_tac|done].
  - apply connects_simple; [spec_tac|done].
  - apply connects_simple; [spec_tac|done].
  - apply connects_openmp.
  - cbv [ms_connect model_xtasks]. apply tracked_xtasks.
Qed.

(** The table of models has the connection of the models of the list. *)
Definition known (md : model emu) : Prop := forall i spec, md_spec md !! i = Some spec ->
  exists s, s ∈ models /\ ms_model s = i /\ ms_create spec = ms_create s /\ ms_connect spec = ms_connect s.

Lemma connects_models md l : known md -> NoDup l ->
  connects (fun m => exists i, i ∈ l /\ i ∈ md_enabled md /\ model_muxes i m) (fun m => exists i, i ∈ l /\ i ∈ md_enabled md /\ model_muxes i m)
    (hook_loop ms_connect md l) (fun e => forall i, i ∈ l -> i ∈ md_enabled md -> model_tracked i e).
Proof.
  intros HK. induction l as [|i l IH]; intros Hl; simpl.
  { eapply uses_mono; [apply uses_ret|by intros ? []|by intros ? []|]. intros e _ _ i Hi. by apply elem_of_nil in Hi. }
  apply list.NoDup_cons in Hl as [Hi Hl]. case_bool_decide as Hen.
  { eapply uses_mono; [by apply IH|..].
    - intros m (j & ? & ?). exists j. split; [by right|done].
    - intros m (j & ? & ?). exists j. split; [by right|done].
    - intros e _ H j [->|Hj]%elem_of_cons He; [done|by apply H]. }
  apply (uses_read wired (fun spec => md_spec md !! i = Some spec)).
  { intros e spec e' _ [Hs ->]%deref_Ok. by split. }
  intros spec Hs. destruct (HK i spec Hs) as (s & Hin & <- & _ & ->). pose proof (models_connect s Hin) as Hcon.
  destruct (ms_connect s) as [con|].
  2: { eapply uses_mono; [by apply IH|..].
       - intros m (j & ? & ?). exists j. split; [by right|done].
       - intros m (j & ? & ?). exists j. split; [by right|done].
       - intros e _ H j [->|Hj]%elem_of_cons He; [apply Hcon|by apply H]. }
  eapply uses_mono.
  - refine (uses_seq wired (model_muxes (ms_model s)) _ _ _ _ _ _ _ _ Hcon (fun _ => IH Hl) _ (model_tracked_local _) _).
    + intros m (j & Hj & _ & H1) H2. apply Hi. by rewrite (model_muxes_inj _ _ _ H2 H1).
    + intros m H2 (j & Hj & _ & H1). apply Hi. by rewrite (model_muxes_inj _ _ _ H2 H1).
  - intros m [H|(j & Hj & ?)]; [exists (ms_model s)|exists j]; (split; [apply elem_of_cons; auto|done]).
  - intros m [H|(j & Hj & ?)]; [exists (ms_model s)|exists j]; (split; [apply elem_of_cons; auto|done]).
  - intros e _ [H1 H2] j [->|Hj]%elem_of_cons He; [done|by apply H2].
Qed.
End Connect.
