(* ===== verification/Creating.v ===== *)
(** * The channels of the models

    Before a model connects its channels it creates them, with the tracks of
    every thread and CPU.  Each has memory of its own: [stage] is what the
    creation keeps, on the memory of channels and on what the models hang on
    the objects of the system. *)

From Stdlib Require Import Ascii.
From S2P Require Import Prelude Footprint Chan Pcf Heap Bay Mux Sort Prv Dispatch Network Thread Loom Event OvniModel OvniCorrect.
From S2P Require Import Coherence Model Recorder System SystemCorrect ConnectCorrect Json Table Track ModelThread Mark Nosv Hwc.
From S2P Require Import Breakdown Specs Setups Effect Flow Views Wiring Connecting ModelConnect.

(** The types of marks are numbered in the order of their creation. *)
Definition mark_ok (m : ovni_mark_emu) : Prop := map mk_index (mark_types m) = map Z.of_nat (seq 0 (length (mark_types m))) /\
  mark_ntypes m = Z.of_nat (length (mark_types m)) /\ NoDup (map mk_type (mark_types m)).

(** Which memory is in use: arrays, multiplexers and sorters. *)
Definition bounded (na nm : nat) (h : heap) (a : addr) : Prop :=
  match a_own a with
  | OwnTrack n => (n < na)%nat
  | OwnOther m => (m < nm)%nat
  | OwnSort s => is_Some (h_sort h !! s)
  | _ => True
  end.

Section Stage.
Variables (ths : gmap nat thread) (cpus : gmap nat cpu).

(** [P]: the channels that are not registered yet. *)
Record stage (na nm : nat) (P : addr -> Prop) (h : heap) : Prop := {
  sg_bay : bay_inv h;
  sg_ready : b_state (h_bay h) = BAY_READY;
  sg_wired : wired h;
  sg_cb : forall id cb, h_cb h !! id = Some cb -> exists p k, cb_func cb = FnPrv p k /\ cb_type cb = BAY_CB_EMIT;
  sg_reg : forall a c, h_chan h !! a = Some c -> P a \/ c_dirty_arg c = Some (c_name c);
  sg_plain : forall a c, h_chan h !! a = Some c -> scratch a -> c_true (c_ignore_dup c) = false;
  sg_bound : forall a c, h_chan h !! a = Some c -> bounded na nm h a;
  sg_sort : forall s, is_Some (h_sort h !! s) -> (s < size (h_sort h))%nat;
  sg_threads : h_thread h = ths;
  sg_cpus : h_cpu h = cpus;
  sg_marks : mark_ok (h_mark h);
  sg_clean : forall a c, h_chan h !! a = Some c -> c_is_dirty c = false
}.

(** A channel that was just made. *)
Record new_chan (c : chan) : Prop := {
  nc_blank : blank_chan c;
  nc_arg : c_dirty_arg c = None;
  nc_dirty : c_is_dirty c = false;
  nc_plain : c_true (c_ignore_dup c) = false
}.

Lemma bay_inv_new a c h : bay_inv h -> h_chan h !! a = None -> c_dirty_arg c = None -> bay_inv (set_h_chan <[a := c]> h).
Proof.
  intros HI Ha Hc. assert (forall name b, find_bay_chan name h = Some b -> bc_chan b <> a) as Hne.
  { intros name b Hb E. destruct (bi_reg h HI name b Hb) as (_ & c0 & Hc0 & _). congruence. }
  split; try apply HI.
  - intros name b Hb. destruct (bi_reg h HI name b Hb) as (? & c0 & ?). split; [done|]. exists c0. simpl.
    by rewrite lookup_insert_ne by (intros Eb; by apply (Hne _ _ Hb)).
  - intros b cb name. simpl. rewrite lookup_insert. case_decide; [intros [= <-]; congruence|]. apply (bi_arg h HI).
  - intros name. etransitivity; [apply (bi_dirty h HI)|].
    split; intros (b & cb & Hb & Hcb & Hd); exists b, cb; (split; [done|]); simpl in *;
      rewrite lookup_insert_ne in * by (intros Eb; by apply (Hne _ _ Hb)); done.
Qed.

Lemma stage_store na nm P a c h : stage na nm P h -> h_chan h !! a = None -> bounded na nm h a -> new_chan c ->
  stage na nm (fun b => P b \/ b = a) (set_h_chan <[a := c]> h).
Proof.
  intros [S1 S2 S3 S4 S5 S6 S7 S8 S9 S10 S11 S12] Ha Hb [N1 N2 N3 N4].
  assert (forall b cb, h_chan (set_h_chan <[a := c]> h) !! b = Some cb -> b = a /\ cb = c \/ b <> a /\ h_chan h !! b = Some cb) as Hc.
  { intros b cb. simpl. rewrite lookup_insert. case_decide; [intros [= <-]; by left|by right]. }
  split; try done.
  - by apply bay_inv_new.
  - destruct (store_connecting h a c N1 h tt (set_h_chan <[a := c]> h)) as [? _]; [by split|reflexivity|done].
  - intros b cb [[-> ->]|[_ Hcb]]%Hc; [by left; right|]. destruct (S5 b cb Hcb); [by left; left|by right].
  - intros b cb [[-> ->]|[_ Hcb]]%Hc; [done|]. by apply S6.
  - intros b cb [[-> ->]|[_ Hcb]]%Hc; [done|]. exact (S7 b cb Hcb).
  - intros b cb [[-> ->]|[_ Hcb]]%Hc; [done|]. exact (S12 b cb Hcb).
Qed.

(** A channel that can be registered was not. *)
Lemma unregistered a c h h' : bay_inv h -> h_chan h !! a = Some c -> bay_register a h = (Ok tt, h') -> c_dirty_arg c = None.
Proof.
  intros HI Ha E. destruct (c_dirty_arg c) as [n|] eqn:Harg; [|done]. exfalso.
  destruct (bi_arg h HI a c n Ha Harg) as (b & Hb & Eb). destruct (bi_reg h HI n b Hb) as (_ & c' & Hc' & En & _).
  assert (c' = c) as -> by congruence. unfold bay_register in E. rewrite (mbind_run _ _ _ c h) in E by by apply load_Ok.
  rewrite (mbind_run _ _ _ h h) in E by done. by rewrite En, Hb in E.
Qed.

Lemma stage_register na nm P a c h h' : stage na nm P h -> h_chan h !! a = Some c ->
  bay_register a h = (Ok tt, h') -> stage na nm (fun b => P b /\ b <> a) h' /\
  h_chan h' = <[a := chan_set_dirty_cb (Some (c_name c)) c]> (h_chan h).
Proof.
  intros [S1 S2 S3 S4 S5 S6 S7 S8 S9 S10 S11 S12] Ha E. pose proof (S12 a c Ha) as Hd.
  pose proof (unregistered a c h h' S1 Ha E) as Harg.
  destruct (bay_register_inv a c h h' S1 Ha Hd Harg E) as [HB _].
  destruct (bay_register_connecting h a h tt h' (conj S3 eq_refl) E) as [HW _].
  unfold bay_register in E. rewrite (mbind_run _ _ _ c h) in E by by apply load_Ok. rewrite (mbind_run _ _ _ h h) in E by done.
  case_match; [done|]. injection E as <-. set (c' := chan_set_dirty_cb _ c) in *.
  set (h' := put_bchan _ _ _) in *.
  assert (forall b cb, h_chan h' !! b = Some cb -> b = a /\ cb = c' \/ b <> a /\ h_chan h !! b = Some cb) as Hc.
  { intros b cb. simpl. rewrite lookup_insert. case_decide; [intros [= <-]; by left|by right]. }
  split; [|done]. split; try done.
  - intros b cb [[-> ->]|[Hne Hcb]]%Hc; [by right|]. destruct (S5 b cb Hcb); [by left|by right].
  - intros b cb [[-> ->]|[_ Hcb]]%Hc; [exact (S6 a c Ha)|]. by apply S6.
  - intros b cb [[-> ->]|[_ Hcb]]%Hc; [exact (S7 _ c Ha)|]. exact (S7 b cb Hcb).
  - intros b cb [[-> ->]|[_ Hcb]]%Hc; [exact (S12 _ c Ha)|]. exact (S12 b cb Hcb).
Qed.

(** A row of a trace. *)
Lemma stage_prv_register na nm P p row ty a flags h h' : stage na nm P h -> prv_register p row ty a flags h = (Ok tt, h') ->
  stage na nm P h' /\ h_chan h' = h_chan h.
Proof.
  intros [S1 S2 S3 S4 S5 S6 S7 S8 S9 S10 S11 S12] E.
  destruct (prv_register_connecting h p row ty a flags h tt h' (conj S3 eq_refl) E) as [HW _].
  unfold prv_register in E. apply mbind_Ok in E as (pv & h1 & E1 & E). assert (h1 = h) as ->.
  { unfold load_prv in E1. by apply mbind_Ok in E1 as (? & ? & [= <- <-] & [_ ->]%deref_Ok). }
  case_match; [done|]. apply mbind_Ok in E as ([] & h1 & E2 & E). assert (h1 = h) as ->.
  { unfold check_flags in E2. repeat case_match; by injection E2. }
  apply mbind_Ok in E as (id & h1 & E3 & [= <-]).
  pose proof (bay_add_cb_world _ _ _ _ _ _ _ E3) as EW. injection EW as W1 W2 _ _ _ W6.
  destruct (bay_add_cb_inv _ _ _ _ _ _ _ S1 E3) as (HI & Ech & Em & Eso & _ & (g & nm' & [= <-] & Hf & Ecb) & _ & _ & Est).
  split; [|done]. split; simpl; rewrite ?Ech; try done; try congruence.
  - by apply (bay_inv_ext h1).
  - intros id' cb. rewrite Ecb, lookup_insert. case_decide; [intros [= <-]; by eexists _, _|]. apply S4.
  - intros b c Hc. specialize (S7 b c Hc). unfold bounded in *. simpl. by rewrite Eso.
  - intros s. rewrite Eso. apply S8.
Qed.

Lemma stage_mono na nm na' nm' P P' h : (na <= na')%nat -> (nm <= nm')%nat -> (forall a, P a -> P' a) -> stage na nm P h -> stage na' nm' P' h.
Proof.
  intros Hna Hnm HP [S1 S2 S3 S4 S5 S6 S7 S8 S9 S10 S11 S12]. split; try done.
  - intros a c Hc. destruct (S5 a c Hc); auto.
  - intros a c Hc. specialize (S7 a c Hc). unfold bounded in *. destruct (a_own a); try done; lia.
Qed.
End Stage.

(** ** The whole emulator while it is created *)

(** Channels whose memory the creation itself allocates. *)
Definition allocated (a : addr) : Prop := match a_own a with OwnTrack _ | OwnOther _ | OwnSort _ => True | _ => False end.

#[export] Program Instance chan_resources : Resources emu addr := {
  fresh a e := ~ allocated a -> h_chan (heap_of e) !! a = None;
  same a e e' := ~ allocated a -> h_chan (heap_of e) !! a = None -> h_chan (heap_of e') !! a = None
}.
Solve Obligations with (simpl; intros; auto).

Section Create.
Variables (ths : gmap nat thread) (cpus : gmap nat cpu) (sys0 : system).
Notation stage := (stage ths cpus).

Record created_at (O : nat -> option mux_owner) (A : nat -> option array_owner) (P : addr -> Prop) (e : emu) : Prop := {
  ce_ext : ext_wf O A (em_ext e);
  ce_stage : stage (length (x_arrays (em_ext e))) (x_nmux (em_ext e)) P (heap_of e);
  ce_sys : st_sys (em_sys e) = sys0
}.

Definition none : addr -> Prop := fun _ => False.
Definition created (e : emu) : Prop := exists O A, created_at O A none e.
Notation creates := (uses created).

(** An operation on the memory that leaves the channels alone. *)
Lemma created_heap {B} (op : M heap B) :
  (forall na nm h b h', stage na nm none h -> op h = (Ok b, h') -> stage na nm none h' /\ h_chan h' = h_chan h) ->
  creates nothing nothing (on_heap op) always.
Proof.
  intros Hop e b e' (O & A & [H1 H2 H3]) _ (E & Ex & Es)%on_heap_Ok. destruct (Hop _ _ _ _ _ H2 E) as [HS Ec]. split.
  - exists O, A. split; [by rewrite Ex|by rewrite Ex|by rewrite Es].
  - split; [|done]. intros a _ _ Ha. simpl. by rewrite Ec.
Qed.

(** Properties of the channels of models. *)
Definition safe_props (props : list (chan_prop * Z)) : Prop := forall p, p ∈ props -> p.1 = CHAN_ALLOW_DUP.

Lemma chan_with_new ty name props c : chan_init ty name = Ok c -> safe_props props -> new_chan (chan_with props c).
Proof.
  unfold chan_init. case_match; [done|]. intros [= <-] Hp. set (c0 := mk_chan _ _ _ _ _ _ _ _ _ _).
  assert (forall c, c_dirty_write c = 0 -> c_ignore_dup c = 0 -> forall l, (forall p, p ∈ l -> p.1 = CHAN_ALLOW_DUP) ->
    exists d, foldl (fun c p => chan_prop_set p.1 p.2 c) c l =
      mk_chan (c_is_dirty c) (c_dirty_write c) d (c_ignore_dup c) (c_dirty_arg c) (c_last_value c) (c_type c) (c_value c) (c_stack c) (c_name c)) as Hf.
  { intros c Hd Hi l. revert c Hd Hi. induction l as [|[p x] l IH]; intros c Hd Hi Hl; simpl.
    - exists (c_allow_dup c). by destruct c.
    - pose proof (Hl (p, x) (list_elem_of_here _ _)) as Ep. simpl in Ep. subst p.
      destruct (IH (chan_prop_set CHAN_ALLOW_DUP x c)) as [d Ed]; [done|done|intros q Hq; apply Hl; by apply list_elem_of_further|].
      exists d. rewrite Ed. by destruct c. }
  destruct (Hf c0 eq_refl eq_refl props Hp) as [d Ed]. unfold chan_with. rewrite Ed. split; [|done..].
  split; [split; [|by intros [? _]]|by destruct ty]. split; [done|]. intros _. by destruct ty.
Qed.

(** A new channel, not registered yet. *)
Lemma init_chan_Ok O A P a ty name props e e' : created_at O A P e -> h_chan (heap_of e) !! a = None ->
  bounded (length (x_arrays (em_ext e))) (x_nmux (em_ext e)) (heap_of e) a -> safe_props props ->
  on_heap (init_chan a ty name props) e = (Ok tt, e') ->
  created_at O A (fun b => P b \/ b = a) e' /\ em_ext e' = em_ext e /\
  exists c, new_chan c /\ h_chan (heap_of e') = <[a := c]> (h_chan (heap_of e)).
Proof.
  intros [H1 H2 H3] Ha Hb Hp (E1 & Ex1 & Es1)%on_heap_Ok.
  unfold init_chan in E1. destruct (chan_init ty name) as [c| | | |] eqn:Ec; try done. pose proof (chan_with_new _ _ _ _ Ec Hp) as Hn.
  unfold store in E1. cbn in E1. injection E1 as E1.
  pose proof (stage_store _ _ _ _ _ a (chan_with props c) _ H2 Ha Hb Hn) as HS. rewrite E1 in HS.
  split; [|split; [done|]]; [split; [by rewrite Ex1|by rewrite Ex1|congruence]|].
  exists (chan_with props c). split; [done|]. by rewrite <- E1.
Qed.

Lemma register_Ok O A P a c e e' : created_at O A P e -> h_chan (heap_of e) !! a = Some c ->
  on_heap (bay_register a) e = (Ok tt, e') ->
  created_at O A (fun b => P b /\ b <> a) e' /\ em_ext e' = em_ext e /\
  exists c', h_chan (heap_of e') = <[a := c']> (h_chan (heap_of e)).
Proof.
  intros [H1 H2 H3] Ha (E & Ex & Es)%on_heap_Ok.
  destruct (stage_register _ _ _ _ _ a _ _ _ H2 Ha E) as [HS Ech].
  split; [|split; [done|by eexists]]. split; [by rewrite Ex|by rewrite Ex|congruence].
Qed.

Lemma created_at_mono O A (P P' : addr -> Prop) e : (forall a, P a -> P' a) -> created_at O A P e -> created_at O A P' e.
Proof. intros HP [H1 H2 H3]. split; try done. by eapply stage_mono. Qed.

(** A new channel, registered at once. *)
Lemma new_chan_Ok O A a ty name props e e' : created_at O A none e -> h_chan (heap_of e) !! a = None ->
  bounded (length (x_arrays (em_ext e))) (x_nmux (em_ext e)) (heap_of e) a -> safe_props props ->
  (on_heap (init_chan a ty name props) ;;; on_heap (bay_register a)) e = (Ok tt, e') ->
  created_at O A none e' /\ em_ext e' = em_ext e /\ forall b, b <> a -> h_chan (heap_of e') !! b = h_chan (heap_of e) !! b.
Proof.
  intros He Ha Hb Hp E. apply mbind_Ok in E as ([] & e1 & E1 & E2).
  destruct (init_chan_Ok _ _ _ _ _ _ _ _ _ He Ha Hb Hp E1) as (He1 & Ex1 & c & Hn & Ec1).
  destruct (register_Ok _ _ _ a c e1 e' He1) as (He2 & Ex2 & c' & Ec2); [by rewrite Ec1, lookup_insert_eq|done|].
  split; [|split; [congruence|]].
  - eapply created_at_mono; [|exact He2]. by intros b [[[]|?] ?].
  - intros b Hne. by rewrite Ec2, Ec1, !lookup_insert_ne.
Qed.

(** *** Tracks *)

Definition same_slot (tk tk' : track) : Prop := tk_ch tk' = tk_ch tk /\ tk_mux tk' = tk_mux tk.

Lemma track_at_alter x n i f n' i' tk : track_at (set_x_arrays (alter (alter f i) n) x) n' i' = Some tk ->
  (forall t, same_slot t (f t)) -> exists tk0, track_at x n' i' = Some tk0 /\ same_slot tk0 tk.
Proof.
  intros Ht Hf. unfold track_at in *. simpl in Ht. rewrite list_lookup_alter in Ht. case_decide as En; [|exists tk; by split]. subst n'.
  destruct (x_arrays x !! n) as [a|]; [|done]. simpl in *. rewrite list_lookup_alter in Ht. case_decide as Ei; [|exists tk; by split]. subst i'.
  destruct (a !! i) as [tk0|]; [|done]. simpl in Ht. injection Ht as <-. exists tk0. by split.
Qed.

Lemma ext_wf_alter O A x n i f : (forall t, same_slot t (f t)) -> A n = None -> ext_wf O A x ->
  ext_wf O A (set_x_arrays (alter (alter f i) n) x).
Proof.
  intros Hf HA [H1 H2 H3 H4 H5 H6 H7 H8 H9 H10 H11]. split; try done.
  - intros n' i' tk Ht. destruct (track_at_alter _ _ _ _ _ _ _ Ht Hf) as (tk0 & Ht0 & Ec & Em). rewrite Ec, Em. by apply H1.
  - intros n' Hn'. simpl. rewrite length_alter. by apply H10.
  - intros n' o i' tk m Ho Ht. apply (H11 n' o i' tk m Ho). assert (n' <> n) as Hne by (intros ->; congruence).
    unfold track_at in *. simpl in Ht. by rewrite list_lookup_alter_ne in Ht.
Qed.

Lemma read_new_track n i e tk e' O A : created_at O A none e -> load_track n i e = (Ok tk, e') ->
  e' = e /\ tk_ch tk = track_chan n i /\ (n < length (x_arrays (em_ext e)))%nat.
Proof.
  intros He E. unfold load_track, get_ext in E. apply mbind_Ok in E as (x & ? & E1 & [Ht ->]%deref_Ok).
  apply mbind_Ok in E1 as (? & ? & [= <- <-] & [= <- <-]). split; [done|]. split; [by apply (xw_track _ _ _ (ce_ext _ _ _ _ He))|].
  unfold track_at in Ht. destruct (x_arrays _ !! n) eqn:Ea; [|done]. by eapply lookup_lt_Some.
Qed.

Lemma track_init_Ok O A n i mode name e e' : created_at O A none e -> A n = None -> h_chan (heap_of e) !! track_chan n i = None ->
  track_init n i mode name e = (Ok tt, e') -> created_at O A none e' /\
  length (x_arrays (em_ext e')) = length (x_arrays (em_ext e)) /\
  (forall j, track_at (em_ext e') n j = if decide (j = i) then set_tk_mode mode <$> track_at (em_ext e) n j else track_at (em_ext e) n j) /\
  forall b, b <> track_chan n i -> h_chan (heap_of e') !! b = h_chan (heap_of e) !! b.
Proof.
  intros He HA Ha E. unfold track_init in E. case_match; [done|]. apply mbind_Ok in E as (tk & e1 & E1 & E).
  destruct (read_new_track _ _ _ _ _ _ _ He E1) as (-> & Ec & Hn). apply mbind_Ok in E as ([] & e1 & [Ex Es]%on_ext_Ok & E).
  assert (heap_of e1 = heap_of e) as Eh by (unfold heap_of; by rewrite Es).
  assert (created_at O A none e1) as He1.
  { destruct He as [H1 H2 H3]. split; [|rewrite Ex, Eh; simpl; by rewrite length_alter|by rewrite Es]. rewrite Ex. by apply ext_wf_alter. }
  rewrite Ec in E.
  destruct (new_chan_Ok O A (track_chan n i) CHAN_SINGLE (name +:+ th_suffix mode) [] e1 e' He1) as (He' & Ex' & Hch); [..|exact E|].
  - by rewrite Eh.
  - rewrite Ex. unfold bounded, track_chan. simpl. by rewrite length_alter.
  - by intros ? []%elem_of_nil.
  - split; [done|]. split; [rewrite Ex', Ex; simpl; by rewrite length_alter|]. split; [|intros b Hb; by rewrite Hch, Eh].
    intros j. rewrite Ex', Ex. unfold track_at. simpl. rewrite list_lookup_alter_eq. destruct (x_arrays (em_ext e) !! n); [simpl|by destruct (decide _)].
    destruct (decide (j = i)) as [->|Hne]; [by rewrite list_lookup_alter_eq|by rewrite list_lookup_alter_ne by congruence].
Qed.

(** [Md]: the modes the tracks are given. *)
Lemma track_inits_Ok {B} (f : B -> M emu unit) (idx : B -> nat) (Md : B -> track_th -> Prop) n l O A e e' :
  (forall b e e', f b e = (Ok tt, e') -> exists mode name, Md b mode /\ track_init n (idx b) mode name e = (Ok tt, e')) ->
  NoDup (idx <$> l) -> (forall i, h_chan (heap_of e) !! track_chan n i = None \/ i ∉ idx <$> l) ->
  created_at O A none e -> A n = None -> for_each f l e = (Ok tt, e') -> created_at O A none e' /\
  length (x_arrays (em_ext e')) = length (x_arrays (em_ext e)) /\
  (forall i tk, track_at (em_ext e') n i = Some tk -> is_Some (track_at (em_ext e) n i) /\
     (i ∉ idx <$> l /\ track_at (em_ext e) n i = Some tk \/ exists b, b ∈ l /\ i = idx b /\ Md b (tk_mode tk))) /\
  forall b, ~ allocated b -> h_chan (heap_of e') !! b = h_chan (heap_of e) !! b.
Proof.
  intros Hf. revert e. induction l as [|b l IH]; intros e Hn Hfr He HA E; simpl in E.
  { injection E as <-. split_and!; [done|done| |done]. intros i tk Ht. split; [by eexists|left]. split; [apply not_elem_of_nil|done]. }
  simpl in Hn. apply list.NoDup_cons in Hn as [Hb Hn].
  apply mbind_Ok in E as ([] & e1 & E1 & E). apply Hf in E1 as (mode & name & Hmd & E1).
  destruct (track_init_Ok _ _ _ _ _ _ _ _ He HA ltac:(destruct (Hfr (idx b)) as [?|H]; [done|destruct H; by left]) E1) as (He1 & Hl1 & Ht1 & Hc1).
  destruct (IH e1 Hn) as (He' & Hl' & Ht' & Hc'); [|done|done|done|].
  { intros i. destruct (decide (i = idx b)) as [->|Hne]; [by right|]. destruct (Hfr i) as [Hi|Hi].
    - left. rewrite Hc1; [done|]. unfold track_chan. congruence.
    - right. intros Hin. apply Hi. by right. }
  split; [done|]. split; [congruence|]. split.
  - intros i tk Ht. destruct (Ht' i tk Ht) as [[tk1 Htk1] Hcase]. rewrite Ht1 in Htk1. split.
    { case_decide; [|by eexists]. destruct (track_at (em_ext e) n i); [by eexists|done]. }
    destruct Hcase as [[Hni Hi]|(c & Hc & -> & Hm)]; [|right; exists c; split; [by right|done]].
    rewrite Ht1 in Hi. case_decide as Ei.
    + subst i. right. exists b. split; [by left|]. split; [done|]. destruct (track_at (em_ext e) n (idx b)); [|done].
      simpl in Hi. injection Hi as <-. exact Hmd.
    + left. split; [|done]. rewrite fmap_cons, not_elem_of_cons. by split.
  - intros a Ha. rewrite Hc', Hc1; [done| |done]. intros ->. by apply Ha.
Qed.

(** A new array, its tracks initialised. *)
Definition array_mux (nm k n : nat) (O : nat -> option mux_owner) (m : nat) : option mux_owner :=
  if decide (nm <= m < nm + k)%nat then Some (MTrack n (m - nm)) else O m.

Lemma new_array_Ok O A k e n e' : created_at O A none e -> new_array k e = (Ok n, e') ->
  exists O', created_at O' A none e' /\ A n = None /\ (n < length (x_arrays (em_ext e')))%nat /\ heap_of e' = heap_of e /\
    (forall i, is_Some (track_at (em_ext e') n i) -> (i < k)%nat) /\ forall i, h_chan (heap_of e') !! track_chan n i = None.
Proof.
  intros [H1 H2 H3] E. unfold new_array in E. apply mbind_Ok in E as (x & e1 & E1 & E).
  unfold get_ext in E1. apply mbind_Ok in E1 as (? & ? & [= <- <-] & [= <- <-]).
  apply mbind_Ok in E as ([] & e1 & [Ex1 Es1]%on_ext_Ok & E). apply mbind_Ok in E as ([] & e2 & [Ex2 Es2]%on_ext_Ok & [= <- <-]).
  set (x := em_ext e) in *. rewrite Ex1 in Ex2. assert (heap_of e2 = heap_of e) as Eh by (unfold heap_of; by rewrite Es2, Es1).
  exists (array_mux (x_nmux x) k (length (x_arrays x)) O). split_and!.
  - split; [| |by rewrite Es2, Es1].
    + rewrite Ex2. destruct H1 as [X1 X2 X3 X4 X5 X6 X7 X8 X9 X10 X11].
      assert (forall m o, O m = Some o -> array_mux (x_nmux x) k (length (x_arrays x)) O m = Some o) as Hold.
      { intros m o Hm. unfold array_mux. pose proof (X9 m (ex_intro _ o Hm)). rewrite decide_False; [done|lia]. }
      split; try done.
      * intros n i tk Ht. unfold track_at in Ht. simpl in Ht. destruct (decide (n < length (x_arrays x))%nat) as [Hlt|Hge].
        -- rewrite lookup_app_l in Ht by done. destruct (X1 n i tk Ht) as [? ?]. split; [done|]. by apply Hold.
        -- rewrite lookup_app_r in Ht by lia. destruct (n - length (x_arrays x))%nat as [|j] eqn:Ej; [|done]. simpl in Ht.
           assert (n = length (x_arrays x)) as -> by lia. change (map (track_zero (length (x_arrays x)) (x_nmux x))) with
             (fmap (M := list) (track_zero (length (x_arrays x)) (x_nmux x))) in Ht.
           rewrite list_lookup_fmap in Ht. destruct (seq 0 k !! i) as [i'|] eqn:Ei; [|done].
           apply lookup_seq in Ei as [-> Hk]. simpl in Ht. injection Ht as <-. simpl. split; [done|].
           unfold array_mux. rewrite decide_True by lia. f_equal. f_equal. lia.
      * intros kk b Hb. destruct (X2 kk b Hb) as (O0 & O1 & ?). split_and!; [by apply Hold|by apply Hold|tauto..].
      * intros m [o Hm]. unfold array_mux in Hm. simpl. case_decide; [lia|]. pose proof (X9 m (ex_intro _ o Hm)). lia.
      * intros n Hn. simpl. rewrite length_app. pose proof (X10 n Hn). lia.
      * intros n o i tk md Ho Ht. apply (X11 n o i tk md Ho). pose proof (X10 n (ex_intro _ _ Ho)).
        unfold track_at in *. simpl in Ht. by rewrite lookup_app_l in Ht.
    + rewrite Eh, Ex2. simpl. eapply stage_mono; [| |done|exact H2]; [rewrite length_app|]; lia.
  - destruct (A (length (x_arrays x))) eqn:EA; [|done]. pose proof (xw_array _ _ _ H1 _ (ex_intro _ _ EA)). fold x in H. lia.
  - rewrite Ex2. simpl. rewrite length_app. simpl. lia.
  - done.
  - intros i [tk Ht]. rewrite Ex2 in Ht. unfold track_at in Ht. simpl in Ht. rewrite lookup_app_r in Ht by done.
    rewrite Nat.sub_diag in Ht. simpl in Ht. apply lookup_lt_Some in Ht. by rewrite length_map, length_seq in Ht.
  - intros i. rewrite Eh. destruct (h_chan (heap_of e) !! track_chan _ i) as [c|] eqn:Ec; [|done].
    pose proof (sg_bound _ _ _ _ _ _ H2 _ _ Ec) as Hb. unfold bounded in Hb. simpl in Hb. fold x in Hb. lia.
Qed.

Lemma new_tracks_Ok {B} (f : nat -> B -> M emu unit) (idx : B -> nat) (Md : B -> track_th -> Prop) k l O A e n e' :
  (forall n b e e', f n b e = (Ok tt, e') -> exists mode name, Md b mode /\ track_init n (idx b) mode name e = (Ok tt, e')) ->
  NoDup (idx <$> l) -> created_at O A none e -> (let* n := new_array k in for_each (f n) l ;;; mret n) e = (Ok n, e') ->
  exists O', created_at O' A none e' /\ A n = None /\ (n < length (x_arrays (em_ext e')))%nat /\
    (forall i tk, track_at (em_ext e') n i = Some tk -> (i < k)%nat /\ (i ∈ idx <$> l -> exists b, b ∈ l /\ i = idx b /\ Md b (tk_mode tk))) /\
    forall b, ~ allocated b -> h_chan (heap_of e') !! b = h_chan (heap_of e) !! b.
Proof.
  intros Hf Hn He E. apply mbind_Ok in E as (n' & e1 & E1 & E). apply mbind_Ok in E as ([] & e2 & E2 & [= -> <-]).
  destruct (new_array_Ok _ _ _ _ _ _ He E1) as (O' & He1 & HA & Hlt & Eh & Hk & Hfr).
  destruct (track_inits_Ok (f n) idx Md n l O' A e1 e2) as (He2 & Hl & Ht & Hc); [by apply Hf|done|by left|done|done|done|].
  exists O'. split_and!; [done|done|lia| |].
  - intros i tk Hi. destruct (Ht i tk Hi) as [Hs Hcase]. split; [by apply Hk|]. intros Hin. by destruct Hcase as [[? _]|?].
  - intros b Hb. by rewrite Hc, Eh.
Qed.

(** *** Owners *)

Definition own_array (o : array_owner) (n : nat) : extn -> extn :=
  match o with
  | AThread m t => set_x_thread <[(m, t) := n]>
  | ACpu m c => set_x_cpu <[(m, c) := n]>
  | AMarkThread t => set_x_mark_th <[t := n]>
  | AMarkCpu c => set_x_mark_cpu <[c := n]>
  | AHwcThread t => set_x_hwc_th <[t := n]>
  | AHwcCpu c => set_x_hwc_cpu <[c := n]>
  end.

Definition with_owner (o : array_owner) (n : nat) (A : nat -> option array_owner) (m : nat) : option array_owner :=
  if decide (m = n) then Some o else A m.

Lemma own_array_wf O A x o n : ext_wf O A x -> A n = None -> (n < length (x_arrays x))%nat ->
  (forall i tk m, track_at x n i = Some tk -> owner_mode o i = Some m -> tk_mode tk = m) ->
  ext_wf O (with_owner o n A) (own_array o n x).
Proof.
  intros [H1 H2 H3 H4 H5 H6 H7 H8 H9 H10 H11] HA Hn Hmd.
  assert (forall m o', A m = Some o' -> with_owner o n A m = Some o') as Hold.
  { intros m o' Hm. unfold with_owner. rewrite decide_False; [done|]. intros ->. congruence. }
  assert (with_owner o n A n = Some o) as Hnew by (unfold with_owner; by rewrite decide_True).
  assert (forall m, is_Some (with_owner o n A m) -> (m < length (x_arrays (own_array o n x)))%nat) as Hlen.
  { intros m [o' Hm]. unfold with_owner in Hm. replace (x_arrays (own_array o n x)) with (x_arrays x) by (by destruct o).
    case_decide; [by subst|]. eauto. }
  assert (forall k o' i tk m, with_owner o n A k = Some o' -> track_at (own_array o n x) k i = Some tk -> owner_mode o' i = Some m ->
    tk_mode tk = m) as Hmode.
  { intros k o' i tk m Ho. replace (track_at (own_array o n x) k i) with (track_at x k i) by (by destruct o).
    unfold with_owner in Ho. case_decide; [|by apply H11]. subst k. injection Ho as <-. by apply Hmd. }
  destruct o; (split; [done|done| | | | | | |done|done|exact Hmode]); simpl; eauto;
    intros *; rewrite lookup_insert; case_decide as Ek; simplify_eq; eauto; by intros [= <-].
Qed.

(** The tracks of an object of owner [o]. *)
Lemma created_own O A o n e e' : created_at O A none e -> A n = None -> (n < length (x_arrays (em_ext e)))%nat ->
  (forall i tk m, track_at (em_ext e) n i = Some tk -> owner_mode o i = Some m -> tk_mode tk = m) ->
  on_ext (own_array o n) e = (Ok tt, e') -> created e' /\ heap_of e' = heap_of e.
Proof.
  intros [H1 H2 H3] HA Hn Hmd [Ex Es]%on_ext_Ok. assert (heap_of e' = heap_of e) as Eh by (unfold heap_of; by rewrite Es).
  split; [|done]. exists O, (with_owner o n A). split; [rewrite Ex; by apply own_array_wf|rewrite Eh, Ex; by destruct o|by rewrite Es].
Qed.

Lemma creates_array {B} (f : nat -> B -> M emu unit) (idx : B -> nat) k l o :
  (forall n b e e', f n b e = (Ok tt, e') -> exists mode name, (forall m, owner_mode o (idx b) = Some m -> mode = m) /\
     track_init n (idx b) mode name e = (Ok tt, e')) ->
  NoDup (idx <$> l) -> (forall i, (i < k)%nat -> is_Some (owner_mode o i) -> i ∈ idx <$> l) ->
  creates nothing nothing (let* n := (let* n := new_array k in for_each (f n) l ;;; mret n) in on_ext (own_array o n)) always.
Proof.
  intros Hf Hl Hcov e [] e' (O & A & He) _ E. apply mbind_Ok in E as (n & e1 & E1 & E).
  destruct (new_tracks_Ok f idx (fun b mode => forall m, owner_mode o (idx b) = Some m -> mode = m) k l O A e n e1 Hf Hl He E1)
    as (O' & He1 & HA & Hn & Ht & Hc).
  destruct (created_own _ _ o n e1 e' He1 HA Hn) as [He' Eh]; [|exact E|].
  { intros i tk m Hi Hm. destruct (Ht i tk Hi) as [Hk Hmd]. destruct Hmd as (b & _ & -> & Hmd); [apply Hcov; [done|by eexists]|]. by apply Hmd. }
  split; [done|]. split; [|done]. intros a _ Ha. simpl. by rewrite Eh, Hc.
Qed.

Lemma creates_quiet {B} N T (op : M emu B) : quiet op -> creates N T op always.
Proof. intros Hq e b e' He _ E. rewrite (quiet_Ok _ _ _ _ Hq E). split; [done|]. split; [|done]. intros a _. apply same_refl. Qed.

Lemma creates_read {B C} N T (m : M emu B) (k : B -> M emu C) Q : quiet m -> (forall b, creates N T (k b) Q) -> creates N T (mbind m k) Q.
Proof.
  intros Hq Hk. apply (uses_read created (fun _ => True)); [|by auto].
  intros e b e' _ E. by rewrite (quiet_Ok _ _ _ _ Hq E).
Qed.

(** A channel with memory of its own. *)
Lemma creates_chan a ty name props : ~ allocated a -> safe_props props ->
  creates (fun b => b = a) (fun b => b = a) (on_heap (init_chan a ty name props) ;;; on_heap (bay_register a)) always.
Proof.
  intros Ha Hp e [] e' (O & A & He) Hf E. destruct (new_chan_Ok O A a ty name props e e' He) as (He' & _ & Hc); [by apply Hf| |done|done|].
  { unfold bounded, allocated in *. by destruct (a_own a). }
  split; [by exists O, A|]. split; [|done]. intros b Hb _ Hn. simpl. by rewrite Hc.
Qed.

(** Channels of a list with addresses of their own. *)
Lemma creates_chans {B} (addr_of : B -> addr) (f : B -> M emu unit) l (N : addr -> Prop) :
  NoDup (addr_of <$> l) -> (forall b, b ∈ l -> N (addr_of b)) ->
  (forall b, creates (fun a => a = addr_of b) (fun a => a = addr_of b) (f b) always) -> creates N N (for_each f l) always.
Proof.
  intros Hl HN Hf. eapply uses_mono.
  - apply (uses_for_each created (fun b a => a = addr_of b) (fun b a => a = addr_of b) (fun _ => always)).
    + by eapply NoDup_fmap_1.
    + intros b _. apply Hf.
    + done.
    + intros b b' a Hb Hb' -> E. by eapply (nodup_fmap_inj addr_of).
    + done.
  - intros a (b & Hb & ->). by apply HN.
  - intros a (b & Hb & ->). by apply HN.
  - done.
Qed.

(** ** The models *)

Definition model_addrs (z : Z) (t : nat) : addr -> Prop := fun a => a_own a = OwnModel (Z.to_nat z) t.

Lemma creates_model_chan sp t g i :
  creates (fun a => a = model_chan (spec_model sp) t i) (fun a => a = model_chan (spec_model sp) t i) (init_model_chan sp t g i) always.
Proof.
  unfold init_model_chan, at_. do 2 (apply creates_read; [quiet_tac|]; intros ?).
  assert (forall props, safe_props props -> creates (fun a => a = model_chan (spec_model sp) t i) (fun a => a = model_chan (spec_model sp) t i)
    (on_heap (init_chan (model_chan (spec_model sp) t i) (if b then CHAN_STACK else CHAN_SINGLE)
      (obj_name (chan_prefix (spec_chan sp)) "thread" g b0) props) ;;; on_heap (bay_register (model_chan (spec_model sp) t i))) always) as H.
  { intros props Hp. apply creates_chan; [exact (fun H => H)|done]. }
  destruct (ch_dup (spec_chan sp)) as [dups|].
  - intros e [] e' He Hf E. apply mbind_Ok in E as (props & e1 & E1 & E). apply mbind_Ok in E1 as (d & e2 & [_ ->]%deref_Ok & [= <- <-]).
    revert E. apply H; [|done|done]. intros p [->|[]%elem_of_nil]%elem_of_cons. done.
  - intros e [] e' He Hf E. apply mbind_Ok in E as (props & e1 & [= <- <-] & E). revert E. apply H; [|done|done]. by intros p []%elem_of_nil.
Qed.

Lemma stage_ext na nm P h h' : h_chan h' = h_chan h -> h_bay h' = h_bay h -> h_cb h' = h_cb h -> h_mux h' = h_mux h ->
  h_sort h' = h_sort h -> h_thread h' = h_thread h -> h_cpu h' = h_cpu h -> h_proc h' = h_proc h -> h_loom h' = h_loom h ->
  mark_ok (h_mark h') -> stage na nm P h -> stage na nm P h'.
Proof.
  intros E1 E2 E3 E4 E5 E6 E7 E8 E9 HM [S1 S2 S3 S4 S5 S6 S7 S8 S9 S10 S11 S12].
  split; unfold bounded; rewrite ?E1, ?E2, ?E3, ?E5, ?E6, ?E7; try done.
  - by eapply bay_inv_ext.
  - by eapply wired_ext.
Qed.

Lemma creates_mod f : (forall h, mark_ok (h_mark h) -> h_chan (f h) = h_chan h /\ h_bay (f h) = h_bay h /\ h_cb (f h) = h_cb h /\
  h_mux (f h) = h_mux h /\ h_sort (f h) = h_sort h /\ h_thread (f h) = h_thread h /\ h_cpu (f h) = h_cpu h /\ h_proc (f h) = h_proc h /\
  h_loom (f h) = h_loom h /\ mark_ok (h_mark (f h))) -> creates nothing nothing (on_heap (mmod f)) always.
Proof.
  intros Hf. apply created_heap. intros na nm h b h' HS [= _ <-].
  destruct (Hf h (sg_marks _ _ _ _ _ _ HS)) as (E1 & E2 & E3 & E4 & E5 & E6 & E7 & E8 & E9 & HM). split; [|done].
  by apply (stage_ext na nm none h).
Qed.

Lemma bind_assoc {S' B C D} (m : M S' B) (f : B -> M S' C) (g : C -> M S' D) s :
  mbind m (fun b => mbind (f b) g) s = mbind (mbind m f) g s.
Proof. unfold mbind. by destruct (m s) as [[]]. Qed.

(** What the memory of a model is zeroed with. *)
Definition zeroes (sp : model_obj_spec) : Prop := forall t, creates nothing nothing (on_heap (spec_zero sp t)) always.

Lemma creates_init_tracks sp prefix kind g o :
  (forall i m, owner_mode o i = Some m -> chan_track (spec_chan sp) !! i = Some m) ->
  creates nothing nothing (let* n := init_tracks sp prefix kind g in on_ext (own_array o n)) always.
Proof.
  intros Hm. apply (creates_array _ (fun i => i)); [|rewrite list_fmap_id; apply NoDup_seq|].
  - intros n i e e' E. unfold at_ in E. apply mbind_Ok in E as (name & ? & [_ ->]%deref_Ok & E).
    apply mbind_Ok in E as (mode & ? & [Hmode ->]%deref_Ok & E). eexists mode, _. split; [|exact E].
    intros m Ho%Hm. congruence.
  - intros i Hi _. rewrite list_fmap_id. by apply seq_elem.
Qed.

Lemma model_chan_inj' m t i j : model_chan m t i = model_chan m t j -> i = j.
Proof. by intros [=]. Qed.

Definition modes_of (sp : model_obj_spec) : Prop :=
  forall t i m, owner_mode (AThread (ch (spec_model sp)) t) i = Some m -> chan_track (spec_chan sp) !! i = Some m.

Lemma modes_of_spec sp cpu : (ch (spec_model sp), sp, cpu) ∈ chan_specs -> modes_of sp.
Proof. intros Hin t i m. by rewrite (thread_mode _ _ _ _ _ Hin). Qed.

Lemma creates_init_thread sp t : modes_of sp -> zeroes sp ->
  creates (model_addrs (ch (spec_model sp)) t) (model_addrs (ch (spec_model sp)) t) (init_thread sp t) always.
Proof.
  intros Hin Hz. unfold init_thread. apply (uses_first created nothing nothing (model_addrs (ch (spec_model sp)) t));
    [apply Hz|intros _|by intros ? []|done|by intros ? []|by intros ? _ []].
  apply creates_read; [apply quiet_load_thread_e|]. intros th. apply uses_then.
  - apply (creates_chans (model_chan (spec_model sp) t)).
    + apply NoDup_fmap_2; [|apply NoDup_seq]. intros i j. apply model_chan_inj'.
    + by intros i _.
    + intros i. apply creates_model_chan.
  - intros _. eapply uses_mono; [apply (creates_init_tracks sp _ _ _ (AThread (ch (spec_model sp)) t)); apply Hin|done|by intros ? []|done].
Qed.

Lemma creates_init_cpu sp c : zeroes sp -> creates nothing nothing (init_cpu sp c) always.
Proof.
  intros Hz. unfold init_cpu. apply uses_then; [apply Hz|]. intros _. apply creates_read; [apply quiet_load_cpu_e|]. intros cp.
  by apply (creates_init_tracks sp _ _ _ (ACpu (ch (spec_model sp)) c)).
Qed.

Hypothesis threads_nodup : NoDup (sys_threads sys0).

Lemma read_created_sys e s e' : created e -> get_sys e = (Ok s, e') -> e' = e /\ s = sys0.
Proof. intros (O & A & He) [= <- <-]. split; [done|apply He]. Qed.

Lemma creates_loop l (f : nat -> M emu unit) : (forall b, creates nothing nothing (f b) always) -> creates nothing nothing (for_each f l) always.
Proof.
  intros Hf. induction l as [|b l IH]; simpl; [by apply creates_quiet|]. by apply uses_then.
Qed.

(** A loop over the threads, each with channels of its own. *)
Lemma creates_threads (N : nat -> addr -> Prop) (f : nat -> M emu unit) :
  (forall t, creates (N t) (N t) (f t) always) -> (forall a b r, N a r -> N b r -> a = b) ->
  creates (fun r => exists t, N t r) (fun r => exists t, N t r) (for_each f (sys_threads sys0)) always.
Proof.
  intros Hf Hd. eapply uses_mono.
  - apply (uses_for_each created N N (fun _ => always) f _ threads_nodup); [by intros t _|done|intros a b r _ _; apply Hd|done].
  - intros r (t & _ & Hr). by exists t.
  - intros r (t & _ & Hr). by exists t.
  - done.
Qed.

Definition all_model_addrs (z : Z) : addr -> Prop := fun a => exists t, model_addrs z t a.

(** The channels of the threads. *)
Lemma creates_thread sp : modes_of sp -> zeroes sp ->
  creates (all_model_addrs (ch (spec_model sp))) (all_model_addrs (ch (spec_model sp))) (model_thread_create sp) always.
Proof.
  intros Hin Hz. apply (uses_read created (fun s => s = sys0)); [apply read_created_sys|]. intros ? ->.
  apply creates_threads; [intros t; by apply (creates_init_thread sp)|]. unfold model_addrs. intros a b r E E'. congruence.
Qed.

Lemma creates_channels th cpu : (ch (spec_model th), th, cpu) ∈ chan_specs -> zeroes th -> zeroes cpu ->
  creates (all_model_addrs (ch (spec_model th))) (all_model_addrs (ch (spec_model th))) (channels_create th cpu) always.
Proof.
  intros Hin Hz Hz'. apply uses_then.
  - apply creates_thread; [by eapply modes_of_spec|done].
  - intros _. apply (uses_read created (fun s => s = sys0)); [apply read_created_sys|]. intros ? ->.
    eapply uses_mono; [apply creates_loop; intros c; by apply creates_init_cpu|done|by intros ? []|done].
Qed.

(** *** Marks *)

Lemma find_mark_type_Some m type t : find_mark_type m type = Some t -> t ∈ mark_types m /\ mk_type t = type.
Proof.
  unfold find_mark_type. destruct (list_find _ _) as [[i u]|] eqn:E; [|done]. simpl. intros [= ->].
  apply list_find_Some in E as (Hi & Ht & _). split; [by eapply list_elem_of_lookup_2|done].
Qed.

Lemma find_mark_type_None m type : find_mark_type m type = None -> type ∉ map mk_type (mark_types m).
Proof.
  unfold find_mark_type. destruct (list_find _ _) as [[i u]|] eqn:E; [done|]. intros _ (u & -> & Hu)%list_elem_of_fmap.
  apply list_find_None in E. rewrite list.Forall_forall in E. by apply (E u Hu).
Qed.

Lemma create_mark_ok type ctype title : keeps_ok mark_ok (create_mark_type type ctype title).
Proof.
  intros m [] m' (H1 & H2 & H3) E. unfold create_mark_type in E. apply mbind_Ok in E as (? & ? & [= <- <-] & E).
  destruct (find_mark_type m type) eqn:Ef; [done|]. apply find_mark_type_None in Ef. case_match; [done|]. injection E as <-.
  unfold mark_ok. simpl. rewrite !map_app, length_app, seq_app, map_app, H1, H2. simpl. split_and!; [done|lia|].
  apply list.NoDup_app. split_and!; [done| |apply NoDup_singleton]. intros x Hx [->|[]%elem_of_nil]%elem_of_cons. done.
Qed.

Lemma parse_labels_same t0 labels : keeps_ok (fun t => mk_type t = mk_type t0 /\ mk_index t = mk_index t0) (parse_labels labels).
Proof.
  apply for_each_keeps_ok. intros [k v]. do 2 (co_bind; [quiet_step|]). unfold add_label.
  intros t [] t' H E. apply mbind_Ok in E as (? & ? & [= <- <-] & E). case_match.
  - unfold require in E. case_match; [by injection E as <-|done].
  - case_match; [done|]. by injection E as <-.
Qed.

Lemma on_mark_type_ok type labels : keeps_ok mark_ok (on_mark_type type (parse_labels labels)).
Proof.
  intros m [] m' (H1 & H2 & H3) E. unfold on_mark_type in E. destruct (find_mark_type m type) as [t|] eqn:Ef; [|done].
  apply find_mark_type_Some in Ef as [Hin Ht]. destruct (parse_labels labels t) as [r t'] eqn:El. injection E as -> <-.
  destruct (parse_labels_same t labels t tt t' (conj eq_refl eq_refl) El) as [E1 E2].
  assert (forall u, u ∈ mark_types m -> mk_type u = type -> u = t) as Hu.
  { intros u Hu Eu. apply (nodup_fmap_inj mk_type (mark_types m)); [done|done|done|congruence]. }
  unfold mark_ok. simpl. rewrite length_map, !map_map. split_and!; [|done|].
  - rewrite <- H1. apply map_ext_in. intros u Hin'%list_elem_of_In. destruct (Z.eqb_spec (mk_type u) type) as [Eu|]; [|done].
    by rewrite E2, (Hu u).
  - erewrite map_ext_in; [exact H3|]. intros u Hin'%list_elem_of_In. destruct (Z.eqb_spec (mk_type u) type) as [Eu|]; [|done].
    by rewrite E1, (Hu u).
Qed.

Lemma scan_marks_ok meta : keeps_ok mark_ok (scan_marks meta).
Proof.
  unfold scan_marks. case_match; [|quiet_step]. apply for_each_keeps_ok. intros [k v]. unfold parse_mark.
  repeat first [co_bind | quiet_step | apply create_mark_ok | apply on_mark_type_ok | case_match].
Qed.

Lemma creates_scan t : creates nothing nothing (let* meta := thread_meta_of t in on_heap (on_mark (scan_marks meta))) always.
Proof.
  apply creates_read; [unfold thread_meta_of; quiet_tac|]. intros meta.
  apply created_heap. intros na nm h [] h' HS E. unfold on_mark in E. destruct (scan_marks meta (h_mark h)) as [r m] eqn:Em. injection E as -> <-.
  split; [|done]. apply (stage_ext na nm none h); try done. exact (scan_marks_ok meta _ _ _ (sg_marks _ _ _ _ _ _ HS) Em).
Qed.

Lemma mark_nodup m : mark_ok m -> NoDup ((fun ty => Z.to_nat (mk_index ty)) <$> mark_types m).
Proof.
  intros (H1 & _). change (NoDup (map (fun ty => Z.to_nat (mk_index ty)) (mark_types m))).
  rewrite <- (map_map mk_index Z.to_nat), H1, map_map. erewrite map_ext; [rewrite map_id; apply NoDup_seq|]. intros i. apply Nat2Z.id.
Qed.

Lemma read_created_marks e m e' : created e -> get_marks e = (Ok m, e') -> e' = e /\ mark_ok m.
Proof.
  intros (O & A & He) E. apply mbind_Ok in E as (h & ? & E & [= <- <-]). injection E as <- <-. split; [done|]. by apply (ce_stage _ _ _ _ He).
Qed.

Lemma mark_covered m i : mark_ok m -> (i < Z.to_nat (mark_ntypes m))%nat -> i ∈ (fun ty => Z.to_nat (mk_index ty)) <$> mark_types m.
Proof.
  intros (H1 & H2 & _) Hi. change (i ∈ map (fun ty => Z.to_nat (mk_index ty)) (mark_types m)).
  rewrite <- (map_map mk_index Z.to_nat), H1, map_map. erewrite map_ext; [rewrite map_id; apply seq_elem; lia|]. intros j. apply Nat2Z.id.
Qed.

Lemma creates_mark_tracks kind g mode o : (forall i m, owner_mode o i = Some m -> mode = m) -> creates nothing nothing (let* n := init_mark_tracks kind g mode in on_ext (own_array o n)) always.
Proof.
  intros Hmode. unfold init_mark_tracks. eapply uses_ext; [apply bind_assoc|]. apply (uses_read created mark_ok); [apply read_created_marks|]. intros m Hm.
  apply (creates_array _ (fun ty => Z.to_nat (mk_index ty))); [|by apply mark_nodup|intros i Hi _; by apply mark_covered].
  intros n ty e e' E. eexists mode, _. split; [apply Hmode|exact E].
Qed.

Definition mark_addrs (t : nat) : addr -> Prop := fun a => a_own a = OwnMark t.

Lemma creates_mark_chan t : creates (mark_addrs t) (mark_addrs t) (create_mark_chan t) always.
Proof.
  apply (uses_read created mark_ok); [apply read_created_marks|]. intros m Hm. apply creates_read; [apply quiet_load_thread_e|]. intros th.
  apply uses_then.
  - apply (creates_chans (fun ty => mark_chan t (mk_index ty))).
    + unfold mark_chan. change ((fun ty => Addr (OwnMark t) (Z.to_nat (mk_index ty))) <$> mark_types m) with
        (map (fun ty => Addr (OwnMark t) (Z.to_nat (mk_index ty))) (mark_types m)).
      rewrite <- (map_map (fun ty => Z.to_nat (mk_index ty)) (Addr (OwnMark t))). apply NoDup_fmap_2; [by intros ? ? [=]|by apply mark_nodup].
    + by intros ty _.
    + intros ty. apply creates_chan; [exact (fun H => H)|]. by intros p [->|[]%elem_of_nil]%elem_of_cons.
  - intros _. eapply uses_mono; [apply (creates_mark_tracks _ _ _ (AMarkThread t)); by intros i m0 [=]|done|by intros ? []|done].
Qed.

Lemma creates_mark_cpu c : creates nothing nothing (init_mark_cpu c) always.
Proof. apply creates_read; [apply quiet_load_cpu_e|]. intros cp. by apply (creates_mark_tracks _ _ _ (AMarkCpu c)). Qed.

Lemma creates_nothing {B} N T (b : B) : creates N T (mret b) always.
Proof. eapply uses_mono; [apply uses_ret|by intros ? []|by intros ? []|done]. Qed.

Lemma creates_marks : creates (fun a => exists t, mark_addrs t a) (fun a => exists t, mark_addrs t a) mark_create always.
Proof.
  apply (uses_read created (fun s => s = sys0)); [apply read_created_sys|]. intros ? ->.
  apply (uses_first created nothing nothing (fun a => exists t, mark_addrs t a)); [|intros _|by intros ? []|done|by intros ? []|by intros ? _ []].
  { apply creates_mod. intros h _. do 9 (split; [done|]). split; [done|]. split; [done|apply NoDup_nil_2]. }
  apply (uses_first created nothing nothing (fun a => exists t, mark_addrs t a)); [|intros _|by intros ? []|done|by intros ? []|by intros ? _ []].
  { apply creates_loop, creates_scan. }
  apply creates_read; [unfold get_marks, get_heap; quiet_tac|]. intros m. apply uses_if; [apply creates_nothing|].
  apply uses_then.
  - apply creates_threads; [apply creates_mark_chan|]. unfold mark_addrs. intros a b r E E'. congruence.
  - intros _. eapply uses_mono; [apply creates_loop, creates_mark_cpu|done|by intros ? []|done].
Qed.

(** *** Hardware counters *)

Definition hwc_addrs (t : nat) : addr -> Prop := fun a => a_own a = OwnHwc t.

Lemma creates_hwc_tracks kind g mode o : (forall i, owner_mode o i = None) -> creates nothing nothing (let* n := init_hwc_tracks kind g mode in on_ext (own_array o n)) always.
Proof.
  intros Ho. unfold init_hwc_tracks. eapply uses_ext; [apply bind_assoc|].
  apply (uses_read created (fun ids => NoDup ids)); [intros e ids e' _; apply read_hwc|]. intros ids Hids.
  apply (creates_array _ (fun i => i)); [|by rewrite list_fmap_id|intros i _; rewrite Ho; by intros []].
  intros n i e e' E. eexists mode, _. split; [by rewrite Ho|exact E].
Qed.

Lemma creates_hwc_chan t : creates (hwc_addrs t) (hwc_addrs t) (create_hwc_chan t) always.
Proof.
  apply (uses_read created (fun ids => NoDup ids)); [intros e ids e' _; apply read_hwc|]. intros ids Hids.
  apply creates_read; [apply quiet_load_thread_e|]. intros th. apply uses_then.
  - apply (creates_chans (hwc_chan t)).
    + apply NoDup_fmap_2; [by intros ? ? [=]|done].
    + by intros i _.
    + intros i. apply creates_chan; [exact (fun H => H)|]. by intros p [->|[]%elem_of_nil]%elem_of_cons.
  - intros _. eapply uses_mono; [by apply (creates_hwc_tracks _ _ _ (AHwcThread t))|done|by intros ? []|done].
Qed.

Lemma creates_hwc_cpu c : creates nothing nothing (init_hwc_cpu c) always.
Proof. apply creates_read; [apply quiet_load_cpu_e|]. intros cp. by apply (creates_hwc_tracks _ _ _ (AHwcCpu c)). Qed.

Lemma creates_hwc : creates (fun a => exists t, hwc_addrs t a) (fun a => exists t, hwc_addrs t a) hwc_create always.
Proof.
  apply (uses_read created (fun s => s = sys0)); [apply read_created_sys|]. intros ? ->.
  apply (uses_first created nothing nothing (fun a => exists t, hwc_addrs t a)); [|intros _|by intros ? []|done|by intros ? []|by intros ? _ []].
  { apply creates_loop. intros t. apply creates_read; [unfold thread_meta_of; quiet_tac|]. intros meta.
    apply created_heap. intros na nm h [] h' HS E. unfold on_hwc in E. destruct (scan_hwc meta (h_hwc h)) as [r w]. injection E as -> <-.
    split; [|done]. apply (stage_ext na nm none h); try done. apply HS. }
  apply creates_read; [unfold get_hwc, get_heap; quiet_tac|]. intros hw. apply uses_if; [apply creates_nothing|].
  apply (uses_first created nothing nothing (fun a => exists t, hwc_addrs t a)); [|intros _|by intros ? []|done|by intros ? []|by intros ? _ []].
  { apply creates_mod. intros h Hm. by split_and!. }
  apply uses_then.
  - apply creates_threads; [apply creates_hwc_chan|]. unfold hwc_addrs. intros a b r E E'. congruence.
  - intros _. eapply uses_mono; [apply creates_loop, creates_hwc_cpu|done|by intros ? []|done].
Qed.

(** *** Breakdowns *)

Lemma creates_ext f : (forall O A x, ext_wf O A x -> ext_wf O A (f x)) ->
  (forall x, length (x_arrays (f x)) = length (x_arrays x) /\ x_nmux (f x) = x_nmux x) -> creates nothing nothing (on_ext f) always.
Proof.
  intros Hf Hl e [] e' (O & A & [H1 H2 H3]) _ [Ex Es]%on_ext_Ok. assert (heap_of e' = heap_of e) as Eh by (unfold heap_of; by rewrite Es).
  split; [|split; [intros a _ _ Ha; simpl; by rewrite Eh|done]]. exists O, A. destruct (Hl (em_ext e)) as [L1 L2].
  split; [rewrite Ex; by apply Hf|by rewrite Eh, Ex, L1, L2|by rewrite Es].
Qed.

Lemma creates_put_bd m b : creates nothing nothing (put_bd m b) always.
Proof. apply creates_ext; [|done]. by intros O A x []. Qed.

Lemma creates_init_procs m : creates nothing nothing (init_procs m) always.
Proof.
  apply creates_read; [apply quiet_get_sys|]. intros sys. apply uses_then; [|intros _; apply creates_put_bd].
  apply creates_loop. intros p. apply creates_mod. intros h Hm. by split_and!.
Qed.

Lemma creates_add_pvt name nrows : creates nothing nothing (on_rec (recorder_add_pvt name nrows)) always.
Proof.
  intros e p e' (O & A & [H1 H2 H3]) _ E. unfold on_rec, on_syst in E. destruct (in_rec _ (em_sys e)) as [r s] eqn:E1. injection E as -> <-.
  apply in_rec_Ok in E1 as (r & h & E & ->). unfold recorder_add_pvt in E. apply mbind_Ok in E as (? & ? & [= <- <-] & E). simpl in E.
  case_match; [done|]. apply mbind_Ok in E as (p1 & [r1 h1] & E1 & E). apply mbind_Ok in E as ([] & s2 & [= <-] & E). injection E as _ <- <-.
  unfold pvt_open in E1. do 3 (case_match; [discriminate|]). apply mbind_Ok in E1 as (? & ? & [= <- <-] & E1).
  apply mbind_Ok in E1 as ([] & s3 & E3 & E1). unfold Recorder.on_heap, prv_open_file, mmod in E3. injection E3 as <-. injection E1 as _ _ <-.
  split; [|split; [intros a _ _ Ha; exact Ha|done]]. exists O, A. split; [done| |done].
  apply (stage_ext _ _ none (st_heap (em_sys e))); try done. apply H2.
Qed.

(** The outputs of a new sorter. *)
Lemma init_outputs_Ok na nm s name k i h h' : stage na nm none h -> is_Some (h_sort h !! s) ->
  (forall j, (i <= j)%nat -> h_chan h !! Addr (OwnSort s) j = None) -> init_outputs s name k i h = (Ok tt, h') ->
  stage na nm none h' /\ forall a, ~ allocated a -> h_chan h' !! a = h_chan h !! a.
Proof.
  revert i h. induction k as [|k IH]; intros i h HS Hs Hf E; simpl in E; [by injection E as <-|].
  destruct (chan_init CHAN_SINGLE (sort_out_name name i)) as [c| | | |] eqn:Ec; try done.
  assert (sort_get_output s (Z.of_nat i) = Addr (OwnSort s) i) as Ea by (unfold sort_get_output; by rewrite Nat2Z.id).
  rewrite Ea in E. set (a := Addr (OwnSort s) i) in *. set (c' := chan_prop_set _ _ _) in E.
  assert (new_chan c') as Hn.
  { unfold chan_init in Ec. case_match; [done|]. injection Ec as <-. split; [|done..]. split; [split; [by split|by intros [_ ?]]|done]. }
  apply mbind_Ok in E as ([] & h1 & E1 & E). unfold store in E1. cbn in E1. injection E1 as E1.
  pose proof (stage_store _ _ na nm none a c' h HS (Hf i (le_n i)) Hs Hn) as HS1. rewrite E1 in HS1.
  assert (h_chan h1 = <[a := c']> (h_chan h)) as Ec1 by (by rewrite <- E1). assert (h_sort h1 = h_sort h) as Es1 by (by rewrite <- E1).
  apply mbind_Ok in E as ([] & h2 & E2 & E). assert (h_sort h2 = h_sort h1) as Es2.
  { unfold bay_register in E2. apply mbind_Ok in E2 as (? & ? & [_ ->]%load_Ok & E2). apply mbind_Ok in E2 as (? & ? & [= <- <-] & E2).
    case_match; [done|]. by injection E2 as <-. }
  destruct (stage_register _ _ _ _ _ a c' h1 h2 HS1) as [HS2 Ec2]; [rewrite Ec1; apply lookup_insert_eq|exact E2|].
  destruct (IH (S i) h2) as [HS' Hc'].
  - eapply stage_mono; [done|done| |exact HS2]. by intros b [[[]|?] ?].
  - by rewrite Es2, Es1.
  - intros j Hj. rewrite Ec2, Ec1, !lookup_insert_ne by (unfold a; intros [=]; lia). apply Hf. lia.
  - exact E.
  - split; [done|]. intros b Hb. rewrite Hc' by done. assert (a <> b) by (intros <-; by apply Hb). by rewrite Ec2, Ec1, !lookup_insert_ne.
Qed.

Lemma sort_init_Ok O A s n name e e' : created_at O A none e -> s = size (h_sort (heap_of e)) ->
  on_heap (sort_init s n name) e = (Ok tt, e') ->
  created_at O A none e' /\ forall a, ~ allocated a -> h_chan (heap_of e') !! a = h_chan (heap_of e) !! a.
Proof.
  intros [H1 H2 H3] Hs (E & Ex & Es)%on_heap_Ok. unfold sort_init in E. apply mbind_Ok in E as ([] & h1 & [= <-] & E).
  set (h := heap_of e) in *. destruct H2 as [S1 S2 S3 S4 S5 S6 S7 S8 S9 S10 S11 S12].
  assert (h_sort h !! s = None) as Hn.
  { destruct (h_sort h !! s) eqn:Ec; [|done]. pose proof (S8 s (ex_intro _ _ Ec)). lia. }
  match type of E with _ ?h1 = _ => assert (stage (length (x_arrays (em_ext e))) (x_nmux (em_ext e)) none h1) as HS end.
  { split; try done.
    - by apply (bay_inv_ext h).
    - by apply (wired_ext h).
    - intros a c Hc. specialize (S7 a c Hc). unfold bounded in *. destruct (a_own a); try done. simpl.
      apply lookup_insert_is_Some'. by right.
    - intros k. simpl. rewrite lookup_insert_is_Some', map_size_insert_None by done. intros [<-|Hk]; [lia|]. specialize (S8 k Hk). lia. }
  eapply init_outputs_Ok in E as [HS' Hc]; [|exact HS|simpl; by rewrite lookup_insert_eq|].
  { split; [|exact Hc]. split; [by rewrite Ex|by rewrite Ex|congruence]. }
  intros j _. simpl. destruct (h_chan h !! _) as [c|] eqn:Ec; [|done]. pose proof (S7 _ _ Ec) as Hb. unfold bounded in Hb. simpl in Hb.
  rewrite Hn in Hb. by destruct Hb.
Qed.

(** A multiplexer of a breakdown. *)
Lemma new_mux_Ok O A P e m e' : created_at O A P e -> new_mux e = (Ok m, e') ->
  created_at O A P e' /\ heap_of e' = heap_of e /\ O m = None /\ m = x_nmux (em_ext e) /\ x_nmux (em_ext e') = S m.
Proof.
  intros [H1 H2 H3] E. unfold new_mux in E. apply mbind_Ok in E as (x & e1 & E1 & E).
  apply mbind_Ok in E1 as (? & ? & [= <- <-] & [= <- <-]). apply mbind_Ok in E as ([] & e1 & [Ex Es]%on_ext_Ok & [= <- <-]).
  assert (heap_of e1 = heap_of e) as Eh by (unfold heap_of; by rewrite Es). split_and!; [|done| |done|by rewrite Ex].
  - split; [|rewrite Eh, Ex; simpl; eapply stage_mono; [done| |done|exact H2]; lia|by rewrite Es].
    rewrite Ex. destruct H1. split; try done. intros k Hk. simpl. apply Nat.lt_lt_succ_r. auto.
  - destruct (O _) eqn:EO; [|done]. pose proof (xw_mux _ _ _ H1 _ (ex_intro _ _ EO)). lia.
Qed.

Lemma mux_chan_fresh O A P e m i : created_at O A P e -> m = x_nmux (em_ext e) -> h_chan (heap_of e) !! Addr (OwnOther m) i = None.
Proof.
  intros [_ H2 _] ->. destruct (h_chan _ !! _) as [c|] eqn:Ec; [|done]. pose proof (sg_bound _ _ _ _ _ _ H2 _ _ Ec) as Hb.
  unfold bounded in Hb. simpl in Hb. lia.
Qed.

Lemma new_bd_chan_Ok O A P sp c m i part e e' : created_at O A P e -> h_chan (heap_of e) !! Addr (OwnOther m) i = None ->
  (m < x_nmux (em_ext e))%nat -> new_bd_chan sp c (Addr (OwnOther m) i) part e = (Ok tt, e') ->
  created_at O A (fun b => P b \/ b = Addr (OwnOther m) i) e' /\ em_ext e' = em_ext e /\
  exists ch, new_chan ch /\ h_chan (heap_of e') = <[Addr (OwnOther m) i := ch]> (h_chan (heap_of e)).
Proof.
  intros He Ha Hm E. unfold new_bd_chan in E. apply mbind_Ok in E as (cp & e1 & E1 & E).
  pose proof (quiet_Ok _ _ _ _ (quiet_load_cpu_e c) E1) as ->. eapply init_chan_Ok; [exact He|exact Ha|exact Hm| |exact E].
  by intros ? []%elem_of_nil.
Qed.

(** What the breakdown of a CPU leaves in the memory of the models. *)
Lemma own_bd_cpu O A x k b : ext_wf O A x -> O (bc_mux0 b) = None -> O (bc_mux1 b) = None ->
  (bc_mux0 b < x_nmux x)%nat -> (bc_mux1 b < x_nmux x)%nat -> bc_tr b = Addr (OwnOther (bc_mux0 b)) 0 ->
  (k.1 = ch "P" /\ bc_mux1 b = bc_mux0 b /\ bc_tri b = bc_tr b \/
   k.1 <> ch "P" /\ bc_mux1 b <> bc_mux0 b /\ bc_tri b = Addr (OwnOther (bc_mux0 b)) 1) ->
  exists O', ext_wf O' A (set_x_bd_cpu <[k := b]> x).
Proof.
  intros [H1 H2 H3 H4 H5 H6 H7 H8 H9 H10 H11] N0 N1 L0 L1 Ht Hk.
  exists (fun m => if decide (m = bc_mux0 b \/ m = bc_mux1 b) then Some (MBreakdown k) else O m).
  assert (forall m o, O m = Some o -> (if decide (m = bc_mux0 b \/ m = bc_mux1 b) then Some (MBreakdown k) else O m) = Some o) as Hold.
  { intros m o Hm. rewrite decide_False; [done|]. intros [->| ->]; congruence. }
  split; try done.
  - intros n i tk Htk. destruct (H1 n i tk Htk) as [? ?]. split; [done|]. by apply Hold.
  - intros k' b'. simpl. rewrite lookup_insert. case_decide as Ek.
    + subst k'. intros [= <-]. rewrite !decide_True by auto. by split_and!.
    + intros Hb'. destruct (H2 k' b' Hb') as (O0 & O1 & ?). split_and!; [by apply Hold|by apply Hold|tauto..].
  - intros m. simpl. case_decide as Em; [intros _; by destruct Em as [->| ->]|]. apply H9.
Qed.

Lemma creates_bd_cpu sp c : ch (bs_model sp) <> ch "P" -> creates nothing nothing (create_bd_cpu sp c) always.
Proof.
  intros Hz e [] e' (O & A & He) _ E. unfold create_bd_cpu in E.
  apply mbind_Ok in E as (m0 & e1 & E1 & E). destruct (new_mux_Ok _ _ _ _ _ _ He E1) as (He1 & Eh1 & N0 & M0 & X1).
  apply mbind_Ok in E as (m1 & e2 & E2 & E). destruct (new_mux_Ok _ _ _ _ _ _ He1 E2) as (He2 & Eh2 & N1 & M1 & X2).
  assert (forall i, h_chan (heap_of e2) !! Addr (OwnOther m0) i = None) as Hf by (intros i; rewrite Eh2, Eh1; by eapply mux_chan_fresh).
  apply mbind_Ok in E as ([] & e3 & E3 & E).
  destruct (new_bd_chan_Ok _ _ _ sp c m0 0 "tr" _ _ He2 (Hf 0%nat) ltac:(lia) E3) as (He3 & X3 & c0 & C0 & K3).
  apply mbind_Ok in E as ([] & e4 & E4 & E).
  destruct (new_bd_chan_Ok _ _ _ sp c m0 1 "tri" e3 e4 He3) as (He4 & X4 & c1 & C1 & K4); [by rewrite K3, lookup_insert_ne|rewrite X3; lia|exact E4|].
  apply mbind_Ok in E as ([] & e5 & E5 & E).
  destruct (register_Ok _ _ _ (Addr (OwnOther m0) 0) c0 e4 e5 He4) as (He5 & X5 & c0' & K5);
    [by rewrite K4, lookup_insert_ne, K3, lookup_insert_eq|done|].
  apply mbind_Ok in E as ([] & e6 & E6 & [Ex Es]%on_ext_Ok).
  destruct (register_Ok _ _ _ (Addr (OwnOther m0) 1) c1 e5 e6 He5) as (He6 & X6 & c1' & K6);
    [by rewrite K5, lookup_insert_ne, K4, lookup_insert_eq|done|].
  assert (em_ext e6 = em_ext e2) as X by congruence. assert (heap_of e' = heap_of e6) as Eh by (unfold heap_of; by rewrite Es).
  split; [|split; [|done]].
  - destruct He6 as [W S Y].
    destruct (own_bd_cpu O A (em_ext e6) (ch (bs_model sp), c) (mk_breakdown_cpu m0 (Addr (OwnOther m0) 0) m1 (Addr (OwnOther m0) 1))) as [O' W'];
      [done|done|done|simpl; rewrite X; lia|simpl; rewrite X; lia|done|right; split; [done|split; [simpl; lia|done]]|].
    exists O', A. split; [by rewrite Ex|rewrite Eh, Ex|by rewrite Es].
    eapply stage_mono; [done|done| |exact S]. intros b [[[[[]|?]|?] ?] ?]; done.
  - intros a _ Ha. simpl. rewrite Eh, K6, K5, K4, K3, Eh2, Eh1. intros Hn.
    rewrite !lookup_insert_ne by (intros <-; by apply Ha). done.
Qed.

Lemma creates_bd_cpu_one sp c : ch (bs_model sp) = ch "P" -> creates nothing nothing (create_bd_cpu_one sp c) always.
Proof.
  intros Hz e [] e' (O & A & He) _ E. unfold create_bd_cpu_one in E.
  apply mbind_Ok in E as (m0 & e1 & E1 & E). destruct (new_mux_Ok _ _ _ _ _ _ He E1) as (He1 & Eh1 & N0 & M0 & X1).
  assert (h_chan (heap_of e1) !! Addr (OwnOther m0) 0 = None) as Hf by (rewrite Eh1; by eapply mux_chan_fresh).
  apply mbind_Ok in E as ([] & e2 & E2 & E).
  destruct (new_bd_chan_Ok _ _ _ sp c m0 0 _ _ _ He1 Hf ltac:(lia) E2) as (He2 & X2 & c0 & C0 & K2).
  apply mbind_Ok in E as ([] & e3 & E3 & [Ex Es]%on_ext_Ok).
  destruct (register_Ok _ _ _ (Addr (OwnOther m0) 0) c0 e2 e3 He2) as (He3 & X3 & c0' & K3); [by rewrite K2, lookup_insert_eq|done|].
  assert (em_ext e3 = em_ext e1) as X by congruence. assert (heap_of e' = heap_of e3) as Eh by (unfold heap_of; by rewrite Es).
  split; [|split; [|done]].
  - destruct He3 as [W S Y].
    destruct (own_bd_cpu O A (em_ext e3) (ch (bs_model sp), c) (mk_breakdown_cpu m0 (Addr (OwnOther m0) 0) m0 (Addr (OwnOther m0) 0))) as [O' W'];
      [done|done|done|simpl; rewrite X; lia|simpl; rewrite X; lia|done|by left|].
    exists O', A. split; [by rewrite Ex|rewrite Eh, Ex|by rewrite Es].
    eapply stage_mono; [done|done| |exact S]. intros b [[[]|?] ?]; done.
  - intros a _ Ha. simpl. rewrite Eh, K3, K2, Eh1. intros Hn. rewrite !lookup_insert_ne by (intros <-; by apply Ha). done.
Qed.

Lemma add_pvt_sorts name nrows e p e' : on_rec (recorder_add_pvt name nrows) e = (Ok p, e') -> h_sort (heap_of e') = h_sort (heap_of e).
Proof.
  intros E. unfold on_rec, on_syst in E. destruct (in_rec _ (em_sys e)) as [r s] eqn:E1. injection E as -> <-.
  apply in_rec_Ok in E1 as (r & h & E & ->). unfold recorder_add_pvt in E. apply mbind_Ok in E as (? & ? & [= <- <-] & E). simpl in E.
  case_match; [done|]. apply mbind_Ok in E as (p1 & [r1 h1] & E1 & E). apply mbind_Ok in E as ([] & s2 & [= <-] & E). injection E as _ <- <-.
  unfold pvt_open in E1. do 3 (case_match; [discriminate|]). apply mbind_Ok in E1 as (? & ? & [= <- <-] & E1).
  apply mbind_Ok in E1 as ([] & s3 & E3 & E1). unfold Recorder.on_heap, prv_open_file, mmod in E3. injection E3 as <-. by injection E1 as _ _ <-.
Qed.

Lemma quiet_physical_cpus l : quiet (physical_cpus l).
Proof. induction l as [|c l IH]; simpl; [quiet_tac|]. apply quiet_bind; [apply quiet_load_cpu_e|]. intros cp. quiet_tac. Qed.

Lemma creates_breakdown sp create_cpu en : (forall c, creates nothing nothing (create_cpu c) always) ->
  creates nothing nothing (breakdown_new sp create_cpu en) always.
Proof.
  intros Hc e [] e' He _ E. unfold breakdown_new in E. apply mbind_Ok in E as (sys & e0 & E0 & E).
  rewrite (quiet_Ok _ _ _ _ quiet_get_sys E0) in E. clear E0 e0. apply mbind_Ok in E as (h & e0 & E0 & E). injection E0 as <- <-.
  apply mbind_Ok in E as (p & e1 & E1 & E). destruct (creates_add_pvt _ _ _ _ _ He ltac:(by intros ? []) E1) as (He1 & S1 & _).
  pose proof (add_pvt_sorts _ _ _ _ _ E1) as Hs.
  apply mbind_Ok in E as ([] & e2 & E2 & E). destruct He1 as (O & A & He1).
  destruct (sort_init_Ok O A _ _ _ e1 e2 He1 ltac:(by rewrite Hs) E2) as [He2 S2].
  assert (creates nothing nothing (put_bd (bs_model sp) (mk_breakdown_emu (sys_ncpus sys - sys_nlooms sys) (size (h_sort (heap_of e))) (bs_name sp +:+ "-breakdown") en) ;;;
    let* cpus := physical_cpus (sys_cpus sys) in for_each create_cpu cpus) always) as Hrest.
  { apply uses_then; [apply creates_put_bd|intros _]. apply creates_read; [apply quiet_physical_cpus|]. intros l. by apply creates_loop. }
  destruct (Hrest e2 tt e' (ex_intro _ O (ex_intro _ A He2)) ltac:(by intros ? []) E) as (He' & S3 & _).
  split; [done|]. split; [|done]. intros a Ha. eapply same_trans; [by apply S1|]. eapply same_trans; [|by apply S3].
  intros Hna Hn. rewrite S2 by done. exact Hn.
Qed.

Lemma creates_breakdown_create sp create_cpu : (forall c, creates nothing nothing (create_cpu c) always) ->
  creates nothing nothing (breakdown_create sp create_cpu) always.
Proof.
  intros Hc. apply creates_read; [by intros e|]. intros e. apply uses_if; [by apply creates_nothing|]. by apply creates_breakdown.
Qed.

Lemma quiet_count_breakdown l : quiet (count_breakdown l).
Proof.
  induction l as [|t l IH]; simpl; [quiet_tac|]. apply quiet_bind; [unfold thread_meta_of; quiet_tac|]. intros meta.
  repeat (case_match; try quiet_tac).
Qed.

Lemma creates_nosv_breakdown sp : ch (bs_model sp) <> ch "P" -> creates nothing nothing (nosv_breakdown_create sp) always.
Proof.
  intros Hz. apply creates_read; [by intros e|]. intros e. apply uses_if; [by apply creates_nothing|].
  apply creates_read; [apply quiet_get_sys|]. intros sys. apply creates_read; [apply quiet_count_breakdown|]. intros n.
  apply uses_if; [by apply creates_nothing|]. apply creates_breakdown. intros c. by apply creates_bd_cpu.
Qed.
End Create.

(** ** The creation of every model

    What [model_create] leaves from a system that is set up: all channels of the
    models, registered, and all tracks, none of them connected. *)

Section Create.
Variables (ths : gmap nat thread) (cpus : gmap nat cpu) (sys0 : system).
Hypothesis threads_nodup : NoDup (sys_threads sys0).
Notation created := (created ths cpus sys0).
Notation creates := (uses created).

(** The channels of the model of character [z]. *)
Definition created_addrs (z : Z) : addr -> Prop := fun a =>
  all_model_addrs z a \/ (z = ch "O" /\ exists t, mark_addrs t a) \/ (z = ch "V" /\ exists t, hwc_addrs t a).

Lemma created_addrs_inj z z' a : 0 <= z -> 0 <= z' -> created_addrs z a -> created_addrs z' a -> z = z'.
Proof.
  unfold created_addrs, all_model_addrs, model_addrs, mark_addrs, hwc_addrs.
  intros H0 H0' [(t & H)|[[-> (t & H)]|[-> (t & H)]]] [(t' & H')|[[-> (t' & H')]|[-> (t' & H')]]]; rewrite H in H'; try done.
  injection H' as E _. lia.
Qed.

Lemma creates_nothing_zero sp : (forall t, spec_zero sp t = mret tt) -> zeroes ths cpus sys0 sp.
Proof.
  intros Hz t. rewrite Hz. apply creates_quiet, quiet_on_heap. quiet_tac.
Qed.

Lemma creates_ovni_zero : zeroes ths cpus sys0 ovni_th_spec.
Proof. intros t. apply creates_mod. intros h Hm. by split_and!. Qed.

Lemma creates_simple z th cpu : (z, th, cpu) ∈ chan_specs -> zeroes ths cpus sys0 th -> zeroes ths cpus sys0 cpu ->
  creates (created_addrs z) (created_addrs z) (channels_create th cpu) always.
Proof.
  intros Hin Hz Hz'. destruct (chan_specs_model _ _ _ Hin) as [E1 _].
  subst z. eapply uses_mono; [by apply (creates_channels ths cpus sys0 threads_nodup th cpu)|by left|by left|done].
Qed.

(** The channels, then steps without channels of their own. *)
Lemma creates_more z th cpu (more : M emu unit) : (z, th, cpu) ∈ chan_specs -> zeroes ths cpus sys0 th -> zeroes ths cpus sys0 cpu ->
  creates nothing nothing more always -> creates (created_addrs z) (created_addrs z) (channels_create th cpu ;;; more) always.
Proof.
  intros Hin Hz Hz' Hm. apply uses_then; [by apply creates_simple|]. intros _.
  eapply uses_mono; [exact Hm|done|by intros ? []|done].
Qed.

Lemma creates_first N T (m k : M emu unit) : creates nothing nothing m always -> creates N T k always -> creates N T (m ;;; k) always.
Proof.
  intros Hm Hk. by apply (uses_first created nothing nothing N); [|intros _|intros ? []| |intros ? []|intros ? _ []].
Qed.

Lemma creates_ovni : creates (created_addrs (ch "O")) (created_addrs (ch "O")) model_ovni_create always.
Proof.
  eapply (uses_first created (all_model_addrs (ch "O")) (all_model_addrs (ch "O"))).
  - apply (creates_channels ths cpus sys0 threads_nodup ovni_th_spec ovni_cpu_spec); [spec_tac|apply creates_ovni_zero|by apply creates_nothing_zero].
  - intros _. eapply uses_mono; [by apply (creates_marks ths cpus sys0)|intros a H; exact H| |done].
    intros a H. right. left. by split.
  - by left.
  - intros a H. right. left. by split.
  - by left.
  - unfold all_model_addrs, model_addrs, mark_addrs. intros a (t & H) (t' & H'). congruence.
Qed.

Lemma creates_nosv : creates (created_addrs (ch "V")) (created_addrs (ch "V")) model_nosv_create always.
Proof.
  apply (uses_first created (all_model_addrs (ch "V")) (all_model_addrs (ch "V")) (fun a => exists t, hwc_addrs t a)).
  - apply (creates_channels ths cpus sys0 threads_nodup nosv_th_spec nosv_cpu_spec); [spec_tac|by apply creates_nothing_zero..].
  - intros _. apply creates_first; [apply creates_init_procs|]. apply creates_first; [apply creates_mod; intros h Hm; by split_and!|].
    apply creates_first; [by apply creates_nosv_breakdown|]. eapply uses_mono; [by apply (creates_hwc ths cpus sys0)|done| |done].
    intros a H. right. right. by split.
  - by left.
  - intros a H. right. right. by split.
  - by left.
  - unfold all_model_addrs, model_addrs, hwc_addrs. intros a (t & H) (t' & H'). congruence.
Qed.

(** Every model of the list creates its own channels. *)
Lemma models_create spec : spec ∈ models -> exists cre, ms_create spec = Some cre /\ 0 <= ms_model spec /\
  creates (created_addrs (ms_model spec)) (created_addrs (ms_model spec)) cre always.
Proof.
  unfold models. rewrite !elem_of_cons, elem_of_nil. intros H.
  repeat destruct H as [->|H]; [..|done]; (eexists; split; [reflexivity|]; split; [done|]).
  - apply creates_ovni.
  - apply (creates_more _ nanos6_th_spec nanos6_cpu_spec); [spec_tac|by apply creates_nothing_zero..|].
    apply uses_then; [apply creates_init_procs|intros _]. apply creates_breakdown_create. intros c. by apply creates_bd_cpu.
  - apply creates_nosv.
  - apply (creates_simple _ nodes_th_spec nodes_cpu_spec); [spec_tac|by apply creates_nothing_zero..].
  - apply (creates_simple _ tampi_th_spec tampi_cpu_spec); [spec_tac|by apply creates_nothing_zero..].
  - apply (creates_simple _ mpi_th_spec mpi_cpu_spec); [spec_tac|by apply creates_nothing_zero..].
  - apply (creates_simple _ kernel_th_spec kernel_cpu_spec); [spec_tac|by apply creates_nothing_zero..].
  - apply (creates_more _ openmp_th_spec openmp_cpu_spec); [spec_tac|by apply creates_nothing_zero..|].
    apply uses_then; [apply creates_init_procs|intros _]. apply creates_breakdown_create. intros c. by apply creates_bd_cpu_one.
  - eapply uses_mono; [apply (creates_thread ths cpus sys0 threads_nodup xtasks_th_spec)|by left|by left|done];
      [by intros t i m H|by apply creates_nothing_zero].
Qed.

Lemma creates_models md l : known md -> NoDup l -> (forall i, i ∈ l -> 0 <= i) ->
  creates (fun a => exists i, i ∈ l /\ created_addrs i a) (fun a => exists i, i ∈ l /\ created_addrs i a) (hook_loop ms_create md l) always.
Proof.
  intros HK. induction l as [|i l IH]; intros Hl Hp; simpl.
  { by apply creates_nothing. }
  apply list.NoDup_cons in Hl as [Hi Hl]. assert (forall j, j ∈ l -> 0 <= j) as Hp' by (intros j ?; apply Hp; by right).
  assert (0 <= i) as Hi0 by (apply Hp; by left). case_bool_decide as Hen.
  { eapply uses_mono; [by apply IH|..]; [intros a (j & ? & ?)..|done]; (exists j; split; [by right|done]). }
  apply (uses_read created (fun spec => md_spec md !! i = Some spec)).
  { intros e spec e' _ [Hs ->]%deref_Ok. by split. }
  intros spec Hs. destruct (HK i spec Hs) as (s & Hin & Es & -> & _). destruct (models_create s Hin) as (cre & -> & _ & Hcre).
  rewrite Es in Hcre. apply (uses_first created (created_addrs i) (created_addrs i) (fun a => exists j, j ∈ l /\ created_addrs j a)).
  - exact Hcre.
  - intros _. eapply uses_mono; [by apply IH|done| |done]. intros a (j & ? & ?). exists j. split; [by right|done].
  - intros a H. exists i. split; [by left|done].
  - intros a (j & ? & ?). exists j. split; [by right|done].
  - intros a H. exists i. split; [by left|done].
  - intros a (j & Hj & H1) H2. assert (i = j) as -> by (apply (created_addrs_inj i j a); [done|by apply Hp'|done|done]). done.
Qed.
End Create.
