(* ===== verification/Starting.v ===== *)
(** * The patch bay when the models start

    The construction of the system makes the channels of threads and CPUs, none
    of them registered, and no callback; [system_connect] registers them and
    their rows.  What the set-up of the models builds on is a consistent bay
    with callbacks of rows only ([stage]). *)

From stdpp Require Import pretty.
From S2P Require Import Prelude Tree Chan Pcf Heap Bay Mux Sort Prv Dispatch Thread Loom Event OvniModel OvniCorrect.
From S2P Require Import Coherence Model Emu Rt Stream Recorder System SystemCorrect ConnectCorrect Offsets Ready.
From S2P Require Import Json Track Network Effect Flow Wiring Connecting Creating.

(** ** Construction *)

(** The channels of the threads and CPUs that exist. *)
Definition th_ids : list nat := map (fun x => x.1.1.1.1) th_chan_table.
Definition cpu_ids : list nat := map (fun x => x.1.1.1) cpu_chan_table.
Definition system_chan (h : heap) (a : addr) : Prop :=
  (exists t i, a = th_chan t i /\ is_Some (h_thread h !! t) /\ i ∈ th_ids) \/
  (exists c i, a = cpu_chan c i /\ is_Some (h_cpu h !! c) /\ i ∈ cpu_ids).

Record early (h : heap) : Prop := {
  ea_cb : h_cb h = ∅;
  ea_sort : h_sort h = ∅;
  ea_chan : forall a c, h_chan h !! a = Some c -> system_chan h a /\ c_dirty_arg c = None /\ c_is_dirty c = false;
  ea_mark : mark_ok (h_mark h)
}.

(** No thread or CPU disappears. *)
Definition grows (h h' : heap) : Prop :=
  (forall t, is_Some (h_thread h !! t) -> is_Some (h_thread h' !! t)) /\ (forall c, is_Some (h_cpu h !! c) -> is_Some (h_cpu h' !! c)).

Lemma grows_chan h h' a : grows h h' -> system_chan h a -> system_chan h' a.
Proof.
  intros [G1 G2] [(t & i & ? & ? & ?)|(c & i & ? & ? & ?)]; [left; exists t, i|right; exists c, i]; auto.
Qed.

Lemma early_ext h h' : h_cb h' = h_cb h -> h_sort h' = h_sort h -> h_chan h' = h_chan h -> h_mark h' = h_mark h -> grows h h' -> early h -> early h'.
Proof.
  intros E1 E2 E3 E4 HG [H1 H2 H3 H4]. split; rewrite ?E1, ?E2, ?E3, ?E4; try done. intros a c Hc. destruct (H3 a c Hc) as (? & ? & ?).
  split_and!; [by eapply grows_chan|done..].
Qed.

Lemma early_mod f : (forall h, h_cb (f h) = h_cb h /\ h_sort (f h) = h_sort h /\ h_chan (f h) = h_chan h /\ h_mark (f h) = h_mark h /\ grows h (f h)) ->
  keeps_ok early (mmod f).
Proof. intros Hf. apply keeps_ok_mod. intros h. destruct (Hf h) as (? & ? & ? & ? & ?). by apply early_ext. Qed.

Ltac grows_tac := split; intros ? ?; simpl;
  first [done | by apply lookup_insert_is_Some'; right | by apply lookup_alter_is_Some].
Ltac early_mod_tac := apply early_mod; intros ?; split_and!; [done|done|done|done|grows_tac].

Lemma chan_with_meta props c : c_dirty_arg (chan_with props c) = c_dirty_arg c /\ c_is_dirty (chan_with props c) = c_is_dirty c.
Proof. unfold chan_with. revert c. induction props as [|[p x] l IH]; intros c; simpl; [done|]. destruct (IH (chan_prop_set p x c)) as [-> ->]. done. Qed.

(** Making the channels of a thread or a CPU that exists. *)
Lemma init_chan_early (A : heap -> Prop) a ty name props : (forall h, A h -> system_chan h a) ->
  (forall h h', h_thread h' = h_thread h -> h_cpu h' = h_cpu h -> A h -> A h') ->
  keeps_ok (fun h => early h /\ A h) (init_chan a ty name props).
Proof.
  intros Ha HA h [] h' [[H1 H2 H3] Hh] E. unfold init_chan, chan_init in E. destruct (MAX_CHAN_NAME <=? _); [discriminate|].
  unfold store in E. cbn in E. injection E as <-. split; [|by apply (HA h)]. split; simpl; [done..| |done]. intros b c.
  destruct (decide (b = a)) as [->|]; [|rewrite lookup_insert_ne by done; apply H3].
  rewrite lookup_insert_eq. intros [= <-]. split; [exact (Ha h Hh)|]. apply chan_with_meta.
Qed.

Ltac early_tac :=
  repeat first
    [ co_bind | quiet_step | solve [apply keeps_ok_quiet; auto with ovni]
    | solve [early_mod_tac]
    | lazymatch goal with |- keeps_ok _ (for_each _ _) => apply for_each_keeps_ok; intros ? end
    | lazymatch goal with |- keeps_ok _ (match _ with _ => _ end) => case_match end
    | lazymatch goal with |- keeps_ok _ (if _ then _ else _) => case_match end ].

Lemma for_each_keeps_ok_in {S B} (I : S -> Prop) (f : B -> M S unit) l : (forall b, b ∈ l -> keeps_ok I (f b)) -> keeps_ok I (for_each f l).
Proof.
  induction l as [|b l IH]; intros Hf; simpl; [apply keeps_ok_quiet; quiet_tac|].
  apply keeps_ok_bind; [apply Hf; by left|intros _; apply IH; intros c Hc; apply Hf; by right].
Qed.

Lemma thread_init_end_early t : keeps_ok early (thread_init_end t).
Proof.
  intros h [] h' Hh E. unfold thread_init_end in E. apply mbind_Ok in E as (th & ? & [Ht ->]%load_thread_Ok & E).
  do 2 (case_match; [discriminate|]). apply mbind_Ok in E as ([] & h1 & E1 & [= <-]).
  assert (early h1 /\ is_Some (h_thread h1 !! t)) as [H1 _].
  { refine (for_each_keeps_ok_in (fun h => early h /\ is_Some (h_thread h !! t)) _ th_chan_table _ h tt h1 _ E1);
      [|split; [done|by eexists]].
    intros [[[[i nm] props] ty] fl] Hin. apply init_chan_early; [|by intros ? ? ->].
    intros s Hs. left. exists t, i. split_and!; [done..|].
    apply list_elem_of_In, (List.in_map (fun x => x.1.1.1.1) _ _ (proj1 (list_elem_of_In _ _) Hin)). }
  revert H1. apply early_ext; [done..|]. grows_tac.
Qed.

Lemma cpu_init_end_early c : keeps_ok early (cpu_init_end c).
Proof.
  intros h [] h' Hh E. unfold cpu_init_end in E. apply mbind_Ok in E as (cp & ? & [Hc ->]%load_cpu_Ok & E).
  case_match; [discriminate|]. apply mbind_Ok in E as (? & ? & [_ ->]%found_Ok & E). apply mbind_Ok in E as ([] & h1 & E1 & [= <-]).
  assert (early h1 /\ is_Some (h_cpu h1 !! c)) as [H1 _].
  { refine (for_each_keeps_ok_in (fun h => early h /\ is_Some (h_cpu h !! c)) _ cpu_chan_table _ h tt h1 _ E1);
      [|split; [done|by eexists]].
    intros [[[i nm] ty] fl] Hin. apply init_chan_early; [|by intros ? ? _ ->].
    intros s Hs. right. exists c, i. split_and!; [done..|].
    apply list_elem_of_In, (List.in_map (fun x => x.1.1.1) _ _ (proj1 (list_elem_of_In _ _) Hin)). }
  revert H1. apply early_ext; [done..|]. grows_tac.
Qed.

Lemma create_proc_early l md : keeps_ok early (create_proc l md).
Proof.
  unfold create_proc, new_proc, proc_load_metadata, load_appid, load_rank, loom_add_proc, load_loom, load_proc, upd_proc, upd_loom.
  early_tac.
Qed.

Lemma create_thread_early p md : keeps_ok early (create_thread p md).
Proof.
  unfold create_thread, thread_load_metadata, proc_add_thread, load_thread, load_proc, upd_proc, upd_thread, put_thread.
  early_tac.
Qed.

Lemma loom_load_metadata_early l md : keeps_ok early (loom_load_metadata l md).
Proof.
  unfold loom_load_metadata, load_cpus, load_cpu_entry, loom_add_cpu, load_loom, load_cpu, put_cpu, upd_loom, upd_cpu. early_tac.
Qed.

Lemma loom_init_begin_early name : keeps_ok early (loom_init_begin name).
Proof. unfold loom_init_begin, put_cpu. early_tac. Qed.

Lemma ranks_of_early looms a b : keeps_ok early (ranks_of looms a b).
Proof.
  revert a b. induction looms as [|l looms IH]; intros a b; simpl; [quiet_step|].
  co_bind; [|co_bind; [apply keeps_ok_quiet, quiet_load_loom|case_match; apply IH]].
  unfold loom_set_rank_min, min_rank_step, load_loom, load_proc, upd_loom.
  repeat first [apply keeps_ok_quiet, quiet_any_rank | progress early_tac].
Qed.

Lemma loom_sort_early l : keeps_ok early (loom_sort l).
Proof. unfold loom_sort, proc_sort, load_loom, upd_loom, upd_proc. early_tac. Qed.

Lemma init_end_loom_early l : keeps_ok early (init_end_loom l).
Proof.
  unfold init_end_loom, init_end_proc, proc_init_end, loom_init_end, fill_entry, load_loom, load_proc, load_cpu, upd_proc, upd_loom.
  repeat first [apply thread_init_end_early | apply cpu_init_end_early | progress early_tac].
Qed.

Lemma match_host_early looms e n : keeps_ok early (match_host looms e n).
Proof.
  revert n. induction looms as [|l looms IH]; intros n; simpl; [quiet_step|]. unfold load_loom, upd_loom.
  repeat first [apply IH | progress early_tac].
Qed.

Definition early_s (s : syst) : Prop := early (st_heap s).

Lemma in_heap_early {A} (m : M heap A) : keeps_ok early m -> keeps_ok early_s (in_heap m).
Proof.
  intros Hm s a s' Hs E. unfold in_heap in E. destruct (m (st_heap s)) as [r h] eqn:Em. injection E as -> <-. by eapply Hm.
Qed.

Lemma on_sys_early f : keeps_ok early_s (on_sys f).
Proof. by apply keeps_ok_mod. Qed.

Lemma in_stream_early {A} i (m : M stream A) : keeps_ok early_s (in_stream i m).
Proof. intros s a s' Hs E. unfold in_stream in E. case_match; [|discriminate]. case_match. by injection E as _ <-. Qed.

Lemma get_s_early : keeps_ok early_s mget.
Proof. by intros s a s' Hs [= <- <-]. Qed.

Ltac early_s_tac :=
  repeat first
    [ co_bind | apply get_s_early | apply on_sys_early | apply in_stream_early | quiet_step
    | lazymatch goal with |- keeps_ok _ (in_heap _) => apply in_heap_early end
    | lazymatch goal with |- keeps_ok _ (for_each _ _) => apply for_each_keeps_ok; intros ? end
    | solve [eauto 2 using create_proc_early, create_thread_early, loom_load_metadata_early, loom_init_begin_early,
        ranks_of_early, loom_sort_early, init_end_loom_early, match_host_early]
    | solve [apply keeps_ok_quiet; eauto 2 using quiet_find_loom, quiet_load_loom, quiet_load_proc, quiet_count_physical]
    | lazymatch goal with |- keeps_ok _ (match _ with _ => _ end) => case_match end
    | lazymatch goal with |- keeps_ok _ (if _ then _ else _) => case_match end ].

Lemma system_init_early trace file : keeps_ok early_s (system_init trace file).
Proof.
  unfold system_init, create_system, create_stream, create_loom, is_thread_stream, set_sort_criteria, sort_lpt, init_global_lists,
    list_loom, list_proc, init_global_indices, init_end_system, report_libovni_version, load_clock_offsets, init_offsets,
    parse_clkoff_entry, stream_offset, number.
  early_s_tac.
  all: try solve [unfold upd_loom, upd_proc, upd_thread, upd_cpu; early_mod_tac].
Qed.

(** ** Connection *)

(** A loop that registers the channels [reg]. *)
Lemma loop_registers {S B} (I : (addr -> Prop) -> S -> Prop) (f : B -> M S unit) (reg : B -> addr -> Prop) l :
  (forall P P' s, (forall a, P a -> P' a) -> I P s -> I P' s) ->
  (forall b P s s', I P s -> f b s = (Ok tt, s') -> I (fun a => P a /\ ~ reg b a) s') ->
  forall P s s', I P s -> for_each f l s = (Ok tt, s') -> I (fun a => P a /\ forall b, b ∈ l -> ~ reg b a) s'.
Proof.
  intros Hmono Hf. induction l as [|b l IH]; intros P s s' Hs E; simpl in E.
  - injection E as <-. revert Hs. apply Hmono. intros a Ha. split; [done|]. by intros ? ?%elem_of_nil.
  - apply mbind_Ok in E as ([] & s1 & E1 & E). apply (Hf b P) in E1; [|done]. specialize (IH _ _ _ E1 E).
    revert IH. apply Hmono. intros a [[Ha Hb] Hl]. split; [done|]. by intros c [->|Hc]%elem_of_cons; [|apply Hl].
Qed.

Section Connect.
Variable h0 : heap.
Notation stage := (stage (h_thread h0) (h_cpu h0)).

(** The channels are those of the system; those of [P] are left to register. *)
Definition staged (P : addr -> Prop) (h : heap) : Prop :=
  stage 0 0 P h /\ forall a, is_Some (h_chan h !! a) -> system_chan h0 a.

Lemma staged_mono P P' h : (forall a, P a -> P' a) -> staged P h -> staged P' h.
Proof. intros HP [H1 H2]. split; [|done]. by eapply stage_mono. Qed.

Lemma staged_register P a h h' : staged P h -> bay_register a h = (Ok tt, h') -> staged (fun b => P b /\ b <> a) h'.
Proof.
  intros [H1 H2] E. assert (exists c, h_chan h !! a = Some c) as [c Hc].
  { unfold bay_register in E. apply mbind_Ok in E as (c & ? & [Hc _]%load_Ok & _). by exists c. }
  destruct (stage_register _ _ _ _ _ _ _ _ _ H1 Hc E) as [HS Ech]. split; [done|]. intros b. rewrite Ech.
  rewrite lookup_insert_is_Some'. intros [<-|Hb]; apply H2; [by eexists|done].
Qed.

Lemma staged_row P p row ty a flags h h' : staged P h -> prv_register p row ty a flags h = (Ok tt, h') -> staged P h'.
Proof.
  intros [H1 H2] E. destruct (stage_prv_register _ _ _ _ _ _ _ _ _ _ _ _ H1 E) as [HS Ech]. split; [done|]. by rewrite Ech.
Qed.

Definition thread_chans (t : nat) (a : addr) : Prop := exists i, i ∈ th_ids /\ a = th_chan t i.
Definition cpu_chans (c : nat) (a : addr) : Prop := exists i, i ∈ cpu_ids /\ a = cpu_chan c i.

Lemma thread_connect_staged t p P h h' : staged P h -> thread_connect t p h = (Ok tt, h') ->
  staged (fun a => P a /\ ~ thread_chans t a) h'.
Proof.
  intros HS E. unfold thread_connect in E. apply mbind_Ok in E as (th & ? & [_ ->]%load_thread_Ok & E). case_match; [discriminate|].
  apply mbind_Ok in E as (pv & ? & [_ ->]%found_Ok & E).
  eapply (loop_registers staged _ (fun x a => a = th_chan t x.1.1.1.1)) in E; [|exact staged_mono| |exact HS].
  - revert E. apply staged_mono. intros a [Ha Hn]. split; [done|]. intros (i & Hi & ->).
    change th_ids with ((fun x : nat * string * list (chan_prop * Z) * Z * Z => x.1.1.1.1) <$> th_chan_table) in Hi.
    apply list_elem_of_fmap in Hi as (x & -> & Hx). by apply (Hn x Hx).
  - intros [[[[i nm] props] ty] fl] Q s s' Hs Es. apply mbind_Ok in Es as ([] & s1 & E1 & Es).
    apply (staged_register Q) in E1; [|done]. by eapply staged_row.
Qed.

Lemma cpu_connect_staged c p P h h' : staged P h -> cpu_connect c p h = (Ok tt, h') ->
  staged (fun a => P a /\ ~ cpu_chans c a) h'.
Proof.
  intros HS E. unfold cpu_connect in E. apply mbind_Ok in E as (cp & ? & [_ ->]%load_cpu_Ok & E). case_match; [discriminate|].
  apply mbind_Ok in E as (pv & ? & [_ ->]%found_Ok & E).
  eapply (loop_registers staged _ (fun x a => a = cpu_chan c x.1.1.1)) in E; [|exact staged_mono| |exact HS].
  - revert E. apply staged_mono. intros a [Ha Hn]. split; [done|]. intros (i & Hi & ->).
    change cpu_ids with ((fun x : nat * string * Z * Z => x.1.1.1) <$> cpu_chan_table) in Hi.
    apply list_elem_of_fmap in Hi as (x & -> & Hx). by apply (Hn x Hx).
  - intros [[[i nm] ty] fl] Q s s' Hs Es. apply mbind_Ok in Es as ([] & s1 & E1 & Es).
    apply (staged_register Q) in E1; [|done]. case_match; [by injection Es as <-|]. by eapply staged_row.
Qed.

Definition staged_s (P : addr -> Prop) (s : syst) : Prop := staged P (st_heap s).

Lemma name_thread_staged t P s s' : staged_s P s -> name_thread t s = (Ok tt, s') -> staged_s (fun a => P a /\ ~ thread_chans t a) s'.
Proof.
  intros HS E. unfold name_thread in E. apply mbind_Ok in E as ([] & s1 & E1 & E).
  unfold connect_thread in E1. apply mbind_Ok in E1 as (? & ? & [= <- <-] & E1).
  apply in_heap_Ok in E1 as (h1 & E1 & ->). apply (thread_connect_staged t _ P) in E1; [|exact HS].
  apply mbind_Ok in E as (th & s2 & E2 & E). apply in_heap_Ok in E2 as (h2 & [Ht ->]%load_thread_Ok & ->).
  apply mbind_Ok in E as (pr & s3 & E3 & E). apply in_heap_Ok in E3 as (h3 & [Hp ->]%load_proc_Ok & ->).
  apply mbind_Ok in E as (name & s4 & E4 & E). unfold row_name in E4. case_match; [discriminate|]. injection E4 as <- <-.
  apply in_rec_Ok in E as (r & h & E & ->). by apply on_prf_Ok in E as (-> & _).
Qed.

Lemma name_cpu_staged c P s s' : staged_s P s -> name_cpu c s = (Ok tt, s') -> staged_s (fun a => P a /\ ~ cpu_chans c a) s'.
Proof.
  intros HS E. unfold name_cpu in E. apply mbind_Ok in E as ([] & s1 & E1 & E).
  unfold connect_cpu in E1. apply mbind_Ok in E1 as (? & ? & [= <- <-] & E1).
  apply in_heap_Ok in E1 as (h1 & E1 & ->). apply (cpu_connect_staged c _ P) in E1; [|exact HS].
  apply mbind_Ok in E as (cp & s2 & E2 & E). apply in_heap_Ok in E2 as (h2 & [Ht ->]%load_cpu_Ok & ->).
  apply mbind_Ok in E as (l & s3 & [Hl ->]%deref_Ok & E).
  apply mbind_Ok in E as (lo & s4 & E4 & E). apply in_heap_Ok in E4 as (h4 & [Hlo ->]%load_loom_Ok & ->).
  apply mbind_Ok in E as ([] & s5 & E5 & E). apply in_rec_Ok in E5 as (r & h & E5 & ->). apply on_prf_Ok in E5 as (-> & _).
  apply in_rec_Ok in E as (r2 & h & E & ->). by apply on_pcf_Ok in E as [-> _].
Qed.
End Connect.

Lemma early_staged h : early h -> wired h -> staged h (system_chan h) (bay_init h).
Proof.
  intros [H1 H2 H3 H4] Hw. assert (forall a, system_chan h a -> match a_own a with OwnThread _ | OwnCpu _ => True | _ => False end) as Hown.
  { by intros a [(t & i & -> & _)|(c & i & -> & _)]. }
  split; [split; try done|].
  - split; simpl; unfold find_bay_chan; simpl.
    + intros name b. by rewrite lookup_empty.
    + intros a c name Ha Harg. destruct (H3 a c Ha) as (_ & ? & _). congruence.
    + apply NoDup_nil_2.
    + intros name. split; [by intros ?%elem_of_nil|]. intros (b & c & Hb & _). by rewrite lookup_empty in Hb.
    + intros name b ty id. by rewrite lookup_empty.
    + intros name b ty. by rewrite lookup_empty.
    + intros id cb. rewrite H1. by rewrite lookup_empty.
  - by apply (wired_ext h).
  - intros id cb. simpl. rewrite H1. by rewrite lookup_empty.
  - intros a c Ha. left. apply (H3 a c Ha).
  - intros a c Ha (n & Hs). destruct (H3 a c Ha) as (Hsys%Hown & _). by destruct Hs as [E|E]; rewrite E in Hsys.
  - intros a c Ha. destruct (H3 a c Ha) as (Hsys%Hown & _). unfold bounded. by destruct (a_own a).
  - intros s. simpl. rewrite H2, lookup_empty. by intros [].
  - intros a c Ha. apply (H3 a c Ha).
  - intros a [c Ha]. apply (H3 a c Ha).
Qed.

(** What the set-up of the system leaves. *)
Record started (s : syst) : Prop := {
  sd_stage : stage (h_thread (st_heap s)) (h_cpu (st_heap s)) 0 0 none (st_heap s);
  sd_chans : forall a, is_Some (h_chan (st_heap s) !! a) -> system_chan (st_heap s) a;
  sd_threads : indexed t_gindex (sys_threads (st_sys s)) (h_thread (st_heap s));
  sd_cpus : indexed cpu_gindex (sys_cpus (st_sys s)) (h_cpu (st_heap s));
  sd_count : sys_nthreads (st_sys s) = Z.of_nat (length (sys_threads (st_sys s)));
  sd_init_thread : forall t th, h_thread (st_heap s) !! t = Some th -> t_is_init th = true;
  sd_init_cpu : forall c cp, h_cpu (st_heap s) !! c = Some cp -> cpu_is_init cp = true
}.

Lemma emu_setup_started dir trace file streams s' : emu_setup dir trace file None (start streams) = (Ok tt, s') -> started s'.
Proof.
  intros E. unfold emu_setup in E. apply mbind_Ok in E as ([] & s1 & E1 & E).
  pose proof (system_init_ready _ _ _ _ _ _ E1) as R.
  assert (early (st_heap s1)) as HE.
  { apply (system_init_early trace file (start streams) tt s1); [|done]. split; try done. split; [done|split; [done|apply NoDup_nil_2]]. }
  apply mbind_Ok in E as ([] & s2 & E2 & E). apply in_rec_Ok in E2 as (r & h & E2 & ->).
  unfold recorder_init in E2. case_match; [discriminate|]. injection E2 as <- <-.
  apply mbind_Ok in E as ([] & s3 & E3 & E). apply in_heap_Ok in E3 as (h & [= <-] & ->). cbn [st_sys st_heap st_streams st_rec] in E.
  set (h := st_heap s1) in *. assert (wired (bay_init h)) as Hw by (apply (wired_ext h); [done..|apply R]).
  match type of E with system_connect None ?s0 = _ => destruct (system_connect_Ok s0 s' Hw E) as ([[_ W] Hs] & Ht & Hc & _) end. cbn [st_sys st_heap] in W, Hs, Ht, Hc.
  injection W as W1 W2 _ _ _ _. destruct R as [Rw _ _ _ _ R1 R2 (_ & _ & R3 & _)].
  assert (staged_s h none s') as [HS HC].
  { pose proof (early_staged h HE Rw) as H0. unfold system_connect in E. apply mbind_Ok in E as (? & ? & [= <- <-] & E).
    apply mbind_Ok in E as (p1 & s4 & E4 & E). apply in_rec_Ok in E4 as (r4 & h4 & E4 & ->).
    apply mbind_Ok in E as (p2 & s5 & E5 & E). apply in_rec_Ok in E5 as (r5 & h5 & E5 & ->). cbn [st_sys st_heap st_streams st_rec] in *.
    assert (forall name n r h0 p r' h', staged h (system_chan h) h0 -> recorder_add_pvt name n (r, h0) = (Ok p, (r', h')) -> staged h (system_chan h) h') as Hpvt.
    { clear. intros name n r h0 p r' h' [HS HC] E. unfold recorder_add_pvt in E. apply mbind_Ok in E as (? & ? & [= <- <-] & E). simpl in E.
      case_match; [done|]. apply mbind_Ok in E as (p1 & [r1 h1] & E1 & E). apply mbind_Ok in E as ([] & s2 & [= <-] & E). injection E as _ <- <-.
      unfold pvt_open in E1. do 3 (case_match; [discriminate|]). apply mbind_Ok in E1 as (? & ? & [= <- <-] & E1).
      apply mbind_Ok in E1 as ([] & s3 & E3 & E1). unfold Recorder.on_heap, prv_open_file, mmod in E3. injection E3 as <-. injection E1 as _ _ <-.
      split; [|exact HC]. apply (stage_ext _ _ 0 0 (system_chan h) h0); try done. apply HS. }
    pose proof (Hpvt _ _ _ _ _ _ _ H0 E4) as H4. pose proof (Hpvt _ _ _ _ _ _ _ H4 E5) as H5. clear E4 E5 H0 H4.
    apply mbind_Ok in E as ([] & s6 & E6 & E).
    apply (loop_registers (staged_s h) name_thread thread_chans _ (fun P P' s => staged_mono h P P' (st_heap s))
      (fun b P s s' => name_thread_staged h b P s s') (system_chan h)) in E6; [|exact H5].
    apply mbind_Ok in E as ([] & s7 & E7 & E). apply in_rec_Ok in E7 as (r7 & h7 & [-> _]%on_pcf_Ok & ->). cbn [st_sys st_heap st_streams st_rec] in E.
    eapply (loop_registers (staged_s h) name_cpu cpu_chans _ (fun P P' s => staged_mono h P P' (st_heap s))
      (fun b P s s' => name_cpu_staged h b P s s')) in E; [|exact E6].
    revert E. apply staged_mono. intros a [[[(t & i & -> & Hx & Hi)|(c & i & -> & Hx & Hi)] Hn] Hn'].
    - apply (Hn t); [|by exists i]. destruct R1 as [[_ R1]%lists_fmap _]. by apply R1.
    - apply (Hn' c); [|by exists i]. destruct R2 as [[_ R2]%lists_fmap _]. by apply R2. }
  simpl in W1, W2. change (h_thread h) with (h_thread (bay_init h)) in R1.
  split; rewrite ?W1, ?W2, ?Hs.
  - exact HS.
  - intros a Ha. specialize (HC a Ha). unfold system_chan in *. by rewrite W1, W2.
  - by eapply (numbered_indexed thread_id).
  - by eapply (numbered_indexed cpu_id).
  - exact R3.
  - intros t th Eth. destruct (Ht t) as (th' & ? & ?); [|simpl in *; congruence]. destruct R1 as [[_ R1]%lists_fmap _]. apply R1. by eexists.
  - intros c cp Ecp. destruct (Hc c) as (cp' & ? & ?); [|simpl in *; congruence]. destruct R2 as [[_ R2]%lists_fmap _]. apply R2. by eexists.
Qed.
