(* ===== verification/Emulation.v ===== *)
(** * The emulator from the trace to the rows (src/emu/emu.c)

    A trace that is set up, connected and run with success: its models created
    their channels and tracks and connected them, so that after any events every
    track shows what it is for. *)

From Stdlib Require Import Ascii.
From S2P Require Import Prelude Tree Footprint Chan Pcf Heap Bay Mux Sort Prv Dispatch Network Thread Loom Event EvLists OvniModel OvniCorrect.
From S2P Require Import Coherence Model Emu Table Mpi Tampi Nodes Kernel TaskModel Nosv Nanos6 Openmp Hooks Roster Stream Recorder.
From S2P Require Import System SystemCorrect ConnectCorrect Ready Json Track ModelThread Mark Hwc Breakdown Specs Setups Registry.
From S2P Require Import Effect Flow FlowHooks Views Wiring Connecting Running ModelConnect Creating Starting.

(** ** The models of the program *)

Lemma models_events s event : s ∈ models -> ms_event s = Some event -> EventHook event /\ FlowHook event /\ RosterHook event.
Proof.
  unfold models. rewrite !elem_of_cons, elem_of_nil. intros H.
  repeat destruct H as [->|H]; [..|done]; intros [= <-]; (split; [|split]); apply _.
Qed.

Section Registered.
Variable md : model emu.
Hypothesis Hmd : registered_from models md.

Lemma registered_good : GoodModels md.
Proof. split. intros i spec event (s & ? & ? & Hs & _ & _ & _ & ->)%Hmd He. by apply (models_events s event). Qed.
Lemma registered_flow : FlowModels md.
Proof. split. intros i spec event (s & ? & ? & Hs & _ & _ & _ & ->)%Hmd He. by apply (models_events s event). Qed.
Lemma registered_roster : RosterModels md.
Proof. split. intros i spec event (s & ? & ? & Hs & _ & _ & _ & ->)%Hmd He. by apply (models_events s event). Qed.
Lemma registered_known : known md.
Proof. intros i spec (s & ? & ? & Hs & ? & _ & _ & ->)%Hmd. by exists s. Qed.
End Registered.

Lemma version_probe_quiet name version : quiet (version_probe name version).
Proof. unfold version_probe. apply quiet_bind; [quiet_tac|]. intros e. apply quiet_bind; [quiet_tac|]. by intros metas s. Qed.

Lemma models_probe s probe : s ∈ models -> ms_probe s = Some probe -> quiet probe.
Proof.
  unfold models. rewrite !elem_of_cons, elem_of_nil. intros H.
  repeat destruct H as [->|H]; [..|done]; intros [= <-]; try apply version_probe_quiet.
  apply quiet_bind; [apply version_probe_quiet|by intros ?].
Qed.

(** Probing only enables models. *)
Lemma probe_Ok all l md e md' e' : registered_from models md -> probe_loop all l md e = (Ok md', e') ->
  e' = e /\ md_spec md' = md_spec md.
Proof.
  revert md. induction l as [|i l IH]; intros md Hmd E; simpl in E; [by injection E as <- <-|].
  case_bool_decide; [by apply (IH md)|]. apply mbind_Ok in E as (spec & ? & [Hs ->]%deref_Ok & E).
  destruct (ms_probe spec) as [probe|] eqn:Ep; [|by apply (IH md)].
  apply mbind_Ok in E as (ret & e1 & E1 & E). destruct (Hmd i spec Hs) as (s & ? & ? & Hin & _ & _ & _ & ->).
  pose proof (quiet_Ok _ _ _ _ (models_probe s probe Hin Ep) E1) as ->. case_match; [done|].
  apply IH in E; [|by case_match]. destruct E as [-> E]. split; [done|]. by rewrite E; case_match.
Qed.

(** ** Set-up *)

Record prepared (s0 : syst) (md : model emu) (e : emu) : Prop := {
  pr_started : started s0;
  pr_created : created (h_thread (st_heap s0)) (h_cpu (st_heap s0)) (st_sys s0) e;
  pr_models : registered_from models md
}.

Lemma model_range_ok : NoDup model_range /\ forall i, i ∈ model_range <-> 0 <= i < 256.
Proof. split; [apply NoDup_seqZ|]. intros i. unfold model_range, MAX_MODELS. rewrite elem_of_seqZ. lia. Qed.

(** A model's channel is none of the system's. *)
Lemma created_not_system z a h : created_addrs z a -> ~ system_chan h a.
Proof.
  unfold created_addrs, all_model_addrs, model_addrs, mark_addrs, hwc_addrs.
  intros Hz [(t & i & -> & _)|(c & i & -> & _)]; simpl in Hz; naive_solver.
Qed.

Lemma ext_wf_zero : ext_wf (fun _ => None) (fun _ => None) extn_zero.
Proof.
  assert (forall n i, track_at extn_zero n i = None) as Ht by (by intros n i).
  split.
  - intros n i tk. by rewrite Ht.
  - intros k b Hb. unfold extn_zero in Hb; cbn in Hb; by rewrite lookup_empty in Hb.
  - intros m t n Hn. unfold extn_zero in Hn; cbn in Hn; by rewrite lookup_empty in Hn.
  - intros m t n Hn. unfold extn_zero in Hn; cbn in Hn; by rewrite lookup_empty in Hn.
  - intros t n Hn. unfold extn_zero in Hn; cbn in Hn; by rewrite lookup_empty in Hn.
  - intros t n Hn. unfold extn_zero in Hn; cbn in Hn; by rewrite lookup_empty in Hn.
  - intros t n Hn. unfold extn_zero in Hn; cbn in Hn; by rewrite lookup_empty in Hn.
  - intros t n Hn. unfold extn_zero in Hn; cbn in Hn; by rewrite lookup_empty in Hn.
  - by intros m [].
  - by intros n [].
  - intros n o i tk m [=].
Qed.

Lemma on_syst_Ok {B} (m : M syst B) e b e' : on_syst m e = (Ok b, e') -> exists s, m (em_sys e) = (Ok b, s) /\
  e' = mk_emu (em_args e) (em_meta e) s (em_ext e) (em_finished e) (em_xtasks e).
Proof. unfold on_syst. destruct (m (em_sys e)) as [r s]. intros [= -> <-]. by exists s. Qed.

Lemma models_registered md : models_register models model_init = Some md -> registered_from models md.
Proof. apply (models_register_from models [] model_init md). intros i spec. simpl. by rewrite lookup_empty. Qed.

#[local] Opaque model_range.

(** The models create their channels. *)
Lemma model_create_created s0 md e0 e : started s0 -> registered_from models md -> em_sys e0 = s0 -> em_ext e0 = extn_zero ->
  model_create md e0 = (Ok tt, e) -> created (h_thread (st_heap s0)) (h_cpu (st_heap s0)) (st_sys s0) e.
Proof.
  intros Hs Hmd Esys Eext E. unfold model_create in E. destruct model_range_ok as [Hr1 Hr2].
  pose proof (creates_models (h_thread (st_heap s0)) (h_cpu (st_heap s0)) (st_sys s0) (ix_nodup _ _ _ (sd_threads _ Hs)) md model_range
    (registered_known md Hmd) Hr1 (fun i Hi => proj1 (proj1 (Hr2 i) Hi))) as Hcr.
  apply (Hcr e0 tt e); [..|exact E].
  - exists (fun _ => None), (fun _ => None). split; [rewrite Eext; exact ext_wf_zero| |by rewrite Esys].
    unfold heap_of. rewrite Eext, Esys. exact (sd_stage _ Hs).
  - intros a (i & _ & Ha) _. destruct (h_chan (heap_of e0) !! a) as [c|] eqn:Ec; [|done]. exfalso.
    apply (created_not_system i a (st_heap s0) Ha), (sd_chans _ Hs). exists c. unfold heap_of in Ec. by rewrite Esys in Ec.
Qed.

Lemma emu_init_prepared all tr args md e : emu_init all tr (emu_zero args tr) = (Ok md, e) -> exists s0, prepared s0 md e.
Proof.
  intros E. apply mbind_Ok in E as ([] & e0 & E0 & E). apply on_syst_Ok in E0 as (s0 & E0 & Ee0).
  apply emu_setup_started in E0. exists s0.
  apply mbind_Ok in E as (md0 & ? & [Hreg ->]%found_Ok & E). apply models_registered in Hreg.
  apply mbind_Ok in E as (md1 & e1 & E1 & E). apply probe_Ok in E1 as [-> Hspec]; [|done].
  assert (registered_from models md1) as Hmd1 by (intros i spec; rewrite Hspec; apply Hreg).
  apply mbind_Ok in E as ([] & e2 & E2 & E). injection E as <- <-.
  split; [done| |done]. apply (model_create_created s0 md1 e0); [done|done|by rewrite Ee0|by rewrite Ee0|exact E2].
Qed.

(** ** Connection *)

(** The network before any multiplexer. *)
Lemma created_wired O A s0 e : created_at (h_thread (st_heap s0)) (h_cpu (st_heap s0)) (st_sys s0) O A none e -> started s0 ->
  wired_e (em_ext e) (st_sys s0) (h_thread (st_heap s0)) (h_cpu (st_heap s0)) (h_mark (heap_of e)) e.
Proof.
  intros [W S Ys] Hs. destruct S as [S1 S2 S3 S4 S5 S6 S7 S8 S9 S10 S11 S12]. split; try done.
  assert (h_mux (heap_of e) = ∅) as Em by apply S3.
  assert (forall id cb m i, h_cb (heap_of e) !! id = Some cb -> cb_func cb = FnInput m i -> False) as Hni.
  { intros id cb m i Hcb Hf. destruct (S4 id cb Hcb) as (? & ? & Hp & _). congruence. }
  assert (forall id cb m, h_cb (heap_of e) !! id = Some cb -> cb_func cb = FnSelect m -> False) as Hns.
  { intros id cb m Hcb Hf. destruct (S4 id cb Hcb) as (? & ? & Hp & _). congruence. }
  assert (forall m mx, h_mux (heap_of e) !! m = Some mx -> False) as Hnm by (intros m mx; by rewrite Em, lookup_empty).
  split; try done.
  - split; [|by intros m mx inp id ?%Hnm]. intros id cb Hcb. by destruct (S4 id cb Hcb) as (? & ? & -> & ->).
  - apply wired_coherent; [done|..]; [intros t th; rewrite S9; apply Hs|intros c cp; rewrite S10; apply Hs].
  - intros a c Hc. destruct (S5 a c Hc) as [[]|Harg]. destruct (bi_arg _ S1 a c _ Hc Harg) as (b & Hb & Ha). by exists c, b.
  - intros a c Hc _. by apply (b_chan _ S3 a c Hc).
  - by intros id cb m ? ?%(Hns id cb m).
  - by intros id cb m i ? ?%(Hni id cb m i).
  - by intros m mx ?%Hnm.
  - by intros id cb m i ? ?%(Hni id cb m i).
  - by intros id cb m ? ?%(Hns id cb m).
Qed.

(** What the emulator starts from, once connected: [ea] is the state before the
    first propagation. *)
Record connected_e (s0 : syst) (md : model emu) (e1 ea e : emu) : Prop := {
  ct_wired : wired_e (em_ext e1) (st_sys s0) (h_thread (st_heap s0)) (h_cpu (st_heap s0)) (h_mark (heap_of e1)) ea;
  ct_tracked : forall z, z ∈ model_range -> z ∈ md_enabled md ->
    model_tracked (em_ext e1) (st_sys s0) (h_thread (st_heap s0)) (h_mark (heap_of e1)) z ea;
  ct_ext : em_ext e = em_ext ea;
  ct_sys : st_sys (em_sys e) = st_sys (em_sys ea);
  ct_coherent : coherent (heap_of e);
  ct_calm : calm (heap_of e);
  ct_linked : linked (conn_of <$> h_mux (heap_of ea)) (heap_of e);
  ct_roster : roster (heap_of e) = roster (heap_of ea)
}.

Lemma emu_connect_connected O A s0 md fuel e1 e :
  created_at (h_thread (st_heap s0)) (h_cpu (st_heap s0)) (st_sys s0) O A none e1 -> started s0 -> registered_from models md ->
  emu_connect md fuel e1 = (Ok tt, e) -> exists ea, connected_e s0 md e1 ea e.
Proof.
  intros Hc Hs Hmd E. unfold emu_connect in E. apply mbind_Ok in E as ([] & ea & E1 & (E2 & Ex & Es)%on_heap_Ok).
  pose proof (created_wired O A s0 e1 Hc Hs) as HW. destruct model_range_ok as [Hr1 Hr2]. destruct Hc as [W S Ys].
  pose proof (sg_marks _ _ _ _ _ _ S) as Hmk.
  destruct (connects_models (em_ext e1) (st_sys s0) (h_thread (st_heap s0)) (h_cpu (st_heap s0)) (h_mark (heap_of e1)) O A W) with
    (md := md) (l := model_range) (s := e1) (a := tt) (s' := ea) as (HWa & _ & Htr); try done.
  - rewrite (sd_count _ Hs). lia.
  - apply Hs.
  - apply Hs.
  - by apply mark_nodup.
  - by apply registered_known.
  - intros m _. simpl. rewrite (b_mux _ (sg_wired _ _ _ _ _ _ S)). by rewrite lookup_empty.
  - exists ea. pose proof (we_net _ _ _ _ _ _ HWa) as Hnet.
    assert (coherent (heap_of ea)) as Hco by (eapply wiring_coherent; [exact (fun m a => slot_scratch O A _ m a W)|exact Hnet]).
    assert (flowing (heap_of ea)) as Hfl.
    { eapply wiring_flowing; [exact (fun m m' a => slot_inj O A _ m m' a W)|exact (fun m a => slot_scratch O A _ m a W)|exact Hnet]. }
    destruct (propagate_flows fuel _ _ Hco Hfl E2) as [Hcalm Hl].
    apply (bay_propagate_coherent (h_thread (heap_of ea)) fuel _ tt) in E2 as Hco'; [|by apply coherent_at_self].
    apply (roster_propagate (roster (heap_of ea)) fuel _ tt) in E2; [|done].
    split; try done. apply Hco'.
Qed.

(** ** What the tracks show *)

(** A track of thread [t]: the value of channel [a] while the thread is in the
    states of the track, and nothing else. *)
Definition follows_thread (t : nat) (a : addr) (tk : track) (h : heap) : Prop :=
  forall th v, h_thread h !! t = Some th -> shows h a v -> tk_mode tk <> TRACK_TH_ANY ->
  shows h (tk_ch tk) (if shown_in (bool_decide (tk_mode tk = TRACK_TH_ACT)) (t_state th) then v else value_null).

(** A track of CPU [c]: the value of the channel of the thread that runs there,
    if the CPU is physical; with no thread running, the default of its
    multiplexer or nothing. *)
Definition follows_cpu (c : nat) (inp : nat -> addr) (tk : track) (h : heap) : Prop :=
  (forall cp t th p, h_cpu h !! c = Some cp -> cpu_is_virtual cp = false -> h_thread h !! t = Some th ->
    t_cpu th = Some c -> t_state th = TH_ST_RUNNING -> h_proc h !! t_proc th = Some p ->
    exists v, shows h (inp t) v /\ shows h (tk_ch tk) v) /\
  (forall cp, h_cpu h !! c = Some cp ->
    (forall u uh, h_thread h !! u = Some uh -> t_cpu uh = Some c -> t_state uh <> TH_ST_RUNNING) ->
    exists mx, h_mux h !! tk_mux tk = Some mx /\ (shows h (tk_ch tk) (m_def mx) \/ shows h (tk_ch tk) value_null)).

(** The tracks of a model in all threads and CPUs. *)
Definition thread_tracks_show (z : Z) (sp : model_obj_spec) (e : emu) : Prop :=
  forall t, is_Some (h_thread (heap_of e) !! t) -> exists n, x_thread (em_ext e) !! (z, t) = Some n /\
  forall i mode, chan_track (spec_chan sp) !! i = Some mode -> exists tk, track_at (em_ext e) n i = Some tk /\
  tk_mode tk = mode /\ follows_thread t (model_chan (spec_model sp) t i) tk (heap_of e).
Definition cpu_tracks_show (z : Z) (sp : model_obj_spec) (e : emu) : Prop :=
  forall c, is_Some (h_cpu (heap_of e) !! c) -> exists n, x_cpu (em_ext e) !! (z, c) = Some n /\
  forall i, (i < nch (spec_chan sp))%nat -> exists tk, track_at (em_ext e) n i = Some tk /\
  follows_cpu c (fun t => model_chan (spec_model sp) t i) tk (heap_of e).

(** The tracks of the marks of the types [types]. *)
Definition mark_tracks_show (types : list mark_type) (e : emu) : Prop :=
  (forall t, is_Some (h_thread (heap_of e) !! t) -> exists n, x_mark_th (em_ext e) !! t = Some n /\
    forall ty, ty ∈ types -> exists tk, track_at (em_ext e) n (Z.to_nat (mk_index ty)) = Some tk /\
    tk_mode tk = TRACK_TH_ACT /\ follows_thread t (mark_chan t (mk_index ty)) tk (heap_of e)) /\
  (forall c, is_Some (h_cpu (heap_of e) !! c) -> exists n, x_mark_cpu (em_ext e) !! c = Some n /\
    forall ty, ty ∈ types -> exists tk, track_at (em_ext e) n (Z.to_nat (mk_index ty)) = Some tk /\
    follows_cpu c (fun t => mark_chan t (mk_index ty)) tk (heap_of e)).

Lemma chan_specs_range z th cpu : (z, th, cpu) ∈ chan_specs -> z ∈ model_range /\ nch (spec_chan th) = length (chan_track (spec_chan th)).
Proof.
  intros H. split; [apply (proj2 model_range_ok)|]; revert H; unfold chan_specs; rewrite !elem_of_cons, elem_of_nil; intros H;
    repeat destruct H as [[= -> -> ->]|H]; done.
Qed.

Lemma same_ext_sym x0 x : same_ext x0 x -> same_ext x x0.
Proof. intros []. by split. Qed.

Lemma track_key_eq tk tk0 : track_key tk = track_key tk0 -> tk_mode tk = tk_mode tk0 /\ tk_ch tk = tk_ch tk0 /\ tk_mux tk = tk_mux tk0.
Proof. by intros [= -> -> ->]. Qed.

Section Shown.
Variables (s0 : syst) (x0 : extn) (ea e : emu).
Variables (O : nat -> option mux_owner) (A : nat -> option array_owner).
Hypothesis HX : ext_wf O A x0.
Hypothesis Hs : started s0.
Hypothesis Hth : h_thread (heap_of ea) = h_thread (st_heap s0).
Hypothesis Hrun : running x0 (st_sys s0) (conn_of <$> h_mux (heap_of ea)) (roster (heap_of ea)) e.

Lemma shown_views : views (h_mux (heap_of ea)) (heap_of e).
Proof. destruct (rn_calm _ _ _ _ _ Hrun) as (Hco & Hca & HC). by apply calm_views. Qed.

(** A track before and after the run. *)
Lemma shown_track n i tk : track_at x0 n i = Some tk -> exists tk', track_at (em_ext e) n i = Some tk' /\
  tk_mode tk' = tk_mode tk /\ tk_ch tk' = tk_ch tk /\ tk_mux tk' = tk_mux tk.
Proof.
  intros Ht. destruct (same_ext_track _ _ n i tk (same_ext_sym _ _ (rn_ext _ _ _ _ _ Hrun)) Ht) as (tk' & Ht' & (? & ? & ?)%track_key_eq).
  by exists tk'.
Qed.

Lemma shown_mux m mx : h_mux (heap_of ea) !! m = Some mx -> exists mx', h_mux (heap_of e) !! m = Some mx' /\ m_def mx' = m_def mx.
Proof.
  intros Hm. destruct (rn_calm _ _ _ _ _ Hrun) as (_ & _ & HC). unfold linked in HC.
  destruct (fmap_eq_lookup _ _ _ _ _ HC Hm) as (mx' & Hm' & E). exists mx'. split; [done|].
  unfold conn_of in E. congruence.
Qed.

(** The threads of the run are those of the start, with their indices. *)
Lemma shown_thread t th : h_thread (heap_of e) !! t = Some th -> t ∈ sys_threads (st_sys s0) /\
  exists th0, h_thread (st_heap s0) !! t = Some th0 /\ t_gindex th0 = t_gindex th.
Proof.
  intros Ht. pose proof (rn_roster _ _ _ _ _ Hrun) as [= E _ _]. rewrite Hth in E.
  destruct (fmap_eq_lookup _ _ _ _ _ (eq_sym E) Ht) as (th0 & Ht0 & Ew). split; [apply (ix_all _ _ _ (sd_threads _ Hs)); by exists th0|].
  exists th0. split; [done|]. unfold who in Ew. congruence.
Qed.

Lemma shown_cpu c : h_cpu (heap_of ea) = h_cpu (st_heap s0) -> is_Some (h_cpu (heap_of e) !! c) -> c ∈ sys_cpus (st_sys s0).
Proof.
  intros Hc [cp Hcp]. pose proof (rn_roster _ _ _ _ _ Hrun) as [= _ E _]. rewrite Hc in E.
  destruct (fmap_eq_lookup _ _ _ _ _ (eq_sym E) Hcp) as (cp0 & Hc0 & _). apply (ix_all _ _ _ (sd_cpus _ Hs)). by exists cp0.
Qed.

Lemma shows_thread t a tk tk' : thread_tracked t a tk (heap_of ea) -> tk_mode tk' = tk_mode tk -> tk_ch tk' = tk_ch tk ->
  follows_thread t a tk' (heap_of e).
Proof.
  intros HT Em Ec th v Ht Hv Hany. rewrite Em in *. destruct (HT Hany) as (mx & Hm & Hmx & Ho). rewrite Ec, <- Ho.
  by eapply (vw_thread _ _ shown_views).
Qed.

Lemma shows_cpu c inp tk tk' : cpu_tracked (st_sys s0) (h_thread (st_heap s0)) c inp tk (heap_of ea) -> tk_mux tk' = tk_mux tk -> tk_ch tk' = tk_ch tk ->
  follows_cpu c inp tk' (heap_of e).
Proof.
  intros (mx & Hm & Hct & Ho & Hin) Em Ec. split; rewrite Ec, <- Ho.
  - intros cp t th p Hcp Hv Ht Hon Hst Hp.
    destruct (vw_cpu _ _ shown_views _ _ c _ cp t th p Hm Hct Hcp Hv Ht Hon Hst Hp) as (a & v & Ha & Hva & Hvo).
    destruct (shown_thread t th Ht) as (Hin' & th0 & Ht0 & Eg). pose proof (Hin t th0 Hin' Ht0) as Ha'. rewrite Eg in Ha'.
    exists v. split; [|done]. by assert (a = inp t) as <- by congruence.
  - intros cp Hcp Hno. rewrite Em. destruct (shown_mux _ _ Hm) as (mx' & Hm' & Ed). exists mx'. rewrite Ed. split; [done|].
    by apply (vw_idle _ _ shown_views _ _ c _ cp Hm Hct).
Qed.
End Shown.

(** ** From the trace to the rows *)

(** A run of the emulator, from the trace on. *)
Lemma emulation_runs all tr args md e1 fuel e2 fuel' xs e :
  emu_init all tr (emu_zero args tr) = (Ok md, e1) -> emu_connect md fuel e1 = (Ok tt, e2) ->
  emu_steps md fuel' xs e2 = (Ok tt, e) ->
  exists s0 O A ea, ext_wf O A (em_ext e1) /\ started s0 /\ connected_e s0 md e1 ea e2 /\
  running (em_ext e1) (st_sys s0) (conn_of <$> h_mux (heap_of ea)) (roster (heap_of ea)) e.
Proof.
  intros E1 E2 E3. destruct (emu_init_prepared _ _ _ _ _ E1) as (s0 & [Hs (O & A & Hc) Hmd]).
  destruct (emu_connect_connected O A s0 md fuel e1 e2 Hc Hs Hmd E2) as (ea & Hct). pose proof (ce_ext _ _ _ _ _ _ _ Hc) as HX.
  exists s0, O, A, ea. do 3 (split; [done|]). destruct Hct as [HW _ Ex Es Hco Hca HC HR]. destruct HW as [_ Hext Hsys _ _ _].
  apply (runs_steps _ _ _ _ O A HX md fuel' xs (registered_good md Hmd) (registered_flow md Hmd) (registered_roster md Hmd) e2 tt e); [|exact E3].
  split; [by rewrite Ex|by rewrite Es|by split_and!|exact HR].
Qed.

(** C14. What the tracks show, from the trace on: take any trace that is
    set up and connected with success, with any models enabled, and any events
    processed with success, those of the FPGA, which connect its model late,
    included.  For every enabled model but that of the FPGA, every thread has
    its array of tracks, one for every channel in the mode the model declares,
    and a track with a multiplexer (its mode is to follow the running or the
    active thread) shows the value of the channel of the thread exactly while the
    thread runs (or is active), else nothing; every CPU has its array too, and
    while a thread runs on a physical CPU each track shows the value of that
    thread's channel, and with no thread running its default or nothing.  The same holds of the tracks of user marks, shown while
    the thread is active, and the channels of threads and CPUs agree with the
    system. *)
Theorem emulation_tracks all tr args md e1 fuel e2 fuel' xs e :
  emu_init all tr (emu_zero args tr) = (Ok md, e1) -> emu_connect md fuel e1 = (Ok tt, e2) ->
  emu_steps md fuel' xs e2 = (Ok tt, e) ->
  coherent (heap_of e) /\
  (forall z th cpu, (z, th, cpu) ∈ chan_specs -> z ∈ md_enabled md -> thread_tracks_show z th e /\ cpu_tracks_show z cpu e) /\
  (ch "O" ∈ md_enabled md -> mark_ntypes (h_mark (heap_of e1)) <> 0 -> mark_tracks_show (mark_types (h_mark (heap_of e1))) e).
Proof.
  intros E1 E2 E3. destruct (emulation_runs _ _ _ _ _ _ _ _ _ _ E1 E2 E3) as (s0 & O & A & ea & HX & Hs & Hct & Hrun).
  pose proof (ct_wired _ _ _ _ _ Hct) as HW. pose proof (we_threads _ _ _ _ _ _ HW) as Hth. pose proof (we_cpus _ _ _ _ _ _ HW) as Hcp.
  assert (forall t, is_Some (h_thread (heap_of e) !! t) -> t ∈ sys_threads (st_sys s0)) as HT.
  { intros t [th Ht]. by apply (shown_thread s0 (em_ext e1) ea e Hs Hth Hrun t th). }
  pose proof (fun c => shown_cpu s0 (em_ext e1) ea e Hs Hrun c Hcp) as HC. pose proof (rn_ext _ _ _ _ _ Hrun) as HE.
  split; [apply (rn_calm _ _ _ _ _ Hrun)|]. split.
  - intros z th cpu Hin Hen. destruct (chan_specs_range z th cpu Hin) as [Hz Hlen]. destruct (chan_specs_model z th cpu Hin) as [Ez Ez'].
    destruct (proj1 (ct_tracked _ _ _ _ _ Hct z Hz Hen) th cpu Hin) as [H1 H2]. split.
    + intros t Ht. destruct (H1 t (HT t Ht)) as (n & Hx & Htr). rewrite Ez in Hx. exists n. split; [by rewrite (se_thread _ _ HE)|].
      intros i mode Hi. destruct (Htr i) as (tk & Htk & Htt). { rewrite Hlen. by eapply lookup_lt_Some. }
      destruct (shown_track s0 (em_ext e1) ea e Hrun n i tk Htk) as (tk' & Htk' & Em & Ec & Ex). exists tk'. split; [done|]. split.
      * rewrite Em. apply (xw_mode _ _ _ HX n (AThread z t) i tk mode); [by apply (xw_thread _ _ _ HX)|done|by rewrite (thread_mode z th cpu)].
      * by eapply shows_thread.
    + intros c Hc. destruct (H2 c (HC c Hc)) as (n & Hx & Htr). rewrite Ez' in Hx. exists n. split; [by rewrite (se_cpu _ _ HE)|].
      intros i Hi. destruct (Htr i Hi) as (tk & Htk & Htt). destruct (shown_track s0 (em_ext e1) ea e Hrun n i tk Htk) as (tk' & Htk' & Em & Ec & Ex).
      exists tk'. split; [done|]. by eapply shows_cpu.
  - intros Hen Hn. destruct (proj2 (ct_tracked _ _ _ _ _ Hct (ch "O") ltac:(by apply (chan_specs_range _ ovni_th_spec ovni_cpu_spec); spec_tac) Hen) eq_refl Hn) as [H1 H2]. split.
    + intros t Ht. destruct (H1 t (HT t Ht)) as (n & Hx & Htr). exists n. split; [by rewrite (se_mark_th _ _ HE)|].
      intros ty Hty. destruct (Htr ty Hty) as (tk & Htk & Htt). destruct (shown_track s0 (em_ext e1) ea e Hrun n _ tk Htk) as (tk' & Htk' & Em & Ec & Ex).
      exists tk'. split; [done|]. split; [|by eapply shows_thread]. rewrite Em.
      by apply (xw_mode _ _ _ HX n (AMarkThread t) (Z.to_nat (mk_index ty)) tk TRACK_TH_ACT); [apply (xw_mark_th _ _ _ HX)|..].
    + intros c Hc. destruct (H2 c (HC c Hc)) as (n & Hx & Htr). exists n. split; [by rewrite (se_mark_cpu _ _ HE)|].
      intros ty Hty. destruct (Htr ty Hty) as (tk & Htk & Htt). destruct (shown_track s0 (em_ext e1) ea e Hrun n _ tk Htk) as (tk' & Htk' & Em & Ec & Ex).
      exists tk'. split; [done|]. by eapply shows_cpu.
Qed.

(** A trace of two threads on a CPU, with the models ovni, MPI and xtasks. *)
Definition tracked_meta (tid : Z) (cpus : list (string * json)) : json_object :=
  [("version", JSONNumber 3);
   ("ovni", JSONObject ([("part", JSONString "thread"); ("loom", JSONString "node.0"); ("pid", JSONNumber 20);
     ("tid", JSONNumber tid); ("finished", JSONNumber 1); ("app_id", JSONNumber 1);
     ("lib", JSONObject [("version", JSONString "1.11.0"); ("commit", JSONString "f1a2")]);
     ("require", JSONObject [("ovni", JSONString "1.1.0"); ("mpi", JSONString "1.0.0"); ("xtasks", JSONString "1.0.0")]);
     ("mark", JSONObject [("0", JSONObject [("title", JSONString "Phase"); ("chan_type", JSONString "single");
       ("labels", JSONObject [("1", JSONString "one")])])])] ++ cpus))]%string.
Definition tracked_trace : trace :=
  mk_trace "trace" [tracked_meta 21 [("loom_cpus", JSONArray [JSONObject [("index", JSONNumber 0); ("phyid", JSONNumber 4)]])]%string;
    tracked_meta 22 []] (NoFile false) [].
Definition tracked_event (t : nat) (m c v : ascii) (payload : list Z) (clock : Z) : ctx :=
  mk_ctx (mk_emu_ev (ch m) (ch c) (ch v) 0 0 clock true (Z.of_nat (length payload)) false (Some payload)) t 0 0.
Definition tracked_events : list ctx :=
  [tracked_event 0 "O" "H" "x" [0;0;0;0] 10; tracked_event 0 "M" "U" "i" [] 20;
   tracked_event 0 "O" "M" "=" [1;0;0;0;0;0;0;0;0;0;0;0] 30;
   tracked_event 0 "X" "s" "e" [5;0;0;0;0;0;0;0;80;0;0;0;0;0;0;0] 40]%char.

Definition tracked_args : emu_args := mk_emu_args false true.
Definition tracked_init := emu_init false tracked_trace (emu_zero tracked_args tracked_trace).
Definition tracked_md : model emu := match tracked_init.1 with Ok md => md | _ => model_init end.
Definition tracked_connect := emu_connect tracked_md 100 tracked_init.2.
Definition tracked_run := emu_steps tracked_md 100 tracked_events tracked_connect.2.
Definition tracked_e : emu := tracked_run.2.

Lemma tracked_init_Ok : emu_init false tracked_trace (emu_zero tracked_args tracked_trace) = (Ok tracked_md, tracked_init.2).
Proof.
  assert (match tracked_init.1 with Ok _ => true | _ => false end = true) as H by (vm_compute; reflexivity).
  change (tracked_init = (Ok tracked_md, tracked_init.2)). unfold tracked_md. destruct tracked_init as [[md| | | |] e]; done.
Qed.
Lemma tracked_connect_Ok : emu_connect tracked_md 100 tracked_init.2 = (Ok tt, tracked_connect.2).
Proof. unfold tracked_connect. apply run_eta. vm_compute. reflexivity. Qed.
Lemma tracked_run_Ok : emu_steps tracked_md 100 tracked_events tracked_connect.2 = (Ok tt, tracked_e).
Proof. unfold tracked_e, tracked_run. apply run_eta. vm_compute. reflexivity. Qed.

Lemma tracked_shows : shows (heap_of tracked_e) (model_chan "M" 0 0) (value_int64 1).
Proof.
  assert (chan_read <$> h_chan (heap_of tracked_e) !! model_chan "M" 0 0 = Some (value_int64 1)) as E by (vm_compute; reflexivity).
  apply fmap_Some in E as (c & Hc & E). exists c. split; [exact Hc|symmetry; exact E].
Qed.
Lemma tracked_runs : exists th, h_thread (heap_of tracked_e) !! 0%nat = Some th /\ t_state th = TH_ST_RUNNING.
Proof.
  assert (t_state <$> h_thread (heap_of tracked_e) !! 0%nat = Some TH_ST_RUNNING) as E by (vm_compute; reflexivity).
  apply fmap_Some in E as (th & Hth & E). exists th. split; [exact Hth|symmetry; exact E].
Qed.

(** In the state it ends in, the thread runs inside a function of MPI, and the
    track of the thread shows it. *)
Lemma emulation_tracks_witness :
  (thread_tracks_show (ch "M") mpi_th_spec tracked_e /\ cpu_tracks_show (ch "M") mpi_cpu_spec tracked_e) /\
  mark_tracks_show (mark_types (h_mark (heap_of tracked_init.2))) tracked_e /\
  exists n tk, x_thread (em_ext tracked_e) !! (ch "M", 0%nat) = Some n /\ track_at (em_ext tracked_e) n 0 = Some tk /\
    shows (heap_of tracked_e) (tk_ch tk) (value_int64 1).
Proof.
  destruct (emulation_tracks false tracked_trace tracked_args tracked_md tracked_init.2 100 tracked_connect.2 100 tracked_events tracked_e
    tracked_init_Ok tracked_connect_Ok tracked_run_Ok) as (_ & H & Hm).
  assert (thread_tracks_show (ch "M") mpi_th_spec tracked_e /\ cpu_tracks_show (ch "M") mpi_cpu_spec tracked_e) as HM.
  { apply H; [spec_tac|]. apply (bool_decide_unpack _). vm_compute. exact I. }
  split; [exact HM|]. split.
  - apply Hm; [apply (bool_decide_unpack _); vm_compute; exact I|]. apply (bool_decide_unpack _). vm_compute. exact I.
  - destruct tracked_runs as (th & Ht & Est). destruct (proj1 HM 0%nat (ex_intro _ th Ht)) as (n & Hn & Htr).
    destruct (Htr 0%nat TRACK_TH_RUN eq_refl) as (tk & Htk & Em & Hf). exists n, tk. split; [exact Hn|]. split; [exact Htk|].
    assert (tk_mode tk <> TRACK_TH_ANY) as Hany by (rewrite Em; discriminate).
    pose proof (Hf th (value_int64 1) Ht tracked_shows Hany) as Hs. rewrite Em, Est in Hs. exact Hs.
Defined.
